(* ===== verification/_CoqProject ===== *)
-Q . S2P
Prelude.v
AscendC.v
TilingContext.v
Conv1dTypes.v
Conv1dPlanner.v
Conv1dValidation.v
Conv1dTiling.v
Conv1dElem.v
Conv1dKernel.v
Conv1dKernelLemmas.v
Conv1dLoad.v
Conv1dRun.v
Conv1dState.v
Conv1dSeqs.v
Conv1dUpdate.v
Conv1dGrid.v
Conv1dFnTask.v
Conv1dFn.v
Conv1dFnGrid.v
Conv1dRolling.v
Conv1dEndToEnd.v
Compressor.v
CompressorTile.v
CompressorRows.v
CompressorHost.v
CompressorGrid.v
Exn.v
HostRegistry.v
HostRegistryInv.v
HostRegistryOps.v
HostRegistrySpec.v
HostRegistryClaims.v
HostRuntime.v
KvGather.v
KvGatherHost.v
KvGatherGrid.v
StoreKvGroups.v
StoreKv.v
StoreKvGrid.v
Eagle.v
EagleSpec.v
EagleGrid.v
TransposeKvHost.v
TransposeKv.v
TransposeKvStep.v
TransposeKvEngine.v
TransposeKvControl.v
TransposeKvGrid.v
TransposeKvClaims.v
Ngram.v
NgramSpec.v
NgramRow.v
NgramSearch.v
NgramSmall.v
NgramBlock.v
NgramLong.v
NgramGrid.v
NgramClaims.v
Aicpu.v
SasMeta.v
SasMetaCost.v
SasMetaAssign.v
SasMetaOut.v
SasSpec.v
SasAssignLemmas.v
SasPlanLemmas.v
SasCostLemmas.v
SasBatchLemmas.v
SasPlan.v
SasPrepare.v
SasMetaClaims.v
SasSwa.v
SasSwaSpec.v
SasSwaLemmas.v
SasSwaRows.v
SasSwaCore.v
SasSwaClaims.v
SasSwaSync.v
SasSwaOrder.v
SasSwaSyncClaims.v
