(* ===== verification/Prelude.v ===== *)
(** * Verified operators of vllm-ascend-collective

    The repository is the Ascend NPU back end of vLLM: a Python plug-in
    ([vllm_ascend/]) and the custom operators of [csrc/].  An operator consists of
    a Torch adapter, a tiling function that runs on the host (it checks the call
    and chooses the launch: tiling record, tiling key, number of cores, workspace)
    and an Ascend C kernel that every core of the launch executes on its own
    unified buffer (UB) and on the global memory (GM) they all share.  This
    library models eight such components from the call to the memory it leaves,
    and the sliding-window attention operator from the scheduler that runs on the
    AI CPU to the order in which its cores process blocks.

    ** Parts, files and sources (all paths under [src/csrc/])

    - Foundations.  [Prelude]: C division, machine widths ([u32], [i32], [u64] write
      wrap-around out), the monad [M] of code that may fault, its weakest
      precondition [wp] and loop rules.  [Exn]: the monad of C++ code that throws,
      where an exception keeps the state reached.  [AscendC]: the kernel language:
      tensors with a length, GM/UB transfers that fault out of range or
      misaligned, event flags and queues that fault when misused, the capacity of
      the unified buffer ([InitBuffers]), and [run_blocks], the cores of a launch in
      some order.  [TilingContext]: what
      tiling code sees of the framework; null pointers and [GRAPH_FAILED] are
      values.
    - causal_conv1d ([moe/causal_conv1d]).  Host ([op_host]): [Conv1dTypes] (tiling
      record and keys), [Conv1dPlanner] ([causal_conv1d_tiling_planner.h]),
      [Conv1dValidation] ([..._validation.h]), [Conv1dTiling]
      ([CausalConv1dTilingFunc]).  Kernel ([op_kernel]): [Conv1dElem] (arithmetic as
      a class of operations with laws), [Conv1dKernel] (every method of the kernel
      class), [Conv1dKernelLemmas], [Conv1dLoad], [Conv1dRun], [Conv1dState],
      [Conv1dSeqs] (its stages), [Conv1dUpdate] and [Conv1dGrid] (decode mode),
      [Conv1dFnTask], [Conv1dFn], [Conv1dFnGrid], [Conv1dRolling] (prefill mode);
      [Conv1dEndToEnd] joins host and kernel.
    - CompressorMetadata ([attention/compressor_metadata]).  [Compressor] (kernel),
      [CompressorTile], [CompressorRows] (what a row must hold), [CompressorHost]
      (tiling), [CompressorGrid] (launch).
    - The mapped-host registry ([kv_cache_block_gather_binding.cpp]): a process-wide
      table of host pools mapped into device memory, with leases.
      [HostRegistry] (state and operations), [HostRegistryInv] (invariant),
      [HostRegistryOps] (specification of each operation), [HostRegistrySpec] (the
      operations as a step relation), [HostRegistryClaims]; [HostRuntime] is the
      loader of the operator library in the same file.
    - KvCacheBlockGather ([attention/kv_cache_block_gather]): gathers pages of a
      mapped host pool.  [KvGather] (kernel), [KvGatherHost] (tiling),
      [KvGatherGrid] (launch, Torch adapter, whole call over the registry).
    - StoreKVBlock ([attention/store_kv_block]): scatters new keys into the paged
      cache.  [StoreKvGroups] ([store_kv_block_pre], grouping of slots),
      [StoreKv] (tiling and kernel), [StoreKvGrid] (launch and whole call).
    - CopyAndExpandEagleInputs ([moe/copy_and_expand_eagle_inputs]): the inputs of
      the draft model.  [Eagle] (tiling, shape inference, kernel), [EagleSpec] (the
      reference for a slot, a request), [EagleGrid] (whole call).
    - TransposeKvCacheByBlock ([moe/transpose_kv_cache_by_block]): transposes cache
      blocks in place.  [TransposeKvHost] (tiling), [TransposeKv] (both kernel
      classes, as code that issues instructions), [TransposeKvStep] (the cores of a
      launch as an interleaving step relation with the cross-core barrier),
      [TransposeKvEngine] (invariant of the steps for programs of the right
      shape), [TransposeKvControl] (the kernels issue such programs),
      [TransposeKvGrid] (their cells cover the blocks), [TransposeKvClaims].
    - NgramSpecDecode ([attention/ngram_spec_decode]): drafts for speculative
      decoding by n-gram search.  [Ngram] (tiling and kernel), [NgramSpec] (what a
      row gets, and how the three searches are related), [NgramRow] (frames and the
      parts all paths share), [NgramSearch] and [NgramSmall] (rows in the unified
      buffer), [NgramBlock] (transfers of a block of rows), [NgramLong] (rows
      searched in chunks), [NgramGrid] (cores and launch), [NgramClaims].
    - SparseAttnSharedkvMetadata
      ([attention/sparse_attn_sharedkv_metadata/op_kernel_aicpu]): the scheduler
      that cuts the query rows of an attention call into shares of even cost, one
      per cube core.  [Aicpu] (vectors, attributes, C loops with fuel), [SasMeta]
      (parameters and checks), [SasMetaCost] (cost model), [SasMetaAssign]
      (assignment), [SasMetaOut] (the metadata words and [Compute]); [SasSpec]
      (what a plan is), [SasAssignLemmas], [SasPlanLemmas], [SasCostLemmas],
      [SasBatchLemmas], [SasPlan], [SasPrepare] (specifications of the operations),
      [SasMetaClaims].
    - The sliding-window kernel of sparse_attn_sharedkv
      ([attention/sparse_attn_sharedkv/op_kernel/arch32/*_swa_*]), which reads those
      words.  [SasSwa] (initialisation, loops and pipeline, as code that issues
      stage calls and flags), [SasSwaSpec] (the blocks of a row), [SasSwaLemmas],
      [SasSwaRows], [SasSwaCore] (pipeline, rows, share of a core),
      [SasSwaClaims] (scheduler and kernel together), [SasSwaSync] (a cube core and
      its vector cores as an interleaving step relation), [SasSwaOrder] (the order
      the flags impose), [SasSwaSyncClaims].

    ** What the theorems show

    - Whole calls: [accepted_call_correct], [gather_call_correct],
      [store_call_correct], [eagle_call_correct], [transpose_call_correct] and
      [ngram_call_correct] go from the host's acceptance of a call through the
      launch it prescribes to the final memory, for every order (transpose: every
      interleaving) of the cores: no fault, the specified results, everything else
      unchanged.  Where the host does not check what the kernel relies on, the
      theorem takes it as a named hypothesis and its comment says so: [store_call]
      (distinct slots inside the cache, tokens of a block in slot order, at most 48
      cores), [eagle_input] (at least one request, at most 4096 slots per request),
      [kernel_limits] of the transposition (32-bit offsets, no more cores per block
      than rows, at most 4095 rows per core), [paths_ok] of the n-gram search
      (comparison masks that cover the searched positions) and [sas_limits] of the
      scheduler.
    - Attention: [sas_metadata_covers_rows] and [sas_plan_balanced] (the scheduler
      gives every row to one core, and no core much more than its share),
      [sas_row_cost_is_block_sum] and [sas_cost_counts_kernel_blocks] (its closed
      cost formula is the cost of the blocks the kernel then issues),
      [sas_kernel_rows_once] (scheduler and kernel: every block of every row
      exactly once, in order, on one cube core and its vector cores),
      [sas_cores_never_deadlock] and [sas_stages_in_order] (the flags between the
      cores, under every interleaving: progress, order of the stages, and two
      buffers suffice).
    - Launches: [update_grid_correct], [update_interleaving_correct] (arbitrary
      interleaving of tasks, progress and a decreasing measure),
      [fn_grid_correct] (two phases around a barrier), [compressor_grid_correct],
      [gather_grid_correct], [transpose_schedules_live] (no deadlock at the barrier),
      [transpose_programs_typed] (the protocol of queue and barrier),
      [transpose_round_trip].
    - Drafts: [ngram_drafts_sound] (a draft continues an earlier occurrence of the
      end of its row) and [ngram_drafts_reference] (when the searches of the kernel
      agree with the golden reference of the repository, which takes the shortest
      n-gram that occurs; on rows in the unified buffer the kernel prefers longer
      ones).
    - Host code: soundness or exactness of the tiling functions and planners,
      with the buffer bounds ([CausalConv1dTilingFunc_sound],
      [CompressorMetadataTilingFunc_sound], [KvCacheBlockGatherTilingFunc_exact],
      [gather_launch_fits], [StoreKVBlockTilingFunc_split], [fn_host_plan_correct],
      [seq_range_plan_correct], [update_choice_correct],
      [store_kv_block_pre_exact], [CalTiling_exact], [findFactorsOptimized_exact]);
      the distribution of work ([fn_blocks_partition]) and what a request
      changes ([eagle_request_local]);
      termination of the search in the kernel ([FindVarlenSeqByToken_terminates]);
      equality of the rolling and the direct convolution ([rolling_equals_direct]).
    - Registry: an invariant of all reachable states, balanced registrations with
      a fence before each release, leases that resolve, failures without effect
      (except a registration that runs out of identifiers), round trip, no reuse of
      handles, rejection after fork.  Loader: the first library that is loaded stays,
      and the entry points are those of the first gather ([load_authoritative]).
    - Examples that end a file show what the code does outside these contracts
      (dropped channel tiles and groups, padding inside a run of slots, wrapped
      extents, buffers larger than the unified buffer, more cores than rows, a leak
      on exhausted handles, division by zero on an empty block list or on zero
      heads, stale comparison masks, a short list of key lengths, a gather before
      the operator library is loaded).

    ** Modelling decisions

    - A tensor is a length and a function; an access outside the length is a
      fault, so a theorem that a launch returns [Ok] is a memory-safety theorem.
      UB contents are arbitrary at the start of a core.
    - Cores run one after another in an arbitrary permutation ([run_blocks]); for
      decode mode [Conv1dGrid] also interleaves their tasks, and for
      TransposeKvCacheByBlock, whose cores exchange data through global memory,
      they interleave instruction by instruction: a wait is enabled once every
      core has set the flag as often.  Within a core, the pipes are ordered by
      event flags, whose discipline is checked (a flag set twice or awaited unset
      is a fault), and transfers then happen in program order; kernels that leave
      the flags to the compiler (CopyAndExpandEagleInputs, NgramSpecDecode) are
      taken in program order.
    - Buffers have the sizes that the kernel asks for.  StoreKVBlock,
      CopyAndExpandEagleInputs and NgramSpecDecode, whose hosts do not bound these
      sizes by the capacity of the unified buffer, take them from a buffer of a
      given size ([InitBuffers]) and fault when they do not fit; their theorems
      treat both cases.  For the gather and CompressorMetadata that the buffers fit
      is a statement of the tiling theorems; the buffers of causal_conv1d have
      constant sizes and those of the transposition are the whole unified buffer.
    - Floating-point arithmetic is the class of [Conv1dElem]; no law beyond those it
      lists is used.
    - Loops with a C++ condition take fuel or a bound from the data: [batch] steps
      for the binary search ([batch < 2^n] is proved enough), the number of slots
      for grouping, the number of tiles or rows for copy loops, the number whose
      divisors are searched; each specification proves that the bound is enough.
      Loops that carry a value and may be left early are [for_acc].  The loops of
      the scheduler take fuel; [enough_fuel] (more than the batches, and more than
      the rows of each batch) is proved enough.
    - The attention theorems are for groups of at most 256 heads (one buffer per
      block), the window of 127 tokens that the operator supports, at most 36 cube
      cores (the size of the table) and counts that fit 32 bits; [sas_limits] and
      [swa_call] state these bounds.  A flag between cores is a counter: a set
      raises it for both vector cores, a wait of the cube core needs both.
    - Not under [src/] and therefore parameters: the ACL runtime ([Acl]), the
      dynamic linker ([Linker]), the platform description ([PlatformInfo],
      [GetLibApiWorkSpaceSize], [TOTAL_UB_SIZE]), the tensor lists of a dynamic
      input.

    ** Not modelled

    Operators built on the cube unit, Catlass or HCCL ([mla_preprocess], [gmm],
    [mc2], the other attention kernels), whose logic is in vendor instructions and
    libraries outside the repository; the other vector operators of [attention] and
    [moe] (reshape_and_cache_bnsd, load_index_kv_cache, causal_conv1d_v310);
    operator registration and shape inference, [torch_binding.cpp], the allocator
    plug-in, Python code.  Of the modelled files: the arithmetic inside the
    attention stages; the creation of ACL descriptors and the enqueueing of ACLNN
    calls; mutexes (every registry operation holds the lock for its whole
    body); 64-bit overflow of element counts, which a tensor in memory cannot
    reach. *)

(** ** Shared vocabulary *)

(** C integer division, machine widths, the error/state monad in which host and
    device code is written, its weakest precondition and the loop combinators
    with their invariant rules. *)

From Stdlib Require Export ZArith Lia String.
From stdpp Require Export base numbers list sets functions.
#[global] Open Scope Z_scope.

(** ** Notations and tactics *)

Declare Scope c_scope.
Delimit Scope c_scope with c.
(** C++ integer division and remainder truncate towards zero. *)
Notation "a '/c' b" := (Z.quot a b) (at level 40, left associativity) : c_scope.
Notation "a '%c' b" := (Z.rem a b) (at level 40, left associativity) : c_scope.
#[global] Open Scope c_scope.

Ltac zlia := Z.to_euclidean_division_equations; lia.
Ltac znia := Z.to_euclidean_division_equations; nia.

Create HintDb conv discriminated.

(** Turns boolean tests of the code into propositions. *)
Ltac bool_prop :=
  repeat match goal with
  | H : (_ && _)%bool = true |- _ => apply andb_prop in H; destruct H
  | H : (_ && _)%bool = false |- _ => apply Bool.andb_false_iff in H
  | H : (_ || _)%bool = true |- _ => apply Bool.orb_prop in H
  | H : (_ || _)%bool = false |- _ => apply Bool.orb_false_elim in H; destruct H
  | H : negb _ = true |- _ => apply Bool.negb_true_iff in H
  | H : negb _ = false |- _ => apply Bool.negb_false_iff in H
  | H : (_ <? _) = true |- _ => apply Z.ltb_lt in H
  | H : (_ <? _) = false |- _ => apply Z.ltb_ge in H
  | H : (_ <=? _) = true |- _ => apply Z.leb_le in H
  | H : (_ <=? _) = false |- _ => apply Z.leb_gt in H
  | H : (_ =? _) = true |- _ => apply Z.eqb_eq in H
  | H : (_ =? _) = false |- _ => apply Z.eqb_neq in H
  | H : (_ >=? _) = _ |- _ => rewrite Z.geb_leb in H
  | H : (_ >? _) = _ |- _ => rewrite Z.gtb_ltb in H
  end.

(** Case analysis on the next conditional of the goal. *)
Ltac case_if :=
  match goal with
  | |- context [if ?b then _ else _] =>
      lazymatch b with
      | context [if _ then _ else _] => fail
      | _ => let E := fresh "E" in destruct b eqn:E; bool_prop
      end
  end.

(** Case analysis on the next conditional of a hypothesis. *)
Ltac case_if_in H :=
  match type of H with
  | context [if ?b then _ else _] =>
      lazymatch b with
      | context [if _ then _ else _] => fail
      | _ => let E := fresh "E" in destruct b eqn:E; bool_prop
      end
  end.

(** ** Integers *)

(** Narrowing casts: [static_cast<int32_t>] and [static_cast<uint32_t>]. *)
Definition u8 (z : Z) : Z := z mod 2 ^ 8.
Definition u16 (z : Z) : Z := z mod 2 ^ 16.
Definition u32 (z : Z) : Z := z mod 2 ^ 32.
Definition u64 (z : Z) : Z := z mod 2 ^ 64.
Definition i32 (z : Z) : Z := (z + 2 ^ 31) mod 2 ^ 32 - 2 ^ 31.
Definition INT32_MAX : Z := 2 ^ 31 - 1.
Definition INT64_MAX : Z := 2 ^ 63 - 1.

Definition fits_i32 (z : Z) : Prop := - 2 ^ 31 <= z < 2 ^ 31.
Definition fits_u32 (z : Z) : Prop := 0 <= z < 2 ^ 32.

Lemma i32_id z : fits_i32 z -> i32 z = z.
Proof. unfold fits_i32, i32. intros H. rewrite Z.mod_small by lia. lia. Qed.

Lemma u8_id z : 0 <= z < 2 ^ 8 -> u8 z = z.
Proof. apply Z.mod_small. Qed.
Lemma u16_id z : 0 <= z < 2 ^ 16 -> u16 z = z.
Proof. apply Z.mod_small. Qed.
Lemma u64_id z : 0 <= z < 2 ^ 64 -> u64 z = z.
Proof. apply Z.mod_small. Qed.
Lemma u32_id z : fits_u32 z -> u32 z = z.
Proof. unfold fits_u32, u32. intros H. apply Z.mod_small. lia. Qed.

Lemma i32_range z : fits_i32 (i32 z).
Proof. unfold fits_i32, i32. pose proof (Z.mod_pos_bound (z + 2 ^ 31) (2 ^ 32)). lia. Qed.

Lemma quot_nonneg_div a b : 0 <= a -> 0 < b -> a /c b = a / b.
Proof. intros. apply Z.quot_div_nonneg; lia. Qed.

Lemma rem_nonneg_mod a b : 0 <= a -> 0 < b -> a %c b = a mod b.
Proof. intros. apply Z.rem_mod_nonneg; lia. Qed.

(** The rounding-up quotient [(a + b - 1) / b], characterised. *)
Lemma ceil_quot_spec a b : 0 <= a -> 0 < b ->
  0 <= (a + b - 1) /c b /\ a <= (a + b - 1) /c b * b /\ ((a + b - 1) /c b - 1) * b < a.
Proof.
  intros Ha Hb. rewrite quot_nonneg_div by lia.
  pose proof (Z.div_mod (a + b - 1) b ltac:(lia)).
  pose proof (Z.mod_pos_bound (a + b - 1) b Hb).
  pose proof (Z.div_pos (a + b - 1) b ltac:(lia) Hb).
  nia.
Qed.

Lemma ceil_quot_pos a b : 0 < a -> 0 < b -> 0 < (a + b - 1) /c b.
Proof. intros Ha Hb. pose proof (ceil_quot_spec a b ltac:(lia) Hb). nia. Qed.

(** Unique decomposition of an index into tile and offset. *)
Lemma tile_unique q1 r1 q2 r2 b :
  q1 * b + r1 = q2 * b + r2 -> 0 <= r1 < b -> 0 <= r2 < b -> q1 = q2 /\ r1 = r2.
Proof. intros. assert (q1 = q2) by nia. subst. lia. Qed.

(** Cell [k] of row [i] lies inside [rows] rows. *)
Lemma row_index_bound i k rows pitch : 0 <= i < rows -> 0 <= k < pitch -> 0 <= i * pitch + k < rows * pitch.
Proof. nia. Qed.

(** ** Outcomes and the state-and-error monad *)

Inductive outcome (E A : Type) : Type :=
  | Ok (a : A)
  | Err (e : E).
Arguments Ok {E A} a.
Arguments Err {E A} e.

#[global] Instance outcome_ret E : MRet (outcome E) := fun A a => Ok a.
#[global] Instance outcome_bind E : MBind (outcome E) :=
  fun A B f m => match m with Ok a => f a | Err e => Err e end.

Definition guard_ok {E} (b : bool) (e : E) : outcome E unit := if b then Ok tt else Err e.

Lemma outcome_bind_ok {E A B} (m : outcome E A) (f : A -> outcome E B) b :
  m ≫= f = Ok b -> exists a, m = Ok a /\ f a = Ok b.
Proof. destruct m; [eauto|discriminate]. Qed.

Lemma bind_Ok {E A B} (a : A) (f : A -> outcome E B) : (Ok a ≫= f) = f a.
Proof. done. Qed.

Lemma guard_ok_inv {E} b (e : E) u : guard_ok b e = Ok u -> b = true.
Proof. destruct b; [done|discriminate]. Qed.

(** Decomposes the success of a chain of fallible host steps. *)
Ltac inv_ok H :=
  repeat match type of H with
  | _ ≫= _ = Ok _ =>
      let a := fresh "a" in let H1 := fresh "Hok" in
      apply outcome_bind_ok in H; destruct H as (a & H1 & H);
      try (apply guard_ok_inv in H1; bool_prop)
  end.

(** Code that reads and writes a state [S] and may raise a fault. *)
Definition M (S E A : Type) : Type := S -> outcome E (A * S).

#[global] Instance M_ret S E : MRet (M S E) := fun A a s => Ok (a, s).
#[global] Instance M_bind S E : MBind (M S E) :=
  fun A B f m s => match m s with Ok (a, s') => f a s' | Err e => Err e end.

Section MonadOps.
Context {S E : Type}.

Definition gets {A} (f : S -> A) : M S E A := fun s => Ok (f s, s).
Definition modify (f : S -> S) : M S E unit := fun s => Ok (tt, f s).
Definition fault {A} (e : E) : M S E A := fun _ => Err e.
Definition check (b : bool) (e : E) : M S E unit := if b then mret tt else fault e.
Definition when (b : bool) (m : M S E unit) : M S E unit := if b then m else mret tt.

(** [for (i = lo; i < hi; ++i) body(i)]. *)
Fixpoint for_loop (n : nat) (i : Z) (body : Z -> M S E unit) : M S E unit :=
  match n with
  | O => mret tt
  | Datatypes.S n' => body i ≫= fun _ => for_loop n' (i + 1) body
  end.
Definition for_range (lo hi : Z) (body : Z -> M S E unit) : M S E unit :=
  for_loop (Z.to_nat (hi - lo)) lo body.

(** [for (i = lo; i < hi; i += step) body(i)], for [step >= 1]: the fuel
    [hi - lo] bounds the number of iterations. *)
Fixpoint for_step_loop (n : nat) (i hi step : Z) (body : Z -> M S E unit) : M S E unit :=
  match n with
  | O => mret tt
  | Datatypes.S n' =>
      if i <? hi then body i ≫= fun _ => for_step_loop n' (i + step) hi step body
      else mret tt
  end.
Definition for_step (lo hi step : Z) (body : Z -> M S E unit) : M S E unit :=
  for_step_loop (Z.to_nat (hi - lo)) lo hi step body.

(** ** Weakest precondition: total correctness, faults excluded *)

Definition wp {A} (m : M S E A) (Q : A -> S -> Prop) (s : S) : Prop :=
  match m s with Ok (a, s') => Q a s' | Err _ => False end.

Lemma wp_ret {A} (a : A) (Q : A -> S -> Prop) s : Q a s -> wp (mret a) Q s.
Proof. done. Qed.

Lemma wp_bind {A B} (m : M S E A) (f : A -> M S E B) (Q : B -> S -> Prop) s :
  wp m (fun a s' => wp (f a) Q s') s -> wp (m ≫= f) Q s.
Proof. unfold wp, mbind, M_bind. destruct (m s) as [[a s']|]; auto. Qed.

Lemma wp_mono {A} (m : M S E A) (P Q : A -> S -> Prop) s :
  wp m P s -> (forall a s', P a s' -> Q a s') -> wp m Q s.
Proof. unfold wp. destruct (m s) as [[a s']|]; auto. Qed.

Lemma wp_seq {A B} (m : M S E A) (f : A -> M S E B) (P : A -> S -> Prop) Q s :
  wp m P s -> (forall a s', P a s' -> wp (f a) Q s') -> wp (m ≫= f) Q s.
Proof. intros H1 H2. apply wp_bind. eapply wp_mono; eauto. Qed.

Lemma wp_assoc {A B C} (m : M S E A) (f : A -> M S E B) (g : B -> M S E C) Q s :
  wp ((m ≫= f) ≫= g) Q s -> wp (m ≫= fun a => f a ≫= g) Q s.
Proof. unfold wp, mbind, M_bind. by destruct (m s) as [[a s']|]. Qed.

Lemma wp_gets {A} (f : S -> A) (Q : A -> S -> Prop) s : Q (f s) s -> wp (gets f) Q s.
Proof. done. Qed.

Lemma wp_modify (f : S -> S) (Q : unit -> S -> Prop) s : Q tt (f s) -> wp (modify f) Q s.
Proof. done. Qed.

Lemma wp_check b e (Q : unit -> S -> Prop) s : b = true -> Q tt s -> wp (check b e) Q s.
Proof. intros ->. done. Qed.

Lemma wp_when_true b m (Q : unit -> S -> Prop) s : b = true -> wp m Q s -> wp (when b m) Q s.
Proof. intros ->. done. Qed.

Lemma wp_when_false b m (Q : unit -> S -> Prop) s : b = false -> Q tt s -> wp (when b m) Q s.
Proof. intros ->. done. Qed.

Lemma wp_run {A} (m : M S E A) Q s : wp m Q s -> exists a s', m s = Ok (a, s') /\ Q a s'.
Proof. unfold wp. destruct (m s) as [[a s']|]; [eauto|done]. Qed.

Lemma wp_for_range (I : Z -> S -> Prop) lo hi body (Q : unit -> S -> Prop) s :
  lo <= hi ->
  I lo s ->
  (forall i s, lo <= i < hi -> I i s -> wp (body i) (fun _ s' => I (i + 1) s') s) ->
  (forall s', I hi s' -> Q tt s') ->
  wp (for_range lo hi body) Q s.
Proof.
  intros Hle HI Hbody HQ. unfold for_range.
  assert (forall n i s, Z.of_nat n = hi - i -> lo <= i -> I i s ->
            wp (for_loop n i body) Q s) as Hgen.
  { induction n as [|n IH]; intros i s' Hn Hi HIi; simpl.
    - apply wp_ret, HQ. by replace hi with i by lia.
    - eapply wp_seq; [apply Hbody; [lia|done]|]. intros ? ? ?. apply IH; [lia..|done]. }
  apply Hgen; [lia..|done].
Qed.

(** The loop rule when the range may be empty or negative. *)
Lemma wp_for_range_empty lo hi body (Q : unit -> S -> Prop) s :
  hi <= lo -> Q tt s -> wp (for_range lo hi body) Q s.
Proof. intros H HQ. unfold for_range. by replace (Z.to_nat (hi - lo)) with O by lia. Qed.

(** Strided loops: the invariant is indexed by the loop variable, which
    stays congruent to [lo] modulo [step]. *)
Lemma wp_for_step (I : Z -> S -> Prop) lo hi step body (Q : unit -> S -> Prop) s :
  1 <= step ->
  I lo s ->
  (forall k s, 0 <= k -> lo + k * step < hi -> I (lo + k * step) s ->
     wp (body (lo + k * step)) (fun _ s' => I (lo + (k + 1) * step) s') s) ->
  (forall k s', 0 <= k -> hi <= lo + k * step -> (k = 0 \/ lo + (k - 1) * step < hi) ->
     I (lo + k * step) s' -> Q tt s') ->
  wp (for_step lo hi step body) Q s.
Proof.
  intros Hstep HI Hbody HQ. unfold for_step.
  assert (forall n k s, 0 <= k -> (k = 0 \/ lo + (k - 1) * step < hi) ->
            hi - (lo + k * step) <= Z.of_nat n ->
            I (lo + k * step) s -> wp (for_step_loop n (lo + k * step) hi step body) Q s) as Hgen.
  { induction n as [|n IH]; intros k s' Hk Hlast Hn HIk; simpl.
    - apply wp_ret. eapply HQ; eauto. lia.
    - destruct (_ <? hi) eqn:Hlt; bool_prop.
      + eapply wp_seq; [apply Hbody; [lia..|done]|]. intros ? s'' HI'.
        replace (lo + k * step + step) with (lo + (k + 1) * step) by lia.
        apply IH; [lia|right|nia|done]. by replace (k + 1 - 1) with k by lia.
      + apply wp_ret. eapply HQ; eauto. }
  specialize (Hgen (Z.to_nat (hi - lo)) 0 s). rewrite Z.mul_0_l, Z.add_0_r in Hgen.
  apply Hgen; [lia|auto|lia|done].
Qed.
End MonadOps.

#[global] Arguments M_bind : simpl never.
#[global] Arguments wp : simpl never.

(** One step of symbolic execution. *)
Ltac wp_step :=
  lazymatch goal with
  | |- wp (mret _) _ _ => apply wp_ret
  | |- wp (_ ≫= _) _ _ => apply wp_bind
  | |- wp (gets _) _ _ => apply wp_gets
  | |- wp (modify _) _ _ => apply wp_modify
  | |- wp (let _ := _ in _) _ _ => cbv zeta
  end.

(** ** Loops that carry a value and may be left early

    The body continues with [inl a] or leaves the loop with [inr a]. *)
Section AccLoops.
Context {S E A : Type}.

Fixpoint for_acc_loop (n : nat) (i step : Z) (a : A) (body : Z -> A -> M S E (A + A)) : M S E A :=
  match n with
  | O => mret a
  | Datatypes.S n' =>
      r ← body i a;
      match r with
      | inl a' => for_acc_loop n' (i + step) step a' body
      | inr a' => mret a'
      end
  end.

(** [for (i = lo; i < hi; ++i)] and [for (i = lo; i < hi; i += step)]. *)
Definition for_acc (lo hi : Z) (a : A) (body : Z -> A -> M S E (A + A)) : M S E A :=
  for_acc_loop (Z.to_nat (hi - lo)) lo 1 a body.
Definition for_acc_step (lo hi step : Z) (a : A) (body : Z -> A -> M S E (A + A)) : M S E A :=
  for_acc_loop (Z.to_nat ((hi - lo + step - 1) / step)) lo step a body.

Lemma wp_for_acc_loop (I : Z -> A -> S -> Prop) n i step a body (Q : A -> S -> Prop) s :
  I i a s ->
  (forall k a s, 0 <= k < Z.of_nat n -> I (i + k * step) a s -> wp (body (i + k * step) a) (fun r s' =>
     match r with inl a' => I (i + (k + 1) * step) a' s' | inr a' => Q a' s' end) s) ->
  (forall a s, I (i + Z.of_nat n * step) a s -> Q a s) ->
  wp (for_acc_loop n i step a body) Q s.
Proof.
  revert i a s. induction n as [|n IH]; intros i a s HI Hbody HQ; cbn [for_acc_loop].
  - apply wp_ret, HQ. by rewrite Z.mul_0_l, Z.add_0_r.
  - eapply wp_seq; [specialize (Hbody 0 a s); rewrite Z.mul_0_l, Z.add_0_r in Hbody; apply Hbody; [lia|done]|].
    cbv beta. intros [a'|a'] s' Hr; [|by apply wp_ret]. replace (i + (0 + 1) * step) with (i + step) in Hr by lia.
    apply IH; [done| |].
    + intros k a1 s1 Hk HI1. replace (i + step + k * step) with (i + (k + 1) * step) in * by lia.
      replace (i + step + (k + 1) * step) with (i + (k + 1 + 1) * step) by lia. apply Hbody; [lia|done].
    + intros a1 s1 HI1. apply HQ. by replace (i + Z.of_nat (Datatypes.S n) * step) with (i + step + Z.of_nat n * step) by lia.
Qed.

Lemma wp_for_acc (I : Z -> A -> S -> Prop) lo hi a body (Q : A -> S -> Prop) s :
  I lo a s ->
  (forall i a s, lo <= i < hi -> I i a s -> wp (body i a) (fun r s' =>
     match r with inl a' => I (i + 1) a' s' | inr a' => Q a' s' end) s) ->
  (forall a s, I (Z.max lo hi) a s -> Q a s) ->
  wp (for_acc lo hi a body) Q s.
Proof.
  intros HI Hbody HQ. apply (wp_for_acc_loop I); [done| |].
  - intros k a1 s1 Hk HI1. rewrite Z.mul_1_r in *. replace (lo + (k + 1) * 1) with (lo + k + 1) by lia. apply Hbody; [lia|done].
  - intros a1 s1 HI1. apply HQ. by replace (Z.max lo hi) with (lo + Z.of_nat (Z.to_nat (hi - lo)) * 1) by lia.
Qed.
End AccLoops.

(** ** Ranges *)

(** [lo, lo+1, ..., hi-1]. *)
Definition zrange (lo hi : Z) : list Z := seqZ lo (hi - lo).

Lemma elem_of_zrange x lo hi : x ∈ zrange lo hi <-> lo <= x < hi.
Proof. unfold zrange. rewrite elem_of_seqZ. lia. Qed.

Lemma NoDup_zrange lo hi : NoDup (zrange lo hi).
Proof. apply NoDup_seqZ. Qed.

Lemma zrange_split lo mid hi : lo <= mid <= hi -> zrange lo hi = zrange lo mid ++ zrange mid hi.
Proof.
  intros H. unfold zrange. replace (hi - lo) with ((mid - lo) + (hi - mid)) by lia. rewrite seqZ_app by lia.
  f_equal. f_equal. lia.
Qed.

Lemma zrange_one i : zrange i (i + 1) = [i].
Proof. unfold zrange. by replace (i + 1 - i) with 1 by lia. Qed.

Lemma zrange_nil lo hi : hi <= lo -> zrange lo hi = [].
Proof. intros. unfold zrange. by rewrite seqZ_nil by lia. Qed.

Lemma zrange_cons lo hi : lo < hi -> zrange lo hi = lo :: zrange (lo + 1) hi.
Proof. intros. rewrite (zrange_split lo (lo + 1) hi), zrange_one by lia. done. Qed.

Lemma zrange_snoc lo i : lo <= i -> zrange lo (i + 1) = zrange lo i ++ [i].
Proof. intros. by rewrite (zrange_split lo i (i + 1)), zrange_one by lia. Qed.

(** The first element of a range that passes a test. *)
Lemma find_zrange_some test lo hi p :
  find test (zrange lo hi) = Some p <-> lo <= p < hi /\ test p = true /\ forall q, lo <= q < p -> test q = false.
Proof.
  remember (Z.to_nat (hi - lo)) as n eqn:Hn. revert lo Hn. induction n as [|n IH]; intros lo Hn.
  - rewrite zrange_nil by lia. split; [done|]. intros [? _]. lia.
  - rewrite zrange_cons by lia. simpl. destruct (test lo) eqn:Ht.
    + split; [intros [= <-]|intros (H1 & H2 & H3)]; [split; [lia|]; split; [done|]; intros; lia|]. f_equal.
      destruct (decide (lo = p)) as [|Hne]; [done|]. rewrite H3 in Ht by lia. done.
    + rewrite IH by lia. split; intros (H1 & H2 & H3); (split; [|split; [done|]]).
      * lia.
      * intros q Hq. destruct (decide (q = lo)) as [->|]; [done|]. apply H3. lia.
      * destruct (decide (p = lo)) as [->|]; [congruence|lia].
      * intros q Hq. apply H3. lia.
Qed.

Lemma find_zrange_none test lo hi : find test (zrange lo hi) = None <-> forall q, lo <= q < hi -> test q = false.
Proof.
  split; [intros Hf q Hq; destruct (test q) eqn:Ht; [|done]; by rewrite (find_none _ _ Hf q) in Ht by (apply list_elem_of_In, elem_of_zrange; lia)|].
  intros H. destruct (find test (zrange lo hi)) as [p|] eqn:Hf; [|done]. apply find_some in Hf as [Hin%list_elem_of_In%elem_of_zrange Ht].
  rewrite H in Ht by lia. done.
Qed.

Lemma forallb_zrange test lo hi : forallb test (zrange lo hi) = true <-> forall q, lo <= q < hi -> test q = true.
Proof.
  rewrite forallb_forall. split; intros H q Hq; apply H.
  - apply list_elem_of_In, elem_of_zrange. lia.
  - apply list_elem_of_In, elem_of_zrange in Hq. lia.
Qed.

(** Loops that stop at the first index that passes, or fails, a test. *)
Lemma wp_find {S E A} (I : S -> Prop) (test : Z -> bool) (g : Z -> A) lo hi a (body : Z -> A -> M S E (A + A)) (Q : A -> S -> Prop) s :
  I s ->
  (forall i s, lo <= i < hi -> I s -> wp (body i a) (fun r s' => I s' /\ r = if test i then inr (g i) else inl a) s) ->
  (forall s', I s' -> Q (match find test (zrange lo hi) with Some p => g p | None => a end) s') ->
  wp (for_acc lo hi a body) Q s.
Proof.
  intros HI Hbody HQ. apply (wp_for_acc (fun i a' s => I s /\ a' = a /\ forall q, lo <= q < i -> test q = false)).
  - split; [done|]. split; [done|]. intros; lia.
  - intros i a' s1 Hi (I1 & -> & Hno). eapply wp_mono; [by apply Hbody|]. intros r s2 [I2 ->]. destruct (test i) eqn:Ht.
    + specialize (HQ s2 I2). by rewrite (proj2 (find_zrange_some test lo hi i)) in HQ by done.
    + split; [done|]. split; [done|]. intros q Hq. destruct (decide (q = i)) as [->|]; [done|]. apply Hno. lia.
  - intros a' s1 (I1 & -> & Hno). specialize (HQ s1 I1). rewrite (proj2 (find_zrange_none test lo hi)) in HQ; [done|].
    intros q Hq. apply Hno. lia.
Qed.

Lemma wp_forallb {S E} (I : S -> Prop) (test : Z -> bool) lo hi (body : Z -> bool -> M S E (bool + bool)) (Q : bool -> S -> Prop) s :
  I s ->
  (forall i c s, lo <= i < hi -> I s -> wp (body i c) (fun r s' => I s' /\ r = if test i then inl true else inr false) s) ->
  (forall s', I s' -> Q (forallb test (zrange lo hi)) s') ->
  wp (for_acc lo hi true body) Q s.
Proof.
  intros HI Hbody HQ. apply (wp_for_acc (fun i a s => I s /\ a = true /\ forall q, lo <= q < i -> test q = true)).
  - split; [done|]. split; [done|]. intros; lia.
  - intros i a s1 Hi (I1 & -> & Hall). eapply wp_mono; [by apply Hbody|]. intros r s2 [I2 ->]. destruct (test i) eqn:Ht.
    + split; [done|]. split; [done|]. intros q Hq. destruct (decide (q = i)) as [->|]; [done|]. apply Hall. lia.
    + specialize (HQ s2 I2). destruct (forallb test (zrange lo hi)) eqn:Hf; [|done]. rewrite forallb_zrange in Hf.
      rewrite Hf in Ht by lia. done.
  - intros a s1 (I1 & -> & Hall). specialize (HQ s1 I1). rewrite (proj2 (forallb_zrange test lo hi)) in HQ; [done|].
    intros q Hq. apply Hall. lia.
Qed.

Lemma find_shift test off len : find test (zrange off (off + len)) = Z.add off <$> find (fun p => test (off + p)) (zrange 0 len).
Proof.
  destruct (find (fun p => test (off + p)) (zrange 0 len)) as [x|] eqn:E; cbn [fmap option_fmap option_map].
  - apply find_zrange_some in E as (H1 & H2 & H3). apply find_zrange_some. split; [lia|]. split; [done|].
    intros q Hq. replace q with (off + (q - off)) by lia. apply H3. lia.
  - rewrite find_zrange_none in E |- *. intros q Hq. replace q with (off + (q - off)) by lia. apply E. lia.
Qed.

(** The search for the first index, one stretch of [step] indices at a time. *)
Lemma wp_find_step {S E A} (I : S -> Prop) (test : Z -> bool) (g : Z -> A) hi step a (body : Z -> A -> M S E (A + A)) (Q : A -> S -> Prop) s :
  1 <= step -> 0 <= hi -> I s ->
  (forall off s, 0 <= off < hi -> off mod step = 0 -> I s -> wp (body off a) (fun r s' => I s' /\
     r = match find test (zrange off (off + Z.min step (hi - off))) with Some p => inr (g p) | None => inl a end) s) ->
  (forall s', I s' -> Q (match find test (zrange 0 hi) with Some p => g p | None => a end) s') ->
  wp (for_acc_step 0 hi step a body) Q s.
Proof.
  intros Hstep Hhi HI Hbody HQ. unfold for_acc_step. set (k := (hi - 0 + step - 1) / step).
  assert (0 <= k /\ hi <= k * step /\ (k - 1) * step < hi) as (Hk & Hk1 & Hk2) by (subst k; split; [apply Z.div_pos; lia|znia]).
  clearbody k.
  apply (wp_for_acc_loop (fun off a' s => I s /\ a' = a /\ forall q, 0 <= q < Z.min off hi -> test q = false)).
  - split; [done|]. split; [done|]. intros; lia.
  - intros i a' s1 Hi (I1 & -> & Hno). rewrite Z2Nat.id, Z.add_0_l in * by done.
    assert (0 <= i * step < hi) as Hoff by nia. assert ((i * step) mod step = 0) by (apply Z.mod_mul; lia).
    replace ((i + 1) * step) with (i * step + step) by lia. rewrite Z.add_0_l. remember (i * step) as off eqn:Eoff. clear Hi Eoff.
    eapply wp_mono; [by apply Hbody|]. cbv beta. intros r s2 [I2 ->]. destruct (find test (zrange off (off + Z.min step (hi - off)))) as [p|] eqn:Hf.
    + specialize (HQ s2 I2). apply find_zrange_some in Hf as (H1 & H2 & H3).
      rewrite (proj2 (find_zrange_some test 0 hi p)) in HQ; [done|]. split; [lia|]. split; [done|].
      intros q Hq. destruct (decide (q < off)); [apply Hno; lia|]. apply H3. lia.
    + split; [done|]. split; [done|]. intros q Hq. rewrite find_zrange_none in Hf. destruct (decide (q < off)); [apply Hno; lia|].
      apply Hf. lia.
  - intros a' s1 (I1 & -> & Hno). specialize (HQ s1 I1). rewrite (proj2 (find_zrange_none test 0 hi)) in HQ; [done|].
    intros q Hq. rewrite Z2Nat.id in Hno by done. apply Hno. lia.
Qed.

(** Running a computation for each element of a list in order. *)
Fixpoint for_list {S E A} (l : list A) (body : A -> M S E unit) : M S E unit :=
  match l with
  | [] => mret tt
  | a :: l' => body a ≫= fun _ => for_list l' body
  end.

Lemma wp_for_list {S E A} (I : list A -> S -> Prop) (l : list A) (body : A -> M S E unit)
    (Q : unit -> S -> Prop) s :
  I [] s ->
  (forall pre a s, (exists suf, l = pre ++ a :: suf) -> I pre s ->
     wp (body a) (fun _ s' => I (pre ++ [a]) s') s) ->
  (forall s', I l s' -> Q tt s') ->
  wp (for_list l body) Q s.
Proof.
  intros HI Hbody HQ.
  assert (forall suf pre s, l = pre ++ suf -> I pre s -> wp (for_list suf body) Q s) as Hgen.
  { induction suf as [|a suf IH]; intros pre s' Hl HIp; simpl.
    - apply wp_ret, HQ. by rewrite Hl, app_nil_r.
    - eapply wp_seq; [apply Hbody; eauto|]. intros ? ? ?.
      apply (IH (pre ++ [a])); [|done]. by rewrite <- app_assoc. }
  by apply (Hgen l [] s).
Qed.
