(* ===== verification/AscendC.v ===== *)
(** The part of the Ascend C kernel language the modelled kernels use: tensors
    in global memory and in the unified buffer, the data-movement and vector
    instructions on them, and the hardware event flags between pipelines.

    A tensor is its length and its contents.  Every instruction checks the
    ranges it touches, so an execution that ends in [Ok] is free of
    out-of-bounds accesses, of transfers whose length is not a whole number of
    32-byte blocks, and of misuse of the event flags: raising a flag that is
    still pending, or waiting for one that was never raised (a hang).  So is
    the use of a buffer queue: taking a buffer when none is free, or taking one
    out of an empty queue.  Buffers that together exceed the unified buffer end in
    [UbExhausted].  A [while] loop that exceeds the bound it is given ends in [LoopBound], so
    [Ok] also means that its loops end. *)

From stdpp Require Export gmap.
From S2P Require Import Prelude.
#[global] Open Scope Z_scope.

(** ** Faults *)

Inductive fault_kind : Type :=
  | OutOfBounds
  | Misaligned
  | FlagBusy
  | FlagUnset
  | QueueFull
  | QueueEmpty
  | UbExhausted
  | LoopBound.

(** ** The unified buffer *)

(** The bytes that [pipe.InitBuffer] takes for a buffer of [n] bytes: whole 32-byte blocks. *)
Definition ub_blocks (n : Z) : Z := (n + 31) / 32 * 32.

(** The calls of [InitBuffer] of a kernel, on a core with [ub] bytes of unified buffer. *)
Definition InitBuffers (ub : Z) (sizes : list Z) : outcome fault_kind unit :=
  if foldr Z.add 0 (ub_blocks <$> sizes) <=? ub then Ok tt else Err UbExhausted.

Lemma InitBuffers_ok ub sizes : foldr Z.add 0 (ub_blocks <$> sizes) <= ub -> InitBuffers ub sizes = Ok tt.
Proof. intros H. unfold InitBuffers. by rewrite (proj2 (Z.leb_le _ _) H). Qed.

Lemma InitBuffers_full ub sizes : ub < foldr Z.add 0 (ub_blocks <$> sizes) -> InitBuffers ub sizes = Err UbExhausted.
Proof. intros H. unfold InitBuffers. by rewrite (proj2 (Z.leb_gt _ _) H). Qed.

(** ** Tensors *)

Record tensor (A : Type) : Type := Tensor { t_len : Z; t_at : Z -> A }.
Arguments Tensor {A} t_len t_at.
Arguments t_len {A} t.
Arguments t_at {A} t i.

(** A range of [n] elements at [off] lies inside the tensor. *)
Definition in_tensor {A} (t : tensor A) (off n : Z) : bool :=
  (0 <=? off) && (0 <=? n) && (off + n <=? t_len t).

(** The contents with the [n] cells at [off] replaced by [f 0], [f 1], ... *)
Definition write_range {A} (t : tensor A) (off n : Z) (f : Z -> A) : tensor A :=
  Tensor (t_len t)
         (fun i => if (off <=? i) && (i <? off + n) then f (i - off) else t_at t i).

Section TensorLemmas.
Context {A : Type}.
Implicit Types (t : tensor A).

Lemma write_range_len t off n f : t_len (write_range t off n f) = t_len t.
Proof. done. Qed.

Lemma write_range_at t off n f i :
  t_at (write_range t off n f) i =
    if (off <=? i) && (i <? off + n) then f (i - off) else t_at t i.
Proof. done. Qed.

Lemma write_range_in t off n f c :
  0 <= c < n -> t_at (write_range t off n f) (off + c) = f c.
Proof.
  intros H. rewrite write_range_at.
  replace ((off <=? off + c) && (off + c <? off + n)) with true
    by (symmetry; apply andb_true_intro; split; [apply Z.leb_le|apply Z.ltb_lt]; lia).
  f_equal. lia.
Qed.

Lemma write_range_out t off n f i :
  i < off \/ off + n <= i -> t_at (write_range t off n f) i = t_at t i.
Proof.
  intros H. rewrite write_range_at. destruct (_ && _) eqn:E; [|done]. bool_prop. lia.
Qed.

Lemma write_one_in t i v : t_at (write_range t i 1 (fun _ => v)) i = v.
Proof. rewrite write_range_at. by rewrite (proj2 (Z.leb_le i i)), (proj2 (Z.ltb_lt i (i + 1))) by lia. Qed.

Lemma write_one_out t i v k : k <> i -> t_at (write_range t i 1 (fun _ => v)) k = t_at t k.
Proof. intros. apply write_range_out. lia. Qed.

Lemma in_tensor_true t off n : 0 <= off -> 0 <= n -> off + n <= t_len t -> in_tensor t off n = true.
Proof. intros. unfold in_tensor. rewrite !andb_true_iff, !Z.leb_le. lia. Qed.

Lemma in_tensor_inv t off n :
  in_tensor t off n = true -> 0 <= off /\ 0 <= n /\ off + n <= t_len t.
Proof. unfold in_tensor. rewrite !andb_true_iff, !Z.leb_le. lia. Qed.
End TensorLemmas.

#[global] Hint Resolve in_tensor_true : conv.

(** ** Rows of a unified-buffer region

    The kernels carve a buffer into rows of a fixed pitch and address row [r]
    at [r * pitch].  [row p t r c] is cell [c] of row [r]. *)

Definition row {A} (p : Z) (t : tensor A) (r c : Z) : A := t_at t (r * p + c).

Lemma row_write_same {A} p (t : tensor A) r n f c :
  0 <= c < n -> row p (write_range t (r * p) n f) r c = f c.
Proof. intros. unfold row. by apply write_range_in. Qed.

Lemma row_write_other {A} p (t : tensor A) r r' n f c :
  r' <> r -> 0 <= c < p -> n <= p -> row p (write_range t (r * p) n f) r' c = row p t r' c.
Proof. intros. unfold row. apply write_range_out. nia. Qed.

(** A family of tensors with one replaced. *)
Definition upd {K} `{EqDecision K} {V} (f : K -> V) (k : K) (v : V) (x : K) : V := if decide (x = k) then v else f x.

Lemma upd_eq {K} `{EqDecision K} {V} (f : K -> V) k v : upd f k v k = v.
Proof. unfold upd. by rewrite decide_True. Qed.
Lemma upd_ne {K} `{EqDecision K} {V} (f : K -> V) k v x : x <> k -> upd f k v x = f x.
Proof. intros. unfold upd. by rewrite decide_False. Qed.

(** ** Lenses: how an instruction addresses a buffer of the kernel's state *)

Record lens (S A : Type) : Type := Lens { lget : S -> A; lset : A -> S -> S }.
Arguments Lens {S A} lget lset.
Arguments lget {S A} l s.
Arguments lset {S A} l a s.

(** The lens laws. *)
Class LensLaws {S A} (l : lens S A) : Prop := {
  lens_get_set : forall a s, lget l (lset l a s) = a;
  lens_set_get : forall s, lset l (lget l s) s = s;
  lens_set_set : forall a b s, lset l b (lset l a s) = lset l b s }.

Section Instructions.
Context {S : Type}.
Abbreviation K := (M S fault_kind).

(** [InitBuffers] as a step of a kernel. *)
Definition TakeBuffers (ub : Z) (sizes : list Z) : K unit := fun s =>
  match InitBuffers ub sizes with Ok _ => Ok (tt, s) | Err k => Err k end.

Lemma wp_TakeBuffers ub sizes (Q : unit -> S -> Prop) s :
  foldr Z.add 0 (ub_blocks <$> sizes) <= ub -> Q tt s -> wp (TakeBuffers ub sizes) Q s.
Proof. intros H HQ. unfold wp, TakeBuffers. by rewrite InitBuffers_ok. Qed.

(** Elements of a 32-byte block for a type of [size] bytes. *)
Definition block_aligned (size n : Z) : bool := (n * size) %c 32 =? 0.

(** [DataCopy(dst[doff], src[soff], n)] for a type of [size] bytes. *)
Definition DataCopy {T} (size : Z) (dst : lens S (tensor T)) (doff : Z)
    (src : S -> tensor T) (soff n : Z) : K unit := fun s =>
  if negb (block_aligned size n) then Err Misaligned
  else if in_tensor (lget dst s) doff n && in_tensor (src s) soff n
  then Ok (tt, lset dst (write_range (lget dst s) doff n (fun c => t_at (src s) (soff + c))) s)
  else Err OutOfBounds.

(** [DataCopyPad]: the same transfer without the block-length restriction. *)
Definition DataCopyPad {T} (dst : lens S (tensor T)) (doff : Z)
    (src : S -> tensor T) (soff n : Z) : K unit := fun s =>
  if in_tensor (lget dst s) doff n && in_tensor (src s) soff n
  then Ok (tt, lset dst (write_range (lget dst s) doff n (fun c => t_at (src s) (soff + c))) s)
  else Err OutOfBounds.

(** [Duplicate(dst[doff], v, n)]. *)
Definition Duplicate {T} (dst : lens S (tensor T)) (doff : Z) (v : T) (n : Z) : K unit := fun s =>
  if in_tensor (lget dst s) doff n
  then Ok (tt, lset dst (write_range (lget dst s) doff n (fun _ => v)) s)
  else Err OutOfBounds.

(** Element-wise instructions with one and with two sources. *)
Definition vec1 {A B} (f : A -> B) (dst : lens S (tensor B)) (doff : Z)
    (src : S -> tensor A) (soff n : Z) : K unit := fun s =>
  if in_tensor (lget dst s) doff n && in_tensor (src s) soff n
  then Ok (tt, lset dst (write_range (lget dst s) doff n
                           (fun c => f (t_at (src s) (soff + c)))) s)
  else Err OutOfBounds.

Definition vec2 {A} (f : A -> A -> A) (dst : lens S (tensor A)) (doff : Z)
    (src0 : S -> tensor A) (off0 : Z) (src1 : S -> tensor A) (off1 n : Z) : K unit := fun s =>
  if in_tensor (lget dst s) doff n && in_tensor (src0 s) off0 n && in_tensor (src1 s) off1 n
  then Ok (tt, lset dst (write_range (lget dst s) doff n
                           (fun c => f (t_at (src0 s) (off0 + c)) (t_at (src1 s) (off1 + c)))) s)
  else Err OutOfBounds.

(** [MulAddDst]: the destination is also an operand. *)
Definition vec3 {A} (f : A -> A -> A -> A) (dst : lens S (tensor A)) (doff : Z)
    (src0 : S -> tensor A) (off0 : Z) (src1 : S -> tensor A) (off1 n : Z) : K unit := fun s =>
  if in_tensor (lget dst s) doff n && in_tensor (src0 s) off0 n && in_tensor (src1 s) off1 n
  then Ok (tt, lset dst (write_range (lget dst s) doff n
                           (fun c => f (t_at (lget dst s) (doff + c))
                                       (t_at (src0 s) (off0 + c)) (t_at (src1 s) (off1 + c)))) s)
  else Err OutOfBounds.

(** [tensor.GetValue(i)]. *)
Definition GetValue {T} (src : S -> tensor T) (i : Z) : K T := fun s =>
  if in_tensor (src s) i 1 then Ok (t_at (src s) i, s) else Err OutOfBounds.

(** [tensor.SetValue(i, v)]. *)
Definition SetValue {T} (dst : lens S (tensor T)) (i : Z) (v : T) : K unit := fun s =>
  if in_tensor (lget dst s) i 1
  then Ok (tt, lset dst (write_range (lget dst s) i 1 (fun _ => v)) s)
  else Err OutOfBounds.

(** [DataCopyPad] of [rows] rows of [n] elements from global memory: rows
    [spitch] apart in the source; in the unified buffer each row starts on a
    32-byte boundary and is followed by [pad] elements of value [zero]. *)
Definition row_pitch (size n : Z) : Z := (n * size + 31) / 32 * 32 / size.

Definition DataCopyPadIn {T} (size : Z) (zero : T) (dst : lens S (tensor T)) (doff : Z)
    (src : S -> tensor T) (soff spitch rows n pad : Z) : K unit := fun s =>
  let p := row_pitch size n in
  if in_tensor (lget dst s) doff (rows * p) && in_tensor (src s) soff ((rows - 1) * spitch + n)
  then Ok (tt, lset dst (write_range (lget dst s) doff (rows * p) (fun k =>
                 if k mod p <? n then t_at (src s) (soff + k / p * spitch + k mod p)
                 else if k mod p <? n + pad then zero
                 else t_at (lget dst s) (doff + k))) s)
  else Err OutOfBounds.

(** [DataCopyPad] of [rows] rows back to global memory, where they are
    contiguous. *)
Definition DataCopyPadOut {T} (size : Z) (dst : lens S (tensor T)) (doff : Z)
    (src : S -> tensor T) (soff rows n : Z) : K unit := fun s =>
  let p := row_pitch size n in
  if in_tensor (lget dst s) doff (rows * n) && in_tensor (src s) soff (rows * p)
  then Ok (tt, lset dst (write_range (lget dst s) doff (rows * n)
                 (fun k => t_at (src s) (soff + k / n * p + k mod n))) s)
  else Err OutOfBounds.

(** The strided form [DataCopy(dst[doff], src[soff], DataCopyParams)]:
    [blockCount] rows of [blockLen] 32-byte blocks, with gaps of [srcStride] and
    [dstStride] blocks between the rows.  The instruction takes 1 to 4095 rows of
    at least one block, and its unified-buffer address is a multiple of 32 bytes. *)
Record DataCopyParams : Type := {
  blockCount : Z;
  blockLen : Z;
  srcStride : Z;
  dstStride : Z }.

Definition copy_rows {T} (size : Z) (p : DataCopyParams) (dst : tensor T) (doff : Z)
    (src : tensor T) (soff : Z) : outcome fault_kind (tensor T) :=
  let len := blockLen p * 32 /c size in
  let dpitch := len + dstStride p * 32 /c size in
  let spitch := len + srcStride p * 32 /c size in
  if negb (block_aligned size doff && (1 <=? blockCount p) && (blockCount p <=? 4095) && (1 <=? blockLen p))
  then Err Misaligned
  else if in_tensor dst doff ((blockCount p - 1) * dpitch + len) &&
          in_tensor src soff ((blockCount p - 1) * spitch + len)
  then Ok (write_range dst doff ((blockCount p - 1) * dpitch + len) (fun k =>
             if k mod dpitch <? len then t_at src (soff + k / dpitch * spitch + k mod dpitch)
             else t_at dst (doff + k)))
  else Err OutOfBounds.

(** *** Loops *)

(** [while]: the body continues with a new loop state or leaves with a result. *)
Fixpoint loop {A B} (bound : nat) (body : A -> K (A + B)) (a : A) : K B :=
  match bound with
  | O => fault LoopBound
  | Datatypes.S bound' =>
      r ← body a;
      match r with
      | inl a' => loop bound' body a'
      | inr b => mret b
      end
  end.

(** A loop ends and establishes [Q] if each iteration keeps [I] and decreases
    the measure, or leaves with [Q]. *)
Lemma wp_loop {A B} (I : A -> S -> Prop) (mu : A -> nat) (body : A -> K (A + B)) (Q : B -> S -> Prop) bound a s :
  (forall a s, I a s -> wp (body a) (fun r s' =>
     match r with inl a' => I a' s' /\ (mu a' < mu a)%nat | inr b => Q b s' end) s) ->
  (mu a < bound)%nat -> I a s -> wp (loop bound body a) Q s.
Proof.
  intros Hbody. revert a s. induction bound as [|bound IH]; intros a s Hmu HI; [lia|]. cbn [loop].
  eapply wp_seq; [by apply Hbody|]. intros [a'|b] s' Hr; [|by apply wp_ret].
  apply IH; [lia|apply Hr].
Qed.

(** *** Event flags *)

Context {Ev : Type} `{Countable Ev}.
Variable flags : lens S (gset Ev).

(** The raised flags are a set. *)
Definition SetFlag (e : Ev) : K unit := fun s =>
  if decide (e ∈ lget flags s) then Err FlagBusy
  else Ok (tt, lset flags ({[ e ]} ∪ lget flags s) s).

Definition WaitFlag (e : Ev) : K unit := fun s =>
  if decide (e ∈ lget flags s) then Ok (tt, lset flags (lget flags s ∖ {[ e ]}) s)
  else Err FlagUnset.

(** *** Proof rules *)

Lemma wp_DataCopy {T} size (dst : lens S (tensor T)) doff src soff n (Q : unit -> S -> Prop) s :
  block_aligned size n = true ->
  in_tensor (lget dst s) doff n = true -> in_tensor (src s) soff n = true ->
  Q tt (lset dst (write_range (lget dst s) doff n (fun c => t_at (src s) (soff + c))) s) ->
  wp (DataCopy size dst doff src soff n) Q s.
Proof. unfold wp, DataCopy. by intros -> -> ->. Qed.

Lemma wp_DataCopyPad {T} (dst : lens S (tensor T)) doff src soff n (Q : unit -> S -> Prop) s :
  in_tensor (lget dst s) doff n = true -> in_tensor (src s) soff n = true ->
  Q tt (lset dst (write_range (lget dst s) doff n (fun c => t_at (src s) (soff + c))) s) ->
  wp (DataCopyPad dst doff src soff n) Q s.
Proof. unfold wp, DataCopyPad. by intros -> ->. Qed.

Lemma wp_DataCopyPadIn {T} size (zero : T) (dst : lens S (tensor T)) doff src soff spitch rows n pad
    (Q : unit -> S -> Prop) s :
  in_tensor (lget dst s) doff (rows * row_pitch size n) = true ->
  in_tensor (src s) soff ((rows - 1) * spitch + n) = true ->
  Q tt (lset dst (write_range (lget dst s) doff (rows * row_pitch size n) (fun k =>
          if k mod row_pitch size n <? n
          then t_at (src s) (soff + k / row_pitch size n * spitch + k mod row_pitch size n)
          else if k mod row_pitch size n <? n + pad then zero else t_at (lget dst s) (doff + k))) s) ->
  wp (DataCopyPadIn size zero dst doff src soff spitch rows n pad) Q s.
Proof. unfold wp, DataCopyPadIn. by intros -> ->. Qed.

Lemma wp_DataCopyPadOut {T} size (dst : lens S (tensor T)) doff src soff rows n (Q : unit -> S -> Prop) s :
  in_tensor (lget dst s) doff (rows * n) = true ->
  in_tensor (src s) soff (rows * row_pitch size n) = true ->
  Q tt (lset dst (write_range (lget dst s) doff (rows * n)
          (fun k => t_at (src s) (soff + k / n * row_pitch size n + k mod n))) s) ->
  wp (DataCopyPadOut size dst doff src soff rows n) Q s.
Proof. unfold wp, DataCopyPadOut. by intros -> ->. Qed.

Lemma wp_Duplicate {T} (dst : lens S (tensor T)) doff v n (Q : unit -> S -> Prop) s :
  in_tensor (lget dst s) doff n = true ->
  Q tt (lset dst (write_range (lget dst s) doff n (fun _ => v)) s) ->
  wp (Duplicate dst doff v n) Q s.
Proof. unfold wp, Duplicate. by intros ->. Qed.

Lemma wp_vec1 {A B} (f : A -> B) (dst : lens S (tensor B)) doff src soff n
    (Q : unit -> S -> Prop) s :
  in_tensor (lget dst s) doff n = true -> in_tensor (src s) soff n = true ->
  Q tt (lset dst (write_range (lget dst s) doff n (fun c => f (t_at (src s) (soff + c)))) s) ->
  wp (vec1 f dst doff src soff n) Q s.
Proof. unfold wp, vec1. by intros -> ->. Qed.

Lemma wp_vec2 {A} (f : A -> A -> A) (dst : lens S (tensor A)) doff src0 off0 src1 off1 n
    (Q : unit -> S -> Prop) s :
  in_tensor (lget dst s) doff n = true ->
  in_tensor (src0 s) off0 n = true -> in_tensor (src1 s) off1 n = true ->
  Q tt (lset dst (write_range (lget dst s) doff n
          (fun c => f (t_at (src0 s) (off0 + c)) (t_at (src1 s) (off1 + c)))) s) ->
  wp (vec2 f dst doff src0 off0 src1 off1 n) Q s.
Proof. unfold wp, vec2. by intros -> -> ->. Qed.

Lemma wp_vec3 {A} (f : A -> A -> A -> A) (dst : lens S (tensor A)) doff src0 off0 src1 off1 n
    (Q : unit -> S -> Prop) s :
  in_tensor (lget dst s) doff n = true ->
  in_tensor (src0 s) off0 n = true -> in_tensor (src1 s) off1 n = true ->
  Q tt (lset dst (write_range (lget dst s) doff n
          (fun c => f (t_at (lget dst s) (doff + c)) (t_at (src0 s) (off0 + c)) (t_at (src1 s) (off1 + c)))) s) ->
  wp (vec3 f dst doff src0 off0 src1 off1 n) Q s.
Proof. unfold wp, vec3. by intros -> -> ->. Qed.

Lemma wp_GetValue {T} (src : S -> tensor T) i (Q : T -> S -> Prop) s :
  0 <= i < t_len (src s) -> Q (t_at (src s) i) s -> wp (GetValue src i) Q s.
Proof. intros Hi HQ. unfold wp, GetValue. by rewrite in_tensor_true by lia. Qed.

Lemma wp_SetValue {T} (dst : lens S (tensor T)) i v (Q : unit -> S -> Prop) s :
  0 <= i < t_len (lget dst s) ->
  Q tt (lset dst (write_range (lget dst s) i 1 (fun _ => v)) s) ->
  wp (SetValue dst i v) Q s.
Proof. intros Hi HQ. unfold wp, SetValue. by rewrite in_tensor_true by lia. Qed.

Lemma wp_SetFlag e (Q : unit -> S -> Prop) s :
  e ∉ lget flags s -> Q tt (lset flags ({[ e ]} ∪ lget flags s) s) -> wp (SetFlag e) Q s.
Proof. intros He HQ. unfold wp, SetFlag. by rewrite decide_False. Qed.

Lemma wp_WaitFlag e (Q : unit -> S -> Prop) s :
  e ∈ lget flags s -> Q tt (lset flags (lget flags s ∖ {[ e ]}) s) -> wp (WaitFlag e) Q s.
Proof. intros He HQ. unfold wp, WaitFlag. by rewrite decide_True. Qed.

(** A flag raised and waited for at once. *)
Definition Pulse (e : Ev) : K unit := SetFlag e ≫= fun _ => WaitFlag e.

Lemma wp_Pulse `{!LensLaws flags} e (Q : unit -> S -> Prop) s :
  e ∉ lget flags s -> Q tt s -> wp (Pulse e) Q s.
Proof.
  intros He HQ. apply wp_bind, wp_SetFlag; [done|]. apply wp_WaitFlag.
  - rewrite lens_get_set. set_solver.
  - rewrite lens_get_set, lens_set_set. replace (_ ∖ _) with (lget flags s) by set_solver. by rewrite lens_set_get.
Qed.
End Instructions.

(** ** Buffer queues

    A [TQue] owns a fixed set of unified-buffer tensors.  A tensor is taken with
    [AllocTensor], passed on with [EnQue] and [DeQue], and returned with
    [FreeTensor]. *)

Record TQue (T : Type) : Type := {
  q_bufs : Z -> tensor T;
  q_free : list Z;
  q_que : list Z }.
Arguments Build_TQue {T} q_bufs q_free q_que.
Arguments q_bufs {T} t.
Arguments q_free {T} t.
Arguments q_que {T} t.

(** [InitBuffer(queue, num, size)]: [num] tensors of [len] elements. *)
Definition TQue_init {T} (num len : Z) (v : T) : TQue T :=
  Build_TQue (fun _ => Tensor len (fun _ => v)) (seqZ 0 num) [].

Section Queues.
Context {S T : Type}.
Variable q : lens S (TQue T).
Abbreviation K := (M S fault_kind).

(** Buffer [b] of the queue. *)
Definition LocalTensor (b : Z) : lens S (tensor T) :=
  Lens (fun s => q_bufs (lget q s) b)
       (fun t s => let x := lget q s in
          lset q (Build_TQue (fun i => if i =? b then t else q_bufs x i) (q_free x) (q_que x)) s).

Definition AllocTensor : K Z := fun s =>
  match q_free (lget q s) with
  | [] => Err QueueFull
  | b :: rest => Ok (b, lset q (Build_TQue (q_bufs (lget q s)) rest (q_que (lget q s))) s)
  end.

Definition EnQue (b : Z) : K unit := fun s =>
  Ok (tt, lset q (Build_TQue (q_bufs (lget q s)) (q_free (lget q s)) (q_que (lget q s) ++ [b])) s).

Definition DeQue : K Z := fun s =>
  match q_que (lget q s) with
  | [] => Err QueueEmpty
  | b :: rest => Ok (b, lset q (Build_TQue (q_bufs (lget q s)) (q_free (lget q s)) rest) s)
  end.

Definition FreeTensor (b : Z) : K unit := fun s =>
  Ok (tt, lset q (Build_TQue (q_bufs (lget q s)) (q_free (lget q s) ++ [b]) (q_que (lget q s))) s).

Lemma wp_AllocTensor b rest (Q : Z -> S -> Prop) s :
  q_free (lget q s) = b :: rest ->
  Q b (lset q (Build_TQue (q_bufs (lget q s)) rest (q_que (lget q s))) s) -> wp AllocTensor Q s.
Proof. unfold wp, AllocTensor. by intros ->. Qed.

Lemma wp_EnQue b (Q : unit -> S -> Prop) s :
  Q tt (lset q (Build_TQue (q_bufs (lget q s)) (q_free (lget q s)) (q_que (lget q s) ++ [b])) s) -> wp (EnQue b) Q s.
Proof. done. Qed.

Lemma wp_FreeTensor b (Q : unit -> S -> Prop) s :
  Q tt (lset q (Build_TQue (q_bufs (lget q s)) (q_free (lget q s) ++ [b]) (q_que (lget q s))) s) -> wp (FreeTensor b) Q s.
Proof. done. Qed.

Lemma wp_DeQue b rest (Q : Z -> S -> Prop) s :
  q_que (lget q s) = b :: rest ->
  Q b (lset q (Build_TQue (q_bufs (lget q s)) (q_free (lget q s)) rest) s) -> wp DeQue Q s.
Proof. unfold wp, DeQue. by intros ->. Qed.
End Queues.

Lemma flag_raise_clear `{Countable Ev} (e : Ev) (X : gset Ev) : e ∉ X -> ({[ e ]} ∪ X) ∖ {[ e ]} = X.
Proof. set_solver. Qed.

(** ** Distribution of work over the cores of a grid *)

(** Grid-stride loops: core [b] of [n] visits [b], [b + n], [b + 2n], ...
    Every task is visited by exactly the core [task mod n]. *)
Lemma grid_stride_owner (n task b : Z) :
  0 < n -> 0 <= task -> 0 <= b < n ->
  (exists k, 0 <= k /\ task = b + k * n) <-> b = task mod n.
Proof.
  intros Hn Ht Hb. split.
  - intros (k & Hk & ->). rewrite Z.mod_add by lia. by rewrite Z.mod_small.
  - intros ->. exists (task / n). split; [by apply Z.div_pos|].
    pose proof (Z.div_mod task n ltac:(lia)). lia.
Qed.

(** The tasks of core [b] that precede its [k]-th one. *)
Definition stride_before (n b k task : Z) : Prop := task mod n = b /\ task < b + k * n.

Lemma stride_before_0 n b task : 0 <= b < n -> 0 <= task -> ~ stride_before n b 0 task.
Proof. intros Hb Ht [Hm Hlt]. pose proof (Z.mod_le task n ltac:(lia) ltac:(lia)). lia. Qed.

Lemma stride_before_S n b k task : 0 <= b < n ->
  stride_before n b (k + 1) task <-> stride_before n b k task \/ task = b + k * n.
Proof.
  intros Hb. unfold stride_before. split.
  - intros [Hm Hlt]. pose proof (Z.div_mod task n ltac:(lia)) as Hdm. rewrite Hm in Hdm.
    destruct (decide (task = b + k * n)) as [?|Hne]; [by right|left]. split; [done|].
    assert (task / n <= k) by (apply Z.lt_succ_r, (Z.mul_lt_mono_pos_l n); lia).
    assert (task / n <> k) by (intros Hx; apply Hne; rewrite Hdm, Hx; lia). nia.
  - intros [[Hm Hlt]| ->]; (split; [|lia]); [done|]. rewrite Z.mod_add by lia. by apply Z.mod_small.
Qed.

(** ** Cores one after the other *)

Section Blocks.
Context {G E : Type}.

(** Each core takes the global memory from the one before it. *)
Fixpoint run_blocks (core : Z -> G -> outcome E G) (order : list Z) (g : G) : outcome E G :=
  match order with
  | [] => Ok g
  | b :: order' => core b g ≫= run_blocks core order'
  end.

(** An invariant indexed by the cores that are done. *)
Lemma run_blocks_spec (core : Z -> G -> outcome E G) (I : (Z -> Prop) -> G -> Prop) order :
  (forall D b g, b ∈ order -> I D g -> exists g', core b g = Ok g' /\ I (fun x => D x \/ x = b) g') ->
  (forall D D' g, (forall x, D x <-> D' x) -> I D g -> I D' g) ->
  forall D g, I D g -> exists g', run_blocks core order g = Ok g' /\ I (fun x => D x \/ x ∈ order) g'.
Proof.
  induction order as [|b order IH]; intros Hc Hext D g HI; simpl.
  - exists g. split; [done|]. revert HI. apply Hext. set_solver.
  - destruct (Hc D b g ltac:(set_solver) HI) as (g1 & -> & H1).
    destruct (IH ltac:(set_solver) Hext _ _ H1) as (g2 & Hrun & H2). exists g2. split; [exact Hrun|].
    revert H2. apply Hext. set_solver.
Qed.

(** The same when every core runs once. *)
Lemma run_blocks_once (core : Z -> G -> outcome E G) (I : (Z -> Prop) -> G -> Prop) order :
  NoDup order ->
  (forall D b g, b ∈ order -> ~ D b -> I D g -> exists g', core b g = Ok g' /\ I (fun x => D x \/ x = b) g') ->
  (forall D D' g, (forall x, D x <-> D' x) -> I D g -> I D' g) ->
  forall D g, (forall b, b ∈ order -> ~ D b) -> I D g -> exists g', run_blocks core order g = Ok g' /\ I (fun x => D x \/ x ∈ order) g'.
Proof.
  induction order as [|b order IH]; intros Hnd Hc Hext D g HD HI; simpl.
  - exists g. split; [done|]. revert HI. apply Hext. set_solver.
  - apply list.NoDup_cons in Hnd as [Hb Hnd]. destruct (Hc D b g ltac:(set_solver) (HD b ltac:(set_solver)) HI) as (g1 & -> & H1).
    destruct (IH Hnd ltac:(set_solver) Hext (fun x => D x \/ x = b) g1) as (g2 & Hrun & H2); [|done|].
    { intros x Hx [Hd| ->]; [by apply (HD x); [set_solver|]|done]. }
    exists g2. split; [exact Hrun|]. revert H2. apply Hext. set_solver.
Qed.
End Blocks.

(** The split [begin = min(b * per, total)], [end = min(begin + per, total)]
    with [per] the rounded-up share: core [r / per] has element [r]. *)
Lemma even_split_owner (n total b r : Z) :
  0 < n -> 0 <= b -> 0 <= r < total ->
  let per := (total + n - 1) / n in
  let begin := Z.min (b * per) total in
  let end_ := Z.min (begin + per) total in
  0 < per /\ 0 <= r / per < n /\ (begin <= r < end_ <-> b = r / per).
Proof.
  intros Hn Hb Hr per begin end_. pose proof (ceil_quot_spec total n ltac:(lia) Hn) as (H1 & H2 & H3).
  rewrite quot_nonneg_div in H1, H2, H3 by lia. fold per in H1, H2, H3.
  assert (0 < per) as Hper by nia. pose proof (Z.div_mod r per ltac:(lia)). pose proof (Z.mod_pos_bound r per Hper).
  pose proof (Z.div_pos r per ltac:(lia) Hper). split; [done|]. split; [nia|]. split.
  - subst begin end_. intros Hin. destruct (Z.lt_trichotomy b (r / per)) as [Hlt|[?|Hlt]]; [|done|]; nia.
  - subst begin end_. intros ->. nia.
Qed.
