(* ===== verification/TilingContext.v ===== *)
(** What host tiling code sees of the framework: the tiling context of an
    operator call, and the error conventions of the tiling functions.

    The context belongs to the CANN runtime, which is not part of the
    repository: it is an argument of every tiling function, and the theorems
    hold for every context. *)

From S2P Require Import Prelude AscendC.

Inductive DataType : Type :=
  | DT_FLOAT
  | DT_FLOAT16
  | DT_BF16
  | DT_INT8
  | DT_INT32
  | DT_UINT32
  | DT_INT64
  | DT_UNDEFINED.

#[global] Instance DataType_eq_dec : EqDecision DataType.
Proof. solve_decision. Defined.

(** A tensor argument as the host sees it: a null pointer, or a tensor whose
    data pointer may itself be null (the values are not known at tiling time). *)
Definition HostTensor : Type := option (option (tensor Z)).

Record PlatformInfo : Type := {
  GetCoreNumAiv : Z;
  GetCoreNum : Z;
  GetCoreMemSizeUB : Z }.

(** [None] stands for a null pointer. *)
Record TilingContext : Type := {
  GetPlatformInfoPtr : option PlatformInfo;
  GetInputShape : Z -> option (list Z);
  GetOptionalInputShape : Z -> option (list Z);
  GetOutputShape : Z -> option (list Z);
  GetInputDesc : Z -> option DataType;
  GetOptionalInputDesc : Z -> option DataType;
  GetOutputDesc : Z -> option DataType;
  GetOptionalInputTensor : Z -> HostTensor;
  HasAttrs : bool;
  GetAttrInt : Z -> option Z;
  HasTilingData : bool;
  HasWorkspaceSizes : bool;
  SetScheduleModeOk : bool }.

(** Tiling functions report failure with [ge::GRAPH_FAILED] and a log line; some
    use a pointer, a divisor or an index without checking it.  A [while] loop of
    the host that exceeds the bound it is given ends in [HostLoopBound]. *)
Inductive tiling_error : Type :=
  | GRAPH_FAILED (log : string)
  | NullDereference (what : string)
  | DivideByZero
  | VectorIndex
  | HostLoopBound.

Abbreviation HostM := (outcome tiling_error).

(** [OP_CHECK_IF(cond, OP_LOGE(...), return ge::GRAPH_FAILED)]. *)
Definition OP_CHECK_IF (cond : bool) (log : string) : HostM unit :=
  if cond then Err (GRAPH_FAILED log) else Ok tt.

(** [OP_CHECK_NULL_WITH_CONTEXT(context, ptr)]. *)
Definition OP_CHECK_NULL {A} (ptr : option A) (log : string) : HostM A :=
  match ptr with Some a => Ok a | None => Err (GRAPH_FAILED log) end.

(** [ptr->...] without a check. *)
Definition deref {A} (ptr : option A) (what : string) : HostM A :=
  match ptr with Some a => Ok a | None => Err (NullDereference what) end.

(** [a / b] and [a % b] on signed integers, where the divisor is not checked. *)
Definition c_quot (a b : Z) : HostM Z := if b =? 0 then Err DivideByZero else Ok (a /c b).
Definition c_rem (a b : Z) : HostM Z := if b =? 0 then Err DivideByZero else Ok (a %c b).

(** [shape.GetDimNum()] and [shape.GetDim(i)]. *)
Definition GetDimNum (shape : list Z) : Z := Z.of_nat (length shape).
Definition GetDim (shape : list Z) (i : Z) : Z := nth (Z.to_nat i) shape 0.

(** [EnsureNotScalar] of [common/src/tiling_base/tiling_util.cpp]. *)
Definition EnsureNotScalar (inShape : list Z) : list Z :=
  if GetDimNum inShape =? 0 then [1] else inShape.

(** Checks performed for each element of a range, in order. *)
Fixpoint check_each (l : list Z) (f : Z -> HostM unit) : HostM unit :=
  match l with
  | [] => Ok tt
  | i :: l' => f i ≫= fun _ => check_each l' f
  end.

Lemma OP_CHECK_IF_inv cond log u : OP_CHECK_IF cond log = Ok u -> cond = false.
Proof. destruct cond; [discriminate|done]. Qed.

Lemma OP_CHECK_NULL_inv {A} (p : option A) log a : OP_CHECK_NULL p log = Ok a -> p = Some a.
Proof. destruct p; simpl; congruence. Qed.

Lemma c_quot_inv a b q : c_quot a b = Ok q -> b <> 0 /\ q = a /c b.
Proof. unfold c_quot. destruct (b =? 0) eqn:E; intros [= <-]. bool_prop. done. Qed.

Lemma c_rem_inv a b q : c_rem a b = Ok q -> b <> 0 /\ q = a %c b.
Proof. unfold c_rem. destruct (b =? 0) eqn:E; intros [= <-]. bool_prop. done. Qed.

Lemma c_quot_pass a b : b <> 0 -> c_quot a b = Ok (a /c b).
Proof. intros Hb. unfold c_quot. by rewrite (proj2 (Z.eqb_neq _ _) Hb). Qed.

Lemma c_rem_pass a b : b <> 0 -> c_rem a b = Ok (a %c b).
Proof. intros Hb. unfold c_rem. by rewrite (proj2 (Z.eqb_neq _ _) Hb). Qed.

(** Running a chain of host steps forwards. *)
Lemma OP_CHECK_IF_pass {A} cond log (k : unit -> HostM A) : cond = false -> (OP_CHECK_IF cond log ≫= k) = k tt.
Proof. by intros ->. Qed.

Lemma OP_CHECK_NULL_pass {A B} (p : option A) log a (k : A -> HostM B) : p = Some a -> (OP_CHECK_NULL p log ≫= k) = k a.
Proof. by intros ->. Qed.

Lemma check_each_inv l f u i : check_each l f = Ok u -> i ∈ l -> exists v, f i = Ok v.
Proof.
  revert u. induction l as [|j l IH]; intros u Hok Hin; [set_solver|]. simpl in Hok.
  apply outcome_bind_ok in Hok as (v & Hv & Hok).
  apply elem_of_cons in Hin as [-> |Hin]; eauto.
Qed.

(** Inverts one successful host step. *)
Ltac inv_host H :=
  match type of H with
  | OP_CHECK_IF _ _ = Ok _ => apply OP_CHECK_IF_inv in H; bool_prop
  | OP_CHECK_NULL _ _ = Ok _ => apply OP_CHECK_NULL_inv in H
  | _ => idtac
  end.

(** Inverts a chain of successful host steps, one bind at a time. *)
Ltac inv_bind H :=
  let a := fresh "a" in let H1 := fresh "Hok" in
  apply outcome_bind_ok in H; destruct H as (a & H1 & H); inv_host H1.
