(* ===== verification/Conv1dTypes.v ===== *)
(** Data of the causal_conv1d operator shared by its host tiling and its
    kernel: the tiling record handed from host to device, the tiling keys, the
    plan structures of the host and its integer helpers. *)

From S2P Require Import Prelude AscendC.

(** ** [op_kernel/causal_conv1d_tiling_key.h] *)

Definition CAUSAL_CONV1D_TPL_RUN_MODE_FN : Z := 0.
Definition CAUSAL_CONV1D_TPL_RUN_MODE_UPDATE : Z := 1.
Definition CAUSAL_CONV1D_TPL_WIDTH_RUNTIME : Z := 0.
Definition CAUSAL_CONV1D_TPL_WIDTH_2 : Z := 1.
Definition CAUSAL_CONV1D_TPL_WIDTH_3 : Z := 2.
Definition CAUSAL_CONV1D_TPL_WIDTH_4 : Z := 3.
Definition CAUSAL_CONV1D_TPL_FN_PLAN_INVALID : Z := 0.
Definition CAUSAL_CONV1D_TPL_FN_PLAN_CUTBS : Z := 1.
Definition CAUSAL_CONV1D_TPL_FN_PLAN_CUTBSD : Z := 2.

(** The kernel instances that are compiled, in declaration order:
    (run mode, width key, plan key). *)
Definition tpl_sel_entries : list (Z * Z * Z) :=
  [ (CAUSAL_CONV1D_TPL_RUN_MODE_UPDATE, CAUSAL_CONV1D_TPL_WIDTH_RUNTIME, CAUSAL_CONV1D_TPL_FN_PLAN_INVALID);
    (CAUSAL_CONV1D_TPL_RUN_MODE_FN, CAUSAL_CONV1D_TPL_WIDTH_2, CAUSAL_CONV1D_TPL_FN_PLAN_CUTBS);
    (CAUSAL_CONV1D_TPL_RUN_MODE_FN, CAUSAL_CONV1D_TPL_WIDTH_3, CAUSAL_CONV1D_TPL_FN_PLAN_CUTBS);
    (CAUSAL_CONV1D_TPL_RUN_MODE_FN, CAUSAL_CONV1D_TPL_WIDTH_4, CAUSAL_CONV1D_TPL_FN_PLAN_CUTBS);
    (CAUSAL_CONV1D_TPL_RUN_MODE_FN, CAUSAL_CONV1D_TPL_WIDTH_2, CAUSAL_CONV1D_TPL_FN_PLAN_CUTBSD);
    (CAUSAL_CONV1D_TPL_RUN_MODE_FN, CAUSAL_CONV1D_TPL_WIDTH_3, CAUSAL_CONV1D_TPL_FN_PLAN_CUTBSD);
    (CAUSAL_CONV1D_TPL_RUN_MODE_FN, CAUSAL_CONV1D_TPL_WIDTH_4, CAUSAL_CONV1D_TPL_FN_PLAN_CUTBSD) ].

(** ** [op_kernel/causal_conv1d_tiling_data.h] *)

Inductive FnExecutionPlan : Type :=
  | FN_EXECUTION_PLAN_INVALID
  | FN_EXECUTION_PLAN_CUTBS
  | FN_EXECUTION_PLAN_CUTBSD.

#[global] Instance FnExecutionPlan_eq_dec : EqDecision FnExecutionPlan.
Proof. solve_decision. Defined.

Record CausalConv1dTilingData : Type := {
  td_dim : Z;
  td_cuSeqlen : Z;
  td_seqLen : Z;
  td_inputMode : Z;
  td_width : Z;
  td_stateLen : Z;
  td_numCacheLines : Z;
  td_batch : Z;
  td_activationMode : Z;
  td_padSlotId : Z;
  td_hasBias : Z;
  td_baseDim : Z;
  td_baseDimCnt : Z;
  td_hasNumAcceptedTokens : Z;
  td_hasCacheIndices : Z;
  td_hasInitialStateMode : Z;
  td_tokenBlockSize : Z;
  td_tokenBlockCnt : Z;
  td_hasExplicitTokenSeqRanges : Z;
  td_explicitTokenSeqRangeCount : Z;
  td_tokenTileStartSeq : list Z;
  td_tokenTileEndSeq : list Z;
  td_hasInitStateWorkspace : Z }.

(** ** [op_host/causal_conv1d_tiling_utils.h] *)

Definition ASCENDC_RESERVED_WORKSPACE_SIZE : Z := 16 * 1024 * 1024.

Record CausalConv1dAttrInfo : Type := {
  ai_activationMode : Z;
  ai_padSlotId : Z;
  ai_runMode : Z }.

Record DimTileChoice : Type := {
  dtc_baseDim : Z;
  dtc_baseDimCnt : Z;
  dtc_gridSize : Z }.
Definition DimTileChoice0 : DimTileChoice := Build_DimTileChoice 0 0 0.

Record VarlenTokenTileChoice : Type := {
  vtc_enabled : bool;
  vtc_tokenBlockSize : Z;
  vtc_tokenBlockCnt : Z;
  vtc_gridSize : Z }.
Definition VarlenTokenTileChoice0 : VarlenTokenTileChoice :=
  Build_VarlenTokenTileChoice false 0 0 0.

Inductive FnTilingCaseKind : Type :=
  | FN_TILING_CASE_INVALID
  | FN_TILING_CASE_TOKEN_FIRST
  | FN_TILING_CASE_TOKEN_DIM_CO_SPLIT.

#[global] Instance FnTilingCaseKind_eq_dec : EqDecision FnTilingCaseKind.
Proof. solve_decision. Defined.

Record TokenCoreMappingChoice : Type := {
  tcm_tokenCoreBudget : Z;
  tcm_tokenBlocksPerCore : Z;
  tcm_tokenCoreTailCnt : Z;
  tcm_blockDim : Z }.
Definition TokenCoreMappingChoice0 : TokenCoreMappingChoice :=
  Build_TokenCoreMappingChoice 0 0 0 0.

Definition MAX_FN_TOKEN_SEQ_RANGE_COUNT : Z := 128.

Record FnTokenSeqRangePlan : Type := {
  srp_enabled : bool;
  srp_rangeCount : Z;
  srp_tokenTileStartSeq : list Z;
  srp_tokenTileEndSeq : list Z }.
Definition FnTokenSeqRangePlan0 : FnTokenSeqRangePlan :=
  Build_FnTokenSeqRangePlan false 0
    (replicate (Z.to_nat MAX_FN_TOKEN_SEQ_RANGE_COUNT) 0)
    (replicate (Z.to_nat MAX_FN_TOKEN_SEQ_RANGE_COUNT) 0).

Record FnHostPlan : Type := {
  fhp_caseKind : FnTilingCaseKind;
  fhp_executionPlan : FnExecutionPlan;
  fhp_baseDimChoice : DimTileChoice;
  fhp_tokenBlockChoice : VarlenTokenTileChoice;
  fhp_tokenCoreMapping : TokenCoreMappingChoice;
  fhp_tokenSeqRangePlan : FnTokenSeqRangePlan }.
Definition FnHostPlan0 : FnHostPlan :=
  Build_FnHostPlan FN_TILING_CASE_INVALID FN_EXECUTION_PLAN_INVALID DimTileChoice0
    VarlenTokenTileChoice0 TokenCoreMappingChoice0 FnTokenSeqRangePlan0.

Definition DIM_ALIGN_BYTES : Z := 32.
Definition BF16_FP16_ELEM_BYTES : Z := 2.
Definition DIM_ALIGN_ELEMS : Z := DIM_ALIGN_BYTES /c BF16_FP16_ELEM_BYTES.
Definition MAX_DIM_TILE_SIZE : Z := 4096.
Definition FN_UB_RESERVED_BYTES : Z := 512.
Definition RING_SLOT_CNT : Z := 5.
Definition FN_OUT_SLOT_CNT : Z := 2.
Definition FN_CALC_FP32_SLOT_CNT : Z := 8.

Definition NormalizeFnPlanTilingKey (runModeKey : Z) (fnExecutionPlan : FnExecutionPlan) : Z :=
  if negb (runModeKey =? CAUSAL_CONV1D_TPL_RUN_MODE_FN) then CAUSAL_CONV1D_TPL_FN_PLAN_INVALID
  else match fnExecutionPlan with
       | FN_EXECUTION_PLAN_CUTBS => CAUSAL_CONV1D_TPL_FN_PLAN_CUTBS
       | FN_EXECUTION_PLAN_CUTBSD => CAUSAL_CONV1D_TPL_FN_PLAN_CUTBSD
       | FN_EXECUTION_PLAN_INVALID => CAUSAL_CONV1D_TPL_FN_PLAN_INVALID
       end.

Definition NormalizeWidthTilingKey (runModeKey width : Z) : Z :=
  if negb (runModeKey =? CAUSAL_CONV1D_TPL_RUN_MODE_FN) then CAUSAL_CONV1D_TPL_WIDTH_RUNTIME
  else if width =? 2 then CAUSAL_CONV1D_TPL_WIDTH_2
  else if width =? 3 then CAUSAL_CONV1D_TPL_WIDTH_3
  else if width =? 4 then CAUSAL_CONV1D_TPL_WIDTH_4
  else CAUSAL_CONV1D_TPL_WIDTH_RUNTIME.

Definition CeilDivInt64 (x y : Z) : Z := (x + y - 1) /c y.

Definition AlignDownInt64 (value align : Z) : Z :=
  if (align <=? 0) || (value <=? 0) then 0 else (value /c align) * align.

Definition AlignUpInt64 (value align : Z) : Z :=
  if (align <=? 0) || (value <=? 0) then 0 else CeilDivInt64 value align * align.

(** ** Lemmas on the integer helpers *)

Lemma CeilDivInt64_spec x y : 0 <= x -> 0 < y ->
  0 <= CeilDivInt64 x y /\ x <= CeilDivInt64 x y * y /\ (CeilDivInt64 x y - 1) * y < x.
Proof. apply ceil_quot_spec. Qed.

Lemma CeilDivInt64_pos x y : 0 < x -> 0 < y -> 0 < CeilDivInt64 x y.
Proof. apply ceil_quot_pos. Qed.

Lemma CeilDivInt64_le x y z : 0 <= x -> 0 < y -> x <= z * y -> CeilDivInt64 x y <= z.
Proof. intros Hx Hy Hz. pose proof (CeilDivInt64_spec x y Hx Hy). nia. Qed.

(** Re-tiling with the rounded-up tile size never needs more tiles. *)
Lemma CeilDivInt64_retile x n : 0 < x -> 0 < n -> CeilDivInt64 x (CeilDivInt64 x n) <= n.
Proof.
  intros Hx Hn. pose proof (CeilDivInt64_spec x n ltac:(lia) Hn).
  pose proof (CeilDivInt64_pos x n Hx Hn). apply CeilDivInt64_le; nia.
Qed.

Lemma AlignDownInt64_spec value align : 0 < align ->
  0 <= AlignDownInt64 value align /\ AlignDownInt64 value align <= Z.max 0 value /\
  AlignDownInt64 value align mod align = 0.
Proof.
  intros Ha. unfold AlignDownInt64. case_if.
  - rewrite Z.mod_0_l by lia. lia.
  - rewrite quot_nonneg_div by lia. rewrite Z.mod_mul by lia.
    pose proof (Z.mul_div_le value align Ha). pose proof (Z.div_pos value align). nia.
Qed.

Lemma AlignUpInt64_spec value align : 0 < align -> 0 < value ->
  value <= AlignUpInt64 value align < value + align /\ AlignUpInt64 value align mod align = 0.
Proof.
  intros Ha Hv. unfold AlignUpInt64. case_if; [lia|].
  pose proof (CeilDivInt64_spec value align ltac:(lia) Ha). rewrite Z.mod_mul by lia. nia.
Qed.

Lemma DIM_ALIGN_ELEMS_eq : DIM_ALIGN_ELEMS = 16.
Proof. reflexivity. Qed.
