(* ===== verification/Conv1dPlanner.v ===== *)
(** The launch planner of causal_conv1d
    ([op_host/causal_conv1d_tiling_planner.h]): how the host cuts channels and
    tokens into tiles and maps the tiles to cores. *)

From S2P Require Import Prelude AscendC Conv1dTypes.

(** ** Channel tiles of the update mode *)

Definition update_candidates : list Z := [4096; 2048; 1024; 512; 384; 192].

(** The loop state of [chooseOnce]: [bestOver], [bestOverGap], [bestUnder]. *)
Record ChooseState : Type := {
  cs_bestOver : DimTileChoice;
  cs_bestOverGap : Z;
  cs_bestUnder : DimTileChoice }.

Definition chooseOnce_step (batch dim coreNum : Z) (requireExactDiv : bool)
    (st : ChooseState) (baseDim : Z) : ChooseState :=
  if baseDim <=? 0 then st
  else if requireExactDiv && negb (dim %c baseDim =? 0) then st
  else
    let baseDimCnt := if requireExactDiv then dim /c baseDim else CeilDivInt64 dim baseDim in
    let gridSize := batch * baseDimCnt in
    if gridSize <=? 0 then st
    else if gridSize >=? coreNum then
      let gap := gridSize - coreNum in
      if gap <? cs_bestOverGap st
      then Build_ChooseState (Build_DimTileChoice baseDim baseDimCnt gridSize) gap (cs_bestUnder st)
      else st
    else if (gridSize >? dtc_gridSize (cs_bestUnder st)) ||
            ((gridSize =? dtc_gridSize (cs_bestUnder st)) && (baseDim <? dtc_baseDim (cs_bestUnder st)))
    then Build_ChooseState (cs_bestOver st) (cs_bestOverGap st)
           (Build_DimTileChoice baseDim baseDimCnt gridSize)
    else st.

Definition chooseOnce (batch dim coreNum : Z) (requireExactDiv : bool) : DimTileChoice :=
  let st := fold_left (chooseOnce_step batch dim coreNum requireExactDiv) update_candidates
              (Build_ChooseState DimTileChoice0 INT64_MAX DimTileChoice0) in
  if negb (dtc_baseDim (cs_bestOver st) =? 0) then cs_bestOver st else cs_bestUnder st.

Definition ChooseCanonicalUpdateBaseDimChoice (batch dim coreNum : Z) : DimTileChoice :=
  let result := chooseOnce batch dim coreNum true in
  if dtc_baseDim result =? 0 then chooseOnce batch dim coreNum false else result.

(** ** Channel and token tiles of the fn (prefill) mode *)

Definition ResolveFnTokenCoreBudget (baseDimCnt : Z) (fnExecutionPlan : FnExecutionPlan)
    (coreNum : Z) : Z :=
  if (baseDimCnt <=? 0) || (coreNum =? 0) || bool_decide (fnExecutionPlan = FN_EXECUTION_PLAN_INVALID)
  then 0
  else
    let tokenCoreBudget := coreNum in
    if bool_decide (fnExecutionPlan = FN_EXECUTION_PLAN_CUTBSD)
    then Z.max 1 (tokenCoreBudget /c baseDimCnt)
    else tokenCoreBudget.

Definition ComputeFnUbLimitedBaseDim (ubSize : Z) : Z :=
  if ubSize <=? FN_UB_RESERVED_BYTES then 0
  else
    let bytesPerElem := (RING_SLOT_CNT * BF16_FP16_ELEM_BYTES) + (FN_OUT_SLOT_CNT * BF16_FP16_ELEM_BYTES) +
                        (FN_CALC_FP32_SLOT_CNT * 4) in
    let budgetBytes := ubSize - FN_UB_RESERVED_BYTES in
    let ubLimitedBaseDim := AlignDownInt64 (budgetBytes /c bytesPerElem) DIM_ALIGN_ELEMS in
    Z.min MAX_DIM_TILE_SIZE ubLimitedBaseDim.

Definition ChooseFnTokenFirstBaseDimChoice (dim : Z) : DimTileChoice :=
  if (dim <=? 0) || (dim >? MAX_DIM_TILE_SIZE) then DimTileChoice0
  else Build_DimTileChoice dim 1 1.

(** [while (adjusted < coreNum && coreNum % adjusted != 0) ++adjusted]; at most
    [coreNum] iterations. *)
Fixpoint seek_divisor (fuel : nat) (coreNum adjusted : Z) : Z :=
  match fuel with
  | O => adjusted
  | S fuel' =>
      if (adjusted <? coreNum) && negb (coreNum %c adjusted =? 0)
      then seek_divisor fuel' coreNum (adjusted + 1)
      else adjusted
  end.

Definition ChooseFnTokenDimCoSplitBaseDimChoice (dim ubSize coreNum : Z) : DimTileChoice :=
  if dim <=? 0 then DimTileChoice0
  else
    let ubLimitedBaseDim := ComputeFnUbLimitedBaseDim ubSize in
    if ubLimitedBaseDim <=? 0 then DimTileChoice0
    else
      let baseDimCnt := CeilDivInt64 dim ubLimitedBaseDim in
      let result := Build_DimTileChoice ubLimitedBaseDim baseDimCnt baseDimCnt in
      if (coreNum =? 0) || (baseDimCnt <=? 1) || (baseDimCnt >=? coreNum) ||
         (coreNum %c baseDimCnt =? 0)
      then result
      else
        let adjustedBaseDimCnt := seek_divisor (Z.to_nat coreNum) coreNum baseDimCnt in
        if adjustedBaseDimCnt >=? coreNum then result
        else
          let adjustedBaseDim := AlignUpInt64 (CeilDivInt64 dim adjustedBaseDimCnt) DIM_ALIGN_ELEMS in
          if (adjustedBaseDim <=? 0) || (adjustedBaseDim >? ubLimitedBaseDim) ||
             (adjustedBaseDim >? MAX_DIM_TILE_SIZE)
          then result
          else
            let baseDimCnt' := CeilDivInt64 dim adjustedBaseDim in
            Build_DimTileChoice adjustedBaseDim baseDimCnt' baseDimCnt'.

Definition BuildFnTokenCoreMappingChoice (tokenBlockCnt baseDimCnt : Z)
    (fnExecutionPlan : FnExecutionPlan) (coreNum : Z) : TokenCoreMappingChoice :=
  let tokenCoreBudget := ResolveFnTokenCoreBudget baseDimCnt fnExecutionPlan coreNum in
  if (tokenBlockCnt <=? 0) || (tokenCoreBudget <=? 0) || (baseDimCnt <=? 0)
  then Build_TokenCoreMappingChoice tokenCoreBudget 0 0 0
  else
    let tokenBlocksPerCore := CeilDivInt64 tokenBlockCnt tokenCoreBudget in
    let tailCnt := tokenBlockCnt - (Z.max 0 (tokenBlocksPerCore - 1) * tokenCoreBudget) in
    let tokenCoreTailCnt := if tailCnt <=? 0 then tokenCoreBudget else tailCnt in
    Build_TokenCoreMappingChoice tokenCoreBudget tokenBlocksPerCore tokenCoreTailCnt
      (tokenCoreBudget * baseDimCnt).

Definition ChooseFnTokenBlockChoice (cuSeqlen baseDimCnt : Z)
    (fnExecutionPlan : FnExecutionPlan) (coreNum : Z) : VarlenTokenTileChoice :=
  let tokenCoreBudget := ResolveFnTokenCoreBudget baseDimCnt fnExecutionPlan coreNum in
  if (cuSeqlen <=? 0) || (tokenCoreBudget <=? 0) then VarlenTokenTileChoice0
  else
    let idealBlockSize := CeilDivInt64 cuSeqlen tokenCoreBudget in
    let tokenBlockSize := if idealBlockSize >? 0 then idealBlockSize else 1 in
    let tokenBlockCnt := CeilDivInt64 cuSeqlen tokenBlockSize in
    Build_VarlenTokenTileChoice true tokenBlockSize tokenBlockCnt (tokenBlockCnt * baseDimCnt).

(** ** Sequence ranges of the token tiles *)

Section SeqRanges.
Variable qslData : Z -> Z.
Variable batch : Z.

(** [while (seq < batch && qslData[seq + 1] <= tokenStart) ++seq]. *)
Fixpoint seek_start (fuel : nat) (tokenStart seq : Z) : Z :=
  match fuel with
  | O => seq
  | S fuel' =>
      if (seq <? batch) && (qslData (seq + 1) <=? tokenStart)
      then seek_start fuel' tokenStart (seq + 1) else seq
  end.

(** [while (endSeq < batch && qslData[endSeq] < tokenEnd) ++endSeq]. *)
Fixpoint seek_end (fuel : nat) (tokenEnd endSeq : Z) : Z :=
  match fuel with
  | O => endSeq
  | S fuel' =>
      if (endSeq <? batch) && (qslData endSeq <? tokenEnd)
      then seek_end fuel' tokenEnd (endSeq + 1) else endSeq
  end.

(** The loop over the token tiles, which carries [seq] from tile to tile. *)
Fixpoint range_loop (n : nat) (tokenTileId tokenBlockSize seq : Z)
    (starts ends : list Z) : list Z * list Z :=
  match n with
  | O => (starts, ends)
  | S n' =>
      let tokenStart := tokenTileId * tokenBlockSize in
      let tokenEnd := tokenStart + tokenBlockSize in
      let seq' := seek_start (Z.to_nat batch) tokenStart seq in
      let endSeq := seek_end (Z.to_nat batch) tokenEnd seq' in
      range_loop n' (tokenTileId + 1) tokenBlockSize seq'
        (<[Z.to_nat tokenTileId := seq']> starts) (<[Z.to_nat tokenTileId := endSeq]> ends)
  end.
End SeqRanges.

Definition BuildFnTokenSeqRangePlan (qslData : option (tensor Z))
    (batch tokenBlockSize tokenBlockCnt : Z) : FnTokenSeqRangePlan :=
  match qslData with
  | None => FnTokenSeqRangePlan0
  | Some qsl =>
      if (batch <=? 0) || (tokenBlockSize <=? 0) || (tokenBlockCnt <=? 0) ||
         (tokenBlockCnt >? MAX_FN_TOKEN_SEQ_RANGE_COUNT)
      then FnTokenSeqRangePlan0
      else
        let '(starts, ends) :=
          range_loop (t_at qsl) batch (Z.to_nat tokenBlockCnt) 0 tokenBlockSize 0
            (srp_tokenTileStartSeq FnTokenSeqRangePlan0) (srp_tokenTileEndSeq FnTokenSeqRangePlan0) in
        Build_FnTokenSeqRangePlan true tokenBlockCnt starts ends
  end.

(** ** The fn host plan *)

Definition ChooseUnifiedFnTokenBlockPlan (tiling : CausalConv1dTilingData)
    (baseDimChoice : DimTileChoice) (fnExecutionPlan : FnExecutionPlan) (coreNum : Z)
    : VarlenTokenTileChoice :=
  if (negb (td_inputMode tiling =? 0) && negb (td_inputMode tiling =? 1)) ||
     (td_batch tiling <=? 0) || (td_cuSeqlen tiling <=? 0) ||
     (dtc_baseDimCnt baseDimChoice <=? 0) || (coreNum =? 0) ||
     bool_decide (fnExecutionPlan = FN_EXECUTION_PLAN_INVALID)
  then VarlenTokenTileChoice0
  else if negb (td_hasNumAcceptedTokens tiling =? 0) then VarlenTokenTileChoice0
  else ChooseFnTokenBlockChoice (td_cuSeqlen tiling) (dtc_baseDimCnt baseDimChoice)
         fnExecutionPlan coreNum.

Definition ChooseFnHostPlan (tiling : CausalConv1dTilingData) (ubSize coreNum : Z) : FnHostPlan :=
  if (negb (td_inputMode tiling =? 0) && negb (td_inputMode tiling =? 1)) ||
     (td_batch tiling <=? 0) || (td_cuSeqlen tiling <=? 0) || (td_dim tiling <=? 0) || (coreNum =? 0)
  then FnHostPlan0
  else
    let '(caseKind, executionPlan, baseDimChoice) :=
      if td_dim tiling <=? MAX_DIM_TILE_SIZE
      then (FN_TILING_CASE_TOKEN_FIRST, FN_EXECUTION_PLAN_CUTBS,
            ChooseFnTokenFirstBaseDimChoice (td_dim tiling))
      else (FN_TILING_CASE_TOKEN_DIM_CO_SPLIT, FN_EXECUTION_PLAN_CUTBSD,
            ChooseFnTokenDimCoSplitBaseDimChoice (td_dim tiling) ubSize coreNum) in
    if (dtc_baseDim baseDimChoice <=? 0) || (dtc_baseDimCnt baseDimChoice <=? 0) then FnHostPlan0
    else
      let baseDimChoice' := Build_DimTileChoice (dtc_baseDim baseDimChoice)
                              (dtc_baseDimCnt baseDimChoice)
                              (td_batch tiling * dtc_baseDimCnt baseDimChoice) in
      let tokenBlockChoice :=
        ChooseUnifiedFnTokenBlockPlan tiling baseDimChoice' executionPlan coreNum in
      if negb (vtc_enabled tokenBlockChoice) || (vtc_tokenBlockSize tokenBlockChoice <=? 0) ||
         (vtc_tokenBlockCnt tokenBlockChoice <=? 0) || (vtc_gridSize tokenBlockChoice <=? 0)
      then FnHostPlan0
      else
        let mapping := BuildFnTokenCoreMappingChoice (vtc_tokenBlockCnt tokenBlockChoice)
                         (dtc_baseDimCnt baseDimChoice') executionPlan coreNum in
        if (tcm_tokenCoreBudget mapping <=? 0) || (tcm_blockDim mapping <=? 0) then FnHostPlan0
        else
          let mapping' := if tcm_blockDim mapping >? coreNum
                          then Build_TokenCoreMappingChoice (tcm_tokenCoreBudget mapping)
                                 (tcm_tokenBlocksPerCore mapping) (tcm_tokenCoreTailCnt mapping) coreNum
                          else mapping in
          Build_FnHostPlan caseKind executionPlan baseDimChoice' tokenBlockChoice mapping'
            FnTokenSeqRangePlan0.

(** ** Correctness of the update-mode choice *)

Lemma candidates_pos b : b ∈ update_candidates -> 0 < b.
Proof. unfold update_candidates. set_unfold. lia. Qed.

Section UpdateChoice.
Variables batch dim coreNum : Z.
Hypothesis Hbatch : 0 < batch.
Hypothesis Hdim : 0 < dim.
Hypothesis Hcore : 0 < coreNum.
Hypothesis Hfit : batch * dim <= INT64_MAX.

(** The tile that candidate [b] stands for. *)
Definition candidate_choice (exact : bool) (b : Z) : DimTileChoice :=
  let cnt := if exact then dim /c b else CeilDivInt64 dim b in
  Build_DimTileChoice b cnt (batch * cnt).

(** Candidates the search may consider. *)
Definition eligible (exact : bool) (b : Z) : Prop :=
  0 < b /\ (exact = false \/ dim %c b = 0) /\ 0 < dtc_gridSize (candidate_choice exact b).

Definition over (exact : bool) (b : Z) : Prop :=
  eligible exact b /\ coreNum <= dtc_gridSize (candidate_choice exact b).
Definition under (exact : bool) (b : Z) : Prop :=
  eligible exact b /\ dtc_gridSize (candidate_choice exact b) < coreNum.

Lemma grid_fits exact b : 0 < b ->
  dtc_gridSize (candidate_choice exact b) <= INT64_MAX.
Proof.
  intros Hb. unfold candidate_choice; simpl.
  assert ((if exact then dim /c b else CeilDivInt64 dim b) <= dim) as Hle.
  { destruct exact.
    - rewrite quot_nonneg_div by lia. apply Z.div_le_upper_bound; nia.
    - apply CeilDivInt64_le; nia. }
  nia.
Qed.

(** [cur] is a candidate of [seen] satisfying [P] with the least [score], or
    the empty choice when there is none. *)
Definition best_of (exact : bool) (P : Z -> Prop) (score : DimTileChoice -> Z)
    (seen : list Z) (cur : DimTileChoice) : Prop :=
  (cur = DimTileChoice0 /\ (forall b, b ∈ seen -> ~ P b)) \/
  (exists b0, b0 ∈ seen /\ P b0 /\ cur = candidate_choice exact b0 /\
     (forall b, b ∈ seen -> P b -> score cur <= score (candidate_choice exact b))).

Lemma best_skip exact P score seen cur b :
  ~ P b -> best_of exact P score seen cur -> best_of exact P score (seen ++ [b]) cur.
Proof.
  intros HP [[-> Hno]|(b0 & Hin & HP0 & -> & Hmin)]; [left|right; exists b0]; set_solver.
Qed.

Lemma best_keep exact P score seen cur b :
  cur <> DimTileChoice0 -> score cur <= score (candidate_choice exact b) ->
  best_of exact P score seen cur -> best_of exact P score (seen ++ [b]) cur.
Proof.
  intros Hne Hle [[-> Hno]|(b0 & Hin & HP0 & -> & Hmin)]; [done|right; exists b0]; set_solver.
Qed.

Lemma best_take exact P score seen cur b :
  (forall b, P b -> 0 < b) ->
  P b -> (cur = DimTileChoice0 \/ score (candidate_choice exact b) <= score cur) ->
  best_of exact P score seen cur ->
  best_of exact P score (seen ++ [b]) (candidate_choice exact b).
Proof.
  intros HPpos HP Hcur Hbest. right. exists b. split_and!; [set_solver|done|done|].
  intros b' [Hb'| ->%list_elem_of_singleton]%elem_of_app HP'; [|lia].
  destruct Hbest as [[-> Hno]|(b0 & Hin & HP0 & -> & Hmin)]; [by destruct (Hno b')|].
  specialize (Hmin b' Hb' HP').
  destruct Hcur as [Heq|Hle]; [|lia]. apply (f_equal dtc_baseDim) in Heq. simpl in Heq.
  specialize (HPpos b0 HP0). lia.
Qed.

(** What the search knows after the candidates [seen]. *)
Definition choose_inv (exact : bool) (seen : list Z) (st : ChooseState) : Prop :=
  best_of exact (over exact) dtc_gridSize seen (cs_bestOver st) /\
  best_of exact (under exact) (fun c => - dtc_gridSize c) seen (cs_bestUnder st) /\
  cs_bestOverGap st =
    if dtc_baseDim (cs_bestOver st) =? 0 then INT64_MAX
    else dtc_gridSize (cs_bestOver st) - coreNum.

Lemma best_of_pos exact P score seen cur :
  (forall b, P b -> 0 < b) -> best_of exact P score seen cur ->
  cur = DimTileChoice0 \/ 0 < dtc_baseDim cur.
Proof.
  intros HP [[-> _]|(b0 & _ & HP0 & -> & _)]; [by left|right]. simpl. auto.
Qed.

Lemma over_pos exact b : over exact b -> 0 < b.
Proof. intros [[? _] _]. done. Qed.
Lemma under_pos exact b : under exact b -> 0 < b.
Proof. intros [[? _] _]. done. Qed.

Lemma choose_step_over exact seen st b :
  over exact b -> choose_inv exact seen st ->
  choose_inv exact (seen ++ [b]) (chooseOnce_step batch dim coreNum exact st b).
Proof.
  intros Hov (Hbo & Hbu & Hgap).
  assert (~ under exact b) as Hnu by (unfold over, under in *; lia).
  pose proof Hov as [(Hb & Hex & Hg) Hge]. pose proof (grid_fits exact b Hb) as Hmax.
  unfold candidate_choice in Hg, Hge, Hmax; simpl in Hg, Hge, Hmax.
  unfold chooseOnce_step. rewrite (proj2 (Z.leb_gt b 0)) by lia.
  replace (exact && negb (dim %c b =? 0)) with false
    by (destruct Hex as [-> | ->]; [done|by rewrite andb_false_r]).
  cbv zeta. rewrite (proj2 (Z.leb_gt _ 0)) by done.
  rewrite Z.geb_leb, (proj2 (Z.leb_le coreNum _)) by done.
  pose proof (best_of_pos _ _ _ _ _ (over_pos exact) Hbo) as Hpos.
  destruct (_ <? cs_bestOverGap st) eqn:Hlt; bool_prop; split_and!; simpl.
  - apply (best_take exact _ _ seen (cs_bestOver st)); [apply over_pos|done| |done].
    rewrite Hgap in Hlt. destruct Hpos as [Hz|Hp]; [by left|right].
    rewrite (proj2 (Z.eqb_neq _ 0)) in Hlt by lia. simpl. lia.
  - by apply best_skip.
  - by rewrite (proj2 (Z.eqb_neq b 0)) by lia.
  - rewrite Hgap in Hlt. destruct Hpos as [Hz|Hp].
    + rewrite Hz in Hlt. simpl in Hlt. lia.
    + rewrite (proj2 (Z.eqb_neq _ 0)) in Hlt by lia.
      apply best_keep; [by intros Hz; rewrite Hz in Hp|simpl; lia|done].
  - by apply best_skip.
  - done.
Qed.

Lemma choose_step_under exact seen st b :
  under exact b -> choose_inv exact seen st ->
  choose_inv exact (seen ++ [b]) (chooseOnce_step batch dim coreNum exact st b).
Proof.
  intros Hun (Hbo & Hbu & Hgap).
  assert (~ over exact b) as Hno by (unfold over, under in *; lia).
  pose proof Hun as [(Hb & Hex & Hg) Hlt0].
  unfold candidate_choice in Hg, Hlt0; simpl in Hg, Hlt0.
  unfold chooseOnce_step. rewrite (proj2 (Z.leb_gt b 0)) by lia.
  replace (exact && negb (dim %c b =? 0)) with false
    by (destruct Hex as [-> | ->]; [done|by rewrite andb_false_r]).
  cbv zeta. rewrite (proj2 (Z.leb_gt _ 0)) by done.
  rewrite Z.geb_leb, (proj2 (Z.leb_gt coreNum _)) by done.
  pose proof (best_of_pos _ _ _ _ _ (under_pos exact) Hbu) as Hpos.
  destruct (_ || _) eqn:Hbetter; split_and!; simpl; try done; try by apply best_skip.
  - apply (best_take exact _ _ seen (cs_bestUnder st)); [apply under_pos|done| |done].
    right. simpl.
    apply orb_prop in Hbetter as [H|H]; bool_prop; lia.
  - bool_prop. apply best_keep; [|simpl; lia|done].
    intros Hz. rewrite Hz in *. simpl in *. lia.
Qed.

Lemma choose_step_skip exact seen st b :
  ~ eligible exact b -> choose_inv exact seen st ->
  choose_inv exact (seen ++ [b]) (chooseOnce_step batch dim coreNum exact st b).
Proof.
  intros Hne (Hbo & Hbu & Hgap).
  assert (chooseOnce_step batch dim coreNum exact st b = st) as ->.
  { unfold chooseOnce_step, eligible, candidate_choice in *; simpl in *.
    destruct (b <=? 0) eqn:Hb; [done|]. destruct (_ && negb _) eqn:Hex; [done|].
    destruct (batch * _ <=? 0) eqn:Hg; [done|]. bool_prop. exfalso. apply Hne.
    split_and!; [lia| |lia]. destruct Hex as [?|?]; [by left|right]. by bool_prop. }
  split_and!; [apply best_skip; [unfold over; tauto|done]
              |apply best_skip; [unfold under; tauto|done]|done].
Qed.

Lemma choose_step_inv exact seen st b :
  choose_inv exact seen st ->
  choose_inv exact (seen ++ [b]) (chooseOnce_step batch dim coreNum exact st b).
Proof.
  intros Hinv.
  assert (Decision (eligible exact b)) as Hdec by (unfold eligible; apply _).
  destruct (decide (eligible exact b)); [|by apply choose_step_skip].
  destruct (decide (coreNum <= dtc_gridSize (candidate_choice exact b))).
  - by apply choose_step_over.
  - apply choose_step_under; [split; [done|lia]|done].
Qed.

Lemma chooseOnce_best exact :
  best_of exact (over exact) dtc_gridSize update_candidates (chooseOnce batch dim coreNum exact) /\
    (exists b, b ∈ update_candidates /\ over exact b) \/
  best_of exact (under exact) (fun c => - dtc_gridSize c) update_candidates
    (chooseOnce batch dim coreNum exact) /\
    (forall b, b ∈ update_candidates -> ~ over exact b).
Proof.
  assert (forall l seen st, choose_inv exact seen st ->
    choose_inv exact (seen ++ l) (fold_left (chooseOnce_step batch dim coreNum exact) l st)) as Hfold.
  { induction l as [|b l IH]; intros seen st H; simpl; [by rewrite app_nil_r|].
    replace (seen ++ b :: l) with ((seen ++ [b]) ++ l) by (by rewrite <- app_assoc).
    by apply IH, choose_step_inv. }
  specialize (Hfold update_candidates [] (Build_ChooseState DimTileChoice0 INT64_MAX DimTileChoice0)).
  unfold chooseOnce. destruct Hfold as (Hbo & Hbu & _).
  { split_and!; [left; set_solver|left; set_solver|done]. }
  simpl app in *. set (st := fold_left _ _ _) in *.
  destruct Hbo as [[Hz Hno]|(b0 & Hin & Hov & Heq & Hmin)].
  - right. rewrite Hz. simpl. auto.
  - left. rewrite (proj2 (Z.eqb_neq _ 0)); [simpl; split; [right|]; eauto|].
    rewrite Heq. apply over_pos in Hov. simpl. lia.
Qed.

Lemma exact_cnt b : 0 < b -> dim %c b = 0 -> dim /c b = CeilDivInt64 dim b.
Proof.
  intros Hb Hr. pose proof (CeilDivInt64_spec dim b ltac:(lia) Hb).
  pose proof (Z.quot_rem' dim b). nia.
Qed.

(** In either mode a candidate stands for the covering tile count. *)
Lemma candidate_choice_cover exact b : 0 < b -> exact = false \/ dim %c b = 0 ->
  candidate_choice exact b = Build_DimTileChoice b (CeilDivInt64 dim b) (batch * CeilDivInt64 dim b).
Proof.
  intros Hb [-> | Hr]; [done|]. unfold candidate_choice.
  destruct exact; [by rewrite exact_cnt|done].
Qed.

(** Every candidate that divides [dim] (exact mode), and every candidate at
    all (tail mode), is eligible. *)
Lemma candidate_eligible exact b : b ∈ update_candidates -> exact = false \/ dim %c b = 0 ->
  eligible exact b.
Proof.
  intros Hb%candidates_pos Hex. split_and!; [done..|].
  rewrite candidate_choice_cover by done. simpl.
  pose proof (CeilDivInt64_pos dim b Hdim Hb). nia.
Qed.

(** One pass returns a best candidate, when there is any eligible one. *)
Lemma chooseOnce_spec exact b : b ∈ update_candidates -> exact = false \/ dim %c b = 0 ->
  exists b0, b0 ∈ update_candidates /\ (exact = false \/ dim %c b0 = 0) /\
    chooseOnce batch dim coreNum exact =
      Build_DimTileChoice b0 (CeilDivInt64 dim b0) (batch * CeilDivInt64 dim b0) /\
    forall b', b' ∈ update_candidates -> exact = false \/ dim %c b' = 0 ->
      (coreNum <= batch * CeilDivInt64 dim b' ->
         coreNum <= batch * CeilDivInt64 dim b0 <= batch * CeilDivInt64 dim b') /\
      (batch * CeilDivInt64 dim b0 < coreNum ->
         batch * CeilDivInt64 dim b' <= batch * CeilDivInt64 dim b0).
Proof.
  intros Hb Hex. pose proof (candidate_eligible exact b Hb Hex) as Hel.
  destruct (chooseOnce_best exact) as [[[[_ Hno]|(b0 & Hin & Hov & -> & Hmin)] Hsome]
                                      |[[[_ Hno]|(b0 & Hin & Hun & -> & Hmax)] Hnone]].
  - destruct Hsome as (b1 & Hb1 & Hov1). by destruct (Hno b1).
  - pose proof Hov as [(Hb0 & Hex0 & _) Hge0]. rewrite candidate_choice_cover in * by done.
    exists b0. split_and!; [done..|]. intros b' Hb' Hex'. simpl in Hge0. split; [|lia].
    intros Hge'. split; [done|].
    assert (over exact b') as Hov'.
    { split; [by apply candidate_eligible|].
      rewrite candidate_choice_cover by (try apply candidates_pos; done). done. }
    specialize (Hmin b' Hb' Hov').
    by rewrite candidate_choice_cover in Hmin by (try apply candidates_pos; done).
  - exfalso. destruct (decide (coreNum <= dtc_gridSize (candidate_choice exact b))).
    + by apply (Hnone b).
    + apply (Hno b); [done|]. split; [done|lia].
  - pose proof Hun as [(Hb0 & Hex0 & _) Hlt0]. rewrite candidate_choice_cover in * by done.
    exists b0. split_and!; [done..|]. intros b' Hb' Hex'. simpl in Hlt0.
    pose proof (candidate_choice_cover exact b' (candidates_pos b' Hb') Hex') as Hc'.
    assert (~ over exact b') as Hno' by auto. unfold over in Hno'. rewrite Hc' in Hno'.
    pose proof (candidate_eligible exact b' Hb' Hex').
    split; [intros; exfalso; apply Hno'; done|intros _].
    assert (under exact b') as Hun'.
    { split; [done|]. rewrite Hc'. simpl in *. destruct (decide (coreNum <= batch * CeilDivInt64 dim b')); [|lia].
      exfalso. by apply Hno'. }
    specialize (Hmax b' Hb' Hun'). rewrite Hc' in Hmax. simpl in Hmax. lia.
Qed.
End UpdateChoice.

(** [cnt] tiles of [size] cover [0, total) without an empty tile. *)
Definition tiles_cover (total size cnt : Z) : Prop :=
  0 < size /\ 0 < cnt /\ total <= cnt * size /\ (cnt - 1) * size < total.

Lemma CeilDivInt64_tiles total size : 0 < total -> 0 < size ->
  tiles_cover total size (CeilDivInt64 total size).
Proof.
  intros Ht Hs. pose proof (CeilDivInt64_spec total size ltac:(lia) Hs).
  pose proof (CeilDivInt64_pos total size Ht Hs). unfold tiles_cover. lia.
Qed.

Lemma update_choice_exact_or_tail batch dim coreNum :
  0 < batch -> 0 < dim -> 0 < coreNum -> batch * dim <= INT64_MAX ->
  ChooseCanonicalUpdateBaseDimChoice batch dim coreNum =
    chooseOnce batch dim coreNum (bool_decide (Exists (fun b => dim %c b = 0) update_candidates)).
Proof.
  intros Hb Hd Hc Hfit. unfold ChooseCanonicalUpdateBaseDimChoice.
  case_bool_decide as Hex.
  - apply list.Exists_exists in Hex as (b & Hin & Hr).
    destruct (chooseOnce_spec batch dim coreNum Hb Hd Hc Hfit true b Hin (or_intror Hr))
      as (b0 & Hin0 & _ & -> & _). simpl.
    rewrite (proj2 (Z.eqb_neq b0 0)); [done|]. apply candidates_pos in Hin0. lia.
  - destruct (chooseOnce_best batch dim coreNum Hb Hd Hc Hfit true)
      as [[_ (b & Hin & [(_ & [?|Hr] & _) _])]|[[[-> _]|(b & Hin & [(_ & [?|Hr] & _) _] & _)] _]];
      try done; exfalso; apply Hex, list.Exists_exists; eauto.
Qed.

(** The class of sizes the choice is made in: the divisors of [dim], or all. *)
Definition exact_mode (dim : Z) : bool :=
  bool_decide (Exists (fun b => dim %c b = 0) update_candidates).

Lemma update_choice_best batch dim coreNum :
  0 < batch -> 0 < dim -> 0 < coreNum -> batch * dim <= INT64_MAX ->
  exists b0, b0 ∈ update_candidates /\ (exact_mode dim = false \/ dim %c b0 = 0) /\
    ChooseCanonicalUpdateBaseDimChoice batch dim coreNum =
      Build_DimTileChoice b0 (CeilDivInt64 dim b0) (batch * CeilDivInt64 dim b0) /\
    forall b, b ∈ update_candidates -> exact_mode dim = false \/ dim %c b = 0 ->
      (coreNum <= batch * CeilDivInt64 dim b ->
         coreNum <= batch * CeilDivInt64 dim b0 <= batch * CeilDivInt64 dim b) /\
      (batch * CeilDivInt64 dim b0 < coreNum ->
         batch * CeilDivInt64 dim b <= batch * CeilDivInt64 dim b0).
Proof.
  intros Hb Hd Hc Hfit. rewrite update_choice_exact_or_tail by done. fold (exact_mode dim).
  assert (exists b, b ∈ update_candidates /\ (exact_mode dim = false \/ dim %c b = 0)) as (b & Hin & Hex).
  { unfold exact_mode. case_bool_decide as Hex; [|exists 192; set_solver].
    apply list.Exists_exists in Hex as (b & Hin & Hr). eauto. }
  by apply (chooseOnce_spec batch dim coreNum Hb Hd Hc Hfit (exact_mode dim) b).
Qed.

(** C30.  The update-mode channel tile: the returned tile is one of the listed
    sizes, its count covers [dim] with no empty tile, a divisor of [dim] is
    returned whenever a listed size divides [dim], and among the sizes of that
    class it has the least grid that still occupies every core, or, when no
    size does, the largest grid. *)
Theorem update_choice_correct batch dim coreNum :
  0 < batch -> 0 < dim -> 0 < coreNum -> batch * dim <= INT64_MAX ->
  let r := ChooseCanonicalUpdateBaseDimChoice batch dim coreNum in
  dtc_baseDim r ∈ update_candidates /\
  tiles_cover dim (dtc_baseDim r) (dtc_baseDimCnt r) /\
  dtc_gridSize r = batch * dtc_baseDimCnt r /\
  (exact_mode dim = true -> dim %c dtc_baseDim r = 0) /\
  (forall b, b ∈ update_candidates -> exact_mode dim = false \/ dim %c b = 0 ->
     let grid := batch * CeilDivInt64 dim b in
     (coreNum <= grid -> coreNum <= dtc_gridSize r <= grid) /\
     (dtc_gridSize r < coreNum -> grid <= dtc_gridSize r)).
Proof.
  intros Hb Hd Hc Hfit r. subst r.
  destruct (update_choice_best batch dim coreNum Hb Hd Hc Hfit) as (b0 & Hin0 & Hex0 & -> & Hbest).
  simpl. split_and!; [done|apply CeilDivInt64_tiles; [done|by apply candidates_pos]|done| |done].
  intros He. destruct Hex0 as [He0|]; [congruence|done].
Qed.

Lemma update_choice_correct_witness :
  let r := ChooseCanonicalUpdateBaseDimChoice 3 2304 40 in
  r = Build_DimTileChoice 192 12 36 /\ tiles_cover 2304 (dtc_baseDim r) (dtc_baseDimCnt r).
Proof.
  split; [vm_compute; reflexivity|].
  apply (update_choice_correct 3 2304 40); vm_compute; congruence.
Defined.

(** ** Correctness of the fn-mode plan *)

(** The divisor search stops at the first divisor of [coreNum] at or above its
    start, or at [coreNum]: the fuel [coreNum] is always enough. *)
Lemma seek_divisor_spec coreNum start fuel :
  1 <= start <= coreNum -> coreNum - start <= Z.of_nat fuel ->
  let r := seek_divisor fuel coreNum start in
  start <= r <= coreNum /\ coreNum %c r = 0 /\
  (forall d, start <= d < r -> coreNum %c d <> 0).
Proof.
  revert start. induction fuel as [|fuel IH]; intros start Hs Hf; simpl.
  - assert (start = coreNum) as -> by lia. rewrite Z.rem_same by lia.
    split_and!; [lia|lia|done|intros; lia].
  - destruct (_ && _) eqn:E; bool_prop.
    + destruct (IH (start + 1) ltac:(lia) ltac:(lia)) as (Hr & Hz & Hmin).
      split_and!; [lia..|done|]. intros d Hd. destruct (decide (d = start)) as [-> |]; [done|].
      apply Hmin. lia.
    + split_and!; [lia|lia| |intros; lia]. destruct E; bool_prop; [|done].
      assert (start = coreNum) as -> by lia. by rewrite Z.rem_same by lia.
Qed.

Lemma ComputeFnUbLimitedBaseDim_spec ubSize :
  let b := ComputeFnUbLimitedBaseDim ubSize in
  0 <= b <= MAX_DIM_TILE_SIZE /\ b mod DIM_ALIGN_ELEMS = 0 /\
  (0 < b -> FN_UB_RESERVED_BYTES + 46 * b <= ubSize).
Proof.
  unfold ComputeFnUbLimitedBaseDim. case_if; [vm_compute; intuition congruence|].
  cbv zeta. set (q := _ /c _).
  assert (0 <= q /\ 46 * q <= ubSize - FN_UB_RESERVED_BYTES) as [Hq1 Hq2].
  { subst q. unfold RING_SLOT_CNT, BF16_FP16_ELEM_BYTES, FN_OUT_SLOT_CNT, FN_CALC_FP32_SLOT_CNT.
    change (5 * 2 + 2 * 2 + 8 * 4) with 46. zlia. }
  pose proof (AlignDownInt64_spec q DIM_ALIGN_ELEMS ltac:(done)) as (H1 & H2 & H3).
  destruct (Z.min_spec MAX_DIM_TILE_SIZE (AlignDownInt64 q DIM_ALIGN_ELEMS)) as [[Hm ->]|[Hm ->]].
  - split_and!; [done..|]. intros _. unfold FN_UB_RESERVED_BYTES in *. lia.
  - split_and!; [done..|]. intros _. unfold FN_UB_RESERVED_BYTES in *. lia.
Qed.

Lemma AlignUpInt64_multiple v : 0 < v -> AlignUpInt64 v DIM_ALIGN_ELEMS mod DIM_ALIGN_ELEMS = 0.
Proof. intros H. by apply AlignUpInt64_spec. Qed.

Lemma cosplit_spec dim ubSize coreNum :
  0 < dim -> 0 <= coreNum -> 0 < ComputeFnUbLimitedBaseDim ubSize ->
  let r := ChooseFnTokenDimCoSplitBaseDimChoice dim ubSize coreNum in
  tiles_cover dim (dtc_baseDim r) (dtc_baseDimCnt r) /\
  dtc_baseDim r <= ComputeFnUbLimitedBaseDim ubSize /\
  dtc_baseDim r mod DIM_ALIGN_ELEMS = 0.
Proof.
  intros Hd Hc Hub. pose proof (ComputeFnUbLimitedBaseDim_spec ubSize) as (Hr1 & Hr2 & _).
  unfold ChooseFnTokenDimCoSplitBaseDimChoice.
  rewrite (proj2 (Z.leb_gt dim 0)) by lia. cbv zeta.
  rewrite (proj2 (Z.leb_gt (ComputeFnUbLimitedBaseDim ubSize) 0)) by lia.
  set (ub := ComputeFnUbLimitedBaseDim ubSize) in *.
  pose proof (CeilDivInt64_tiles dim ub Hd Hub) as Hcov.
  case_if; [by simpl|]. case_if; [by simpl|]. case_if; [by simpl|]. simpl.
  destruct (seek_divisor_spec coreNum (CeilDivInt64 dim ub) (Z.to_nat coreNum)) as ((Hs & _) & _ & _);
    [unfold tiles_cover in *; lia..|].
  split_and!; [apply CeilDivInt64_tiles; lia|lia|].
  apply AlignUpInt64_multiple, CeilDivInt64_pos; [done|]. unfold tiles_cover in *. lia.
Qed.

(** What a valid fn plan guarantees to the launch and to the kernel. *)
Record fn_plan_ok (dim cuSeqlen coreNum : Z) (plan : FnHostPlan) : Prop := {
  fpo_channels : tiles_cover dim (dtc_baseDim (fhp_baseDimChoice plan))
                   (dtc_baseDimCnt (fhp_baseDimChoice plan));
  fpo_tile_max : dtc_baseDim (fhp_baseDimChoice plan) <= MAX_DIM_TILE_SIZE;
  fpo_tile_aligned : dim mod DIM_ALIGN_ELEMS = 0 ->
                     dtc_baseDim (fhp_baseDimChoice plan) mod DIM_ALIGN_ELEMS = 0;
  fpo_tokens : tiles_cover cuSeqlen (vtc_tokenBlockSize (fhp_tokenBlockChoice plan))
                 (vtc_tokenBlockCnt (fhp_tokenBlockChoice plan));
  fpo_budget : vtc_tokenBlockCnt (fhp_tokenBlockChoice plan) <=
                 tcm_tokenCoreBudget (fhp_tokenCoreMapping plan);
  fpo_grid : vtc_gridSize (fhp_tokenBlockChoice plan) =
               vtc_tokenBlockCnt (fhp_tokenBlockChoice plan) *
               dtc_baseDimCnt (fhp_baseDimChoice plan);
  fpo_blockDim : tcm_blockDim (fhp_tokenCoreMapping plan) =
                   Z.min coreNum (tcm_tokenCoreBudget (fhp_tokenCoreMapping plan) *
                                  dtc_baseDimCnt (fhp_baseDimChoice plan));
  fpo_budget_eq : tcm_tokenCoreBudget (fhp_tokenCoreMapping plan) =
                    if dim <=? MAX_DIM_TILE_SIZE then coreNum
                    else Z.max 1 (coreNum /c dtc_baseDimCnt (fhp_baseDimChoice plan));
  fpo_single : dim <= MAX_DIM_TILE_SIZE -> dtc_baseDimCnt (fhp_baseDimChoice plan) = 1;
  fpo_dim_grid : 0 < dtc_gridSize (fhp_baseDimChoice plan);
  fpo_enabled : vtc_enabled (fhp_tokenBlockChoice plan) = true;
  fpo_plan : fhp_executionPlan plan =
               if dim <=? MAX_DIM_TILE_SIZE then FN_EXECUTION_PLAN_CUTBS else FN_EXECUTION_PLAN_CUTBSD;
  fpo_case : fhp_caseKind plan <> FN_TILING_CASE_INVALID }.

(** The tokens are cut into at most [budget] blocks, none of them empty. *)
Lemma token_block_choice_spec cuSeqlen baseDimCnt plan coreNum :
  0 < cuSeqlen -> 0 < baseDimCnt -> 0 < coreNum -> plan <> FN_EXECUTION_PLAN_INVALID ->
  let c := ChooseFnTokenBlockChoice cuSeqlen baseDimCnt plan coreNum in
  let budget := ResolveFnTokenCoreBudget baseDimCnt plan coreNum in
  vtc_enabled c = true /\ 0 < budget /\
  tiles_cover cuSeqlen (vtc_tokenBlockSize c) (vtc_tokenBlockCnt c) /\
  vtc_tokenBlockCnt c <= budget /\ vtc_gridSize c = vtc_tokenBlockCnt c * baseDimCnt /\
  budget = if bool_decide (plan = FN_EXECUTION_PLAN_CUTBSD) then Z.max 1 (coreNum /c baseDimCnt) else coreNum.
Proof.
  intros Hs Hb Hc Hp c budget.
  assert (budget = if bool_decide (plan = FN_EXECUTION_PLAN_CUTBSD)
                   then Z.max 1 (coreNum /c baseDimCnt) else coreNum) as Hbud.
  { subst budget. unfold ResolveFnTokenCoreBudget.
    rewrite (proj2 (Z.leb_gt baseDimCnt 0)), (proj2 (Z.eqb_neq coreNum 0)) by lia.
    by rewrite bool_decide_eq_false_2 by done. }
  assert (0 < budget) as Hpos by (rewrite Hbud; case_bool_decide; lia).
  pose proof (CeilDivInt64_pos cuSeqlen budget Hs Hpos) as Hideal.
  subst c. unfold ChooseFnTokenBlockChoice. fold budget.
  rewrite (proj2 (Z.leb_gt cuSeqlen 0)), (proj2 (Z.leb_gt budget 0)) by lia. cbv zeta.
  rewrite Z.gtb_ltb, (proj2 (Z.ltb_lt 0 _)) by done. cbn [orb].
  split_and!; try done; simpl.
  - by apply CeilDivInt64_tiles.
  - by apply CeilDivInt64_retile.
Qed.

(** The inputs the fn planner accepts. *)
Definition fn_plannable (tiling : CausalConv1dTilingData) (ubSize coreNum : Z) : Prop :=
  (td_inputMode tiling = 0 \/ td_inputMode tiling = 1) /\
  0 < td_batch tiling /\ 0 < td_cuSeqlen tiling /\ 0 < td_dim tiling /\ 0 < coreNum /\
  td_hasNumAcceptedTokens tiling = 0 /\
  (td_dim tiling <= MAX_DIM_TILE_SIZE \/ 0 < ComputeFnUbLimitedBaseDim ubSize).

(** The channel choice of either case. *)
Lemma base_dim_choice_spec dim ubSize coreNum :
  0 < dim -> 0 < coreNum -> dim <= MAX_DIM_TILE_SIZE \/ 0 < ComputeFnUbLimitedBaseDim ubSize ->
  let c := if dim <=? MAX_DIM_TILE_SIZE then ChooseFnTokenFirstBaseDimChoice dim
           else ChooseFnTokenDimCoSplitBaseDimChoice dim ubSize coreNum in
  tiles_cover dim (dtc_baseDim c) (dtc_baseDimCnt c) /\
  dtc_baseDim c <= MAX_DIM_TILE_SIZE /\
  (dim mod DIM_ALIGN_ELEMS = 0 -> dtc_baseDim c mod DIM_ALIGN_ELEMS = 0) /\
  (dim <= MAX_DIM_TILE_SIZE -> dtc_baseDimCnt c = 1).
Proof.
  intros Hd Hc Hub c. subst c. destruct (dim <=? MAX_DIM_TILE_SIZE) eqn:E; bool_prop.
  - unfold ChooseFnTokenFirstBaseDimChoice.
    rewrite (proj2 (Z.leb_gt dim 0)), Z.gtb_ltb, (proj2 (Z.ltb_ge _ _)) by lia.
    simpl. unfold tiles_cover. split_and!; [lia..|done|done].
  - destruct Hub as [?|Hub]; [lia|].
    pose proof (cosplit_spec dim ubSize coreNum Hd ltac:(lia) Hub) as (H1 & H2 & H3).
    pose proof (ComputeFnUbLimitedBaseDim_spec ubSize) as (H4 & _ & _).
    split_and!; [done|lia|done|lia].
Qed.

Lemma fn_host_plan_sound tiling ubSize coreNum :
  fn_plannable tiling ubSize coreNum ->
  fn_plan_ok (td_dim tiling) (td_cuSeqlen tiling) coreNum (ChooseFnHostPlan tiling ubSize coreNum).
Proof.
  intros (Hm & Hb & Hs & Hd & Hc & Hn & Hub).
  pose proof (base_dim_choice_spec (td_dim tiling) ubSize coreNum Hd Hc Hub) as Hbd.
  unfold ChooseFnHostPlan, ChooseUnifiedFnTokenBlockPlan.
  assert (negb (td_inputMode tiling =? 0) && negb (td_inputMode tiling =? 1) = false) as ->
    by (destruct Hm as [-> | ->]; done).
  rewrite (proj2 (Z.leb_gt (td_batch tiling) 0)), (proj2 (Z.leb_gt (td_cuSeqlen tiling) 0)),
    (proj2 (Z.leb_gt (td_dim tiling) 0)), (proj2 (Z.eqb_neq coreNum 0)) by lia.
  rewrite Hn, Z.eqb_refl. cbn [orb andb negb].
  set (plan := if td_dim tiling <=? MAX_DIM_TILE_SIZE
               then FN_EXECUTION_PLAN_CUTBS else FN_EXECUTION_PLAN_CUTBSD).
  set (kind := if td_dim tiling <=? MAX_DIM_TILE_SIZE
               then FN_TILING_CASE_TOKEN_FIRST else FN_TILING_CASE_TOKEN_DIM_CO_SPLIT).
  set (c := if td_dim tiling <=? MAX_DIM_TILE_SIZE then ChooseFnTokenFirstBaseDimChoice (td_dim tiling)
            else ChooseFnTokenDimCoSplitBaseDimChoice (td_dim tiling) ubSize coreNum) in *.
  match goal with |- context [match ?p with pair _ _ => _ end] => assert (p = (kind, plan, c)) as -> end.
  { subst kind plan c. by destruct (_ <=? _). }
  destruct Hbd as (Hcov & Hmax & Hal & Hone). pose proof Hcov as (Hbd1 & Hbd2 & _).
  rewrite (proj2 (Z.leb_gt (dtc_baseDim c) 0)), (proj2 (Z.leb_gt (dtc_baseDimCnt c) 0)) by lia.
  cbn [orb dtc_baseDimCnt]. rewrite (proj2 (Z.leb_gt (dtc_baseDimCnt c) 0)) by lia.
  assert (plan <> FN_EXECUTION_PLAN_INVALID) as Hplan by (subst plan; by destruct (_ <=? _)).
  rewrite (bool_decide_eq_false_2 (plan = _)) by done. cbn [orb].
  destruct (token_block_choice_spec (td_cuSeqlen tiling) (dtc_baseDimCnt c) plan coreNum Hs Hbd2 Hc Hplan)
    as (Hen & Hbud & Htok & Hle & Hgrid & Hbeq).
  set (tb := ChooseFnTokenBlockChoice _ _ _ _) in *. pose proof Htok as (Ht1 & Ht2 & _).
  rewrite Hen, (proj2 (Z.leb_gt (vtc_tokenBlockSize tb) 0)), (proj2 (Z.leb_gt (vtc_tokenBlockCnt tb) 0)),
    (proj2 (Z.leb_gt (vtc_gridSize tb) 0)) by (try rewrite Hgrid; nia). cbn [orb negb].
  unfold BuildFnTokenCoreMappingChoice. set (bud := ResolveFnTokenCoreBudget _ _ _) in *.
  rewrite (proj2 (Z.leb_gt (vtc_tokenBlockCnt tb) 0)), (proj2 (Z.leb_gt bud 0)),
    (proj2 (Z.leb_gt (dtc_baseDimCnt c) 0)) by lia. cbn [orb tcm_tokenCoreBudget tcm_blockDim].
  rewrite (proj2 (Z.leb_gt bud 0)), (proj2 (Z.leb_gt (bud * dtc_baseDimCnt c) 0)) by nia. cbn [orb].
  rewrite Z.gtb_ltb.
  assert (kind <> FN_TILING_CASE_INVALID) as Hkind by (subst kind; by destruct (_ <=? _)).
  split; simpl; try done.
  all: try (destruct (_ <? _) eqn:E; bool_prop; simpl; try done; lia).
  - destruct (_ <? _); simpl; rewrite Hbeq; subst plan; by destruct (_ <=? _).
  - nia.
Qed.

(** Outside those inputs the plan is the invalid one, which the tiling
    function rejects. *)
Lemma fn_host_plan_rejects tiling ubSize coreNum :
  0 <= coreNum ->
  fhp_caseKind (ChooseFnHostPlan tiling ubSize coreNum) <> FN_TILING_CASE_INVALID ->
  fn_plannable tiling ubSize coreNum.
Proof.
  intros Hc. unfold ChooseFnHostPlan.
  destruct (_ || _ || _ || _ || _) eqn:E; [done|]. bool_prop.
  assert (td_inputMode tiling = 0 \/ td_inputMode tiling = 1) as Hm
    by (destruct H as [?|?]; bool_prop; auto).
  destruct (negb (td_hasNumAcceptedTokens tiling =? 0)) eqn:En.
  { assert (forall c p, ChooseUnifiedFnTokenBlockPlan tiling c p coreNum = VarlenTokenTileChoice0) as Hv.
    { intros c p. unfold ChooseUnifiedFnTokenBlockPlan. rewrite En. by destruct (_ || _). }
    destruct (_ <=? MAX_DIM_TILE_SIZE); (destruct (_ || _); [done|]); cbv zeta; by rewrite Hv. }
  bool_prop. destruct (td_dim tiling <=? MAX_DIM_TILE_SIZE) eqn:Ed; bool_prop; intros Hk.
  - unfold fn_plannable. split_and!; try done; lia.
  - unfold fn_plannable. split_and!; try done; try lia. right.
    destruct (decide (0 < ComputeFnUbLimitedBaseDim ubSize)); [done|]. exfalso. apply Hk.
    unfold ChooseFnTokenDimCoSplitBaseDimChoice.
    rewrite (proj2 (Z.leb_gt (td_dim tiling) 0)), (proj2 (Z.leb_le (ComputeFnUbLimitedBaseDim ubSize) 0)) by lia.
    done.
Qed.

(** C29.  The fn planner decides exactly which problems it can plan, and every
    plan it returns is well formed: channel tiles and token tiles each cover
    their axis with no empty tile, a channel tile fits the kernel's rows and
    keeps the 16-element alignment of [dim], there are at most as many token
    tiles as token cores, and the launch uses at most [coreNum] cores. *)
Theorem fn_host_plan_correct tiling ubSize coreNum :
  0 <= coreNum ->
  let plan := ChooseFnHostPlan tiling ubSize coreNum in
  (fhp_caseKind plan <> FN_TILING_CASE_INVALID <-> fn_plannable tiling ubSize coreNum) /\
  (fhp_caseKind plan <> FN_TILING_CASE_INVALID ->
     fn_plan_ok (td_dim tiling) (td_cuSeqlen tiling) coreNum plan).
Proof.
  intros Hc plan. subst plan. split; [split|].
  - by apply fn_host_plan_rejects.
  - intros H%fn_host_plan_sound. apply (fpo_case _ _ _ _ H).
  - intros H%fn_host_plan_rejects; [|done]. by apply fn_host_plan_sound.
Qed.

Definition tiling_example : CausalConv1dTilingData :=
  {| td_dim := 8192; td_cuSeqlen := 1000; td_seqLen := 0; td_inputMode := 0; td_width := 4; td_stateLen := 3;
     td_numCacheLines := 8; td_batch := 2; td_activationMode := 1; td_padSlotId := -1; td_hasBias := 1;
     td_baseDim := 0; td_baseDimCnt := 0; td_hasNumAcceptedTokens := 0; td_hasCacheIndices := 0;
     td_hasInitialStateMode := 0; td_tokenBlockSize := 0; td_tokenBlockCnt := 0;
     td_hasExplicitTokenSeqRanges := 0; td_explicitTokenSeqRangeCount := 0;
     td_tokenTileStartSeq := []; td_tokenTileEndSeq := []; td_hasInitStateWorkspace := 0 |}.

Lemma fn_host_plan_correct_witness :
  fn_plan_ok 8192 1000 40 (ChooseFnHostPlan tiling_example 196608 40).
Proof.
  apply (fn_host_plan_correct tiling_example 196608 40); [lia|].
  vm_compute. discriminate.
Defined.

(** Every tile gets a core of its own as long as there are no more channel
    tiles than cores. *)
Lemma fn_plan_grid_launched dim cuSeqlen coreNum plan :
  0 < coreNum -> fn_plan_ok dim cuSeqlen coreNum plan ->
  dtc_baseDimCnt (fhp_baseDimChoice plan) <= coreNum ->
  vtc_gridSize (fhp_tokenBlockChoice plan) <= tcm_blockDim (fhp_tokenCoreMapping plan).
Proof.
  intros Hc [Hcov _ _ Htok Hbud Hgrid Hbd Hbeq Hone _ _ _ _] Hcnt.
  destruct Hcov as (_ & Hp & _), Htok as (_ & Ht & _). rewrite Hgrid, Hbd. clear Hgrid Hbd.
  destruct (dim <=? MAX_DIM_TILE_SIZE) eqn:E; bool_prop.
  - rewrite (Hone E). lia.
  - set (cnt := dtc_baseDimCnt _) in *.
    assert (tcm_tokenCoreBudget (fhp_tokenCoreMapping plan) * cnt <= coreNum); [|nia].
    rewrite Hbeq, quot_nonneg_div by lia.
    pose proof (Z.mul_div_le coreNum cnt Hp).
    pose proof (Z.div_le_lower_bound coreNum cnt 1 Hp ltac:(lia)). nia.
Qed.

(** ** Sequence ranges of the token tiles *)

(** [s] is the first sequence that ends after token [tok]. *)
Definition first_seq_after (qsl : Z -> Z) (batch tok s : Z) : Prop :=
  0 <= s <= batch /\ (forall k, 0 <= k < s -> qsl (k + 1) <= tok) /\
  (s < batch -> tok < qsl (s + 1)).

(** [e] is the first sequence at or after [s] that starts at or after [tok]. *)
Definition first_seq_from (qsl : Z -> Z) (batch s tok e : Z) : Prop :=
  s <= e <= batch /\ (forall k, s <= k < e -> qsl k < tok) /\ (e < batch -> tok <= qsl e).

Lemma first_seq_after_unique qsl batch tok s1 s2 :
  first_seq_after qsl batch tok s1 -> first_seq_after qsl batch tok s2 -> s1 = s2.
Proof.
  intros (H1 & L1 & U1) (H2 & L2 & U2).
  destruct (Z.lt_trichotomy s1 s2) as [Hlt|[?|Hlt]]; [|done|].
  - specialize (L2 s1 ltac:(lia)). specialize (U1 ltac:(lia)). lia.
  - specialize (L1 s2 ltac:(lia)). specialize (U2 ltac:(lia)). lia.
Qed.

Section SeqRangeLemmas.
Variable qsl : Z -> Z.
Variable batch : Z.

Lemma seek_start_spec fuel tok seq :
  0 <= seq <= batch -> batch - seq <= Z.of_nat fuel ->
  (forall k, 0 <= k < seq -> qsl (k + 1) <= tok) ->
  first_seq_after qsl batch tok (seek_start qsl batch fuel tok seq).
Proof.
  revert seq. induction fuel as [|fuel IH]; intros seq Hs Hf Hpre; simpl.
  - split_and!; [lia..|done|lia].
  - destruct (_ && _) eqn:E; bool_prop.
    + apply IH; [lia..|]. intros k Hk. destruct (decide (k = seq)) as [-> |]; [done|].
      apply Hpre. lia.
    + split_and!; [lia..|done|]. intros Hlt. destruct E; bool_prop; lia.
Qed.

Lemma seek_end_spec fuel tok s e :
  s <= e <= batch -> batch - e <= Z.of_nat fuel ->
  (forall k, s <= k < e -> qsl k < tok) ->
  first_seq_from qsl batch s tok (seek_end qsl batch fuel tok e).
Proof.
  revert e. induction fuel as [|fuel IH]; intros e Hs Hf Hpre; simpl.
  - split_and!; [lia..|done|lia].
  - destruct (_ && _) eqn:E; bool_prop.
    + apply IH; [lia..|]. intros k Hk. destruct (decide (k = e)) as [-> |]; [done|].
      apply Hpre. lia.
    + split_and!; [lia..|done|]. intros Hlt. destruct E; bool_prop; lia.
Qed.

(** Tile [i] has the sequence range [s, e). *)
Definition tile_range_ok (size i : Z) (starts ends : list Z) : Prop :=
  exists s e, starts !! Z.to_nat i = Some s /\ ends !! Z.to_nat i = Some e /\
    first_seq_after qsl batch (i * size) s /\ first_seq_from qsl batch s (i * size + size) e.

Lemma range_loop_spec n id size seq starts ends :
  0 <= id -> 0 < size -> 0 <= seq <= batch ->
  id + Z.of_nat n <= Z.of_nat (length starts) -> id + Z.of_nat n <= Z.of_nat (length ends) ->
  (forall k, 0 <= k < seq -> qsl (k + 1) <= id * size) ->
  (forall i, 0 <= i < id -> tile_range_ok size i starts ends) ->
  let '(starts', ends') := range_loop qsl batch n id size seq starts ends in
  forall i, 0 <= i < id + Z.of_nat n -> tile_range_ok size i starts' ends'.
Proof.
  revert id seq starts ends. induction n as [|n IH]; intros id seq starts ends Hid Hsz Hs Hl1 Hl2 Hpre Hdone.
  { simpl. intros i Hi. apply Hdone. lia. }
  cbn [range_loop]. cbv zeta.
  pose proof (seek_start_spec (Z.to_nat batch) (id * size) seq Hs ltac:(lia) Hpre) as Hst.
  set (s := seek_start qsl batch _ _ _) in *. pose proof Hst as (Hs1 & Hs2 & Hs3).
  pose proof (seek_end_spec (Z.to_nat batch) (id * size + size) s s ltac:(lia) ltac:(lia)
                ltac:(intros; lia)) as Hen.
  set (e := seek_end qsl batch _ _ _) in *.
  specialize (IH (id + 1) s (<[Z.to_nat id:=s]> starts) (<[Z.to_nat id:=e]> ends)).
  destruct (range_loop _ _ _ _ _ _ _ _) as [starts' ends'].
  intros i Hi. apply IH; rewrite ?length_insert; try lia.
  - intros k Hk. specialize (Hs2 k Hk). nia.
  - intros j Hj. destruct (decide (j = id)) as [-> |Hne].
    + exists s, e. rewrite !list_lookup_insert_eq by lia. done.
    + destruct (Hdone j ltac:(lia)) as (s' & e' & ? & ? & ? & ?). exists s', e'.
      by rewrite !list_lookup_insert_ne by lia.
Qed.
End SeqRangeLemmas.

Lemma seq_range_plan_entries qsl batch size cnt :
  0 < batch -> 0 < size -> 0 < cnt <= MAX_FN_TOKEN_SEQ_RANGE_COUNT ->
  let plan := BuildFnTokenSeqRangePlan (Some qsl) batch size cnt in
  srp_enabled plan = true /\ srp_rangeCount plan = cnt /\
  (forall i, 0 <= i < cnt ->
     tile_range_ok (t_at qsl) batch size i (srp_tokenTileStartSeq plan) (srp_tokenTileEndSeq plan)).
Proof.
  intros Hb Hs Hc plan. subst plan. unfold BuildFnTokenSeqRangePlan.
  rewrite (proj2 (Z.leb_gt batch 0)), (proj2 (Z.leb_gt size 0)), (proj2 (Z.leb_gt cnt 0)),
    Z.gtb_ltb, (proj2 (Z.ltb_ge _ _)) by lia. cbn [orb].
  pose proof (range_loop_spec (t_at qsl) batch (Z.to_nat cnt) 0 size 0
    (srp_tokenTileStartSeq FnTokenSeqRangePlan0) (srp_tokenTileEndSeq FnTokenSeqRangePlan0)) as Hloop.
  destruct (range_loop _ _ _ _ _ _ _ _) as [starts ends]. simpl. split_and!; [done..|].
  intros i Hi. unfold MAX_FN_TOKEN_SEQ_RANGE_COUNT in *.
  apply Hloop; simpl; try lia; intros; lia.
Qed.

(** A plan is only enabled when the sequence starts are known and the tiles fit
    the fixed-size arrays. *)
Lemma seq_range_plan_enabled qsl batch size cnt :
  srp_enabled (BuildFnTokenSeqRangePlan qsl batch size cnt) = true ->
  exists q, qsl = Some q /\ 0 < batch /\ 0 < size /\ 0 < cnt <= MAX_FN_TOKEN_SEQ_RANGE_COUNT.
Proof.
  unfold BuildFnTokenSeqRangePlan. destruct qsl as [q|]; [|done]. case_if; [done|].
  intros _. exists q. split; [done|lia].
Qed.

(** Sequences that share a token with a tile lie in the tile's range. *)
Lemma tile_range_complete qsl batch size i s e seq :
  (forall a b, 0 <= a <= b -> b <= batch -> qsl a <= qsl b) ->
  first_seq_after qsl batch (i * size) s -> first_seq_from qsl batch s (i * size + size) e ->
  0 <= seq < batch ->
  s <= seq < e <-> qsl seq < i * size + size /\ i * size < qsl (seq + 1).
Proof.
  intros Hmono (Hs1 & Hs2 & Hs3) (He1 & He2 & He3) Hseq. split.
  - intros Hin. split; [apply He2; lia|]. specialize (Hs3 ltac:(lia)).
    specialize (Hmono (s + 1) (seq + 1) ltac:(lia) ltac:(lia)). lia.
  - intros [Hlt Hgt]. split.
    + destruct (decide (s <= seq)); [done|]. specialize (Hs2 seq ltac:(lia)). lia.
    + destruct (decide (seq < e)); [done|]. specialize (He3 ltac:(lia)).
      specialize (Hmono e seq ltac:(lia) ltac:(lia)). lia.
Qed.

(**  For non-decreasing sequence starts the explicit sequence range that the
    host stores for a token tile is exact: it holds precisely the sequences that
    start before the tile's end and end after the tile's first token. *)
Theorem seq_range_plan_correct qsl batch size cnt :
  0 < batch -> 0 < size -> 0 < cnt <= MAX_FN_TOKEN_SEQ_RANGE_COUNT ->
  (forall a b, 0 <= a <= b -> b <= batch -> t_at qsl a <= t_at qsl b) ->
  let plan := BuildFnTokenSeqRangePlan (Some qsl) batch size cnt in
  srp_enabled plan = true /\ srp_rangeCount plan = cnt /\
  (forall i, 0 <= i < cnt ->
     exists s e, srp_tokenTileStartSeq plan !! Z.to_nat i = Some s /\
       srp_tokenTileEndSeq plan !! Z.to_nat i = Some e /\ 0 <= s <= e /\ e <= batch /\
       (forall seq, 0 <= seq < batch ->
          s <= seq < e <-> t_at qsl seq < i * size + size /\ i * size < t_at qsl (seq + 1))).
Proof.
  intros Hb Hs Hc Hmono plan.
  destruct (seq_range_plan_entries qsl batch size cnt Hb Hs Hc) as (Hen & Hcnt & Hall).
  split_and!; [done..|]. intros i Hi. destruct (Hall i Hi) as (s & e & H1 & H2 & H3 & H4).
  exists s, e. split_and!; try done; try (unfold first_seq_after, first_seq_from in *; lia).
  intros seq Hseq. by apply (tile_range_complete _ batch).
Qed.

Definition qsl_example : tensor Z :=
  Tensor 5 (fun i => nth (Z.to_nat i) [0; 3; 3; 10; 12] 0).

Lemma seq_range_plan_correct_witness :
  let plan := BuildFnTokenSeqRangePlan (Some qsl_example) 4 4 3 in
  take 3 (srp_tokenTileStartSeq plan) = [0; 2; 2] /\ take 3 (srp_tokenTileEndSeq plan) = [3; 3; 4] /\
  srp_enabled plan = true.
Proof.
  split_and!; [vm_compute; reflexivity..|].
  apply (seq_range_plan_correct qsl_example 4 4 3); [lia|lia|unfold MAX_FN_TOKEN_SEQ_RANGE_COUNT; lia|].
  intros a b Hab Hb.
  assert (a = 0 \/ a = 1 \/ a = 2 \/ a = 3 \/ a = 4) as Ha by lia.
  assert (b = 0 \/ b = 1 \/ b = 2 \/ b = 3 \/ b = 4) as Hb' by lia.
  destruct Ha as [-> |[-> |[-> |[-> | ->]]]]; destruct Hb' as [-> |[-> |[-> |[-> | ->]]]];
    first [lia | vm_compute; congruence].
Defined.
