(* ===== verification/Conv1dValidation.v ===== *)
(** Input validation of causal_conv1d
    ([op_host/causal_conv1d_tiling_validation.h]): the checks that stand
    between an operator call and the planner, in the order of the source. *)

From S2P Require Import Prelude AscendC TilingContext Conv1dTypes.
#[local] Open Scope string_scope.
#[local] Open Scope Z_scope.

Definition X_INDEX : Z := 0.
Definition WEIGHT_INDEX : Z := 1.
Definition BIAS_INDEX : Z := 2.
Definition CONV_STATES_INDEX : Z := 3.
Definition QUERY_START_LOC_INDEX : Z := 4.
Definition CACHE_INDICES_INDEX : Z := 5.
Definition INITIAL_STATE_MODE_INDEX : Z := 6.
Definition NUM_ACCEPTED_TOKENS_INDEX : Z := 7.
Definition ATTR_ACTIVATION_MODE_INDEX : Z := 0.
Definition ATTR_PAD_SLOT_ID_INDEX : Z := 1.
Definition ATTR_RUN_MODE_INDEX : Z := 2.

(** Result: (ubSize, coreNum). *)
Definition GetPlatformInfo (context : TilingContext) : HostM (Z * Z) :=
  platformInfo ← OP_CHECK_NULL (GetPlatformInfoPtr context) "platformInfoPtr is null";
  let coreNum := GetCoreNumAiv platformInfo in
  OP_CHECK_IF (coreNum =? 0) "coreNum is 0" ;;
  let ubSize := GetCoreMemSizeUB platformInfo in
  OP_CHECK_IF (ubSize =? 0) "ubSize is 0" ;;
  Ok (ubSize, coreNum).

Definition SetWorkspaceSize (context : TilingContext) (workspaceSize : Z) : HostM Z :=
  if HasWorkspaceSizes context then Ok workspaceSize
  else Err (GRAPH_FAILED "currentWorkspace is null").

Definition GetAttrsInfo (context : TilingContext) : HostM CausalConv1dAttrInfo :=
  OP_CHECK_IF (negb (HasAttrs context)) "attrs is null" ;;
  activationMode ← OP_CHECK_NULL (GetAttrInt context ATTR_ACTIVATION_MODE_INDEX) "activationModePtr is null";
  OP_CHECK_IF (negb (activationMode =? 0) && negb (activationMode =? 1)) "activationMode only supports 0/1" ;;
  padSlotId ← OP_CHECK_NULL (GetAttrInt context ATTR_PAD_SLOT_ID_INDEX) "padSlotIdPtr is null";
  let runMode := match GetAttrInt context ATTR_RUN_MODE_INDEX with None => 0 | Some m => m end in
  OP_CHECK_IF (negb (runMode =? 0) && negb (runMode =? 1)) "runMode only supports 0/1" ;;
  Ok (Build_CausalConv1dAttrInfo activationMode padSlotId runMode).

Definition ValidateAlignedDim (dim : Z) : HostM unit :=
  OP_CHECK_IF (negb (dim %c DIM_ALIGN_ELEMS =? 0)) "dim must satisfy dim % 16 == 0".

(** The local variables of [GetShapeDtypeInfo] that the shape of [x] decides. *)
Record XShapeInfo : Type := {
  xs_inputMode : Z;
  xs_batch : Z;
  xs_dim : Z;
  xs_seqLen : Z;
  xs_cuSeqlen : Z }.

Definition resolve_x_shape (context : TilingContext) (isDecodeMode : bool) : HostM XShapeInfo :=
  xStorage ← OP_CHECK_NULL (GetInputShape context X_INDEX) "xShapePtr is null";
  let xShape := EnsureNotScalar xStorage in
  info ← (if GetDimNum xShape =? 2 then
            if isDecodeMode then
              let batch := GetDim xShape 0 in
              let dim := GetDim xShape 1 in
              OP_CHECK_IF ((batch <=? 0) || (dim <=? 0)) "invalid x shape for 2D decode mode" ;;
              Ok (Build_XShapeInfo 2 batch dim 1 batch)
            else
              let cuSeqlen := GetDim xShape 0 in
              let dim := GetDim xShape 1 in
              OP_CHECK_IF ((dim <=? 0) || (cuSeqlen <? 0)) "invalid x shape for 2D varlen mode" ;;
              Ok (Build_XShapeInfo 0 0 dim 0 cuSeqlen)
          else if GetDimNum xShape =? 3 then
            let batch := GetDim xShape 0 in
            let seqLen := GetDim xShape 1 in
            let dim := GetDim xShape 2 in
            let cuSeqlen := batch * seqLen in
            OP_CHECK_IF ((batch <=? 0) || (dim <=? 0) || (seqLen <=? 0)) "invalid x shape for 3D batch mode" ;;
            Ok (Build_XShapeInfo 1 batch dim seqLen cuSeqlen)
          else Err (GRAPH_FAILED "x must be 2D (cu_seqlen, dim) or 3D (batch, seqlen, dim)"));
  ValidateAlignedDim (xs_dim info) ;;
  Ok info.

(** Result: (width, numCacheLines, stateLen). *)
Definition check_weight_and_states (context : TilingContext) (dim : Z) : HostM (Z * Z * Z) :=
  wStorage ← OP_CHECK_NULL (GetInputShape context WEIGHT_INDEX) "wShapePtr is null";
  let wShape := EnsureNotScalar wStorage in
  OP_CHECK_IF (negb (GetDimNum wShape =? 2)) "weight must be 2D: (width, dim)" ;;
  let width := GetDim wShape 0 in
  let wDim := GetDim wShape 1 in
  OP_CHECK_IF (negb (wDim =? dim)) "weight.shape[1] must equal dim" ;;
  OP_CHECK_IF ((width <? 2) || (width >? 4)) "Only support width in [2,4] now" ;;
  sStorage ← OP_CHECK_NULL (GetInputShape context CONV_STATES_INDEX) "sShapePtr is null";
  let sShape := EnsureNotScalar sStorage in
  OP_CHECK_IF (negb (GetDimNum sShape =? 3)) "convStates must be 3D: (num_cache_lines, state_len, dim)" ;;
  let numCacheLines := GetDim sShape 0 in
  let stateLen := GetDim sShape 1 in
  let sDim := GetDim sShape 2 in
  OP_CHECK_IF (numCacheLines <=? 0) "convStates.shape[0] (num_cache_lines) must be > 0" ;;
  OP_CHECK_IF (negb (sDim =? dim)) "convStates.shape[2] must equal dim" ;;
  OP_CHECK_IF (stateLen <? width - 1) "convStates.shape[1] must be >= width-1" ;;
  Ok (width, numCacheLines, stateLen).

(** An optional input counts as absent when it has no dimensions or an empty
    first dimension. *)
Definition shape_absent (shape : list Z) : bool :=
  (GetDimNum shape =? 0) || ((GetDimNum shape =? 1) && (GetDim shape 0 <=? 0)).

Definition tensor_data (t : HostTensor) : option (tensor Z) :=
  match t with Some d => d | None => None end.

(** The per-element checks of [queryStartLoc]. *)
Definition check_qsl_data (qslData : tensor Z) (qslSize cuSeqlen : Z) : HostM unit :=
  OP_CHECK_IF (negb (t_at qslData 0 =? 0)) "queryStartLoc[0] must be 0" ;;
  OP_CHECK_IF (negb (t_at qslData (qslSize - 1) =? cuSeqlen)) "queryStartLoc[last] must equal cuSeqlen" ;;
  check_each (zrange 0 (qslSize - 1)) (fun i =>
    let cur := t_at qslData i in
    let nxt := t_at qslData (i + 1) in
    OP_CHECK_IF ((cur <? 0) || (cur >? cuSeqlen)) "queryStartLoc out of range" ;;
    OP_CHECK_IF ((nxt <? 0) || (nxt >? cuSeqlen)) "queryStartLoc out of range" ;;
    OP_CHECK_IF (nxt <? cur) "queryStartLoc must be non-decreasing").

(** Result: (qslAbsent, qslSize, qslData). *)
Definition resolve_query_start_loc (context : TilingContext) (inputMode batch cuSeqlen : Z)
    : HostM (bool * Z * option (tensor Z)) :=
  '(qslAbsent, qslSize0) ←
    (match GetOptionalInputShape context QUERY_START_LOC_INDEX with
     | None => Ok (true, 0)
     | Some qslStorageShape =>
         if shape_absent qslStorageShape then Ok (true, 0)
         else
           let qslShape := EnsureNotScalar qslStorageShape in
           OP_CHECK_IF (negb (GetDimNum qslShape =? 1)) "queryStartLoc must be 1D" ;;
           let qslSize := GetDim qslShape 0 in
           OP_CHECK_IF (qslSize <? 1) "queryStartLoc.size must be >= 1" ;;
           qslDesc ← OP_CHECK_NULL (GetOptionalInputDesc context QUERY_START_LOC_INDEX) "qslDesc is null";
           OP_CHECK_IF (negb (bool_decide (qslDesc = DT_INT64))) "queryStartLoc dtype must be int64" ;;
           Ok (false, qslSize)
     end);
  OP_CHECK_IF (qslAbsent && (inputMode =? 0)) "queryStartLoc is required in 2D varlen mode (inputMode=0)" ;;
  let qslSize := if (qslAbsent : bool) then batch + 1 else qslSize0 in
  OP_CHECK_IF (cuSeqlen >? INT32_MAX) "cuSeqlen is too large for int32 indexing" ;;
  let qslData := if (qslAbsent : bool) then None
                 else tensor_data (GetOptionalInputTensor context QUERY_START_LOC_INDEX) in
  (match qslData with None => Ok tt | Some d => check_qsl_data d qslSize cuSeqlen end) ;;
  Ok (qslAbsent, qslSize, qslData).

(** The final (inputMode, batch, seqLen, cuSeqlen). *)
Definition resolve_batch (isDecodeMode : bool) (xs : XShapeInfo)
    (qslAbsent : bool) (qslSize : Z) : HostM XShapeInfo :=
  xs1 ← (if negb qslAbsent && isDecodeMode && (xs_inputMode xs =? 2) then
           let batchFromQsl := qslSize - 1 in
           if negb (batchFromQsl =? xs_batch xs) then
             OP_CHECK_IF ((xs_dim xs <=? 0) || (xs_cuSeqlen xs <? 0) || (batchFromQsl <? 0))
               "invalid x/queryStartLoc shapes for 2D varlen decode mode" ;;
             Ok (Build_XShapeInfo 0 batchFromQsl (xs_dim xs) 0 (xs_cuSeqlen xs))
           else Ok xs
         else Ok xs);
  let batch := if xs_inputMode xs1 =? 0 then qslSize - 1 else xs_batch xs1 in
  OP_CHECK_IF (negb qslAbsent && ((xs_inputMode xs1 =? 1) || (xs_inputMode xs1 =? 2)) &&
               negb (qslSize =? batch + 1)) "queryStartLoc.size must equal batch + 1" ;;
  (if isDecodeMode then
     let decodeSeqLen := if xs_inputMode xs1 =? 1 then xs_seqLen xs1 else 1 in
     OP_CHECK_IF (decodeSeqLen <? 1) "decode mode requires seqlen >= 1"
   else Ok tt) ;;
  Ok (Build_XShapeInfo (xs_inputMode xs1) batch (xs_dim xs1) (xs_seqLen xs1) (xs_cuSeqlen xs1)).

(** Result: hasCacheIndices. *)
Definition resolve_cache_indices (context : TilingContext) (batch numCacheLines padSlotId : Z) : HostM Z :=
  '(ciAbsent, hasCacheIndices) ←
    (match GetOptionalInputShape context CACHE_INDICES_INDEX with
     | None => Ok (true, 0)
     | Some ciStorageShape =>
         if shape_absent ciStorageShape then Ok (true, 0)
         else
           let ciShape := EnsureNotScalar ciStorageShape in
           OP_CHECK_IF (negb (GetDimNum ciShape =? 1)) "cacheIndices must be 1D" ;;
           OP_CHECK_IF (negb (GetDim ciShape 0 =? batch)) "cacheIndices.size must equal batch" ;;
           (match tensor_data (GetOptionalInputTensor context CACHE_INDICES_INDEX) with
            | None => Ok tt
            | Some ciData =>
                check_each (zrange 0 batch) (fun i =>
                  let v := t_at ciData i in
                  if v =? padSlotId then Ok tt
                  else
                    OP_CHECK_IF (v >? INT32_MAX) "cacheIndices exceeds int32 range" ;;
                    OP_CHECK_IF ((v <? 0) || (v >=? numCacheLines)) "cacheIndices out of range")
            end) ;;
           Ok (false, 1)
     end);
  OP_CHECK_IF ((ciAbsent : bool) && (numCacheLines <? batch))
    "cacheIndices is absent, requires convStates.shape[0] (num_cache_lines) >= batch for identity mapping" ;;
  Ok hasCacheIndices.

(** Result: hasInitialStateMode. *)
Definition resolve_initial_state_mode (context : TilingContext) (isDecodeMode : bool) (batch : Z) : HostM Z :=
  match GetOptionalInputShape context INITIAL_STATE_MODE_INDEX with
  | None => Ok 0
  | Some ismStorageShape =>
      if shape_absent ismStorageShape then Ok 0
      else
        OP_CHECK_IF isDecodeMode "initialStateMode is only supported in runMode=0 (fn/prefill)" ;;
        let ismShape := EnsureNotScalar ismStorageShape in
        OP_CHECK_IF (negb (GetDimNum ismShape =? 1)) "initialStateMode must be 1D" ;;
        OP_CHECK_IF (negb (GetDim ismShape 0 =? batch)) "initialStateMode.size must equal batch" ;;
        match tensor_data (GetOptionalInputTensor context INITIAL_STATE_MODE_INDEX) with
        | Some ismData =>
            check_each (zrange 0 batch) (fun i =>
              let v := t_at ismData i in
              OP_CHECK_IF (negb (v =? 0) && negb (v =? 1)) "initialStateMode is invalid (only supports 0/1)") ;;
            let hasNonZeroInitialStateMode :=
              existsb (fun i => negb (t_at ismData i =? 0)) (zrange 0 batch) in
            Ok (if hasNonZeroInitialStateMode then 1 else 0)
        | None => Ok 1
        end
  end.

(** The per-sequence bound on the accepted-token count. *)
Definition check_accepted (inputMode seqLen : Z) (qslData : option (tensor Z)) (i a : Z) : HostM unit :=
  OP_CHECK_IF (a <? 0) "numAcceptedTokens is invalid (must be >= 0)" ;;
  if inputMode =? 2 then OP_CHECK_IF (a >? 1) "numAcceptedTokens exceeds decode 2D token count (1)"
  else if inputMode =? 1 then OP_CHECK_IF (a >? seqLen) "numAcceptedTokens exceeds seqlen in 3D update"
  else match qslData with
       | Some q =>
           if inputMode =? 0 then
             let lenI := t_at q (i + 1) - t_at q i in
             OP_CHECK_IF (a >? lenI) "numAcceptedTokens exceeds varlen segment length"
           else Ok tt
       | None => Ok tt
       end.

(** Result: hasNumAcceptedTokens. *)
Definition resolve_num_accepted_tokens (context : TilingContext) (isDecodeMode : bool)
    (inputMode batch seqLen width stateLen : Z) (qslData : option (tensor Z)) : HostM Z :=
  match GetOptionalInputShape context NUM_ACCEPTED_TOKENS_INDEX with
  | None => Ok 0
  | Some natStorageShape =>
      if shape_absent natStorageShape then Ok 0
      else
        OP_CHECK_IF (negb isDecodeMode) "numAcceptedTokens is only supported in runMode=1 (decode/update)" ;;
        let natShape := EnsureNotScalar natStorageShape in
        OP_CHECK_IF (negb (GetDimNum natShape =? 1)) "numAcceptedTokens must be 1D" ;;
        OP_CHECK_IF (negb (GetDim natShape 0 =? batch)) "numAcceptedTokens.size must equal batch" ;;
        (if inputMode =? 1 then
           let reqStateLen := (width - 1) + (seqLen - 1) in
           OP_CHECK_IF (stateLen <? reqStateLen) "spec decode requires stateLen >= (width-1) + (seqlen-1)"
         else Ok tt) ;;
        (match tensor_data (GetOptionalInputTensor context NUM_ACCEPTED_TOKENS_INDEX) with
         | None => Ok tt
         | Some natData =>
             check_each (zrange 0 batch) (fun i => check_accepted inputMode seqLen qslData i (t_at natData i))
         end) ;;
        Ok 1
  end.

(** Result: hasBias. *)
Definition resolve_bias (context : TilingContext) (dim : Z) : HostM Z :=
  match GetOptionalInputShape context BIAS_INDEX with
  | None => Ok 0
  | Some biasStorageShape =>
      if shape_absent biasStorageShape then Ok 0
      else
        let biasShape := EnsureNotScalar biasStorageShape in
        OP_CHECK_IF (negb (GetDimNum biasShape =? 1)) "bias must be 1D: (dim,)" ;;
        OP_CHECK_IF (negb (GetDim biasShape 0 =? dim)) "bias.size must equal dim" ;;
        Ok 1
  end.

(** One of the trailing dtype checks on an input. *)
Definition check_desc (desc : option DataType) (expected : DataType) (log : string) : HostM unit :=
  d ← OP_CHECK_NULL desc "desc is null";
  OP_CHECK_IF (negb (bool_decide (d = expected))) log.

Definition check_dtypes (context : TilingContext) (width : Z) (qslAbsent : bool)
    (hasBias hasCacheIndices hasInitialStateMode hasNumAcceptedTokens : Z) : HostM unit :=
  xDtype ← OP_CHECK_NULL (GetInputDesc context X_INDEX) "xDesc is null";
  OP_CHECK_IF (negb (bool_decide (xDtype = DT_BF16)) && negb (bool_decide (xDtype = DT_FLOAT16)))
    "x dtype only supports bf16/fp16" ;;
  check_desc (GetInputDesc context WEIGHT_INDEX) xDtype "weight dtype must equal x dtype" ;;
  (if hasBias =? 1 then check_desc (GetOptionalInputDesc context BIAS_INDEX) xDtype "bias dtype must equal x dtype"
   else Ok tt) ;;
  check_desc (GetInputDesc context CONV_STATES_INDEX) xDtype "convStates dtype must equal x dtype" ;;
  (if qslAbsent then Ok tt
   else check_desc (GetOptionalInputDesc context QUERY_START_LOC_INDEX) DT_INT64 "queryStartLoc dtype must be int64") ;;
  (if hasCacheIndices =? 1
   then check_desc (GetOptionalInputDesc context CACHE_INDICES_INDEX) DT_INT64 "cacheIndices dtype must be int64"
   else Ok tt) ;;
  (if hasInitialStateMode =? 1
   then check_desc (GetOptionalInputDesc context INITIAL_STATE_MODE_INDEX) DT_INT64 "initialStateMode dtype must be int64"
   else Ok tt) ;;
  (if hasNumAcceptedTokens =? 1 then
     OP_CHECK_IF (negb (width =? 4)) "numAcceptedTokens is only supported for width=4 currently" ;;
     check_desc (GetOptionalInputDesc context NUM_ACCEPTED_TOKENS_INDEX) DT_INT64 "numAcceptedTokens dtype must be int64"
   else Ok tt).

(** The shape and dtype part of the tiling record: every other field is still
    zero, as the record was cleared before the call. *)
Definition GetShapeDtypeInfo (context : TilingContext) (attrInfo : CausalConv1dAttrInfo)
    : HostM CausalConv1dTilingData :=
  let isDecodeMode := ai_runMode attrInfo =? 1 in
  xs0 ← resolve_x_shape context isDecodeMode;
  let dim := xs_dim xs0 in
  '(width, numCacheLines, stateLen) ← check_weight_and_states context dim;
  '(qslAbsent, qslSize, qslData) ←
    resolve_query_start_loc context (xs_inputMode xs0) (xs_batch xs0) (xs_cuSeqlen xs0);
  xs ← resolve_batch isDecodeMode xs0 qslAbsent qslSize;
  hasCacheIndices ← resolve_cache_indices context (xs_batch xs) numCacheLines (ai_padSlotId attrInfo);
  hasInitialStateMode ← resolve_initial_state_mode context isDecodeMode (xs_batch xs);
  hasNumAcceptedTokens ← resolve_num_accepted_tokens context isDecodeMode (xs_inputMode xs)
    (xs_batch xs) (xs_seqLen xs) width stateLen qslData;
  hasBias ← resolve_bias context dim;
  check_dtypes context width qslAbsent hasBias hasCacheIndices hasInitialStateMode hasNumAcceptedTokens ;;
  Ok {| td_dim := dim;
        td_cuSeqlen := xs_cuSeqlen xs;
        td_seqLen := xs_seqLen xs;
        td_inputMode := xs_inputMode xs;
        td_width := width;
        td_stateLen := stateLen;
        td_numCacheLines := numCacheLines;
        td_batch := xs_batch xs;
        td_activationMode := ai_activationMode attrInfo;
        td_padSlotId := ai_padSlotId attrInfo;
        td_hasBias := hasBias;
        td_baseDim := 0;
        td_baseDimCnt := 0;
        td_hasNumAcceptedTokens := hasNumAcceptedTokens;
        td_hasCacheIndices := hasCacheIndices;
        td_hasInitialStateMode := hasInitialStateMode;
        td_tokenBlockSize := 0;
        td_tokenBlockCnt := 0;
        td_hasExplicitTokenSeqRanges := 0;
        td_explicitTokenSeqRangeCount := 0;
        td_tokenTileStartSeq := replicate 128 0;
        td_tokenTileEndSeq := replicate 128 0;
        td_hasInitStateWorkspace := 0 |}.

(** ** What a successful validation guarantees *)

(** The cumulative sequence starts are well formed. *)
Definition qsl_ok (qsl : Z -> Z) (batch cuSeqlen : Z) : Prop :=
  qsl 0 = 0 /\ qsl batch = cuSeqlen /\
  (forall i, 0 <= i < batch -> 0 <= qsl i <= qsl (i + 1) /\ qsl (i + 1) <= cuSeqlen).

Lemma qsl_ok_mono qsl batch cuSeqlen i j :
  qsl_ok qsl batch cuSeqlen -> 0 <= i <= j -> j <= batch -> qsl i <= qsl j.
Proof.
  intros (_ & _ & Hq) Hij Hj. replace j with (i + Z.of_nat (Z.to_nat (j - i))) in * by lia.
  generalize dependent (Z.to_nat (j - i)). intros n. induction n as [|n IH]; intros.
  - rewrite Z.add_0_r. lia.
  - specialize (IH ltac:(lia) ltac:(lia)). specialize (Hq (i + Z.of_nat n) ltac:(lia)).
    replace (i + Z.of_nat (S n)) with (i + Z.of_nat n + 1) by lia. lia.
Qed.

Lemma check_qsl_data_sound q size cuSeqlen u :
  1 <= size -> check_qsl_data q size cuSeqlen = Ok u -> qsl_ok (t_at q) (size - 1) cuSeqlen.
Proof.
  intros Hsz Hok. unfold check_qsl_data in Hok. do 2 inv_bind Hok.
  split_and!; [done..|]. intros i Hi.
  destruct (check_each_inv _ _ _ i Hok) as (v & Hv); [apply elem_of_zrange; lia|].
  cbv beta zeta in Hv. do 2 inv_bind Hv. inv_host Hv. lia.
Qed.

Lemma resolve_x_shape_sound context decode xs :
  resolve_x_shape context decode = Ok xs ->
  0 < xs_dim xs /\ xs_dim xs mod 16 = 0 /\ 0 <= xs_cuSeqlen xs /\
  ((xs_inputMode xs = 0 /\ decode = false) \/
   (xs_inputMode xs = 1 /\ 0 < xs_batch xs /\ 0 < xs_seqLen xs /\
      xs_cuSeqlen xs = xs_batch xs * xs_seqLen xs) \/
   (xs_inputMode xs = 2 /\ decode = true /\ 0 < xs_batch xs /\ xs_seqLen xs = 1 /\
      xs_cuSeqlen xs = xs_batch xs)).
Proof.
  unfold resolve_x_shape. intros Hok. inv_bind Hok. cbv zeta in Hok.
  inv_bind Hok. inv_bind Hok. injection Hok as <-.
  unfold ValidateAlignedDim in Hok2. inv_host Hok2. rewrite DIM_ALIGN_ELEMS_eq in Hok2.
  assert (0 < xs_dim a0 -> xs_dim a0 mod 16 = 0) as Hal
    by (intros; rewrite rem_nonneg_mod in Hok2 by lia; done).
  case_if_in Hok1; [destruct decode; inv_bind Hok1; injection Hok1 as <-; simpl in *|].
  - split_and!; [lia|apply Hal; lia|lia|]. right. right. auto with lia.
  - split_and!; [lia|apply Hal; lia|lia|]. by left.
  - case_if_in Hok1; [|discriminate]. inv_bind Hok1. injection Hok1 as <-. simpl in *.
    split_and!; [lia|apply Hal; lia|nia|]. right. left. auto with lia.
Qed.

Lemma check_weight_and_states_sound context dim width lines slen :
  check_weight_and_states context dim = Ok (width, lines, slen) ->
  2 <= width <= 4 /\ 0 < lines /\ width - 1 <= slen.
Proof.
  unfold check_weight_and_states. intros Hok. do 9 inv_bind Hok. injection Hok as <- <- <-. lia.
Qed.

Lemma resolve_query_start_loc_sound context mode batch cu absent size q :
  resolve_query_start_loc context mode batch cu = Ok (absent, size, q) ->
  cu <= INT32_MAX /\ (absent = true -> mode <> 0 /\ size = batch + 1 /\ q = None) /\
  (absent = false -> 1 <= size /\
     q = tensor_data (GetOptionalInputTensor context QUERY_START_LOC_INDEX) /\
     forall d, q = Some d -> qsl_ok (t_at d) (size - 1) cu).
Proof.
  unfold resolve_query_start_loc. intros Hok. inv_bind Hok. destruct a as [ab sz0].
  do 2 inv_bind Hok. cbv zeta in *.
  destruct (if ab then None else tensor_data _) as [d|] eqn:Ed; inv_bind Hok;
    injection Hok as <- <- <-; (split; [lia|split]); intros ->; try discriminate.
  - simpl in Hok1. assert (1 <= sz0) as Hsz.
    { destruct (GetOptionalInputShape _ _) as [sh|]; [|discriminate].
      case_if_in Hok0; [discriminate|]. do 4 inv_bind Hok0. injection Hok0 as <-. lia. }
    split_and!; [done|done|]. intros d' [= <-]. by eapply check_qsl_data_sound.
  - simpl in Hok1. bool_prop. split_and!; [|done|done]. intros ->. by destruct Hok1.
  - assert (1 <= sz0) as Hsz.
    { destruct (GetOptionalInputShape _ _) as [sh|]; [|discriminate].
      case_if_in Hok0; [discriminate|]. do 4 inv_bind Hok0. injection Hok0 as <-. lia. }
    split_and!; [done|done|discriminate].
Qed.

(** The three layouts of [x] the kernel distinguishes. *)
Definition mode_ok (decode : bool) (inputMode batch seqLen cuSeqlen : Z) : Prop :=
  (inputMode = 0 /\ 0 <= batch) \/
  (inputMode = 1 /\ 0 < batch /\ 0 < seqLen /\ cuSeqlen = batch * seqLen) \/
  (inputMode = 2 /\ decode = true /\ 0 < batch /\ cuSeqlen = batch).

Lemma resolve_batch_sound context decode xs0 absent size q xs :
  resolve_x_shape context decode = Ok xs0 ->
  resolve_query_start_loc context (xs_inputMode xs0) (xs_batch xs0) (xs_cuSeqlen xs0) = Ok (absent, size, q) ->
  resolve_batch decode xs0 absent size = Ok xs ->
  xs_dim xs = xs_dim xs0 /\ xs_cuSeqlen xs = xs_cuSeqlen xs0 /\
  mode_ok decode (xs_inputMode xs) (xs_batch xs) (xs_seqLen xs) (xs_cuSeqlen xs) /\
  (absent = false -> size = xs_batch xs + 1) /\ (xs_inputMode xs = 0 -> absent = false).
Proof.
  intros (Hd & _ & Hcu & Hm)%resolve_x_shape_sound (H32 & Hab & Hpr)%resolve_query_start_loc_sound Hok.
  unfold resolve_batch in Hok. inv_bind Hok. cbv zeta in *. do 2 inv_bind Hok.
  injection Hok as <-. simpl.
  assert (absent = true -> xs_inputMode xs0 <> 0 /\ size = xs_batch xs0 + 1) as Hab'
    by (intros H; destruct (Hab H) as (? & ? & ?); done).
  assert (absent = false -> 1 <= size) as Hpr' by (intros H; destruct (Hpr H); done). clear Hab Hpr.
  assert (a = xs0 \/ (a = Build_XShapeInfo 0 (size - 1) (xs_dim xs0) 0 (xs_cuSeqlen xs0) /\ absent = false)) as Ha.
  { case_if_in Hok0; [|injection Hok0 as <-; auto]. case_if_in Hok0; [|injection Hok0 as <-; auto].
    inv_bind Hok0. injection Hok0 as <-. auto. }
  clear Hok0 Hok2. unfold mode_ok.
  destruct Ha as [-> |[-> ->]]; simpl in *.
  - destruct absent; simpl in *.
    + destruct (Hab' eq_refl) as [Hne Hs]. rewrite (proj2 (Z.eqb_neq _ 0)) by done.
      split_and!; [done|done| |done|done].
      destruct Hm as [[? _]|[Hm|Hm]]; [done|right; left; tauto|right; right; tauto].
    + specialize (Hpr' eq_refl).
      destruct Hm as [[Hm _]|[(Hm & Hb & Hs & Hc)|(Hm & -> & Hb & Hs & Hc)]]; rewrite Hm in *; simpl in *.
      * split_and!; [done|done|left; lia|lia|done].
      * bool_prop. split_and!; [done|done|right; left; auto|lia|lia].
      * bool_prop. split_and!; [done|done|right; right; auto|lia|lia].
  - specialize (Hpr' eq_refl). split_and!; [done|done|left; lia|lia|done].
Qed.

Lemma resolve_cache_indices_sound context batch lines pad r :
  resolve_cache_indices context batch lines pad = Ok r ->
  (r = 0 /\ batch <= lines) \/
  (r = 1 /\ forall d, tensor_data (GetOptionalInputTensor context CACHE_INDICES_INDEX) = Some d ->
     forall i, 0 <= i < batch -> t_at d i = pad \/ 0 <= t_at d i < lines /\ t_at d i <= INT32_MAX).
Proof.
  unfold resolve_cache_indices. intros Hok. inv_bind Hok. destruct a as [ab h].
  inv_bind Hok. injection Hok as <-.
  assert (ab = true -> batch <= lines) as Hid by (intros ->; destruct Hok1; bool_prop; [done|lia]).
  destruct (GetOptionalInputShape _ _) as [sh|]; [|injection Hok0 as <- <-; auto].
  case_if_in Hok0; [injection Hok0 as <- <-; auto|].
  cbv zeta in Hok0. do 2 inv_bind Hok0. inv_bind Hok0. injection Hok0 as <- <-. right. split; [done|].
  intros d Hd i Hi. match goal with H : match tensor_data _ with _ => _ end = Ok _ |- _ => rewrite Hd in H; rename H into Hall end.
  destruct (check_each_inv _ _ _ i Hall) as (v & Hv); [apply elem_of_zrange; lia|].
  cbv beta zeta in Hv. case_if_in Hv; [by left|right]. inv_bind Hv. inv_host Hv. lia.
Qed.

(** An optional input that was passed and is not empty. *)
Definition present (context : TilingContext) (index : Z) : Prop :=
  exists sh, GetOptionalInputShape context index = Some sh /\ shape_absent sh = false.

(** The values of an optional input that are known at tiling time. *)
Definition known_data (context : TilingContext) (index : Z) (d : tensor Z) : Prop :=
  tensor_data (GetOptionalInputTensor context index) = Some d.

Lemma resolve_initial_state_mode_sound context decode batch r :
  resolve_initial_state_mode context decode batch = Ok r ->
  (r = 0 \/ r = 1) /\ (r <> 0 -> decode = false) /\
  (r = 0 -> present context INITIAL_STATE_MODE_INDEX ->
     forall d, known_data context INITIAL_STATE_MODE_INDEX d -> forall i, 0 <= i < batch -> t_at d i = 0).
Proof.
  unfold resolve_initial_state_mode, present, known_data. intros Hok.
  destruct (GetOptionalInputShape _ _) as [sh|] eqn:Hsh;
    [|injection Hok as <-; split_and!; [auto|done|intros _ (? & ? & _); done]].
  destruct (shape_absent sh) eqn:Hab.
  { injection Hok as <-. split_and!; [auto|done|]. intros _ (? & [= <-] & ?). congruence. }
  do 3 inv_bind Hok. destruct (tensor_data _) as [d|] eqn:Hd.
  - inv_bind Hok. injection Hok as <-. destruct (existsb _ _) eqn:Hex; (split_and!; [auto|done|]); [done|].
    intros _ _ d' [= <-] i Hi. destruct (decide (t_at d i = 0)) as [|Hne]; [done|].
    exfalso. apply Bool.not_true_iff_false in Hex. apply Hex, existsb_exists.
    exists i. split; [apply list_elem_of_In, elem_of_zrange; lia|].
    by apply Bool.negb_true_iff, Z.eqb_neq.
  - injection Hok as <-. split_and!; [auto|done|done].
Qed.

Lemma resolve_num_accepted_tokens_sound context decode mode batch seqLen width slen q r :
  resolve_num_accepted_tokens context decode mode batch seqLen width slen q = Ok r ->
  (r = 0 \/ r = 1) /\
  (r = 1 -> decode = true /\ (mode = 1 -> width - 1 + (seqLen - 1) <= slen) /\
     forall d, tensor_data (GetOptionalInputTensor context NUM_ACCEPTED_TOKENS_INDEX) = Some d ->
     forall i, 0 <= i < batch -> 0 <= t_at d i /\ (mode = 2 -> t_at d i <= 1) /\ (mode = 1 -> t_at d i <= seqLen) /\
       (mode = 0 -> forall qd, q = Some qd -> t_at d i <= t_at qd (i + 1) - t_at qd i)).
Proof.
  unfold resolve_num_accepted_tokens. intros Hok.
  destruct (GetOptionalInputShape _ _) as [sh|]; [|injection Hok as <-; split; [auto|done]].
  case_if_in Hok; [injection Hok as <-; split; [auto|done]|]. do 5 inv_bind Hok. injection Hok as <-.
  split; [auto|]. intros _. split_and!; [done| |].
  - intros ->. cbv zeta in Hok3. simpl in Hok3. inv_host Hok3. lia.
  - intros d Hd i Hi. match goal with H : match tensor_data _ with _ => _ end = Ok _ |- _ => rewrite Hd in H; rename H into Hall end.
    destruct (check_each_inv _ _ _ i Hall) as (v & Hv); [apply elem_of_zrange; lia|].
    unfold check_accepted in Hv. inv_bind Hv.
    split_and!; [lia|..]; intros ->; simpl in Hv.
    + inv_host Hv. lia.
    + inv_host Hv. lia.
    + intros qd ->. inv_host Hv. lia.
Qed.

(** The facts the planner and the kernel rely on.  Values of [queryStartLoc],
    [cacheIndices] and [numAcceptedTokens] are only constrained when they are
    known at tiling time. *)
Record conv1d_valid (context : TilingContext) (decode : bool) (td : CausalConv1dTilingData) : Prop := {
  cv_dim : 0 < td_dim td /\ td_dim td mod 16 = 0;
  cv_width : 2 <= td_width td <= 4;
  cv_state : td_width td - 1 <= td_stateLen td;
  cv_lines : 0 < td_numCacheLines td;
  cv_seq32 : 0 <= td_cuSeqlen td <= INT32_MAX;
  cv_mode : mode_ok decode (td_inputMode td) (td_batch td) (td_seqLen td) (td_cuSeqlen td);
  cv_qsl : td_inputMode td = 0 -> forall q, known_data context QUERY_START_LOC_INDEX q ->
           qsl_ok (t_at q) (td_batch td) (td_cuSeqlen td);
  cv_cache_identity : td_hasCacheIndices td = 0 -> td_batch td <= td_numCacheLines td;
  cv_cache_range : td_hasCacheIndices td <> 0 -> forall c, known_data context CACHE_INDICES_INDEX c ->
    forall i, 0 <= i < td_batch td ->
      t_at c i = td_padSlotId td \/ 0 <= t_at c i < td_numCacheLines td /\ t_at c i <= INT32_MAX;
  cv_init_mode : td_hasInitialStateMode td <> 0 -> decode = false;
  cv_init_zero : td_hasInitialStateMode td = 0 -> present context INITIAL_STATE_MODE_INDEX ->
    forall d, known_data context INITIAL_STATE_MODE_INDEX d ->
    forall i, 0 <= i < td_batch td -> t_at d i = 0;
  cv_spec : td_hasNumAcceptedTokens td <> 0 -> decode = true /\ td_width td = 4 /\
    (td_inputMode td = 1 -> td_width td - 1 + (td_seqLen td - 1) <= td_stateLen td) }.

(** Validation is sound: whenever [GetShapeDtypeInfo] accepts a call, the
    tiling record it fills has positive, 16-aligned channels, a supported width
    with enough state rows, token counts that fit 32-bit indexing, one of the
    three input layouts, well-formed sequence starts, in-range cache lines and
    consistent optional-input flags. *)
Lemma GetShapeDtypeInfo_sound context attrInfo td :
  GetShapeDtypeInfo context attrInfo = Ok td ->
  conv1d_valid context (ai_runMode attrInfo =? 1) td.
Proof.
  unfold GetShapeDtypeInfo. intros Hok. cbv zeta in Hok.
  inv_bind Hok. rename a into xs0.
  inv_bind Hok. destruct a as [[width lines] slen].
  inv_bind Hok. destruct a as [[absent size] q].
  inv_bind Hok. rename a into xs. do 4 inv_bind Hok. inv_bind Hok. injection Hok as <-.
  pose proof (resolve_batch_sound _ _ _ _ _ _ _ Hok0 Hok2 Hok3) as (Hdim & Hcu & Hm & Hsz & Habs).
  apply resolve_x_shape_sound in Hok0 as (Hd & Hal & Hcu0 & _).
  apply check_weight_and_states_sound in Hok1 as (Hw & Hl & Hs).
  apply resolve_query_start_loc_sound in Hok2 as (H32 & _ & Hq).
  apply resolve_cache_indices_sound in Hok4.
  apply resolve_initial_state_mode_sound in Hok5 as (Him & Himd & Himz).
  apply resolve_num_accepted_tokens_sound in Hok6 as (Hn & Hnd).
  unfold check_dtypes in Hok8. do 8 inv_bind Hok8.
  split; simpl; try done; try lia.
  - intros Hmode d Hd'. specialize (Habs Hmode). destruct (Hq Habs) as (_ & -> & Hqd).
    rewrite Hcu. replace (xs_batch xs) with (size - 1) by (rewrite Hsz by done; lia). by apply Hqd.
  - intros Hz c Hc i Hi. destruct Hok4 as [[? _]|[_ Hr]]; [done|]. by apply Hr.
  - intros Hne. assert (a1 = 1) as -> by (destruct Hn; done). destruct (Hnd eq_refl) as (-> & Hreq & _).
    simpl in Hok8. inv_bind Hok8. split_and!; [done|lia|done].
Qed.
