(* ===== verification/Conv1dTiling.v ===== *)
(** The tiling function of causal_conv1d ([op_host/causal_conv1d_tiling.cpp]):
    validation, planning, and the launch it hands to the device. *)

From S2P Require Import Prelude AscendC TilingContext Conv1dTypes Conv1dPlanner Conv1dValidation.
#[local] Open Scope string_scope.
#[local] Open Scope Z_scope.

(** What the tiling function leaves in the context: the tiling record, the
    number of cores, the workspace size, the schedule mode and the template
    key (run mode, width, plan). *)
Record Launch : Type := {
  la_tiling : CausalConv1dTilingData;
  la_blockDim : Z;
  la_workspaceSize : Z;
  la_scheduleMode : option Z;
  la_tilingKey : Z * Z * Z }.

(** The fields the planner adds to the validated record. *)
Definition with_plan (td : CausalConv1dTilingData) (baseDim baseDimCnt tokenBlockSize tokenBlockCnt : Z)
    (hasRanges rangeCount : Z) (starts ends : list Z) (hasInitStateWorkspace : Z) : CausalConv1dTilingData :=
  {| td_dim := td_dim td;
     td_cuSeqlen := td_cuSeqlen td;
     td_seqLen := td_seqLen td;
     td_inputMode := td_inputMode td;
     td_width := td_width td;
     td_stateLen := td_stateLen td;
     td_numCacheLines := td_numCacheLines td;
     td_batch := td_batch td;
     td_activationMode := td_activationMode td;
     td_padSlotId := td_padSlotId td;
     td_hasBias := td_hasBias td;
     td_baseDim := baseDim;
     td_baseDimCnt := baseDimCnt;
     td_hasNumAcceptedTokens := td_hasNumAcceptedTokens td;
     td_hasCacheIndices := td_hasCacheIndices td;
     td_hasInitialStateMode := td_hasInitialStateMode td;
     td_tokenBlockSize := tokenBlockSize;
     td_tokenBlockCnt := tokenBlockCnt;
     td_hasExplicitTokenSeqRanges := hasRanges;
     td_explicitTokenSeqRangeCount := rangeCount;
     td_tokenTileStartSeq := starts;
     td_tokenTileEndSeq := ends;
     td_hasInitStateWorkspace := hasInitStateWorkspace |}.

(** [for (i = 0; i < rangeCount; ++i) dst[i] = src[i]]. *)
Definition copy_range (src dst : list Z) (i : Z) : list Z :=
  <[Z.to_nat i := nth (Z.to_nat i) src 0]> dst.
Definition copy_ranges (rangeCount : Z) (src dst : list Z) : list Z :=
  fold_left (copy_range src) (zrange 0 rangeCount) dst.

(** The workspace and schedule mode: (size, schedule mode, hasInitStateWorkspace). *)
Definition set_launch_workspace (context : TilingContext) (isFn : bool) (td : CausalConv1dTilingData)
    (blockDim : Z) : HostM (Z * option Z * Z) :=
  if isFn && negb (td_hasInitialStateMode td =? 0) then
    let kDtypeSize := 2 in
    let kSyncBytesPerBlock := 32 in
    let historyCount := if td_width td - 1 >? 0 then td_width td - 1 else 0 in
    let syncWorkspaceSize := blockDim * kSyncBytesPerBlock in
    let snapshotWorkspaceSize := td_batch td * historyCount * td_dim td * kDtypeSize in
    ws ← SetWorkspaceSize context
           (ASCENDC_RESERVED_WORKSPACE_SIZE + syncWorkspaceSize + snapshotWorkspaceSize);
    OP_CHECK_IF (negb (SetScheduleModeOk context)) "SetScheduleMode(1) error" ;;
    Ok (ws, Some 1, 1)
  else
    ws ← SetWorkspaceSize context 0;
    Ok (ws, None, 0).

(** Planning and launch of a validated call. *)
Definition plan_launch (context : TilingContext) (ubSize coreNum runMode : Z)
    (td : CausalConv1dTilingData) : HostM Launch :=
  let runModeKey := u32 runMode in
  let isFn := runModeKey =? CAUSAL_CONV1D_TPL_RUN_MODE_FN in
  let qslData := if isFn && (td_inputMode td =? 0)
                 then tensor_data (GetOptionalInputTensor context QUERY_START_LOC_INDEX) else None in
  let fnHostPlan := if isFn then ChooseFnHostPlan td ubSize coreNum else FnHostPlan0 in
  let baseDimChoice := if isFn then fhp_baseDimChoice fnHostPlan
                       else ChooseCanonicalUpdateBaseDimChoice (td_batch td) (td_dim td) coreNum in
  let fnExecutionPlan := if isFn then fhp_executionPlan fnHostPlan else FN_EXECUTION_PLAN_INVALID in
  OP_CHECK_IF ((dtc_baseDim baseDimChoice <=? 0) || (dtc_baseDimCnt baseDimChoice <=? 0) ||
               (dtc_gridSize baseDimChoice <=? 0)) "invalid dim tile size selection" ;;
  let tokenBlockChoice := fhp_tokenBlockChoice fnHostPlan in
  let mapping := fhp_tokenCoreMapping fnHostPlan in
  (if isFn then
     OP_CHECK_IF (bool_decide (fhp_caseKind fnHostPlan = FN_TILING_CASE_INVALID) ||
                  bool_decide (fnExecutionPlan = FN_EXECUTION_PLAN_INVALID) ||
                  negb (vtc_enabled tokenBlockChoice) || (vtc_tokenBlockSize tokenBlockChoice <=? 0) ||
                  (vtc_tokenBlockCnt tokenBlockChoice <=? 0) || (vtc_gridSize tokenBlockChoice <=? 0) ||
                  (tcm_tokenCoreBudget mapping <=? 0) || (tcm_blockDim mapping <=? 0))
       "runMode=0 must resolve a valid unified token tiling plan"
   else Ok tt) ;;
  let tokenBlockSize := if isFn then vtc_tokenBlockSize tokenBlockChoice else 0 in
  let tokenBlockCnt := if isFn then vtc_tokenBlockCnt tokenBlockChoice else 0 in
  let effectiveGridSize := if isFn then vtc_gridSize tokenBlockChoice else dtc_gridSize baseDimChoice in
  let tokenSeqRangePlan := if isFn && (td_inputMode td =? 0)
                           then BuildFnTokenSeqRangePlan qslData (td_batch td) tokenBlockSize tokenBlockCnt
                           else FnTokenSeqRangePlan0 in
  let hasRanges := if srp_enabled tokenSeqRangePlan then 1 else td_hasExplicitTokenSeqRanges td in
  let rangeCount := if srp_enabled tokenSeqRangePlan then srp_rangeCount tokenSeqRangePlan
                    else td_explicitTokenSeqRangeCount td in
  let starts := if srp_enabled tokenSeqRangePlan
                then copy_ranges rangeCount (srp_tokenTileStartSeq tokenSeqRangePlan) (td_tokenTileStartSeq td)
                else td_tokenTileStartSeq td in
  let ends := if srp_enabled tokenSeqRangePlan
              then copy_ranges rangeCount (srp_tokenTileEndSeq tokenSeqRangePlan) (td_tokenTileEndSeq td)
              else td_tokenTileEndSeq td in
  let blockDim0 := if effectiveGridSize <? coreNum then u32 effectiveGridSize else coreNum in
  let mappedBlockDim := if effectiveGridSize <? tcm_blockDim mapping
                        then effectiveGridSize else tcm_blockDim mapping in
  (if isFn then OP_CHECK_IF (mappedBlockDim <=? 0) "invalid mapped blockDim for runMode=0" else Ok tt) ;;
  let blockDim := if isFn then u32 mappedBlockDim else blockDim0 in
  let fnPlanKey := NormalizeFnPlanTilingKey runModeKey fnExecutionPlan in
  let widthKey := NormalizeWidthTilingKey runModeKey (i32 (td_width td)) in
  '(workspaceSize, scheduleMode, hasInitStateWorkspace) ← set_launch_workspace context isFn td blockDim;
  Ok {| la_tiling := with_plan td (dtc_baseDim baseDimChoice) (dtc_baseDimCnt baseDimChoice)
                       tokenBlockSize tokenBlockCnt hasRanges rangeCount starts ends hasInitStateWorkspace;
        la_blockDim := blockDim;
        la_workspaceSize := workspaceSize;
        la_scheduleMode := scheduleMode;
        la_tilingKey := (runModeKey, widthKey, fnPlanKey) |}.

Definition CausalConv1dTilingFunc (context : TilingContext) : HostM Launch :=
  '(ubSize, coreNum) ← GetPlatformInfo context;
  OP_CHECK_IF (negb (HasTilingData context)) "tiling is null" ;;
  attrInfo ← GetAttrsInfo context;
  td ← GetShapeDtypeInfo context attrInfo;
  OP_CHECK_IF ((td_dim td <=? 0) || (td_batch td <=? 0)) "dim/batch must be positive" ;;
  plan_launch context ubSize coreNum (ai_runMode attrInfo) td.

(** ** The contract between the host and the kernel *)

(** Widths of the values the platform reports. *)
Definition platform_ok (context : TilingContext) : Prop :=
  forall p, GetPlatformInfoPtr context = Some p ->
    fits_u32 (GetCoreNumAiv p) /\ 0 <= GetCoreMemSizeUB p.

(** The explicit sequence ranges of the token tiles, when the host filled them. *)
Definition ranges_ok (context : TilingContext) (td : CausalConv1dTilingData) : Prop :=
  td_hasExplicitTokenSeqRanges td <> 0 ->
  td_inputMode td = 0 /\ td_explicitTokenSeqRangeCount td = td_tokenBlockCnt td /\
  exists q, known_data context QUERY_START_LOC_INDEX q /\
    forall i, 0 <= i < td_tokenBlockCnt td ->
      exists s e, td_tokenTileStartSeq td !! Z.to_nat i = Some s /\
        td_tokenTileEndSeq td !! Z.to_nat i = Some e /\
        first_seq_after (t_at q) (td_batch td) (i * td_tokenBlockSize td) s /\
        first_seq_from (t_at q) (td_batch td) s (i * td_tokenBlockSize td + td_tokenBlockSize td) e.

(** What the kernel may assume of a launch. *)
Record launch_ok (context : TilingContext) (coreNum : Z) (la : Launch) : Prop := {
  lo_valid : conv1d_valid context (bool_decide ((la_tilingKey la).1.1 = 1)) (la_tiling la);
  lo_batch : 0 < td_batch (la_tiling la);
  lo_channels : tiles_cover (td_dim (la_tiling la)) (td_baseDim (la_tiling la)) (td_baseDimCnt (la_tiling la));
  lo_tile : td_baseDim (la_tiling la) <= 4096 /\ td_baseDim (la_tiling la) mod 16 = 0;
  lo_key : la_tilingKey la ∈ tpl_sel_entries;
  lo_cores : 0 < la_blockDim la <= coreNum;
  lo_fn : (la_tilingKey la).1.1 = 0 ->
    tiles_cover (td_cuSeqlen (la_tiling la)) (td_tokenBlockSize (la_tiling la)) (td_tokenBlockCnt (la_tiling la)) /\
    td_hasNumAcceptedTokens (la_tiling la) = 0 /\ td_inputMode (la_tiling la) <> 2 /\
    (la_tilingKey la).1.2 = td_width (la_tiling la) - 1 /\
    la_blockDim la <= td_tokenBlockCnt (la_tiling la) * td_baseDimCnt (la_tiling la) /\
    (td_baseDimCnt (la_tiling la) <= coreNum ->
       la_blockDim la = td_tokenBlockCnt (la_tiling la) * td_baseDimCnt (la_tiling la));
  lo_ranges : ranges_ok context (la_tiling la);
  lo_snapshot : td_hasInitStateWorkspace (la_tiling la) <> 0 <->
    (la_tilingKey la).1.1 = 0 /\ td_hasInitialStateMode (la_tiling la) <> 0;
  lo_workspace : la_workspaceSize la =
    if td_hasInitStateWorkspace (la_tiling la) =? 0 then 0
    else ASCENDC_RESERVED_WORKSPACE_SIZE + la_blockDim la * 32 +
         td_batch (la_tiling la) * (td_width (la_tiling la) - 1) * td_dim (la_tiling la) * 2 }.

Lemma copy_range_keep src l dst i :
  0 <= i -> i ∉ l -> (forall j, j ∈ l -> 0 <= j) ->
  fold_left (copy_range src) l dst !! Z.to_nat i = dst !! Z.to_nat i.
Proof.
  intros Hi. revert dst. induction l as [|j l IH]; intros dst Hni Hpos; simpl; [done|].
  rewrite IH by set_solver. apply list_lookup_insert_ne.
  specialize (Hpos j ltac:(set_solver)). apply not_elem_of_cons in Hni as [Hne _]. lia.
Qed.

Lemma copy_range_set src l dst i :
  i ∈ l -> NoDup l -> (forall j, j ∈ l -> 0 <= j < Z.of_nat (length dst)) -> src !! Z.to_nat i <> None ->
  fold_left (copy_range src) l dst !! Z.to_nat i = src !! Z.to_nat i.
Proof.
  revert dst. induction l as [|j l IH]; intros dst Hin Hnd Hr Hsrc; [set_solver|]. simpl.
  apply list.NoDup_cons in Hnd as [Hnj Hnd]. pose proof (Hr j ltac:(set_solver)) as Hj.
  apply elem_of_cons in Hin as [-> |Hin].
  - rewrite copy_range_keep; [|lia|done|intros j' Hj'; specialize (Hr j' ltac:(set_solver)); lia].
    unfold copy_range. rewrite list_lookup_insert_eq by lia.
    destruct (src !! Z.to_nat j) eqn:E; [|done]. f_equal. by apply nth_lookup_Some.
  - apply IH; [done|done| |done]. unfold copy_range. rewrite length_insert. set_solver.
Qed.

Lemma copy_ranges_lookup n src dst i :
  0 <= i < n -> n <= Z.of_nat (length dst) -> src !! Z.to_nat i <> None ->
  copy_ranges n src dst !! Z.to_nat i = src !! Z.to_nat i.
Proof.
  intros Hi Hlen Hsrc. apply copy_range_set; [by apply elem_of_zrange|apply NoDup_zrange| |done].
  intros j. rewrite elem_of_zrange. lia.
Qed.

Lemma tiles_cover_count total size cnt : tiles_cover total size cnt -> cnt <= total.
Proof. unfold tiles_cover. nia. Qed.

Lemma update_choice_aligned b : b ∈ update_candidates -> b <= 4096 /\ b mod 16 = 0.
Proof. unfold update_candidates. rewrite !elem_of_cons, elem_of_nil. intuition (subst; vm_compute; congruence). Qed.

Lemma fn_width_key width : 2 <= width <= 4 ->
  NormalizeWidthTilingKey CAUSAL_CONV1D_TPL_RUN_MODE_FN (i32 width) = width - 1.
Proof.
  intros Hw. rewrite i32_id by (unfold fits_i32; lia).
  assert (width = 2 \/ width = 3 \/ width = 4) as [-> |[-> | ->]] by lia; reflexivity.
Qed.

Lemma fn_key_compiled width plan : 2 <= width <= 4 -> plan <> FN_EXECUTION_PLAN_INVALID ->
  (CAUSAL_CONV1D_TPL_RUN_MODE_FN,
   NormalizeWidthTilingKey CAUSAL_CONV1D_TPL_RUN_MODE_FN (i32 width),
   NormalizeFnPlanTilingKey CAUSAL_CONV1D_TPL_RUN_MODE_FN plan) ∈ tpl_sel_entries.
Proof.
  intros Hw Hp. rewrite fn_width_key by done.
  assert (width = 2 \/ width = 3 \/ width = 4) as [-> |[-> | ->]] by lia;
    destruct plan; try done; unfold tpl_sel_entries; set_solver.
Qed.

Lemma GetPlatformInfo_sound context ubSize coreNum :
  platform_ok context -> GetPlatformInfo context = Ok (ubSize, coreNum) ->
  0 < ubSize /\ 0 < coreNum < 2 ^ 32.
Proof.
  intros Hp Hok. unfold GetPlatformInfo in Hok. do 3 inv_bind Hok. injection Hok as <- <-.
  destruct (Hp a Hok0) as [Hc Hu]. unfold fits_u32 in Hc. lia.
Qed.

Lemma GetAttrsInfo_sound context ai :
  GetAttrsInfo context = Ok ai -> ai_runMode ai = 0 \/ ai_runMode ai = 1.
Proof.
  intros Hok. unfold GetAttrsInfo in Hok. do 4 inv_bind Hok. inv_bind Hok. injection Hok as <-. simpl.
  match goal with H : _ \/ _ |- _ => destruct H end; bool_prop; auto.
Qed.

(** The planner's fields do not disturb the validated ones. *)
Lemma conv1d_valid_with_plan context decode td b1 b2 b3 b4 b5 b6 l1 l2 b7 :
  conv1d_valid context decode td -> conv1d_valid context decode (with_plan td b1 b2 b3 b4 b5 b6 l1 l2 b7).
Proof. intros []. by split. Qed.

(** The sequence ranges stored in the tiling record. *)
Lemma stored_ranges_ok context td size cnt b1 b2 ws :
  td_tokenTileStartSeq td = replicate 128 0 -> td_tokenTileEndSeq td = replicate 128 0 ->
  td_hasExplicitTokenSeqRanges td = 0 -> td_inputMode td = 0 ->
  let p := BuildFnTokenSeqRangePlan (tensor_data (GetOptionalInputTensor context QUERY_START_LOC_INDEX))
             (td_batch td) size cnt in
  let n := if srp_enabled p then srp_rangeCount p else td_explicitTokenSeqRangeCount td in
  ranges_ok context
    (with_plan td b1 b2 size cnt (if srp_enabled p then 1 else td_hasExplicitTokenSeqRanges td) n
       (if srp_enabled p then copy_ranges n (srp_tokenTileStartSeq p) (td_tokenTileStartSeq td) else td_tokenTileStartSeq td)
       (if srp_enabled p then copy_ranges n (srp_tokenTileEndSeq p) (td_tokenTileEndSeq td) else td_tokenTileEndSeq td) ws).
Proof.
  intros Hst Hen Hz Hm p n. unfold ranges_ok. simpl.
  destruct (srp_enabled p) eqn:Ep; [|by rewrite Hz]. intros _. split; [done|].
  destruct (seq_range_plan_enabled _ _ _ _ Ep) as (q & Hq & Hb & Hs & Hc).
  subst n p. rewrite Hq in *.
  destruct (seq_range_plan_entries q _ _ _ Hb Hs Hc) as (_ & Hcnt & Hall).
  split; [done|]. exists q. split; [done|]. intros i Hi.
  destruct (Hall i Hi) as (s & e & H1 & H2 & H3 & H4). exists s, e.
  rewrite Hcnt, Hst, Hen. unfold MAX_FN_TOKEN_SEQ_RANGE_COUNT in Hc.
  rewrite !copy_ranges_lookup by (rewrite ?length_replicate, ?H1, ?H2; (lia || done)). done.
Qed.

(** Fields that validation leaves cleared. *)
Lemma GetShapeDtypeInfo_cleared context ai td :
  GetShapeDtypeInfo context ai = Ok td ->
  td_tokenTileStartSeq td = replicate 128 0 /\ td_tokenTileEndSeq td = replicate 128 0 /\
  td_hasExplicitTokenSeqRanges td = 0.
Proof.
  unfold GetShapeDtypeInfo. intros Hok. cbv zeta in Hok. inv_bind Hok.
  inv_bind Hok. destruct a0 as [[width lines] slen]. inv_bind Hok. destruct a0 as [[absent size] q].
  do 6 inv_bind Hok. by injection Hok as <-.
Qed.

(** The run-mode tests of the tiling function. *)
Lemma run_mode_fn : (u32 0 =? CAUSAL_CONV1D_TPL_RUN_MODE_FN) = true.
Proof. done. Qed.

Lemma run_mode_update : (u32 1 =? CAUSAL_CONV1D_TPL_RUN_MODE_FN) = false.
Proof. done. Qed.

(** The sequence ranges in either input mode. *)
Lemma fn_ranges_ok context td size cnt b1 b2 ws :
  td_tokenTileStartSeq td = replicate 128 0 -> td_tokenTileEndSeq td = replicate 128 0 ->
  td_hasExplicitTokenSeqRanges td = 0 ->
  let data := if td_inputMode td =? 0
              then tensor_data (GetOptionalInputTensor context QUERY_START_LOC_INDEX) else None in
  let p := if td_inputMode td =? 0 then BuildFnTokenSeqRangePlan data (td_batch td) size cnt
           else FnTokenSeqRangePlan0 in
  let n := if srp_enabled p then srp_rangeCount p else td_explicitTokenSeqRangeCount td in
  ranges_ok context
    (with_plan td b1 b2 size cnt (if srp_enabled p then 1 else td_hasExplicitTokenSeqRanges td) n
       (if srp_enabled p then copy_ranges n (srp_tokenTileStartSeq p) (td_tokenTileStartSeq td) else td_tokenTileStartSeq td)
       (if srp_enabled p then copy_ranges n (srp_tokenTileEndSeq p) (td_tokenTileEndSeq td) else td_tokenTileEndSeq td) ws).
Proof.
  intros Hst Hen Hz. destruct (td_inputMode td =? 0) eqn:E; bool_prop.
  - by apply stored_ranges_ok.
  - unfold ranges_ok. simpl. by rewrite Hz.
Qed.

(** The number of cores of an fn launch. *)
Lemma fn_blockDim_spec dim cuSeqlen coreNum plan :
  0 < coreNum < 2 ^ 32 -> fn_plan_ok dim cuSeqlen coreNum plan ->
  let grid := vtc_gridSize (fhp_tokenBlockChoice plan) in
  let mapped := tcm_blockDim (fhp_tokenCoreMapping plan) in
  let blockDim := u32 (if grid <? mapped then grid else mapped) in
  0 < blockDim <= coreNum /\ blockDim <= grid /\ (dtc_baseDimCnt (fhp_baseDimChoice plan) <= coreNum -> blockDim = grid).
Proof.
  intros Hc Hok grid mapped blockDim.
  pose proof (fn_plan_grid_launched dim cuSeqlen coreNum plan ltac:(lia) Hok) as Hl.
  destruct Hok as [Hcov _ _ Htok Hbud Hgrid Hbd _ _ _ _ _ _].
  destruct Hcov as (_ & Hp & _), Htok as (_ & Ht & _). fold grid in Hgrid, Hl. fold mapped in Hbd, Hl.
  assert (0 < grid) by nia. assert (0 < mapped <= coreNum) by nia.
  subst blockDim. rewrite u32_id by (unfold fits_u32; destruct (_ <? _) eqn:E; bool_prop; lia).
  destruct (_ <? _) eqn:E; bool_prop; split_and!; try lia.
Qed.

(** The workspace step. *)
Lemma set_launch_workspace_sound context isFn td blockDim ws sm hw :
  2 <= td_width td -> set_launch_workspace context isFn td blockDim = Ok (ws, sm, hw) ->
  (hw <> 0 <-> isFn = true /\ td_hasInitialStateMode td <> 0) /\
  ws = if hw =? 0 then 0
       else ASCENDC_RESERVED_WORKSPACE_SIZE + blockDim * 32 + td_batch td * (td_width td - 1) * td_dim td * 2.
Proof.
  intros Hw Hok. unfold set_launch_workspace, SetWorkspaceSize in Hok.
  rewrite Z.gtb_ltb, (proj2 (Z.ltb_lt 0 _)) in Hok by lia.
  destruct isFn, (td_hasInitialStateMode td =? 0) eqn:E, (HasWorkspaceSizes context);
    cbn [negb andb] in Hok; bool_prop; repeat inv_bind Hok; simplify_eq; naive_solver.
Qed.

Section PlanLaunch.
Context (context : TilingContext) (ubSize coreNum : Z) (td : CausalConv1dTilingData).
Hypothesis Hcore : 0 < coreNum < 2 ^ 32.
Hypothesis Hst : td_tokenTileStartSeq td = replicate 128 0.
Hypothesis Hen : td_tokenTileEndSeq td = replicate 128 0.
Hypothesis Hz : td_hasExplicitTokenSeqRanges td = 0.
Hypothesis Hbatch : 0 < td_batch td.

Lemma plan_launch_fn runMode la :
  conv1d_valid context false td -> runMode = 0 -> plan_launch context ubSize coreNum runMode td = Ok la ->
  launch_ok context coreNum la.
Proof.
  intros Hv Hrun Hok. unfold plan_launch in Hok. cbv zeta in Hok. rewrite Hrun, run_mode_fn in Hok. cbn [andb] in Hok.
  do 3 inv_bind Hok. inv_bind Hok. destruct a2 as [[ws sm] hw]. injection Hok as <-.
  repeat match goal with H : bool_decide _ = false |- _ => apply bool_decide_eq_false_1 in H end.
  assert (fn_plannable td ubSize coreNum) as Hpl by (apply fn_host_plan_rejects; [lia|done]).
  pose proof (fn_host_plan_sound td ubSize coreNum Hpl) as Hplan.
  set (plan := ChooseFnHostPlan td ubSize coreNum) in *.
  destruct (fn_blockDim_spec _ _ coreNum plan Hcore Hplan) as (Hbd & Hle & Heq).
  set (blockDim := u32 (if _ <? _ then _ else _)) in *.
  destruct Hpl as (Hmode & _ & _ & _ & _ & Hacc & _).
  pose proof (cv_width _ _ _ Hv) as Hw. pose proof (proj2 (cv_dim _ _ _ Hv)) as Hal.
  apply set_launch_workspace_sound in Hok1 as [Hsnap Hws]; [|lia].
  rewrite (fpo_grid _ _ _ _ Hplan) in Hle, Heq.
  split; simpl; try done.
  - apply conv1d_valid_with_plan, Hv.
  - apply (fpo_channels _ _ _ _ Hplan).
  - split; [apply (fpo_tile_max _ _ _ _ Hplan)|by apply (fpo_tile_aligned _ _ _ _ Hplan)].
  - by apply fn_key_compiled.
  - intros _. split_and!; [apply (fpo_tokens _ _ _ _ Hplan)|done|lia| |done|done].
    by apply fn_width_key.
  - by apply fn_ranges_ok.
  - naive_solver.
Qed.

Lemma plan_launch_update runMode la :
  conv1d_valid context true td -> runMode = 1 -> plan_launch context ubSize coreNum runMode td = Ok la ->
  td_batch td * td_dim td <= INT64_MAX -> launch_ok context coreNum la.
Proof.
  intros Hv Hrun Hok Hfit. unfold plan_launch in Hok. cbv zeta in Hok. rewrite Hrun, run_mode_update in Hok.
  cbn [andb] in Hok. do 3 inv_bind Hok. inv_bind Hok. destruct a2 as [[ws sm] hw]. injection Hok as <-.
  pose proof (proj1 (cv_dim _ _ _ Hv)) as Hd. pose proof (cv_width _ _ _ Hv) as Hw.
  destruct (update_choice_best (td_batch td) (td_dim td) coreNum) as (b & Hin & _ & Hch & _); [lia..|].
  rewrite Hch in *. cbn [dtc_baseDim dtc_baseDimCnt dtc_gridSize] in *.
  apply set_launch_workspace_sound in Hok2 as [Hsnap Hws]; [|lia].
  split; cbn [la_tilingKey la_tiling la_blockDim la_workspaceSize fst snd].
  - apply conv1d_valid_with_plan, Hv.
  - exact Hbatch.
  - by apply CeilDivInt64_tiles.
  - by apply update_choice_aligned.
  - unfold tpl_sel_entries. set_solver.
  - destruct (_ <? coreNum) eqn:E; bool_prop; [|lia]. rewrite u32_id; [lia|unfold fits_u32; lia].
  - intros Hk. by vm_compute in Hk.
  - unfold ranges_ok. simpl. by rewrite Hz.
  - simpl. naive_solver.
  - exact Hws.
Qed.
End PlanLaunch.

(** The batch of a call is not changed by planning. *)
Lemma plan_launch_shape context ubSize coreNum runMode td la :
  plan_launch context ubSize coreNum runMode td = Ok la ->
  td_batch (la_tiling la) = td_batch td /\ td_dim (la_tiling la) = td_dim td.
Proof.
  unfold plan_launch. intros Hok. cbv zeta in Hok. do 3 inv_bind Hok. inv_bind Hok.
  destruct a2 as [[ws sm] hw]. by injection Hok as <-.
Qed.

Lemma CausalConv1dTilingFunc_positive context la :
  CausalConv1dTilingFunc context = Ok la -> 0 < td_batch (la_tiling la) /\ 0 < td_dim (la_tiling la).
Proof.
  intros Hok. unfold CausalConv1dTilingFunc in Hok. inv_bind Hok. destruct a as [ubSize coreNum].
  do 3 inv_bind Hok. inv_bind Hok. pose proof (plan_launch_shape _ _ _ _ _ _ Hok) as [-> ->]. lia.
Qed.

Lemma CausalConv1dTilingFunc_launch_ok context la :
  platform_ok context -> CausalConv1dTilingFunc context = Ok la ->
  td_batch (la_tiling la) * td_dim (la_tiling la) <= INT64_MAX ->
  exists coreNum ubSize, GetPlatformInfo context = Ok (ubSize, coreNum) /\ launch_ok context coreNum la.
Proof.
  intros Hp Hok Hfit. unfold CausalConv1dTilingFunc in Hok.
  inv_bind Hok. destruct a as [ubSize coreNum]. exists coreNum, ubSize. split; [done|].
  apply GetPlatformInfo_sound in Hok0 as [_ Hcore]; [|done].
  inv_bind Hok. inv_bind Hok. rename a0 into ai. inv_bind Hok. rename a0 into td.
  apply GetAttrsInfo_sound in Hok1.
  pose proof (GetShapeDtypeInfo_sound _ _ _ Hok2) as Hv.
  pose proof (GetShapeDtypeInfo_cleared _ _ _ Hok2) as (Hst & Hen & Hz).
  inv_bind Hok. pose proof (plan_launch_shape _ _ _ _ _ _ Hok) as [Hb Hd]. rewrite Hb, Hd in Hfit.
  destruct Hok1 as [Hrun|Hrun]; rewrite Hrun in Hv;
    [apply (plan_launch_fn context ubSize coreNum td) with (runMode := ai_runMode ai)
    |apply (plan_launch_update context ubSize coreNum td) with (runMode := ai_runMode ai)]; done.
Qed.

(** C21.  Whenever the tiling function of causal_conv1d accepts a call, the
    launch satisfies the kernel's contract [launch_ok]: validated shapes, tiles
    that cover channels and tokens, a compiled kernel instance for the key, at
    most [coreNum] cores, one core per tile in fn mode (when there are no more
    channel tiles than cores), exact sequence ranges, and a workspace that holds
    the synchronisation area and the whole initial-state snapshot. *)
Theorem CausalConv1dTilingFunc_sound context la :
  platform_ok context -> CausalConv1dTilingFunc context = Ok la ->
  td_batch (la_tiling la) * td_dim (la_tiling la) <= INT64_MAX ->
  exists coreNum ubSize, GetPlatformInfo context = Ok (ubSize, coreNum) /\ launch_ok context coreNum la.
Proof. apply CausalConv1dTilingFunc_launch_ok. Qed.

(** A prefill call: two sequences of 2 and 4 tokens, 16 channels, width 4. *)
Definition context_example : TilingContext :=
  {| GetPlatformInfoPtr := Some (Build_PlatformInfo 40 20 196608);
     GetInputShape := fun i => if i =? X_INDEX then Some [6; 16]
       else if i =? WEIGHT_INDEX then Some [4; 16]
       else if i =? CONV_STATES_INDEX then Some [3; 4; 16] else None;
     GetOptionalInputShape := fun i => if i =? QUERY_START_LOC_INDEX then Some [3]
       else if i =? INITIAL_STATE_MODE_INDEX then Some [2] else None;
     GetOutputShape := fun _ => None;
     GetInputDesc := fun _ => Some DT_BF16;
     GetOptionalInputDesc := fun _ => Some DT_INT64;
     GetOutputDesc := fun _ => None;
     GetOptionalInputTensor := fun i =>
       if i =? QUERY_START_LOC_INDEX then Some (Some (Tensor 3 (fun k => nth (Z.to_nat k) [0; 2; 6] 0)))
       else if i =? INITIAL_STATE_MODE_INDEX then Some (Some (Tensor 2 (fun k => nth (Z.to_nat k) [1; 0] 0)))
       else None;
     HasAttrs := true;
     GetAttrInt := fun i => if i =? ATTR_RUN_MODE_INDEX then Some 0 else Some 1;
     HasTilingData := true;
     HasWorkspaceSizes := true;
     SetScheduleModeOk := true |}.

Lemma CausalConv1dTilingFunc_sound_witness :
  exists la, CausalConv1dTilingFunc context_example = Ok la /\ la_blockDim la = 6 /\
    exists coreNum ubSize, GetPlatformInfo context_example = Ok (ubSize, coreNum) /\
      launch_ok context_example coreNum la.
Proof.
  eexists. split; [vm_compute; reflexivity|]. split; [reflexivity|].
  apply CausalConv1dTilingFunc_sound.
  - intros p Hp. injection Hp as <-. unfold fits_u32. simpl. lia.
  - vm_compute. reflexivity.
  - vm_compute. discriminate.
Defined.
