(* ===== verification/Conv1dElem.v ===== *)
(** Element arithmetic of the causal_conv1d kernel.

    The kernel is a template over the storage type [T] (bfloat16 or half) and
    accumulates in single precision [F].  The vector unit's arithmetic is not
    part of the repository: it is an interface, with the laws the kernel relies
    on as separate classes.  The reference convolution is defined against it. *)

From S2P Require Import Prelude AscendC.

(** Vector-unit operations on one element. *)
Class ElemOps (T F : Type) : Type := {
  zeroT : T;                        (** [static_cast<T>(0)] *)
  zeroF : F;                        (** [0.0f] *)
  castUp : T -> F;                  (** [Cast(..., CAST_NONE)] *)
  castRint : F -> T;                (** [Cast(..., CAST_RINT)] *)
  fmul : F -> F -> F;               (** [Mul] *)
  fadd : F -> F -> F;               (** [Add], [Adds] *)
  fmuladd : F -> F -> F -> F;       (** [MulAddDst]: destination, then sources *)
  fsilu : F -> F;                   (** [Silu] *)
  half : bool -> F -> T;            (** the two 16-bit halves of a 32-bit cell *)
  join : T -> T -> F }.             (** a 32-bit cell from its halves *)

(** A 32-bit cell is its two 16-bit halves ([ReinterpretCast]). *)
Class HalfLaws (T F : Type) `{ElemOps T F} : Prop := {
  join_half : forall f : F, join (half false f) (half true f) = f;
  half_lo : forall a b : T, half false (join a b : F) = a;
  half_hi : forall a b : T, half true (join a b : F) = b }.

(** [MulAddDst] computes [dst = src0 * src1 + dst], with the rounding of [Mul]
    followed by [Add]. *)
Class MulAddLaw (T F : Type) `{ElemOps T F} : Prop :=
  muladd_unfused : forall d a b : F, fmuladd d a b = fadd (fmul a b) d.

(** ** The reference convolution *)

Section Reference.
Context {T F : Type} `{ElemOps T F}.

(** The accumulator after the first [n] taps: tap [i] multiplies input [x i]
    with weight [w i].  With a bias the accumulator starts from it; without, the
    first product initialises it. *)
Fixpoint conv_acc (hasBias : bool) (bias : F) (w x : Z -> F) (n : nat) : F :=
  match n with
  | O => fadd bias zeroF
  | S n' =>
      if negb hasBias && Nat.eqb n' 0 then fmul (x 0) (w 0)
      else fmuladd (conv_acc hasBias bias w x n') (x (Z.of_nat n')) (w (Z.of_nat n'))
  end.

(** One output element: [width] taps ending at token [t] of the stream [tok]. *)
Definition conv_out (activation hasBias : bool) (bias : F) (width : Z) (w : Z -> F)
    (tok : Z -> T) (t : Z) : T :=
  let acc := conv_acc hasBias bias w (fun i => castUp (tok (t - (width - 1) + i))) (Z.to_nat width) in
  castRint (if activation then fsilu acc else acc).

Lemma conv_acc_ext hasBias bias bias' w w' x x' n :
  bias = bias' ->
  (forall i, 0 <= i < Z.of_nat n -> w i = w' i /\ x i = x' i) ->
  conv_acc hasBias bias w x n = conv_acc hasBias bias' w' x' n.
Proof.
  intros -> Hext. induction n as [|n IH]; simpl; [done|].
  destruct (Hext (Z.of_nat n) ltac:(lia)) as [Hw Hx].
  rewrite IH by (intros i Hi; apply Hext; lia). rewrite Hw, Hx.
  destruct (negb hasBias && Nat.eqb n 0) eqn:E; [|done].
  apply andb_prop in E as [_ E]. apply Nat.eqb_eq in E as ->. change (Z.of_nat 0) with 0 in *. by rewrite Hw, Hx.
Qed.

Lemma conv_out_ext act hasBias bias bias' width w w' tok tok' t t' :
  0 <= width -> bias = bias' -> (forall i, 0 <= i < width -> w i = w' i) ->
  (forall i, 0 <= i < width -> tok (t - (width - 1) + i) = tok' (t' - (width - 1) + i)) ->
  conv_out act hasBias bias width w tok t = conv_out act hasBias bias' width w' tok' t'.
Proof.
  intros Hwd Hb Hw Htok. unfold conv_out.
  rewrite (conv_acc_ext hasBias bias bias' w w' _ (fun i => castUp (tok' (t' - (width - 1) + i))));
    [done|done|].
  intros i Hi. split; [apply Hw; lia|]. f_equal. apply Htok. lia.
Qed.
End Reference.

(** ** An exact instance

    Cells are pairs of integers, so that halves are projections; arithmetic is
    component-wise and exact.  It witnesses that the laws are satisfiable. *)
#[global] Instance pair_ops : ElemOps Z (Z * Z) := {|
  zeroT := 0;
  zeroF := (0, 0);
  castUp z := (z, 0);
  castRint f := f.1;
  fmul f g := (f.1 * g.1, 0);
  fadd f g := (f.1 + g.1, f.2 + g.2);
  fmuladd d f g := (f.1 * g.1 + d.1, d.2);
  fsilu f := f;
  half b f := if b then f.2 else f.1;
  join a b := (a, b) |}.

#[global] Instance pair_half : HalfLaws Z (Z * Z).
Proof. split; [by intros []|done..]. Qed.

#[global] Instance pair_muladd : MulAddLaw Z (Z * Z).
Proof. done. Qed.

(** In exact arithmetic the accumulator is the bias plus the convolution sum. *)
Definition conv_sum (w x : Z -> Z) (n : nat) : Z :=
  foldr Z.add 0 (map (fun i => x (Z.of_nat i) * w (Z.of_nat i)) (seq 0 n)).

Lemma conv_sum_S w x n : conv_sum w x (S n) = conv_sum w x n + x (Z.of_nat n) * w (Z.of_nat n).
Proof.
  unfold conv_sum. rewrite seq_S, map_app, foldr_app. simpl. rewrite Z.add_0_r.
  generalize (x (Z.of_nat n) * w (Z.of_nat n)). intros k.
  generalize (map (fun i : nat => x (Z.of_nat i) * w (Z.of_nat i)) (seq 0 n)).
  intros l. induction l as [|a l IH]; simpl; [lia|]. rewrite IH. lia.
Qed.

Lemma conv_acc_exact hasBias (bias : Z * Z) (w x : Z -> Z) n : (0 < n)%nat ->
  (conv_acc (T := Z) hasBias bias (fun i => castUp (w i)) (fun i => castUp (x i)) n).1 =
    (if hasBias then bias.1 else 0) + conv_sum w x n.
Proof.
  induction n as [|n IH]; [lia|]. intros _. rewrite conv_sum_S. destruct n as [|n].
  - unfold conv_sum. destruct hasBias; simpl; change (Z.of_nat 0) with 0; lia.
  - specialize (IH ltac:(lia)). remember (S n) as k. cbn [conv_acc].
    replace (negb hasBias && Nat.eqb k 0) with false by (subst; by destruct hasBias).
    set (acc := conv_acc _ _ _ _ k) in *. cbn [fmuladd pair_ops fst castUp]. lia.
Qed.
