(* ===== verification/Conv1dKernel.v ===== *)
(** The causal_conv1d kernel ([op_kernel/causal_conv1d.h],
    [causal_conv1d_common.h], [causal_conv1d_fn_tasks.h], [causal_conv1d_fn.h],
    [causal_conv1d_update.h]): the state of one core and every member function
    of the kernel class.

    One core executes its instructions in program order; [PipeBarrier] has no
    effect on such an execution and is left out.  Event flags are kept: a flag
    raised twice, or waited for without having been raised, is a fault.
    [int32_t] values are wrapped with [i32] where the source narrows or computes
    in 32 bits.  The storage type is bfloat16 or half (two bytes), the types the
    host accepts, so the [float] branches of the templates are not modelled. *)

From S2P Require Import Prelude AscendC Conv1dTypes Conv1dElem.

(** ** [causal_conv1d_common.h] *)

Definition MAX_WIDTH : Z := 4.
Definition MAX_BLOCK_DIM : Z := 4096.
Definition RING_SLOTS : Z := 5.

Definition SlotCurr (t : Z) : Z := i32 (t + 3) %c RING_SLOTS.
Definition SlotHist (t i : Z) : Z := i32 (i32 (t + 3) - i) %c RING_SLOTS.
Definition SlotPrefetch (t : Z) : Z := i32 (t + 4) %c RING_SLOTS.

(** [CalcBufLayout]: offsets of the regions of the calculation buffer. *)
Definition weightF : Z := 0.
Definition biasF : Z := weightF + MAX_WIDTH * MAX_BLOCK_DIM.
Definition accF : Z := biasF + MAX_BLOCK_DIM.
Definition tmpF : Z := accF + MAX_BLOCK_DIM.
Definition currF : Z := tmpF + MAX_BLOCK_DIM.

(** ** Free functions and enums of [causal_conv1d.h] *)

Inductive SeqTaskWindowMode : Type :=
  | SEQ_TASK_WINDOW_MODE_VARLEN
  | SEQ_TASK_WINDOW_MODE_BATCH
  | SEQ_TASK_WINDOW_MODE_DECODE2D.

Record SeqTaskWindow : Type := {
  win_valid : bool;
  win_start : Z;
  win_len : Z }.

Definition GetSeqTaskWindowMode (inputMode : Z) : SeqTaskWindowMode :=
  if inputMode =? 0 then SEQ_TASK_WINDOW_MODE_VARLEN
  else if inputMode =? 2 then SEQ_TASK_WINDOW_MODE_DECODE2D
  else SEQ_TASK_WINDOW_MODE_BATCH.

Definition BuildSeqTaskWindowVarlen (startVal endVal : Z) : SeqTaskWindow :=
  let len := i32 (endVal - startVal) in
  {| win_valid := len >? 0; win_start := startVal; win_len := len |}.

Definition RetreatRingSlot (slot delta : Z) : Z :=
  let prev := slot - delta in
  if prev >=? 0 then prev else prev + RING_SLOTS.

Definition BuildSeqTaskWindowBatch (seq seqLen : Z) : SeqTaskWindow :=
  {| win_valid := seqLen >? 0; win_start := i32 (seq * seqLen); win_len := seqLen |}.

Definition BuildSeqTaskWindowDecode2D (seq : Z) : SeqTaskWindow :=
  {| win_valid := true; win_start := seq; win_len := 1 |}.

Definition DecodeWidthTplKey (widthKey : Z) : Z :=
  if widthKey =? CAUSAL_CONV1D_TPL_WIDTH_2 then 2
  else if widthKey =? CAUSAL_CONV1D_TPL_WIDTH_3 then 3
  else if widthKey =? CAUSAL_CONV1D_TPL_WIDTH_4 then 4
  else 0.

(** ** Work distribution of the fn mode ([causal_conv1d_fn_tasks.h]) *)

Record FnDirectBlockTask : Type := {
  fbt_valid : bool;
  fbt_tokenTileId : Z;
  fbt_baseDimIdx : Z;
  fbt_tokenStart : Z;
  fbt_tokenEnd : Z;
  fbt_channelStart : Z;
  fbt_baseDimSize : Z }.
Definition FnDirectBlockTask0 : FnDirectBlockTask := Build_FnDirectBlockTask false 0 0 0 0 0 0.

Definition ResolveFnDirectBlockTask (blockIdx tokenBlockCnt tokenBlockSize cuSeqlen baseDimCnt baseDim dim : Z)
    : FnDirectBlockTask :=
  if (blockIdx <? 0) || (tokenBlockCnt <=? 0) || (tokenBlockSize <=? 0) || (cuSeqlen <=? 0) ||
     (baseDimCnt <=? 0) || (baseDim <=? 0) || (dim <=? 0) then FnDirectBlockTask0
  else
  let phase1Grid := tokenBlockCnt * baseDimCnt in
  if (phase1Grid <=? 0) || (blockIdx >=? phase1Grid) then FnDirectBlockTask0
  else
  let tokenTileId := blockIdx /c baseDimCnt in
  let baseDimIdx := blockIdx %c baseDimCnt in
  let channelStart := i32 (baseDimIdx * baseDim) in
  if channelStart >=? dim
  then Build_FnDirectBlockTask false tokenTileId baseDimIdx 0 0 channelStart 0
  else
  let baseDimSize := if i32 (channelStart + baseDim) <=? dim then baseDim else dim - channelStart in
  let tokenStart := i32 (tokenTileId * tokenBlockSize) in
  if tokenStart >=? cuSeqlen
  then Build_FnDirectBlockTask false tokenTileId baseDimIdx tokenStart 0 channelStart baseDimSize
  else
  let tokenEndRaw := i32 (tokenStart + tokenBlockSize) in
  let tokenEnd := if tokenEndRaw <=? cuSeqlen then tokenEndRaw else cuSeqlen in
  if (baseDimSize <=? 0) || (tokenEnd <=? tokenStart) then FnDirectBlockTask0
  else Build_FnDirectBlockTask true tokenTileId baseDimIdx tokenStart tokenEnd channelStart baseDimSize.

Definition IsFnInitStateSnapshotOwnerBlock (task : FnDirectBlockTask) : bool :=
  fbt_valid task && (fbt_tokenTileId task =? 0).

(** ** State of one core *)

(** The hardware events of [AllocEvents]. *)
Inductive Event : Type :=
  | weightBiasMte2ToV
  | stateMte2ToV
  | inputMte2ToV (slot : Z)
  | inputVToMte2
  | outMte3ToV (slot : Z)
  | outVToMte3 (slot : Z)
  | stateWritebackMte3ToV
  | stateWritebackMte3ToMte2
  | stateShiftMte2ToMte3
  | stateShiftVToMte3
  | stateShiftMte3ToMte2
  | initSnapshotMte2ToMte3
  | initSnapshotMte3ToMte2
  | specWritebackMte2ToMte3 (slot : Z)
  | specWritebackMte3ToMte2 (slot : Z).

#[global] Instance Event_eq_dec : EqDecision Event.
Proof. solve_decision. Defined.

#[global] Instance Event_countable : Countable Event.
Proof.
  apply (inj_countable'
    (fun ev => match ev with
      | weightBiasMte2ToV => (0, 0) | stateMte2ToV => (1, 0) | inputMte2ToV k => (2, k) | inputVToMte2 => (3, 0)
      | outMte3ToV k => (4, k) | outVToMte3 k => (5, k) | stateWritebackMte3ToV => (6, 0)
      | stateWritebackMte3ToMte2 => (7, 0) | stateShiftMte2ToMte3 => (8, 0) | stateShiftVToMte3 => (9, 0)
      | stateShiftMte3ToMte2 => (10, 0) | initSnapshotMte2ToMte3 => (11, 0) | initSnapshotMte3ToMte2 => (12, 0)
      | specWritebackMte2ToMte3 k => (13, k) | specWritebackMte3ToMte2 k => (14, k)
      end)
    (fun p => match p with
      | (0, _) => weightBiasMte2ToV | (1, _) => stateMte2ToV | (2, k) => inputMte2ToV k | (3, _) => inputVToMte2
      | (4, k) => outMte3ToV k | (5, k) => outVToMte3 k | (6, _) => stateWritebackMte3ToV
      | (7, _) => stateWritebackMte3ToMte2 | (8, _) => stateShiftMte2ToMte3 | (9, _) => stateShiftVToMte3
      | (10, _) => stateShiftMte3ToMte2 | (11, _) => initSnapshotMte2ToMte3 | (12, _) => initSnapshotMte3ToMte2
      | (13, k) => specWritebackMte2ToMte3 k | (_, k) => specWritebackMte3ToMte2 k
      end)).
  by intros [].
Defined.

(** The unified buffer of a core and its event flags. *)
Record UB (T F : Type) : Type := {
  inBuf : tensor T;
  outBuf : tensor T;
  calcBuf : tensor F;
  flags : gset Event }.
Arguments Build_UB {T F}.
Arguments inBuf {T F}.
Arguments outBuf {T F}.
Arguments calcBuf {T F}.
Arguments flags {T F}.

(** The global memory the kernel writes. *)
Record GM (T : Type) : Type := {
  convStatesGm : tensor T;
  yGm : tensor T;
  initStateWorkspaceGm : tensor T }.
Arguments Build_GM {T}.
Arguments convStatesGm {T}.
Arguments yGm {T}.
Arguments initStateWorkspaceGm {T}.

Record KS (T F : Type) : Type := {
  ub : UB T F;
  gm : GM T }.
Arguments Build_KS {T F}.
Arguments ub {T F}.
Arguments gm {T F}.

(** What a core only reads: inputs, tiling record, template keys, its index. *)
Record KernelEnv (T : Type) : Type := {
  xGm : tensor T;
  weightGm : tensor T;
  biasGm : tensor T;
  queryStartLocGm : tensor Z;
  cacheIndicesGm : tensor Z;
  initialStateModeGm : tensor Z;
  numAcceptedTokensGm : tensor Z;
  tilingData : CausalConv1dTilingData;
  runModeKey : Z;
  widthKey : Z;
  fnPlanKey : Z;
  GetBlockIdx : Z;
  GetBlockNum : Z }.
Arguments xGm {T}.
Arguments weightGm {T}.
Arguments biasGm {T}.
Arguments queryStartLocGm {T}.
Arguments cacheIndicesGm {T}.
Arguments initialStateModeGm {T}.
Arguments numAcceptedTokensGm {T}.
Arguments tilingData {T}.
Arguments runModeKey {T}.
Arguments widthKey {T}.
Arguments fnPlanKey {T}.
Arguments GetBlockIdx {T}.
Arguments GetBlockNum {T}.

Section Buffers.
Context {T F : Type} `{ElemOps T F}.

Definition on_ub (f : UB T F -> UB T F) (s : KS T F) : KS T F := Build_KS (f (ub s)) (gm s).
Definition on_gm (f : GM T -> GM T) (s : KS T F) : KS T F := Build_KS (ub s) (f (gm s)).

(** [inBuf.Get<T>()]. *)
Definition ring : lens (KS T F) (tensor T) := Lens
  (fun s => inBuf (ub s))
  (fun t => on_ub (fun u => Build_UB t (outBuf u) (calcBuf u) (flags u))).

(** [outBuf.Get<T>()]. *)
Definition outT : lens (KS T F) (tensor T) := Lens
  (fun s => outBuf (ub s))
  (fun t => on_ub (fun u => Build_UB (inBuf u) t (calcBuf u) (flags u))).

(** [calcBuf.Get<float>()]. *)
Definition calc : lens (KS T F) (tensor F) := Lens
  (fun s => calcBuf (ub s))
  (fun t => on_ub (fun u => Build_UB (inBuf u) (outBuf u) t (flags u))).

(** [calc.ReinterpretCast<T>()]: the same bytes as 16-bit cells. *)
Definition as_halves (t : tensor F) : tensor T :=
  Tensor (2 * t_len t) (fun k => half (Z.odd k) (t_at t (k / 2))).
Definition of_halves (t : tensor T) : tensor F :=
  Tensor (t_len t / 2) (fun i => join (t_at t (2 * i)) (t_at t (2 * i + 1))).
Definition calcT : lens (KS T F) (tensor T) := Lens
  (fun s => as_halves (calcBuf (ub s)))
  (fun t => on_ub (fun u => Build_UB (inBuf u) (outBuf u) (of_halves t) (flags u))).

Definition convStates : lens (KS T F) (tensor T) := Lens
  (fun s => convStatesGm (gm s))
  (fun t => on_gm (fun g => Build_GM t (yGm g) (initStateWorkspaceGm g))).

Definition y : lens (KS T F) (tensor T) := Lens
  (fun s => yGm (gm s))
  (fun t => on_gm (fun g => Build_GM (convStatesGm g) t (initStateWorkspaceGm g))).

Definition initStateWorkspace : lens (KS T F) (tensor T) := Lens
  (fun s => initStateWorkspaceGm (gm s))
  (fun t => on_gm (fun g => Build_GM (convStatesGm g) (yGm g) t)).

Definition events : lens (KS T F) (gset Event) := Lens
  (fun s => flags (ub s))
  (fun f => on_ub (fun u => Build_UB (inBuf u) (outBuf u) (calcBuf u) f)).
End Buffers.

(** ** Member functions *)

Section Kernel.
Context {T F : Type} `{ElemOps T F}.
Variable e : KernelEnv T.
Abbreviation K := (M (KS T F) fault_kind).
Abbreviation td := (tilingData e).
(** [sizeof(T)] *)
Abbreviation szT := 2.

Definition kIsUpdateMode : bool := runModeKey e =? CAUSAL_CONV1D_TPL_RUN_MODE_UPDATE.
Definition kTemplateWidth : Z := DecodeWidthTplKey (widthKey e).
Definition kHasCompileTimeWidth : bool :=
  (runModeKey e =? CAUSAL_CONV1D_TPL_RUN_MODE_FN) && (kTemplateWidth >=? 2) && (kTemplateWidth <=? MAX_WIDTH).

Definition HasActivation : bool := negb (td_activationMode td =? 0).
Definition HasBias : bool := negb (td_hasBias td =? 0).
Definition IsFnRollingFastPathEnabled : bool :=
  negb kIsUpdateMode && negb (fnPlanKey e =? CAUSAL_CONV1D_TPL_FN_PLAN_INVALID) &&
  (td_hasNumAcceptedTokens td =? 0) && negb HasBias.
Definition HasExplicitFnTokenSeqRanges : bool :=
  negb kIsUpdateMode && (td_inputMode td =? 0) && negb (td_hasExplicitTokenSeqRanges td =? 0) &&
  (td_explicitTokenSeqRangeCount td >=? td_tokenBlockCnt td).
Definition IsUpdateSpecDecodingEnabled : bool :=
  kIsUpdateMode && negb (td_hasNumAcceptedTokens td =? 0) && (td_width td =? 4).

Definition Set_ (ev : Event) : K unit := SetFlag events ev.
Definition Wait_ (ev : Event) : K unit := WaitFlag events ev.

(** A widening [Cast] whose source and destination overlap.  The vector unit
    works in repeats of 64 elements, each read before it is written. *)
Definition CastRepeats (doff soff n : Z) : K unit :=
  for_range 0 ((n + 63) /c 64) (fun r =>
    vec1 castUp calc (doff + 64 * r) (lget calcT) (soff + 64 * r) (Z.min 64 (n - 64 * r))).

Definition LoadWeightAndBias (channelStart baseDim : Z) : K unit :=
  let dim := i32 (td_dim td) in
  let width := i32 (td_width td) in
  let jStart := MAX_WIDTH - width in
  let hasBias := HasBias in
  for_range 0 jStart (fun j => Duplicate calc (weightF + j * MAX_BLOCK_DIM) zeroF baseDim) ;;
  for_range 0 width (fun j =>
    let jDst := jStart + j in
    let weightOffset := j * dim + channelStart in
    DataCopy szT calcT (2 * weightF + (jDst * MAX_BLOCK_DIM * 2 + MAX_BLOCK_DIM))
      (fun _ => weightGm e) weightOffset baseDim) ;;
  when hasBias (DataCopy szT calcT (2 * biasF + MAX_BLOCK_DIM) (fun _ => biasGm e) channelStart baseDim) ;;
  Set_ weightBiasMte2ToV ;;
  Wait_ weightBiasMte2ToV ;;
  for_range 0 width (fun j =>
    let jDst := jStart + j in
    CastRepeats (weightF + jDst * MAX_BLOCK_DIM)
      (2 * weightF + (jDst * MAX_BLOCK_DIM * 2 + MAX_BLOCK_DIM)) baseDim) ;;
  when hasBias (CastRepeats biasF (2 * biasF + MAX_BLOCK_DIM) baseDim) ;;
  when (negb hasBias) (Duplicate calc biasF zeroF baseDim).

(** The tail shared by the ring initialisations: the first token, and the
    permission to prefetch the second. *)
Definition InitRing_first (start len channelStart baseDim dim : Z) : K unit :=
  when (len >? 0)
    (let slot0 := SlotCurr 0 in
     let xOffset := start * dim + channelStart in
     DataCopy szT ring (slot0 * MAX_BLOCK_DIM) (fun _ => xGm e) xOffset baseDim ;;
     Set_ (inputMte2ToV slot0)) ;;
  when (len >? 1) (Set_ inputVToMte2).

Definition InitRing (cacheIdx : Z) (hasInit : bool) (stateTokenOffset start len channelStart baseDim dim : Z) : K unit :=
  let stateLen := i32 (td_stateLen td) in
  let width := i32 (td_width td) in
  let ringStart := MAX_WIDTH - width in
  for_range 0 ringStart (fun i => Duplicate ring (i * MAX_BLOCK_DIM) zeroT baseDim) ;;
  (if hasInit then
     for_range 0 (width - 1) (fun i =>
       let pos := i32 (stateTokenOffset + i) in
       let stateOffset := cacheIdx * stateLen * dim + pos * dim + channelStart in
       DataCopy szT ring ((ringStart + i) * MAX_BLOCK_DIM) (lget convStates) stateOffset baseDim) ;;
     Set_ stateMte2ToV ;;
     Wait_ stateMte2ToV
   else
     for_range 0 (width - 1) (fun i => Duplicate ring ((ringStart + i) * MAX_BLOCK_DIM) zeroT baseDim)) ;;
  InitRing_first start len channelStart baseDim dim.

(** *** [RunSeq] and its rolling variant *)

(** Waits for token [t], and prefetches token [t + 1] (lines 408-416, 648-656). *)
Definition RunSeq_input (start len channelStart baseDim dim t : Z) : K unit :=
  Wait_ (inputMte2ToV (SlotCurr t)) ;;
  when (t + 1 <? len)
    (let slotNext := SlotPrefetch t in
     let xOffsetNext := i32 (start + t + 1) * dim + channelStart in
     Wait_ inputVToMte2 ;;
     DataCopy szT ring (slotNext * MAX_BLOCK_DIM) (fun _ => xGm e) xOffsetNext baseDim ;;
     Set_ (inputMte2ToV slotNext)).

(** Waits for the output slot and rounds the result into it (446-462, 662-678). *)
Definition RunSeq_round (t src baseDim : Z) : K unit :=
  let outSlot := Z.land t 1 in
  when (t >=? 2) (Wait_ (outMte3ToV outSlot)) ;;
  vec1 castRint outT (outSlot * MAX_BLOCK_DIM) (lget calc) src baseDim.

(** Stores the output slot and releases the buffers (464-475, 682-693). *)
Definition RunSeq_store (start len channelStart baseDim dim t : Z) : K unit :=
  let outSlot := Z.land t 1 in
  Set_ (outVToMte3 outSlot) ;;
  let outOffset := i32 (start + t) * dim + channelStart in
  Wait_ (outVToMte3 outSlot) ;;
  DataCopy szT y outOffset (lget outT) (outSlot * MAX_BLOCK_DIM) baseDim ;;
  when (t + 2 <? len) (Set_ (outMte3ToV outSlot)) ;;
  when (t + 2 <? len) (Set_ inputVToMte2).

(** Vector instructions on regions of the calculation buffer. *)
Definition CastIn (dst slot baseDim : Z) : K unit :=
  vec1 castUp calc dst (lget ring) (slot * MAX_BLOCK_DIM) baseDim.
Definition Mul (dst src0 src1 baseDim : Z) : K unit :=
  vec2 fmul calc dst (lget calc) src0 (lget calc) src1 baseDim.
Definition Add (dst src0 src1 baseDim : Z) : K unit :=
  vec2 fadd calc dst (lget calc) src0 (lget calc) src1 baseDim.
Definition MulAddDst (dst src0 src1 baseDim : Z) : K unit :=
  vec3 fmuladd calc dst (lget calc) src0 (lget calc) src1 baseDim.
Definition Adds (dst src : Z) (scalar : F) (baseDim : Z) : K unit :=
  vec1 (fun f => fadd f scalar) calc dst (lget calc) src baseDim.
Definition Silu (dst src baseDim : Z) : K unit :=
  vec1 fsilu calc dst (lget calc) src baseDim.

(** The taps of one token; the boolean is [accInitialized]. *)
Fixpoint RunSeq_taps (t slotCurr baseDim : Z) (js : list Z) (accInitialized : bool) : K unit :=
  match js with
  | [] => mret tt
  | j :: js' =>
      let tap := (MAX_WIDTH - 1) - j in
      let slot := if tap =? 0 then slotCurr else SlotHist t tap in
      CastIn tmpF slot baseDim ;;
      (if negb accInitialized then Mul accF tmpF (weightF + j * MAX_BLOCK_DIM) baseDim
       else MulAddDst accF tmpF (weightF + j * MAX_BLOCK_DIM) baseDim) ;;
      RunSeq_taps t slotCurr baseDim js' true
  end.

(** Accumulation and activation of one token (418-442). *)
Definition RunSeq_compute (t baseDim : Z) : K unit :=
  let width := i32 (td_width td) in
  let jStart := MAX_WIDTH - width in
  when HasBias (Adds accF biasF zeroF baseDim) ;;
  RunSeq_taps t (SlotCurr t) baseDim (zrange jStart MAX_WIDTH) HasBias ;;
  when HasActivation (Silu tmpF accF baseDim).

(** One token of the direct path. *)
Definition RunSeq_step (start len channelStart baseDim dim t : Z) : K unit :=
  RunSeq_input start len channelStart baseDim dim t ;;
  RunSeq_compute t baseDim ;;
  RunSeq_round t (if HasActivation then tmpF else accF) baseDim ;;
  RunSeq_store start len channelStart baseDim dim t.

(** The rolling path keeps partial sums in the accumulator regions. *)
Definition state2F : Z := biasF.
Definition state1F : Z := accF.
Definition state0F : Z := tmpF.

Definition RestoreFnLocalPartials (baseDim : Z) : K unit :=
  if negb kHasCompileTimeWidth then mret tt
  else
  let ringStart := MAX_WIDTH - kTemplateWidth in
  let w0Idx := MAX_WIDTH - kTemplateWidth in
  let w i := weightF + (w0Idx + i) * MAX_BLOCK_DIM in
  if kTemplateWidth =? 2 then
    Duplicate calc state2F zeroF baseDim ;;
    Duplicate calc state1F zeroF baseDim ;;
    CastIn currF ringStart baseDim ;;
    Mul state0F currF (w 0) baseDim
  else if kTemplateWidth =? 3 then
    Duplicate calc state2F zeroF baseDim ;;
    CastIn currF ringStart baseDim ;;
    Mul state0F currF (w 0) baseDim ;;
    CastIn currF (ringStart + 1) baseDim ;;
    Mul state1F currF (w 0) baseDim ;;
    MulAddDst state0F currF (w 1) baseDim
  else if kTemplateWidth =? 4 then
    CastIn currF ringStart baseDim ;;
    Mul state0F currF (w 0) baseDim ;;
    CastIn currF (ringStart + 1) baseDim ;;
    Mul state1F currF (w 0) baseDim ;;
    MulAddDst state0F currF (w 1) baseDim ;;
    CastIn currF (ringStart + 2) baseDim ;;
    Mul state2F currF (w 0) baseDim ;;
    MulAddDst state1F currF (w 1) baseDim ;;
    MulAddDst state0F currF (w 2) baseDim
  else mret tt.

Definition ComputeFnRollingOutput (slotCurr baseDim : Z) : K unit :=
  if negb kHasCompileTimeWidth then mret tt
  else
  CastIn currF slotCurr baseDim ;;
  MulAddDst state0F currF (weightF + 3 * MAX_BLOCK_DIM) baseDim ;;
  when HasActivation (Silu currF state0F baseDim).

Definition AdvanceFnLocalPartials (slotCurr baseDim : Z) : K unit :=
  if negb kHasCompileTimeWidth then mret tt
  else
  let w0Idx := MAX_WIDTH - kTemplateWidth in
  let w i := weightF + (w0Idx + i) * MAX_BLOCK_DIM in
  CastIn currF slotCurr baseDim ;;
  if kTemplateWidth =? 2 then
    Mul state0F currF (w 0) baseDim
  else if kTemplateWidth =? 3 then
    Mul state0F currF (w 1) baseDim ;;
    Add state0F state0F state1F baseDim ;;
    Mul state1F currF (w 0) baseDim
  else if kTemplateWidth =? 4 then
    Mul state0F currF (w 2) baseDim ;;
    Add state0F state0F state1F baseDim ;;
    Mul state1F currF (w 1) baseDim ;;
    Add state1F state1F state2F baseDim ;;
    Mul state2F currF (w 0) baseDim
  else mret tt.

Definition RunSeqFnRolling_step (start len channelStart baseDim dim t : Z) : K unit :=
  let slotCurr := SlotCurr t in
  RunSeq_input start len channelStart baseDim dim t ;;
  ComputeFnRollingOutput slotCurr baseDim ;;
  RunSeq_round t (if HasActivation then currF else state0F) baseDim ;;
  AdvanceFnLocalPartials slotCurr baseDim ;;
  RunSeq_store start len channelStart baseDim dim t.

Definition RunSeqFnRolling (start len channelStart baseDim dim : Z) : K unit :=
  if negb kHasCompileTimeWidth then mret tt
  else
  RestoreFnLocalPartials baseDim ;;
  for_range 0 len (RunSeqFnRolling_step start len channelStart baseDim dim).

Definition RunSeq (start len channelStart baseDim dim : Z) : K unit :=
  if IsFnRollingFastPathEnabled then RunSeqFnRolling start len channelStart baseDim dim
  else for_range 0 len (RunSeq_step start len channelStart baseDim dim).

Definition DrainTaskMte3 : K unit :=
  Set_ stateWritebackMte3ToV ;;
  Wait_ stateWritebackMte3ToV ;;
  Set_ stateWritebackMte3ToMte2 ;;
  Wait_ stateWritebackMte3ToMte2.

(** *** Writing the convolution state back *)

Definition WriteBackState (cacheIdx len channelStart baseDim dim : Z) : K unit :=
  let stateLen := i32 (td_stateLen td) in
  let width := i32 (td_width td) in
  if len <=? 0 then mret tt
  else
  let lastT := len - 1 in
  let lastSlot := SlotCurr lastT in
  let stateBaseOffset := cacheIdx * stateLen * dim + channelStart in
  for_range 0 (width - 1) (fun pos =>
    let tap := (width - 2) - pos in
    let slot := RetreatRingSlot lastSlot tap in
    let stateOffset := stateBaseOffset + pos * dim in
    DataCopy szT convStates stateOffset (lget ring) (slot * MAX_BLOCK_DIM) baseDim).

(** [keep]: how many positions of the old state survive in front of the draft. *)
Definition keep : Z := MAX_WIDTH - 2.

(** Moves the surviving positions to the front of the cache line (756-787). *)
Definition WriteBackStateSpec_shift (cacheIdx : Z) (hasInit : bool)
    (stateTokenOffset channelStart baseDim dim : Z) : K unit :=
  let stateLen := i32 (td_stateLen td) in
  let at_pos p := cacheIdx * stateLen * dim + p * dim + channelStart in
  let buf0 := 0 * MAX_BLOCK_DIM in
  let buf1 := 1 * MAX_BLOCK_DIM in
  if hasInit then
    DataCopy szT ring buf0 (lget convStates) (at_pos (i32 (stateTokenOffset + 1))) baseDim ;;
    DataCopy szT ring buf1 (lget convStates) (at_pos (i32 (stateTokenOffset + 2))) baseDim ;;
    Set_ stateShiftMte2ToMte3 ;;
    Wait_ stateShiftMte2ToMte3 ;;
    DataCopy szT convStates (at_pos 0) (lget ring) buf0 baseDim ;;
    DataCopy szT convStates (at_pos 1) (lget ring) buf1 baseDim ;;
    Set_ stateShiftMte3ToMte2 ;;
    Wait_ stateShiftMte3ToMte2
  else
    Duplicate ring buf0 zeroT baseDim ;;
    Set_ stateShiftVToMte3 ;;
    Wait_ stateShiftVToMte3 ;;
    DataCopy szT convStates (at_pos 0) (lget ring) buf0 baseDim ;;
    DataCopy szT convStates (at_pos 1) (lget ring) buf0 baseDim ;;
    Set_ stateShiftMte3ToMte2 ;;
    Wait_ stateShiftMte3ToMte2.

(** One draft token: double-buffered copy of [x] into the cache line (793-814). *)
Definition WriteBackStateSpec_step (cacheIdx start len channelStart baseDim dim t : Z) : K unit :=
  let stateLen := i32 (td_stateLen td) in
  let curr := Z.land t 1 in
  let next := Z.lxor curr 1 in
  let currBuf := if curr =? 0 then 0 * MAX_BLOCK_DIM else 1 * MAX_BLOCK_DIM in
  let nextBuf := if next =? 0 then 0 * MAX_BLOCK_DIM else 1 * MAX_BLOCK_DIM in
  Wait_ (specWritebackMte2ToMte3 curr) ;;
  when (t + 1 <? len)
    (let xOffsetNext := i32 (start + t + 1) * dim + channelStart in
     when (t >? 0) (Wait_ (specWritebackMte3ToMte2 next)) ;;
     DataCopy szT ring nextBuf (fun _ => xGm e) xOffsetNext baseDim ;;
     Set_ (specWritebackMte2ToMte3 next)) ;;
  let dstOffset := cacheIdx * stateLen * dim + (keep + t) * dim + channelStart in
  DataCopy szT convStates dstOffset (lget ring) currBuf baseDim ;;
  Set_ (specWritebackMte3ToMte2 curr).

Definition WriteBackStateSpec (cacheIdx : Z) (hasInit : bool)
    (stateTokenOffset start len channelStart baseDim dim : Z) : K unit :=
  let width := i32 (td_width td) in
  let stateLen := i32 (td_stateLen td) in
  if len <=? 0 then mret tt
  else if negb (width =? 4) then WriteBackState cacheIdx len channelStart baseDim dim
  else
  let reqStateLen := i32 (keep + len) in
  if reqStateLen >? stateLen then WriteBackState cacheIdx len channelStart baseDim dim
  else
  WriteBackStateSpec_shift cacheIdx hasInit stateTokenOffset channelStart baseDim dim ;;
  DataCopy szT ring (0 * MAX_BLOCK_DIM) (fun _ => xGm e) (start * dim + channelStart) baseDim ;;
  Set_ (specWritebackMte2ToMte3 0) ;;
  for_range 0 len (WriteBackStateSpec_step cacheIdx start len channelStart baseDim dim) ;;
  Wait_ (specWritebackMte3ToMte2 0) ;;
  when (len >? 1) (Wait_ (specWritebackMte3ToMte2 1)).

(** *** Task resolution *)

Definition ResolveSeqTaskWindowByMode (kWindowMode : SeqTaskWindowMode) (seq seqLen : Z) : K (option (Z * Z)) :=
  window ← (match kWindowMode with
            | SEQ_TASK_WINDOW_MODE_VARLEN =>
                startVal ← GetValue (fun _ => queryStartLocGm e) seq;
                endVal ← GetValue (fun _ => queryStartLocGm e) (seq + 1);
                mret (BuildSeqTaskWindowVarlen (i32 startVal) (i32 endVal))
            | SEQ_TASK_WINDOW_MODE_DECODE2D => mret (BuildSeqTaskWindowDecode2D seq)
            | SEQ_TASK_WINDOW_MODE_BATCH => mret (BuildSeqTaskWindowBatch seq seqLen)
            end);
  mret (if negb (win_valid window) then None else Some (win_start window, win_len window)).

Definition ResolveSeqTaskWindow (seq inputMode seqLen : Z) : K (option (Z * Z)) :=
  ResolveSeqTaskWindowByMode (GetSeqTaskWindowMode inputMode) seq seqLen.

Definition ResolveSeqCacheIndex (seq : Z) (hasCacheIndices : bool) : K (option Z) :=
  if negb hasCacheIndices then mret (Some seq)
  else
  cacheIdx64 ← GetValue (fun _ => cacheIndicesGm e) seq;
  mret (if cacheIdx64 =? td_padSlotId td then None else Some (i32 cacheIdx64)).

Definition ResolveSeqHasInit (seq : Z) (hasInitialStateMode : bool) : K bool :=
  if hasInitialStateMode then
    v ← GetValue (fun _ => initialStateModeGm e) seq;
    mret (negb (v =? 0))
  else mret false.

(** *** Update mode: one task per (sequence, channel tile), grid-stride *)

(** The clamped offset into the state of a sequence (942-952). *)
Definition ResolveStateTokenOffset (accepted : Z) : Z :=
  let width := i32 (td_width td) in
  let stateTokenOffset := i32 (accepted - 1) in
  let maxOffset := i32 (td_stateLen td - (width - 1)) in
  if stateTokenOffset <? 0 then 0
  else if stateTokenOffset >? maxOffset then maxOffset
  else stateTokenOffset.

Definition ProcessDefault_task (kWindowMode : SeqTaskWindowMode) (task : Z) : K unit :=
  let dim := i32 (td_dim td) in
  let seqLen := i32 (td_seqLen td) in
  let baseDim := i32 (td_baseDim td) in
  let baseDimCnt := i32 (td_baseDimCnt td) in
  let hasCacheIndices := negb (td_hasCacheIndices td =? 0) in
  let hasInit := true in
  let isSpecDecodingGlobal := IsUpdateSpecDecodingEnabled in
  let seq := i32 (task /c baseDimCnt) in
  let baseDimIdx := i32 (task %c baseDimCnt) in
  let channelStart := i32 (baseDimIdx * baseDim) in
  if channelStart >=? dim then mret tt
  else
  let curBaseDim := if i32 (channelStart + baseDim) <=? dim then baseDim else dim - channelStart in
  window ← ResolveSeqTaskWindowByMode kWindowMode seq seqLen;
  match window with
  | None => mret tt
  | Some (start, len) =>
      cache ← ResolveSeqCacheIndex seq hasCacheIndices;
      match cache with
      | None => mret tt
      | Some cacheIdx =>
          stateTokenOffset ←
            (if isSpecDecodingGlobal then
               accepted ← GetValue (fun _ => numAcceptedTokensGm e) seq;
               mret (ResolveStateTokenOffset (i32 accepted))
             else mret 0);
          LoadWeightAndBias channelStart curBaseDim ;;
          InitRing cacheIdx hasInit stateTokenOffset start len channelStart curBaseDim dim ;;
          RunSeq start len channelStart curBaseDim dim ;;
          (if isSpecDecodingGlobal then
             DrainTaskMte3 ;;
             WriteBackStateSpec cacheIdx hasInit stateTokenOffset start len channelStart curBaseDim dim
           else WriteBackState cacheIdx len channelStart curBaseDim dim) ;;
          DrainTaskMte3
      end
  end.

Definition ProcessDefaultByWindowMode (kWindowMode : SeqTaskWindowMode) : K unit :=
  let batch := i32 (td_batch td) in
  let baseDim := i32 (td_baseDim td) in
  let baseDimCnt := i32 (td_baseDimCnt td) in
  let width := i32 (td_width td) in
  if (baseDim <=? 0) || (baseDimCnt <=? 0) || (baseDim >? MAX_BLOCK_DIM) || (width <? 2) || (width >? MAX_WIDTH)
  then mret tt
  else
  let gridSize := batch * baseDimCnt in
  for_step (GetBlockIdx e) gridSize (GetBlockNum e) (ProcessDefault_task kWindowMode).

Definition ProcessDefault : K unit :=
  ProcessDefaultByWindowMode (GetSeqTaskWindowMode (i32 (td_inputMode td))).

(** [CausalConv1dUpdate::Process]. *)
Definition UpdateProcess : K unit :=
  let dim := i32 (td_dim td) in
  let baseDimCnt := i32 (td_baseDimCnt td) in
  let width := i32 (td_width td) in
  let baseDim := i32 (td_baseDim td) in
  if (baseDim <=? 0) || (baseDimCnt <=? 0) || (baseDim >? MAX_BLOCK_DIM) || (width <? 2) || (width >? MAX_WIDTH) ||
     (dim <=? 0) || (td_batch td <=? 0) then mret tt
  else ProcessDefault.

(** *** Fn mode: one token tile and channel tile per core *)

(** The binary search of [FindVarlenSeqByToken]; [batch] steps suffice. *)
Fixpoint FindVarlenSeqByToken_loop (fuel : nat) (tokenIdx left right : Z) : K Z :=
  match fuel with
  | O => mret left
  | S fuel' =>
      if left <? right then
        let mid := left + Z.shiftr (right - left) 1 in
        endVal ← GetValue (fun _ => queryStartLocGm e) (mid + 1);
        if tokenIdx <? i32 endVal then FindVarlenSeqByToken_loop fuel' tokenIdx left mid
        else FindVarlenSeqByToken_loop fuel' tokenIdx (mid + 1) right
      else mret left
  end.
Definition FindVarlenSeqByToken (tokenIdx : Z) : K Z :=
  let right := i32 (td_batch td) in
  FindVarlenSeqByToken_loop (Z.to_nat right) tokenIdx 0 right.

(** The references [startSeq] and [endSeq] are written before the final test:
    result and both references. *)
Definition ResolveExplicitTokenTileSeqRange (tokenTileId startSeq0 endSeq0 : Z) : bool * Z * Z :=
  if negb HasExplicitFnTokenSeqRanges || (tokenTileId <? 0) ||
     (tokenTileId >=? td_explicitTokenSeqRangeCount td) then (false, startSeq0, endSeq0)
  else
  let startSeq := i32 (nth (Z.to_nat tokenTileId) (td_tokenTileStartSeq td) 0) in
  let endSeq := i32 (nth (Z.to_nat tokenTileId) (td_tokenTileEndSeq td) 0) in
  ((startSeq >=? 0) && (endSeq >=? startSeq), startSeq, endSeq).

(** One history slot (119-137): copied from [x] inside the sequence, from the
    snapshot or the state before it, zero without an initial state. *)
Definition InitRingSeqSplit_history (seq cacheIdx : Z) (hasInit : bool)
    (seqStart tileStart channelStart baseDim dim i : Z) : K unit :=
  let stateLen := i32 (td_stateLen td) in
  let width := i32 (td_width td) in
  let historyCount := width - 1 in
  let ringStart := MAX_WIDTH - width in
  let historyStartTok := tileStart - historyCount in
  let srcTok := historyStartTok + i in
  let xHistoryOffset := historyStartTok * dim + channelStart + i * dim in
  let histSlot := (ringStart + i) * MAX_BLOCK_DIM in
  if srcTok >=? seqStart then
    DataCopy szT ring histSlot (fun _ => xGm e) xHistoryOffset baseDim
  else if hasInit then
    let statePos := srcTok - seqStart + historyCount in
    let stateOffset := cacheIdx * stateLen * dim + channelStart + statePos * dim in
    if negb (td_hasInitStateWorkspace td =? 0) then
      let snapshotOffset := (seq * historyCount + statePos) * dim + channelStart in
      DataCopy szT ring histSlot (lget initStateWorkspace) snapshotOffset baseDim
    else DataCopy szT ring histSlot (lget convStates) stateOffset baseDim
  else Duplicate ring histSlot zeroT baseDim.

(** [hasGmHistoryCopy]: some history slot was filled by a copy. *)
Definition hasGmHistoryCopy (hasInit : bool) (seqStart tileStart : Z) : bool :=
  let historyCount := i32 (td_width td) - 1 in
  existsb (fun i => (tileStart - historyCount + i >=? seqStart) || hasInit) (zrange 0 historyCount).

Definition InitRingSeqSplit (seq cacheIdx : Z) (hasInit : bool)
    (seqStart tileStart tileLen channelStart baseDim dim : Z) : K unit :=
  let width := i32 (td_width td) in
  let historyCount := width - 1 in
  let ringStart := MAX_WIDTH - width in
  for_range 0 ringStart (fun i => Duplicate ring (i * MAX_BLOCK_DIM) zeroT baseDim) ;;
  for_range 0 historyCount
    (InitRingSeqSplit_history seq cacheIdx hasInit seqStart tileStart channelStart baseDim dim) ;;
  when (hasGmHistoryCopy hasInit seqStart tileStart) (Set_ stateMte2ToV ;; Wait_ stateMte2ToV) ;;
  InitRing_first tileStart tileLen channelStart baseDim dim.

Definition MaybeWriteBackSeqSplitTailChunk (chunkStart chunkLen seqStart seqLen cacheIdx channelStart baseDim dim : Z)
    : K unit :=
  if negb (i32 (chunkStart + chunkLen) =? i32 (seqStart + seqLen)) then mret tt
  else
  DrainTaskMte3 ;;
  WriteBackState cacheIdx chunkLen channelStart baseDim dim.

Definition ProcessFnChunk (seq cacheIdx : Z) (hasInit : bool)
    (seqStart seqLen chunkStart chunkLen channelStart baseDim dim : Z) : K unit :=
  LoadWeightAndBias channelStart baseDim ;;
  InitRingSeqSplit seq cacheIdx hasInit seqStart chunkStart chunkLen channelStart baseDim dim ;;
  RunSeq chunkStart chunkLen channelStart baseDim dim ;;
  MaybeWriteBackSeqSplitTailChunk chunkStart chunkLen seqStart seqLen cacheIdx channelStart baseDim dim ;;
  DrainTaskMte3.

(** One row of a state (216-223), through the first ring slot. *)
Definition PrefetchInitStatesToWorkspace_row (stateOffset snapshotOffset baseDimSize : Z) : K unit :=
  let tmpBuf := 0 * MAX_BLOCK_DIM in
  DataCopy szT ring tmpBuf (lget convStates) stateOffset baseDimSize ;;
  Set_ initSnapshotMte2ToMte3 ;;
  Wait_ initSnapshotMte2ToMte3 ;;
  DataCopy szT initStateWorkspace snapshotOffset (lget ring) tmpBuf baseDimSize ;;
  Set_ initSnapshotMte3ToMte2 ;;
  Wait_ initSnapshotMte3ToMte2.

Definition PrefetchInitStatesToWorkspace (channelStart baseDimSize : Z) : K unit :=
  if td_hasInitStateWorkspace td =? 0 then mret tt
  else
  let dim := i32 (td_dim td) in
  let historyCount := i32 (td_width td - 1) in
  let batch := i32 (td_batch td) in
  let hasCacheIndices := negb (td_hasCacheIndices td =? 0) in
  let hasInitialStateMode := negb (td_hasInitialStateMode td =? 0) in
  for_range 0 batch (fun seq =>
    hasInit ← ResolveSeqHasInit seq hasInitialStateMode;
    if negb hasInit then mret tt
    else
    cache ← ResolveSeqCacheIndex seq hasCacheIndices;
    match cache with
    | None => mret tt
    | Some cacheIdx =>
        let stateBaseOffset := cacheIdx * td_stateLen td * dim + channelStart in
        let snapshotBaseOffset := seq * historyCount * dim + channelStart in
        for_range 0 historyCount (fun statePos =>
          PrefetchInitStatesToWorkspace_row (stateBaseOffset + statePos * dim) (snapshotBaseOffset + statePos * dim)
            baseDimSize)
    end).

(** The task of this core. *)
Definition FnBlockTask : FnDirectBlockTask :=
  ResolveFnDirectBlockTask (i32 (GetBlockIdx e)) (i32 (td_tokenBlockCnt td)) (i32 (td_tokenBlockSize td))
    (i32 (td_cuSeqlen td)) (i32 (td_baseDimCnt td)) (i32 (td_baseDim td)) (i32 (td_dim td)).

(** The loop over the sequences of the tile (267-303): [seq] grows by one in
    every iteration, so [seqUpperBound - seq] iterations suffice. *)
Fixpoint FnTile_loop (fuel : nat) (task : FnDirectBlockTask) (seqUpperBound seq cursor : Z) : K unit :=
  match fuel with
  | O => mret tt
  | S fuel' =>
      if (cursor <? fbt_tokenEnd task) && (seq <? seqUpperBound) then
        let dim := i32 (td_dim td) in
        let seqLen := i32 (td_seqLen td) in
        let hasCacheIndices := negb (td_hasCacheIndices td =? 0) in
        let hasInitialStateMode := negb (td_hasInitialStateMode td =? 0) in
        window ← ResolveSeqTaskWindow seq (i32 (td_inputMode td)) seqLen;
        match window with
        | None => FnTile_loop fuel' task seqUpperBound (seq + 1) cursor
        | Some (seqStart, curSeqLen) =>
            let curSeqEnd := i32 (seqStart + curSeqLen) in
            let cursor1 := if cursor <? seqStart then seqStart else cursor in
            if cursor1 >=? curSeqEnd then FnTile_loop fuel' task seqUpperBound (seq + 1) cursor1
            else
            let tileEnd := if fbt_tokenEnd task <=? curSeqEnd then fbt_tokenEnd task else curSeqEnd in
            let tileLen := tileEnd - cursor1 in
            if tileLen <=? 0 then FnTile_loop fuel' task seqUpperBound (seq + 1) cursor1
            else
            cache ← ResolveSeqCacheIndex seq hasCacheIndices;
            match cache with
            | None => FnTile_loop fuel' task seqUpperBound (seq + 1) tileEnd
            | Some cacheIdx =>
                hasInit ← ResolveSeqHasInit seq hasInitialStateMode;
                ProcessFnChunk seq cacheIdx hasInit seqStart curSeqLen cursor1 tileLen
                  (fbt_channelStart task) (fbt_baseDimSize task) dim ;;
                FnTile_loop fuel' task seqUpperBound (seq + 1) tileEnd
            end
        end
      else mret tt
  end.

(** [ProcessVarlenTokenTiled] up to its [SyncAll] ... *)
Definition FnSnapshotPhase : K unit :=
  when (negb (td_hasInitStateWorkspace td =? 0))
    (when (IsFnInitStateSnapshotOwnerBlock FnBlockTask)
       (PrefetchInitStatesToWorkspace (fbt_channelStart FnBlockTask) (fbt_baseDimSize FnBlockTask))).

(** ... and after it. *)
Definition FnTilePhase : K unit :=
  let task := FnBlockTask in
  if negb (fbt_valid task) then mret tt
  else
  let batch := i32 (td_batch td) in
  let seqLen := i32 (td_seqLen td) in
  range ← (if td_inputMode td =? 0 then
             let '(ok, seq, seqUpperBound) :=
               ResolveExplicitTokenTileSeqRange (fbt_tokenTileId task) 0 batch in
             if negb ok then
               seq' ← FindVarlenSeqByToken (fbt_tokenStart task);
               mret (seq', seqUpperBound)
             else mret (seq, seqUpperBound)
           else mret (if seqLen >? 0 then fbt_tokenStart task /c seqLen else 0, batch));
  FnTile_loop (Z.to_nat (range.2 - range.1)) task range.2 range.1 (fbt_tokenStart task).
End Kernel.
