(* ===== verification/Conv1dKernelLemmas.v ===== *)
(** Proof infrastructure for the causal_conv1d kernel: rows of the unified
    buffer, symbolic execution of its instructions, and the ring-slot algebra. *)

From S2P Require Import Prelude AscendC Conv1dTypes Conv1dElem Conv1dKernel.

(** ** Ring slots *)

Lemma SlotCurr_mod t : 0 <= t -> t + 4 <= INT32_MAX -> SlotCurr t = (t + 3) mod 5.
Proof.
  unfold SlotCurr, RING_SLOTS, INT32_MAX. intros. rewrite i32_id by (unfold fits_i32; lia).
  by rewrite rem_nonneg_mod by lia.
Qed.

Lemma SlotPrefetch_mod t : 0 <= t -> t + 4 <= INT32_MAX -> SlotPrefetch t = (t + 1 + 3) mod 5.
Proof.
  unfold SlotPrefetch, RING_SLOTS, INT32_MAX. intros. rewrite i32_id by (unfold fits_i32; lia).
  rewrite rem_nonneg_mod by lia. f_equal. lia.
Qed.

Lemma SlotHist_mod t i : 0 <= t -> t + 4 <= INT32_MAX -> 0 <= i <= 3 -> SlotHist t i = (t - i + 3) mod 5.
Proof.
  unfold SlotHist, RING_SLOTS, INT32_MAX. intros. rewrite (i32_id (t + 3)) by (unfold fits_i32; lia).
  rewrite i32_id by (unfold fits_i32; lia). rewrite rem_nonneg_mod by lia. f_equal. lia.
Qed.

Lemma RetreatRingSlot_mod t d : -3 <= t - d -> 0 <= d <= 3 -> RetreatRingSlot ((t + 3) mod 5) d = (t - d + 3) mod 5.
Proof. intros. unfold RetreatRingSlot, RING_SLOTS. case_if; zlia. Qed.

Lemma slot_bound k : 0 <= (k + 3) mod 5 < 5.
Proof. apply Z.mod_pos_bound. lia. Qed.

(** Two tokens fewer than five apart have different slots. *)
Lemma slot_ne k k' : k <> k' -> -5 < k - k' < 5 -> (k + 3) mod 5 <> (k' + 3) mod 5.
Proof. intros. zlia. Qed.

Section Lemmas.
Context {T F : Type} `{ElemOps T F} `{!HalfLaws T F}.
Implicit Types s : KS T F.
Abbreviation K := (M (KS T F) fault_kind).

(** ** Rows *)

Definition rrow s (r c : Z) : T := row MAX_BLOCK_DIM (inBuf (ub s)) r c.
Definition orow s (r c : Z) : T := row MAX_BLOCK_DIM (outBuf (ub s)) r c.
Definition crow s (r c : Z) : F := row MAX_BLOCK_DIM (calcBuf (ub s)) r c.

(** The buffer sizes of [InitSharedBuffersAndEvents]. *)
Definition ub_ok s : Prop :=
  t_len (inBuf (ub s)) = RING_SLOTS * MAX_BLOCK_DIM /\
  t_len (outBuf (ub s)) = 2 * MAX_BLOCK_DIM /\
  t_len (calcBuf (ub s)) = (MAX_WIDTH + 4) * MAX_BLOCK_DIM.

(** ** The half-cell view of the calculation buffer *)

Lemma as_halves_len (t : tensor F) : t_len (as_halves t : tensor T) = 2 * t_len t.
Proof. done. Qed.

Lemma of_halves_write_len (t : tensor F) off n f :
  t_len (of_halves (write_range (as_halves t) off n f)) = t_len t.
Proof. unfold of_halves, write_range, as_halves. cbn [t_len]. rewrite Z.mul_comm. apply Z.div_mul. lia. Qed.

Lemma as_of_halves (t : tensor T) k : t_at (as_halves (of_halves t : tensor F)) k = t_at t k.
Proof.
  unfold as_halves, of_halves. simpl. pose proof (Z.div_mod k 2 ltac:(lia)).
  pose proof (Zmod_odd k) as Ho. destruct (Z.odd k).
  - rewrite half_hi. f_equal. lia.
  - rewrite half_lo. f_equal. lia.
Qed.

Lemma of_as_halves (t : tensor F) i : t_at (of_halves (as_halves t)) i = t_at t i.
Proof.
  unfold as_halves, of_halves. simpl.
  replace (Z.odd (2 * i)) with false by (rewrite Z.odd_mul; done).
  replace (Z.odd (2 * i + 1)) with true by (rewrite Z.odd_add, Z.odd_mul; done).
  replace (2 * i / 2) with i by zlia. replace ((2 * i + 1) / 2) with i by zlia.
  apply join_half.
Qed.

(** A write to 16-bit cells leaves the 32-bit cells outside it alone. *)
Lemma of_halves_write_out (t : tensor F) off n f i :
  2 * i + 1 < off \/ off + n <= 2 * i ->
  t_at (of_halves (write_range (as_halves t) off n f)) i = t_at t i.
Proof.
  intros Hi. rewrite <- (of_as_halves t i). unfold of_halves. cbn [t_at].
  rewrite !write_range_out by lia. done.
Qed.

Lemma as_halves_ext (t t' : tensor F) k :
  t_at t (k / 2) = t_at t' (k / 2) -> t_at (as_halves t) k = t_at (as_halves t') k.
Proof. intros Heq. unfold as_halves. simpl. by rewrite Heq. Qed.

(** ** Symbolic execution *)

Lemma set_flags_same s : lset events (flags (ub s)) s = s.
Proof. by destruct s as [[] ?]. Qed.

(** A flag raised and waited for at once leaves the state as it was. *)
Lemma wp_SetWait ev (Q : unit -> KS T F -> Prop) s :
  ev ∉ flags (ub s) -> Q tt s -> wp (Set_ ev ≫= fun _ => Wait_ ev) Q s.
Proof.
  intros Hev HQ. apply wp_bind, wp_SetFlag; [done|]. apply wp_WaitFlag; [simpl; set_solver|].
  simpl. rewrite flag_raise_clear by done. destruct s as [[] ?]. exact HQ.
Qed.

Lemma wp_SetWait_seq {B} ev (m : K B) (Q : B -> KS T F -> Prop) s :
  ev ∉ flags (ub s) -> wp m Q s -> wp (Set_ ev ≫= fun _ => Wait_ ev ≫= fun _ => m) Q s.
Proof.
  intros Hev HQ. apply wp_bind, wp_SetFlag; [done|]. apply wp_bind, wp_WaitFlag; [simpl; set_solver|].
  simpl. rewrite flag_raise_clear by done. destruct s as [[] ?]. exact HQ.
Qed.

Lemma DrainTaskMte3_spec s (Q : unit -> KS T F -> Prop) : flags (ub s) = ∅ -> Q tt s -> wp DrainTaskMte3 Q s.
Proof. intros Hf HQ. apply wp_SetWait_seq; [rewrite Hf; set_solver|]. apply wp_SetWait; [rewrite Hf; set_solver|done]. Qed.

(** A copy that is a whole number of 32-byte blocks of 16-bit elements. *)
Lemma block_aligned_16 n : 0 <= n -> n mod 16 = 0 -> block_aligned 2 n = true.
Proof. intros. unfold block_aligned. apply Z.eqb_eq. zlia. Qed.
End Lemmas.

(** Unfolds the lenses of the kernel state. *)
Ltac ks_simpl :=
  cbn [lget lset ring outT calc calcT convStates y initStateWorkspace events on_ub on_gm ub gm
       inBuf outBuf calcBuf flags convStatesGm yGm initStateWorkspaceGm] in *.

(** Side conditions of data movement: ranges inside their tensors. *)
Ltac in_range :=
  apply in_tensor_true; ks_simpl; rewrite ?write_range_len, ?of_halves_write_len, ?as_halves_len;
  unfold ub_ok, RING_SLOTS, MAX_WIDTH, MAX_BLOCK_DIM in *; ks_simpl; try lia; try nia.
