(* ===== verification/Conv1dLoad.v ===== *)
(** What the loading stages of a kernel task leave in the unified buffer: the
    weights and bias in single precision, and the ring with the history and the
    first token of the task. *)

From S2P Require Import Prelude AscendC Conv1dTypes Conv1dElem Conv1dKernel Conv1dKernelLemmas.

Section Load.
Context {T F : Type} `{ElemOps T F} `{!HalfLaws T F}.
Variable e : KernelEnv T.
Abbreviation td := (tilingData e).
Implicit Types s : KS T F.

(** ** In-place widening *)

(** The calculation buffer changed, and nothing else. *)
Definition calc_only s s' : Prop :=
  gm s' = gm s /\ inBuf (ub s') = inBuf (ub s) /\ outBuf (ub s') = outBuf (ub s) /\
  flags (ub s') = flags (ub s) /\ t_len (calcBuf (ub s')) = t_len (calcBuf (ub s)).

#[global] Instance calc_only_preorder : PreOrder calc_only.
Proof.
  split; [by intros s|]. intros s1 s2 s3 (?&?&?&?&?) (?&?&?&?&?). unfold calc_only. split_and!; congruence.
Qed.

Lemma calc_only_ub_ok s s' : calc_only s s' -> ub_ok s -> ub_ok s'.
Proof. intros (_ & H1 & H2 & _ & H3) (?&?&?). unfold ub_ok. rewrite H1, H2, H3. done. Qed.

(** The repeats of a cast whose source is the upper half of its own row: a
    repeat never overwrites elements that a later one still has to read. *)
Lemma CastRepeats_spec r n s :
  ub_ok s -> 0 <= r < 8 -> 0 < n <= MAX_BLOCK_DIM ->
  let doff := r * MAX_BLOCK_DIM in
  let soff := 2 * doff + MAX_BLOCK_DIM in
  wp (CastRepeats doff soff n)
     (fun _ s' => calc_only s s' /\
        (forall c, 0 <= c < n ->
           t_at (calcBuf (ub s')) (doff + c) = castUp (t_at (as_halves (calcBuf (ub s))) (soff + c))) /\
        (forall i, i < doff \/ doff + n <= i -> t_at (calcBuf (ub s')) i = t_at (calcBuf (ub s)) i)) s.
Proof.
  intros Hok Hr Hn doff soff. unfold CastRepeats.
  replace (n + 63) with (n + 64 - 1) by lia. pose proof (ceil_quot_spec n 64 ltac:(lia) ltac:(lia)) as Hq.
  set (reps := (n + 64 - 1) /c 64) in *. unfold MAX_BLOCK_DIM in Hn.
  apply (wp_for_range (fun k s' => calc_only s s' /\
    (forall c, 0 <= c < Z.min (64 * k) n ->
       t_at (calcBuf (ub s')) (doff + c) = castUp (t_at (as_halves (calcBuf (ub s))) (soff + c))) /\
    (forall i, i < doff \/ doff + Z.min (64 * k) n <= i -> t_at (calcBuf (ub s')) i = t_at (calcBuf (ub s)) i))).
  - lia.
  - split; [done|]. split; [lia|done].
  - intros k s' Hk (Hsame & Hdone & Hkeep).
    pose proof (calc_only_ub_ok _ _ Hsame Hok) as Hok'.
    apply wp_vec1; [in_range|unfold doff, soff in *; in_range|]. ks_simpl. split_and!.
    + etrans; [exact Hsame|]. by repeat split.
    + intros c Hc. destruct (decide (c < 64 * k)) as [Hlt|Hge].
      * rewrite write_range_out by lia. apply Hdone. lia.
      * replace (doff + c) with (doff + 64 * k + (c - 64 * k)) by lia.
        rewrite write_range_in by lia. f_equal.
        replace (soff + 64 * k + (c - 64 * k)) with (soff + c) by lia.
        apply as_halves_ext, Hkeep. right. unfold soff, MAX_BLOCK_DIM.
        apply Z.div_le_lower_bound; lia.
    + intros i Hi. rewrite write_range_out by lia. apply Hkeep. lia.
  - intros s' (Hsame & Hdone & Hkeep). split; [done|]. split.
    + intros c Hc. apply Hdone. lia.
    + intros i Hi. apply Hkeep. lia.
Qed.

(** ** The problem a launch poses to a core *)

(** Sizes of the tensors against the tiling record, all indexable in 32 bits. *)
Record env_ok : Prop := {
  eo_width : 2 <= td_width td <= 4;
  eo_dim : 0 < td_dim td <= INT32_MAX;
  eo_state : td_width td - 1 <= td_stateLen td <= INT32_MAX;
  eo_weight : t_len (weightGm e) = td_width td * td_dim td;
  eo_bias : HasBias e = true -> t_len (biasGm e) = td_dim td;
  eo_tokens : 0 <= td_cuSeqlen td <= INT32_MAX - 8;
  eo_x : t_len (xGm e) = td_cuSeqlen td * td_dim td }.

(** A channel tile. *)
Definition chan_ok (channelStart baseDim : Z) : Prop :=
  0 <= channelStart /\ 0 < baseDim <= 4096 /\ baseDim mod 16 = 0 /\ channelStart + baseDim <= td_dim td.

(** Weight [i] and bias of channel [ch], in single precision. *)
Definition weight_at (ch i : Z) : F := castUp (t_at (weightGm e) (i * td_dim td + ch)).
Definition bias_at (ch : Z) : F := if HasBias e then castUp (t_at (biasGm e) ch) else zeroF.

(** The rows [LoadWeightAndBias] fills. *)
Definition weights_loaded (channelStart baseDim : Z) s : Prop :=
  forall c, 0 <= c < baseDim ->
    crow s 4 c = bias_at (channelStart + c) /\
    forall i, 0 <= i < td_width td -> crow s (4 - td_width td + i) c = weight_at (channelStart + c) i.

Context (Henv : env_ok).
Variables channelStart baseDim : Z.
Hypothesis Hchan : chan_ok channelStart baseDim.

(** 16-bit source elements parked in the upper half of row [r]. *)
Definition parked s (r : Z) (f : Z -> T) : Prop :=
  forall c, 0 <= c < baseDim ->
    t_at (as_halves (calcBuf (ub s))) (2 * (r * MAX_BLOCK_DIM) + MAX_BLOCK_DIM + c) = f c.

Lemma width_i32 : i32 (td_width td) = td_width td.
Proof. apply i32_id. pose proof (eo_width Henv). unfold fits_i32. lia. Qed.

Lemma dim_i32 : i32 (td_dim td) = td_dim td.
Proof. apply i32_id. pose proof (eo_dim Henv). unfold INT32_MAX in *. unfold fits_i32. lia. Qed.

Lemma stateLen_i32 : i32 (td_stateLen td) = td_stateLen td.
Proof.
  apply i32_id. pose proof (eo_state Henv). pose proof (eo_width Henv). unfold INT32_MAX in *. unfold fits_i32. lia.
Qed.

(** Parking one row of source elements. *)
Lemma park_row r (src : tensor T) soff s :
  ub_ok s -> 0 <= r < 8 -> 0 <= soff -> soff + baseDim <= t_len src ->
  wp (DataCopy 2 calcT (2 * (r * MAX_BLOCK_DIM) + MAX_BLOCK_DIM) (fun _ => src) soff baseDim)
     (fun _ s' => calc_only s s' /\ parked s' r (fun c => t_at src (soff + c)) /\
        forall r' f, 0 <= r' -> r' <> r -> parked s r' f -> parked s' r' f) s.
Proof.
  intros Hok Hr Hs Hlen. destruct Hchan as (Hc & Hb & Hal & Hd). pose proof Hok as (_ & _ & Hcalc).
  apply wp_DataCopy; [apply block_aligned_16; lia|in_range|by apply in_tensor_true; lia|].
  ks_simpl. split_and!.
  - repeat split; ks_simpl. apply of_halves_write_len.
  - intros c Hcc. ks_simpl. rewrite as_of_halves. by rewrite write_range_in.
  - intros r' f Hr0 Hne Hp c Hcc. ks_simpl. rewrite as_of_halves.
    rewrite write_range_out; [by apply Hp|]. unfold MAX_BLOCK_DIM. nia.
Qed.

(** Widening one parked row leaves the other parked rows and cast rows alone. *)
Lemma cast_row r f s :
  ub_ok s -> 0 <= r < 8 -> parked s r f ->
  wp (CastRepeats (r * MAX_BLOCK_DIM) (2 * (r * MAX_BLOCK_DIM) + MAX_BLOCK_DIM) baseDim)
     (fun _ s' => calc_only s s' /\ (forall c, 0 <= c < baseDim -> crow s' r c = castUp (f c)) /\
        (forall r' f', 0 <= r' -> r' <> r -> parked s r' f' -> parked s' r' f') /\
        (forall r' c, r' <> r -> 0 <= c < MAX_BLOCK_DIM -> crow s' r' c = crow s r' c)) s.
Proof.
  intros Hok Hr Hp. destruct Hchan as (Hc & Hb & Hal & Hd).
  eapply wp_mono; [apply CastRepeats_spec; [done|done|unfold MAX_BLOCK_DIM; lia]|].
  intros _ s' (Hsame & Hcast & Hkeep). split_and!; [done| | |].
  - intros c Hcc. unfold crow, row. rewrite Hcast by done. f_equal. by apply Hp.
  - intros r' f' Hr0 Hne Hp' c Hcc. rewrite <- (Hp' c Hcc). apply as_halves_ext, Hkeep.
    unfold MAX_BLOCK_DIM.
    replace ((2 * (r' * 4096) + 4096 + c) / 2) with (r' * 4096 + 2048 + c / 2) by zlia.
    assert (0 <= c / 2 < 2048) by zlia. nia.
  - intros r' c Hne Hcc. unfold crow, row. apply Hkeep. unfold MAX_BLOCK_DIM in *. nia.
Qed.

Lemma zero_row r s :
  ub_ok s -> 0 <= r < 8 ->
  wp (Duplicate calc (r * MAX_BLOCK_DIM) zeroF baseDim)
     (fun _ s' => calc_only s s' /\ (forall c, 0 <= c < baseDim -> crow s' r c = zeroF) /\
        (forall r' c, r' <> r -> 0 <= c < MAX_BLOCK_DIM -> crow s' r' c = crow s r' c)) s.
Proof.
  intros Hok Hr. pose proof Hok as (_ & _ & Hcalc). destruct Hchan as (Hc & Hb & Hal & Hd).
  apply wp_Duplicate; [in_range|]. ks_simpl. split_and!; [by repeat split| |].
  - intros c Hcc. unfold crow. ks_simpl. by rewrite row_write_same.
  - intros r' c Hne Hcc. unfold crow. ks_simpl. apply row_write_other; [done|done|unfold MAX_BLOCK_DIM; lia].
Qed.

(** The three stages: parking the weights, parking the bias, widening. *)
Lemma park_weights s :
  ub_ok s ->
  wp (for_range 0 (td_width td) (fun j =>
        DataCopy 2 calcT (2 * weightF + ((MAX_WIDTH - td_width td + j) * MAX_BLOCK_DIM * 2 + MAX_BLOCK_DIM))
          (fun _ => weightGm e) (j * td_dim td + channelStart) baseDim))
     (fun _ s' => calc_only s s' /\ forall i, 0 <= i < td_width td ->
        parked s' (4 - td_width td + i) (fun c => t_at (weightGm e) (i * td_dim td + channelStart + c))) s.
Proof.
  intros Hok. pose proof (eo_width Henv). pose proof (eo_dim Henv). pose proof (eo_weight Henv).
  destruct Hchan as (Hc & Hb & Hal & Hd).
  apply (wp_for_range (fun j s' => calc_only s s' /\ forall i, 0 <= i < j ->
     parked s' (4 - td_width td + i) (fun c => t_at (weightGm e) (i * td_dim td + channelStart + c))));
    [lia|split; [done|lia]| |done].
  intros j s' Hj (Hsame & Hpark).
  replace (2 * weightF + ((MAX_WIDTH - td_width td + j) * MAX_BLOCK_DIM * 2 + MAX_BLOCK_DIM))
    with (2 * ((4 - td_width td + j) * MAX_BLOCK_DIM) + MAX_BLOCK_DIM) by (unfold weightF, MAX_WIDTH, MAX_BLOCK_DIM; lia).
  eapply wp_mono; [apply park_row; [by eapply calc_only_ub_ok|lia|nia|nia]|].
  intros _ s'' (Hs & Hnew & Hold). split; [by etrans|]. intros i Hi.
  destruct (decide (i = j)) as [-> |Hne]; [exact Hnew|]. apply Hold; [lia|lia|]. apply Hpark. lia.
Qed.

Lemma cast_weights s :
  ub_ok s ->
  (forall i, 0 <= i < td_width td ->
     parked s (4 - td_width td + i) (fun c => t_at (weightGm e) (i * td_dim td + channelStart + c))) ->
  wp (for_range 0 (td_width td) (fun j =>
        CastRepeats (weightF + (MAX_WIDTH - td_width td + j) * MAX_BLOCK_DIM)
          (2 * weightF + ((MAX_WIDTH - td_width td + j) * MAX_BLOCK_DIM * 2 + MAX_BLOCK_DIM)) baseDim))
     (fun _ s' => calc_only s s' /\
        (forall i c, 0 <= i < td_width td -> 0 <= c < baseDim ->
           crow s' (4 - td_width td + i) c = weight_at (channelStart + c) i) /\
        (forall f, parked s 4 f -> parked s' 4 f)) s.
Proof.
  intros Hok Hpark. pose proof (eo_width Henv). destruct Hchan as (Hc & Hb & Hal & Hd).
  apply (wp_for_range (fun j s' => calc_only s s' /\
     (forall i c, 0 <= i < j -> 0 <= c < baseDim -> crow s' (4 - td_width td + i) c = weight_at (channelStart + c) i) /\
     (forall i, j <= i < td_width td ->
        parked s' (4 - td_width td + i) (fun c => t_at (weightGm e) (i * td_dim td + channelStart + c))) /\
     (forall f, parked s 4 f -> parked s' 4 f))); [lia| | |].
  - split_and!; [done|lia|intros i Hi; apply Hpark; lia|done].
  - intros j s' Hj (Hsame & Hdone & Hrest & Hbias).
    replace (weightF + (MAX_WIDTH - td_width td + j) * MAX_BLOCK_DIM) with ((4 - td_width td + j) * MAX_BLOCK_DIM)
      by (unfold weightF, MAX_WIDTH; lia).
    replace (2 * weightF + ((MAX_WIDTH - td_width td + j) * MAX_BLOCK_DIM * 2 + MAX_BLOCK_DIM))
      with (2 * ((4 - td_width td + j) * MAX_BLOCK_DIM) + MAX_BLOCK_DIM) by (unfold weightF, MAX_WIDTH, MAX_BLOCK_DIM; lia).
    eapply wp_mono; [apply cast_row; [by eapply calc_only_ub_ok|lia|apply Hrest; lia]|].
    intros _ s'' (Hs & Hnew & Hpk & Hold). split_and!; [by etrans| | |].
    + intros i c Hi Hcc. destruct (decide (i = j)) as [-> |Hne].
      * rewrite Hnew by done. unfold weight_at. do 2 f_equal. lia.
      * rewrite Hold by (unfold MAX_BLOCK_DIM; lia). apply Hdone; lia.
    + intros i Hi. apply Hpk; [lia|lia|]. apply Hrest. lia.
    + intros f Hf. apply Hpk; [lia|lia|]. by apply Hbias.
  - intros s' (Hsame & Hdone & _ & Hbias). done.
Qed.

Lemma LoadWeightAndBias_spec s :
  ub_ok s -> weightBiasMte2ToV ∉ flags (ub s) ->
  wp (LoadWeightAndBias e channelStart baseDim)
     (fun _ s' => calc_only s s' /\ weights_loaded channelStart baseDim s') s.
Proof.
  intros Hok Hfl. pose proof (eo_width Henv). pose proof (eo_bias Henv) as Hbl.
  destruct Hchan as (Hc & Hb & Hal & Hd).
  unfold LoadWeightAndBias. rewrite width_i32, dim_i32. cbv zeta.
  eapply wp_seq with (P := fun _ s1 => calc_only s s1).
  { apply (wp_for_range (fun _ s1 => calc_only s s1)); [unfold MAX_WIDTH; lia|done| |done].
    intros j s1 Hj Hs. change (weightF + j * MAX_BLOCK_DIM) with (j * MAX_BLOCK_DIM).
    eapply wp_mono; [apply zero_row; [by eapply calc_only_ub_ok|unfold MAX_WIDTH in *; lia]|].
    intros _ s2 (Hs2 & _). by etrans. }
  intros _ s1 Hs1. eapply wp_seq; [apply park_weights; by eapply calc_only_ub_ok|].
  intros _ s2 (Hs2 & Hpk). assert (calc_only s s2) as Hs02 by by etrans. clear s1 Hs1 Hs2.
  eapply wp_seq with (P := fun _ s3 => calc_only s s3 /\
    (forall i, 0 <= i < td_width td ->
       parked s3 (4 - td_width td + i) (fun c => t_at (weightGm e) (i * td_dim td + channelStart + c))) /\
    (HasBias e = true -> parked s3 4 (fun c => t_at (biasGm e) (channelStart + c)))).
  { destruct (HasBias e) eqn:Eb; [|apply wp_when_false; done]. apply wp_when_true; [done|].
    eapply wp_mono; [apply (park_row 4); [by eapply calc_only_ub_ok|lia|lia|rewrite Hbl by done; lia]|].
    intros _ s3 (Hs3 & Hnew & Hold). split_and!; [by etrans| |done].
    intros i Hi. apply Hold; [lia|lia|by apply Hpk]. }
  intros _ s3 (Hs3 & Hpk3 & Hbias3). apply wp_SetWait_seq; [by destruct Hs3 as (_ & _ & _ & -> & _)|].
  eapply wp_seq; [apply cast_weights; [by eapply calc_only_ub_ok|done]|].
  intros _ s4 (Hs4 & Hw4 & Hb4). assert (calc_only s s4) as Hs04 by by etrans. clear s2 Hs02 Hpk Hs4.
  assert (forall i c s5, (forall r' c, r' <> 4 -> 0 <= c < MAX_BLOCK_DIM -> crow s5 r' c = crow s4 r' c) ->
    0 <= i < td_width td -> 0 <= c < baseDim -> crow s5 (4 - td_width td + i) c = weight_at (channelStart + c) i) as Hkeep.
  { intros i c s5 Hsame Hi Hcc. rewrite Hsame by (unfold MAX_BLOCK_DIM; lia). by apply Hw4. }
  unfold weights_loaded, bias_at. destruct (HasBias e) eqn:Eb.
  - eapply wp_seq; [apply wp_when_true, (cast_row 4); [done|by eapply calc_only_ub_ok|lia|by apply Hb4, Hbias3]|].
    intros _ s5 (Hs5 & Hnew & _ & Hold). apply wp_when_false; [done|]. split; [by etrans|]. intros c Hcc.
    split; [by apply Hnew|]. intros i Hi. by apply Hkeep.
  - eapply wp_seq; [by apply wp_when_false with (Q := fun _ s5 => s5 = s4)|]. intros _ s5 ->.
    apply wp_when_true; [done|]. eapply wp_mono; [apply (zero_row 4); [by eapply calc_only_ub_ok|lia]|].
    intros _ s5 (Hs5 & Hnew & Hold). split; [by etrans|]. intros c Hcc.
    split; [by apply Hnew|]. intros i Hi. by apply Hkeep.
Qed.

(** ** The ring of recent tokens *)

(** Global memory, output slots, accumulators and flags are untouched. *)
Definition ring_only s s' : Prop :=
  gm s' = gm s /\ t_len (inBuf (ub s')) = t_len (inBuf (ub s)) /\ outBuf (ub s') = outBuf (ub s) /\
  calcBuf (ub s') = calcBuf (ub s) /\ flags (ub s') = flags (ub s).

#[global] Instance ring_only_preorder : PreOrder ring_only.
Proof.
  split; [by intros s|]. intros s1 s2 s3 (?&?&?&?&?) (?&?&?&?&?). unfold ring_only. split_and!; congruence.
Qed.

Lemma ring_only_ub_ok s s' : ring_only s s' -> ub_ok s -> ub_ok s'.
Proof. intros (_ & H1 & H2 & H3 & _) (?&?&?). unfold ub_ok. rewrite H1, H2, H3. done. Qed.

(** Token [k] of the task, relative to its first token, is in slot
    [(k + 3) mod 5]; [tok k c] is its value in channel [c] of the tile. *)
Definition ring_holds (tok : Z -> Z -> T) (lo hi : Z) s : Prop :=
  forall k c, lo <= k <= hi -> 0 <= c < baseDim -> rrow s ((k + 3) mod 5) c = tok k c.

Lemma copy_to_ring r (src : KS T F -> tensor T) soff s :
  ub_ok s -> 0 <= r < 5 -> 0 <= soff -> soff + baseDim <= t_len (src s) ->
  wp (DataCopy 2 ring (r * MAX_BLOCK_DIM) src soff baseDim)
     (fun _ s' => ring_only s s' /\ (forall c, 0 <= c < baseDim -> rrow s' r c = t_at (src s) (soff + c)) /\
        (forall r' c, r' <> r -> 0 <= c < MAX_BLOCK_DIM -> rrow s' r' c = rrow s r' c)) s.
Proof.
  intros Hok Hr Hs Hlen. pose proof Hok as (Hin & _ & _). destruct Hchan as (Hc & Hb & Hal & Hd).
  apply wp_DataCopy; [apply block_aligned_16; lia|in_range|by apply in_tensor_true; lia|].
  ks_simpl. split_and!; [by repeat split| |].
  - intros c Hcc. unfold rrow. ks_simpl. by rewrite row_write_same.
  - intros r' c Hne Hcc. unfold rrow. ks_simpl. apply row_write_other; [done|done|unfold MAX_BLOCK_DIM; lia].
Qed.

Lemma zero_ring_row r s :
  ub_ok s -> 0 <= r < 5 ->
  wp (Duplicate ring (r * MAX_BLOCK_DIM) zeroT baseDim)
     (fun _ s' => ring_only s s' /\ (forall c, 0 <= c < baseDim -> rrow s' r c = zeroT) /\
        (forall r' c, r' <> r -> 0 <= c < MAX_BLOCK_DIM -> rrow s' r' c = rrow s r' c)) s.
Proof.
  intros Hok Hr. pose proof Hok as (Hin & _ & _). destruct Hchan as (Hc & Hb & Hal & Hd).
  apply wp_Duplicate; [in_range|]. ks_simpl. split_and!; [by repeat split| |].
  - intros c Hcc. unfold rrow. ks_simpl. by rewrite row_write_same.
  - intros r' c Hne Hcc. unfold rrow. ks_simpl. apply row_write_other; [done|done|unfold MAX_BLOCK_DIM; lia].
Qed.

(** The unused slots of a narrow window are cleared. *)
Lemma zero_ring_head s :
  ub_ok s ->
  wp (for_range 0 (MAX_WIDTH - td_width td) (fun i => Duplicate ring (i * MAX_BLOCK_DIM) zeroT baseDim))
     (fun _ s' => ring_only s s') s.
Proof.
  intros Hok. pose proof (eo_width Henv). unfold MAX_WIDTH.
  apply (wp_for_range (fun _ s' => ring_only s s')); [lia|done| |done].
  intros i s1 Hi Hs. eapply wp_mono; [apply zero_ring_row; [by eapply ring_only_ub_ok|lia]|].
  intros _ s2 (Hs2 & _). by etrans.
Qed.

(** Filling the history slots one by one: [fill i] must leave [hist i] in slot
    [4 - width + i] and nothing else changed. *)
Lemma fill_history (fill : Z -> M (KS T F) fault_kind unit) (hist : Z -> Z -> T) s :
  ub_ok s ->
  (forall i s1, 0 <= i < td_width td - 1 -> ring_only s s1 ->
     wp (fill i) (fun _ s2 => ring_only s1 s2 /\
        (forall c, 0 <= c < baseDim -> rrow s2 (4 - td_width td + i) c = hist i c) /\
        (forall r c, r <> 4 - td_width td + i -> 0 <= c < MAX_BLOCK_DIM -> rrow s2 r c = rrow s1 r c)) s1) ->
  wp (for_range 0 (td_width td - 1) fill)
     (fun _ s' => ring_only s s' /\ ring_holds (fun k => hist (k + (td_width td - 1))) (- (td_width td - 1)) (-1) s') s.
Proof.
  intros Hok Hfill. pose proof (eo_width Henv). destruct Hchan as (_ & Hb & _ & _).
  apply (wp_for_range (fun i s' => ring_only s s' /\
    forall j c, 0 <= j < i -> 0 <= c < baseDim -> rrow s' (4 - td_width td + j) c = hist j c));
    [lia|split; [done|lia]| |].
  - intros i s1 Hi (Hs1 & Hdone). eapply wp_mono; [by apply Hfill|].
    intros _ s2 (Hs2 & Hnew & Hold). split; [by etrans|]. intros j c Hj Hc.
    destruct (decide (j = i)) as [-> |Hne]; [by apply Hnew|].
    rewrite Hold by (unfold MAX_BLOCK_DIM; lia). apply Hdone; lia.
  - intros s' (Hs' & Hdone). split; [done|]. intros k c Hk Hc.
    rewrite Z.mod_small by lia.
    replace (k + 3) with (4 - td_width td + (k + (td_width td - 1))) by lia. apply Hdone; lia.
Qed.

(** The flags raised when token [t] of a task of [len] tokens is about to be
    processed: the token itself, the permission to prefetch, and the output
    slots still being stored. *)
Definition out_flag (len t : Z) : gset Event :=
  if (0 <=? t) && (t + 2 <? len) then {[ outMte3ToV (Z.land t 1) ]} else ∅.
Definition run_flags (len t : Z) : gset Event :=
  (if t <? len then {[ inputMte2ToV ((t + 3) mod 5) ]} else ∅) ∪
  (if t + 1 <? len then {[ inputVToMte2 ]} else ∅) ∪ (out_flag len (t - 2) ∪ out_flag len (t - 1)).

(** Token [k] of a task that starts at [start]: the history before it, then [x]. *)
Definition task_tok (hist : Z -> Z -> T) (start k c : Z) : T :=
  if k <? 0 then hist (k + (td_width td - 1)) c
  else t_at (xGm e) ((start + k) * td_dim td + channelStart + c).

(** Everything but the ring and the flags. *)
Definition ring_flags_only s s' : Prop :=
  gm s' = gm s /\ t_len (inBuf (ub s')) = t_len (inBuf (ub s)) /\ outBuf (ub s') = outBuf (ub s) /\
  calcBuf (ub s') = calcBuf (ub s).

Lemma InitRing_first_spec hist start len s :
  ub_ok s -> flags (ub s) = ∅ -> 0 <= start -> 0 < len -> start + len <= td_cuSeqlen td ->
  ring_holds (fun k => hist (k + (td_width td - 1))) (- (td_width td - 1)) (-1) s ->
  wp (InitRing_first e start len channelStart baseDim (td_dim td))
     (fun _ s' => ring_flags_only s s' /\ flags (ub s') = run_flags len 0 /\
        ring_holds (task_tok hist start) (- (td_width td - 1)) 0 s') s.
Proof.
  intros Hok Hfl Hst Hlen Hend Hhist. destruct Hchan as (Hc & Hb & Hal & Hd).
  pose proof (eo_dim Henv). pose proof (eo_x Henv) as Hx. pose proof (eo_width Henv).
  unfold InitRing_first. rewrite !Z.gtb_ltb, (proj2 (Z.ltb_lt 0 len)) by lia. cbn [when].
  change (SlotCurr 0) with 3. cbv zeta. apply wp_bind. apply wp_bind.
  eapply wp_mono; [apply copy_to_ring; [done|lia|nia|rewrite Hx; nia]|].
  intros _ s1 (Hs1 & Hnew & Hold). pose proof Hs1 as (Hg & Hl & Ho & Hcb & Hf). rewrite Hfl in Hf.
  apply wp_SetFlag; [ks_simpl; rewrite Hf; set_solver|].
  assert (forall s2 : KS T F, inBuf (ub s2) = inBuf (ub s1) ->
    ring_holds (task_tok hist start) (- (td_width td - 1)) 0 s2) as Hring.
  { intros s2 Hin k c Hk Hcc. unfold rrow, task_tok. rewrite Hin.
    destruct (k <? 0) eqn:E; bool_prop.
    - rewrite <- (Hhist k c) by lia. rewrite Z.mod_small by lia. apply Hold; [lia|unfold MAX_BLOCK_DIM; lia].
    - assert (k = 0) as -> by lia. change ((0 + 3) mod 5) with 3. rewrite Z.add_0_r. by apply Hnew. }
  destruct (1 <? len) eqn:E1; bool_prop; cbn [when].
  - apply wp_SetFlag; [ks_simpl; rewrite Hf; set_solver|]. ks_simpl. rewrite Hf.
    split_and!; [by repeat split| |by apply Hring].
    unfold run_flags, out_flag. rewrite (proj2 (Z.ltb_lt 0 len)), (proj2 (Z.ltb_lt (0 + 1) len)) by lia.
    simpl. set_solver.
  - apply wp_ret. ks_simpl. rewrite Hf. split_and!; [by repeat split| |by apply Hring].
    unfold run_flags, out_flag. rewrite (proj2 (Z.ltb_lt 0 len)), (proj2 (Z.ltb_ge (0 + 1) len)) by lia.
    simpl. set_solver.
Qed.

(** ** Initial rings *)

(** Position [pos] of the state kept in cache line [cacheIdx]. *)
Definition state_at (g : GM T) (cacheIdx pos ch : Z) : T :=
  t_at (convStatesGm g) (cacheIdx * td_stateLen td * td_dim td + pos * td_dim td + ch).

(** A cache line inside [convStates]. *)
Definition line_ok (g : GM T) (cacheIdx : Z) : Prop :=
  0 <= cacheIdx /\ (cacheIdx + 1) * (td_stateLen td * td_dim td) <= t_len (convStatesGm g).

Lemma state_pos_range g cacheIdx pos :
  line_ok g cacheIdx -> 0 <= pos < td_stateLen td ->
  0 <= cacheIdx * td_stateLen td * td_dim td + pos * td_dim td + channelStart /\
  cacheIdx * td_stateLen td * td_dim td + pos * td_dim td + channelStart + baseDim <= t_len (convStatesGm g).
Proof.
  intros (Hc0 & Hlen) Hpos. destruct Hchan as (Hc & Hb & _ & Hd). pose proof (eo_dim Henv).
  assert (0 <= cacheIdx * td_stateLen td) by nia.
  assert (pos * td_dim td + td_dim td <= td_stateLen td * td_dim td) by nia. nia.
Qed.

(** The start of a task, after its history has been loaded. *)
Lemma InitRing_tail hist start len s s1 :
  ub_ok s -> flags (ub s) = ∅ -> 0 <= start -> 0 < len -> start + len <= td_cuSeqlen td ->
  ring_only s s1 -> ring_holds (fun k => hist (k + (td_width td - 1))) (- (td_width td - 1)) (-1) s1 ->
  wp (InitRing_first e start len channelStart baseDim (td_dim td))
     (fun _ s' => ring_flags_only s s' /\ flags (ub s') = run_flags len 0 /\
        ring_holds (task_tok hist start) (- (td_width td - 1)) 0 s') s1.
Proof.
  intros Hok Hfl Hst Hlen Hend Hs1 Hh. pose proof Hs1 as (Hg & Hl & Ho & Hc & Hf).
  eapply wp_mono; [apply (InitRing_first_spec hist); try done; [by eapply ring_only_ub_ok|congruence]|].
  intros _ s2 ((? & ? & ? & ?) & Hfl2 & Hr). split_and!; [|done|done]. unfold ring_flags_only. split_and!; congruence.
Qed.

Lemma InitRing_spec cacheIdx (hasInit : bool) off start len s :
  ub_ok s -> flags (ub s) = ∅ -> 0 <= start -> 0 < len -> start + len <= td_cuSeqlen td ->
  line_ok (gm s) cacheIdx -> 0 <= off -> off + (td_width td - 1) <= td_stateLen td ->
  wp (InitRing e cacheIdx hasInit off start len channelStart baseDim (td_dim td))
     (fun _ s' => ring_flags_only s s' /\ flags (ub s') = run_flags len 0 /\
        ring_holds (task_tok (fun i c => if hasInit then state_at (gm s) cacheIdx (off + i) (channelStart + c) else zeroT) start)
          (- (td_width td - 1)) 0 s') s.
Proof.
  intros Hok Hfl Hst Hlen Hend Hline Hoff Hoffmax. pose proof (eo_width Henv). pose proof (eo_state Henv).
  unfold INT32_MAX in *.
  unfold InitRing. rewrite width_i32, stateLen_i32. cbv zeta.
  eapply wp_seq; [by apply zero_ring_head|]. intros [] s1 Hs1. destruct hasInit.
  - apply wp_bind. eapply wp_seq.
    { apply (fill_history _ (fun i c => state_at (gm s) cacheIdx (off + i) (channelStart + c)));
        [by eapply ring_only_ub_ok|].
      intros i s2 Hi Hs2. rewrite i32_id by (unfold fits_i32; lia). unfold MAX_WIDTH.
      assert (gm s2 = gm s) as Hg by (etrans; [exact (proj1 Hs2)|exact (proj1 Hs1)]).
      destruct (state_pos_range (gm s) cacheIdx (off + i) Hline ltac:(lia)).
      eapply wp_mono; [apply copy_to_ring; [|lia|lia|ks_simpl; rewrite Hg; lia]|].
      { eapply ring_only_ub_ok; [exact Hs2|]. by eapply ring_only_ub_ok. }
      intros _ s3 (Hs3 & Hnew & Hold). split_and!; [done| |done].
      intros c Hcc. rewrite Hnew by done. ks_simpl. rewrite Hg. unfold state_at. f_equal. lia. }
    intros _ s2 (Hs2 & Hh). assert (ring_only s s2) as Hs02 by by etrans.
    apply wp_SetWait; [destruct Hs02 as (_ & _ & _ & _ & ->); rewrite Hfl; set_solver|].
    by apply (InitRing_tail (fun i c => state_at (gm s) cacheIdx (off + i) (channelStart + c))).
  - eapply wp_seq.
    { apply (fill_history _ (fun _ _ => zeroT)); [by eapply ring_only_ub_ok|].
      intros i s2 Hi Hs2. unfold MAX_WIDTH. apply zero_ring_row; [|lia].
      eapply ring_only_ub_ok; [exact Hs2|]. by eapply ring_only_ub_ok. }
    intros _ s2 (Hs2 & Hh). apply (InitRing_tail (fun _ _ => zeroT)); try done. by etrans.
Qed.

(** History [i] of a chunk that starts at [tileStart] inside the sequence that
    starts at [seqStart]. *)
Definition split_hist (g : GM T) (seq cacheIdx : Z) (hasInit : bool) (seqStart tileStart i c : Z) : T :=
  let srcTok := tileStart - (td_width td - 1) + i in
  if srcTok >=? seqStart then t_at (xGm e) (srcTok * td_dim td + channelStart + c)
  else if hasInit then
    let statePos := srcTok - seqStart + (td_width td - 1) in
    if negb (td_hasInitStateWorkspace td =? 0)
    then t_at (initStateWorkspaceGm g) ((seq * (td_width td - 1) + statePos) * td_dim td + channelStart + c)
    else state_at g cacheIdx statePos (channelStart + c)
  else zeroT.

(** The snapshot area holds [width - 1] rows per sequence. *)
Definition snapshot_ok (g : GM T) (seq : Z) : Prop :=
  td_hasInitStateWorkspace td <> 0 ->
  0 <= seq /\ (seq + 1) * ((td_width td - 1) * td_dim td) <= t_len (initStateWorkspaceGm g).

Lemma InitRingSeqSplit_history_spec seq cacheIdx hasInit seqStart tileStart i s :
  ub_ok s -> line_ok (gm s) cacheIdx -> snapshot_ok (gm s) seq -> 0 <= seqStart <= tileStart ->
  tileStart < td_cuSeqlen td -> 0 <= i < td_width td - 1 ->
  wp (InitRingSeqSplit_history e seq cacheIdx hasInit seqStart tileStart channelStart baseDim (td_dim td) i)
     (fun _ s' => ring_only s s' /\
        (forall c, 0 <= c < baseDim -> rrow s' (4 - td_width td + i) c = split_hist (gm s) seq cacheIdx hasInit seqStart tileStart i c) /\
        (forall r c, r <> 4 - td_width td + i -> 0 <= c < MAX_BLOCK_DIM -> rrow s' r c = rrow s r c)) s.
Proof.
  intros Hok Hline Hsnap Hst Htok Hi. pose proof (eo_width Henv). pose proof (eo_dim Henv).
  pose proof (eo_state Henv). pose proof (eo_x Henv) as Hx. destruct Hchan as (Hc & Hb & _ & Hd).
  unfold InitRingSeqSplit_history, split_hist. rewrite width_i32, stateLen_i32. cbv zeta. unfold MAX_WIDTH.
  set (srcTok := tileStart - (td_width td - 1) + i).
  destruct (srcTok >=? seqStart) eqn:E; bool_prop.
  { eapply wp_mono; [apply copy_to_ring; [done|lia|unfold srcTok in *; nia|rewrite Hx; unfold srcTok in *; nia]|].
    intros _ s' (Hs' & Hnew & Hold). split_and!; [done| |done]. intros c Hcc. rewrite Hnew by done.
    f_equal. unfold srcTok. lia. }
  destruct hasInit; [|apply zero_ring_row; [done|lia]].
  destruct (td_hasInitStateWorkspace td =? 0) eqn:Ew; bool_prop; cbn [negb].
  - destruct (state_pos_range (gm s) cacheIdx (srcTok - seqStart + (td_width td - 1)) Hline ltac:(unfold srcTok in *; lia)).
    eapply wp_mono; [apply copy_to_ring; [done|lia|lia|ks_simpl; lia]|].
    intros _ s' (Hs' & Hnew & Hold). split_and!; [done| |done]. intros c Hcc. rewrite Hnew by done.
    unfold state_at. ks_simpl. f_equal. lia.
  - destruct (Hsnap Ew) as (Hs0 & Hsl).
    assert (0 <= srcTok - seqStart + (td_width td - 1) < td_width td - 1) as Hp by (unfold srcTok in *; lia).
    set (statePos := srcTok - seqStart + (td_width td - 1)) in *.
    assert (0 <= seq * (td_width td - 1)) by nia.
    assert ((seq * (td_width td - 1) + statePos + 1) * td_dim td <= t_len (initStateWorkspaceGm (gm s))) by nia.
    eapply wp_mono; [apply copy_to_ring; [done|lia|nia|ks_simpl; nia]|].
    intros _ s' (Hs' & Hnew & Hold). split_and!; [done|exact Hnew|done].
Qed.

Lemma InitRingSeqSplit_spec seq cacheIdx hasInit seqStart tileStart tileLen s :
  ub_ok s -> flags (ub s) = ∅ -> line_ok (gm s) cacheIdx -> snapshot_ok (gm s) seq ->
  0 <= seqStart <= tileStart -> 0 < tileLen -> tileStart + tileLen <= td_cuSeqlen td ->
  wp (InitRingSeqSplit e seq cacheIdx hasInit seqStart tileStart tileLen channelStart baseDim (td_dim td))
     (fun _ s' => ring_flags_only s s' /\ flags (ub s') = run_flags tileLen 0 /\
        ring_holds (task_tok (split_hist (gm s) seq cacheIdx hasInit seqStart tileStart) tileStart)
          (- (td_width td - 1)) 0 s') s.
Proof.
  intros Hok Hfl Hline Hsnap Hst Hlen Hend. unfold InitRingSeqSplit. rewrite width_i32. cbv zeta.
  eapply wp_seq; [by apply zero_ring_head|]. intros [] s1 Hs1. eapply wp_seq.
  { apply (fill_history _ (split_hist (gm s) seq cacheIdx hasInit seqStart tileStart)); [by eapply ring_only_ub_ok|].
    intros i s2 Hi Hs2. assert (gm s2 = gm s) as Hg by (etrans; [exact (proj1 Hs2)|exact (proj1 Hs1)]).
    rewrite <- Hg. apply InitRingSeqSplit_history_spec; rewrite ?Hg; try done; [|lia].
    eapply ring_only_ub_ok; [exact Hs2|]. by eapply ring_only_ub_ok. }
  intros _ s2 (Hs2 & Hh). assert (ring_only s s2) as Hs02 by by etrans.
  eapply wp_seq with (P := fun _ s3 => s3 = s2).
  { destruct (hasGmHistoryCopy _ _ _ _); [|by apply wp_when_false]. apply wp_when_true; [done|].
    apply wp_SetWait; [|done]. destruct Hs02 as (_ & _ & _ & _ & ->). rewrite Hfl. set_solver. }
  intros _ s3 ->. apply (InitRing_tail (split_hist (gm s) seq cacheIdx hasInit seqStart tileStart)); try done. lia.
Qed.
End Load.
