(* ===== verification/Conv1dRun.v ===== *)
(** The convolution loop of the causal_conv1d kernel: the direct path and the
    rolling path both compute the reference convolution, token by token, and
    leave the ring, the flags and the rest of the memory as the next stage
    expects them. *)

From S2P Require Import Prelude AscendC Conv1dTypes Conv1dElem Conv1dKernel Conv1dKernelLemmas Conv1dLoad.

Section Run.
Context {T F : Type} `{ElemOps T F} `{!HalfLaws T F}.
Variable e : KernelEnv T.
Abbreviation td := (tilingData e).
Implicit Types s : KS T F.
Context (Henv : env_ok e).
Variables channelStart baseDim : Z.
Hypothesis Hchan : chan_ok e channelStart baseDim.

(** ** Vector instructions, row by row *)

(** Row [r] of the calculation buffer now holds [f]; the other rows are kept. *)
Definition crow_set s s' (r : Z) (f : Z -> F) : Prop :=
  calc_only s s' /\ (forall c, 0 <= c < baseDim -> crow s' r c = f c) /\
  (forall r' c, r' <> r -> 0 <= c < MAX_BLOCK_DIM -> crow s' r' c = crow s r' c).

Lemma crow_set_write s r f :
  crow_set s (lset calc (write_range (calcBuf (ub s)) (r * MAX_BLOCK_DIM) baseDim f) s) r f.
Proof.
  destruct Hchan as (_ & Hb & _ & _). split_and!; [by repeat split| |].
  - intros c Hc. unfold crow. ks_simpl. by rewrite row_write_same.
  - intros r' c Hne Hc. unfold crow. ks_simpl. apply row_write_other; [done|done|unfold MAX_BLOCK_DIM; lia].
Qed.

Lemma crow_set_ext s s' r f g :
  (forall c, 0 <= c < baseDim -> f c = g c) -> crow_set s s' r f -> crow_set s s' r g.
Proof. intros Hfg (H1 & H2 & H3). split_and!; [done| |done]. intros c Hc. rewrite H2, Hfg; done. Qed.

Section Ops.
Context (s : KS T F) (Hok : ub_ok s).

Lemma CastIn_spec dst slot : 0 <= dst < 8 -> 0 <= slot < 5 ->
  wp (CastIn (dst * MAX_BLOCK_DIM) slot baseDim)
     (fun _ s' => crow_set s s' dst (fun c => castUp (rrow s slot c))) s.
Proof.
  intros Hd Hs. destruct Hchan as (_ & Hb & _ & _). destruct Hok as (Hi & Ho & Hc).
  apply wp_vec1; [in_range|in_range|]. apply crow_set_write.
Qed.

Lemma Mul_spec dst a b : 0 <= dst < 8 -> 0 <= a < 8 -> 0 <= b < 8 ->
  wp (Mul (dst * MAX_BLOCK_DIM) (a * MAX_BLOCK_DIM) (b * MAX_BLOCK_DIM) baseDim)
     (fun _ s' => crow_set s s' dst (fun c => fmul (crow s a c) (crow s b c))) s.
Proof.
  intros Hd Ha Hbb. destruct Hchan as (_ & Hb & _ & _). destruct Hok as (Hi & Ho & Hc).
  apply wp_vec2; [in_range|in_range|in_range|]. apply crow_set_write.
Qed.

Lemma Add_spec dst a b : 0 <= dst < 8 -> 0 <= a < 8 -> 0 <= b < 8 ->
  wp (Add (dst * MAX_BLOCK_DIM) (a * MAX_BLOCK_DIM) (b * MAX_BLOCK_DIM) baseDim)
     (fun _ s' => crow_set s s' dst (fun c => fadd (crow s a c) (crow s b c))) s.
Proof.
  intros Hd Ha Hbb. destruct Hchan as (_ & Hb & _ & _). destruct Hok as (Hi & Ho & Hc).
  apply wp_vec2; [in_range|in_range|in_range|]. apply crow_set_write.
Qed.

Lemma MulAddDst_spec dst a b : 0 <= dst < 8 -> 0 <= a < 8 -> 0 <= b < 8 ->
  wp (MulAddDst (dst * MAX_BLOCK_DIM) (a * MAX_BLOCK_DIM) (b * MAX_BLOCK_DIM) baseDim)
     (fun _ s' => crow_set s s' dst (fun c => fmuladd (crow s dst c) (crow s a c) (crow s b c))) s.
Proof.
  intros Hd Ha Hbb. destruct Hchan as (_ & Hb & _ & _). destruct Hok as (Hi & Ho & Hc).
  apply wp_vec3; [in_range|in_range|in_range|]. apply crow_set_write.
Qed.

Lemma Adds_spec dst a v : 0 <= dst < 8 -> 0 <= a < 8 ->
  wp (Adds (dst * MAX_BLOCK_DIM) (a * MAX_BLOCK_DIM) v baseDim)
     (fun _ s' => crow_set s s' dst (fun c => fadd (crow s a c) v)) s.
Proof.
  intros Hd Ha. destruct Hchan as (_ & Hb & _ & _). destruct Hok as (Hi & Ho & Hc).
  apply wp_vec1; [in_range|in_range|]. apply crow_set_write.
Qed.

Lemma Silu_spec dst a : 0 <= dst < 8 -> 0 <= a < 8 ->
  wp (Silu (dst * MAX_BLOCK_DIM) (a * MAX_BLOCK_DIM) baseDim)
     (fun _ s' => crow_set s s' dst (fun c => fsilu (crow s a c))) s.
Proof.
  intros Hd Ha. destruct Hchan as (_ & Hb & _ & _). destruct Hok as (Hi & Ho & Hc).
  apply wp_vec1; [in_range|in_range|]. apply crow_set_write.
Qed.

Lemma Zero_spec dst : 0 <= dst < 8 ->
  wp (Duplicate calc (dst * MAX_BLOCK_DIM) zeroF baseDim) (fun _ s' => crow_set s s' dst (fun _ => zeroF)) s.
Proof.
  intros Hd. destruct Hchan as (_ & Hb & _ & _). destruct Hok as (Hi & Ho & Hc).
  apply wp_Duplicate; [in_range|]. apply crow_set_write.
Qed.
End Ops.

Lemma calc_only_rrow s s' r c : calc_only s s' -> rrow s' r c = rrow s r c.
Proof. intros (_ & Hin & _). unfold rrow. by rewrite Hin. Qed.

(** Other rows of a chain of row updates. *)
Definition rows_keep (rows : list Z) s s' : Prop :=
  calc_only s s' /\ forall r c, r ∉ rows -> 0 <= c < MAX_BLOCK_DIM -> crow s' r c = crow s r c.

Lemma rows_keep_refl rows s : rows_keep rows s s.
Proof. by split. Qed.

Lemma rows_keep_step rows s s1 s2 r f :
  rows_keep rows s s1 -> crow_set s1 s2 r f -> r ∈ rows -> rows_keep rows s s2.
Proof.
  intros (H1 & H2) (H3 & _ & H4) Hr. split; [by etrans|]. intros r' c Hr' Hc.
  rewrite H4 by (set_solver || done). by apply H2.
Qed.

(** ** The direct path *)

(** The stream of the task: [tok k c], history for negative [k]. *)
Variable tok : Z -> Z -> T.

Abbreviation W := (td_width td).
Abbreviation ring_window lo hi s := (ring_holds baseDim tok lo hi s).

(** The accumulator after the first [n] taps of token [t]. *)
Definition partial (t n c : Z) : F :=
  conv_acc (HasBias e) (bias_at e (channelStart + c)) (weight_at e (channelStart + c))
    (fun i => castUp (tok (t - (W - 1) + i) c)) (Z.to_nat n).

(** What token [t] produces in channel [c]. *)
Definition out (t c : Z) : T :=
  conv_out (HasActivation e) (HasBias e) (bias_at e (channelStart + c)) W (weight_at e (channelStart + c))
    (fun k => tok k c) t.

Lemma partial_S t n c : 0 <= n ->
  partial t (n + 1) c =
    if negb (HasBias e) && (n =? 0) then fmul (castUp (tok (t - (W - 1)) c)) (weight_at e (channelStart + c) 0)
    else fmuladd (partial t n c) (castUp (tok (t - (W - 1) + n) c)) (weight_at e (channelStart + c) n).
Proof.
  intros Hn. unfold partial. rewrite Z2Nat.inj_add, Nat.add_1_r by lia. cbn [conv_acc].
  replace (Nat.eqb (Z.to_nat n) 0) with (n =? 0).
  - rewrite Z2Nat.id, Z.add_0_r by lia. done.
  - destruct (n =? 0) eqn:E; bool_prop; symmetry; [apply Nat.eqb_eq|apply Nat.eqb_neq]; lia.
Qed.

Lemma out_partial t c : out t c = castRint (if HasActivation e then fsilu (partial t W c) else partial t W c).
Proof. done. Qed.

(** The taps from [i] on complete the accumulator. *)
Lemma RunSeq_taps_spec t : 0 <= t -> t + 8 <= INT32_MAX -> forall n i s, Z.of_nat n = W - i -> 0 <= i ->
  ub_ok s -> weights_loaded e channelStart baseDim s ->
  ring_window (t - (W - 1)) t s ->
  (HasBias e || (0 <? i) = true -> forall c, 0 <= c < baseDim -> crow s 5 c = partial t i c) ->
  wp (RunSeq_taps t (SlotCurr t) baseDim (zrange (4 - W + i) 4) (HasBias e || (0 <? i)))
     (fun _ s' => rows_keep [5; 6] s s' /\ forall c, 0 <= c < baseDim -> crow s' 5 c = partial t W c) s.
Proof.
  intros Ht0 Ht. pose proof (eo_width e Henv) as Hw. pose proof Hchan as (_ & Hb & _ & _).
  induction n as [|n IH]; intros i s Hn Hi Hok Hwl Hring Hacc.
  { assert (i = W) as -> by lia. unfold zrange. rewrite (seqZ_nil) by lia. apply wp_ret.
    split; [apply rows_keep_refl|]. apply Hacc. rewrite (proj2 (Z.ltb_lt 0 W)) by lia. apply orb_true_r. }
  unfold zrange. rewrite seqZ_cons by lia. cbn [RunSeq_taps].
  replace (Z.succ (4 - W + i)) with (4 - W + (i + 1)) by lia.
  replace (Z.pred (4 - (4 - W + i))) with (4 - (4 - W + (i + 1))) by lia.
  fold (zrange (4 - W + (i + 1)) 4). unfold MAX_WIDTH.
  assert ((if 4 - 1 - (4 - W + i) =? 0 then SlotCurr t else SlotHist t (4 - 1 - (4 - W + i))) =
          (t - (W - 1) + i + 3) mod 5) as ->.
  { unfold INT32_MAX in *. case_if; [rewrite SlotCurr_mod by (unfold INT32_MAX; lia)
      |rewrite SlotHist_mod by (unfold INT32_MAX; lia)]; f_equal; lia. }
  pose proof (slot_bound (t - (W - 1) + i)) as Hsl.
  eapply wp_seq; [apply (CastIn_spec s Hok 6); lia|]. intros [] s1 Hs1.
  assert (ub_ok s1) as Hok1 by (eapply calc_only_ub_ok; [apply Hs1|done]).
  assert (forall c, 0 <= c < baseDim -> crow s1 6 c = castUp (tok (t - (W - 1) + i) c)) as Htmp.
  { intros c Hc. destruct Hs1 as (_ & -> & _); [|done]. f_equal. apply Hring; lia. }
  assert (forall c, 0 <= c < baseDim -> crow s1 (4 - W + i) c = weight_at e (channelStart + c) i) as Hwt.
  { intros c Hc. destruct Hs1 as (_ & _ & ->); [|lia|unfold MAX_BLOCK_DIM; lia]. apply Hwl; [done|lia]. }
  eapply wp_seq with (P := fun _ s2 => crow_set s1 s2 5 (fun c => partial t (i + 1) c)).
  { change accF with (5 * MAX_BLOCK_DIM). change tmpF with (6 * MAX_BLOCK_DIM).
    change (weightF + (4 - W + i) * MAX_BLOCK_DIM) with ((4 - W + i) * MAX_BLOCK_DIM).
    destruct (HasBias e || (0 <? i)) eqn:Ea; cbn [negb].
    - eapply wp_mono; [apply (MulAddDst_spec s1 Hok1 5 6 (4 - W + i)); lia|].
      intros [] s2. apply crow_set_ext. intros c Hc. rewrite Htmp, Hwt by done.
      rewrite partial_S by lia. replace (negb (HasBias e) && (i =? 0)) with false.
      + f_equal. rewrite <- (Hacc eq_refl c Hc). destruct Hs1 as (_ & _ & ->); [done|lia|unfold MAX_BLOCK_DIM; lia].
      + symmetry. apply orb_true_iff in Ea as [-> |Ea]; [done|]. bool_prop.
        rewrite (proj2 (Z.eqb_neq i 0)) by lia. apply andb_false_r.
    - apply orb_false_iff in Ea as [Hnb Ei]. bool_prop. assert (i = 0) as -> by lia.
      eapply wp_mono; [apply (Mul_spec s1 Hok1 5 6 (4 - W + 0)); lia|].
      intros [] s2. apply crow_set_ext. intros c Hc. rewrite Htmp, Hwt by done.
      rewrite partial_S by lia. rewrite Hnb. simpl. by rewrite Z.add_0_r. }
  intros [] s2 Hs2. replace true with (HasBias e || (0 <? i + 1)) at 1
    by (rewrite (proj2 (Z.ltb_lt 0 (i + 1))) by lia; apply orb_true_r).
  assert (rows_keep [5; 6] s s2) as Hk2.
  { eapply rows_keep_step; [|exact Hs2|set_solver]. eapply rows_keep_step; [apply rows_keep_refl|exact Hs1|set_solver]. }
  eapply wp_mono; [apply IH; [lia|lia| | | |]|].
  - eapply calc_only_ub_ok; [apply Hk2|done].
  - intros c Hc. destruct Hk2 as (_ & Hk2). destruct (Hwl c Hc) as (Hbias & Hws).
    split; [rewrite Hk2; [done|set_solver|unfold MAX_BLOCK_DIM; lia]|].
    intros j Hj. rewrite Hk2; [by apply Hws|set_solver by lia|unfold MAX_BLOCK_DIM; lia].
  - intros k c Hk Hc. rewrite (calc_only_rrow s s2) by apply Hk2. by apply Hring.
  - intros _ c Hc. by apply Hs2.
  - intros _ s3 (Hk3 & Hacc3). split; [|done]. destruct Hk2 as [Hc2 Hr2], Hk3 as [Hc3 Hr3].
    split; [by etrans|]. intros r c Hr Hc. rewrite Hr3, Hr2; done.
Qed.

Lemma weights_keep rows s s' : rows_keep rows s s' -> (forall r, r ∈ rows -> 4 < r) ->
  weights_loaded e channelStart baseDim s -> weights_loaded e channelStart baseDim s'.
Proof.
  intros (_ & Hk) Hrows Hwl c Hc. pose proof (eo_width e Henv). pose proof Hchan as (_ & Hb & _ & _).
  destruct (Hwl c Hc) as (Hbias & Hws).
  assert (forall r, r <= 4 -> crow s' r c = crow s r c) as Hlow.
  { intros r Hr. apply Hk; [|unfold MAX_BLOCK_DIM; lia]. intros Hin%Hrows. lia. }
  split; [by rewrite Hlow by lia|]. intros i Hi. rewrite Hlow by lia. by apply Hws.
Qed.

Lemma rows_keep_trans rows s1 s2 s3 : rows_keep rows s1 s2 -> rows_keep rows s2 s3 -> rows_keep rows s1 s3.
Proof. intros (H1 & H2) (H3 & H4). split; [by etrans|]. intros r c Hr Hc. rewrite H4, H2; done. Qed.

(** The row the result of the direct path is rounded from. *)
Definition src_row : Z := if HasActivation e then 6 else 5.

Lemma RunSeq_compute_spec t s :
  0 <= t -> t + 8 <= INT32_MAX -> ub_ok s -> weights_loaded e channelStart baseDim s ->
  ring_window (t - (W - 1)) t s ->
  wp (RunSeq_compute e t baseDim)
     (fun _ s' => rows_keep [5; 6] s s' /\ forall c, 0 <= c < baseDim -> castRint (crow s' src_row c) = out t c) s.
Proof.
  intros Ht0 Ht Hok Hwl Hring. pose proof (eo_width e Henv). pose proof Hchan as (_ & Hb & _ & _).
  unfold RunSeq_compute. rewrite (width_i32 e Henv). cbv zeta. unfold MAX_WIDTH.
  eapply wp_seq with (P := fun _ s1 => rows_keep [5; 6] s s1 /\
    (HasBias e = true -> forall c, 0 <= c < baseDim -> crow s1 5 c = partial t 0 c)).
  { destruct (HasBias e) eqn:Eb; [|by apply wp_when_false; [|split; [apply rows_keep_refl|]]].
    apply wp_when_true; [done|]. eapply wp_mono; [apply (Adds_spec s Hok 5 4); lia|].
    intros [] s1 Hs1. split; [by eapply rows_keep_step; [apply rows_keep_refl|exact Hs1|set_solver]|].
    intros _ c Hc. destruct Hs1 as (_ & -> & _); [|done]. unfold partial. simpl. f_equal. by apply Hwl. }
  intros _ s1 (Hk1 & Hacc1).
  assert (zrange (4 - W) 4 = zrange (4 - W + 0) 4) as -> by (f_equal; lia).
  replace (HasBias e) with (HasBias e || (0 <? 0)) at 1 by (destruct (HasBias e); done).
  eapply wp_seq; [apply (RunSeq_taps_spec t) with (n := Z.to_nat W); try lia|].
  - eapply calc_only_ub_ok; [apply Hk1|done].
  - eapply weights_keep; [done| |done]. set_solver by lia.
  - intros k c Hk Hc. rewrite (calc_only_rrow s s1) by apply Hk1. by apply Hring.
  - rewrite orb_false_r. done.
  - intros _ s2 (Hk2 & Hacc2). assert (rows_keep [5; 6] s s2) as Hk by by eapply rows_keep_trans.
    unfold src_row. destruct (HasActivation e) eqn:Ea.
    + apply wp_when_true; [done|].
      assert (ub_ok s2) as Hok2 by (eapply calc_only_ub_ok; [apply Hk|done]).
      eapply wp_mono; [apply (Silu_spec s2 Hok2 6 5); lia|].
      intros [] s3 Hs3. split; [by eapply rows_keep_step; [exact Hk|exact Hs3|set_solver]|].
      intros c Hc. destruct Hs3 as (_ & -> & _); [|done]. by rewrite Hacc2, out_partial, Ea.
    + apply wp_when_false; [done|]. split; [done|]. intros c Hc. by rewrite Hacc2, out_partial, Ea.
Qed.

(** ** The pipeline around the computation *)

(** A task of [len] tokens that starts at token [start] of [x]. *)
Variables start len : Z.
Hypothesis Hstart : 0 <= start.
Hypothesis Hend : start + len <= td_cuSeqlen td.
Hypothesis Htok : forall k c, 0 <= k -> tok k c = t_at (xGm e) ((start + k) * td_dim td + channelStart + c).

Abbreviation lo t := (Z.max (- (W - 1)) (t - 3)).
(** Flags between the prefetch and the wait for the output slot, and after it. *)
Definition mid_flags (t : Z) : gset Event :=
  (if t + 1 <? len then {[ inputMte2ToV ((t + 1 + 3) mod 5) ]} else ∅) ∪ (out_flag len (t - 2) ∪ out_flag len (t - 1)).
Definition late_flags (t : Z) : gset Event :=
  (if t + 1 <? len then {[ inputMte2ToV ((t + 1 + 3) mod 5) ]} else ∅) ∪ out_flag len (t - 1).

Lemma out_flag_not ev t : (forall k, ev <> outMte3ToV k) -> ev ∉ out_flag len t.
Proof. intros Hev. unfold out_flag. case_if; set_solver. Qed.

Lemma RunSeq_input_spec t s :
  0 <= t < len -> ub_ok s -> flags (ub s) = run_flags len t ->
  ring_window (lo t) (Z.min t (len - 1)) s ->
  wp (RunSeq_input e start len channelStart baseDim (td_dim td) t)
     (fun _ s' => ring_flags_only s s' /\ flags (ub s') = mid_flags t /\
        ring_window (lo t) (Z.min (t + 1) (len - 1)) s') s.
Proof.
  intros Ht Hok Hfl Hring. pose proof (eo_tokens e Henv). unfold INT32_MAX in *. pose proof (eo_dim e Henv).
  pose proof (eo_x e Henv) as Hx. pose proof Hchan as (Hc0 & Hb & _ & Hd).
  unfold RunSeq_input. rewrite SlotCurr_mod by (unfold INT32_MAX; lia).
  assert (forall k, inputMte2ToV k ∉ out_flag len (t - 2) ∪ out_flag len (t - 1)) as Hni.
  { intros k. apply not_elem_of_union. split; by apply out_flag_not. }
  assert (inputVToMte2 ∉ out_flag len (t - 2) ∪ out_flag len (t - 1)) as Hnv.
  { apply not_elem_of_union. split; by apply out_flag_not. }
  unfold run_flags in Hfl. unfold mid_flags. set (outs := out_flag len (t - 2) ∪ out_flag len (t - 1)) in *.
  rewrite (proj2 (Z.ltb_lt t len)) in Hfl by lia.
  apply wp_bind, wp_WaitFlag; [ks_simpl; rewrite Hfl; set_solver|]. ks_simpl. rewrite Hfl.
  assert (forall X : gset Event, (forall k, inputMte2ToV k ∉ X) ->
    ({[inputMte2ToV ((t + 3) mod 5)]} ∪ X ∪ outs) ∖ {[inputMte2ToV ((t + 3) mod 5)]} = X ∪ outs) as Hclear
    by (intros X HX; specialize (HX ((t + 3) mod 5)); specialize (Hni ((t + 3) mod 5)); set_solver).
  destruct (t + 1 <? len) eqn:E; bool_prop; rewrite Hclear by set_solver.
  - apply wp_when_true; [done|]. cbv zeta. rewrite SlotPrefetch_mod by (unfold INT32_MAX; lia).
    rewrite i32_id by (unfold fits_i32; lia).
    apply wp_bind, wp_WaitFlag; [ks_simpl; set_solver|]. ks_simpl.
    replace (({[inputVToMte2]} ∪ outs) ∖ {[inputVToMte2]}) with outs by set_solver.
    pose proof (slot_bound (t + 1)) as Hsl.
    eapply wp_seq; [apply (copy_to_ring e channelStart baseDim Hchan); [exact Hok|lia|nia|rewrite Hx; nia]|].
    intros [] s1 (Hs1 & Hnew & Hold). destruct Hs1 as (Hg & Hl & Ho & Hcb & Hf). ks_simpl.
    apply wp_SetFlag; [ks_simpl; rewrite Hf; apply Hni|]. ks_simpl. rewrite Hf.
    split_and!; [by repeat split|done|].
    intros k c Hk Hc. unfold rrow in *. ks_simpl. destruct (decide (k = t + 1)) as [-> |Hne].
    + rewrite Hnew by done. rewrite Htok by lia. f_equal. nia.
    + rewrite Hold by (try apply slot_ne; unfold MAX_BLOCK_DIM; lia). apply Hring; lia.
  - apply wp_when_false; [done|]. ks_simpl. split_and!; [by repeat split|done|].
    intros k c Hk Hc. apply Hring; lia.
Qed.

Lemma land1 t : Z.land t 1 = t mod 2.
Proof. change 1 with (Z.ones 1). rewrite Z.land_ones by lia. done. Qed.

Lemma out_flag_parity t k : outMte3ToV k ∈ out_flag len t -> k = t mod 2 /\ 0 <= t /\ t + 2 < len.
Proof. unfold out_flag. case_if; [|set_solver]. rewrite elem_of_singleton, land1. intros [=]. lia. Qed.

Lemma out_flag_adjacent t : outMte3ToV (Z.land t 1) ∉ out_flag len (t - 1).
Proof. intros (Hk & _)%out_flag_parity. rewrite land1 in Hk. zlia. Qed.

(** The wait for the output slot takes one flag away. *)
Lemma mid_late_flags t : 2 <= t < len ->
  outMte3ToV (Z.land t 1) ∈ mid_flags t /\ mid_flags t ∖ {[ outMte3ToV (Z.land t 1) ]} = late_flags t.
Proof.
  intros Ht. pose proof (out_flag_adjacent t) as Hadj. unfold mid_flags, late_flags.
  assert (out_flag len (t - 2) = {[ outMte3ToV (Z.land t 1) ]}) as ->.
  { unfold out_flag. rewrite (proj2 (Z.leb_le 0 (t - 2))), (proj2 (Z.ltb_lt (t - 2 + 2) len)) by lia. cbn [andb].
    do 2 f_equal. rewrite !land1. zlia. }
  case_if; set_solver.
Qed.

(** Everything but the output slots and the flags. *)
Definition out_flags_only s s' : Prop :=
  gm s' = gm s /\ inBuf (ub s') = inBuf (ub s) /\ calcBuf (ub s') = calcBuf (ub s) /\
  t_len (outBuf (ub s')) = t_len (outBuf (ub s)).

Lemma RunSeq_round_spec t r s :
  0 <= t < len -> 0 <= r < 8 -> ub_ok s -> flags (ub s) = mid_flags t ->
  wp (RunSeq_round t (r * MAX_BLOCK_DIM) baseDim)
     (fun _ s' => out_flags_only s s' /\ flags (ub s') = late_flags t /\
        forall c, 0 <= c < baseDim -> orow s' (Z.land t 1) c = castRint (crow s r c)) s.
Proof.
  intros Ht Hr Hok Hfl. pose proof Hchan as (_ & Hb & _ & _). destruct Hok as (Hi & Ho & Hc).
  assert (0 <= Z.land t 1 < 2) as Hpar by (rewrite land1; apply Z.mod_pos_bound; lia).
  unfold RunSeq_round. cbv zeta. rewrite Z.geb_leb.
  eapply wp_seq with (P := fun _ s1 => s1 = lset events (late_flags t) s).
  { destruct (2 <=? t) eqn:E; bool_prop.
    - destruct (mid_late_flags t) as (Hin & Heq); [lia|].
      apply wp_when_true; [done|]. apply wp_WaitFlag; ks_simpl; rewrite Hfl; [done|]. by rewrite Heq.
    - apply wp_when_false; [done|]. replace (late_flags t) with (flags (ub s)); [by rewrite set_flags_same|].
      rewrite Hfl. unfold mid_flags, late_flags. replace (out_flag len (t - 2)) with (∅ : gset Event);
        [by rewrite union_empty_l_L|]. unfold out_flag. by rewrite (proj2 (Z.leb_gt 0 (t - 2))) by lia. }
  intros _ s1 ->. apply wp_vec1; [in_range|in_range|]. ks_simpl. split_and!; [by repeat split|done|].
  intros c Hcc. unfold orow. ks_simpl. by rewrite row_write_same.
Qed.

(** The state after the store of token [t]. *)
Definition stored s (t : Z) : GM T :=
  Build_GM (convStatesGm (gm s))
    (write_range (yGm (gm s)) ((start + t) * td_dim td + channelStart) baseDim (fun c => orow s (Z.land t 1) c))
    (initStateWorkspaceGm (gm s)).

Lemma RunSeq_store_spec t s :
  0 <= t < len -> ub_ok s -> flags (ub s) = late_flags t -> t_len (yGm (gm s)) = td_cuSeqlen td * td_dim td ->
  wp (RunSeq_store start len channelStart baseDim (td_dim td) t)
     (fun _ s' => gm s' = stored s t /\ inBuf (ub s') = inBuf (ub s) /\ calcBuf (ub s') = calcBuf (ub s) /\
        outBuf (ub s') = outBuf (ub s) /\ flags (ub s') = run_flags len (t + 1)) s.
Proof.
  intros Ht Hok Hfl Hy. pose proof Hchan as (Hc0 & Hb & Hal & Hd). pose proof Hok as (Hi & Ho & Hc).
  pose proof (eo_tokens e Henv). pose proof (eo_dim e Henv). unfold INT32_MAX in *.
  assert (0 <= Z.land t 1 < 2) as Hpar by (rewrite land1; apply Z.mod_pos_bound; lia).
  unfold RunSeq_store. cbv zeta. rewrite i32_id by (unfold fits_i32; lia).
  apply wp_SetWait_seq; [rewrite Hfl; unfold late_flags, out_flag; repeat case_if; set_solver|].
  eapply wp_seq with (P := fun _ s1 => s1 = Build_KS (ub s) (stored s t)).
  { apply wp_DataCopy; [apply block_aligned_16; lia|apply in_tensor_true; ks_simpl; rewrite ?Hy; nia|in_range|].
    ks_simpl. unfold stored, orow, row. done. }
  intros _ s1 ->. pose proof (out_flag_adjacent t) as Hadj.
  assert (forall k, outMte3ToV k ∉ (if t + 1 <? len then {[ inputMte2ToV ((t + 1 + 3) mod 5) ]} else ∅ : gset Event)) as Hin
    by (intros k; case_if; set_solver).
  assert (inputVToMte2 ∉ late_flags t) as Hv by (unfold late_flags, out_flag; repeat case_if; set_solver).
  destruct (t + 2 <? len) eqn:E; bool_prop.
  - apply wp_bind. apply wp_when_true; [done|]. apply wp_SetFlag.
    { ks_simpl. rewrite Hfl. specialize (Hin (Z.land t 1)). unfold late_flags. set_solver. }
    apply wp_when_true; [done|]. apply wp_SetFlag; [ks_simpl; rewrite Hfl; set_solver|].
    ks_simpl. split_and!; try done. rewrite Hfl. unfold run_flags, late_flags, out_flag at 3.
    replace (t + 1 - 1) with t by lia. replace (t + 1 - 2) with (t - 1) by lia.
    replace (t + 1 + 1) with (t + 2) by lia.
    rewrite (proj2 (Z.ltb_lt (t + 1) len)), (proj2 (Z.ltb_lt (t + 2) len)), (proj2 (Z.leb_le 0 t)) by lia.
    set_solver.
  - apply wp_bind. apply wp_when_false; [done|]. apply wp_when_false; [done|].
    ks_simpl. split_and!; try done. rewrite Hfl. unfold run_flags, late_flags, out_flag.
    replace (t + 1 - 1) with t by lia. replace (t + 1 - 2) with (t - 1) by lia.
    replace (t + 1 + 1) with (t + 2) by lia. rewrite (proj2 (Z.ltb_ge (t + 2) len)) by lia.
    rewrite andb_false_r. set_solver.
Qed.

(** ** The loop *)

Definition y_index (t c : Z) : Z := (start + t) * td_dim td + channelStart + c.

(** After [t] tokens: their outputs are in [y], the rest of the memory is as
    it was in [g0]. *)
Definition y_done (g0 : GM T) (t : Z) (g : GM T) : Prop :=
  convStatesGm g = convStatesGm g0 /\ initStateWorkspaceGm g = initStateWorkspaceGm g0 /\
  t_len (yGm g) = t_len (yGm g0) /\
  (forall t' c, 0 <= t' < t -> 0 <= c < baseDim -> t_at (yGm g) (y_index t' c) = out t' c) /\
  (forall i, (forall t' c, 0 <= t' < t -> 0 <= c < baseDim -> i <> y_index t' c) ->
     t_at (yGm g) i = t_at (yGm g0) i).

Lemma y_index_inj t1 c1 t2 c2 :
  0 <= c1 < baseDim -> 0 <= c2 < baseDim -> y_index t1 c1 = y_index t2 c2 -> t1 = t2 /\ c1 = c2.
Proof.
  intros H1 H2 Heq. destruct Hchan as (Hc0 & Hb & _ & Hd). unfold y_index in Heq.
  destruct (tile_unique (start + t1) (channelStart + c1) (start + t2) (channelStart + c2) (td_dim td)); lia.
Qed.

Lemma y_done_step g0 t s :
  0 <= t -> y_done g0 t (gm s) -> (forall c, 0 <= c < baseDim -> orow s (Z.land t 1) c = out t c) ->
  y_done g0 (t + 1) (stored s t).
Proof.
  intros Ht (Hcv & Hws & Hl & Hy & Hrest) Hout. unfold stored. split_and!; [done|done|done| |]; cbn [yGm].
  - intros t' c Ht' Hc. destruct (decide (t' = t)) as [-> |Hne].
    + unfold y_index. rewrite write_range_in by done. by apply Hout.
    + rewrite write_range_out; [apply Hy; lia|].
      destruct (decide (y_index t 0 <= y_index t' c < y_index t 0 + baseDim)) as [Hin|Hout']; [|unfold y_index in *; lia].
      exfalso. apply Hne. apply (y_index_inj t' c t (y_index t' c - y_index t 0)); unfold y_index in *; lia.
  - intros i Hi. rewrite write_range_out.
    + apply Hrest. intros t' c Ht' Hc. apply Hi; lia.
    + specialize (Hi t (i - y_index t 0) ltac:(lia)). unfold y_index in Hi. lia.
Qed.

(** The state at the start of token [t]; [ci] is the invariant of the
    calculation buffer. *)
Definition run_inv (ci : Z -> KS T F -> Prop) (g0 : GM T) (t : Z) s : Prop :=
  ub_ok s /\ flags (ub s) = run_flags len t /\ ring_window (lo t) (Z.min t (len - 1)) s /\
  y_done g0 t (gm s) /\ ci t s.

Hypothesis Hlen : 0 < len.

Lemma RunSeq_step_spec g0 t s :
  0 <= t < len -> t_len (yGm g0) = td_cuSeqlen td * td_dim td ->
  run_inv (fun _ => weights_loaded e channelStart baseDim) g0 t s ->
  wp (RunSeq_step e start len channelStart baseDim (td_dim td) t)
     (fun _ s' => run_inv (fun _ => weights_loaded e channelStart baseDim) g0 (t + 1) s') s.
Proof.
  intros Ht Hy0 (Hok & Hfl & Hring & Hy & Hwl). pose proof (eo_tokens e Henv). pose proof (eo_width e Henv).
  unfold RunSeq_step. eapply wp_seq; [by apply RunSeq_input_spec|].
  intros [] s1 ((Hg1 & Hl1 & Ho1 & Hc1) & Hf1 & Hr1).
  assert (ub_ok s1) as Hok1 by (unfold ub_ok in *; rewrite Hl1, Ho1, Hc1; done).
  assert (weights_loaded e channelStart baseDim s1) as Hwl1 by (unfold weights_loaded, crow in *; by rewrite Hc1).
  eapply wp_seq; [apply (RunSeq_compute_spec t); [lia|lia|done|done|]|].
  { intros k c Hk Hc. apply Hr1; lia. }
  intros [] s2 (Hk2 & Hsrc). destruct (proj1 Hk2) as (Hg2 & Hi2 & Ho2 & Hf2 & _).
  assert (ub_ok s2) as Hok2 by (eapply calc_only_ub_ok; [apply Hk2|done]).
  replace (if HasActivation e then tmpF else accF) with (src_row * MAX_BLOCK_DIM)
    by (unfold src_row; destruct (HasActivation e); done).
  eapply wp_seq; [apply RunSeq_round_spec; [done|unfold src_row; destruct (HasActivation e); lia|done|congruence]|].
  intros [] s3 ((Hg3 & Hi3 & Hc3 & Hl3) & Hf3 & Hrow).
  assert (ub_ok s3) as Hok3 by (unfold ub_ok in *; rewrite Hl3, Hi3, Hc3; done).
  assert (gm s3 = gm s) as Hg by congruence.
  eapply wp_mono; [apply RunSeq_store_spec; [done|done|done|]|].
  { rewrite Hg. destruct Hy as (_ & _ & -> & _). done. }
  intros _ s4 (Hg4 & Hi4 & Hc4 & Ho4 & Hf4). unfold run_inv. split_and!.
  - unfold ub_ok in *. by rewrite Hi4, Hc4, Ho4.
  - done.
  - intros k c Hk Hc. unfold rrow. rewrite Hi4, Hi3, Hi2. apply Hr1; lia.
  - rewrite Hg4. apply y_done_step; [lia|by rewrite Hg|]. intros c Hc. rewrite Hrow by done. by apply Hsrc.
  - eapply weights_keep in Hwl1; [|exact Hk2|set_solver by lia]. unfold weights_loaded, crow in *. by rewrite Hc4, Hc3.
Qed.

(** The direct loop. *)
Lemma RunSeq_direct_spec s :
  ub_ok s -> flags (ub s) = run_flags len 0 -> ring_window (- (W - 1)) 0 s ->
  weights_loaded e channelStart baseDim s -> t_len (yGm (gm s)) = td_cuSeqlen td * td_dim td ->
  wp (for_range 0 len (RunSeq_step e start len channelStart baseDim (td_dim td)))
     (fun _ s' => run_inv (fun _ => weights_loaded e channelStart baseDim) (gm s) len s') s.
Proof.
  intros Hok Hfl Hring Hwl Hy. pose proof (eo_width e Henv).
  apply (wp_for_range (fun t s' => run_inv (fun _ => weights_loaded e channelStart baseDim) (gm s) t s')); [lia| | |done].
  - split_and!; [done|done| | |done].
    + intros k c Hk Hc. apply Hring; lia.
    + split_and!; [done|done|done|lia|done].
  - intros t s' Ht Hinv. by apply RunSeq_step_spec.
Qed.

(** ** The rolling path *)

Section Rolling.
Context `{!MulAddLaw T F}.
Hypothesis Hnobias : HasBias e = false.
Hypothesis Hctw : kHasCompileTimeWidth e = true.
Hypothesis Htw : kTemplateWidth e = W.

(** The partial sums the accumulator rows hold before token [t]: row 6 lacks
    only the tap of token [t], row 5 that of the next token as well, and so on. *)
Definition rolling_inv (t : Z) s : Prop :=
  forall c, 0 <= c < baseDim ->
    (forall i, 0 <= i < W -> crow s (4 - W + i) c = weight_at e (channelStart + c) i) /\
    crow s 6 c = partial t (W - 1) c /\
    (3 <= W -> crow s 5 c = partial (t + 1) (W - 2) c) /\
    (4 <= W -> crow s 4 c = partial (t + 2) (W - 3) c).

Lemma partial_1 t c : partial t 1 c = fmul (castUp (tok (t - (W - 1)) c)) (weight_at e (channelStart + c) 0).
Proof. change 1 with (0 + 1) at 1. rewrite partial_S by lia. by rewrite Hnobias. Qed.

Lemma partial_next t n c : 0 < n ->
  partial t (n + 1) c = fadd (fmul (castUp (tok (t - (W - 1) + n) c)) (weight_at e (channelStart + c) n)) (partial t n c).
Proof.
  intros Hn. rewrite partial_S by lia. rewrite (proj2 (Z.eqb_neq n 0)) by lia. rewrite andb_false_r.
  apply muladd_unfused.
Qed.

Lemma crow_set_ub_ok s s' r f : crow_set s s' r f -> ub_ok s -> ub_ok s'.
Proof. intros (Hc & _). by apply calc_only_ub_ok. Qed.

(** Introduces the state after a row instruction. *)
Ltac next s' Hs' :=
  intros [] s' Hs';
  match goal with Hok : ub_ok ?s, H : crow_set ?s s' _ _ |- _ =>
    let Hk := fresh "Hok" in pose proof (crow_set_ub_ok s s' _ _ H Hok) as Hk end.

(** Reads a row of the last state back to the first one. *)
Ltac read_rows c Hc :=
  repeat first
    [ match goal with H : crow_set _ ?b ?r _ |- context [crow ?b ?r c] => rewrite (proj1 (proj2 H) c Hc) end
    | match goal with H : crow_set _ ?b ?r _ |- context [crow ?b ?r' c] =>
        rewrite (proj2 (proj2 H) r' c) by (unfold MAX_BLOCK_DIM; lia) end
    | match goal with H : crow_set ?a ?b _ _ |- context [rrow ?b ?r c] =>
        rewrite (calc_only_rrow a b r c (proj1 H)) end ].

Ltac chain_calc :=
  repeat match goal with H : crow_set ?a ?b _ _ |- calc_only _ ?b => etrans; [|exact (proj1 H)] end; reflexivity.

Lemma width_cases : W = 2 \/ W = 3 \/ W = 4.
Proof. pose proof (eo_width e Henv). lia. Qed.

Lemma ring_at r c s : ring_window (- (W - 1)) 0 s -> 4 - W <= r <= 3 -> 0 <= c < baseDim ->
  rrow s r c = tok (r - 3) c.
Proof.
  intros Hr Hk Hc. pose proof (eo_width e Henv). rewrite <- (Hr (r - 3) c) by lia.
  rewrite Z.mod_small by lia. f_equal. lia.
Qed.

Lemma weight_row s c r : weights_loaded e channelStart baseDim s -> 0 <= c < baseDim -> 4 - W <= r < 4 ->
  crow s r c = weight_at e (channelStart + c) (r - (4 - W)).
Proof. intros Hwl Hc Hr. destruct (Hwl c Hc) as (_ & Hw). rewrite <- Hw by lia. f_equal. lia. Qed.

Lemma Restore_2 s : W = 2 -> ub_ok s -> weights_loaded e channelStart baseDim s -> ring_window (- (W - 1)) 0 s ->
  wp (RestoreFnLocalPartials e baseDim) (fun _ s' => calc_only s s' /\ rolling_inv 0 s') s.
Proof.
  intros HW Hok Hwl Hr. pose proof Hchan as (_ & Hb & _ & _).
  unfold RestoreFnLocalPartials. rewrite Hctw, Htw, HW. cbn [negb Z.eqb Pos.eqb]. cbv zeta.
  eapply wp_seq; [apply (Zero_spec s Hok 4); lia|]. next s1 H1.
  eapply wp_seq; [apply (Zero_spec s1 ltac:(assumption) 5); lia|]. next s2 H2.
  eapply wp_seq; [apply (CastIn_spec s2 ltac:(assumption) 7 2); lia|]. next s3 H3.
  eapply wp_mono; [apply (Mul_spec s3 ltac:(assumption) 6 7 2); lia|]. next s4 H4.
  split; [chain_calc|]. intros c Hc. pose proof (weight_row s c) as Hw. rewrite HW in *.
  split_and!; [|read_rows c Hc|lia|lia].
  - intros i Hi. assert (i = 0 \/ i = 1) as [-> | ->] by lia; simpl; read_rows c Hc; by rewrite Hw by (done || lia).
  - rewrite partial_1, HW, (ring_at 2) by (rewrite ?HW; done || lia). by rewrite !Hw by (done || lia).
Qed.

Lemma Restore_3 s : W = 3 -> ub_ok s -> weights_loaded e channelStart baseDim s -> ring_window (- (W - 1)) 0 s ->
  wp (RestoreFnLocalPartials e baseDim) (fun _ s' => calc_only s s' /\ rolling_inv 0 s') s.
Proof.
  intros HW Hok Hwl Hr. pose proof Hchan as (_ & Hb & _ & _).
  unfold RestoreFnLocalPartials. rewrite Hctw, Htw, HW. cbn [negb Z.eqb Pos.eqb]. cbv zeta.
  eapply wp_seq; [apply (Zero_spec s Hok 4); lia|]. next s1 H1.
  eapply wp_seq; [apply (CastIn_spec s1 ltac:(assumption) 7 1); lia|]. next s2 H2.
  eapply wp_seq; [apply (Mul_spec s2 ltac:(assumption) 6 7 1); lia|]. next s3 H3.
  eapply wp_seq; [apply (CastIn_spec s3 ltac:(assumption) 7 2); lia|]. next s4 H4.
  eapply wp_seq; [apply (Mul_spec s4 ltac:(assumption) 5 7 1); lia|]. next s5 H5.
  eapply wp_mono; [apply (MulAddDst_spec s5 ltac:(assumption) 6 7 2); lia|]. next s6 H6.
  split; [chain_calc|]. intros c Hc. pose proof (weight_row s c) as Hw. rewrite HW in *.
  split_and!; [|read_rows c Hc|intros _; read_rows c Hc|lia].
  - intros i Hi. assert (i = 0 \/ i = 1 \/ i = 2) as [-> |[-> | ->]] by lia; simpl; read_rows c Hc; by rewrite Hw by (done || lia).
  - change (3 - 1) with (1 + 1). rewrite partial_next, partial_1, HW, muladd_unfused by lia.
    rewrite !ring_at by (rewrite ?HW; done || lia). by rewrite !Hw by (done || lia).
  - change (3 - 2) with 1. rewrite partial_1, HW, ring_at by (rewrite ?HW; done || lia).
    by rewrite !Hw by (done || lia).
Qed.

Lemma Restore_4 s : W = 4 -> ub_ok s -> weights_loaded e channelStart baseDim s -> ring_window (- (W - 1)) 0 s ->
  wp (RestoreFnLocalPartials e baseDim) (fun _ s' => calc_only s s' /\ rolling_inv 0 s') s.
Proof.
  intros HW Hok Hwl Hr. pose proof Hchan as (_ & Hb & _ & _).
  unfold RestoreFnLocalPartials. rewrite Hctw, Htw, HW. cbn [negb Z.eqb Pos.eqb]. cbv zeta.
  eapply wp_seq; [apply (CastIn_spec s Hok 7 0); lia|]. next s1 H1.
  eapply wp_seq; [apply (Mul_spec s1 ltac:(assumption) 6 7 0); lia|]. next s2 H2.
  eapply wp_seq; [apply (CastIn_spec s2 ltac:(assumption) 7 1); lia|]. next s3 H3.
  eapply wp_seq; [apply (Mul_spec s3 ltac:(assumption) 5 7 0); lia|]. next s4 H4.
  eapply wp_seq; [apply (MulAddDst_spec s4 ltac:(assumption) 6 7 1); lia|]. next s5 H5.
  eapply wp_seq; [apply (CastIn_spec s5 ltac:(assumption) 7 2); lia|]. next s6 H6.
  eapply wp_seq; [apply (Mul_spec s6 ltac:(assumption) 4 7 0); lia|]. next s7 H7.
  eapply wp_seq; [apply (MulAddDst_spec s7 ltac:(assumption) 5 7 1); lia|]. next s8 H8.
  eapply wp_mono; [apply (MulAddDst_spec s8 ltac:(assumption) 6 7 2); lia|]. next s9 H9.
  split; [chain_calc|]. intros c Hc. pose proof (weight_row s c) as Hw. rewrite HW in *.
  split_and!; [|read_rows c Hc|intros _; read_rows c Hc|intros _; read_rows c Hc].
  - intros i Hi. assert (i = 0 \/ i = 1 \/ i = 2 \/ i = 3) as [-> |[-> |[-> | ->]]] by lia; simpl; read_rows c Hc; by rewrite Hw by (done || lia).
  - change (4 - 1) with (1 + 1 + 1). rewrite !partial_next, partial_1, HW, !muladd_unfused by lia.
    rewrite !ring_at by (rewrite ?HW; done || lia). by rewrite !Hw by (done || lia).
  - change (4 - 2) with (1 + 1). rewrite partial_next, partial_1, HW, !muladd_unfused by lia.
    rewrite !ring_at by (rewrite ?HW; done || lia). by rewrite !Hw by (done || lia).
  - change (4 - 3) with 1. rewrite partial_1, HW, ring_at by (rewrite ?HW; done || lia).
    by rewrite !Hw by (done || lia).
Qed.

Lemma RestoreFnLocalPartials_spec s :
  ub_ok s -> weights_loaded e channelStart baseDim s -> ring_window (- (W - 1)) 0 s ->
  wp (RestoreFnLocalPartials e baseDim) (fun _ s' => calc_only s s' /\ rolling_inv 0 s') s.
Proof. intros. destruct width_cases as [?|[?|?]]; [apply Restore_2|apply Restore_3|apply Restore_4]; done. Qed.

(** What remains of the invariant while row 6 holds the finished sum. *)
Definition rolling_mid (t : Z) s : Prop :=
  forall c, 0 <= c < baseDim ->
    (forall r, 4 - W <= r < 4 -> crow s r c = weight_at e (channelStart + c) (r - (4 - W))) /\
    (3 <= W -> crow s 5 c = partial (t + 1) (W - 2) c) /\
    (4 <= W -> crow s 4 c = partial (t + 2) (W - 3) c).

Definition rolling_src_row : Z := if HasActivation e then 7 else 6.

Lemma ComputeFnRollingOutput_spec t s :
  0 <= t -> t + 8 <= INT32_MAX -> ub_ok s -> rolling_inv t s -> ring_window t t s ->
  wp (ComputeFnRollingOutput e (SlotCurr t) baseDim)
     (fun _ s' => calc_only s s' /\ rolling_mid t s' /\
        forall c, 0 <= c < baseDim -> castRint (crow s' rolling_src_row c) = out t c) s.
Proof.
  intros Ht0 Ht Hok Hinv Hring. pose proof Hchan as (_ & Hb & _ & _). pose proof (eo_width e Henv) as Hw.
  rewrite SlotCurr_mod by lia. pose proof (slot_bound t).
  unfold ComputeFnRollingOutput. rewrite Hctw. cbn [negb].
  eapply wp_seq; [apply (CastIn_spec s Hok 7); lia|]. next s1 H1.
  eapply wp_seq; [apply (MulAddDst_spec s1 ltac:(assumption) 6 7 3); lia|]. next s2 H2.
  assert (forall c, 0 <= c < baseDim -> crow s2 6 c = partial t W c) as Hsum.
  { intros c Hc. read_rows c Hc. destruct (Hinv c Hc) as (Hwt & H6 & _).
    replace W with (W - 1 + 1) at 1 by lia. rewrite partial_S, (proj2 (Z.eqb_neq (W - 1) 0)), andb_false_r by lia.
    rewrite H6, <- (Hwt (W - 1)) by lia. do 2 f_equal; [|f_equal; lia].
    rewrite (Hring t c) by lia. f_equal. lia. }
  assert (forall s', (forall r c, r <> 6 -> r <> 7 -> 0 <= c < MAX_BLOCK_DIM -> crow s' r c = crow s r c) ->
    rolling_mid t s') as Hmid.
  { intros s' Hkeep c Hc. destruct (Hinv c Hc) as (Hwt & _ & H5 & H4). unfold MAX_BLOCK_DIM in Hkeep.
    split_and!; [intros r Hr|intros; rewrite Hkeep by lia; auto..].
    rewrite Hkeep by lia. rewrite <- Hwt by lia. f_equal. lia. }
  unfold rolling_src_row. destruct (HasActivation e) eqn:Ea.
  - apply wp_when_true; [done|]. eapply wp_mono; [apply (Silu_spec s2 ltac:(assumption) 7 6); lia|]. next s3 H3.
    split_and!; [chain_calc|apply Hmid|].
    + intros r c H6 H7 Hc. destruct H1 as (_ & _ & K1), H2 as (_ & _ & K2), H3 as (_ & _ & K3). rewrite K3, K2, K1; done.
    + intros c Hc. rewrite (proj1 (proj2 H3) c Hc), Hsum, out_partial, Ea; done.
  - apply wp_when_false; [done|]. split_and!; [chain_calc|apply Hmid|].
    + intros r c H6 H7 Hc. destruct H1 as (_ & _ & K1), H2 as (_ & _ & K2). rewrite K2, K1; done.
    + intros c Hc. rewrite Hsum, out_partial, Ea; done.
Qed.

Section Advance.
Context (t : Z) (s : KS T F) (Ht0 : 0 <= t) (Ht : t + 8 <= INT32_MAX) (Hok : ub_ok s)
  (Hmid : rolling_mid t s) (Hring : ring_window t t s).

Abbreviation advanced :=
  (wp (AdvanceFnLocalPartials e (SlotCurr t) baseDim) (fun _ s' => calc_only s s' /\ rolling_inv (t + 1) s') s).

Lemma Advance_2 : W = 2 -> advanced.
Proof.
  intros HW. pose proof Hchan as (_ & Hb & _ & _). pose proof (slot_bound t). rewrite SlotCurr_mod by lia.
  unfold AdvanceFnLocalPartials. rewrite Hctw, Htw, HW. cbn [negb Z.eqb Pos.eqb]. cbv zeta.
  eapply wp_seq; [apply (CastIn_spec s Hok 7); lia|]. next s1 H1.
  eapply wp_mono; [apply (Mul_spec s1 ltac:(assumption) 6 7 2); lia|]. next s2 H2.
  split; [chain_calc|]. intros c Hc. destruct (Hmid c Hc) as (Hw & _ & _). rewrite HW in *.
  split_and!; [|read_rows c Hc|lia|lia].
  - intros i Hi. assert (i = 0 \/ i = 1) as [-> | ->] by lia; simpl; read_rows c Hc; by rewrite Hw by lia.
  - rewrite partial_1, HW, Hw, (Hring t c) by lia. do 3 f_equal. lia.
Qed.

Lemma Advance_3 : W = 3 -> advanced.
Proof.
  intros HW. pose proof Hchan as (_ & Hb & _ & _). pose proof (slot_bound t). rewrite SlotCurr_mod by lia.
  unfold AdvanceFnLocalPartials. rewrite Hctw, Htw, HW. cbn [negb Z.eqb Pos.eqb]. cbv zeta.
  eapply wp_seq; [apply (CastIn_spec s Hok 7); lia|]. next s1 H1.
  eapply wp_seq; [apply (Mul_spec s1 ltac:(assumption) 6 7 2); lia|]. next s2 H2.
  eapply wp_seq; [apply (Add_spec s2 ltac:(assumption) 6 6 5); lia|]. next s3 H3.
  eapply wp_mono; [apply (Mul_spec s3 ltac:(assumption) 5 7 1); lia|]. next s4 H4.
  split; [chain_calc|]. intros c Hc. destruct (Hmid c Hc) as (Hw & H5 & _). rewrite HW in *.
  split_and!; [|read_rows c Hc|intros _; read_rows c Hc|lia].
  - intros i Hi. assert (i = 0 \/ i = 1 \/ i = 2) as [-> |[-> | ->]] by lia; simpl; read_rows c Hc; by rewrite Hw by lia.
  - change (3 - 1) with (1 + 1). rewrite partial_next, HW, Hw, H5, (Hring t c) by lia. do 4 f_equal. lia.
  - change (3 - 2) with 1. rewrite partial_1, HW, Hw, (Hring t c) by lia. do 3 f_equal. lia.
Qed.

Lemma Advance_4 : W = 4 -> advanced.
Proof.
  intros HW. pose proof Hchan as (_ & Hb & _ & _). pose proof (slot_bound t). rewrite SlotCurr_mod by lia.
  unfold AdvanceFnLocalPartials. rewrite Hctw, Htw, HW. cbn [negb Z.eqb Pos.eqb]. cbv zeta.
  eapply wp_seq; [apply (CastIn_spec s Hok 7); lia|]. next s1 H1.
  eapply wp_seq; [apply (Mul_spec s1 ltac:(assumption) 6 7 2); lia|]. next s2 H2.
  eapply wp_seq; [apply (Add_spec s2 ltac:(assumption) 6 6 5); lia|]. next s3 H3.
  eapply wp_seq; [apply (Mul_spec s3 ltac:(assumption) 5 7 1); lia|]. next s4 H4.
  eapply wp_seq; [apply (Add_spec s4 ltac:(assumption) 5 5 4); lia|]. next s5 H5.
  eapply wp_mono; [apply (Mul_spec s5 ltac:(assumption) 4 7 0); lia|]. next s6 H6.
  split; [chain_calc|]. intros c Hc. destruct (Hmid c Hc) as (Hw & Hr5 & Hr4). rewrite HW in *.
  split_and!; [|read_rows c Hc|intros _; read_rows c Hc|intros _; read_rows c Hc].
  - intros i Hi. assert (i = 0 \/ i = 1 \/ i = 2 \/ i = 3) as [-> |[-> |[-> | ->]]] by lia;
      simpl; read_rows c Hc; by rewrite Hw by lia.
  - change (4 - 1) with (2 + 1). rewrite partial_next, HW, Hw, Hr5, (Hring t c) by lia. do 4 f_equal. lia.
  - change (4 - 2) with (1 + 1). rewrite partial_next, HW, Hw, Hr4, (Hring t c) by lia.
    replace (t + 1 + 1) with (t + 2) by lia. do 4 f_equal. lia.
  - change (4 - 3) with 1. rewrite partial_1, HW, Hw, (Hring t c) by lia. do 3 f_equal. lia.
Qed.

Lemma AdvanceFnLocalPartials_spec : advanced.
Proof. destruct width_cases as [?|[?|?]]; [by apply Advance_2|by apply Advance_3|by apply Advance_4]. Qed.
End Advance.

Lemma RunSeqFnRolling_step_spec g0 t s :
  0 <= t < len -> t_len (yGm g0) = td_cuSeqlen td * td_dim td -> run_inv rolling_inv g0 t s ->
  wp (RunSeqFnRolling_step e start len channelStart baseDim (td_dim td) t)
     (fun _ s' => run_inv rolling_inv g0 (t + 1) s') s.
Proof.
  intros Ht Hy0 (Hok & Hfl & Hring & Hy & Hroll). pose proof (eo_tokens e Henv). pose proof (eo_width e Henv).
  unfold RunSeqFnRolling_step. cbv zeta. eapply wp_seq; [by apply RunSeq_input_spec|].
  intros [] s1 ((Hg1 & Hl1 & Ho1 & Hc1) & Hf1 & Hr1).
  assert (ub_ok s1) as Hok1 by (unfold ub_ok in *; rewrite Hl1, Ho1, Hc1; done).
  assert (rolling_inv t s1) as Hroll1 by (unfold rolling_inv, crow in *; by rewrite Hc1).
  eapply wp_seq; [apply (ComputeFnRollingOutput_spec t); [lia|lia|done|done|]|].
  { intros k c Hk Hc. apply Hr1; lia. }
  intros [] s2 (Hs2 & Hmid & Hsrc). destruct Hs2 as (Hg2 & Hi2 & Ho2 & Hf2 & Hl2).
  assert (ub_ok s2) as Hok2 by (unfold ub_ok in *; rewrite Hi2, Ho2, Hl2; done).
  replace (if HasActivation e then currF else state0F) with (rolling_src_row * MAX_BLOCK_DIM)
    by (unfold rolling_src_row; destruct (HasActivation e); done).
  eapply wp_seq; [apply RunSeq_round_spec; [done|unfold rolling_src_row; destruct (HasActivation e); lia|done|congruence]|].
  intros [] s3 ((Hg3 & Hi3 & Hc3 & Hl3) & Hf3 & Hrow).
  assert (ub_ok s3) as Hok3 by (unfold ub_ok in *; rewrite Hl3, Hi3, Hc3; done).
  assert (rolling_mid t s3) as Hmid3 by (unfold rolling_mid, crow in *; by rewrite Hc3).
  eapply wp_seq; [apply (AdvanceFnLocalPartials_spec t s3); [lia|lia|done|done|]|].
  { intros k c Hk Hc. unfold rrow. rewrite Hi3, Hi2. apply Hr1; lia. }
  intros [] s4 ((Hg4 & Hi4 & Ho4 & Hf4 & Hl4) & Hroll4).
  assert (ub_ok s4) as Hok4 by (unfold ub_ok in *; rewrite Hi4, Ho4, Hl4; done).
  assert (gm s4 = gm s) as Hg by congruence.
  eapply wp_mono; [apply RunSeq_store_spec; [done|done|congruence|]|].
  { rewrite Hg. destruct Hy as (_ & _ & -> & _). done. }
  intros _ s5 (Hg5 & Hi5 & Hc5 & Ho5 & Hf5). unfold run_inv. split_and!.
  - unfold ub_ok in *. by rewrite Hi5, Hc5, Ho5.
  - done.
  - intros k c Hk Hc. unfold rrow. rewrite Hi5, Hi4, Hi3, Hi2. apply Hr1; lia.
  - rewrite Hg5. apply y_done_step; [lia|by rewrite Hg|]. intros c Hc. unfold orow. rewrite Ho4.
    etrans; [by apply Hrow|]. by apply Hsrc.
  - unfold rolling_inv, crow in *. by rewrite Hc5.
Qed.

Lemma RunSeqFnRolling_spec s :
  ub_ok s -> flags (ub s) = run_flags len 0 -> ring_window (- (W - 1)) 0 s ->
  weights_loaded e channelStart baseDim s -> t_len (yGm (gm s)) = td_cuSeqlen td * td_dim td ->
  wp (RunSeqFnRolling e start len channelStart baseDim (td_dim td))
     (fun _ s' => run_inv rolling_inv (gm s) len s') s.
Proof.
  intros Hok Hfl Hring Hwl Hy. pose proof (eo_width e Henv).
  unfold RunSeqFnRolling. rewrite Hctw. cbn [negb].
  eapply wp_seq; [by apply RestoreFnLocalPartials_spec|]. intros [] s1 (Hs1 & Hroll).
  pose proof (calc_only_ub_ok _ _ Hs1 Hok) as Hok1. destruct Hs1 as (Hg1 & Hi1 & Ho1 & Hf1 & _).
  apply (wp_for_range (fun t s' => run_inv rolling_inv (gm s) t s')); [lia| | |done].
  - split_and!; [done|congruence| | |done].
    + intros k c Hk Hc. unfold rrow. rewrite Hi1. apply Hring; lia.
    + rewrite Hg1. split_and!; [done|done|done|lia|done].
  - intros t s' Ht Hinv. by apply RunSeqFnRolling_step_spec.
Qed.
End Rolling.

(** ** Both paths *)

(** The rolling path is compiled for the width of the problem. *)
Definition template_ok : Prop :=
  IsFnRollingFastPathEnabled e = true -> kHasCompileTimeWidth e = true /\ kTemplateWidth e = W.

(** A finished task: outputs stored, no flag pending, the last tokens still in
    the ring for the state write-back. *)
Definition run_done (g0 : GM T) s : Prop :=
  ub_ok s /\ flags (ub s) = ∅ /\ ring_window (Z.max (- (W - 1)) (len - 3)) (len - 1) s /\ y_done g0 len (gm s).

Lemma run_flags_end : run_flags len len = ∅.
Proof.
  unfold run_flags, out_flag. rewrite (proj2 (Z.ltb_ge len len)), (proj2 (Z.ltb_ge (len + 1) len)),
    (proj2 (Z.ltb_ge (len - 2 + 2) len)), (proj2 (Z.ltb_ge (len - 1 + 2) len)) by lia.
  rewrite !andb_false_r. set_solver.
Qed.

Lemma run_inv_done ci g0 s : run_inv ci g0 len s -> run_done g0 s.
Proof.
  intros (Hok & Hfl & Hr & Hy & _). split_and!; [done|by rewrite Hfl, run_flags_end| |done].
  intros k c Hk Hc. apply Hr; lia.
Qed.

Lemma RunSeq_spec `{!MulAddLaw T F} s :
  template_ok -> ub_ok s -> flags (ub s) = run_flags len 0 -> ring_window (- (W - 1)) 0 s ->
  weights_loaded e channelStart baseDim s -> t_len (yGm (gm s)) = td_cuSeqlen td * td_dim td ->
  wp (RunSeq e start len channelStart baseDim (td_dim td)) (fun _ s' => run_done (gm s) s') s.
Proof.
  intros Htpl Hok Hfl Hring Hwl Hy. unfold RunSeq, template_ok in *.
  destruct (IsFnRollingFastPathEnabled e) eqn:E.
  - destruct (Htpl eq_refl) as (Hctw & Htw).
    assert (HasBias e = false) as Hnb.
    { unfold IsFnRollingFastPathEnabled in E. bool_prop. done. }
    eapply wp_mono; [by apply (RunSeqFnRolling_spec Hnb Hctw Htw)|]. intros [] s'. apply run_inv_done.
  - eapply wp_mono; [by apply RunSeq_direct_spec|]. intros [] s'. apply run_inv_done.
Qed.
End Run.
