(* ===== verification/Conv1dState.v ===== *)
(** Writing the convolution state back to its cache line: the plain write-back
    of the last tokens, and the shifting write-back of speculative decoding. *)

From S2P Require Import Prelude AscendC Conv1dTypes Conv1dElem Conv1dKernel Conv1dKernelLemmas Conv1dLoad.
From S2P Require Import Conv1dRun.

Section State.
Context {T F : Type} `{ElemOps T F} `{!HalfLaws T F}.
Variable e : KernelEnv T.
Abbreviation td := (tilingData e).
Implicit Types s : KS T F.
Context (Henv : env_ok e).
Variables channelStart baseDim : Z.
Hypothesis Hchan : chan_ok e channelStart baseDim.
Variable tok : Z -> Z -> T.
Variable cacheIdx : Z.

Abbreviation W := (td_width td).

Definition state_index (pos c : Z) : Z :=
  cacheIdx * td_stateLen td * td_dim td + pos * td_dim td + channelStart + c.

(** The positions in [D] of the cache line hold [f], everything else in global
    memory is as in [g0]. *)
Definition conv_upd (g0 : GM T) (D : Z -> Prop) (f : Z -> Z -> T) (g : GM T) : Prop :=
  yGm g = yGm g0 /\ initStateWorkspaceGm g = initStateWorkspaceGm g0 /\
  t_len (convStatesGm g) = t_len (convStatesGm g0) /\
  (forall pos c, D pos -> 0 <= c < baseDim -> t_at (convStatesGm g) (state_index pos c) = f pos c) /\
  (forall i, (forall pos c, D pos -> 0 <= c < baseDim -> i <> state_index pos c) ->
     t_at (convStatesGm g) i = t_at (convStatesGm g0) i).

Lemma state_index_inj p1 c1 p2 c2 :
  0 <= c1 < baseDim -> 0 <= c2 < baseDim -> state_index p1 c1 = state_index p2 c2 -> p1 = p2 /\ c1 = c2.
Proof.
  intros H1 H2 Heq. destruct Hchan as (Hc0 & Hb & _ & Hd). unfold state_index in Heq.
  destruct (tile_unique p1 (channelStart + c1) p2 (channelStart + c2) (td_dim td)); lia.
Qed.

Lemma conv_upd_refl g f : conv_upd g (fun _ => False) f g.
Proof. by split_and!. Qed.

Lemma conv_upd_ext g0 (D D' : Z -> Prop) f g :
  (forall pos, D pos <-> D' pos) -> conv_upd g0 D f g -> conv_upd g0 D' f g.
Proof.
  intros HD (H1 & H2 & H3 & H4 & H5). split_and!; [done..| |].
  - intros pos c Hp. apply H4. by apply HD.
  - intros i Hi. apply H5. intros pos c Hp. apply Hi. by apply HD.
Qed.

Lemma conv_upd_val g0 (D : Z -> Prop) f f' g :
  (forall pos c, D pos -> 0 <= c < baseDim -> f pos c = f' pos c) -> conv_upd g0 D f g -> conv_upd g0 D f' g.
Proof.
  intros Hf (H1 & H2 & H3 & H4 & H5). split_and!; [done..| |done]. intros pos c Hp Hc. rewrite H4, Hf; done.
Qed.

(** One more position. *)
Lemma conv_upd_step g0 D f g p v off :
  conv_upd g0 D f g -> off = state_index p 0 -> (forall c, 0 <= c < baseDim -> v c = f p c) ->
  conv_upd g0 (fun q => D q \/ q = p) f
    (Build_GM (write_range (convStatesGm g) off baseDim v) (yGm g) (initStateWorkspaceGm g)).
Proof.
  intros (H1 & H2 & H3 & H4 & H5) -> Hv. split_and!; [done..| |]; cbn [convStatesGm].
  - intros pos c Hp Hc. destruct (decide (pos = p)) as [-> |Hne].
    + replace (state_index p c) with (state_index p 0 + c) by (unfold state_index; lia).
      rewrite write_range_in by done. by apply Hv.
    + destruct Hp as [Hp| ->]; [|done]. rewrite write_range_out; [by apply H4|].
      destruct (decide (state_index p 0 <= state_index pos c < state_index p 0 + baseDim)) as [Hin|Hout]; [|lia].
      exfalso. apply Hne. apply (state_index_inj pos c p (state_index pos c - state_index p 0)); unfold state_index in *; lia.
  - intros i Hi. rewrite write_range_out.
    + apply H5. intros pos c Hp Hc. apply Hi; [by left|done].
    + specialize (Hi p (i - state_index p 0) ltac:(by right)). unfold state_index in *. lia.
Qed.

Lemma line_ok_upd g0 D f g : conv_upd g0 D f g -> line_ok e g0 cacheIdx -> line_ok e g cacheIdx.
Proof. intros (_ & _ & Hl & _) [H1 H2]. split; [done|]. by rewrite Hl. Qed.

(** Storing a ring row to a position of the line. *)
Lemma store_row g0 D f p slot off s :
  ub_ok s -> line_ok e (gm s) cacheIdx -> 0 <= p < td_stateLen td -> 0 <= slot < 5 ->
  off = state_index p 0 -> conv_upd g0 D f (gm s) -> (forall c, 0 <= c < baseDim -> rrow s slot c = f p c) ->
  wp (DataCopy 2 convStates off (lget ring) (slot * MAX_BLOCK_DIM) baseDim)
     (fun _ s' => ub s' = ub s /\ conv_upd g0 (fun q => D q \/ q = p) f (gm s')) s.
Proof.
  intros Hok Hline Hp Hslot -> Hupd Hv. destruct Hchan as (Hc0 & Hb & Hal & Hd). pose proof Hok as (Hi & _ & _).
  destruct (state_pos_range e Henv channelStart baseDim Hchan (gm s) cacheIdx p Hline Hp).
  apply wp_DataCopy; [apply block_aligned_16; lia|apply in_tensor_true; ks_simpl; unfold state_index; lia|in_range|].
  ks_simpl. split; [done|]. by apply conv_upd_step.
Qed.

(** ** Plain write-back *)

Lemma WriteBackState_spec len s :
  0 < len -> len + 8 <= INT32_MAX -> ub_ok s -> line_ok e (gm s) cacheIdx ->
  ring_holds baseDim tok (Z.max (- (W - 1)) (len - 3)) (len - 1) s ->
  wp (WriteBackState e cacheIdx len channelStart baseDim (td_dim td))
     (fun _ s' => ub s' = ub s /\
        conv_upd (gm s) (fun pos => 0 <= pos < W - 1) (fun pos => tok (len - (W - 1) + pos)) (gm s')) s.
Proof.
  intros Hlen Hmax Hok Hline Hring. pose proof (eo_width e Henv). pose proof (eo_state e Henv).
  pose proof Hchan as (_ & Hb & _ & _).
  unfold WriteBackState. rewrite (width_i32 e Henv), (stateLen_i32 e Henv). cbv zeta.
  rewrite (proj2 (Z.leb_gt len 0)) by lia. rewrite SlotCurr_mod by lia.
  apply (wp_for_range (fun pos s' => ub s' = ub s /\
    conv_upd (gm s) (fun q => 0 <= q < pos) (fun pos => tok (len - (W - 1) + pos)) (gm s'))); [lia| | |done].
  - split; [done|]. eapply conv_upd_ext; [|apply conv_upd_refl]. lia.
  - intros pos s' Hpos (Hub & Hupd). rewrite RetreatRingSlot_mod by lia.
    assert (ub_ok s') as Hok' by (unfold ub_ok in *; by rewrite Hub).
    eapply wp_mono; [eapply (store_row (gm s) _ (fun pos => tok (len - (W - 1) + pos)) pos)|].
    + done.
    + by eapply line_ok_upd.
    + lia.
    + apply slot_bound.
    + unfold state_index. lia.
    + exact Hupd.
    + intros c Hc. unfold rrow. rewrite Hub. rewrite <- Hring by lia. unfold rrow. do 2 f_equal. lia.
    + intros _ s2 (Hub2 & Hupd2). split; [congruence|]. eapply conv_upd_ext; [|exact Hupd2]. simpl. lia.
Qed.

(** ** Speculative write-back

    The line keeps the last two positions before the draft, then every draft
    token: position [p] holds token [p - 2] of the stream. *)

Definition spec_tok (pos c : Z) : T := tok (pos - 2) c.

Variables start len : Z.
Hypothesis Hstart : 0 <= start.
Hypothesis Hlen : 0 < len.
Hypothesis Hend : start + len <= td_cuSeqlen td.
Hypothesis Htok : forall k c, 0 <= k -> tok k c = t_at (xGm e) ((start + k) * td_dim td + channelStart + c).

Abbreviation M2 := specWritebackMte2ToMte3.
Abbreviation M3 := specWritebackMte3ToMte2.

(** The flags at the start of draft token [t]. *)
Definition spec_flags (t : Z) : gset Event :=
  (if t <? len then {[ M2 (t mod 2) ]} else ∅) ∪ (if 1 <=? t then {[ M3 ((t - 1) mod 2) ]} else ∅) ∪
  (if (t =? len) && (2 <=? t) then {[ M3 (t mod 2) ]} else ∅).

(** The shift of the surviving positions, with an initial state. *)
Lemma WriteBackStateSpec_shift_spec off s :
  ub_ok s -> flags (ub s) = ∅ -> line_ok e (gm s) cacheIdx -> 2 <= td_stateLen td ->
  0 <= off -> off + 3 <= td_stateLen td ->
  (forall c, 0 <= c < baseDim -> tok (-2) c = state_at e (gm s) cacheIdx (off + 1) (channelStart + c) /\
                                 tok (-1) c = state_at e (gm s) cacheIdx (off + 2) (channelStart + c)) ->
  wp (WriteBackStateSpec_shift e cacheIdx true off channelStart baseDim (td_dim td))
     (fun _ s' => ub_ok s' /\ flags (ub s') = ∅ /\ conv_upd (gm s) (fun pos => 0 <= pos < 2) spec_tok (gm s')) s.
Proof.
  intros Hok Hfl Hline Hs2 Hoff Hmax Hold. pose proof (eo_state e Henv). unfold INT32_MAX in *.
  pose proof Hchan as (_ & Hb & _ & _).
  unfold WriteBackStateSpec_shift. rewrite (stateLen_i32 e Henv). cbv zeta.
  rewrite !i32_id by (unfold fits_i32; lia).
  destruct (state_pos_range e Henv channelStart baseDim Hchan (gm s) cacheIdx (off + 1) Hline ltac:(lia)).
  destruct (state_pos_range e Henv channelStart baseDim Hchan (gm s) cacheIdx (off + 2) Hline ltac:(lia)).
  eapply wp_seq; [apply (copy_to_ring e channelStart baseDim Hchan 0); [done|lia|lia|ks_simpl; lia]|].
  intros [] s1 (Hs1 & Hn1 & _). pose proof (ring_only_ub_ok _ _ Hs1 Hok) as Hok1.
  pose proof Hs1 as (Hg1 & _ & _ & _ & Hf1).
  eapply wp_seq; [apply (copy_to_ring e channelStart baseDim Hchan 1); [done|lia|lia|ks_simpl; rewrite Hg1; lia]|].
  intros [] s2 (Hs2' & Hn2 & Hk2). pose proof (ring_only_ub_ok _ _ Hs2' Hok1) as Hok2.
  pose proof Hs2' as (Hg2 & _ & _ & _ & Hf2).
  apply wp_SetWait_seq; [rewrite Hf2, Hf1, Hfl; set_solver|].
  assert (gm s2 = gm s) as Hg by congruence. rewrite <- Hg in Hline.
  eapply wp_seq; [apply (store_row (gm s) (fun _ => False) spec_tok 0 0);
    [done|done|lia|lia|unfold state_index; lia|rewrite Hg; apply conv_upd_refl|]|].
  { intros c Hc. rewrite Hk2 by (unfold MAX_BLOCK_DIM; lia). rewrite Hn1 by done. ks_simpl.
    unfold spec_tok. change (0 - 2) with (-2). destruct (Hold c Hc) as (-> & _). unfold state_at. f_equal. lia. }
  intros [] s3 (Hub3 & Hupd3). assert (ub_ok s3) as Hok3 by (unfold ub_ok in *; by rewrite Hub3).
  eapply wp_seq; [eapply (store_row (gm s) _ spec_tok 1 1);
    [done| |lia|lia|unfold state_index; lia|exact Hupd3|]|].
  { destruct Hline as [Hl1 Hl2]. split; [done|]. destruct Hupd3 as (_ & _ & -> & _). by rewrite <- Hg. }
  { intros c Hc. unfold rrow. rewrite Hub3. fold (rrow s2 1 c). rewrite Hn2 by done. ks_simpl. rewrite Hg1.
    unfold spec_tok. change (1 - 2) with (-1). destruct (Hold c Hc) as (_ & ->). unfold state_at. f_equal. lia. }
  intros [] s4 (Hub4 & Hupd4). apply wp_SetWait; [rewrite Hub4, Hub3, Hf2, Hf1, Hfl; set_solver|].
  split_and!; [unfold ub_ok in *; by rewrite Hub4|rewrite Hub4, Hub3, Hf2, Hf1; done|].
  eapply conv_upd_ext; [|exact Hupd4]. simpl. lia.
Qed.

Definition spec_inv (g0 : GM T) (t : Z) s : Prop :=
  ub_ok s /\ flags (ub s) = spec_flags t /\ conv_upd g0 (fun pos => 0 <= pos < 2 + t) spec_tok (gm s) /\
  (t < len -> forall c, 0 <= c < baseDim -> rrow s (t mod 2) c = tok t c).

Lemma land_lxor t : Z.land t 1 = t mod 2 /\ Z.lxor (Z.land t 1) 1 = (t + 1) mod 2.
Proof.
  rewrite (land1 t). split; [done|].
  assert (t mod 2 = 0 \/ t mod 2 = 1) as [Hp|Hp] by (pose proof (Z.mod_pos_bound t 2); lia); rewrite Hp;
    [change (Z.lxor 0 1) with 1|change (Z.lxor 1 1) with 0]; clear - Hp; zlia.
Qed.

(** The flags before and after the store of draft token [t]. *)
Lemma spec_flags_wait t : 0 <= t < len ->
  M2 (t mod 2) ∈ spec_flags t /\
  spec_flags t ∖ {[ M2 (t mod 2) ]} = (if 1 <=? t then {[ M3 ((t + 1) mod 2) ]} else ∅).
Proof.
  intros Ht. unfold spec_flags. rewrite (proj2 (Z.ltb_lt t len)), (proj2 (Z.eqb_neq t len)) by lia. cbn [andb].
  replace ((t - 1) mod 2) with ((t + 1) mod 2) by zlia. split; [set_solver|]. case_if; set_solver.
Qed.

Lemma spec_flags_next t : 0 <= t < len ->
  {[ M3 (t mod 2) ]} ∪ (if t + 1 <? len then {[ M2 ((t + 1) mod 2) ]}
                        else if 1 <=? t then {[ M3 ((t + 1) mod 2) ]} else ∅) = spec_flags (t + 1).
Proof.
  intros Ht. unfold spec_flags. replace (t + 1 - 1) with t by lia. rewrite (proj2 (Z.leb_le 1 (t + 1))) by lia.
  destruct (t + 1 <? len) eqn:E; bool_prop.
  - rewrite (proj2 (Z.eqb_neq (t + 1) len)) by lia. cbn [andb]. set_solver.
  - rewrite (proj2 (Z.eqb_eq (t + 1) len)) by lia. cbn [andb].
    destruct (1 <=? t) eqn:E1; bool_prop.
    + rewrite (proj2 (Z.leb_le 2 (t + 1))) by lia. set_solver.
    + rewrite (proj2 (Z.leb_gt 2 (t + 1))) by lia. set_solver.
Qed.

(** The prefetch of the next draft token. *)
Lemma spec_prefetch t s :
  0 <= t < len -> ub_ok s -> flags (ub s) = (if 1 <=? t then {[ M3 ((t + 1) mod 2) ]} else ∅) ->
  (forall c, 0 <= c < baseDim -> rrow s (t mod 2) c = tok t c) ->
  wp (when (t + 1 <? len)
        (when (t >? 0) (Wait_ (M3 ((t + 1) mod 2))) ;;
         DataCopy 2 ring (((t + 1) mod 2) * MAX_BLOCK_DIM) (fun _ => xGm e)
           (i32 (start + t + 1) * td_dim td + channelStart) baseDim ;;
         Set_ (M2 ((t + 1) mod 2))))
     (fun _ s' => ub_ok s' /\ gm s' = gm s /\
        flags (ub s') = (if t + 1 <? len then {[ M2 ((t + 1) mod 2) ]}
                         else if 1 <=? t then {[ M3 ((t + 1) mod 2) ]} else ∅) /\
        (forall c, 0 <= c < baseDim -> rrow s' (t mod 2) c = tok t c) /\
        (t + 1 < len -> forall c, 0 <= c < baseDim -> rrow s' ((t + 1) mod 2) c = tok (t + 1) c)) s.
Proof.
  intros Ht Hok Hfl Hcur. pose proof (eo_tokens e Henv). pose proof (eo_dim e Henv). pose proof (eo_x e Henv) as Hx.
  unfold INT32_MAX in *. pose proof Hchan as (Hc0 & Hb & _ & Hd).
  assert (0 <= (t + 1) mod 2 < 2) as Hpar by (apply Z.mod_pos_bound; lia).
  destruct (t + 1 <? len) eqn:E; bool_prop; [|apply wp_when_false; [done|]; split_and!; try done; lia].
  apply wp_when_true; [done|]. rewrite i32_id by (unfold fits_i32; lia).
  eapply wp_seq with (P := fun _ s1 => s1 = lset events ∅ s).
  { rewrite Z.gtb_ltb. destruct (1 <=? t) eqn:E1; bool_prop.
    - apply wp_when_true; [apply Z.ltb_lt; lia|]. apply wp_WaitFlag; ks_simpl; rewrite Hfl; [set_solver|].
      by replace ({[ M3 ((t + 1) mod 2) ]} ∖ {[ M3 ((t + 1) mod 2) ]}) with (∅ : gset Event) by set_solver.
    - apply wp_when_false; [apply Z.ltb_ge; lia|]. rewrite <- Hfl. by rewrite set_flags_same. }
  intros [] s1 ->.
  eapply wp_seq; [apply (copy_to_ring e channelStart baseDim Hchan); [exact Hok|lia|nia|rewrite Hx; nia]|].
  intros [] s2 (Hs2 & Hnew & Hkeep). pose proof (ring_only_ub_ok _ _ Hs2 Hok) as Hok2.
  destruct Hs2 as (Hg2 & _ & _ & _ & Hf2). ks_simpl.
  apply wp_SetFlag; [ks_simpl; rewrite Hf2; set_solver|]. unfold rrow in *. ks_simpl. split_and!.
  - exact Hok2.
  - done.
  - rewrite Hf2. set_solver.
  - intros c Hc. rewrite Hkeep by (unfold MAX_BLOCK_DIM; zlia). by apply Hcur.
  - intros _ c Hc. rewrite Hnew by done. rewrite Htok by lia. f_equal. lia.
Qed.

Lemma WriteBackStateSpec_step_spec g0 t s :
  line_ok e g0 cacheIdx -> 2 + len <= td_stateLen td -> 0 <= t < len -> spec_inv g0 t s ->
  wp (WriteBackStateSpec_step e cacheIdx start len channelStart baseDim (td_dim td) t)
     (fun _ s' => spec_inv g0 (t + 1) s') s.
Proof.
  intros Hline Hsl Ht (Hok & Hfl & Hupd & Hcur). specialize (Hcur ltac:(lia)).
  assert (0 <= t mod 2 < 2 /\ 0 <= (t + 1) mod 2 < 2) as [Hp Hp1] by (split; apply Z.mod_pos_bound; lia).
  unfold WriteBackStateSpec_step. destruct (land_lxor t) as [Hl Hx]. rewrite Hx, Hl, (stateLen_i32 e Henv). cbv zeta.
  assert (forall k, 0 <= k < 2 -> (if k =? 0 then 0 * MAX_BLOCK_DIM else 1 * MAX_BLOCK_DIM) = k * MAX_BLOCK_DIM) as Hbuf
    by (intros k Hk; case_if; [by subst|by assert (k = 1) as -> by lia]).
  rewrite !Hbuf by lia. destruct (spec_flags_wait t Ht) as [Hin Heq].
  apply wp_bind, wp_WaitFlag; [ks_simpl; by rewrite Hfl|]. ks_simpl. rewrite Hfl, Heq.
  eapply wp_seq; [apply (spec_prefetch t); done|].
  intros [] s1 (Hok1 & Hg1 & Hf1 & Hcur1 & Hnext1). ks_simpl. rewrite <- Hg1 in Hupd.
  eapply wp_seq; [eapply (store_row g0 _ spec_tok (2 + t) (t mod 2));
    [done|by eapply line_ok_upd|lia|lia|unfold state_index, keep, MAX_WIDTH; lia|exact Hupd|]|].
  { intros c Hc. rewrite Hcur1 by done. unfold spec_tok. f_equal. lia. }
  intros [] s2 (Hub2 & Hupd2). apply wp_SetFlag.
  { ks_simpl. rewrite Hub2, Hf1. assert ((t + 1) mod 2 <> t mod 2) by zlia. repeat case_if; set_solver. }
  unfold spec_inv. ks_simpl. rewrite Hub2, Hf1. split_and!.
  - unfold ub_ok in *. ks_simpl. by rewrite Hub2.
  - by apply spec_flags_next.
  - eapply conv_upd_ext; [|exact Hupd2]. simpl. lia.
  - intros Hlt c Hc. unfold rrow. ks_simpl. rewrite Hub2. by apply Hnext1.
Qed.

Lemma spec_flags_end :
  M3 0 ∈ spec_flags len /\ (len > 1 -> M3 1 ∈ spec_flags len) /\
  (if 1 <? len then spec_flags len ∖ {[ M3 0 ]} ∖ {[ M3 1 ]} else spec_flags len ∖ {[ M3 0 ]}) = ∅.
Proof.
  unfold spec_flags. rewrite (proj2 (Z.ltb_ge len len)), (proj2 (Z.leb_le 1 len)), Z.eqb_refl by lia. cbn [andb].
  destruct (1 <? len) eqn:E; bool_prop.
  - rewrite (proj2 (Z.leb_le 2 len)) by lia.
    assert (len mod 2 = 0 /\ (len - 1) mod 2 = 1 \/ len mod 2 = 1 /\ (len - 1) mod 2 = 0) as [[-> ->]|[-> ->]]
      by (clear; zlia); set_solver.
  - assert (len = 1) as -> by lia. cbn [Z.leb Z.compare Pos.compare Pos.compare_cont].
    change ((1 - 1) mod 2) with 0. split_and!; [set_solver|lia|set_solver].
Qed.

Lemma WriteBackStateSpec_spec off s :
  W = 4 -> ub_ok s -> flags (ub s) = ∅ -> line_ok e (gm s) cacheIdx ->
  0 <= off -> off + 3 <= td_stateLen td ->
  (forall c, 0 <= c < baseDim -> tok (-2) c = state_at e (gm s) cacheIdx (off + 1) (channelStart + c) /\
                                 tok (-1) c = state_at e (gm s) cacheIdx (off + 2) (channelStart + c)) ->
  ring_holds baseDim tok (Z.max (- (W - 1)) (len - 3)) (len - 1) s ->
  wp (WriteBackStateSpec e cacheIdx true off start len channelStart baseDim (td_dim td))
     (fun _ s' => ub_ok s' /\ flags (ub s') = ∅ /\
        if 2 + len <=? td_stateLen td
        then conv_upd (gm s) (fun pos => 0 <= pos < 2 + len) spec_tok (gm s')
        else conv_upd (gm s) (fun pos => 0 <= pos < W - 1) (fun pos => tok (len - (W - 1) + pos)) (gm s')) s.
Proof.
  intros HW Hok Hfl Hline Hoff Hmax Hold Hring. pose proof (eo_tokens e Henv) as Htk. pose proof (eo_dim e Henv).
  pose proof (eo_x e Henv) as Hx. pose proof Hchan as (Hc0 & Hb & _ & Hd).
  unfold WriteBackStateSpec. rewrite (width_i32 e Henv), (stateLen_i32 e Henv), HW. cbv zeta.
  rewrite (proj2 (Z.leb_gt len 0)) by lia. cbn [Z.eqb Pos.eqb negb]. unfold keep, MAX_WIDTH.
  rewrite i32_id by (unfold fits_i32, INT32_MAX in *; lia). change (4 - 2) with 2.
  rewrite Z.gtb_ltb. destruct (td_stateLen td <? 2 + len) eqn:E; bool_prop.
  { rewrite (proj2 (Z.leb_gt (2 + len) (td_stateLen td))) by lia.
    eapply wp_mono; [apply (WriteBackState_spec len); [lia|lia|done|done|exact Hring]|].
    intros _ s' (Hub & Hupd). rewrite HW in Hupd. rewrite Hub. split_and!; [unfold ub_ok in *; by rewrite Hub|done|done]. }
  rewrite (proj2 (Z.leb_le (2 + len) (td_stateLen td))) by lia.
  eapply wp_seq; [apply (WriteBackStateSpec_shift_spec off); try done; lia|].
  intros [] s1 (Hok1 & Hf1 & Hupd1).
  eapply wp_seq; [apply (copy_to_ring e channelStart baseDim Hchan 0); [done|lia|nia|rewrite Hx; nia]|].
  intros [] s2 (Hs2 & Hnew & _). pose proof (ring_only_ub_ok _ _ Hs2 Hok1) as Hok2.
  destruct Hs2 as (Hg2 & _ & _ & _ & Hf2).
  apply wp_bind, wp_SetFlag; [ks_simpl; rewrite Hf2, Hf1; set_solver|]. ks_simpl. rewrite Hf2, Hf1.
  eapply wp_seq with (P := fun _ s3 => spec_inv (gm s) len s3).
  { apply (wp_for_range (fun t s3 => spec_inv (gm s) t s3)); [lia| | |done].
    - split_and!; ks_simpl; [done| |rewrite Hg2; done|].
      + unfold spec_flags. rewrite (proj2 (Z.ltb_lt 0 len)), (proj2 (Z.eqb_neq 0 len)) by lia. simpl. set_solver.
      + intros _ c Hc. unfold rrow in *. ks_simpl. change (0 mod 2) with 0. rewrite Hnew by done.
        rewrite Htok by lia. f_equal. lia.
    - intros t s3 Ht Hinv. apply WriteBackStateSpec_step_spec; try done; lia. }
  intros [] s3 (Hok3 & Hf3 & Hupd3 & _). destruct spec_flags_end as (Hm0 & Hm1 & Hfin).
  apply wp_bind, wp_WaitFlag; [ks_simpl; by rewrite Hf3|]. ks_simpl. rewrite Hf3, Z.gtb_ltb.
  destruct (1 <? len) eqn:E1; bool_prop.
  - apply wp_when_true; [done|]. apply wp_WaitFlag; [ks_simpl; set_solver by lia|]. ks_simpl. done.
  - apply wp_when_false; [done|]. ks_simpl. done.
Qed.
End State.
