(* ===== verification/Conv1dSeqs.v ===== *)
(** The sequences of a causal_conv1d launch as the kernel resolves them: token
    window, cache line and initial-state flag of each. *)

From S2P Require Import Prelude AscendC Conv1dTypes Conv1dElem Conv1dKernel Conv1dKernelLemmas Conv1dLoad.

Section Seqs.
Context {T F : Type} `{ElemOps T F} `{!HalfLaws T F}.
Variable e : KernelEnv T.
Abbreviation td := (tilingData e).
Implicit Types s : KS T F.
Implicit Types g : GM T.

Abbreviation W := (td_width td).
Abbreviation mode := (GetSeqTaskWindowMode (i32 (td_inputMode td))).

(** ** What a sequence is *)

(** First token, length and cache line of a sequence. *)
Definition seq_start (seq : Z) : Z :=
  match mode with
  | SEQ_TASK_WINDOW_MODE_VARLEN => t_at (queryStartLocGm e) seq
  | SEQ_TASK_WINDOW_MODE_DECODE2D => seq
  | SEQ_TASK_WINDOW_MODE_BATCH => seq * td_seqLen td
  end.
Definition seq_len (seq : Z) : Z :=
  match mode with
  | SEQ_TASK_WINDOW_MODE_VARLEN => t_at (queryStartLocGm e) (seq + 1) - t_at (queryStartLocGm e) seq
  | SEQ_TASK_WINDOW_MODE_DECODE2D => 1
  | SEQ_TASK_WINDOW_MODE_BATCH => td_seqLen td
  end.
Definition seq_line (seq : Z) : option Z :=
  if td_hasCacheIndices td =? 0 then Some seq
  else if t_at (cacheIndicesGm e) seq =? td_padSlotId td then None
  else Some (t_at (cacheIndicesGm e) seq).

(** The inputs that describe the sequences are well formed: windows in order
    inside [x], cache lines inside [convStates], no line shared. *)
Record seqs_ok : Prop := {
  so_batch : 0 < td_batch td <= INT32_MAX;
  so_seqLen : 0 <= td_seqLen td <= INT32_MAX;
  so_qsl_len : mode = SEQ_TASK_WINDOW_MODE_VARLEN -> t_len (queryStartLocGm e) = td_batch td + 1;
  so_start : forall q, 0 <= q < td_batch td -> 0 <= seq_start q;
  so_len : forall q, 0 <= q < td_batch td -> 0 <= seq_len q;
  so_end : forall q, 0 <= q < td_batch td -> seq_start q + seq_len q <= td_cuSeqlen td;
  so_order : forall q q', 0 <= q < q' -> q' < td_batch td -> seq_start q + seq_len q <= seq_start q';
  so_ci_len : td_hasCacheIndices td <> 0 -> t_len (cacheIndicesGm e) = td_batch td;
  so_lines : 0 < td_numCacheLines td <= INT32_MAX;
  so_line : forall q l, 0 <= q < td_batch td -> seq_line q = Some l -> 0 <= l < td_numCacheLines td;
  so_distinct : forall q q' l, 0 <= q < td_batch td -> 0 <= q' < td_batch td ->
    seq_line q = Some l -> seq_line q' = Some l -> q = q' }.

Context (Henv : env_ok e) (Hseqs : seqs_ok).

Lemma ResolveSeqTaskWindowByMode_spec q s (Q : option (Z * Z) -> KS T F -> Prop) :
  0 <= q < td_batch td ->
  Q (if 0 <? seq_len q then Some (seq_start q, seq_len q) else None) s ->
  wp (ResolveSeqTaskWindowByMode e mode q (i32 (td_seqLen td))) Q s.
Proof.
  intros Hq HQ. pose proof (so_start Hseqs q Hq). pose proof (so_len Hseqs q Hq). pose proof (so_end Hseqs q Hq).
  pose proof (eo_tokens e Henv). pose proof (so_qsl_len Hseqs) as Hql. pose proof (so_seqLen Hseqs).
  unfold INT32_MAX in *. unfold ResolveSeqTaskWindowByMode, seq_start, seq_len in *.
  destruct mode.
  - specialize (Hql eq_refl). apply wp_bind, wp_bind, wp_GetValue; [lia|].
    apply wp_bind, wp_GetValue; [lia|]. apply wp_ret, wp_ret.
    rewrite !i32_id by (unfold fits_i32; lia). unfold BuildSeqTaskWindowVarlen. cbn [win_valid win_start win_len].
    rewrite i32_id by (unfold fits_i32; lia). rewrite Z.gtb_ltb. by destruct (0 <? _).
  - apply wp_bind, wp_ret, wp_ret. unfold BuildSeqTaskWindowBatch. cbn [win_valid win_start win_len].
    rewrite !i32_id by (unfold fits_i32; nia). rewrite Z.gtb_ltb. by destruct (0 <? _).
  - by apply wp_bind, wp_ret, wp_ret.
Qed.

Lemma ResolveSeqCacheIndex_spec q s (Q : option Z -> KS T F -> Prop) :
  0 <= q < td_batch td -> Q (seq_line q) s ->
  wp (ResolveSeqCacheIndex e q (negb (td_hasCacheIndices td =? 0))) Q s.
Proof.
  intros Hq HQ. pose proof (so_ci_len Hseqs) as Hcl. pose proof (so_line Hseqs q) as Hl. pose proof (so_lines Hseqs).
  unfold INT32_MAX in *. unfold ResolveSeqCacheIndex, seq_line in *.
  destruct (td_hasCacheIndices td =? 0) eqn:E; bool_prop; cbn [negb]; [by apply wp_ret|].
  apply wp_bind, wp_GetValue; [rewrite Hcl by done; lia|]. apply wp_ret.
  destruct (_ =? _); [done|]. specialize (Hl _ Hq eq_refl). by rewrite i32_id by (unfold fits_i32; lia).
Qed.
End Seqs.
