(* ===== verification/Conv1dUpdate.v ===== *)
(** Update (decode) mode of causal_conv1d: one task per sequence and channel
    tile, tasks distributed over the cores by a grid-stride loop. *)

From S2P Require Import Prelude AscendC Conv1dTypes Conv1dPlanner Conv1dElem Conv1dKernel Conv1dKernelLemmas.
From S2P Require Import Conv1dLoad Conv1dRun Conv1dState Conv1dSeqs.

Section Update.
Context {T F : Type} `{ElemOps T F} `{!HalfLaws T F} `{!MulAddLaw T F}.
Variable e : KernelEnv T.
Abbreviation td := (tilingData e).
Implicit Types s : KS T F.
Implicit Types g : GM T.

Abbreviation W := (td_width td).
Abbreviation mode := (GetSeqTaskWindowMode (i32 (td_inputMode td))).
Abbreviation spec := (IsUpdateSpecDecodingEnabled e).

(** ** Channel tiles *)

Record tiles_ok : Prop := {
  to_dim : td_dim td + 4096 <= INT32_MAX /\ td_dim td mod 16 = 0;
  to_cover : tiles_cover (td_dim td) (td_baseDim td) (td_baseDimCnt td);
  to_size : td_baseDim td <= 4096 /\ td_baseDim td mod 16 = 0 }.

Definition tile_start (j : Z) : Z := j * td_baseDim td.
Definition tile_size (j : Z) : Z :=
  if tile_start j + td_baseDim td <=? td_dim td then td_baseDim td else td_dim td - tile_start j.

Context (Htiles : tiles_ok).

Lemma tile_chan_ok j : 0 <= j < td_baseDimCnt td -> chan_ok e (tile_start j) (tile_size j).
Proof.
  intros Hj. destruct Htiles as [[Hd1 Hd2] (Hb & Hc & Hcov & Hlast) [Hs1 Hs2]].
  unfold chan_ok, tile_size, tile_start. assert (j * td_baseDim td <= (td_baseDimCnt td - 1) * td_baseDim td) by nia.
  case_if; [split_and!; try done; nia|]. split_and!; [nia|lia|lia| |lia].
  rewrite Zminus_mod, Hd2, Z.mul_mod, Hs2, Z.mul_0_r by lia. done.
Qed.

(** A channel belongs to exactly one tile. *)
Lemma tile_of_channel ch : 0 <= ch < td_dim td ->
  0 <= ch / td_baseDim td < td_baseDimCnt td /\
  forall j, 0 <= j < td_baseDimCnt td ->
    (j = ch / td_baseDim td <-> tile_start j <= ch < tile_start j + tile_size j).
Proof.
  intros Hch. destruct Htiles as [_ (Hb & Hc & Hcov & Hlast) _].
  pose proof (Z.div_mod ch (td_baseDim td) ltac:(lia)). pose proof (Z.mod_pos_bound ch (td_baseDim td) Hb).
  pose proof (Z.div_pos ch (td_baseDim td) ltac:(lia) Hb). split; [nia|].
  intros j Hj. unfold tile_size, tile_start. split.
  - intros ->. case_if; nia.
  - intros Hin. case_if_in Hin; nia.
Qed.

Section Tasks.
Context (Henv : env_ok e) (Hseqs : seqs_ok e).

(** Widths of the remaining fields; the draft counts are one per sequence. *)
Record update_ok : Prop := {
  uo_run : runModeKey e = CAUSAL_CONV1D_TPL_RUN_MODE_UPDATE;
  uo_accepted : spec = true -> t_len (numAcceptedTokensGm e) = td_batch td }.
Context (Hupd : update_ok).

(** Sizes of the tensors the kernel writes. *)
Definition gm_ok g : Prop :=
  t_len (yGm g) = td_cuSeqlen td * td_dim td /\
  t_len (convStatesGm g) = td_numCacheLines td * (td_stateLen td * td_dim td).

Definition core_idle s : Prop := ub_ok s /\ flags (ub s) = ∅.

(** Where the history of a sequence starts in its cache line. *)
Definition seq_offset (q : Z) : Z :=
  if spec then ResolveStateTokenOffset e (i32 (t_at (numAcceptedTokensGm e) q)) else 0.

(** Whatever the accepted count, the offset stays inside the cache line. *)
Lemma seq_offset_range q : 0 <= seq_offset q /\ seq_offset q + (W - 1) <= td_stateLen td.
Proof.
  pose proof (eo_state e Henv). pose proof (eo_width e Henv). unfold INT32_MAX in *.
  unfold seq_offset, ResolveStateTokenOffset. rewrite (width_i32 e Henv). destruct spec; [|lia].
  rewrite (i32_id (td_stateLen td - (W - 1))) by (unfold fits_i32; lia). cbv zeta. repeat case_if; lia.
Qed.

(** Token [k] of sequence [q] in channel [ch]: history from its cache line. *)
Definition seq_tok g (q line k ch : Z) : T :=
  if k <? 0 then state_at e g line (seq_offset q + (k + (W - 1))) ch
  else t_at (xGm e) ((seq_start e q + k) * td_dim td + ch).

(** The state a sequence leaves behind. *)
Definition new_dom (q pos : Z) : Prop :=
  if spec && (2 + seq_len e q <=? td_stateLen td) then 0 <= pos < 2 + seq_len e q else 0 <= pos < W - 1.
Definition new_state g (q line pos ch : Z) : T :=
  if spec && (2 + seq_len e q <=? td_stateLen td) then seq_tok g q line (pos - 2) ch
  else seq_tok g q line (seq_len e q - (W - 1) + pos) ch.

(** The stream of a task, tile by tile. *)
Definition task_stream g (q line j k c : Z) : T :=
  task_tok e (tile_start j) (fun i c => state_at e g line (seq_offset q + i) (tile_start j + c)) (seq_start e q) k c.

Lemma task_stream_eq g q line j k c : task_stream g q line j k c = seq_tok g q line k (tile_start j + c).
Proof. unfold task_stream, task_tok, seq_tok. case_if; [done|]. f_equal. lia. Qed.

(** The effect of the task of sequence [q] and tile [j]. *)
Definition task_done (q line j : Z) g g' : Prop :=
  exists g1, y_done e (tile_start j) (tile_size j) (task_stream g q line j) (seq_start e q) g (seq_len e q) g1 /\
    conv_upd e (tile_start j) (tile_size j) line g1 (new_dom q)
      (fun pos c => new_state g q line pos (tile_start j + c)) g'.

Lemma task_decode q j : 0 <= q < td_batch td -> 0 <= j < td_baseDimCnt td ->
  let task := q * td_baseDimCnt td + j in
  i32 (task /c i32 (td_baseDimCnt td)) = q /\ i32 (task %c i32 (td_baseDimCnt td)) = j /\
  i32 (td_baseDim td) = td_baseDim td /\ i32 (j * td_baseDim td) = tile_start j /\
  i32 (tile_start j + td_baseDim td) = tile_start j + td_baseDim td /\ tile_start j < td_dim td.
Proof.
  intros Hq Hj task. destruct Htiles as [[Hd _] (Hb & Hc & Hcov & Hlast) [Hs _]]. pose proof (so_batch e Hseqs).
  pose proof (eo_dim e Henv). unfold INT32_MAX in *.
  assert (td_baseDimCnt td <= td_dim td) by nia. assert (j * td_baseDim td <= (td_baseDimCnt td - 1) * td_baseDim td) by nia.
  rewrite (i32_id (td_baseDimCnt td)) by (unfold fits_i32; lia).
  rewrite quot_nonneg_div, rem_nonneg_mod by (subst task; nia).
  assert (task / td_baseDimCnt td = q) as -> by (subst task; rewrite Z.div_add_l, Z.div_small by lia; lia).
  assert (task mod td_baseDimCnt td = j) as -> by (subst task; rewrite Z.add_comm, Z.mod_add, Z.mod_small; lia).
  rewrite (i32_id q), (i32_id j), (i32_id (td_baseDim td)), (i32_id (j * td_baseDim td)) by (unfold fits_i32; nia).
  unfold tile_start. rewrite i32_id by (unfold fits_i32; nia). split_and!; try done. lia.
Qed.

Lemma update_no_rolling : template_ok e.
Proof.
  unfold template_ok, IsFnRollingFastPathEnabled, kIsUpdateMode. rewrite (uo_run Hupd). done.
Qed.

Lemma spec_width : spec = true -> W = 4.
Proof. unfold IsUpdateSpecDecodingEnabled. intros E. bool_prop. done. Qed.

Lemma line_of_gm g q line : gm_ok g -> 0 <= q < td_batch td -> seq_line e q = Some line -> line_ok e g line.
Proof.
  intros [_ Hl] Hq Hline. pose proof (so_line e Hseqs q line Hq Hline). pose proof (eo_dim e Henv).
  pose proof (eo_state e Henv). pose proof (eo_width e Henv). split; [lia|]. rewrite Hl.
  assert (0 < td_stateLen td * td_dim td) by nia. nia.
Qed.

(** The write-back of a task in either mode. *)
Lemma task_write_back q line j g0 s :
  0 <= q < td_batch td -> 0 <= j < td_baseDimCnt td -> 0 < seq_len e q -> line_ok e g0 line ->
  run_done e (tile_start j) (tile_size j) (task_stream g0 q line j) (seq_start e q) (seq_len e q) g0 s ->
  wp (if spec then
        DrainTaskMte3 ;;
        WriteBackStateSpec e line true (seq_offset q) (seq_start e q) (seq_len e q) (tile_start j) (tile_size j) (td_dim td)
      else WriteBackState e line (seq_len e q) (tile_start j) (tile_size j) (td_dim td))
     (fun _ s' => core_idle s' /\ task_done q line j g0 (gm s')) s.
Proof.
  intros Hq Hj Hlen Hline (Hok & Hfl & Hring & Hy). pose proof (tile_chan_ok j Hj) as Hchan.
  pose proof (so_start e Hseqs q Hq). pose proof (so_end e Hseqs q Hq). pose proof (eo_tokens e Henv).
  pose proof (seq_offset_range q) as [Ho1 Ho2]. pose proof Hy as (Hcv & _).
  assert (line_ok e (gm s) line) as Hline' by (unfold line_ok in *; by rewrite Hcv).
  assert (forall f D g', conv_upd e (tile_start j) (tile_size j) line (gm s) D f g' ->
    (forall pos, D pos <-> new_dom q pos) ->
    (forall pos c, f pos c = new_state g0 q line pos (tile_start j + c)) -> task_done q line j g0 g') as Hdone.
  { intros f D g' Hu HD Hf. exists (gm s). split; [done|]. eapply conv_upd_ext; [exact HD|].
    eapply conv_upd_val; [|exact Hu]. intros pos c _ _. apply Hf. }
  unfold new_dom, new_state in Hdone. destruct spec eqn:Es.
  - pose proof (spec_width Es) as HW. rewrite HW in Ho2.
    eapply wp_seq; [by apply (DrainTaskMte3_spec s (fun _ s' => s' = s))|]. intros [] s1 ->.
    eapply wp_mono; [apply (WriteBackStateSpec_spec e Henv _ _ Hchan (task_stream g0 q line j) line _ _); try done; try lia|].
    + intros k c Hk. rewrite task_stream_eq. unfold seq_tok. rewrite (proj2 (Z.ltb_ge k 0)) by lia. f_equal. lia.
    + intros c Hc. rewrite !task_stream_eq. unfold seq_tok, state_at. rewrite Hcv, HW. cbn [Z.ltb Z.compare].
      split; do 4 f_equal; lia.
    + intros [] s' (Hok' & Hf' & Hu). split; [done|]. cbn [andb] in Hdone.
      destruct (2 + seq_len e q <=? td_stateLen td); (eapply Hdone; [exact Hu|done|]);
        intros pos c; unfold spec_tok; cbv beta; by rewrite task_stream_eq.
  - eapply wp_mono; [by apply (WriteBackState_spec e Henv _ _ Hchan (task_stream g0 q line j) line); try lia|].
    intros [] s' (Hub & Hu). split; [unfold core_idle, ub_ok in *; by rewrite Hub|].
    eapply Hdone; [exact Hu|done|]. intros pos c. cbv beta. by rewrite task_stream_eq.
Qed.

(** A task of an active sequence computes its tile of the outputs and of the
    new state; other tasks do nothing. *)
Lemma ProcessDefault_task_spec q j s :
  0 <= q < td_batch td -> 0 <= j < td_baseDimCnt td -> gm_ok (gm s) -> core_idle s ->
  wp (ProcessDefault_task e mode (q * td_baseDimCnt td + j))
     (fun _ s' => core_idle s' /\
        match seq_line e q with
        | Some line => if 0 <? seq_len e q then task_done q line j (gm s) (gm s') else gm s' = gm s
        | None => gm s' = gm s
        end) s.
Proof.
  intros Hq Hj Hgm [Hok Hfl]. pose proof (tile_chan_ok j Hj) as Hchan.
  destruct (task_decode q j Hq Hj) as (Eq & Ej & Eb & Ec & Ecb & Elt).
  unfold ProcessDefault_task. rewrite Eq, Ej, Eb, Ec, Ecb, (dim_i32 e Henv). cbv zeta.
  rewrite Z.geb_leb, (proj2 (Z.leb_gt _ _)) by lia. fold (tile_size j).
  apply wp_bind. apply (ResolveSeqTaskWindowByMode_spec e Henv Hseqs); [done|].
  destruct (0 <? seq_len e q) eqn:El; bool_prop;
    [|apply wp_ret; split; [done|]; by destruct (seq_line e q)].
  apply wp_bind. apply (ResolveSeqCacheIndex_spec e Hseqs); [done|].
  destruct (seq_line e q) as [line|] eqn:Hline; [|by apply wp_ret].
  pose proof (line_of_gm _ q line Hgm Hq Hline) as Hlok. pose proof (seq_offset_range q) as [Ho1 Ho2].
  pose proof (so_start e Hseqs q Hq). pose proof (so_end e Hseqs q Hq).
  eapply wp_seq with (P := fun off s1 => off = seq_offset q /\ s1 = s).
  { unfold seq_offset. destruct spec eqn:Es; [|by apply wp_ret].
    apply wp_bind, wp_GetValue; [rewrite (uo_accepted Hupd) by done; lia|]. by apply wp_ret. }
  intros off s0 [-> ->].
  eapply wp_seq; [apply (LoadWeightAndBias_spec e Henv _ _ Hchan); [done|rewrite Hfl; set_solver]|].
  intros [] s1 (Hs1 & Hwl). pose proof (calc_only_ub_ok _ _ Hs1 Hok) as Hok1. destruct Hs1 as (Hg1 & _ & _ & Hf1 & _).
  eapply wp_seq; [apply (InitRing_spec e Henv _ _ Hchan); rewrite ?Hf1, ?Hg1; done|].
  intros [] s2 ((Hg2 & Hl2 & Ho2' & Hc2) & Hf2 & Hring2). rewrite Hg1 in Hring2.
  eapply wp_seq; [apply (RunSeq_spec e Henv _ _ Hchan (task_stream (gm s) q line j)); try done|].
  - intros k c Hk. rewrite task_stream_eq. unfold seq_tok. rewrite (proj2 (Z.ltb_ge k 0)) by lia. f_equal. lia.
  - apply update_no_rolling.
  - unfold ub_ok in *. by rewrite Hl2, Ho2', Hc2.
  - unfold weights_loaded, crow in *. by rewrite Hc2.
  - rewrite Hg2, Hg1. apply Hgm.
  - intros [] s3 Hdone. rewrite Hg2, Hg1 in Hdone.
    eapply wp_seq; [by apply (task_write_back q line j (gm s))|].
    intros [] s4 (Hidle & Htd). apply DrainTaskMte3_spec; [apply Hidle|done].
Qed.

(** ** The whole grid *)

(** A sequence that is processed: not empty, not padding. *)
Definition active (q line : Z) : Prop := 0 <= q < td_batch td /\ seq_line e q = Some line /\ 0 < seq_len e q.

(** The output specification: token [t] of sequence [q] in channel [ch]. *)
Definition y_spec g (q line t ch : Z) : T :=
  conv_out (HasActivation e) (HasBias e) (bias_at e ch) W (weight_at e ch) (fun k => seq_tok g q line k ch) t.

Definition y_cell (q t ch : Z) : Z := (seq_start e q + t) * td_dim td + ch.
Definition state_cell (line pos ch : Z) : Z := line * td_stateLen td * td_dim td + pos * td_dim td + ch.

(** The task that owns channel [ch] of sequence [q]. *)
Definition owner (q ch : Z) : Z := q * td_baseDimCnt td + ch / td_baseDim td.

(** After the tasks in [Done]: exactly their cells have their final values,
    computed from the initial memory [g0]. *)
Record grid_inv g0 (Done : Z -> Prop) g : Prop := {
  gi_ok : gm_ok g;
  gi_y_done : forall q line t ch, active q line -> 0 <= t < seq_len e q -> 0 <= ch < td_dim td -> Done (owner q ch) ->
    t_at (yGm g) (y_cell q t ch) = y_spec g0 q line t ch;
  gi_y_rest : forall i,
    (forall q line t ch, active q line -> 0 <= t < seq_len e q -> 0 <= ch < td_dim td -> Done (owner q ch) ->
       i <> y_cell q t ch) ->
    t_at (yGm g) i = t_at (yGm g0) i;
  gi_state_done : forall q line pos ch, active q line -> new_dom q pos -> 0 <= ch < td_dim td -> Done (owner q ch) ->
    t_at (convStatesGm g) (state_cell line pos ch) = new_state g0 q line pos ch;
  gi_state_rest : forall i,
    (forall q line pos ch, active q line -> new_dom q pos -> 0 <= ch < td_dim td -> Done (owner q ch) ->
       i <> state_cell line pos ch) ->
    t_at (convStatesGm g) i = t_at (convStatesGm g0) i }.

Lemma new_dom_range q line pos : active q line -> new_dom q pos -> 0 <= pos < td_stateLen td.
Proof.
  intros (_ & _ & Hl) Hd. pose proof (eo_state e Henv). unfold new_dom in Hd.
  destruct (spec && _) eqn:E; bool_prop; lia.
Qed.

Lemma y_cell_inj q1 line1 t1 ch1 q2 line2 t2 ch2 :
  active q1 line1 -> active q2 line2 -> 0 <= t1 < seq_len e q1 -> 0 <= t2 < seq_len e q2 ->
  0 <= ch1 < td_dim td -> 0 <= ch2 < td_dim td -> y_cell q1 t1 ch1 = y_cell q2 t2 ch2 ->
  q1 = q2 /\ t1 = t2 /\ ch1 = ch2.
Proof.
  intros (Hq1 & _) (Hq2 & _) Ht1 Ht2 Hc1 Hc2 Heq. unfold y_cell in Heq.
  destruct (tile_unique _ _ _ _ (td_dim td) Heq) as [Ht Hc]; [done..|].
  assert (q1 = q2) as ->; [|lia]. destruct (Z.lt_trichotomy q1 q2) as [Hlt|[->|Hlt]]; [|done|].
  - pose proof (so_order e Hseqs q1 q2 ltac:(lia) ltac:(lia)). lia.
  - pose proof (so_order e Hseqs q2 q1 ltac:(lia) ltac:(lia)). lia.
Qed.

Lemma state_cell_inj l1 p1 ch1 l2 p2 ch2 :
  0 <= p1 < td_stateLen td -> 0 <= p2 < td_stateLen td -> 0 <= ch1 < td_dim td -> 0 <= ch2 < td_dim td ->
  state_cell l1 p1 ch1 = state_cell l2 p2 ch2 -> l1 = l2 /\ p1 = p2 /\ ch1 = ch2.
Proof.
  intros Hp1 Hp2 Hc1 Hc2 Heq. unfold state_cell in Heq.
  destruct (tile_unique (l1 * td_stateLen td + p1) ch1 (l2 * td_stateLen td + p2) ch2 (td_dim td)) as [Hl Hc]; [lia|done..|].
  destruct (tile_unique _ _ _ _ (td_stateLen td) Hl) as [Hl' Hp]; [done..|]. done.
Qed.

Lemma owner_tile q ch j q' : 0 <= ch < td_dim td -> 0 <= j < td_baseDimCnt td ->
  owner q ch = q' * td_baseDimCnt td + j -> q = q' /\ j = ch / td_baseDim td.
Proof.
  intros Hch Hj Heq. pose proof (tile_of_channel ch Hch) as [Ht _]. unfold owner in Heq.
  destruct (tile_unique _ _ _ _ (td_baseDimCnt td) Heq); [done|done|]. done.
Qed.

(** The cells a task reads are still those of the initial memory. *)
Lemma seq_tok_initial g0 Done g q line k ch :
  grid_inv g0 Done g -> active q line -> ~ Done (owner q ch) -> 0 <= ch < td_dim td -> - (W - 1) <= k ->
  seq_tok g q line k ch = seq_tok g0 q line k ch.
Proof.
  intros Hinv Hact Hnd Hch Hk. unfold seq_tok. case_if; [|done]. unfold state_at.
  pose proof (seq_offset_range q). apply (gi_state_rest _ _ _ Hinv). intros q' line' pos' ch' Ha' Hd' Hc' HD Heq.
  apply (state_cell_inj line _ ch line' pos' ch') in Heq as (-> & _ & ->);
    [|lia|by eapply new_dom_range|done|done].
  destruct Hact as (Hq & Hl & _), Ha' as (Hq' & Hl' & _). by rewrite (so_distinct e Hseqs q q' line' Hq Hq' Hl Hl') in Hnd.
Qed.

Definition with_task (Done : Z -> Prop) (q j task : Z) : Prop := Done task \/ task = q * td_baseDimCnt td + j.

(** The cells of tile [j]: a channel of the tile is [tile_start j + c]. *)
Lemma tile_channel q j ch : 0 <= j < td_baseDimCnt td -> 0 <= ch < td_dim td ->
  owner q ch = q * td_baseDimCnt td + j ->
  exists c, 0 <= c < tile_size j /\ ch = tile_start j + c.
Proof.
  intros Hj Hch Ho. apply owner_tile in Ho as (_ & Ho); [|done|done].
  apply (proj2 (tile_of_channel ch Hch)) in Ho; [|done]. exists (ch - tile_start j). lia.
Qed.

Lemma tile_channel_owner q j c : 0 <= j < td_baseDimCnt td -> 0 <= c < tile_size j ->
  0 <= tile_start j + c < td_dim td /\ owner q (tile_start j + c) = q * td_baseDimCnt td + j.
Proof.
  intros Hj Hc. destruct (tile_chan_ok j Hj) as (H1 & H2 & _ & H4).
  assert (0 <= tile_start j + c < td_dim td) as Hch by lia. split; [done|]. unfold owner. f_equal. symmetry.
  apply (proj2 (tile_of_channel _ Hch)); lia.
Qed.

Section Step.
Context (g0 : GM T) (Done : Z -> Prop) (g g' : GM T) (q line j : Z).
Context (Hinv : grid_inv g0 Done g) (Hact : active q line) (Hj : 0 <= j < td_baseDimCnt td).
Context (Hnew : ~ Done (q * td_baseDimCnt td + j)) (Htask : task_done q line j g g').

Lemma stream_initial k c : - (W - 1) <= k -> 0 <= c < tile_size j ->
  task_stream g q line j k c = seq_tok g0 q line k (tile_start j + c).
Proof.
  intros Hk Hc. destruct (tile_channel_owner q j c Hj Hc) as [Hch Ho]. rewrite task_stream_eq.
  apply (seq_tok_initial g0 Done); try done. by rewrite Ho.
Qed.

Lemma step_y_new t c : 0 <= t < seq_len e q -> 0 <= c < tile_size j ->
  t_at (yGm g') (y_cell q t (tile_start j + c)) = y_spec g0 q line t (tile_start j + c).
Proof.
  intros Ht Hc. destruct Htask as (g1 & (_ & _ & _ & Hy & _) & (Hyc & _)). rewrite Hyc.
  replace (y_cell q t (tile_start j + c)) with (y_index e (tile_start j) (seq_start e q) t c)
    by (unfold y_cell, y_index; lia).
  rewrite Hy by done. pose proof (eo_width e Henv). unfold out, y_spec. apply conv_out_ext; [lia|done|done|].
  intros i Hi. apply stream_initial; [lia|done].
Qed.

Lemma step_y_rest i : (forall t c, 0 <= t < seq_len e q -> 0 <= c < tile_size j -> i <> y_cell q t (tile_start j + c)) ->
  t_at (yGm g') i = t_at (yGm g) i.
Proof.
  intros Hi. destruct Htask as (g1 & (_ & _ & _ & _ & Hrest) & (Hyc & _)). rewrite Hyc. apply Hrest.
  intros t c Ht Hc ->. eapply Hi; [exact Ht|exact Hc|]. unfold y_cell, y_index. lia.
Qed.

Lemma step_state_new pos c : new_dom q pos -> 0 <= c < tile_size j ->
  t_at (convStatesGm g') (state_cell line pos (tile_start j + c)) = new_state g0 q line pos (tile_start j + c).
Proof.
  intros Hd Hc. destruct Htask as (g1 & _ & (_ & _ & _ & Hs & _)).
  replace (state_cell line pos (tile_start j + c)) with (state_index e (tile_start j) line pos c)
    by (unfold state_cell, state_index; lia).
  rewrite Hs by done. unfold new_state. pose proof (eo_width e Henv).
  assert (forall k, - (W - 1) <= k -> seq_tok g q line k (tile_start j + c) = seq_tok g0 q line k (tile_start j + c)) as Hk
    by (intros k Hk; rewrite <- task_stream_eq; by apply stream_initial).
  destruct Hact as (_ & _ & Hl). unfold new_dom in Hd. pose proof spec_width as HW.
  destruct (spec && _) eqn:E; [|apply Hk; lia]. apply andb_prop in E as [E _]. specialize (HW E). apply Hk. lia.
Qed.

Lemma step_state_rest i :
  (forall pos c, new_dom q pos -> 0 <= c < tile_size j -> i <> state_cell line pos (tile_start j + c)) ->
  t_at (convStatesGm g') i = t_at (convStatesGm g) i.
Proof.
  intros Hi. destruct Htask as (g1 & (Hc1 & _) & (_ & _ & _ & _ & Hrest)). rewrite Hrest, Hc1; [done|].
  intros pos c Hd Hc ->. eapply Hi; [exact Hd|exact Hc|]. unfold state_cell, state_index. lia.
Qed.

Lemma grid_inv_step : grid_inv g0 (with_task Done q j) g'.
Proof.
  pose proof Hact as (Hq & Hline & Hl). split.
  - destruct Htask as (g1 & (Hc1 & _ & Hl1 & _) & (Hyc & _ & Hl2 & _)), (gi_ok _ _ _ Hinv) as [H1 H2].
    split; [by rewrite Hyc, Hl1|by rewrite Hl2, Hc1].
  - intros q' line' t ch Ha Ht Hch [HD|HD].
    + rewrite step_y_rest; [by apply (gi_y_done _ _ _ Hinv)|]. intros t' c Ht' Hc Heq.
      destruct (tile_channel_owner q j c Hj Hc) as [Hch' Ho].
      apply (y_cell_inj q' line' t ch q line t' (tile_start j + c)) in Heq as (-> & _ & ->); try done. by rewrite Ho in HD.
    + pose proof HD as HD'. apply owner_tile in HD' as (-> & _); [|done|done].
      destruct (tile_channel q j ch Hj Hch HD) as (c & Hc & ->). destruct Ha as (_ & Hline' & _).
      assert (line' = line) as -> by congruence. by apply step_y_new.
  - intros i Hi. rewrite step_y_rest.
    + apply (gi_y_rest _ _ _ Hinv). intros q' line' t ch Ha Ht Hch HD. eapply Hi; try done. by left.
    + intros t c Ht Hc. destruct (tile_channel_owner q j c Hj Hc) as [Hch Ho].
      apply (Hi q line); try done. by right.
  - intros q' line' pos ch Ha Hd Hch [HD|HD].
    + rewrite step_state_rest; [by apply (gi_state_done _ _ _ Hinv)|]. intros pos' c Hd' Hc Heq.
      destruct (tile_channel_owner q j c Hj Hc) as [Hch' Ho].
      destruct (state_cell_inj line' pos ch line pos' (tile_start j + c)) as (-> & _ & ->);
        [exact (new_dom_range q' line' pos Ha Hd)|exact (new_dom_range q line pos' Hact Hd')|done..|].
      destruct Ha as (Hq' & Hl' & _). rewrite (so_distinct e Hseqs q' q line Hq' Hq Hl' Hline), Ho in HD. done.
    + pose proof HD as HD'. apply owner_tile in HD' as (-> & _); [|done|done].
      destruct (tile_channel q j ch Hj Hch HD) as (c & Hc & ->). destruct Ha as (_ & Hline' & _).
      assert (line' = line) as -> by congruence. by apply step_state_new.
  - intros i Hi. rewrite step_state_rest.
    + apply (gi_state_rest _ _ _ Hinv). intros q' line' pos ch Ha Hd Hch HD. eapply Hi; try done. by left.
    + intros pos c Hd Hc. destruct (tile_channel_owner q j c Hj Hc) as [Hch Ho].
      apply (Hi q line); try done. by right.
Qed.
End Step.

(** The task of an inactive sequence owns no cell. *)
Lemma grid_inv_skip g0 Done g q j :
  grid_inv g0 Done g -> 0 <= j < td_baseDimCnt td -> (forall line, ~ active q line) ->
  grid_inv g0 (with_task Done q j) g.
Proof.
  intros [H1 H2 H3 H4 H5] Hj Hna.
  assert (forall q' line ch, active q' line -> 0 <= ch < td_dim td ->
    with_task Done q j (owner q' ch) -> Done (owner q' ch)) as Hold.
  { intros q' line ch Ha Hch [HD|HD]; [done|]. exfalso. apply owner_tile in HD as (-> & _); [|done|done].
    by eapply Hna. }
  split; [done|eauto| |eauto|].
  - intros i Hi. apply H3. intros. eapply Hi; try done. by left.
  - intros i Hi. apply H5. intros. eapply Hi; try done. by left.
Qed.

Definition gridSize : Z := td_batch td * td_baseDimCnt td.

Lemma grid_inv_ext g0 (D D' : Z -> Prop) g :
  (forall task, 0 <= task < gridSize -> (D task <-> D' task)) -> grid_inv g0 D g -> grid_inv g0 D' g.
Proof.
  intros HD [H1 H2 H3 H4 H5].
  assert (forall q line ch, active q line -> 0 <= ch < td_dim td -> (D (owner q ch) <-> D' (owner q ch))) as HDo.
  { intros q line ch (Hq & _) Hch. apply HD. pose proof (proj1 (tile_of_channel ch Hch)). unfold owner, gridSize. nia. }
  split; [done| | | |].
  - intros. apply H2; try done. by eapply HDo.
  - intros i Hi. apply H3. intros. eapply Hi; try done. by eapply HDo.
  - intros. apply H4; try done. by eapply HDo.
  - intros i Hi. apply H5. intros. eapply Hi; try done. by eapply HDo.
Qed.

Lemma grid_inv_init g : gm_ok g -> grid_inv g (fun _ => False) g.
Proof. intros Hok. by split. Qed.

Lemma task_split task : 0 <= task < gridSize ->
  0 <= task / td_baseDimCnt td < td_batch td /\ 0 <= task mod td_baseDimCnt td < td_baseDimCnt td /\
  task = task / td_baseDimCnt td * td_baseDimCnt td + task mod td_baseDimCnt td.
Proof.
  intros Ht. unfold gridSize in Ht. destruct Htiles as [_ (_ & Hc & _) _].
  pose proof (Z.div_mod task (td_baseDimCnt td) ltac:(lia)). pose proof (Z.mod_pos_bound task _ Hc).
  pose proof (Z.div_pos task _ ltac:(lia) Hc). split_and!; [lia| |lia|lia|lia]. nia.
Qed.

(** One task of the grid, whatever has been done before it. *)
Lemma grid_task_spec g0 Done task s :
  0 <= task < gridSize -> ~ Done task -> core_idle s -> grid_inv g0 Done (gm s) ->
  wp (ProcessDefault_task e mode task)
     (fun _ s' => core_idle s' /\ grid_inv g0 (fun t => Done t \/ t = task) (gm s')) s.
Proof.
  intros Ht Hnd Hidle Hinv. destruct (task_split task Ht) as (Hq & Hj & Heq).
  set (q := task / td_baseDimCnt td) in *. set (j := task mod td_baseDimCnt td) in *. rewrite Heq in Hnd |- *.
  eapply wp_mono; [apply ProcessDefault_task_spec; try done; apply Hinv|].
  intros [] s' (Hidle' & Heff). split; [done|].
  change (grid_inv g0 (with_task Done q j) (gm s')).
  assert ((exists line, active q line) \/ ((forall line, ~ active q line) /\ gm s' = gm s)) as [(line & Hact)|[Hna ->]].
  { unfold active. destruct (seq_line e q) as [line|]; [|right; split; [|done]; naive_solver].
    destruct (0 <? seq_len e q) eqn:E; bool_prop; [left; by exists line|right; split; [|done]; naive_solver lia]. }
  - pose proof Hact as (_ & Hl & Hlen). rewrite Hl, (proj2 (Z.ltb_lt 0 _)) in Heff by done. by eapply grid_inv_step.
  - by apply grid_inv_skip.
Qed.
End Tasks.
End Update.
