(* ===== verification/Conv1dGrid.v ===== *)
(** The update-mode launch as a whole: every core runs [UpdateProcess] on its
    own unified buffer and the shared global memory. *)

From S2P Require Import Prelude AscendC Conv1dTypes Conv1dPlanner Conv1dElem Conv1dKernel Conv1dKernelLemmas.
From S2P Require Import Conv1dLoad Conv1dRun Conv1dState Conv1dSeqs Conv1dUpdate.

(** The environment of core [b] of [n]. *)
Definition with_block {T} (e : KernelEnv T) (b n : Z) : KernelEnv T :=
  {| xGm := xGm e; weightGm := weightGm e; biasGm := biasGm e; queryStartLocGm := queryStartLocGm e;
     cacheIndicesGm := cacheIndicesGm e; initialStateModeGm := initialStateModeGm e;
     numAcceptedTokensGm := numAcceptedTokensGm e; tilingData := tilingData e; runModeKey := runModeKey e;
     widthKey := widthKey e; fnPlanKey := fnPlanKey e; GetBlockIdx := b; GetBlockNum := n |}.

(** A unified buffer as [InitSharedBuffersAndEvents] leaves it: any contents,
    no event pending. *)
Definition ub_fresh {T F} (u : UB T F) : Prop := forall g : GM T, core_idle (Build_KS u g).

Section Grid.
Context {T F : Type} `{ElemOps T F} `{!HalfLaws T F} `{!MulAddLaw T F}.
Variable e : KernelEnv T.
Abbreviation td := (tilingData e).
Abbreviation mode := (GetSeqTaskWindowMode (i32 (td_inputMode td))).

(** What the host guarantees of an update launch. *)
Record update_launch : Prop := {
  ul_env : env_ok e;
  ul_seqs : seqs_ok e;
  ul_tiles : tiles_ok e;
  ul_update : update_ok e }.
Context (Hl : update_launch).

(** ** One core *)

Lemma UpdateProcess_unfold b n :
  UpdateProcess (F := F) (with_block e b n) = for_step b (gridSize e) n (ProcessDefault_task e mode).
Proof.
  destruct Hl as [Henv Hseqs [[Hd _] (Hb & Hc & Hcov & Hlast) [Hs _]] _].
  pose proof (eo_width e Henv). pose proof (so_batch e Hseqs). pose proof (eo_dim e Henv). unfold INT32_MAX in *.
  assert (td_baseDimCnt td <= td_dim td) by nia.
  unfold UpdateProcess, ProcessDefault, ProcessDefaultByWindowMode. cbn [tilingData with_block GetBlockIdx GetBlockNum].
  rewrite !(i32_id (td_baseDim td)), !(i32_id (td_baseDimCnt td)), !(i32_id (td_width td)), !(i32_id (td_dim td)),
    !(i32_id (td_batch td)) by (unfold fits_i32; lia).
  cbv zeta. unfold MAX_BLOCK_DIM, MAX_WIDTH. rewrite !Z.gtb_ltb.
  rewrite (proj2 (Z.leb_gt (td_baseDim td) 0)), (proj2 (Z.leb_gt (td_baseDimCnt td) 0)),
    (proj2 (Z.ltb_ge 4096 (td_baseDim td))), (proj2 (Z.ltb_ge (td_width td) 2)), (proj2 (Z.ltb_ge 4 (td_width td))),
    (proj2 (Z.leb_gt (td_dim td) 0)), (proj2 (Z.leb_gt (td_batch td) 0)) by lia.
  done.
Qed.

(** Core [b] of [n] performs exactly the tasks [b], [b + n], [b + 2n], ... *)
Definition core_tasks (b n task : Z) : Prop := task mod n = b.

Lemma UpdateProcess_spec g0 Done b n (s : KS T F) :
  0 <= b < n -> (forall task, core_tasks b n task -> ~ Done task) -> core_idle s -> grid_inv e g0 Done (gm s) ->
  wp (UpdateProcess (with_block e b n))
     (fun _ s' => core_idle s' /\ grid_inv e g0 (fun t => Done t \/ core_tasks b n t) (gm s')) s.
Proof.
  intros Hb Hfree Hidle Hinv. rewrite UpdateProcess_unfold. destruct Hl as [Henv Hseqs Ht Hu].
  assert (forall k, 0 <= k -> core_tasks b n (b + k * n)) as Hown.
  { intros k Hk. unfold core_tasks. rewrite Z.mod_add by lia. apply Z.mod_small. lia. }
  apply (wp_for_step (fun i s' => core_idle s' /\
    grid_inv e g0 (fun t => Done t \/ (core_tasks b n t /\ t < i)) (gm s'))); [lia| | |].
  - split; [done|]. eapply (grid_inv_ext e Ht); [|exact Hinv].
    intros task Htask. split; [tauto|]. intros [HD|[Hc Hlt]]; [done|]. unfold core_tasks in Hc.
    rewrite Z.mod_small in Hc by lia. lia.
  - intros k s' Hk Hlt (Hidle' & Hinv').
    eapply wp_mono; [eapply (grid_task_spec e Ht Henv Hseqs Hu); [nia| |done|exact Hinv']|].
    { intros [HD|[_ ?]]; [by eapply Hfree; [apply Hown|]|lia]. }
    intros [] s2 (Hidle2 & Hinv2). split; [done|].
    eapply (grid_inv_ext e Ht); [|exact Hinv2]. intros task Htask. split.
    + intros [[HD|[Hc Hlt']]| ->]; [by left|right; split; [done|lia]|right; split; [by apply Hown|lia]].
    + intros [HD|[Hc Hlt']]; [by left; left|].
      destruct (decide (task < b + k * n)); [left; right; done|]. right.
      unfold core_tasks in Hc. pose proof (Z.div_mod task n ltac:(lia)).
      destruct (tile_unique (task / n) 0 k (task - (b + k * n)) n); lia.
  - intros k s' Hk Hge _ (Hidle' & Hinv'). split; [done|].
    eapply (grid_inv_ext e Ht); [|exact Hinv']. intros task Htask. naive_solver lia.
Qed.

(** ** Cores one after the other, in any order *)

Fixpoint run_cores (n : Z) (ubs : Z -> UB T F) (order : list Z) (g : GM T) : outcome fault_kind (GM T) :=
  match order with
  | [] => Ok g
  | b :: order' =>
      match UpdateProcess (with_block e b n) (Build_KS (ubs b) g) with
      | Ok (_, s) => run_cores n ubs order' (gm s)
      | Err f => Err f
      end
  end.

Lemma run_cores_spec n ubs g0 order : forall Done g,
  NoDup order -> (forall b, b ∈ order -> 0 <= b < n) -> (forall b, ub_fresh (ubs b)) ->
  (forall b task, b ∈ order -> core_tasks b n task -> ~ Done task) -> grid_inv e g0 Done g ->
  exists g', run_cores n ubs order g = Ok g' /\
    grid_inv e g0 (fun t => Done t \/ exists b, b ∈ order /\ core_tasks b n t) g'.
Proof.
  destruct Hl as [_ _ Ht _].
  induction order as [|b order IH]; intros Done g Hnd Hin Hfresh Hfree Hinv; simpl.
  { exists g. split; [done|]. eapply (grid_inv_ext e Ht); [|exact Hinv]. set_solver. }
  apply list.NoDup_cons in Hnd as [Hnb Hnd].
  destruct (wp_run _ _ _ (UpdateProcess_spec g0 Done b n (Build_KS (ubs b) g) (Hin b ltac:(set_solver))
    (fun task => Hfree b task ltac:(set_solver)) (Hfresh b g) Hinv)) as (u & s & -> & _ & Hinv').
  destruct (IH (fun t => Done t \/ core_tasks b n t) (gm s) Hnd) as (g' & Hrun & Hfin).
  - set_solver.
  - done.
  - intros b' task Hb' Hc [HD|Hc']; [by eapply Hfree; [|exact Hc|]; set_solver|].
    unfold core_tasks in *. assert (b = b') by congruence. by subst.
  - done.
  - exists g'. split; [done|]. eapply (grid_inv_ext e Ht); [|exact Hfin]. intros task Htask. set_solver.
Qed.

(** ** Cores interleaved, task by task *)

(** The state of the loop of each core: its buffer and its next task. *)
Record GridState : Type := {
  gs_gm : GM T;
  gs_ub : Z -> UB T F;
  gs_next : Z -> Z }.

(** Any core with a task left performs it: [for (task = b; task < gridSize;
    task += blockNum)]. *)
Inductive grid_step (n : Z) : GridState -> GridState -> Prop :=
  | GridStep gs b s' :
      0 <= b < n -> gs_next gs b < gridSize e ->
      ProcessDefault_task e mode (gs_next gs b) (Build_KS (gs_ub gs b) (gs_gm gs)) = Ok (tt, s') ->
      grid_step n gs {| gs_gm := gm s';
                        gs_ub := <[ b := ub s' ]> (gs_ub gs);
                        gs_next := <[ b := gs_next gs b + n ]> (gs_next gs) |}.

Definition grid_start (ubs : Z -> UB T F) (g : GM T) : GridState :=
  {| gs_gm := g; gs_ub := ubs; gs_next := fun b => b |}.

(** Tasks already performed: those of each core before its next one. *)
Definition performed (n : Z) (gs : GridState) (task : Z) : Prop :=
  0 <= task mod n < n /\ task < gs_next gs (task mod n).

Definition grid_reachable (n : Z) (g0 : GM T) (gs : GridState) : Prop :=
  grid_inv e g0 (performed n gs) (gs_gm gs) /\
  forall b, 0 <= b < n -> ub_fresh (gs_ub gs b) /\ gs_next gs b mod n = b /\ 0 <= gs_next gs b.

Lemma grid_start_reachable n ubs g :
  0 < n -> (forall b, ub_fresh (ubs b)) -> gm_ok e g -> grid_reachable n g (grid_start ubs g).
Proof.
  intros Hn Hfresh Hg. destruct Hl as [_ _ Ht _]. split.
  - eapply (grid_inv_ext e Ht); [|by apply grid_inv_init]. intros task Htask. split; [done|].
    intros [_ Hlt]. simpl in Hlt. pose proof (Z.mod_le task n ltac:(lia) Hn). lia.
  - intros b Hb. simpl. split_and!; [done|by apply Z.mod_small|lia].
Qed.

(** A core with a task left can always perform it, without a fault. *)
Lemma grid_progress n g0 gs b :
  grid_reachable n g0 gs -> 0 <= b < n -> gs_next gs b < gridSize e ->
  exists s', ProcessDefault_task e mode (gs_next gs b) (Build_KS (gs_ub gs b) (gs_gm gs)) = Ok (tt, s') /\
    core_idle s' /\ grid_inv e g0 (fun t => performed n gs t \/ t = gs_next gs b) (gm s').
Proof.
  intros [Hinv Hcores] Hb Hlt. destruct Hl as [Henv Hseqs Ht Hu]. destruct (Hcores b Hb) as (Hub & Hmod & Hpos).
  assert (~ performed n gs (gs_next gs b)) as Hnp by (intros [_ Hp]; rewrite Hmod in Hp; lia).
  destruct (wp_run _ _ _ (grid_task_spec e Ht Henv Hseqs Hu g0 (performed n gs) (gs_next gs b)
    (Build_KS (gs_ub gs b) (gs_gm gs)) (conj Hpos Hlt) Hnp (Hub _) Hinv)) as ([] & s' & Hrun & Hidle & Hinv').
  by exists s'.
Qed.

Lemma grid_step_reachable n g0 gs gs' : 0 < n -> grid_reachable n g0 gs -> grid_step n gs gs' -> grid_reachable n g0 gs'.
Proof.
  intros Hn Hr Hs. destruct Hs as [gs b s' Hb Hlt Hrun].
  destruct (grid_progress n g0 gs b Hr Hb Hlt) as (s2 & Hrun2 & Hidle & Hinv).
  rewrite Hrun in Hrun2. injection Hrun2 as <-. destruct Hr as [_ Hcores]. destruct (Hcores b Hb) as (_ & Hmod & Hpos).
  destruct Hl as [_ _ Ht _]. split.
  - eapply (grid_inv_ext e Ht); [|exact Hinv]. intros task Htask. unfold performed. cbn [gs_next gs_gm].
    pose proof (Z.mod_pos_bound task n Hn) as Hm.
    destruct (decide (task mod n = b)) as [Heq|Hne].
    + rewrite Heq, fn_lookup_insert. split; [intros [[_ ?]| ->]; lia|]. intros [_ Hlt'].
      destruct (decide (task < gs_next gs b)); [left; lia|right].
      pose proof (Z.div_mod task n ltac:(lia)). pose proof (Z.div_mod (gs_next gs b) n ltac:(lia)).
      destruct (tile_unique (task / n) 0 (gs_next gs b / n) (task - gs_next gs b) n); lia.
    + rewrite fn_lookup_insert_ne by done. split; [intros [[_ ?]| ->]; [lia|congruence]|]. intros [_ ?]. left. lia.
  - intros b' Hb'. cbn [gs_ub gs_next]. destruct (decide (b = b')) as [<- |Hne].
    + rewrite !fn_lookup_insert. split_and!; [|replace (gs_next gs b + n) with (gs_next gs b + 1 * n) by lia; by rewrite Z_mod_plus_full|lia].
      intros g. exact Hidle.
    + rewrite !fn_lookup_insert_ne by done. by apply Hcores.
Qed.

(** Steps left, counted by the distance of every core to the end of the grid. *)
Definition grid_measure (n : Z) (gs : GridState) : nat :=
  foldr Nat.add 0%nat (map (fun b => Z.to_nat (gridSize e - gs_next gs b)) (zrange 0 n)).

Lemma sum_decrease (f f' : Z -> nat) b l :
  b ∈ l -> (f' b < f b)%nat -> (forall x, x <> b -> f' x = f x) ->
  (foldr Nat.add 0 (map f' l) < foldr Nat.add 0 (map f l))%nat.
Proof.
  intros Hin Hlt Hne.
  assert (forall l, foldr Nat.add 0 (map f' l) <= foldr Nat.add 0 (map f l))%nat as Hle.
  { intros l'. induction l' as [|x l' IH]; simpl; [lia|].
    destruct (decide (x = b)) as [-> |Hx]; [lia|]. rewrite Hne by done. lia. }
  induction l as [|x l IH]; [set_solver|]. simpl. specialize (Hle l).
  destruct (decide (x = b)) as [-> |Hx]; [lia|]. rewrite (Hne x) by done.
  apply elem_of_cons in Hin as [->|Hin]; [done|]. specialize (IH Hin). lia.
Qed.

Lemma grid_step_decreases n gs gs' : grid_step n gs gs' -> (grid_measure n gs' < grid_measure n gs)%nat.
Proof.
  intros Hs. destruct Hs as [gs b s' Hb Hlt _]. unfold grid_measure. cbn [gs_next].
  apply (sum_decrease _ _ b); [by apply elem_of_zrange| |].
  - rewrite fn_lookup_insert. lia.
  - intros x Hx. by rewrite fn_lookup_insert_ne by done.
Qed.

Lemma grid_finished n g0 gs :
  0 < n -> grid_reachable n g0 gs -> (forall b, 0 <= b < n -> gridSize e <= gs_next gs b) ->
  grid_inv e g0 (fun _ => True) (gs_gm gs).
Proof.
  intros Hn [Hinv _] Hall. destruct Hl as [_ _ Ht _]. eapply (grid_inv_ext e Ht); [|exact Hinv].
  intros task Htask. split; [done|]. intros _. pose proof (Z.mod_pos_bound task n Hn) as Hm.
  split; [done|]. specialize (Hall _ Hm). lia.
Qed.

Lemma grid_steps_reachable n g0 gs gs' :
  0 < n -> grid_reachable n g0 gs -> rtc (grid_step n) gs gs' -> grid_reachable n g0 gs'.
Proof. intros Hn Hr Hs. induction Hs; [done|]. eauto using grid_step_reachable. Qed.
End Grid.

Lemma run_cores_all {T F : Type} `{ElemOps T F} `{!HalfLaws T F} `{!MulAddLaw T F}
    (e : KernelEnv T) (n : Z) (order : list Z) (ubs : Z -> UB T F) (g : GM T) :
  update_launch e -> 0 < n -> order ≡ₚ zrange 0 n -> (forall b, ub_fresh (ubs b)) -> gm_ok e g ->
  exists g', run_cores e n ubs order g = Ok g' /\ grid_inv e g (fun _ => True) g'.
Proof.
  intros Hl Hn Hperm Hfresh Hg.
  destruct (run_cores_spec e Hl n ubs g order (fun _ => False) g) as (g' & Hrun & Hinv).
  - rewrite Hperm. apply NoDup_zrange.
  - intros b. rewrite Hperm, elem_of_zrange. done.
  - exact Hfresh.
  - intros b task _ _ [].
  - by apply grid_inv_init.
  - exists g'. split; [done|]. eapply (grid_inv_ext e (ul_tiles e Hl)); [|exact Hinv]. intros task Ht. split; [done|].
    intros _. right. exists (task mod n). split; [|done]. rewrite Hperm, elem_of_zrange. by apply Z.mod_pos_bound.
Qed.

(**  An update launch, cores run one after the other in any order: no core
    faults (no out-of-range or misaligned transfer, no event raised twice or
    waited for in vain), every output of every active sequence is the reference
    convolution over its history and tokens, every active cache line holds the
    new state, and all other memory is unchanged. *)
Theorem update_grid_correct {T F : Type} `{ElemOps T F} `{!HalfLaws T F} `{!MulAddLaw T F}
    (e : KernelEnv T) (n : Z) (order : list Z) (ubs : Z -> UB T F) (g : GM T) :
  update_launch e -> 0 < n -> order ≡ₚ zrange 0 n -> (forall b, ub_fresh (ubs b)) -> gm_ok e g ->
  exists g', run_cores e n ubs order g = Ok g' /\ grid_inv e g (fun _ => True) g'.
Proof. apply run_cores_all. Qed.

(** C13.  The same launch with the cores' tasks interleaved arbitrarily: in
    every reachable state each core that has a task left can perform it without
    a fault, every step brings the grid closer to its end, and whenever no task
    is left the memory holds the specified outputs and states. *)
Theorem update_interleaving_correct {T F : Type} `{ElemOps T F} `{!HalfLaws T F} `{!MulAddLaw T F}
    (e : KernelEnv T) (n : Z) (ubs : Z -> UB T F) (g : GM T) (gs : GridState) :
  update_launch e -> 0 < n -> (forall b, ub_fresh (ubs b)) -> gm_ok e g ->
  rtc (grid_step e n) (grid_start ubs g) gs ->
  (forall b, 0 <= b < n -> gs_next gs b < gridSize e -> exists gs', grid_step e n gs gs') /\
  (forall gs', grid_step e n gs gs' -> (grid_measure e n gs' < grid_measure e n gs)%nat) /\
  ((forall b, 0 <= b < n -> gridSize e <= gs_next gs b) -> grid_inv e g (fun _ => True) (gs_gm gs)).
Proof.
  intros Hl Hn Hfresh Hg Hsteps.
  pose proof (grid_steps_reachable e Hl n g _ _ Hn (grid_start_reachable e Hl n ubs g Hn Hfresh Hg) Hsteps) as Hr.
  split; [|split].
  - intros b Hb Hlt. destruct (grid_progress e Hl n g gs b Hr Hb Hlt) as (s' & Hrun & _).
    exact (ex_intro _ _ (GridStep e n gs b s' Hb Hlt Hrun)).
  - intros gs'. by apply grid_step_decreases.
  - intros Hall. by apply (grid_finished e Hl n).
Qed.

(** ** A concrete launch: two decode sequences, 32 channels in two tiles *)

Definition tiling_update : CausalConv1dTilingData :=
  {| td_dim := 32; td_cuSeqlen := 2; td_seqLen := 1; td_inputMode := 2; td_width := 3; td_stateLen := 2;
     td_numCacheLines := 4; td_batch := 2; td_activationMode := 0; td_padSlotId := -1; td_hasBias := 1;
     td_baseDim := 16; td_baseDimCnt := 2; td_hasNumAcceptedTokens := 0; td_hasCacheIndices := 1;
     td_hasInitialStateMode := 0; td_tokenBlockSize := 0; td_tokenBlockCnt := 0;
     td_hasExplicitTokenSeqRanges := 0; td_explicitTokenSeqRangeCount := 0;
     td_tokenTileStartSeq := []; td_tokenTileEndSeq := []; td_hasInitStateWorkspace := 0 |}.

Definition env_update : KernelEnv Z :=
  {| xGm := Tensor 64 (fun i => i); weightGm := Tensor 96 (fun i => i / 32 + 1); biasGm := Tensor 32 (fun _ => 100);
     queryStartLocGm := Tensor 0 (fun _ => 0); cacheIndicesGm := Tensor 2 (fun q => 3 - q);
     initialStateModeGm := Tensor 0 (fun _ => 0); numAcceptedTokensGm := Tensor 0 (fun _ => 0);
     tilingData := tiling_update; runModeKey := 1; widthKey := 0; fnPlanKey := 0; GetBlockIdx := 0; GetBlockNum := 3 |}.

Definition ub_zero : UB Z (Z * Z) :=
  Build_UB (Tensor 20480 (fun _ => 0)) (Tensor 8192 (fun _ => 0)) (Tensor 32768 (fun _ => (0, 0))) ∅.
Definition gm_update : GM Z :=
  Build_GM (Tensor 256 (fun i => 1000 + i)) (Tensor 64 (fun _ => 0)) (Tensor 0 (fun _ => 0)).

Lemma ub_zero_fresh : ub_fresh ub_zero.
Proof. intros g. repeat split. Qed.

Lemma update_launch_example : update_launch env_update.
Proof.
  assert (forall q, 0 <= q < 2 -> q = 0 \/ q = 1) as H01 by lia.
  assert (forall q, seq_start env_update q = q) as Hst by (intros; reflexivity).
  assert (forall q, seq_len env_update q = 1) as Hln by (intros; reflexivity).
  split; [split|split|split|split]; try done; try (vm_compute; split; congruence); simpl; unfold INT32_MAX; try lia.
  all: try (intros q Hq; rewrite ?Hst, ?Hln; lia).
  - intros q l Hq. destruct (H01 q Hq) as [-> | ->]; intros [= <-]; lia.
  - intros q q' l Hq Hq'. destruct (H01 q Hq) as [-> | ->], (H01 q' Hq') as [-> | ->]; vm_compute; congruence.
Qed.

Lemma update_grid_correct_witness :
  exists g', run_cores env_update 3 (fun _ => ub_zero) [2; 0; 1] gm_update = Ok g' /\
    grid_inv (F := Z * Z) env_update gm_update (fun _ => True) g'.
Proof.
  apply update_grid_correct.
  - exact update_launch_example.
  - reflexivity.
  - change (zrange 0 3) with [0; 1; 2]. exact (Permutation_app_comm [2] [0; 1]).
  - intros b. exact ub_zero_fresh.
  - split; reflexivity.
Defined.

Lemma update_interleaving_correct_witness :
  grid_inv (F := Z * Z) env_update gm_update (fun _ => False) gm_update /\
  exists gs', grid_step env_update 3 (grid_start (fun _ => ub_zero) gm_update) gs'.
Proof.
  split; [apply grid_inv_init; split; reflexivity|].
  refine (proj1 (update_interleaving_correct env_update 3 (fun _ => ub_zero) gm_update _ _ _ _ _ (rtc_refl _ _)) 0 _ _).
  - exact update_launch_example.
  - reflexivity.
  - intros b. exact ub_zero_fresh.
  - split; reflexivity.
  - split; [discriminate|reflexivity].
  - reflexivity.
Defined.

(** The first core's first task, evaluated: [100 + 1*s0 + 2*s1 + 3*x]. *)
Example update_task_value :
  match ProcessDefault_task (F := Z * Z) env_update SEQ_TASK_WINDOW_MODE_DECODE2D 0 (Build_KS ub_zero gm_update) with
  | Ok (_, s) => t_at (yGm (gm s)) 5 = 100 + (1000 + 192 + 5) + 2 * (1000 + 224 + 5) + 3 * 5 /\
                 t_at (convStatesGm (gm s)) (192 + 5) = 1000 + 224 + 5 /\
                 t_at (convStatesGm (gm s)) (224 + 5) = 5
  | Err _ => False
  end.
Proof. vm_compute. auto. Qed.
