(* ===== verification/Conv1dFnTask.v ===== *)
(** Fn (prefill) mode of causal_conv1d: how the tokens and channels are
    distributed over the cores, and how a core finds the first sequence of its
    token tile. *)

From S2P Require Import Prelude AscendC Conv1dTypes Conv1dPlanner Conv1dValidation Conv1dElem Conv1dKernel.
From S2P Require Import Conv1dKernelLemmas Conv1dLoad Conv1dSeqs Conv1dUpdate.

(** ** Block tasks *)

Section BlockTask.
Variables tokenBlockCnt tokenBlockSize cuSeqlen baseDimCnt baseDim dim : Z.
Hypothesis Htok : tiles_cover cuSeqlen tokenBlockSize tokenBlockCnt.
Hypothesis Hchn : tiles_cover dim baseDim baseDimCnt.
(** The rounded-up extents are representable. *)
Hypothesis Hfit_tok : cuSeqlen + tokenBlockSize <= 2 ^ 31.
Hypothesis Hfit_chn : dim + baseDim <= 2 ^ 31.

Abbreviation task b := (ResolveFnDirectBlockTask b tokenBlockCnt tokenBlockSize cuSeqlen baseDimCnt baseDim dim).

Lemma block_task_spec b : 0 <= b < tokenBlockCnt * baseDimCnt ->
  task b = {| fbt_valid := true; fbt_tokenTileId := b / baseDimCnt; fbt_baseDimIdx := b mod baseDimCnt;
              fbt_tokenStart := b / baseDimCnt * tokenBlockSize;
              fbt_tokenEnd := Z.min (b / baseDimCnt * tokenBlockSize + tokenBlockSize) cuSeqlen;
              fbt_channelStart := b mod baseDimCnt * baseDim;
              fbt_baseDimSize := Z.min baseDim (dim - b mod baseDimCnt * baseDim) |} /\
  b / baseDimCnt * tokenBlockSize < cuSeqlen /\ b mod baseDimCnt * baseDim < dim /\
  0 <= b / baseDimCnt < tokenBlockCnt /\ 0 <= b mod baseDimCnt < baseDimCnt.
Proof.
  intros Hb. destruct Htok as (Ht1 & Ht2 & Ht3 & Ht4), Hchn as (Hc1 & Hc2 & Hc3 & Hc4).
  pose proof (Z.div_mod b baseDimCnt ltac:(lia)). pose proof (Z.mod_pos_bound b baseDimCnt Hc2).
  pose proof (Z.div_pos b baseDimCnt ltac:(lia) Hc2). unfold ResolveFnDirectBlockTask.
  set (i := b / baseDimCnt) in *. set (j := b mod baseDimCnt) in *.
  assert (i < tokenBlockCnt) by nia. assert (i * tokenBlockSize <= (tokenBlockCnt - 1) * tokenBlockSize) by nia.
  assert (j * baseDim <= (baseDimCnt - 1) * baseDim) by nia.
  rewrite (proj2 (Z.ltb_ge b 0)), (proj2 (Z.leb_gt tokenBlockCnt 0)), (proj2 (Z.leb_gt tokenBlockSize 0)),
    (proj2 (Z.leb_gt cuSeqlen 0)), (proj2 (Z.leb_gt baseDimCnt 0)), (proj2 (Z.leb_gt baseDim 0)),
    (proj2 (Z.leb_gt dim 0)) by lia. cbn [orb].
  rewrite (proj2 (Z.leb_gt (tokenBlockCnt * baseDimCnt) 0)), Z.geb_leb, (proj2 (Z.leb_gt (tokenBlockCnt * baseDimCnt) b)) by lia.
  cbn [orb]. rewrite quot_nonneg_div, rem_nonneg_mod by lia. fold i j. cbv zeta.
  rewrite (i32_id (j * baseDim)) by (unfold fits_i32; nia).
  rewrite Z.geb_leb, (proj2 (Z.leb_gt dim (j * baseDim))) by lia.
  rewrite (i32_id (i * tokenBlockSize)) by (unfold fits_i32; nia).
  rewrite Z.geb_leb, (proj2 (Z.leb_gt cuSeqlen (i * tokenBlockSize))) by lia.
  split; [|lia].
  assert ((if i32 (j * baseDim + baseDim) <=? dim then baseDim else dim - j * baseDim) = Z.min baseDim (dim - j * baseDim)) as ->.
  { rewrite i32_id by (unfold fits_i32; lia). case_if; lia. }
  assert ((if i32 (i * tokenBlockSize + tokenBlockSize) <=? cuSeqlen then i32 (i * tokenBlockSize + tokenBlockSize) else cuSeqlen) =
          Z.min (i * tokenBlockSize + tokenBlockSize) cuSeqlen) as ->.
  { rewrite i32_id by (unfold fits_i32; lia). case_if; lia. }
  rewrite (proj2 (Z.leb_gt (Z.min baseDim (dim - j * baseDim)) 0)) by lia.
  rewrite (proj2 (Z.leb_gt (Z.min (i * tokenBlockSize + tokenBlockSize) cuSeqlen) (i * tokenBlockSize))) by lia.
  done.
Qed.

Lemma block_task_outside b : tokenBlockCnt * baseDimCnt <= b -> fbt_valid (task b) = false.
Proof.
  intros Hb. destruct Htok as (Ht1 & Ht2 & Ht3 & Ht4), Hchn as (Hc1 & Hc2 & Hc3 & Hc4).
  unfold ResolveFnDirectBlockTask. destruct (_ || _); [done|].
  by rewrite (Z.geb_leb b), (proj2 (Z.leb_le (tokenBlockCnt * baseDimCnt) b)), orb_true_r by lia.
Qed.
End BlockTask.

(** The range of tokens and channels of a block. *)
Definition block_covers (task : FnDirectBlockTask) (tok ch : Z) : Prop :=
  fbt_valid task = true /\ fbt_tokenStart task <= tok < fbt_tokenEnd task /\
  fbt_channelStart task <= ch < fbt_channelStart task + fbt_baseDimSize task.

(** C28.  The blocks of the fn grid partition the work: each (token, channel)
    pair belongs to exactly one block, that of its token tile and channel tile,
    as long as the rounded-up extents fit in 32 bits. *)
Theorem fn_blocks_partition tokenBlockCnt tokenBlockSize cuSeqlen baseDimCnt baseDim dim tok ch b :
  tiles_cover cuSeqlen tokenBlockSize tokenBlockCnt -> tiles_cover dim baseDim baseDimCnt ->
  cuSeqlen + tokenBlockSize <= 2 ^ 31 -> dim + baseDim <= 2 ^ 31 ->
  0 <= tok < cuSeqlen -> 0 <= ch < dim -> 0 <= b ->
  let owner := tok / tokenBlockSize * baseDimCnt + ch / baseDim in
  0 <= owner < tokenBlockCnt * baseDimCnt /\
  (block_covers (ResolveFnDirectBlockTask b tokenBlockCnt tokenBlockSize cuSeqlen baseDimCnt baseDim dim) tok ch <->
   b = owner).
Proof.
  intros Ht Hc Hft Hfc Htok Hch Hb owner.
  pose proof Ht as (Ht1 & Ht2 & Ht3 & Ht4). pose proof Hc as (Hc1 & Hc2 & Hc3 & Hc4).
  pose proof (Z.div_mod tok tokenBlockSize ltac:(lia)). pose proof (Z.mod_pos_bound tok tokenBlockSize Ht1).
  pose proof (Z.div_mod ch baseDim ltac:(lia)). pose proof (Z.mod_pos_bound ch baseDim Hc1).
  pose proof (Z.div_pos tok tokenBlockSize ltac:(lia) Ht1). pose proof (Z.div_pos ch baseDim ltac:(lia) Hc1).
  assert (tok / tokenBlockSize < tokenBlockCnt) by nia. assert (ch / baseDim < baseDimCnt) by nia.
  assert (0 <= owner < tokenBlockCnt * baseDimCnt) as Ho by (subst owner; nia). split; [done|].
  destruct (decide (b < tokenBlockCnt * baseDimCnt)) as [Hlt|Hge].
  - destruct (block_task_spec _ _ _ _ _ _ Ht Hc Hft Hfc b (conj Hb Hlt)) as (-> & Hi & Hj & Hi' & Hj').
    unfold block_covers. cbn [fbt_valid fbt_tokenStart fbt_tokenEnd fbt_channelStart fbt_baseDimSize].
    pose proof (Z.div_mod b baseDimCnt ltac:(lia)). split.
    + intros (_ & Hin & Hcin).
      destruct (tile_unique (b / baseDimCnt) (tok - b / baseDimCnt * tokenBlockSize) (tok / tokenBlockSize)
                  (tok mod tokenBlockSize) tokenBlockSize) as [He1 _]; [lia..|].
      destruct (tile_unique (b mod baseDimCnt) (ch - b mod baseDimCnt * baseDim) (ch / baseDim)
                  (ch mod baseDim) baseDim) as [He2 _]; [lia..|]. subst owner. lia.
    + intros ->. subst owner. rewrite Z.div_add_l, (Z.div_small (ch / baseDim)), Z.add_0_r by lia.
      rewrite (Z.add_comm (_ * baseDimCnt)), Z.mod_add, Z.mod_small by lia. split; [done|]. lia.
  - split; [|lia]. intros (Hv & _). by rewrite block_task_outside in Hv by (done || lia).
Qed.

Lemma fn_blocks_partition_witness :
  block_covers (ResolveFnDirectBlockTask 5 3 40 100 2 4096 5000) 85 4100.
Proof.
  apply (proj2 (proj2 (fn_blocks_partition 3 40 100 2 4096 5000 85 4100 5
    ltac:(unfold tiles_cover; lia) ltac:(unfold tiles_cover; lia) ltac:(lia) ltac:(lia) ltac:(lia) ltac:(lia) ltac:(lia)))).
  reflexivity.
Defined.

(** With extents near the 32-bit limit the end of the last tile wraps around
    and its tokens are dropped. *)
Example last_tile_wraps :
  let task := ResolveFnDirectBlockTask 1 2 1073741824 2147483647 1 4096 4096 in fbt_valid task = false.
Proof. reflexivity. Qed.

(** ** The first sequence of a tile *)

Section Find.
Context {T F : Type}.
Variable e : KernelEnv T.
Abbreviation td := (tilingData e).
Abbreviation qsl := (t_at (queryStartLocGm e)).
Hypothesis Hbatch : 0 <= td_batch td <= INT32_MAX.
Hypothesis Hlen : t_len (queryStartLocGm e) = td_batch td + 1.
Hypothesis Hqsl : qsl_ok qsl (td_batch td) (td_cuSeqlen td).
Hypothesis Hcu : td_cuSeqlen td <= INT32_MAX.

(** A search over an interval of less than [2^n] sequences ends within [n] steps. *)
Lemma FindVarlenSeqByToken_loop_spec n tok l r (s : KS T F) (Q : Z -> KS T F -> Prop) :
  (forall q, first_seq_after qsl (td_batch td) tok q -> Q q s) ->
  0 <= l -> l <= r -> r <= td_batch td -> r - l < 2 ^ Z.of_nat n ->
  (forall j, 0 <= j < l -> qsl (j + 1) <= tok) -> (r < td_batch td -> tok < qsl (r + 1)) ->
  wp (FindVarlenSeqByToken_loop e n tok l r) Q s.
Proof.
  intros HQ. unfold INT32_MAX in *. revert l r.
  induction n as [|n IH]; intros l r Hl Hlr Hr Hn Hlow Hup; cbn [FindVarlenSeqByToken_loop].
  - change (2 ^ Z.of_nat 0) with 1 in Hn. assert (l = r) as -> by lia. apply wp_ret, HQ. split; [lia|]. split; [done|]. lia.
  - rewrite Nat2Z.inj_succ, Z.pow_succ_r in Hn by lia. destruct (l <? r) eqn:E; bool_prop.
    + cbv zeta. set (mid := l + Z.shiftr (r - l) 1).
      assert (l <= mid < r /\ mid - l < 2 ^ Z.of_nat n /\ r - (mid + 1) < 2 ^ Z.of_nat n) as (Hmid & Hleft & Hright).
      { subst mid. rewrite Z.shiftr_div_pow2 by lia. change (2 ^ 1) with 2. generalize dependent (2 ^ Z.of_nat n). intros. zlia. }
      assert (0 <= qsl (mid + 1) <= td_cuSeqlen td) as Hv.
      { destruct Hqsl as (_ & _ & Hq). specialize (Hq mid ltac:(lia)). lia. }
      apply wp_bind, wp_GetValue; [lia|]. rewrite i32_id by (unfold fits_i32; lia).
      destruct (tok <? qsl (mid + 1)) eqn:E1; bool_prop.
      * apply IH; try lia. exact Hlow.
      * apply IH; try lia. intros j Hj. etrans; [|exact E1]. apply (qsl_ok_mono _ _ _ _ _ Hqsl); lia.
    + assert (l = r) as -> by lia. apply wp_ret, HQ. split; [lia|]. split; [done|]. lia.
Qed.

(** The binary search returns what the host's scan stores in the tiling record. *)
Lemma FindVarlenSeqByToken_spec tok (s : KS T F) (Q : Z -> KS T F -> Prop) :
  (forall q, first_seq_after qsl (td_batch td) tok q -> Q q s) ->
  wp (FindVarlenSeqByToken e tok) Q s.
Proof.
  intros HQ. unfold INT32_MAX in *. unfold FindVarlenSeqByToken. rewrite i32_id by (unfold fits_i32; lia). cbv zeta.
  apply FindVarlenSeqByToken_loop_spec; try done; try lia. rewrite Z2Nat.id, Z.sub_0_r by lia. apply Z.pow_gt_lin_r; lia.
Qed.
End Find.

(** C31.  The binary search for the first sequence of a token tile ends after a
    logarithmic number of steps: with any number [n] of steps for which
    [batch < 2^n] it returns the first sequence that ends after the token, reads
    only inside [query_start_loc] and changes no state, so more steps do not
    change the result. *)
Theorem FindVarlenSeqByToken_terminates {T F : Type} (e : KernelEnv T) (tok : Z) (s : KS T F) :
  0 <= td_batch (tilingData e) <= INT32_MAX ->
  t_len (queryStartLocGm e) = td_batch (tilingData e) + 1 ->
  qsl_ok (t_at (queryStartLocGm e)) (td_batch (tilingData e)) (td_cuSeqlen (tilingData e)) ->
  td_cuSeqlen (tilingData e) <= INT32_MAX ->
  exists q, first_seq_after (t_at (queryStartLocGm e)) (td_batch (tilingData e)) tok q /\
    FindVarlenSeqByToken e tok s = Ok (q, s) /\
    forall n, td_batch (tilingData e) < 2 ^ Z.of_nat n ->
      FindVarlenSeqByToken_loop e n tok 0 (td_batch (tilingData e)) s = Ok (q, s).
Proof.
  intros Hb Hl Hq Hc.
  pose proof (FindVarlenSeqByToken_spec e Hb Hl Hq Hc tok s
    (fun q s' => s' = s /\ first_seq_after (t_at (queryStartLocGm e)) (td_batch (tilingData e)) tok q)) as Hw.
  apply wp_run in Hw as (q & s1 & Hrun & -> & Hfirst); [|auto]. exists q. split_and!; [done|done|]. intros n Hn.
  pose proof (FindVarlenSeqByToken_loop_spec e Hl Hq Hc n tok 0 (td_batch (tilingData e)) s
    (fun q s' => s' = s /\ first_seq_after (t_at (queryStartLocGm e)) (td_batch (tilingData e)) tok q)) as Hw.
  apply wp_run in Hw as (q' & s2 & Hrun' & -> & Hfirst'); try lia; auto.
  by rewrite Hrun', (first_seq_after_unique _ _ _ _ _ Hfirst' Hfirst).
Qed.

(** Two sequences of two and 998 tokens. *)
Definition find_env_example : KernelEnv Z :=
  {| xGm := Tensor 0 (fun _ => 0); weightGm := Tensor 0 (fun _ => 0); biasGm := Tensor 0 (fun _ => 0);
     queryStartLocGm := Tensor 3 (fun k => if k <=? 0 then 0 else if k <=? 1 then 2 else 1000);
     cacheIndicesGm := Tensor 0 (fun _ => 0); initialStateModeGm := Tensor 0 (fun _ => 0);
     numAcceptedTokensGm := Tensor 0 (fun _ => 0); tilingData := tiling_example; runModeKey := 0; widthKey := 0;
     fnPlanKey := 0; GetBlockIdx := 0; GetBlockNum := 1 |}.

Definition find_state_example : KS Z Z :=
  Build_KS (Build_UB (Tensor 0 (fun _ => 0)) (Tensor 0 (fun _ => 0)) (Tensor 0 (fun _ => 0)) ∅)
    (Build_GM (Tensor 0 (fun _ => 0)) (Tensor 0 (fun _ => 0)) (Tensor 0 (fun _ => 0))).

Lemma FindVarlenSeqByToken_terminates_witness :
  FindVarlenSeqByToken_loop find_env_example 2 5 0 2 find_state_example = Ok (1, find_state_example).
Proof.
  destruct (FindVarlenSeqByToken_terminates find_env_example 5 find_state_example) as (q & Hq & _ & Hrun).
  - split; discriminate.
  - reflexivity.
  - split; [reflexivity|]. split; [reflexivity|]. intros k Hk. change (td_batch (tilingData find_env_example)) with 2 in Hk.
    assert (k = 0 \/ k = 1) as [-> | ->] by lia; vm_compute; intuition congruence.
  - discriminate.
  - rewrite (first_seq_after_unique _ _ _ _ 1 Hq) in Hrun; [apply (Hrun 2%nat); reflexivity|].
    split; [split; discriminate|]. split; [|reflexivity]. intros k Hk. assert (k = 0) as -> by lia. discriminate.
Defined.
