(* ===== verification/Conv1dFn.v ===== *)
(** Fn (prefill) mode of causal_conv1d: a core walks over the sequences of its
    token tile, chunk by chunk; the chunks of all cores together compute the
    reference convolution of every sequence. *)

From S2P Require Import Prelude AscendC Conv1dTypes Conv1dPlanner Conv1dValidation Conv1dElem Conv1dKernel.
From S2P Require Import Conv1dKernelLemmas Conv1dLoad Conv1dRun Conv1dState Conv1dSeqs Conv1dUpdate.
From S2P Require Import Conv1dFnTask.

Section Fn.
Context {T F : Type} `{ElemOps T F} `{!HalfLaws T F} `{!MulAddLaw T F}.
Variable e : KernelEnv T.
Abbreviation td := (tilingData e).
Implicit Types s : KS T F.
Implicit Types g : GM T.
Abbreviation W := (td_width td).
Abbreviation dim := (td_dim td).
Abbreviation mode := (GetSeqTaskWindowMode (i32 (td_inputMode td))).
Abbreviation seq_end q := (seq_start e q + seq_len e q).

(** Does the convolution of sequence [q] start from its cache line? *)
Definition has_init (q : Z) : bool :=
  negb (td_hasInitialStateMode td =? 0) && negb (t_at (initialStateModeGm e) q =? 0).

Record fn_ok : Prop := {
  fo_run : runModeKey e = CAUSAL_CONV1D_TPL_RUN_MODE_FN;
  fo_template : template_ok e;
  fo_tokens : tiles_cover (td_cuSeqlen td) (td_tokenBlockSize td) (td_tokenBlockCnt td);
  fo_tokens32 : td_cuSeqlen td + td_tokenBlockSize td <= INT32_MAX;
  fo_init : td_hasInitialStateMode td <> 0 -> t_len (initialStateModeGm e) = td_batch td;
  fo_snapshot : td_hasInitStateWorkspace td <> 0 <-> td_hasInitialStateMode td <> 0;
  fo_input : td_inputMode td = 0 \/ td_inputMode td = 1;
  fo_qsl : td_inputMode td = 0 -> qsl_ok (t_at (queryStartLocGm e)) (td_batch td) (td_cuSeqlen td);
  fo_seqLen : td_inputMode td = 1 -> 0 < td_seqLen td;
  fo_ranges : td_hasExplicitTokenSeqRanges td <> 0 -> td_inputMode td = 0 ->
    td_explicitTokenSeqRangeCount td = td_tokenBlockCnt td /\
    forall i, 0 <= i < td_tokenBlockCnt td ->
      exists a b, td_tokenTileStartSeq td !! Z.to_nat i = Some a /\ td_tokenTileEndSeq td !! Z.to_nat i = Some b /\
        first_seq_after (t_at (queryStartLocGm e)) (td_batch td) (i * td_tokenBlockSize td) a /\
        first_seq_from (t_at (queryStartLocGm e)) (td_batch td) a (i * td_tokenBlockSize td + td_tokenBlockSize td) b }.

Context (Henv : env_ok e) (Hseqs : seqs_ok e) (Htiles : tiles_ok e) (Hfn : fn_ok).

(** ** Specification *)

(** Token [k] of sequence [q]: before the sequence, its state in [g] or zero. *)
Definition fn_tok g (q line k ch : Z) : T :=
  if k <? 0 then (if has_init q then state_at e g line (k + (W - 1)) ch else zeroT)
  else t_at (xGm e) ((seq_start e q + k) * dim + ch).

Definition fn_y g (q line t ch : Z) : T :=
  conv_out (HasActivation e) (HasBias e) (bias_at e ch) W (weight_at e ch) (fun k => fn_tok g q line k ch) t.

Definition fn_state g (q line pos ch : Z) : T := fn_tok g q line (seq_len e q - (W - 1) + pos) ch.

(** The snapshot of the initial states, taken from [g0]. *)
Definition snapshot_holds g0 g : Prop :=
  td_hasInitStateWorkspace td <> 0 ->
  td_batch td * ((W - 1) * dim) <= t_len (initStateWorkspaceGm g) /\
  forall q line pos ch, 0 <= q < td_batch td -> seq_line e q = Some line -> has_init q = true ->
    0 <= pos < W - 1 -> 0 <= ch < dim ->
    t_at (initStateWorkspaceGm g) ((q * (W - 1) + pos) * dim + ch) = state_at e g0 line pos ch.

(** Exactly the cells in [DY] (outputs) and [DS] (states) are final. *)
Record fn_inv g0 (DY : Z -> Z -> Z -> Prop) (DS : Z -> Z -> Prop) g : Prop := {
  fi_ok : gm_ok e g;
  fi_snapshot : snapshot_holds g0 g;
  fi_y_done : forall q line t ch, active e q line -> 0 <= t < seq_len e q -> 0 <= ch < dim -> DY q t ch ->
    t_at (yGm g) (y_cell e q t ch) = fn_y g0 q line t ch;
  fi_y_rest : forall i,
    (forall q line t ch, active e q line -> 0 <= t < seq_len e q -> 0 <= ch < dim -> DY q t ch -> i <> y_cell e q t ch) ->
    t_at (yGm g) i = t_at (yGm g0) i;
  fi_state_done : forall q line pos ch, active e q line -> 0 <= pos < W - 1 -> 0 <= ch < dim -> DS q ch ->
    t_at (convStatesGm g) (state_cell e line pos ch) = fn_state g0 q line pos ch;
  fi_state_rest : forall i,
    (forall q line pos ch, active e q line -> 0 <= pos < W - 1 -> 0 <= ch < dim -> DS q ch -> i <> state_cell e line pos ch) ->
    t_at (convStatesGm g) i = t_at (convStatesGm g0) i }.

Lemma fn_inv_ext g0 (DY DY' : Z -> Z -> Z -> Prop) (DS DS' : Z -> Z -> Prop) g :
  (forall q line t ch, active e q line -> 0 <= t < seq_len e q -> 0 <= ch < dim -> (DY q t ch <-> DY' q t ch)) ->
  (forall q line ch, active e q line -> 0 <= ch < dim -> (DS q ch <-> DS' q ch)) ->
  fn_inv g0 DY DS g -> fn_inv g0 DY' DS' g.
Proof.
  intros HY HS [H1 H2 H3 H4 H5 H6]. split; [done|done| | | |].
  - intros. apply H3; try done. by eapply HY.
  - intros i Hi. apply H4. intros. eapply Hi; try done. by eapply HY.
  - intros. apply H5; try done. by eapply HS.
  - intros i Hi. apply H6. intros. eapply Hi; try done. by eapply HS.
Qed.

(** ** One chunk *)

Section Chunk.
Variables (q line j chunkStart chunkLen : Z).
Context (Hact : active e q line) (Hj : 0 <= j < td_baseDimCnt td).
Context (Hcs : seq_start e q <= chunkStart) (Hcl : 0 < chunkLen) (Hce : chunkStart + chunkLen <= seq_end q).

Definition chunk_stream g (k c : Z) : T :=
  task_tok e (tile_start e j)
    (split_hist e (tile_start e j) g q line (has_init q) (seq_start e q) chunkStart) chunkStart k c.

(** The effect of a chunk. *)
Definition chunk_done g g' : Prop :=
  exists g1, y_done e (tile_start e j) (tile_size e j) (chunk_stream g) chunkStart g chunkLen g1 /\
    if chunkStart + chunkLen =? seq_end q
    then conv_upd e (tile_start e j) (tile_size e j) line g1 (fun pos => 0 <= pos < W - 1)
           (fun pos => chunk_stream g (chunkLen - (W - 1) + pos)) g'
    else g' = g1.

Lemma ProcessFnChunk_spec s :
  core_idle s -> gm_ok e (gm s) -> snapshot_ok e (gm s) q ->
  wp (ProcessFnChunk e q line (has_init q) (seq_start e q) (seq_len e q) chunkStart chunkLen
        (tile_start e j) (tile_size e j) dim)
     (fun _ s' => core_idle s' /\ chunk_done (gm s) (gm s')) s.
Proof.
  intros [Hok Hfl] Hgm Hsnap. pose proof Hact as (Hq & Hline & Hlen). pose proof (tile_chan_ok e Htiles j Hj) as Hchan.
  pose proof (line_of_gm e Henv Hseqs _ q line Hgm Hq Hline) as Hlok.
  pose proof (so_start e Hseqs q Hq). pose proof (so_end e Hseqs q Hq). pose proof (eo_tokens e Henv) as Htk.
  assert (forall k c, 0 <= k -> chunk_stream (gm s) k c = t_at (xGm e) ((chunkStart + k) * dim + tile_start e j + c)) as Hx.
  { intros k c Hk. unfold chunk_stream, task_tok. by rewrite (proj2 (Z.ltb_ge k 0)) by lia. }
  unfold ProcessFnChunk.
  eapply wp_seq; [apply (LoadWeightAndBias_spec e Henv _ _ Hchan); [done|rewrite Hfl; set_solver]|].
  intros [] s1 (Hs1 & Hwl). pose proof (calc_only_ub_ok _ _ Hs1 Hok) as Hok1. destruct Hs1 as (Hg1 & _ & _ & Hf1 & _).
  eapply wp_seq; [apply (InitRingSeqSplit_spec e Henv _ _ Hchan); rewrite ?Hf1, ?Hg1; done || lia|].
  intros [] s2 ((Hg2 & Hl2 & Ho2 & Hc2) & Hf2 & Hring2). rewrite Hg1 in Hring2.
  eapply wp_seq; [apply (RunSeq_spec e Henv _ _ Hchan (chunk_stream (gm s)) chunkStart chunkLen); try done; try lia|].
  - apply Hfn.
  - unfold ub_ok in *. by rewrite Hl2, Ho2, Hc2.
  - unfold weights_loaded, crow in *. by rewrite Hc2.
  - rewrite Hg2, Hg1. apply Hgm.
  - intros [] s3 (Hok3 & Hf3 & Hr3 & Hy3). rewrite Hg2, Hg1 in Hy3.
    unfold chunk_done, MaybeWriteBackSeqSplitTailChunk. unfold INT32_MAX in Htk.
    rewrite !i32_id by (unfold fits_i32; lia).
    destruct (chunkStart + chunkLen =? seq_end q) eqn:Etail; cbn [negb].
    + apply wp_bind. eapply wp_seq; [by apply (DrainTaskMte3_spec s3 (fun _ s' => s' = s3))|]. intros [] s4 ->.
      eapply wp_mono; [apply (WriteBackState_spec e Henv _ _ Hchan (chunk_stream (gm s)) line); try done; [unfold INT32_MAX; lia|]|].
      { destruct Hy3 as (Hcv & _). unfold line_ok in *. by rewrite Hcv. }
      intros [] s5 (Hub & Hupd). apply DrainTaskMte3_spec; [by rewrite Hub|].
      split; [unfold core_idle, ub_ok in *; by rewrite Hub|]. by exists (gm s3).
    + apply wp_bind, wp_ret. apply DrainTaskMte3_spec; [done|]. split; [done|]. by exists (gm s3).
Qed.

(** The stream of a chunk is that of the sequence, shifted. *)
Lemma chunk_stream_eq g0 g k c :
  snapshot_holds g0 g -> - (W - 1) <= k -> 0 <= c < tile_size e j ->
  chunk_stream g k c = fn_tok g0 q line (k + (chunkStart - seq_start e q)) (tile_start e j + c).
Proof.
  intros Hsnap Hk Hc. pose proof Hact as (Hq & Hline & _).
  pose proof (tile_chan_ok e Htiles j Hj) as (Hc0 & _ & _ & Hd).
  unfold chunk_stream, task_tok, fn_tok, split_hist.
  destruct (k <? 0) eqn:Ek; bool_prop.
  - replace (chunkStart - (W - 1) + (k + (W - 1))) with (chunkStart + k) by lia. cbv zeta.
    rewrite Z.geb_leb. destruct (seq_start e q <=? chunkStart + k) eqn:E; bool_prop.
    + rewrite (proj2 (Z.ltb_ge (k + (chunkStart - seq_start e q)) 0)) by lia. f_equal. lia.
    + rewrite (proj2 (Z.ltb_lt (k + (chunkStart - seq_start e q)) 0)) by lia.
      destruct (has_init q) eqn:Ei; [|done].
      assert (td_hasInitStateWorkspace td <> 0) as Hw.
      { apply (fo_snapshot Hfn). unfold has_init in Ei. bool_prop. done. }
      rewrite (proj2 (Z.eqb_neq _ _) Hw). cbn [negb]. destruct (Hsnap Hw) as (_ & Hs).
      replace (k + (chunkStart - seq_start e q) + (W - 1)) with (chunkStart + k - seq_start e q + (W - 1)) by lia.
      rewrite <- (Hs q line _ (tile_start e j + c)) by (done || lia). f_equal. lia.
  - rewrite (proj2 (Z.ltb_ge (k + (chunkStart - seq_start e q)) 0)) by lia. f_equal. lia.
Qed.

(** The channels of the tile, and the tokens of the chunk. *)
Definition in_tile (ch : Z) : Prop := tile_start e j <= ch < tile_start e j + tile_size e j.
Definition chunk_y (q' t ch : Z) : Prop :=
  q' = q /\ chunkStart <= seq_start e q + t < chunkStart + chunkLen /\ in_tile ch.
Definition chunk_s (q' ch : Z) : Prop := q' = q /\ chunkStart + chunkLen = seq_end q /\ in_tile ch.

Section ChunkStep.
Context (g0 : GM T) (DY : Z -> Z -> Z -> Prop) (DS : Z -> Z -> Prop) (g g' : GM T).
Context (Hinv : fn_inv g0 DY DS g) (Hdone : chunk_done g g').

Lemma chunk_y_new t ch : 0 <= t < seq_len e q -> chunk_y q t ch ->
  t_at (yGm g') (y_cell e q t ch) = fn_y g0 q line t ch.
Proof.
  intros Ht (_ & Hin & Hch). destruct Hdone as (g1 & (_ & _ & _ & Hy & _) & Htail).
  assert (yGm g' = yGm g1) as ->.
  { destruct (_ =? _); [by destruct Htail as (-> & _)|by rewrite Htail]. }
  set (c := ch - tile_start e j). assert (0 <= c < tile_size e j) as Hc by (unfold in_tile in Hch; lia).
  replace (y_cell e q t ch) with (y_index e (tile_start e j) chunkStart (seq_start e q + t - chunkStart) c)
    by (unfold y_cell, y_index; subst c; lia).
  rewrite Hy by lia. pose proof (eo_width e Henv). unfold out, fn_y.
  replace (tile_start e j + c) with ch by (subst c; lia). apply conv_out_ext; [lia|done|done|].
  intros i Hi. rewrite (chunk_stream_eq g0 g) by (done || lia || apply Hinv).
  f_equal; subst c; lia.
Qed.

Lemma chunk_y_rest i : (forall t ch, 0 <= t < seq_len e q -> chunk_y q t ch -> i <> y_cell e q t ch) ->
  t_at (yGm g') i = t_at (yGm g) i.
Proof.
  intros Hi. destruct Hdone as (g1 & (_ & _ & _ & _ & Hrest) & Htail).
  assert (yGm g' = yGm g1) as ->.
  { destruct (_ =? _); [by destruct Htail as (-> & _)|by rewrite Htail]. }
  apply Hrest. intros t c Ht Hc ->.
  apply (Hi (chunkStart + t - seq_start e q) (tile_start e j + c)); [lia| |].
  - unfold chunk_y, in_tile. lia.
  - unfold y_cell, y_index. lia.
Qed.

Lemma chunk_s_new pos ch : 0 <= pos < W - 1 -> chunk_s q ch ->
  t_at (convStatesGm g') (state_cell e line pos ch) = fn_state g0 q line pos ch.
Proof.
  intros Hp (_ & Htl & Hch). destruct Hdone as (g1 & _ & Htail). rewrite (proj2 (Z.eqb_eq _ _) Htl) in Htail.
  destruct Htail as (_ & _ & _ & Hs & _).
  set (c := ch - tile_start e j). assert (0 <= c < tile_size e j) as Hc by (unfold in_tile in Hch; lia).
  replace (state_cell e line pos ch) with (state_index e (tile_start e j) line pos c)
    by (unfold state_cell, state_index; subst c; lia).
  rewrite Hs by done. rewrite (chunk_stream_eq g0 g) by (done || lia || apply Hinv).
  unfold fn_state. f_equal; subst c; lia.
Qed.

Lemma chunk_s_rest i : (forall pos ch, 0 <= pos < W - 1 -> chunk_s q ch -> i <> state_cell e line pos ch) ->
  t_at (convStatesGm g') i = t_at (convStatesGm g) i.
Proof.
  intros Hi. destruct Hdone as (g1 & (Hc1 & _) & Htail). rewrite <- Hc1.
  destruct (_ =? _) eqn:E; bool_prop; [|by rewrite Htail]. destruct Htail as (_ & _ & _ & _ & Hrest).
  apply Hrest. intros pos c Hp Hc ->. apply (Hi pos (tile_start e j + c)); [done| |].
  - unfold chunk_s, in_tile. lia.
  - unfold state_cell, state_index. lia.
Qed.

Lemma chunk_lens : gm_ok e g' /\ initStateWorkspaceGm g' = initStateWorkspaceGm g.
Proof.
  destruct Hdone as (g1 & (Hc1 & Hw1 & Hl1 & _) & Htail), (fi_ok _ _ _ _ Hinv) as [H1 H2].
  destruct (_ =? _).
  - destruct Htail as (Hyc & Hwc & Hl2 & _). split; [|congruence]. split; [by rewrite Hyc, Hl1|by rewrite Hl2, Hc1].
  - rewrite Htail. split; [|done]. split; [by rewrite Hl1|by rewrite Hc1].
Qed.

Lemma fn_inv_chunk :
  fn_inv g0 (fun q' t ch => DY q' t ch \/ chunk_y q' t ch) (fun q' ch => DS q' ch \/ chunk_s q' ch) g'.
Proof.
  pose proof Hact as (Hq & Hline & Hl). destruct chunk_lens as [Hok Hws].
  assert (forall ch, in_tile ch -> 0 <= ch < dim) as Htile.
  { intros ch Hch. destruct (tile_chan_ok e Htiles j Hj) as (? & ? & _ & ?). unfold in_tile in Hch. lia. }
  split; [done| | | | |].
  - unfold snapshot_holds. rewrite Hws. apply Hinv.
  - intros q' line' t ch Ha Ht Hch HD.
    assert (chunk_y q' t ch \/ ~ chunk_y q' t ch) as [Hin|Hout] by (unfold chunk_y, in_tile; lia).
    + pose proof Hin as (-> & _). destruct Ha as (_ & Hline' & _).
      assert (line' = line) as -> by congruence. by apply chunk_y_new.
    + destruct HD as [HD|]; [|done]. rewrite chunk_y_rest; [by apply (fi_y_done _ _ _ _ Hinv)|].
      intros t0 ch0 Ht0 Hin0 Heq.
      destruct (y_cell_inj e Hseqs q' line' t ch q line t0 ch0) as (-> & -> & ->); try done.
      by apply Htile, Hin0.
  - intros i Hi. rewrite chunk_y_rest.
    + apply (fi_y_rest _ _ _ _ Hinv). intros q' line' t ch Ha Ht Hch HD. eapply Hi; try done. by left.
    + intros t ch Ht Hin. apply (Hi q line); try done; [by apply Htile, Hin|by right].
  - intros q' line' pos ch Ha Hp Hch HD.
    assert (chunk_s q' ch \/ ~ chunk_s q' ch) as [Hin|Hout] by (unfold chunk_s, in_tile; lia).
    + pose proof Hin as (-> & _). destruct Ha as (_ & Hline' & _).
      assert (line' = line) as -> by congruence. by apply chunk_s_new.
    + destruct HD as [HD|]; [|done]. rewrite chunk_s_rest; [by apply (fi_state_done _ _ _ _ Hinv)|].
      intros p0 ch0 Hp0 Hin0 Heq. pose proof (eo_state e Henv) as Hst.
      destruct (state_cell_inj e line' pos ch line p0 ch0) as (-> & -> & ->); try lia; [by apply Htile, Hin0|].
      destruct Ha as (Hq' & Hl' & _). by rewrite (so_distinct e Hseqs q' q line Hq' Hq Hl' Hline) in Hout.
  - intros i Hi. rewrite chunk_s_rest.
    + apply (fi_state_rest _ _ _ _ Hinv). intros q' line' pos ch Ha Hp Hch HD. eapply Hi; try done. by left.
    + intros pos ch Hp Hin. apply (Hi q line); try done; [by apply Htile, Hin|by right].
Qed.
End ChunkStep.
End Chunk.

Lemma ResolveSeqHasInit_spec q' s (Q : bool -> KS T F -> Prop) :
  0 <= q' < td_batch td -> Q (has_init q') s ->
  wp (ResolveSeqHasInit e q' (negb (td_hasInitialStateMode td =? 0))) Q s.
Proof.
  intros Hq HQ. unfold ResolveSeqHasInit, has_init in *. destruct (td_hasInitialStateMode td =? 0) eqn:E; bool_prop.
  - by apply wp_ret.
  - cbn [negb andb] in *. apply wp_bind, wp_GetValue; [rewrite (fo_init Hfn) by done; lia|]. by apply wp_ret.
Qed.

(** ** One token tile *)

Section Tile.
Variables (g0 : GM T) (i j : Z).
Context (Hj : 0 <= j < td_baseDimCnt td).

Definition tok_start : Z := i * td_tokenBlockSize td.
Definition tok_end : Z := Z.min (tok_start + td_tokenBlockSize td) (td_cuSeqlen td).

(** The cells of the tile up to token [cursor]: outputs, and the states of
    the sequences that end there. *)
Definition tile_y (cursor q t ch : Z) : Prop :=
  tok_start <= seq_start e q + t < Z.min tok_end cursor /\ in_tile j ch.
Definition tile_s (cursor q ch : Z) : Prop :=
  tok_start <= seq_end q - 1 < Z.min tok_end cursor /\ in_tile j ch.

Definition fn_tile_task : FnDirectBlockTask :=
  {| fbt_valid := true; fbt_tokenTileId := i; fbt_baseDimIdx := j; fbt_tokenStart := tok_start;
     fbt_tokenEnd := tok_end; fbt_channelStart := tile_start e j; fbt_baseDimSize := tile_size e j |}.

Variables (DY : Z -> Z -> Z -> Prop) (DS : Z -> Z -> Prop).

Definition tile_inv (cursor : Z) g : Prop :=
  fn_inv g0 (fun q t ch => DY q t ch \/ tile_y cursor q t ch) (fun q ch => DS q ch \/ tile_s cursor q ch) g.

(** Moving the cursor over tokens that belong to no active sequence. *)
Lemma tile_inv_skip c c' g :
  (forall q line t, active e q line -> 0 <= t < seq_len e q -> tok_start <= seq_start e q + t < tok_end ->
     (seq_start e q + t < c <-> seq_start e q + t < c')) ->
  tile_inv c g -> tile_inv c' g.
Proof.
  intros Hc. apply fn_inv_ext.
  - intros q line t ch Ha Ht _. unfold tile_y. specialize (Hc q line t Ha Ht). intuition lia.
  - intros q line ch Ha _. unfold tile_s. destruct Ha as (Hq & Hline & Hl).
    specialize (Hc q line (seq_len e q - 1) (conj Hq (conj Hline Hl)) ltac:(lia)).
    replace (seq_start e q + (seq_len e q - 1)) with (seq_end q - 1) in Hc by lia. intuition lia.
Qed.

(** Position of the loop: sequences before [seq] have no token left in the
    tile, those from [seq] on none before [cursor]. *)
Definition at_seq (seq cursor : Z) : Prop :=
  tok_start <= cursor /\
  (forall q, 0 <= q < seq -> q < td_batch td -> seq_end q <= cursor \/ tok_end <= cursor \/ seq_len e q = 0) /\
  (forall q, seq <= q < td_batch td -> cursor <= seq_start e q \/ cursor = tok_start).

Lemma at_seq_next seq c c' :
  0 <= seq < td_batch td -> at_seq seq c -> c <= c' ->
  (seq_end seq <= c' \/ tok_end <= c' \/ seq_len e seq = 0) ->
  (c' = c \/ c' <= seq_end seq) ->
  at_seq (seq + 1) c'.
Proof.
  intros Hs (H1 & H2 & H3) Hc Hdone Hle. split; [lia|]. split.
  - intros q Hq Hqb. destruct (decide (q = seq)) as [->|Hne]; [done|]. destruct (H2 q); lia.
  - intros q Hq. pose proof (so_order e Hseqs seq q ltac:(lia) ltac:(lia)) as Ho.
    destruct (H3 q ltac:(lia)) as [?|?]; destruct Hle as [->|Hle]; try lia.
Qed.

(** No token of an active sequence lies in [c, c') when [c'] stays inside an
    inactive or not yet started sequence. *)
Lemma at_seq_gap seq c c' q line t :
  0 <= seq < td_batch td -> at_seq seq c -> c <= c' ->
  c' <= seq_start e seq \/ (seq_line e seq = None /\ c' <= seq_end seq) ->
  active e q line -> 0 <= t < seq_len e q -> tok_start <= seq_start e q + t < tok_end ->
  (seq_start e q + t < c <-> seq_start e q + t < c').
Proof.
  intros Hs (H1 & H2 & H3) Hc Hc' (Hq & Hline & Hl) Ht Hin. pose proof (so_len e Hseqs seq Hs).
  destruct (Z.lt_trichotomy q seq) as [Hlt|[->|Hgt]].
  - destruct (H2 q ltac:(lia) ltac:(lia)); lia.
  - destruct Hc' as [Hc'|[Hn _]]; [lia|congruence].
  - pose proof (so_order e Hseqs seq q ltac:(lia) ltac:(lia)). lia.
Qed.

(** The chunk of sequence [seq] from [c] to [c'] completes the tile up to [c']. *)
Lemma tile_inv_chunk seq line c c' g g' :
  active e seq line -> at_seq seq c -> seq_start e seq <= c < c' -> c' = Z.min tok_end (seq_end seq) ->
  chunk_done seq line j c (c' - c) g g' -> tile_inv c g -> tile_inv c' g'.
Proof.
  intros Hact Hat Hc Hc' Hd Hinv. pose proof Hact as (Hs & Hline & Hl).
  assert (c + (c' - c) = c') as Ecc by lia.
  pose proof (fn_inv_chunk seq line j c (c' - c) Hact Hj ltac:(lia) ltac:(lia) ltac:(lia) _ _ _ _ _ Hinv Hd) as Hnew.
  destruct Hat as (H1 & H2 & H3).
  revert Hnew. apply fn_inv_ext; unfold chunk_y, chunk_s, tile_y, tile_s; rewrite Ecc.
  - intros q line' t ch (Hq & Hline' & Hl') Ht Hch.
    assert (tok_start <= seq_start e q + t < Z.min tok_end c' <->
      tok_start <= seq_start e q + t < Z.min tok_end c \/ (q = seq /\ c <= seq_start e seq + t < c')) as Hiff; [|tauto].
    destruct (Z.lt_trichotomy q seq) as [Hlt|[->|Hgt]].
    + destruct (H2 q ltac:(lia) ltac:(lia)); lia.
    + lia.
    + pose proof (so_order e Hseqs seq q ltac:(lia) ltac:(lia)). lia.
  - intros q line' ch (Hq & Hline' & Hl') Hch.
    assert (tok_start <= seq_end q - 1 < Z.min tok_end c' <->
      tok_start <= seq_end q - 1 < Z.min tok_end c \/ (q = seq /\ c' = seq_end seq)) as Hiff; [|tauto].
    destruct (Z.lt_trichotomy q seq) as [Hlt|[->|Hgt]].
    + destruct (H2 q ltac:(lia) ltac:(lia)); lia.
    + lia.
    + pose proof (so_order e Hseqs seq q ltac:(lia) ltac:(lia)). lia.
Qed.

Lemma snapshot_holds_ok g q : snapshot_holds g0 g -> 0 <= q < td_batch td -> snapshot_ok e g q.
Proof.
  intros Hs Hq Hw. destruct (Hs Hw) as (Hl & _). split; [lia|]. pose proof (eo_width e Henv). pose proof (eo_dim e Henv).
  assert (0 < (W - 1) * dim) by nia. nia.
Qed.

(** Leaving the loop: every token of the tile is behind the cursor. *)
Lemma tile_inv_exit hi seq cursor g :
  (forall q, hi <= q < td_batch td -> tok_end <= seq_start e q) -> at_seq seq cursor ->
  tok_end <= cursor \/ hi <= seq -> tile_inv cursor g -> tile_inv tok_end g.
Proof.
  intros Hup (H1 & H2 & H3) Hex. apply tile_inv_skip.
  intros q line t (Hq & Hline & Hl) Ht Hin. destruct (decide (q < seq)) as [Hlt|Hge].
  - destruct (H2 q ltac:(lia) ltac:(lia)); lia.
  - destruct Hex as [|Hex]; [lia|]. specialize (Hup q ltac:(lia)). lia.
Qed.

(** The cursor moves up to the start of the sequence. *)
Lemma tile_clamp seq cursor g :
  0 <= seq < td_batch td -> at_seq seq cursor -> tile_inv cursor g ->
  let c1 := if cursor <? seq_start e seq then seq_start e seq else cursor in
  seq_start e seq <= c1 /\ cursor <= c1 /\ at_seq seq c1 /\ tile_inv c1 g.
Proof.
  intros Hs Hat Hinv c1. subst c1. destruct (cursor <? seq_start e seq) eqn:E; bool_prop; [|done].
  split; [lia|]. split; [lia|]. pose proof (so_len e Hseqs seq Hs). split.
  - destruct Hat as (H1 & H2 & H3). split; [lia|]. split.
    + intros q Hq Hqb. destruct (H2 q Hq Hqb); lia.
    + intros q Hq. left. destruct (decide (q = seq)) as [->|]; [lia|].
      pose proof (so_order e Hseqs seq q ltac:(lia) ltac:(lia)). lia.
  - revert Hinv. apply tile_inv_skip. intros q line t. apply (at_seq_gap seq); try done; lia.
Qed.

(** The loop completes the tile. *)
Lemma FnTile_loop_spec hi fuel seq cursor s :
  0 <= seq -> hi <= td_batch td -> hi - seq <= Z.of_nat fuel ->
  (forall q, hi <= q < td_batch td -> tok_end <= seq_start e q) ->
  at_seq seq cursor -> core_idle s -> tile_inv cursor (gm s) ->
  wp (FnTile_loop e fuel fn_tile_task hi seq cursor)
     (fun _ s' => core_idle s' /\ tile_inv tok_end (gm s')) s.
Proof.
  intros Hseq Hhi Hfuel Hup. revert seq cursor s Hseq Hfuel.
  induction fuel as [|fuel IH]; intros seq cursor s Hseq Hfuel Hat Hidle Hinv; cbn [FnTile_loop].
  { apply wp_ret. split; [done|]. eapply tile_inv_exit; [done|exact Hat|lia|done]. }
  destruct ((cursor <? fbt_tokenEnd fn_tile_task) && (seq <? hi)) eqn:Eg; cbn [fbt_tokenEnd fn_tile_task] in *; bool_prop.
  2: { apply wp_ret. split; [done|]. eapply tile_inv_exit; [done|exact Hat|lia|done]. }
  assert (0 <= seq < td_batch td) as Hs by lia.
  pose proof (so_start e Hseqs seq Hs) as Hst. pose proof (so_end e Hseqs seq Hs) as Hen.
  pose proof (so_len e Hseqs seq Hs) as Hln. pose proof (eo_tokens e Henv) as Htk. unfold INT32_MAX in Htk.
  rewrite (dim_i32 e Henv). cbv zeta. cbn [fbt_tokenEnd fbt_channelStart fbt_baseDimSize fn_tile_task].
  apply wp_bind. apply (ResolveSeqTaskWindowByMode_spec e Henv Hseqs); [done|].
  destruct (0 <? seq_len e seq) eqn:El; bool_prop.
  2: { apply IH; try lia; try done. eapply at_seq_next; [done|exact Hat|lia|lia|lia]. }
  rewrite i32_id by (unfold fits_i32; lia).
  destruct (tile_clamp seq cursor _ Hs Hat Hinv) as (Hc2 & Hc1 & Hat1 & Hinv1).
  set (c1 := if cursor <? seq_start e seq then seq_start e seq else cursor) in *.
  clearbody c1. rewrite Z.geb_leb. destruct (seq_end seq <=? c1) eqn:E1; bool_prop.
  { apply IH; try lia; try done. eapply at_seq_next; [done|exact Hat1|lia|lia|lia]. }
  assert ((if tok_end <=? seq_end seq then tok_end else seq_end seq) = Z.min tok_end (seq_end seq)) as ->
    by (case_if; lia).
  destruct (Z.min tok_end (seq_end seq) - c1 <=? 0) eqn:E2; bool_prop.
  { apply IH; try lia; try done. eapply at_seq_next; [done|exact Hat1|lia|lia|lia]. }
  apply wp_bind. apply (ResolveSeqCacheIndex_spec e Hseqs); [done|].
  assert (at_seq (seq + 1) (Z.min tok_end (seq_end seq))) as Hnext.
  { eapply at_seq_next; [done|exact Hat1|lia|lia|lia]. }
  destruct (seq_line e seq) as [line|] eqn:Hline.
  2: { apply IH; try lia; try done. revert Hinv1. apply tile_inv_skip. intros q line t.
       apply (at_seq_gap seq); try done; [lia|right; split; [done|lia]]. }
  assert (active e seq line) as Hact by done.
  apply wp_bind, ResolveSeqHasInit_spec; [done|].
  eapply wp_seq; [apply (ProcessFnChunk_spec seq line j c1 _ Hact Hj); try lia; [done|apply Hinv1|]|].
  { apply snapshot_holds_ok; [apply Hinv1|done]. }
  intros [] s' (Hidle' & Hd). apply IH; try lia; try done. by eapply tile_inv_chunk; [exact Hact|exact Hat1|lia|lia|exact Hd|].
Qed.
End Tile.
End Fn.
