(* ===== verification/Conv1dFnGrid.v ===== *)
(** The fn-mode launch as a whole: the snapshot of the initial states, the
    barrier, and the token tiles of all cores. *)

From S2P Require Import Prelude AscendC Conv1dTypes Conv1dPlanner Conv1dValidation Conv1dElem Conv1dKernel.
From S2P Require Import Conv1dKernelLemmas Conv1dLoad Conv1dRun Conv1dState Conv1dSeqs Conv1dUpdate.
From S2P Require Import Conv1dGrid Conv1dFnTask Conv1dFn.

Section FnGrid.
Context {T F : Type} `{ElemOps T F} `{!HalfLaws T F} `{!MulAddLaw T F}.
Variable e : KernelEnv T.
Abbreviation td := (tilingData e).
Implicit Types s : KS T F.
Implicit Types g : GM T.
Abbreviation W := (td_width td).
Abbreviation dim := (td_dim td).
Abbreviation K := (M (KS T F) fault_kind).

(** What the host guarantees of an fn launch. *)
Record fn_launch : Prop := {
  fl_env : env_ok e;
  fl_seqs : seqs_ok e;
  fl_tiles : tiles_ok e;
  fl_fn : fn_ok e }.
Context (Hl : fn_launch).

(** ** The task of a core *)

Lemma FnBlockTask_eq i j n :
  0 <= i < td_tokenBlockCnt td -> 0 <= j < td_baseDimCnt td ->
  i * td_baseDimCnt td + j <= INT32_MAX ->
  FnBlockTask (with_block e (i * td_baseDimCnt td + j) n) = fn_tile_task e i j.
Proof.
  intros Hi Hj Hb. destruct Hl as [Henv Hseqs Htiles Hfn]. pose proof (fo_tokens e Hfn) as Htok.
  pose proof (fo_tokens32 e Hfn) as H32. destruct Htiles as [[Hd _] Hchn [Hs _]].
  pose proof Htok as (Ht1 & Ht2 & Ht3 & Ht4). pose proof Hchn as (Hc1 & Hc2 & Hc3 & Hc4).
  pose proof (eo_dim e Henv). pose proof (eo_tokens e Henv). unfold INT32_MAX in *.
  assert (td_tokenBlockCnt td <= td_cuSeqlen td) by nia. assert (td_baseDimCnt td <= dim) by nia.
  unfold FnBlockTask. cbn [tilingData with_block GetBlockIdx].
  rewrite !i32_id by (unfold fits_i32; nia).
  destruct (block_task_spec _ _ _ _ _ _ Htok Hchn ltac:(lia) ltac:(lia) (i * td_baseDimCnt td + j)) as (-> & _); [nia|].
  rewrite Z.div_add_l, (Z.div_small j), Z.add_0_r by lia.
  rewrite (Z.add_comm (i * _)), Z.mod_add, (Z.mod_small j) by lia.
  unfold fn_tile_task, tok_end, tok_start, tile_size, tile_start. f_equal. case_if; lia.
Qed.

(** ** The tile phase *)

(** The sequences the loop walks over: none before the range has a token in
    the tile, none after it either. *)
Definition seq_range (i : Z) (r : Z * Z) : Prop :=
  0 <= r.1 /\ r.2 <= td_batch td /\
  (forall q, 0 <= q < r.1 -> q < td_batch td -> seq_start e q + seq_len e q <= tok_start e i) /\
  (forall q, r.2 <= q < td_batch td -> tok_end e i <= seq_start e q).

Lemma FnTile_range_spec i b n s :
  0 <= i < td_tokenBlockCnt td ->
  wp (if td_inputMode td =? 0 then
        let '(ok, seq, seqUpperBound) := ResolveExplicitTokenTileSeqRange (with_block e b n) i 0 (td_batch td) in
        if negb ok then
          seq' ← FindVarlenSeqByToken (with_block e b n) (tok_start e i);
          mret (seq', seqUpperBound)
        else mret (seq, seqUpperBound)
      else mret (if td_seqLen td >? 0 then tok_start e i /c td_seqLen td else 0, td_batch td))
     (fun r s' => s' = s /\ seq_range i r) s.
Proof.
  intros Hi. pose proof Hl as [Henv Hseqs Htiles Hfn].
  pose proof (so_batch e Hseqs) as Hbt. pose proof (so_seqLen e Hseqs) as Hsl.
  pose proof (fo_tokens e Hfn) as (Ht1 & Ht2 & Ht3 & Ht4). pose proof (fo_tokens32 e Hfn). pose proof (eo_tokens e Henv).
  unfold INT32_MAX in *. assert (0 <= tok_start e i) as Hts by (unfold tok_start; nia).
  unfold seq_range.
  unfold seq_start, seq_len. destruct (fo_input e Hfn) as [Him|Him]; rewrite Him.
  - change (GetSeqTaskWindowMode (i32 0)) with SEQ_TASK_WINDOW_MODE_VARLEN. cbv iota.
    change (0 =? 0) with true. cbv iota. pose proof (fo_qsl e Hfn Him) as Hq.
    assert (forall lo, first_seq_after (t_at (queryStartLocGm e)) (td_batch td) (tok_start e i) lo ->
      0 <= lo /\ forall q, 0 <= q < lo -> q < td_batch td ->
        t_at (queryStartLocGm e) q + (t_at (queryStartLocGm e) (q + 1) - t_at (queryStartLocGm e) q) <= tok_start e i) as Hlow.
    { intros lo (Hr & Hlo & _). split; [lia|]. intros q Hqr _. specialize (Hlo q Hqr). lia. }
    cbn [fbt_tokenTileId fbt_tokenStart fn_tile_task]. unfold ResolveExplicitTokenTileSeqRange.
    replace (HasExplicitFnTokenSeqRanges (with_block e b n)) with
      (HasExplicitFnTokenSeqRanges e) by done.
    destruct (HasExplicitFnTokenSeqRanges e) eqn:Ex; cbn [negb orb].
    + unfold HasExplicitFnTokenSeqRanges in Ex. bool_prop.
      destruct (fo_ranges e Hfn ltac:(done) Him) as (Hcnt & Hr).
      destruct (Hr i Hi) as (a & z & Ha & Hbb & Hfa & Hff). cbn [tilingData with_block].
      rewrite Hcnt, (proj2 (Z.ltb_ge i 0)), Z.geb_leb, (proj2 (Z.leb_gt (td_tokenBlockCnt td) i)) by lia. cbn [orb].
      erewrite !nth_lookup_Some by done. pose proof Hfa as (Ha1 & _). pose proof Hff as (Hb1 & _ & Hb2).
      rewrite !i32_id by (unfold fits_i32; lia). rewrite !Z.geb_leb, !(proj2 (Z.leb_le _ _)) by lia.
      cbn [negb andb]. apply wp_ret. cbn [fst snd]. destruct (Hlow a Hfa) as [Hlo1 Hlo2].
      split_and!; [done|lia|lia|done|]. intros q Hqr.
      pose proof (qsl_ok_mono _ _ _ z q Hq ltac:(lia) ltac:(lia)). specialize (Hb2 ltac:(lia)).
      unfold tok_end, tok_start. lia.
    + apply wp_bind.
      apply (FindVarlenSeqByToken_spec e); [unfold INT32_MAX; lia|by apply (so_qsl_len e Hseqs); rewrite Him|done|unfold INT32_MAX; lia|].
      intros lo Hfa. apply wp_ret. cbn [fst snd]. destruct (Hlow lo Hfa) as [Hlo1 Hlo2].
      split_and!; [done|lia|lia|done|lia].
  - change (GetSeqTaskWindowMode (i32 1)) with SEQ_TASK_WINDOW_MODE_BATCH. cbv iota.
    change (1 =? 0) with false. cbv iota. pose proof (fo_seqLen e Hfn Him) as Hq.
    cbn [fbt_tokenStart fn_tile_task]. rewrite Z.gtb_ltb, (proj2 (Z.ltb_lt _ _)) by done. apply wp_ret. cbn [fst snd].
    rewrite quot_nonneg_div by lia. pose proof (Z.div_mod (tok_start e i) (td_seqLen td) ltac:(lia)).
    pose proof (Z.mod_pos_bound (tok_start e i) _ Hq). split_and!; [done| |lia| |lia].
    + by apply Z.div_pos.
    + intros q Hqr _.
      assert ((q + 1) * td_seqLen td <= tok_start e i / td_seqLen td * td_seqLen td) by (apply Z.mul_le_mono_nonneg_r; lia).
      lia.
Qed.

Lemma FnTilePhase_spec g0 DY DS i j n s :
  0 <= i < td_tokenBlockCnt td -> 0 <= j < td_baseDimCnt td -> i * td_baseDimCnt td + j <= INT32_MAX ->
  core_idle s -> fn_inv e g0 DY DS (gm s) ->
  wp (FnTilePhase (with_block e (i * td_baseDimCnt td + j) n))
     (fun _ s' => core_idle s' /\ tile_inv e g0 i j DY DS (tok_end e i) (gm s')) s.
Proof.
  intros Hi Hj Hb Hidle Hinv. pose proof Hl as [Henv Hseqs Htiles Hfn].
  unfold FnTilePhase. rewrite FnBlockTask_eq by done. cbv zeta. cbn [fbt_valid fn_tile_task negb tilingData with_block].
  pose proof (so_batch e Hseqs) as Hbt. pose proof (so_seqLen e Hseqs) as Hsl.
  pose proof (fo_tokens e Hfn) as (Ht1 & Ht2 & Ht3 & Ht4). pose proof (fo_tokens32 e Hfn). pose proof (eo_tokens e Henv).
  unfold INT32_MAX in *.
  rewrite (i32_id (td_batch td)), (i32_id (td_seqLen td)) by (unfold fits_i32; lia).
  assert (0 <= tok_start e i) as Hts by (unfold tok_start; nia).
  eapply wp_seq; [by apply FnTile_range_spec|].
  intros [lo hi] s' (-> & Hlo & Hhi & Hbefore & Hafter). cbn [fst snd] in *.
  eapply wp_mono; [apply (FnTile_loop_spec e Henv Hseqs Htiles Hfn g0 i j Hj DY DS hi); try done; [lia| |]|done].
  - split; [reflexivity|]. split; [intros q Hq1 Hq2; left; by apply Hbefore|by right].
  - eapply fn_inv_ext; [| |exact Hinv]; unfold tile_y, tile_s; cbn [fbt_tokenStart fn_tile_task].
    + intros q line t ch _ _ _. split; [tauto|]. intros [?|[? _]]; [done|lia].
    + intros q line ch _ _. split; [tauto|]. intros [?|[? _]]; [done|lia].
Qed.

(** ** The snapshot phase *)

(** [Q] says which rows of the snapshot are taken; nothing else changes. *)
Record snap_inv g0 (Q : Z -> Z -> Z -> Prop) g : Prop := {
  si_y : yGm g = yGm g0;
  si_states : convStatesGm g = convStatesGm g0;
  si_len : t_len (initStateWorkspaceGm g) = t_len (initStateWorkspaceGm g0);
  si_rows : forall q line pos ch, 0 <= q < td_batch td -> seq_line e q = Some line -> has_init e q = true ->
    0 <= pos < W - 1 -> 0 <= ch < dim -> Q q pos ch ->
    t_at (initStateWorkspaceGm g) ((q * (W - 1) + pos) * dim + ch) = state_at e g0 line pos ch }.

Lemma snap_inv_ext g0 (Q Q' : Z -> Z -> Z -> Prop) g :
  (forall q line pos ch, 0 <= q < td_batch td -> seq_line e q = Some line -> has_init e q = true ->
     0 <= pos < W - 1 -> 0 <= ch < dim -> Q' q pos ch -> Q q pos ch) ->
  snap_inv g0 Q g -> snap_inv g0 Q' g.
Proof. intros HQ [H1 H2 H3 H4]. split; [done..|]. intros. eapply H4; try done. by eapply HQ. Qed.

Definition snapshot_room g : Prop :=
  td_hasInitStateWorkspace td <> 0 -> td_batch td * ((W - 1) * dim) <= t_len (initStateWorkspaceGm g).

(** One row of the snapshot. *)
Lemma snapshot_row_spec g0 Q q line j pos s :
  0 <= q < td_batch td -> seq_line e q = Some line -> 0 <= j < td_baseDimCnt td -> 0 <= pos < W - 1 ->
  td_hasInitStateWorkspace td <> 0 -> snapshot_room g0 -> gm_ok e g0 -> core_idle s -> snap_inv g0 Q (gm s) ->
  wp (PrefetchInitStatesToWorkspace_row (line * td_stateLen td * dim + tile_start e j + pos * dim)
        (q * (W - 1) * dim + tile_start e j + pos * dim) (tile_size e j))
     (fun _ s' => core_idle s' /\
        snap_inv g0 (fun q' pos' ch => Q q' pos' ch \/ (q' = q /\ pos' = pos /\ in_tile e j ch)) (gm s')) s.
Proof.
  intros Hq Hline Hj Hp Hw Hroom Hg [Hok Hfl] [Hy Hc Hlen Hrows]. pose proof Hl as [Henv Hseqs Htiles Hfn].
  destruct (tile_chan_ok e Htiles j Hj) as (Hc0 & Hcs & Hcm & Hcd). pose proof (eo_state e Henv) as Hst.
  pose proof (line_of_gm e Henv Hseqs _ q line Hg Hq Hline) as [Hl0 Hl1]. specialize (Hroom Hw).
  pose proof (eo_dim e Henv).
  assert ((q * (W - 1) + pos) * dim + dim <= td_batch td * ((W - 1) * dim)) as Hfit.
  { replace (_ + dim) with ((q * (W - 1) + pos + 1) * dim) by lia. rewrite Z.mul_assoc.
    apply Z.mul_le_mono_nonneg_r; nia. }
  assert (0 <= (q * (W - 1) + pos) * dim) by nia.
  assert ((pos + 1) * dim <= td_stateLen td * dim) by (apply Z.mul_le_mono_nonneg_r; lia).
  assert (0 <= line * td_stateLen td * dim) by nia.
  apply wp_bind, wp_DataCopy; [by apply block_aligned_16; lia|in_range|in_range; rewrite Hc; nia|].
  ks_simpl. apply wp_SetWait_seq; [ks_simpl; rewrite Hfl; set_solver|].
  apply wp_bind, wp_DataCopy; [by apply block_aligned_16; lia|in_range; rewrite Hlen; nia|in_range|].
  ks_simpl. apply wp_SetWait; [ks_simpl; rewrite Hfl; set_solver|]. split.
  - split; [|done]. unfold ub_ok in *. ks_simpl. by rewrite write_range_len.
  - split; ks_simpl; [done|done|by rewrite write_range_len|].
    intros q' line' pos' ch Hq' Hline' Hi' Hp' Hch HQ. unfold in_tile in HQ.
    rewrite write_range_at. destruct (_ && _) eqn:E; bool_prop.
    + destruct (tile_unique (q' * (W - 1) + pos') ch (q * (W - 1) + pos)
        ((q' * (W - 1) + pos') * dim + ch - (q * (W - 1) + pos) * dim) dim) as [Heq _]; [lia..|].
      destruct (tile_unique q' pos' q pos (W - 1)) as [-> ->]; [done..|].
      assert (line' = line) as -> by congruence. rewrite write_range_at.
      replace (_ && _) with true by (symmetry; apply andb_true_intro; split; [apply Z.leb_le|apply Z.ltb_lt]; lia).
      rewrite Hc. unfold state_at. f_equal. lia.
    + destruct HQ as [HQ|(-> & -> & Hin)]; [by apply Hrows|]. lia.
Qed.

Lemma PrefetchInitStatesToWorkspace_spec g0 Q j b n s :
  0 <= j < td_baseDimCnt td -> snapshot_room g0 -> gm_ok e g0 -> core_idle s -> snap_inv g0 Q (gm s) ->
  wp (PrefetchInitStatesToWorkspace (with_block e b n) (tile_start e j) (tile_size e j))
     (fun _ s' => core_idle s' /\ snap_inv g0 (fun q pos ch => Q q pos ch \/
        (td_hasInitStateWorkspace td <> 0 /\ in_tile e j ch)) (gm s')) s.
Proof.
  intros Hj Hroom Hg Hidle Hinv. pose proof Hl as [Henv Hseqs Htiles Hfn].
  unfold PrefetchInitStatesToWorkspace. cbn [tilingData with_block].
  destruct (td_hasInitStateWorkspace td =? 0) eqn:Ew; bool_prop.
  { apply wp_ret. split; [done|]. revert Hinv. apply snap_inv_ext. naive_solver. }
  pose proof (so_batch e Hseqs) as Hbt. pose proof (eo_width e Henv). unfold INT32_MAX in *.
  rewrite (dim_i32 e Henv), (i32_id (W - 1)), (i32_id (td_batch td)) by (unfold fits_i32; lia). cbv zeta.
  apply (wp_for_range (fun q s' => core_idle s' /\
    snap_inv g0 (fun q' pos ch => Q q' pos ch \/ (q' < q /\ in_tile e j ch)) (gm s'))); [lia| | |].
  - split; [done|]. revert Hinv. apply snap_inv_ext. intros; naive_solver lia.
  - intros q s1 Hq (Hidle1 & Hinv1).
    assert (~ (exists line, seq_line e q = Some line /\ has_init e q = true) ->
      core_idle s1 /\ snap_inv g0 (fun q' pos ch => Q q' pos ch \/ (q' < q + 1 /\ in_tile e j ch)) (gm s1)) as Hskip.
    { intros Hno. split; [done|]. revert Hinv1. apply snap_inv_ext.
      intros q' line pos ch Hq' Hline Hini _ _ [HQ|[Hlt Hin]]; [by left|right]. split; [|done].
      destruct (decide (q' = q)) as [->|]; [|lia]. exfalso. apply Hno. by exists line. }
    apply wp_bind. apply (ResolveSeqHasInit_spec e Hfn); [done|].
    destruct (has_init e q) eqn:Ei; cbn [negb]; [|apply wp_ret, Hskip; naive_solver].
    apply wp_bind. apply (ResolveSeqCacheIndex_spec e Hseqs); [done|].
    destruct (seq_line e q) as [line|] eqn:Hline; [|apply wp_ret, Hskip; naive_solver]. clear Hskip.
    apply (wp_for_range (fun pos s' => core_idle s' /\ snap_inv g0 (fun q' pos' ch =>
      (Q q' pos' ch \/ (q' < q /\ in_tile e j ch)) \/ (q' = q /\ pos' < pos /\ in_tile e j ch)) (gm s'))); [lia| | |].
    + split; [done|]. revert Hinv1. apply snap_inv_ext. intros; naive_solver lia.
    + intros pos s2 Hp (Hidle2 & Hinv2).
      eapply wp_mono; [eapply (snapshot_row_spec g0 _ q line j pos s2); done|].
      intros [] s3 (Hidle3 & Hinv3). split; [done|]. revert Hinv3. apply snap_inv_ext.
      intros q' line' pos' ch _ _ _ _ _ [HQ|(-> & Hlt & Hin)]; [by left; left|].
      destruct (decide (pos' = pos)) as [->|]; [by right|left; right]. split_and!; [done|lia|done].
    + intros s2 (Hidle2 & Hinv2). split; [done|]. revert Hinv2. apply snap_inv_ext.
      intros q' line' pos' ch _ _ _ Hp' _ [HQ|[Hlt Hin]]; [by left; left|].
      destruct (decide (q' = q)) as [->|]; [right; split_and!; [done|lia|done]|left; right; split; [lia|done]].
  - intros s1 (Hidle1 & Hinv1). split; [done|]. revert Hinv1. apply snap_inv_ext.
    intros q' line pos ch Hq' _ _ _ _ [HQ|[_ Hin]]; [by left|right; split; [lia|done]].
Qed.

(** The rows taken by the snapshot phase of a core: the first token tile
    owns its channel tile. *)
Lemma FnSnapshotPhase_spec g0 Q i j n s :
  0 <= i < td_tokenBlockCnt td -> 0 <= j < td_baseDimCnt td -> i * td_baseDimCnt td + j <= INT32_MAX ->
  snapshot_room g0 -> gm_ok e g0 -> core_idle s -> snap_inv g0 Q (gm s) ->
  wp (FnSnapshotPhase (with_block e (i * td_baseDimCnt td + j) n))
     (fun _ s' => core_idle s' /\ snap_inv g0 (fun q pos ch => Q q pos ch \/
        (td_hasInitStateWorkspace td <> 0 /\ i = 0 /\ in_tile e j ch)) (gm s')) s.
Proof.
  intros Hi Hj Hb Hroom Hg Hidle Hinv. unfold FnSnapshotPhase. rewrite FnBlockTask_eq by done.
  cbn [tilingData with_block].
  assert (td_hasInitStateWorkspace td = 0 \/ i <> 0 ->
    core_idle s /\ snap_inv g0 (fun q pos ch => Q q pos ch \/
      (td_hasInitStateWorkspace td <> 0 /\ i = 0 /\ in_tile e j ch)) (gm s)) as Hskip.
  { intros Hno. split; [done|]. revert Hinv. apply snap_inv_ext. intros; naive_solver lia. }
  destruct (td_hasInitStateWorkspace td =? 0) eqn:Ew; bool_prop.
  { apply wp_when_false; [done|]. apply Hskip. by left. }
  apply wp_when_true; [done|]. unfold IsFnInitStateSnapshotOwnerBlock. cbn [fbt_valid fbt_tokenTileId fn_tile_task andb].
  destruct (i =? 0) eqn:E0; bool_prop; [|apply wp_when_false; [done|apply Hskip; by right]].
  apply wp_when_true; [done|]. eapply wp_mono; [by apply (PrefetchInitStatesToWorkspace_spec g0 Q j)|].
  intros [] s' (Hidle' & Hinv'). split; [done|]. revert Hinv'. apply snap_inv_ext. intros; naive_solver.
Qed.

(** ** All cores *)

(** The cores of a phase, one after the other; each keeps its buffer. *)
Fixpoint run_phase (m : KernelEnv T -> K unit) (n : Z) (order : list Z) (st : (Z -> UB T F) * GM T)
    : outcome fault_kind ((Z -> UB T F) * GM T) :=
  match order with
  | [] => Ok st
  | b :: order' =>
      match m (with_block e b n) (Build_KS (st.1 b) st.2) with
      | Ok (_, s) => run_phase m n order' (<[ b := ub s ]> st.1, gm s)
      | Err f => Err f
      end
  end.

(** [SyncAll] separates the two phases of [ProcessVarlenTokenTiled]. *)
Definition run_fn (n : Z) (order1 order2 : list Z) (st : (Z -> UB T F) * GM T)
    : outcome fault_kind ((Z -> UB T F) * GM T) :=
  match run_phase FnSnapshotPhase n order1 st with
  | Ok st1 => run_phase FnTilePhase n order2 st1
  | Err f => Err f
  end.

(** A phase whose cores each extend an invariant indexed by the cores done. *)
Lemma run_phase_spec (m : KernelEnv T -> K unit) n (I : (Z -> Prop) -> GM T -> Prop) order :
  (forall D b s, b ∈ order -> core_idle s -> I D (gm s) ->
     wp (m (with_block e b n)) (fun _ s' => core_idle s' /\ I (fun x => D x \/ x = b) (gm s')) s) ->
  (forall D D' g, (forall x, D x <-> D' x) -> I D g -> I D' g) ->
  forall D st, (forall b, ub_fresh (st.1 b)) -> I D st.2 ->
  exists st', run_phase m n order st = Ok st' /\ (forall b, ub_fresh (st'.1 b)) /\
    I (fun x => D x \/ x ∈ order) st'.2.
Proof.
  induction order as [|b order IH]; intros Hm Hext D st Hfresh HI; simpl.
  { exists st. split; [done|]. split; [done|]. revert HI. apply Hext. set_solver. }
  destruct (wp_run _ _ _ (Hm D b (Build_KS (st.1 b) st.2) ltac:(set_solver) (Hfresh b _) HI)) as (u & s & -> & Hidle & HI').
  destruct (IH ltac:(set_solver) Hext (fun x => D x \/ x = b) (<[ b := ub s ]> st.1, gm s)) as (st' & Hrun & Hf & HIf).
  - intros b'. simpl. destruct (decide (b = b')) as [<-|Hne]; [rewrite fn_lookup_insert; intros g; exact Hidle|].
    by rewrite fn_lookup_insert_ne.
  - done.
  - exists st'. split; [done|]. split; [done|]. revert HIf. apply Hext. set_solver.
Qed.

(** The block of a token and channel. *)
Definition block_of (tok ch : Z) : Z := tok / td_tokenBlockSize td * td_baseDimCnt td + ch / td_baseDim td.

Lemma block_split b : 0 <= b < td_tokenBlockCnt td * td_baseDimCnt td ->
  exists i j, b = i * td_baseDimCnt td + j /\ 0 <= i < td_tokenBlockCnt td /\ 0 <= j < td_baseDimCnt td.
Proof.
  intros Hb. pose proof Hl as [_ _ [_ (_ & Hc & _) _] _]. exists (b / td_baseDimCnt td), (b mod td_baseDimCnt td).
  pose proof (Z.div_mod b (td_baseDimCnt td) ltac:(lia)). pose proof (Z.mod_pos_bound b _ Hc).
  pose proof (Z.div_pos b _ ltac:(lia) Hc). split_and!; [lia|lia|nia|lia|lia].
Qed.

Lemma in_tile_iff j ch : 0 <= ch < dim -> 0 <= j < td_baseDimCnt td -> in_tile e j ch <-> j = ch / td_baseDim td.
Proof.
  intros Hch Hj. destruct (tile_of_channel e (fl_tiles Hl) ch Hch) as [_ Hiff]. by rewrite (Hiff j Hj).
Qed.

Lemma block_of_tile i j tok ch :
  0 <= i < td_tokenBlockCnt td -> 0 <= j < td_baseDimCnt td -> 0 <= tok < td_cuSeqlen td -> 0 <= ch < dim ->
  tok_start e i <= tok < tok_end e i /\ in_tile e j ch <-> block_of tok ch = i * td_baseDimCnt td + j.
Proof.
  intros Hi Hj Htok Hch. rewrite in_tile_iff by done. unfold tok_start, tok_end, tok_start, block_of.
  destruct (fo_tokens e (fl_fn Hl)) as (Ht1 & _). destruct (tile_of_channel e (fl_tiles Hl) ch Hch) as [Hcj _].
  pose proof (Z.div_mod tok (td_tokenBlockSize td) ltac:(lia)). pose proof (Z.mod_pos_bound tok _ Ht1).
  pose proof (Z.div_pos tok _ ltac:(lia) Ht1). split.
  - intros [Hin ->]. f_equal. f_equal.
    destruct (tile_unique (tok / td_tokenBlockSize td) (tok mod td_tokenBlockSize td) i
      (tok - i * td_tokenBlockSize td) (td_tokenBlockSize td)); lia.
  - intros Heq. destruct (tile_unique _ _ _ _ _ Heq) as [<- <-]; [lia..|]. split; [lia|done].
Qed.

Definition snap_phase g0 (D : Z -> Prop) g : Prop :=
  snap_inv g0 (fun _ _ ch => td_hasInitStateWorkspace td <> 0 /\ D (ch / td_baseDim td)) g.
Definition tile_phase g0 (D : Z -> Prop) g : Prop :=
  fn_inv e g0 (fun q t ch => D (block_of (seq_start e q + t) ch))
    (fun q ch => D (block_of (seq_start e q + seq_len e q - 1) ch)) g.

Lemma snap_phase_step g0 D b n s :
  snapshot_room g0 -> gm_ok e g0 -> 0 <= b < td_tokenBlockCnt td * td_baseDimCnt td -> b <= INT32_MAX ->
  core_idle s -> snap_phase g0 D (gm s) ->
  wp (FnSnapshotPhase (with_block e b n)) (fun _ s' => core_idle s' /\ snap_phase g0 (fun x => D x \/ x = b) (gm s')) s.
Proof.
  intros Hroom Hg Hb Hb32 Hidle Hinv. destruct (block_split b Hb) as (i & j & -> & Hi & Hj).
  eapply wp_mono; [by eapply FnSnapshotPhase_spec|]. intros [] s' (Hidle' & Hinv'). split; [done|].
  revert Hinv'. apply snap_inv_ext. intros q line pos ch _ _ _ _ Hch (Hw & HD).
  destruct HD as [HD|HD]; [by left|]. right. split; [done|].
  destruct (tile_of_channel e (fl_tiles Hl) ch Hch) as [Hcj _].
  destruct (tile_unique 0 (ch / td_baseDim td) i j (td_baseDimCnt td)) as [<- ?]; [lia..|].
  split; [done|]. by apply in_tile_iff.
Qed.

Lemma tile_phase_step g0 D b n s :
  0 <= b < td_tokenBlockCnt td * td_baseDimCnt td -> b <= INT32_MAX -> core_idle s -> tile_phase g0 D (gm s) ->
  wp (FnTilePhase (with_block e b n)) (fun _ s' => core_idle s' /\ tile_phase g0 (fun x => D x \/ x = b) (gm s')) s.
Proof.
  intros Hb Hb32 Hidle Hinv. destruct (block_split b Hb) as (i & j & -> & Hi & Hj).
  eapply wp_mono; [by eapply FnTilePhase_spec|]. intros [] s' (Hidle' & Hinv'). split; [done|].
  revert Hinv'. pose proof (fl_seqs Hl) as Hseqs.
  apply fn_inv_ext; unfold tile_y, tile_s; rewrite Z.min_id.
  - intros q line t ch (Hq & _) Ht Hch. pose proof (so_start e Hseqs q Hq). pose proof (so_end e Hseqs q Hq).
    rewrite <- (block_of_tile i j) by (done || lia). tauto.
  - intros q line ch (Hq & _ & Hln) Hch. pose proof (so_start e Hseqs q Hq). pose proof (so_end e Hseqs q Hq).
    rewrite <- (block_of_tile i j) by (done || lia). tauto.
Qed.

(** After the barrier every snapshot row is taken. *)
Lemma snap_phase_done g0 D g :
  snapshot_room g0 -> gm_ok e g0 -> (forall j, 0 <= j < td_baseDimCnt td -> D j) -> snap_phase g0 D g ->
  tile_phase g0 (fun _ => False) g.
Proof.
  intros Hroom [Hg1 Hg2] HD [Hy Hc Hlen Hrows]. split.
  - split; [by rewrite Hy|by rewrite Hc].
  - intros Hw. split; [rewrite Hlen; by apply Hroom|]. intros q line pos ch Hq Hline Hi Hp Hch.
    apply Hrows; try done. split; [done|]. apply HD. by apply (tile_of_channel e (fl_tiles Hl)).
  - done.
  - intros i _. by rewrite Hy.
  - done.
  - intros i _. by rewrite Hc.
Qed.

Lemma run_fn_spec n order1 order2 ubs g :
  n = td_tokenBlockCnt td * td_baseDimCnt td -> n <= INT32_MAX ->
  order1 ≡ₚ zrange 0 n -> order2 ≡ₚ zrange 0 n ->
  (forall b, ub_fresh (ubs b)) -> gm_ok e g -> snapshot_room g ->
  exists ubs' g', run_fn n order1 order2 (ubs, g) = Ok (ubs', g') /\
    fn_inv e g (fun _ _ _ => True) (fun _ _ => True) g'.
Proof.
  intros Hn Hn32 Hp1 Hp2 Hfresh Hg Hroom. unfold run_fn.
  assert (forall order, order ≡ₚ zrange 0 n -> forall b, b ∈ order <-> 0 <= b < n) as Hmem.
  { intros order Hp b. by rewrite Hp, elem_of_zrange. }
  destruct (run_phase_spec FnSnapshotPhase n (snap_phase g) order1) with (D := fun _ : Z => False) (st := (ubs, g))
    as (st1 & -> & Hf1 & Hs1); [..|].
  - intros D b s Hb. apply (Hmem _ Hp1) in Hb. apply snap_phase_step; [done|done|lia|lia].
  - intros D D' g' HD. apply snap_inv_ext. naive_solver.
  - done.
  - split; naive_solver.
  - apply snap_phase_done in Hs1; [|done|done|].
    2: { intros j Hj. right. apply (Hmem _ Hp1). pose proof (fo_tokens e (fl_fn Hl)) as (_ & ? & _). nia. }
    destruct (run_phase_spec FnTilePhase n (tile_phase g) order2) with (D := fun _ : Z => False) (st := st1)
      as ([ubs2 g2] & -> & _ & Hs2); [..|].
    + intros D b s Hb. apply (Hmem _ Hp2) in Hb. apply tile_phase_step; lia.
    + intros D D' g' HD. apply fn_inv_ext; intros; apply HD.
    + done.
    + done.
    + exists ubs2, g2. split; [done|]. revert Hs2. pose proof (fl_seqs Hl) as Hseqs.
      assert (forall tok ch, 0 <= tok < td_cuSeqlen td -> 0 <= ch < dim -> block_of tok ch ∈ order2) as Hall.
      { intros tok ch Htok Hch. apply (Hmem _ Hp2). rewrite Hn. unfold block_of.
        destruct (tile_of_channel e (fl_tiles Hl) ch Hch) as [Hcj _]. destruct (fo_tokens e (fl_fn Hl)) as (Ht1 & Ht2 & Ht3 & _).
        pose proof (Z.div_pos tok _ ltac:(lia) Ht1). pose proof (Z.div_lt_upper_bound tok _ (td_tokenBlockCnt td) Ht1 ltac:(lia)).
        nia. }
      apply fn_inv_ext.
      * intros q line t ch (Hq & _) Ht Hch. pose proof (so_start e Hseqs q Hq). pose proof (so_end e Hseqs q Hq).
        split; [done|]. intros _. right. apply Hall; lia.
      * intros q line ch (Hq & _ & Hln) Hch. pose proof (so_start e Hseqs q Hq). pose proof (so_end e Hseqs q Hq).
        split; [done|]. intros _. right. apply Hall; lia.
Qed.
End FnGrid.

(**  An fn launch with one core per token tile and channel tile, the cores
    in any order before and in any order after the barrier: no core faults, the
    output of every token of every active sequence is the reference convolution
    over its own tokens and, before them, over its initial state (or zeros),
    every active cache line holds the last [width - 1] tokens of its sequence's
    stream, and all other outputs and states are unchanged. *)
Theorem fn_grid_correct {T F : Type} `{ElemOps T F} `{!HalfLaws T F} `{!MulAddLaw T F}
    (e : KernelEnv T) (n : Z) (order1 order2 : list Z) (ubs : Z -> UB T F) (g : GM T) :
  fn_launch e -> n = td_tokenBlockCnt (tilingData e) * td_baseDimCnt (tilingData e) -> n <= INT32_MAX ->
  order1 ≡ₚ zrange 0 n -> order2 ≡ₚ zrange 0 n ->
  (forall b, ub_fresh (ubs b)) -> gm_ok e g -> snapshot_room e g ->
  exists ubs' g', run_fn e n order1 order2 (ubs, g) = Ok (ubs', g') /\
    fn_inv (F := F) e g (fun _ _ _ => True) (fun _ _ => True) g'.
Proof. intros Hl. exact (run_fn_spec e Hl n order1 order2 ubs g). Qed.

(** ** A concrete launch: three sequences (one empty, one padding) of 32
    channels in two tiles, five tokens in three tiles, initial states *)

Definition tiling_fn : CausalConv1dTilingData :=
  {| td_dim := 32; td_cuSeqlen := 5; td_seqLen := 0; td_inputMode := 0; td_width := 3; td_stateLen := 2;
     td_numCacheLines := 4; td_batch := 3; td_activationMode := 0; td_padSlotId := -1; td_hasBias := 0;
     td_baseDim := 16; td_baseDimCnt := 2; td_hasNumAcceptedTokens := 0; td_hasCacheIndices := 1;
     td_hasInitialStateMode := 1; td_tokenBlockSize := 2; td_tokenBlockCnt := 3;
     td_hasExplicitTokenSeqRanges := 0; td_explicitTokenSeqRangeCount := 0;
     td_tokenTileStartSeq := []; td_tokenTileEndSeq := []; td_hasInitStateWorkspace := 1 |}.

Definition env_fn : KernelEnv Z :=
  {| xGm := Tensor 160 (fun i => i); weightGm := Tensor 96 (fun i => i / 32 + 1); biasGm := Tensor 0 (fun _ => 0);
     queryStartLocGm := Tensor 4 (fun q => if q <=? 0 then 0 else if q <=? 1 then 3 else if q <=? 2 then 4 else 5);
     cacheIndicesGm := Tensor 3 (fun q => if q =? 1 then -1 else 3 - q);
     initialStateModeGm := Tensor 3 (fun _ => 1); numAcceptedTokensGm := Tensor 0 (fun _ => 0);
     tilingData := tiling_fn; runModeKey := CAUSAL_CONV1D_TPL_RUN_MODE_FN; widthKey := 2; fnPlanKey := 1;
     GetBlockIdx := 0; GetBlockNum := 6 |}.

Definition gm_fn : GM Z :=
  Build_GM (Tensor 256 (fun i => 1000 + i)) (Tensor 160 (fun _ => 0)) (Tensor 192 (fun _ => 0)).

Lemma fn_launch_example : fn_launch env_fn.
Proof.
  assert (forall q, 0 <= q < 3 -> q = 0 \/ q = 1 \/ q = 2) as H012 by lia.
  split; [split|split|split|split]; try done; try (vm_compute; split; congruence); simpl; unfold INT32_MAX; try lia.
  all: try (intros q Hq; destruct (H012 q Hq) as [-> |[-> | ->]]; vm_compute; congruence).
  - intros q q' Hq Hq'. assert (q = 0 /\ q' = 1 \/ q = 0 /\ q' = 2 \/ q = 1 /\ q' = 2) as [[-> ->]|[[-> ->]|[-> ->]]] by lia;
      vm_compute; congruence.
  - intros q l Hq. destruct (H012 q Hq) as [-> |[-> | ->]]; vm_compute; intros [= <-]; split; congruence.
  - intros q q' l Hq Hq'. destruct (H012 q Hq) as [-> |[-> | ->]], (H012 q' Hq') as [-> |[-> | ->]]; vm_compute; congruence.
  - intros _. split; [done|]. split; [done|]. intros i Hi. destruct (H012 i Hi) as [-> |[-> | ->]]; vm_compute; intuition congruence.
Qed.

Lemma fn_grid_correct_witness :
  exists ubs' g', run_fn env_fn 6 [5; 0; 1; 2; 3; 4] [0; 1; 2; 3; 4; 5] (fun _ => ub_zero, gm_fn) = Ok (ubs', g') /\
    fn_inv (F := Z * Z) env_fn gm_fn (fun _ _ _ => True) (fun _ _ => True) g'.
Proof.
  apply fn_grid_correct.
  - exact fn_launch_example.
  - reflexivity.
  - vm_compute; congruence.
  - change (zrange 0 6) with [0; 1; 2; 3; 4; 5]. exact (Permutation_app_comm [5] [0; 1; 2; 3; 4]).
  - reflexivity.
  - intros b. exact ub_zero_fresh.
  - split; reflexivity.
  - intros _. vm_compute. congruence.
Defined.

(** The first token tile's chunk of sequence 0, evaluated: [1*s0 + 2*s1 + 3*x0]
    and [1*s1 + 2*x0 + 3*x1], from the snapshot of line 3. *)
Example fn_task_value :
  match run_fn (F := Z * Z) env_fn 6 [0; 1] [2; 0] (fun _ => ub_zero, gm_fn) with
  | Ok (_, g) => t_at (yGm g) 5 = (1000 + 192 + 5) + 2 * (1000 + 224 + 5) + 3 * 5 /\
                 t_at (yGm g) (32 + 5) = (1000 + 224 + 5) + 2 * 5 + 3 * (32 + 5) /\
                 t_at (convStatesGm g) (192 + 5) = 32 + 5 /\ t_at (convStatesGm g) (224 + 5) = 64 + 5
  | Err _ => False
  end.
Proof. vm_compute. auto. Qed.
