(* ===== verification/Conv1dRolling.v ===== *)
(** The rolling fast path of fn mode against the direct path: the same chunk
    processed by either leaves the same memory. *)

From S2P Require Import Prelude AscendC Conv1dTypes Conv1dPlanner Conv1dValidation Conv1dElem Conv1dKernel.
From S2P Require Import Conv1dKernelLemmas Conv1dLoad Conv1dRun Conv1dState Conv1dSeqs Conv1dUpdate.
From S2P Require Import Conv1dGrid Conv1dFnTask Conv1dFn Conv1dFnGrid.

(** Equal memories, cell by cell. *)
Definition tensor_equiv {A} (t t' : tensor A) : Prop := t_len t = t_len t' /\ forall i, t_at t i = t_at t' i.
Record gm_equiv {T} (g g' : GM T) : Prop := {
  ge_states : tensor_equiv (convStatesGm g) (convStatesGm g');
  ge_y : tensor_equiv (yGm g) (yGm g');
  ge_workspace : tensor_equiv (initStateWorkspaceGm g) (initStateWorkspaceGm g') }.

#[export] Instance tensor_equiv_equivalence A : Equivalence (@tensor_equiv A).
Proof.
  split.
  - by intros t.
  - intros t t' [Hl Ha]. by split.
  - intros t t' t'' [Hl Ha] [Hl' Ha']. split; [congruence|]. intros i. by rewrite Ha.
Qed.
#[export] Instance gm_equiv_equivalence T : Equivalence (@gm_equiv T).
Proof.
  split.
  - intros g. by split.
  - intros g g' [H1 H2 H3]. by split; symmetry.
  - intros g g' g'' [H1 H2 H3] [H1' H2' H3']. split; by etrans.
Qed.

Section Rolling.
Context {T F : Type} `{ElemOps T F} `{!HalfLaws T F} `{!MulAddLaw T F}.
Variable e : KernelEnv T.
Abbreviation td := (tilingData e).
Abbreviation K := (M (KS T F) fault_kind).

(** A chunk with the loop of [RunSeq] replaced by [run]. *)
Definition chunk_with (run : Z -> Z -> Z -> Z -> Z -> K unit) (q line j chunkStart chunkLen : Z) : K unit :=
  LoadWeightAndBias e (tile_start e j) (tile_size e j) ;;
  InitRingSeqSplit e q line (has_init e q) (seq_start e q) chunkStart chunkLen (tile_start e j) (tile_size e j) (td_dim td) ;;
  run chunkStart chunkLen (tile_start e j) (tile_size e j) (td_dim td).

(** The direct path of [RunSeq]. *)
Definition RunSeq_direct (start len channelStart baseDim dim : Z) : K unit :=
  for_range 0 len (RunSeq_step e start len channelStart baseDim dim).

Lemma y_done_unique channelStart baseDim tok start len (g0 g g' : GM T) :
  chan_ok e channelStart baseDim ->
  y_done e channelStart baseDim tok start g0 len g -> y_done e channelStart baseDim tok start g0 len g' -> gm_equiv g g'.
Proof.
  intros (Hc0 & Hb & _ & Hd) (H1 & H2 & H3 & H4 & H5) (H1' & H2' & H3' & H4' & H5'). split.
  - by rewrite H1, H1'.
  - split; [congruence|]. intros i. set (t := i / td_dim td - start). set (c := i mod td_dim td - channelStart).
    assert (i = y_index e channelStart start t c) as Hi.
    { unfold y_index. subst t c. pose proof (Z.div_mod i (td_dim td) ltac:(lia)). lia. }
    destruct (decide (0 <= t < len /\ 0 <= c < baseDim)) as [[Ht Hc]|Hout].
    + rewrite Hi, H4, H4' by done. done.
    + rewrite H5, H5'; [done|..]; intros t' c' Ht' Hc' Heq; apply Hout; rewrite Hi in Heq; unfold y_index in Heq;
        pose proof (Z.mod_pos_bound i (td_dim td) ltac:(lia));
        (destruct (tile_unique (start + t) (channelStart + c) (start + t') (channelStart + c') (td_dim td)); subst c; lia).
  - by rewrite H2, H2'.
Qed.

Section Chunk.
Context (Hl : fn_launch e).
Variables (q line j chunkStart chunkLen : Z).
Hypothesis Hact : active e q line.
Hypothesis Hj : 0 <= j < td_baseDimCnt td.
Hypothesis Hcs : seq_start e q <= chunkStart.
Hypothesis Hcl : 0 < chunkLen.
Hypothesis Hce : chunkStart + chunkLen <= seq_start e q + seq_len e q.

(** What [RunSeq] finds, whichever loop follows. *)
Lemma chunk_with_spec run (Q : unit -> KS T F -> Prop) s :
  core_idle s -> gm_ok e (gm s) -> snapshot_ok e (gm s) q ->
  (forall s', ub_ok s' -> flags (ub s') = run_flags chunkLen 0 ->
     ring_holds (tile_size e j) (chunk_stream e q line j chunkStart (gm s)) (- (td_width td - 1)) 0 s' ->
     weights_loaded e (tile_start e j) (tile_size e j) s' -> gm s' = gm s ->
     wp (run chunkStart chunkLen (tile_start e j) (tile_size e j) (td_dim td)) Q s') ->
  wp (chunk_with run q line j chunkStart chunkLen) Q s.
Proof.
  intros [Hok Hfl] Hgm Hsnap Hrun. pose proof Hl as [Henv Hseqs Htiles Hfn]. pose proof Hact as (Hq & Hline & Hlen).
  pose proof (tile_chan_ok e Htiles j Hj) as Hchan. pose proof (line_of_gm e Henv Hseqs _ q line Hgm Hq Hline) as Hlok.
  pose proof (so_start e Hseqs q Hq). pose proof (so_end e Hseqs q Hq). unfold chunk_with.
  eapply wp_seq; [apply (LoadWeightAndBias_spec e Henv _ _ Hchan); [done|rewrite Hfl; set_solver]|].
  intros [] s1 (Hs1 & Hwl). pose proof (calc_only_ub_ok _ _ Hs1 Hok) as Hok1. destruct Hs1 as (Hg1 & _ & _ & Hf1 & _).
  eapply wp_seq; [apply (InitRingSeqSplit_spec e Henv _ _ Hchan); rewrite ?Hf1, ?Hg1; done || lia|].
  intros [] s2 ((Hg2 & Hl2 & Ho2 & Hc2) & Hf2 & Hring2). rewrite Hg1 in Hring2.
  apply Hrun; [unfold ub_ok in *; by rewrite Hl2, Ho2, Hc2|done|done| |congruence].
  unfold weights_loaded, crow in *. by rewrite Hc2.
Qed.

Abbreviation stream s := (chunk_stream e q line j chunkStart (gm s)).

Lemma chunk_stream_tokens (s : KS T F) k c :
  0 <= k -> stream s k c = t_at (xGm e) ((chunkStart + k) * td_dim td + tile_start e j + c).
Proof. intros Hk. unfold chunk_stream, task_tok. by rewrite (proj2 (Z.ltb_ge k 0)) by lia. Qed.

Lemma chunk_direct_spec s :
  core_idle s -> gm_ok e (gm s) -> snapshot_ok e (gm s) q ->
  wp (chunk_with RunSeq_direct q line j chunkStart chunkLen)
     (fun _ s' => y_done e (tile_start e j) (tile_size e j) (stream s) chunkStart (gm s) chunkLen (gm s')) s.
Proof.
  intros Hidle Hgm Hsnap. pose proof Hl as [Henv Hseqs Htiles Hfn]. pose proof Hact as (Hq & Hline & Hlen).
  pose proof (so_start e Hseqs q Hq). pose proof (so_end e Hseqs q Hq).
  apply chunk_with_spec; try done. intros s' Hok' Hf' Hr' Hw' Hg'.
  eapply wp_mono; [apply (RunSeq_direct_spec e Henv _ _ (tile_chan_ok e Htiles j Hj) (stream s)); try done; try lia|].
  - intros k c. apply chunk_stream_tokens.
  - rewrite Hg'. apply Hgm.
  - intros [] s2 (_ & _ & _ & Hy & _). by rewrite Hg' in Hy.
Qed.

Lemma chunk_rolling_spec s :
  HasBias e = false -> kHasCompileTimeWidth e = true -> kTemplateWidth e = td_width td ->
  core_idle s -> gm_ok e (gm s) -> snapshot_ok e (gm s) q ->
  wp (chunk_with (RunSeqFnRolling e) q line j chunkStart chunkLen)
     (fun _ s' => y_done e (tile_start e j) (tile_size e j) (stream s) chunkStart (gm s) chunkLen (gm s')) s.
Proof.
  intros Hnb Hctw Htw Hidle Hgm Hsnap. pose proof Hl as [Henv Hseqs Htiles Hfn]. pose proof Hact as (Hq & Hline & Hlen).
  pose proof (so_start e Hseqs q Hq). pose proof (so_end e Hseqs q Hq).
  apply chunk_with_spec; try done. intros s' Hok' Hf' Hr' Hw' Hg'.
  eapply wp_mono; [apply (RunSeqFnRolling_spec e Henv _ _ (tile_chan_ok e Htiles j Hj) (stream s)); try done; try lia|].
  - intros k c. apply chunk_stream_tokens.
  - rewrite Hg'. apply Hgm.
  - intros [] s2 (_ & _ & _ & Hy & _). by rewrite Hg' in Hy.
Qed.
End Chunk.
End Rolling.

(** C23.  The rolling fast path is an optimisation only: for every chunk of an
    fn launch it and the direct path both run to completion from the same
    state, and leave equal outputs, states and workspace. *)
Theorem rolling_equals_direct {T F : Type} `{ElemOps T F} `{!HalfLaws T F} `{!MulAddLaw T F}
    (e : KernelEnv T) (q line j chunkStart chunkLen : Z) (s : KS T F) :
  fn_launch e -> HasBias e = false -> kHasCompileTimeWidth e = true -> kTemplateWidth e = td_width (tilingData e) ->
  active e q line -> 0 <= j < td_baseDimCnt (tilingData e) ->
  seq_start e q <= chunkStart -> 0 < chunkLen -> chunkStart + chunkLen <= seq_start e q + seq_len e q ->
  core_idle s -> gm_ok e (gm s) -> snapshot_ok e (gm s) q ->
  exists s1 s2, chunk_with e (RunSeqFnRolling e) q line j chunkStart chunkLen s = Ok (tt, s1) /\
    chunk_with e (RunSeq_direct e) q line j chunkStart chunkLen s = Ok (tt, s2) /\ gm_equiv (gm s1) (gm s2).
Proof.
  intros Hl Hnb Hctw Htw Hact Hj Hcs Hcl Hce Hidle Hgm Hsnap.
  destruct (wp_run _ _ _ (chunk_rolling_spec e Hl q line j chunkStart chunkLen Hact Hj Hcs Hcl Hce s
    Hnb Hctw Htw Hidle Hgm Hsnap)) as ([] & s1 & Hr1 & Hy1).
  destruct (wp_run _ _ _ (chunk_direct_spec e Hl q line j chunkStart chunkLen Hact Hj Hcs Hcl Hce s
    Hidle Hgm Hsnap)) as ([] & s2 & Hr2 & Hy2).
  exists s1, s2. split_and!; [done|done|]. by eapply y_done_unique; [exact (tile_chan_ok e (fl_tiles e Hl) j Hj)| |].
Qed.

Lemma rolling_equals_direct_witness :
  exists s1 s2, chunk_with (F := Z * Z) env_fn (RunSeqFnRolling env_fn) 0 3 1 1 2 (Build_KS ub_zero gm_fn) = Ok (tt, s1) /\
    chunk_with env_fn (RunSeq_direct env_fn) 0 3 1 1 2 (Build_KS ub_zero gm_fn) = Ok (tt, s2) /\ gm_equiv (gm s1) (gm s2).
Proof.
  apply rolling_equals_direct; try reflexivity; try (vm_compute; congruence).
  - exact fn_launch_example.
  - split; [|split]; [|reflexivity|reflexivity]. split; [|reflexivity]. vm_compute. congruence.
  - split; [|reflexivity]. vm_compute. congruence.
  - apply ub_zero_fresh.
  - split; reflexivity.
  - intros _. split; [reflexivity|]. vm_compute. congruence.
Defined.
