(* ===== verification/Conv1dEndToEnd.v ===== *)
(** causal_conv1d end to end: what the host's tiling function accepts is what
    the kernels' theorems assume, so that an accepted call, launched as the host
    asks, computes the reference convolution. *)

From S2P Require Import Prelude AscendC TilingContext Conv1dTypes Conv1dPlanner Conv1dValidation Conv1dTiling.
From S2P Require Import Conv1dElem Conv1dKernel Conv1dKernelLemmas Conv1dLoad Conv1dRun Conv1dState.
From S2P Require Import Conv1dSeqs Conv1dUpdate Conv1dGrid Conv1dFnTask Conv1dFn Conv1dFnGrid.

Section EndToEnd.
Context {T F : Type} `{ElemOps T F} `{!HalfLaws T F} `{!MulAddLaw T F}.
Variables (context : TilingContext) (coreNum : Z) (la : Launch).
Variables (e : KernelEnv T) (g : GM T).
Abbreviation td := (la_tiling la).
Abbreviation isFn := ((la_tilingKey la).1.1 = 0).

(** Elements of the snapshot area as [CausalConv1dFn::Init] lays it out: the
    user workspace behind one synchronisation slot per core. *)
Definition INIT_STATE_SYNCALL_NEED_SIZE : Z := 8.
Definition snapshot_elems : Z :=
  (la_workspaceSize la - ASCENDC_RESERVED_WORKSPACE_SIZE - la_blockDim la * INIT_STATE_SYNCALL_NEED_SIZE * 4) / 2.

(** The kernel runs with the launch's tiling record and key, on tensors of the
    shapes the call announced; values known to the host are those in memory. *)
Record launched : Prop := {
  ld_tiling : tilingData e = td;
  ld_key : (runModeKey e, widthKey e, fnPlanKey e) = la_tilingKey la;
  ld_x : t_len (xGm e) = td_cuSeqlen td * td_dim td;
  ld_weight : t_len (weightGm e) = td_width td * td_dim td;
  ld_bias : td_hasBias td <> 0 -> t_len (biasGm e) = td_dim td;
  ld_qsl : td_inputMode td = 0 -> t_len (queryStartLocGm e) = td_batch td + 1;
  ld_cache : td_hasCacheIndices td <> 0 -> t_len (cacheIndicesGm e) = td_batch td;
  ld_init : td_hasInitialStateMode td <> 0 -> t_len (initialStateModeGm e) = td_batch td;
  ld_accepted : td_hasNumAcceptedTokens td <> 0 -> t_len (numAcceptedTokensGm e) = td_batch td;
  ld_gm : gm_ok e g;
  ld_workspace : td_hasInitStateWorkspace td <> 0 -> t_len (initStateWorkspaceGm g) = snapshot_elems;
  ld_qsl_known : forall q, known_data context QUERY_START_LOC_INDEX q -> q = queryStartLocGm e;
  ld_cache_known : forall c, known_data context CACHE_INDICES_INDEX c -> c = cacheIndicesGm e }.

(** What only the caller can promise: values the host could not read are well
    formed, no cache line is shared, and the problem fits 32-bit indexing. *)
Record caller_ok : Prop := {
  co_qsl : td_inputMode td = 0 -> (exists q, known_data context QUERY_START_LOC_INDEX q) \/
    qsl_ok (t_at (queryStartLocGm e)) (td_batch td) (td_cuSeqlen td);
  co_cache : td_hasCacheIndices td <> 0 -> (exists c, known_data context CACHE_INDICES_INDEX c) \/
    forall i, 0 <= i < td_batch td -> t_at (cacheIndicesGm e) i = td_padSlotId td \/
      0 <= t_at (cacheIndicesGm e) i < td_numCacheLines td;
  co_distinct : forall q q' l, 0 <= q < td_batch td -> 0 <= q' < td_batch td ->
    seq_line e q = Some l -> seq_line e q' = Some l -> q = q';
  co_dim : td_dim td + 4096 <= INT32_MAX;
  co_tokens : td_cuSeqlen td + Z.max 8 (td_tokenBlockSize td) <= INT32_MAX;
  co_sizes : td_batch td <= INT32_MAX /\ td_stateLen td <= INT32_MAX /\ td_numCacheLines td <= INT32_MAX /\
    0 <= td_seqLen td <= INT32_MAX }.

Context (Hla : launch_ok context coreNum la) (Hld : launched) (Hco : caller_ok).
Abbreviation valid := (lo_valid _ _ _ Hla).

Lemma launched_env : env_ok e.
Proof.
  pose proof (cv_width _ _ _ valid). pose proof (cv_dim _ _ _ valid). pose proof (cv_state _ _ _ valid).
  pose proof (cv_seq32 _ _ _ valid). destruct Hco as [_ _ _ Hd Ht Hs].
  split; rewrite ?(ld_tiling Hld); try lia; try apply Hld.
  intros Hb. apply (ld_bias Hld). unfold HasBias in Hb. rewrite (ld_tiling Hld) in Hb. bool_prop. done.
Qed.

Lemma launched_qsl : td_inputMode td = 0 -> qsl_ok (t_at (queryStartLocGm e)) (td_batch td) (td_cuSeqlen td).
Proof.
  intros Hm. destruct (co_qsl Hco Hm) as [(q & Hq)|Hq]; [|done].
  rewrite <- (ld_qsl_known Hld q Hq). by apply (cv_qsl _ _ _ valid Hm).
Qed.

Lemma launched_lines q l : 0 <= q < td_batch td -> seq_line e q = Some l -> 0 <= l < td_numCacheLines td.
Proof.
  intros Hq. unfold seq_line. rewrite (ld_tiling Hld). destruct (td_hasCacheIndices td =? 0) eqn:E; bool_prop.
  - intros [= <-]. pose proof (cv_cache_identity _ _ _ valid E). lia.
  - destruct (_ =? _) eqn:Ep; bool_prop; [done|]. intros [= <-].
    destruct (co_cache Hco E) as [(c & Hc)|Hc].
    + pose proof (cv_cache_range _ _ _ valid E c Hc q Hq) as Hr. rewrite (ld_cache_known Hld c Hc) in Hr.
      destruct Hr as [?|[? _]]; done.
    + destruct (Hc q Hq); done.
Qed.

(** The windows of the three input layouts. *)
Lemma launched_windows :
  (forall q, 0 <= q < td_batch td -> 0 <= seq_start e q /\ 0 <= seq_len e q /\ seq_start e q + seq_len e q <= td_cuSeqlen td) /\
  (forall q q', 0 <= q < q' -> q' < td_batch td -> seq_start e q + seq_len e q <= seq_start e q').
Proof.
  pose proof launched_qsl as Hqsl. pose proof (cv_mode _ _ _ valid) as Hm.
  unfold seq_start, seq_len. rewrite (ld_tiling Hld).
  destruct Hm as [(Hm & Hb)|[(Hm & Hb & Hs & Hc)|(Hm & _ & Hb & Hc)]]; rewrite Hm.
  - change (GetSeqTaskWindowMode (i32 0)) with SEQ_TASK_WINDOW_MODE_VARLEN. cbv iota. specialize (Hqsl Hm). split.
    + intros q Hq. destruct Hqsl as (_ & _ & Hq'). specialize (Hq' q Hq). lia.
    + intros q q' Hq Hq'. pose proof (qsl_ok_mono _ _ _ (q + 1) q' Hqsl). lia.
  - change (GetSeqTaskWindowMode (i32 1)) with SEQ_TASK_WINDOW_MODE_BATCH. cbv iota. rewrite Hc. split; intros; nia.
  - change (GetSeqTaskWindowMode (i32 2)) with SEQ_TASK_WINDOW_MODE_DECODE2D. cbv iota. rewrite Hc. split; intros; lia.
Qed.

Lemma launched_seqs : seqs_ok e.
Proof.
  destruct launched_windows as [Hw Ho]. pose proof (co_sizes Hco) as (Hb & Hs & Hn & Hl).
  pose proof (lo_batch _ _ _ Hla). pose proof (cv_lines _ _ _ valid).
  split; rewrite ?(ld_tiling Hld); try lia; try done.
  - intros Hm. apply (ld_qsl Hld). pose proof (cv_mode _ _ _ valid) as Hv.
    destruct Hv as [(Hv & _)|[(Hv & _)|(Hv & _)]]; [done|..]; rewrite Hv in Hm; done.
  - intros q Hq. apply Hw, Hq.
  - intros q Hq. apply Hw, Hq.
  - intros q Hq. apply Hw, Hq.
  - apply (ld_cache Hld).
  - apply launched_lines.
  - apply (co_distinct Hco).
Qed.

Lemma launched_tiles : tiles_ok e.
Proof.
  split; rewrite (ld_tiling Hld); [split|apply Hla|apply Hla]; [apply Hco|apply (cv_dim _ _ _ valid)].
Qed.

Lemma launched_key : runModeKey e = (la_tilingKey la).1.1 /\ widthKey e = (la_tilingKey la).1.2.
Proof. by rewrite <- (ld_key Hld). Qed.

Lemma launched_update : (la_tilingKey la).1.1 = 1 -> update_launch e.
Proof.
  intros Hk. split; [exact launched_env|exact launched_seqs|exact launched_tiles|]. split.
  - rewrite (proj1 launched_key). exact Hk.
  - unfold IsUpdateSpecDecodingEnabled. rewrite (ld_tiling Hld). intros Hs. bool_prop. by apply (ld_accepted Hld).
Qed.

(** The width of an fn launch is compiled in. *)
Lemma launched_template : isFn -> template_ok e.
Proof.
  intros Hfn _. destruct (lo_fn _ _ _ Hla Hfn) as (_ & _ & _ & Hk & _). destruct launched_key as [Hr Hw].
  pose proof (cv_width _ _ _ valid). unfold kHasCompileTimeWidth, kTemplateWidth.
  rewrite Hr, Hw, Hfn, Hk, (ld_tiling Hld).
  assert (td_width td = 2 \/ td_width td = 3 \/ td_width td = 4) as [-> |[-> | ->]] by lia; done.
Qed.

Lemma launched_fn : isFn -> fn_launch e.
Proof.
  intros Hfn. split; [exact launched_env|exact launched_seqs|exact launched_tiles|].
  destruct (lo_fn _ _ _ Hla Hfn) as (Htok & Hacc & Hm & _). pose proof (co_tokens Hco).
  split; rewrite ?(ld_tiling Hld).
  - rewrite (proj1 launched_key). exact Hfn.
  - exact (launched_template Hfn).
  - exact Htok.
  - lia.
  - apply (ld_init Hld).
  - pose proof (lo_snapshot _ _ _ Hla). tauto.
  - destruct (cv_mode _ _ _ valid) as [(? & _)|[(? & _)|(? & _)]]; [by left|by right|done].
  - exact launched_qsl.
  - intros Hm1. destruct (cv_mode _ _ _ valid) as [(? & _)|[(_ & _ & ? & _)|(? & _)]]; lia.
  - intros Hr Hm0. destruct (lo_ranges _ _ _ Hla Hr) as (_ & Hcnt & q & Hq & Hall). split; [done|].
    rewrite (ld_qsl_known Hld q Hq) in Hall. exact Hall.
Qed.

Lemma launched_room : snapshot_room e g.
Proof.
  intros Hw. rewrite (ld_tiling Hld) in *. rewrite (ld_workspace Hld Hw). unfold snapshot_elems.
  rewrite (lo_workspace _ _ _ Hla), (proj2 (Z.eqb_neq _ _) Hw). unfold INIT_STATE_SYNCALL_NEED_SIZE.
  apply Z.div_le_lower_bound; lia.
Qed.
End EndToEnd.

(** C1.  Host and kernel together: a call that the tiling function accepts,
    launched with the tiling record, key and number of cores it returns, runs
    without faults and computes the reference convolution, in update mode with
    any number of cores and in fn mode whenever there are no more channel tiles
    than cores, for inputs as the caller must promise them. *)
Theorem accepted_call_correct {T F : Type} `{ElemOps T F} `{!HalfLaws T F} `{!MulAddLaw T F}
    (context : TilingContext) (la : Launch) (e : KernelEnv T) (g : GM T)
    (order1 order2 : list Z) (ubs : Z -> UB T F) :
  platform_ok context -> CausalConv1dTilingFunc context = Ok la ->
  launched context la e g -> caller_ok context la e ->
  order1 ≡ₚ zrange 0 (la_blockDim la) -> order2 ≡ₚ zrange 0 (la_blockDim la) -> (forall b, ub_fresh (ubs b)) ->
  ((la_tilingKey la).1.1 = CAUSAL_CONV1D_TPL_RUN_MODE_UPDATE ->
     exists g', run_cores e (la_blockDim la) ubs order1 g = Ok g' /\ grid_inv (F := F) e g (fun _ => True) g') /\
  ((la_tilingKey la).1.1 = CAUSAL_CONV1D_TPL_RUN_MODE_FN ->
     (forall ubSize coreNum, GetPlatformInfo context = Ok (ubSize, coreNum) -> td_baseDimCnt (la_tiling la) <= coreNum) ->
     la_blockDim la <= INT32_MAX ->
     exists ubs' g', run_fn e (la_blockDim la) order1 order2 (ubs, g) = Ok (ubs', g') /\
       fn_inv (F := F) e g (fun _ _ _ => True) (fun _ _ => True) g').
Proof.
  intros Hp Hok Hld Hco Ho1 Ho2 Hfresh. pose proof (co_dim _ _ _ Hco) as Hd. pose proof (co_sizes _ _ _ Hco) as (Hb & _).
  destruct (CausalConv1dTilingFunc_launch_ok context la Hp Hok) as (coreNum & ubSize & Hplat & Hla).
  { destruct (CausalConv1dTilingFunc_positive context la Hok). unfold INT32_MAX, INT64_MAX in *. nia. }
  pose proof (lo_cores _ _ _ Hla) as Hcores. split; intros Hk.
  - apply run_cores_all; [by eapply launched_update|lia|done|done|apply Hld].
  - intros Hcnt Hn. destruct (lo_fn _ _ _ Hla Hk) as (_ & _ & _ & _ & _ & Heq).
    apply run_fn_spec; [by eapply launched_fn| |done|done|done|done|apply Hld|by eapply launched_room].
    rewrite (ld_tiling _ _ _ _ Hld). apply Heq. by eapply Hcnt.
Qed.

(** ** A concrete call: [context_example], launched on six cores *)

Definition launch_example : Launch :=
  Eval vm_compute in match CausalConv1dTilingFunc context_example with
                     | Ok la => la
                     | Err _ => Build_Launch tiling_example 0 0 None (0, 0, 0)
                     end.

Definition env_example : KernelEnv Z :=
  {| xGm := Tensor 96 (fun i => i); weightGm := Tensor 64 (fun i => i / 16 + 1); biasGm := Tensor 0 (fun _ => 0);
     queryStartLocGm := Tensor 3 (fun k => nth (Z.to_nat k) [0; 2; 6] 0);
     cacheIndicesGm := Tensor 0 (fun _ => 0);
     initialStateModeGm := Tensor 2 (fun k => nth (Z.to_nat k) [1; 0] 0);
     numAcceptedTokensGm := Tensor 0 (fun _ => 0);
     tilingData := la_tiling launch_example; runModeKey := (la_tilingKey launch_example).1.1;
     widthKey := (la_tilingKey launch_example).1.2; fnPlanKey := (la_tilingKey launch_example).2;
     GetBlockIdx := 0; GetBlockNum := 6 |}.

Definition gm_example : GM Z :=
  Build_GM (Tensor 192 (fun i => 1000 + i)) (Tensor 96 (fun _ => 0)) (Tensor 96 (fun _ => 0)).

Lemma launched_example : launched context_example launch_example env_example gm_example.
Proof.
  split; try reflexivity; try (intros; reflexivity); try (intros Hne; by destruct Hne).
  - split; reflexivity.
  - intros q [= <-]. reflexivity.
Qed.

Lemma caller_ok_example : caller_ok context_example launch_example env_example.
Proof.
  split; try (vm_compute; intuition congruence).
  intros _. left. eexists. reflexivity.
Qed.

Lemma accepted_call_correct_witness :
  CausalConv1dTilingFunc context_example = Ok launch_example /\ la_blockDim launch_example = 6 /\
  exists ubs' g', run_fn env_example 6 [0; 1; 2; 3; 4; 5] [5; 0; 1; 2; 3; 4] (fun _ => ub_zero, gm_example) = Ok (ubs', g') /\
    fn_inv (F := Z * Z) env_example gm_example (fun _ _ _ => True) (fun _ _ => True) g'.
Proof.
  split; [vm_compute; reflexivity|]. split; [reflexivity|].
  refine (proj2 (accepted_call_correct context_example launch_example env_example gm_example
    [0; 1; 2; 3; 4; 5] [5; 0; 1; 2; 3; 4] (fun _ => ub_zero) _ _ launched_example caller_ok_example _ _ _) eq_refl _ _).
  - intros p Hp. injection Hp as <-. unfold fits_u32. simpl. lia.
  - vm_compute. reflexivity.
  - reflexivity.
  - change (zrange 0 (la_blockDim launch_example)) with [0; 1; 2; 3; 4; 5]. exact (Permutation_app_comm [5] [0; 1; 2; 3; 4]).
  - intros b. exact ub_zero_fresh.
  - intros ubSize coreNum [= <- <-]. vm_compute. congruence.
  - vm_compute. congruence.
Defined.

(** The side condition of the fn case is needed: with more channel tiles than
    cores the host launches fewer cores than there are tiles, and each core
    performs one tile only.  Here 168,960 channels on 40 cores: 42 tiles, of
    which the last two belong to no core. *)
Definition context_wide : TilingContext :=
  {| GetPlatformInfoPtr := Some (Build_PlatformInfo 40 20 196608);
     GetInputShape := fun i => if i =? X_INDEX then Some [6; 168960]
       else if i =? WEIGHT_INDEX then Some [4; 168960]
       else if i =? CONV_STATES_INDEX then Some [3; 4; 168960] else None;
     GetOptionalInputShape := GetOptionalInputShape context_example;
     GetOutputShape := GetOutputShape context_example;
     GetInputDesc := GetInputDesc context_example;
     GetOptionalInputDesc := GetOptionalInputDesc context_example;
     GetOutputDesc := GetOutputDesc context_example;
     GetOptionalInputTensor := GetOptionalInputTensor context_example;
     HasAttrs := true;
     GetAttrInt := GetAttrInt context_example;
     HasTilingData := true;
     HasWorkspaceSizes := true;
     SetScheduleModeOk := true |}.

Example wide_channels_dropped :
  exists la, CausalConv1dTilingFunc context_wide = Ok la /\
    la_blockDim la = 40 /\ td_tokenBlockCnt (la_tiling la) * td_baseDimCnt (la_tiling la) = 42 /\
    forall b, 0 <= b < la_blockDim la ->
      ~ block_covers (ResolveFnDirectBlockTask b (td_tokenBlockCnt (la_tiling la)) (td_tokenBlockSize (la_tiling la))
          (td_cuSeqlen (la_tiling la)) (td_baseDimCnt (la_tiling la)) (td_baseDim (la_tiling la)) (td_dim (la_tiling la)))
          0 168000.
Proof.
  eexists. split; [vm_compute; reflexivity|]. cbn [la_blockDim la_tiling]. split; [reflexivity|]. split; [reflexivity|].
  intros b Hb Hc. destruct (block_task_spec 1 6 6 42 4096 168960) with (b := b) as (Hs & _).
  - unfold tiles_cover. lia.
  - unfold tiles_cover. lia.
  - lia.
  - lia.
  - lia.
  - simpl in Hc. rewrite Hs in Hc. destruct Hc as (_ & _ & Hc). cbn [fbt_channelStart fbt_baseDimSize] in Hc.
    rewrite Z.mod_small in Hc by lia. lia.
Qed.
