(* ===== verification/Compressor.v ===== *)
(** CompressorMetadata ([csrc/attention/compressor_metadata/op_kernel]): for
    every row of the compressed KV cache that a batch of requests produces, its
    rotary-embedding row and its slot in the paged cache.  Each core takes a
    contiguous range of the valid rows and one of the padding rows. *)

From S2P Require Import Prelude AscendC.

(** ** Arithmetic helpers *)

Definition SLOT_MAPPING_FLAT : Z := 1.
Definition ALIGN_BYTES : Z := 32.
Definition BUFFER_NUM : Z := 2.
Definition MAX_INT32_VALUE : Z := 0x7FFFFFFF.

Definition MinU32 (lhs rhs : Z) : Z := if lhs <? rhs then lhs else rhs.
Definition MaxU32 (lhs rhs : Z) : Z := if lhs >? rhs then lhs else rhs.
Definition AlignUpU32 (value align : Z) : Z := u32 (u32 (value + align - 1) /c align * align).
Definition Int32BytesU32 (elems : Z) : Z := u32 (elems * 4).

(** ** State *)

Record CompressorMetadataTilingData : Type := {
  cm_numRows : Z;
  cm_numReqs : Z;
  cm_actualNumReqs : Z;
  cm_ropeRows : Z;
  cm_ropeDim : Z;
  cm_kvBlockTableStride : Z;
  cm_kvBlockSize : Z;
  cm_slotMappingFormat : Z;
  cm_cmpRatio : Z;
  cm_usedCoreNum : Z;
  cm_tileRows : Z;
  cm_ropeRowBytes : Z;
  cm_ropeRowBytesAligned : Z;
  cm_slotCols : Z }.

(** The events of the pipeline barriers. *)
Inductive PipeEvent : Type :=
  | MTE2_S
  | MTE3_S
  | S_MTE3
  | V_MTE3.
#[global] Instance PipeEvent_eq_dec : EqDecision PipeEvent.
Proof. solve_decision. Defined.
#[global] Instance PipeEvent_countable : Countable PipeEvent.
Proof.
  refine (inj_countable'
    (fun ev => match ev with MTE2_S => 0%nat | MTE3_S => 1%nat | S_MTE3 => 2%nat | V_MTE3 => 3%nat end)
    (fun n => match n with 0 => MTE2_S | 1 => MTE3_S | 2 => S_MTE3 | _ => V_MTE3 end%nat) _).
  by intros [].
Defined.

(** The buffers of a core.  A queue buffer is taken from its queue and returned
    before the next one is taken, so one per queue describes them. *)
Record CUB (T : Type) : Type := {
  prefixBuf : tensor Z;
  startPosBuf : tensor Z;
  cuSeqlensBuf : tensor Z;
  blockTableBuf : tensor Z;
  slotBuf : tensor Z;
  cosQueue : tensor T;
  sinQueue : tensor T;
  pipeFlags : gset PipeEvent }.
Arguments Build_CUB {T}.
Arguments prefixBuf {T}.
Arguments startPosBuf {T}.
Arguments cuSeqlensBuf {T}.
Arguments blockTableBuf {T}.
Arguments slotBuf {T}.
Arguments cosQueue {T}.
Arguments sinQueue {T}.
Arguments pipeFlags {T}.

(** The outputs. *)
Record CGM (T : Type) : Type := {
  compressCosGm : tensor T;
  compressSinGm : tensor T;
  slotMappingGm : tensor Z }.
Arguments Build_CGM {T}.
Arguments compressCosGm {T}.
Arguments compressSinGm {T}.
Arguments slotMappingGm {T}.

Record CS (T : Type) : Type := { cub : CUB T; cgm : CGM T }.
Arguments Build_CS {T}.
Arguments cub {T}.
Arguments cgm {T}.

(** What a core reads: inputs, tiling record, element type, its index. *)
Record CEnv (T : Type) : Type := {
  ropeCosGm : tensor T;
  ropeSinGm : tensor T;
  cuSeqlensGm : tensor Z;
  startPosGm : tensor Z;
  kvBlockTableGm : tensor Z;
  ctd : CompressorMetadataTilingData;
  sizeofT : Z;
  valueT : Z -> T;
  cBlockIdx : Z;
  cBlockNum : Z }.
Arguments Build_CEnv {T}.
Arguments ropeCosGm {T}.
Arguments ropeSinGm {T}.
Arguments cuSeqlensGm {T}.
Arguments startPosGm {T}.
Arguments kvBlockTableGm {T}.
Arguments ctd {T}.
Arguments sizeofT {T}.
Arguments valueT {T}.
Arguments cBlockIdx {T}.
Arguments cBlockNum {T}.

Section Lenses.
Context {T : Type}.
Definition c_ub (f : CUB T -> CUB T) (s : CS T) : CS T := Build_CS (f (cub s)) (cgm s).
Definition c_gm (f : CGM T -> CGM T) (s : CS T) : CS T := Build_CS (cub s) (f (cgm s)).

Definition prefixLocal : lens (CS T) (tensor Z) := Lens (fun s => prefixBuf (cub s))
  (fun t => c_ub (fun u => Build_CUB t (startPosBuf u) (cuSeqlensBuf u) (blockTableBuf u) (slotBuf u) (cosQueue u) (sinQueue u) (pipeFlags u))).
Definition startPosLocal : lens (CS T) (tensor Z) := Lens (fun s => startPosBuf (cub s))
  (fun t => c_ub (fun u => Build_CUB (prefixBuf u) t (cuSeqlensBuf u) (blockTableBuf u) (slotBuf u) (cosQueue u) (sinQueue u) (pipeFlags u))).
Definition cuSeqlensLocal : lens (CS T) (tensor Z) := Lens (fun s => cuSeqlensBuf (cub s))
  (fun t => c_ub (fun u => Build_CUB (prefixBuf u) (startPosBuf u) t (blockTableBuf u) (slotBuf u) (cosQueue u) (sinQueue u) (pipeFlags u))).
Definition blockTableLocal : lens (CS T) (tensor Z) := Lens (fun s => blockTableBuf (cub s))
  (fun t => c_ub (fun u => Build_CUB (prefixBuf u) (startPosBuf u) (cuSeqlensBuf u) t (slotBuf u) (cosQueue u) (sinQueue u) (pipeFlags u))).
Definition slotLocal : lens (CS T) (tensor Z) := Lens (fun s => slotBuf (cub s))
  (fun t => c_ub (fun u => Build_CUB (prefixBuf u) (startPosBuf u) (cuSeqlensBuf u) (blockTableBuf u) t (cosQueue u) (sinQueue u) (pipeFlags u))).
Definition cosLocal : lens (CS T) (tensor T) := Lens (fun s => cosQueue (cub s))
  (fun t => c_ub (fun u => Build_CUB (prefixBuf u) (startPosBuf u) (cuSeqlensBuf u) (blockTableBuf u) (slotBuf u) t (sinQueue u) (pipeFlags u))).
Definition sinLocal : lens (CS T) (tensor T) := Lens (fun s => sinQueue (cub s))
  (fun t => c_ub (fun u => Build_CUB (prefixBuf u) (startPosBuf u) (cuSeqlensBuf u) (blockTableBuf u) (slotBuf u) (cosQueue u) t (pipeFlags u))).
Definition pipeEvents : lens (CS T) (gset PipeEvent) := Lens (fun s => pipeFlags (cub s))
  (fun f => c_ub (fun u => Build_CUB (prefixBuf u) (startPosBuf u) (cuSeqlensBuf u) (blockTableBuf u) (slotBuf u) (cosQueue u) (sinQueue u) f)).
Definition compressCos : lens (CS T) (tensor T) := Lens (fun s => compressCosGm (cgm s))
  (fun t => c_gm (fun g => Build_CGM t (compressSinGm g) (slotMappingGm g))).
Definition compressSin : lens (CS T) (tensor T) := Lens (fun s => compressSinGm (cgm s))
  (fun t => c_gm (fun g => Build_CGM (compressCosGm g) t (slotMappingGm g))).
Definition slotMapping : lens (CS T) (tensor Z) := Lens (fun s => slotMappingGm (cgm s))
  (fun t => c_gm (fun g => Build_CGM (compressCosGm g) (compressSinGm g) t)).

#[global] Instance pipeEvents_laws : LensLaws pipeEvents.
Proof. split; intros; by destruct s as [[] []]. Qed.

(** [PipeMte2ToS], [PipeMte3ToS], [PipeSToMte3] and [PipeVToMte3]. *)
Definition Pipe (ev : PipeEvent) : M (CS T) fault_kind unit := Pulse pipeEvents ev.
End Lenses.

(** ** Member functions *)

Section Kernel.
Context {T : Type}.
Variable e : CEnv T.
Abbreviation K := (M (CS T) fault_kind).
Abbreviation td := (ctd e).

(** Fields derived by [Init]. *)
Definition reqTableBytes : Z := AlignUpU32 (Int32BytesU32 (u32 (cm_actualNumReqs td + 1))) ALIGN_BYTES.
Definition ropeDimAligned : Z := cm_ropeRowBytesAligned td /c sizeofT e.
Definition ropePadElems : Z := u32 (ropeDimAligned - cm_ropeDim td).
Definition slotTileBytes : Z := AlignUpU32 (Int32BytesU32 (u32 (cm_tileRows td * cm_slotCols td))) ALIGN_BYTES.
Definition blockTableTileBytes : Z := AlignUpU32 (Int32BytesU32 (cm_tileRows td)) ALIGN_BYTES.

(** The buffers [Init] requests, in elements. *)
Definition init_buffers (u : CUB T) : Prop :=
  t_len (prefixBuf u) = reqTableBytes / 4 /\
  t_len (startPosBuf u) = reqTableBytes / 4 /\
  t_len (cuSeqlensBuf u) = reqTableBytes / 4 /\
  t_len (blockTableBuf u) = blockTableTileBytes / 4 /\
  t_len (slotBuf u) = slotTileBytes / 4 /\
  t_len (cosQueue u) = u32 (cm_tileRows td * cm_ropeRowBytesAligned td) / sizeofT e /\
  t_len (sinQueue u) = u32 (cm_tileRows td * cm_ropeRowBytesAligned td) / sizeofT e.

(** Rows a request contributes (161-166). *)
Definition compressedRows (startPos cuLo cuHi : Z) : Z :=
  let seqLen := cuHi - cuLo in
  if (startPos >=? 0) && (seqLen >? 0)
  then u32 ((startPos + seqLen) /c cm_cmpRatio td - startPos /c cm_cmpRatio td)
  else 0.

(** The loop carries the running [prefix]. *)
Fixpoint BuildCompressedPrefix_loop (n : nat) (reqIdx prefix : Z) : K unit :=
  match n with
  | O => mret tt
  | S n' =>
      startPos ← GetValue (lget startPosLocal) reqIdx;
      cuHi ← GetValue (lget cuSeqlensLocal) (reqIdx + 1);
      cuLo ← GetValue (lget cuSeqlensLocal) reqIdx;
      let prefix' := u32 (prefix + compressedRows startPos cuLo cuHi) in
      SetValue prefixLocal (reqIdx + 1) (i32 prefix') ;;
      BuildCompressedPrefix_loop n' (reqIdx + 1) prefix'
  end.

Definition BuildCompressedPrefix : K unit :=
  DataCopyPad startPosLocal 0 (fun _ => startPosGm e) 0 (cm_actualNumReqs td) ;;
  DataCopyPad cuSeqlensLocal 0 (fun _ => cuSeqlensGm e) 0 (cm_actualNumReqs td + 1) ;;
  Pipe MTE2_S ;;
  SetValue prefixLocal 0 0 ;;
  BuildCompressedPrefix_loop (Z.to_nat (cm_actualNumReqs td)) 0 0.

Definition SplitRange (totalRows : Z) : Z * Z :=
  let blockIdx := cBlockIdx e in
  let blockNum := MaxU32 (cBlockNum e) 1 in
  let rowsPerBlock := u32 (totalRows + blockNum - 1) /c blockNum in
  let begin := MinU32 (u32 (blockIdx * rowsPerBlock)) totalRows in
  let end_ := MinU32 (u32 (begin + rowsPerBlock)) totalRows in
  (begin, end_).

Definition FindRequest (row : Z) : K Z :=
  loop (S (Z.to_nat (cm_actualNumReqs td)))
    (fun reqIdx =>
       if reqIdx <? cm_actualNumReqs td then
         p ← GetValue (lget prefixLocal) (reqIdx + 1);
         mret (if u32 p <=? row then inl (reqIdx + 1) else inr reqIdx)
       else mret (inr reqIdx)) 0.

(** The end of [CopyRopeTile] and of the first half of [WriteInvalidTile]: the
    rows of the two queue buffers to the outputs. *)
Definition RopeOut (outputRow rows : Z) : K unit :=
  let blockCount := u16 rows in
  let n := cm_ropeRowBytes td / sizeofT e in
  let outputBase := u64 (outputRow * cm_ropeDim td) in
  DataCopyPadOut (sizeofT e) compressCos outputBase (lget cosLocal) 0 blockCount n ;;
  DataCopyPadOut (sizeofT e) compressSin outputBase (lget sinLocal) 0 blockCount n ;;
  Pipe MTE3_S.

(** The end of [WriteSlotTile] and of [WriteInvalidTile]: the slot buffer to
    the output. *)
Definition SlotsOut (outputRow rows : Z) : K unit :=
  Pipe S_MTE3 ;;
  DataCopyPad slotMapping (u64 (outputRow * cm_slotCols td)) (lget slotLocal) 0 (u32 (rows * cm_slotCols td)) ;;
  Pipe MTE3_S.

Definition CopyRopeTile (outputRow compressedPos rows : Z) : K unit :=
  let ropePos := u64 (compressedPos * cm_cmpRatio td) in
  let srcStride := u32 (u32 (cm_cmpRatio td - 1) * cm_ropeRowBytes td) in
  let blockCount := u16 rows in
  let n := cm_ropeRowBytes td / sizeofT e in
  let spitch := (cm_ropeRowBytes td + srcStride) / sizeofT e in
  let soff := u64 (ropePos * cm_ropeDim td) in
  let pad := u8 ropePadElems in
  DataCopyPadIn (sizeofT e) (valueT e 0) cosLocal 0 (fun _ => ropeCosGm e) soff spitch blockCount n pad ;;
  DataCopyPadIn (sizeofT e) (valueT e 0) sinLocal 0 (fun _ => ropeSinGm e) soff spitch blockCount n pad ;;
  Pipe MTE2_S ;;
  RopeOut outputRow rows.

Definition WriteSlotTile (outputRow compressedPos rows blockId : Z) : K unit :=
  let blockOffset := i32 (compressedPos %c cm_kvBlockSize td) in
  (if cm_slotMappingFormat td =? SLOT_MAPPING_FLAT then
     let slotBase := i32 (i32 (blockId * i32 (cm_kvBlockSize td)) + blockOffset) in
     for_range 0 rows (fun row => SetValue slotLocal row (i32 (slotBase + i32 row)))
   else
     for_range 0 rows (fun row =>
       let slotOffset := u32 (row * cm_slotCols td) in
       SetValue slotLocal slotOffset blockId ;;
       SetValue slotLocal (u32 (slotOffset + 1)) (i32 (blockOffset + i32 row)))) ;;
  SlotsOut outputRow rows.

Definition WriteInvalidTile (outputRow rows : Z) : K unit :=
  Duplicate cosLocal 0 (valueT e 1) (u32 (rows * ropeDimAligned)) ;;
  Duplicate sinLocal 0 (valueT e 0) (u32 (rows * ropeDimAligned)) ;;
  Pipe V_MTE3 ;;
  RopeOut outputRow rows ;;
  (if cm_slotMappingFormat td =? SLOT_MAPPING_FLAT then
     for_range 0 rows (fun row => SetValue slotLocal row (-1))
   else
     let padOffset := i32 (cm_kvBlockSize td - 1) in
     for_range 0 rows (fun row =>
       let slotOffset := u32 (row * cm_slotCols td) in
       SetValue slotLocal slotOffset (-1) ;;
       SetValue slotLocal (u32 (slotOffset + 1)) padOffset)) ;;
  SlotsOut outputRow rows.

(** The tests on the last row of a tile (264-277). *)
Definition tile_out_of_range (compressedPos rows blockId : Z) : bool :=
  let blockOffset := compressedPos %c cm_kvBlockSize td in
  ((cm_slotMappingFormat td =? SLOT_MAPPING_FLAT) &&
   (blockId * cm_kvBlockSize td + blockOffset + rows - 1 >? MAX_INT32_VALUE)) ||
  (u64 (u64 (compressedPos + rows - 1) * cm_cmpRatio td) >=? cm_ropeRows td).

Definition ProcessTile (reqIdx outputRow compressedPos rows : Z) : K unit :=
  let blockIdOffset := compressedPos /c cm_kvBlockSize td in
  if blockIdOffset >=? cm_kvBlockTableStride td then WriteInvalidTile outputRow rows
  else
  DataCopyPad blockTableLocal 0 (fun _ => kvBlockTableGm e)
    (u64 (reqIdx * cm_kvBlockTableStride td + blockIdOffset)) 1 ;;
  Pipe MTE2_S ;;
  blockId ← GetValue (lget blockTableLocal) 0;
  if (blockId <? 0) || tile_out_of_range compressedPos rows blockId then WriteInvalidTile outputRow rows
  else
  CopyRopeTile outputRow compressedPos rows ;;
  WriteSlotTile outputRow compressedPos rows blockId.

Definition ProcessRequestRows (reqIdx outputRow compressedPos rows : Z) : K unit :=
  loop (S (Z.to_nat rows))
    (fun '(outputRow, compressedPos, rows) =>
       if rows >? 0 then
         let blockOffset := compressedPos %c cm_kvBlockSize td in
         let rowsToBlockEnd := u32 (cm_kvBlockSize td - blockOffset) in
         let curRows := MinU32 (MinU32 rows (cm_tileRows td)) rowsToBlockEnd in
         ProcessTile reqIdx outputRow compressedPos curRows ;;
         mret (inl (u32 (outputRow + curRows), u32 (compressedPos + curRows), u32 (rows - curRows)))
       else mret (inr tt)) (outputRow, compressedPos, rows).

Definition ProcessValidRows (validRows : Z) : K unit :=
  let '(begin, end_) := SplitRange validRows in
  if begin >=? end_ then mret tt
  else
  reqIdx ← FindRequest begin;
  loop (S (Z.to_nat (end_ - begin) + Z.to_nat (cm_actualNumReqs td)))
    (fun '(row, reqIdx) =>
       if (row <? end_) && (reqIdx <? cm_actualNumReqs td) then
         reqBegin ← GetValue (lget prefixLocal) reqIdx;
         reqEnd ← GetValue (lget prefixLocal) (reqIdx + 1);
         if row >=? u32 reqEnd then mret (inl (row, reqIdx + 1))
         else
         let rowsInReq := MinU32 (u32 (end_ - row)) (u32 (u32 reqEnd - row)) in
         startPos ← GetValue (lget startPosLocal) reqIdx;
         let localCompressedIdx := u32 (row - u32 reqBegin) in
         let compressedPos := u32 (u32 (startPos /c cm_cmpRatio td) + localCompressedIdx) in
         ProcessRequestRows reqIdx row compressedPos rowsInReq ;;
         mret (inl (u32 (row + rowsInReq), reqIdx))
       else mret (inr tt)) (begin, reqIdx).

Definition ProcessPaddingRows (validRows : Z) : K unit :=
  if validRows >=? cm_numRows td then mret tt
  else
  let padRows := u32 (cm_numRows td - validRows) in
  let '(begin, end_) := SplitRange padRows in
  let padEnd := u32 (validRows + end_) in
  loop (S (Z.to_nat (end_ - begin)))
    (fun row =>
       if row <? padEnd then
         let curRows := MinU32 (cm_tileRows td) (u32 (padEnd - row)) in
         WriteInvalidTile row curRows ;;
         mret (inl (u32 (row + curRows)))
       else mret (inr tt)) (u32 (validRows + begin)).

Definition Process : K unit :=
  BuildCompressedPrefix ;;
  p ← GetValue (lget prefixLocal) (cm_actualNumReqs td);
  let validRows := MinU32 (u32 p) (cm_numRows td) in
  ProcessValidRows validRows ;;
  ProcessPaddingRows validRows.
End Kernel.
