(* ===== verification/CompressorTile.v ===== *)
(** CompressorMetadata: the specification of an output row, and the tiles. *)

From S2P Require Import Prelude AscendC Compressor.

(** Rows of a matrix stored contiguously. *)
Section MatrixRows.
Context {A : Type}.
Implicit Types (t : tensor A) (f : Z -> A).

Lemma div_mod_row n r c : 0 <= c < n -> (r * n + c) / n = r /\ (r * n + c) mod n = c.
Proof.
  intros Hc. rewrite Z.div_add_l, Z.div_small by lia. split; [lia|].
  rewrite Z.add_comm, Z.mod_add, Z.mod_small by lia. done.
Qed.

Lemma write_rows_in t o rows n f r c :
  o <= r < o + rows -> 0 <= c < n -> t_at (write_range t (o * n) (rows * n) f) (r * n + c) = f ((r - o) * n + c).
Proof.
  intros Hr Hc. replace (r * n + c) with (o * n + ((r - o) * n + c)) by lia. apply write_range_in. nia.
Qed.

Lemma write_rows_out t o rows n f r c :
  ~ o <= r < o + rows -> 0 <= rows -> 0 <= c < n -> t_at (write_range t (o * n) (rows * n) f) (r * n + c) = t_at t (r * n + c).
Proof. intros Hr Hrows Hc. apply write_range_out. nia. Qed.
End MatrixRows.

(** Unfolds the lenses of the kernel state. *)
Ltac cs_simpl :=
  cbn [lget lset c_ub c_gm cub cgm prefixLocal startPosLocal cuSeqlensLocal blockTableLocal slotLocal cosLocal sinLocal
       pipeEvents compressCos compressSin slotMapping prefixBuf startPosBuf cuSeqlensBuf blockTableBuf slotBuf cosQueue
       sinQueue pipeFlags compressCosGm compressSinGm slotMappingGm] in *.

Section Pipe.
Context {T : Type}.
Implicit Types (s : CS T).

Lemma wp_Pipe ev (Q : unit -> CS T -> Prop) s : pipeFlags (cub s) = ∅ -> Q tt s -> wp (Pipe ev) Q s.
Proof. intros Hf HQ. unfold Pipe. apply (wp_Pulse pipeEvents); [|done]. simpl. rewrite Hf. set_solver. Qed.

Lemma wp_Pipe_seq {B} ev (m : M (CS T) fault_kind B) (Q : B -> CS T -> Prop) s :
  pipeFlags (cub s) = ∅ -> wp m Q s -> wp (Pipe ev ≫= fun _ => m) Q s.
Proof. intros Hf HQ. by apply wp_bind, wp_Pipe. Qed.
End Pipe.

Section Tile.
Context {T : Type}.
Variable e : CEnv T.
Abbreviation td := (ctd e).
Implicit Types (s : CS T) (g : CGM T).
Abbreviation ropeDim := (cm_ropeDim td).
Abbreviation slotCols := (cm_slotCols td).
Abbreviation tileRows := (cm_tileRows td).
Abbreviation kvBlockSize := (cm_kvBlockSize td).
Abbreviation stride := (cm_kvBlockTableStride td).
Abbreviation ratio := (cm_cmpRatio td).
Abbreviation numReqs := (cm_actualNumReqs td).
Abbreviation flat := (cm_slotMappingFormat td =? SLOT_MAPPING_FLAT).

(** What the host guarantees of the tiling record. *)
Record cm_tiling_ok : Prop := {
  ct_rows : 0 < cm_numRows td;
  ct_reqs : 0 < numReqs < 2 ^ 29;
  ct_size : sizeofT e = 2 \/ sizeofT e = 4;
  ct_dim : 0 < ropeDim;
  ct_bytes : cm_ropeRowBytes td = ropeDim * sizeofT e;
  ct_aligned : cm_ropeRowBytesAligned td = (cm_ropeRowBytes td + 31) / 32 * 32;
  ct_tile : 0 < tileRows <= 512;
  ct_tile_bytes : tileRows * cm_ropeRowBytesAligned td < 2 ^ 32;
  ct_block : 0 < kvBlockSize <= INT32_MAX;
  ct_stride : 0 < stride < 2 ^ 32;
  ct_ratio : 0 < ratio < 2 ^ 32 /\ (ratio - 1) * cm_ropeRowBytes td < 2 ^ 32;
  ct_ropeRows : 0 < cm_ropeRows td < 2 ^ 32;
  ct_cols : slotCols = if flat then 1 else 2 }.

(** Sizes and element types of the inputs and outputs. *)
Record cm_inputs_ok : Prop := {
  ci_cos : t_len (ropeCosGm e) = cm_ropeRows td * ropeDim;
  ci_sin : t_len (ropeSinGm e) = cm_ropeRows td * ropeDim;
  ci_cu : numReqs + 1 <= t_len (cuSeqlensGm e);
  ci_start : numReqs <= t_len (startPosGm e);
  ci_table : numReqs * stride <= t_len (kvBlockTableGm e);
  ci_cu_i32 : forall i, fits_i32 (t_at (cuSeqlensGm e) i);
  ci_start_i32 : forall i, fits_i32 (t_at (startPosGm e) i);
  ci_table_i32 : forall i, fits_i32 (t_at (kvBlockTableGm e) i) }.

Definition cm_gm_ok g : Prop :=
  t_len (compressCosGm g) = cm_numRows td * ropeDim /\
  t_len (compressSinGm g) = cm_numRows td * ropeDim /\
  t_len (slotMappingGm g) = cm_numRows td * slotCols.

Context (Htd : cm_tiling_ok) (Hin : cm_inputs_ok) (Hrows32 : cm_numRows td < 2 ^ 31).

(** ** The contents of a row *)

Record RowC : Type := { rc_cos : Z -> T; rc_sin : Z -> T; rc_slot : Z -> Z }.

Definition row_is g (r : Z) (c : RowC) : Prop :=
  (forall k, 0 <= k < ropeDim -> t_at (compressCosGm g) (r * ropeDim + k) = rc_cos c k /\
                                 t_at (compressSinGm g) (r * ropeDim + k) = rc_sin c k) /\
  (forall k, 0 <= k < slotCols -> t_at (slotMappingGm g) (r * slotCols + k) = rc_slot c k).

Definition row_of g (r : Z) : RowC :=
  {| rc_cos := fun k => t_at (compressCosGm g) (r * ropeDim + k);
     rc_sin := fun k => t_at (compressSinGm g) (r * ropeDim + k);
     rc_slot := fun k => t_at (slotMappingGm g) (r * slotCols + k) |}.

(** A padding row: no rotation, no slot. *)
Definition pad_row : RowC :=
  {| rc_cos := fun _ => valueT e 1;
     rc_sin := fun _ => valueT e 0;
     rc_slot := fun k => if flat then -1 else if k =? 0 then -1 else kvBlockSize - 1 |}.

(** Cache block of compressed position [p] of request [q], or a negative id. *)
Definition block_id (q p : Z) : Z := t_at (kvBlockTableGm e) (q * stride + p / kvBlockSize).

(** Row of compressed position [p] of request [q]: the rotary row of the first
    token of the group, and the slot of [p]. *)
Definition ref_row (q p : Z) : RowC :=
  {| rc_cos := fun k => t_at (ropeCosGm e) (p * ratio * ropeDim + k);
     rc_sin := fun k => t_at (ropeSinGm e) (p * ratio * ropeDim + k);
     rc_slot := fun k => if flat then block_id q p * kvBlockSize + p mod kvBlockSize
                         else if k =? 0 then block_id q p else p mod kvBlockSize |}.

Definition in_table (q p : Z) : bool := (p / kvBlockSize <? stride) && (0 <=? block_id q p).
Definition in_range (q p : Z) : bool :=
  (negb flat || (block_id q p * kvBlockSize + p mod kvBlockSize <=? MAX_INT32_VALUE)) && (p * ratio <? cm_ropeRows td).

(** Rows [o], ..., [o + n - 1] written, the others untouched. *)
Definition tile_written g g' (o n : Z) (c : Z -> RowC) : Prop :=
  (cm_gm_ok g -> cm_gm_ok g') /\
  (forall i, 0 <= i < n -> row_is g' (o + i) (c i)) /\
  (forall r, ~ o <= r < o + n -> row_is g' r (row_of g r)).

(** ** Buffers *)

Definition cub_ok s : Prop := init_buffers e (cub s) /\ pipeFlags (cub s) = ∅.
Definition same_tables s s' : Prop :=
  prefixBuf (cub s') = prefixBuf (cub s) /\ startPosBuf (cub s') = startPosBuf (cub s).

Definition dimAligned : Z := (ropeDim * sizeofT e + 31) / 32 * 32 / sizeofT e.

Lemma AlignUpU32_32 v : 0 <= v -> v + 31 < 2 ^ 32 -> AlignUpU32 v 32 = (v + 31) / 32 * 32.
Proof.
  intros Hv Hf. unfold AlignUpU32. rewrite (u32_id (v + 32 - 1)) by (unfold fits_u32; lia).
  rewrite quot_nonneg_div by lia. replace (v + 32 - 1) with (v + 31) by lia.
  apply u32_id. unfold fits_u32. zlia.
Qed.

Lemma buffer_sizes s : cub_ok s ->
  numReqs + 1 <= t_len (prefixBuf (cub s)) /\ numReqs + 1 <= t_len (startPosBuf (cub s)) /\
  numReqs + 1 <= t_len (cuSeqlensBuf (cub s)) /\ 1 <= t_len (blockTableBuf (cub s)) /\
  tileRows * slotCols <= t_len (slotBuf (cub s)) /\
  t_len (cosQueue (cub s)) = tileRows * dimAligned /\ t_len (sinQueue (cub s)) = tileRows * dimAligned.
Proof.
  intros [(H1 & H2 & H3 & H4 & H5 & H6 & H7) _]. pose proof (ct_reqs Htd). pose proof (ct_tile Htd).
  pose proof (ct_tile_bytes Htd) as Htb. pose proof (ct_aligned Htd) as Ha. pose proof (ct_bytes Htd) as Hb.
  assert (slotCols = 1 \/ slotCols = 2) as Hs by (rewrite (ct_cols Htd); destruct flat; auto).
  unfold reqTableBytes, blockTableTileBytes, slotTileBytes, Int32BytesU32, ALIGN_BYTES in *.
  rewrite (u32_id (numReqs + 1)), (u32_id ((numReqs + 1) * 4)), AlignUpU32_32 in H1, H2, H3 by (unfold fits_u32; lia).
  rewrite (u32_id (tileRows * 4)), AlignUpU32_32 in H4 by (unfold fits_u32; lia).
  rewrite (u32_id (tileRows * slotCols)), (u32_id (tileRows * slotCols * 4)), AlignUpU32_32 in H5 by (unfold fits_u32; lia).
  pose proof (ct_dim Htd). assert (0 < sizeofT e) by (destruct (ct_size Htd); lia).
  assert (0 <= (ropeDim * sizeofT e + 31) / 32) as HA by (apply Z.div_pos; nia).
  rewrite Ha, Hb in H6, H7, Htb. set (A := (ropeDim * sizeofT e + 31) / 32) in *.
  rewrite u32_id in H6, H7 by (unfold fits_u32; nia).
  assert (tileRows * (A * 32) / sizeofT e = tileRows * dimAligned) as Hq.
  { unfold dimAligned. fold A. destruct (ct_size Htd) as [-> | ->].
    - replace (tileRows * (A * 32)) with (tileRows * (A * 16) * 2) by lia. replace (A * 32) with (A * 16 * 2) by lia.
      by rewrite !Z.div_mul by lia.
    - replace (tileRows * (A * 32)) with (tileRows * (A * 8) * 4) by lia. replace (A * 32) with (A * 8 * 4) by lia.
      by rewrite !Z.div_mul by lia. }
  split_and!; [zlia|zlia|zlia|zlia|zlia|congruence|congruence].
Qed.

(** ** Filling the slot buffer *)

Abbreviation K := (M (CS T) fault_kind).

(** [s'] is [s] with other slot-buffer contents. *)
Definition slots_set s s' (t : tensor Z) : Prop := s' = lset slotLocal t s /\ t_len t = t_len (slotBuf (cub s)).

Lemma slot_fill_flat (v : Z -> Z) rows s :
  0 <= rows -> rows <= t_len (slotBuf (cub s)) ->
  wp (for_range 0 rows (fun row => SetValue slotLocal row (v row)) : K unit)
     (fun _ s' => exists t, slots_set s s' t /\ forall i, 0 <= i < rows -> t_at t i = v i) s.
Proof.
  intros Hr Hlen. apply (wp_for_range (fun n s' => exists t, slots_set s s' t /\ forall i, 0 <= i < n -> t_at t i = v i)); [lia| | |done].
  - exists (slotBuf (cub s)). split; [|lia]. split; [by destruct s as [[] []]|done].
  - intros i s' Hi (t & [-> Hl] & Ht). apply wp_SetValue; [simpl; lia|]. simpl.
    eexists. split; [split; [reflexivity|exact Hl]|]. intros k Hk.
    destruct (decide (k = i)) as [->|].
    + apply write_one_in.
    + rewrite write_one_out by done. apply Ht. lia.
Qed.

Lemma slot_fill_pairs (v : Z -> Z) (w : Z) rows s :
  0 <= rows < 2 ^ 30 -> rows * 2 <= t_len (slotBuf (cub s)) -> slotCols = 2 ->
  wp (for_range 0 rows (fun row =>
        SetValue slotLocal (u32 (row * slotCols)) w ;;
        SetValue slotLocal (u32 (u32 (row * slotCols) + 1)) (v row)) : K unit)
     (fun _ s' => exists t, slots_set s s' t /\ forall i, 0 <= i < rows -> t_at t (i * 2) = w /\ t_at t (i * 2 + 1) = v i) s.
Proof.
  intros Hr Hlen ->. apply (wp_for_range (fun n s' => exists t, slots_set s s' t /\
    forall i, 0 <= i < n -> t_at t (i * 2) = w /\ t_at t (i * 2 + 1) = v i)); [lia| | |done].
  - exists (slotBuf (cub s)). split; [|lia]. split; [by destruct s as [[] []]|done].
  - intros i s' Hi (t & [-> Hl] & Ht). rewrite (u32_id (i * 2)), (u32_id (i * 2 + 1)) by (unfold fits_u32; lia).
    apply wp_bind, wp_SetValue; [simpl; lia|]. apply wp_SetValue; [simpl; lia|]. simpl.
    eexists. split; [split; [reflexivity|exact Hl]|]. intros k Hk.
    destruct (decide (k = i)) as [->|].
    + split; [rewrite write_one_out by lia|]; apply write_one_in.
    + rewrite !write_one_out by lia. apply Ht. lia.
Qed.

(** The two layouts together. *)
Definition slot_values (v0 v1 : Z -> Z) (i k : Z) : Z := if flat then v0 i else if k =? 0 then v0 i else v1 i.

Lemma slot_out_rows g t o rows (v : Z -> Z -> Z) :
  0 <= rows -> (forall i k, 0 <= i < rows -> 0 <= k < slotCols -> t_at t (i * slotCols + k) = v i k) ->
  let t' := write_range (slotMappingGm g) (o * slotCols) (rows * slotCols) (fun c => t_at t (0 + c)) in
  (forall i k, 0 <= i < rows -> 0 <= k < slotCols -> t_at t' ((o + i) * slotCols + k) = v i k) /\
  (forall r k, ~ o <= r < o + rows -> 0 <= k < slotCols -> t_at t' (r * slotCols + k) = t_at (slotMappingGm g) (r * slotCols + k)).
Proof.
  intros Hr Ht t'. split.
  - intros i k Hi Hk. subst t'. rewrite write_rows_in by lia. rewrite Z.add_0_l. replace (o + i - o) with i by lia. by apply Ht.
  - intros r k Hro Hk. by apply write_rows_out.
Qed.

Lemma rope_out_rows (out local : tensor T) o rows (v : Z -> Z -> T) :
  0 <= rows -> (forall i k, 0 <= i < rows -> 0 <= k < ropeDim -> t_at local (i * dimAligned + k) = v i k) ->
  let t' := write_range out (o * ropeDim) (rows * ropeDim)
              (fun c => t_at local (0 + c / ropeDim * dimAligned + c mod ropeDim)) in
  (forall i k, 0 <= i < rows -> 0 <= k < ropeDim -> t_at t' ((o + i) * ropeDim + k) = v i k) /\
  (forall r k, ~ o <= r < o + rows -> 0 <= k < ropeDim -> t_at t' (r * ropeDim + k) = t_at out (r * ropeDim + k)).
Proof.
  intros Hr Ht t'. split.
  - intros i k Hi Hk. subst t'. rewrite write_rows_in by lia. replace (o + i - o) with i by lia.
    destruct (div_mod_row ropeDim i k Hk) as [-> ->]. rewrite Z.add_0_l. by apply Ht.
  - intros r k Hro Hk. by apply write_rows_out.
Qed.

Lemma dim_aligned_bounds : ropeDim <= dimAligned < ropeDim + 16 /\ row_pitch (sizeofT e) ropeDim = dimAligned /\
  ropeDimAligned e = dimAligned /\ cm_ropeRowBytes td / sizeofT e = ropeDim.
Proof.
  pose proof (ct_dim Htd). split; [|split; [done|split]].
  - unfold dimAligned. destruct (ct_size Htd) as [-> | ->]; zlia.
  - unfold ropeDimAligned, dimAligned. rewrite (ct_aligned Htd), (ct_bytes Htd).
    destruct (ct_size Htd) as [-> | ->]; rewrite quot_nonneg_div by (lia || zlia); done.
  - rewrite (ct_bytes Htd). apply Z.div_mul. destruct (ct_size Htd); lia.
Qed.

(** The tile lies inside the outputs. *)
Definition tile_fits (o rows : Z) : Prop := 0 <= o /\ 0 < rows <= tileRows /\ o + rows <= cm_numRows td.

Lemma tile_arith o rows : tile_fits o rows ->
  u16 rows = rows /\ u32 (rows * slotCols) = rows * slotCols /\ u32 (rows * dimAligned) = rows * dimAligned /\
  u64 (o * ropeDim) = o * ropeDim /\ u64 (o * slotCols) = o * slotCols /\
  rows * slotCols <= tileRows * slotCols /\ rows * dimAligned <= tileRows * dimAligned /\
  0 <= o * ropeDim /\ o * ropeDim + rows * ropeDim <= cm_numRows td * ropeDim /\
  0 <= o * slotCols /\ o * slotCols + rows * slotCols <= cm_numRows td * slotCols /\ 0 < rows * ropeDim /\ 0 < slotCols <= 2.
Proof.
  intros (Ho & Hr & Hor). pose proof (ct_tile Htd). pose proof (ct_dim Htd). pose proof dim_aligned_bounds as (Hd & _).
  assert (slotCols = 1 \/ slotCols = 2) as Hs by (rewrite (ct_cols Htd); destruct flat; auto).
  pose proof (ct_tile_bytes Htd) as Htb. rewrite (ct_aligned Htd), (ct_bytes Htd) in Htb.
  assert (0 <= ropeDim * sizeofT e <= (ropeDim * sizeofT e + 31) / 32 * 32) as HA.
  { destruct (ct_size Htd) as [-> | ->]; zlia. }
  set (A := (ropeDim * sizeofT e + 31) / 32) in *.
  assert (A * 32 <= tileRows * (A * 32)) by nia.
  assert (ropeDim < 2 ^ 32) by (destruct (ct_size Htd) as [E|E]; rewrite E in *; lia).
  assert (rows * dimAligned <= tileRows * dimAligned) by (apply Z.mul_le_mono_nonneg_r; lia).
  assert (tileRows * dimAligned < 2 ^ 32).
  { unfold dimAligned. fold A. destruct (ct_size Htd) as [-> | ->].
    - replace (A * 32) with (A * 16 * 2) by lia. rewrite Z.div_mul by lia. nia.
    - replace (A * 32) with (A * 8 * 4) by lia. rewrite Z.div_mul by lia. nia. }
  rewrite u16_id, !u32_id, !u64_id by (unfold fits_u32; nia). split_and!; try done; nia.
Qed.

(** ** The steps of a tile *)

Lemma SlotsOut_spec o rows (v : Z -> Z -> Z) s :
  tile_fits o rows -> cub_ok s -> cm_gm_ok (cgm s) ->
  (forall i k, 0 <= i < rows -> 0 <= k < slotCols -> t_at (slotBuf (cub s)) (i * slotCols + k) = v i k) ->
  wp (SlotsOut e o rows) (fun _ s' => cub s' = cub s /\ compressCosGm (cgm s') = compressCosGm (cgm s) /\
      compressSinGm (cgm s') = compressSinGm (cgm s) /\ t_len (slotMappingGm (cgm s')) = t_len (slotMappingGm (cgm s)) /\
      (forall i k, 0 <= i < rows -> 0 <= k < slotCols -> t_at (slotMappingGm (cgm s')) ((o + i) * slotCols + k) = v i k) /\
      (forall r k, ~ o <= r < o + rows -> 0 <= k < slotCols ->
         t_at (slotMappingGm (cgm s')) (r * slotCols + k) = t_at (slotMappingGm (cgm s)) (r * slotCols + k))) s.
Proof.
  intros Hfit Hub Hgm Hv. destruct (tile_arith o rows Hfit) as (_ & E1 & _ & _ & E2 & Hle & _ & _ & _ & H0 & H1 & _ & Hsc).
  destruct (buffer_sizes s Hub) as (_ & _ & _ & _ & Hslot & _). destruct Hgm as (_ & _ & Hsl).
  assert (0 <= rows) as Hr0 by (destruct Hfit; lia).
  unfold SlotsOut. rewrite E1, E2. apply wp_Pipe_seq; [apply Hub|].
  apply wp_bind, wp_DataCopyPad; [apply in_tensor_true; simpl; nia|apply in_tensor_true; simpl; nia|].
  apply wp_Pipe; [apply Hub|]. simpl.
  destruct (slot_out_rows (cgm s) (slotBuf (cub s)) o rows v Hr0 Hv) as [Ha Hb]. split_and!; try done.
Qed.

Lemma RopeOut_spec o rows (vc vs : Z -> Z -> T) s :
  tile_fits o rows -> cub_ok s -> cm_gm_ok (cgm s) ->
  (forall i k, 0 <= i < rows -> 0 <= k < ropeDim -> t_at (cosQueue (cub s)) (i * dimAligned + k) = vc i k /\
                                                    t_at (sinQueue (cub s)) (i * dimAligned + k) = vs i k) ->
  wp (RopeOut e o rows) (fun _ s' => cub s' = cub s /\ cm_gm_ok (cgm s') /\
      slotMappingGm (cgm s') = slotMappingGm (cgm s) /\
      (forall i k, 0 <= i < rows -> 0 <= k < ropeDim ->
         t_at (compressCosGm (cgm s')) ((o + i) * ropeDim + k) = vc i k /\
         t_at (compressSinGm (cgm s')) ((o + i) * ropeDim + k) = vs i k) /\
      (forall r k, ~ o <= r < o + rows -> 0 <= k < ropeDim ->
         t_at (compressCosGm (cgm s')) (r * ropeDim + k) = t_at (compressCosGm (cgm s)) (r * ropeDim + k) /\
         t_at (compressSinGm (cgm s')) (r * ropeDim + k) = t_at (compressSinGm (cgm s)) (r * ropeDim + k))) s.
Proof.
  intros Hfit Hub Hgm Hv. destruct (tile_arith o rows Hfit) as (E1 & _ & _ & E2 & _ & _ & Hle & H0 & H1 & _).
  destruct (buffer_sizes s Hub) as (_ & _ & _ & _ & _ & Hcos & Hsin). pose proof Hgm as (Hc & Hs & _).
  pose proof dim_aligned_bounds as (Hd & Ep & _ & En). pose proof (ct_dim Htd). destruct Hfit as (_ & Hr & _).
  unfold RopeOut. cbv zeta. rewrite E1, E2, En.
  apply wp_bind, wp_DataCopyPadOut; [apply in_tensor_true; simpl; nia|rewrite Ep; apply in_tensor_true; simpl; nia|].
  apply wp_bind, wp_DataCopyPadOut; [apply in_tensor_true; simpl; nia|rewrite Ep; apply in_tensor_true; simpl; nia|].
  apply wp_Pipe; [apply Hub|]. rewrite Ep. simpl.
  destruct (rope_out_rows (compressCosGm (cgm s)) (cosQueue (cub s)) o rows vc ltac:(lia) (fun i k Hi Hk => proj1 (Hv i k Hi Hk))) as [Hc1 Hc2].
  destruct (rope_out_rows (compressSinGm (cgm s)) (sinQueue (cub s)) o rows vs ltac:(lia) (fun i k Hi Hk => proj2 (Hv i k Hi Hk))) as [Hs1 Hs2].
  split_and!; try done.
  - intros i k Hi Hk. split; [by apply Hc1|by apply Hs1].
  - intros r k Hro Hk. split; [by apply Hc2|by apply Hs2].
Qed.

Lemma tile_written_parts g g1 g2 o rows (c : Z -> RowC) :
  cm_gm_ok g1 -> slotMappingGm g1 = slotMappingGm g ->
  (forall i k, 0 <= i < rows -> 0 <= k < ropeDim ->
     t_at (compressCosGm g1) ((o + i) * ropeDim + k) = rc_cos (c i) k /\
     t_at (compressSinGm g1) ((o + i) * ropeDim + k) = rc_sin (c i) k) ->
  (forall r k, ~ o <= r < o + rows -> 0 <= k < ropeDim ->
     t_at (compressCosGm g1) (r * ropeDim + k) = t_at (compressCosGm g) (r * ropeDim + k) /\
     t_at (compressSinGm g1) (r * ropeDim + k) = t_at (compressSinGm g) (r * ropeDim + k)) ->
  compressCosGm g2 = compressCosGm g1 -> compressSinGm g2 = compressSinGm g1 ->
  t_len (slotMappingGm g2) = t_len (slotMappingGm g1) ->
  (forall i k, 0 <= i < rows -> 0 <= k < slotCols -> t_at (slotMappingGm g2) ((o + i) * slotCols + k) = rc_slot (c i) k) ->
  (forall r k, ~ o <= r < o + rows -> 0 <= k < slotCols ->
     t_at (slotMappingGm g2) (r * slotCols + k) = t_at (slotMappingGm g1) (r * slotCols + k)) ->
  tile_written g g2 o rows c.
Proof.
  intros (Hk1 & Hk2 & Hk3) Hsl Hin1 Hout1 E1 E2 E3 Hin2 Hout2. split; [|split].
  - intros _. unfold cm_gm_ok. by rewrite E1, E2, E3.
  - intros i Hi. split; [|intros k Hk; by apply Hin2]. rewrite E1, E2. intros k Hk. by apply Hin1.
  - intros r Hr. split; [rewrite E1, E2; intros k Hk; by apply Hout1|]. intros k Hk. rewrite Hout2 by done.
    simpl. by rewrite Hsl.
Qed.

Lemma same_tables_refl s : same_tables s s.
Proof. done. Qed.

(** A padding tile. *)
Lemma WriteInvalidTile_spec o rows s :
  tile_fits o rows -> cub_ok s -> cm_gm_ok (cgm s) ->
  wp (WriteInvalidTile e o rows)
     (fun _ s' => cub_ok s' /\ same_tables s s' /\ tile_written (cgm s) (cgm s') o rows (fun _ => pad_row)) s.
Proof.
  intros Hfit Hub Hgm. destruct (tile_arith o rows Hfit) as (_ & _ & E1 & _ & _ & Hcols & Hle & _ & _ & _ & _ & _ & Hsc).
  destruct (buffer_sizes s Hub) as (_ & _ & _ & _ & Hslot & Hcos & Hsin). pose proof dim_aligned_bounds as (Hd & _ & Ea & _).
  pose proof (ct_dim Htd). pose proof (ct_tile Htd). pose proof Hfit as (_ & Hr & _).
  unfold WriteInvalidTile. cbv zeta. rewrite Ea, E1.
  apply wp_bind, wp_Duplicate; [apply in_tensor_true; simpl; nia|].
  apply wp_bind, wp_Duplicate; [apply in_tensor_true; simpl; nia|].
  apply wp_Pipe_seq; [apply Hub|].
  eapply wp_seq; [apply (RopeOut_spec o rows (fun _ _ => valueT e 1) (fun _ _ => valueT e 0)); [done|exact Hub|exact Hgm|]|].
  { intros i k Hi Hk. cs_simpl. pose proof (row_index_bound i k rows dimAligned Hi ltac:(lia)).
    rewrite <- (Z.add_0_l (i * dimAligned + k)), !write_range_in by done. done. }
  intros [] s1 (Hu1 & Hg1 & Hsl1 & Hin1 & Hout1).
  eapply wp_seq with (P := fun _ s2 => exists t, slots_set s1 s2 t /\ forall i k, 0 <= i < rows -> 0 <= k < slotCols ->
    t_at t (i * slotCols + k) = rc_slot pad_row k).
  { pose proof (ct_cols Htd) as Hcc. pose proof (ct_block Htd). unfold INT32_MAX in *.
    assert (tileRows * slotCols <= t_len (slotBuf (cub s1))) as Hs1 by (rewrite Hu1; exact Hslot). cbn [rc_slot pad_row].
    destruct flat.
    - eapply wp_mono; [apply (slot_fill_flat (fun _ => -1)); [lia|rewrite Hcc in *; lia]|].
      intros [] s2 (t & Hset & Ht). exists t. split; [done|]. intros i k Hi Hk. rewrite Hcc in *.
      replace (i * 1 + k) with i by lia. by apply Ht.
    - rewrite i32_id by (unfold fits_i32; lia).
      eapply wp_mono; [apply (slot_fill_pairs (fun _ => kvBlockSize - 1) (-1)); [lia|rewrite Hcc in *; lia|done]|].
      intros [] s2 (t & Hset & Ht). exists t. split; [done|]. intros i k Hi Hk. rewrite Hcc in *.
      destruct (Ht i Hi) as [Ht0 Ht1]. assert (k = 0 \/ k = 1) as [-> | ->] by lia; [by rewrite Z.add_0_r|done]. }
  intros [] s2 (t & [-> Hlt] & Ht). rewrite Hu1 in Hlt. simpl in Hlt.
  assert (cub_ok (lset slotLocal t s1)) as Hub2.
  { destruct Hub as [(B1 & B2 & B3 & B4 & B5 & B6 & B7) Hfl]. unfold cub_ok, init_buffers. simpl. rewrite Hu1. simpl. by rewrite Hlt. }
  eapply wp_mono; [apply (SlotsOut_spec o rows (fun _ => rc_slot pad_row)); [done|exact Hub2|exact Hg1|exact Ht]|].
  intros [] s3 (Hu3 & Hc3 & Hs3 & Hl3 & Hin3 & Hout3). simpl in *. split; [|split].
  - unfold cub_ok. rewrite Hu3. exact Hub2.
  - unfold same_tables. rewrite Hu3. simpl. by rewrite Hu1.
  - by eapply tile_written_parts.
Qed.

(** The position range of a tile: one cache block, last row in range. *)
Definition tile_pos (q p rows : Z) : Prop :=
  0 <= q < numReqs /\ 0 <= p /\ p + rows < 2 ^ 32 /\ p mod kvBlockSize + rows <= kvBlockSize.

Lemma tile_block p i rows : 0 <= p -> p mod kvBlockSize + rows <= kvBlockSize -> 0 <= i < rows ->
  (p + i) / kvBlockSize = p / kvBlockSize /\ (p + i) mod kvBlockSize = p mod kvBlockSize + i.
Proof.
  intros Hp Hb Hi. pose proof (ct_block Htd) as [Hk _]. pose proof (Z.div_mod p kvBlockSize ltac:(lia)).
  pose proof (Z.mod_pos_bound p kvBlockSize Hk).
  replace (p + i) with (p / kvBlockSize * kvBlockSize + (p mod kvBlockSize + i)) by lia.
  apply div_mod_row. lia.
Qed.

Lemma CopyRopeTile_spec o q p rows s :
  tile_fits o rows -> cub_ok s -> cm_gm_ok (cgm s) -> tile_pos q p rows -> (p + rows - 1) * ratio < cm_ropeRows td ->
  wp (CopyRopeTile e o p rows)
     (fun _ s' => cub_ok s' /\ same_tables s s' /\ cm_gm_ok (cgm s') /\
      slotMappingGm (cgm s') = slotMappingGm (cgm s) /\
      (forall i k, 0 <= i < rows -> 0 <= k < ropeDim ->
         t_at (compressCosGm (cgm s')) ((o + i) * ropeDim + k) = rc_cos (ref_row q (p + i)) k /\
         t_at (compressSinGm (cgm s')) ((o + i) * ropeDim + k) = rc_sin (ref_row q (p + i)) k) /\
      (forall r k, ~ o <= r < o + rows -> 0 <= k < ropeDim ->
         t_at (compressCosGm (cgm s')) (r * ropeDim + k) = t_at (compressCosGm (cgm s)) (r * ropeDim + k) /\
         t_at (compressSinGm (cgm s')) (r * ropeDim + k) = t_at (compressSinGm (cgm s)) (r * ropeDim + k))) s.
Proof.
  intros Hfit Hub Hgm (Hq & Hp & Hp32 & _) Hrope. pose proof Hfit as (_ & Hr & _).
  destruct (tile_arith o rows Hfit) as (E1 & _ & _ & _ & _ & _ & Hle & _).
  destruct (buffer_sizes s Hub) as (_ & _ & _ & _ & _ & Hcos & Hsin). pose proof dim_aligned_bounds as (Hd & Ep & _ & En).
  pose proof (ct_dim Htd). pose proof (ct_ratio Htd) as [Hrt Hst]. pose proof (ct_ropeRows Htd). pose proof (ct_bytes Htd) as Hb.
  assert (0 < sizeofT e) as Hsz by (destruct (ct_size Htd); lia).
  assert (0 <= (ratio - 1) * cm_ropeRowBytes td) by (rewrite Hb; nia).
  assert (p * ratio <= (p + rows - 1) * ratio) as Hpr by (apply Z.mul_le_mono_nonneg_r; lia).
  assert (cm_ropeRowBytes td < 2 ^ 32) as Hrb.
  { pose proof (ct_tile_bytes Htd) as Htb. pose proof (ct_tile Htd). rewrite (ct_aligned Htd) in Htb.
    assert (cm_ropeRowBytes td <= (cm_ropeRowBytes td + 31) / 32 * 32) by zlia. nia. }
  assert (ropeDim <= cm_ropeRowBytes td) by (rewrite Hb; nia).
  unfold CopyRopeTile. rewrite E1, En. rewrite (u32_id (ratio - 1)) by (unfold fits_u32; lia).
  rewrite (u32_id ((ratio - 1) * _)) by (unfold fits_u32; lia).
  assert (0 <= p * ratio) by (apply Z.mul_nonneg_nonneg; lia).
  assert (0 <= p * ratio * ropeDim) by (apply Z.mul_nonneg_nonneg; lia).
  assert (p * ratio * ropeDim < 2 ^ 32 * 2 ^ 32) by (apply Z.mul_lt_mono_nonneg; lia).
  rewrite (u64_id (p * ratio)), (u64_id (p * ratio * ropeDim)) by lia. cbv zeta.
  assert ((cm_ropeRowBytes td + (ratio - 1) * cm_ropeRowBytes td) / sizeofT e = ratio * ropeDim) as ->.
  { rewrite Hb. replace (_ + _) with (ratio * ropeDim * sizeofT e) by lia. apply Z.div_mul. lia. }
  assert (0 <= (rows - 1) * (ratio * ropeDim)) by (apply Z.mul_nonneg_nonneg; nia).
  assert (p * ratio * ropeDim + ((rows - 1) * (ratio * ropeDim) + ropeDim) <= cm_ropeRows td * ropeDim) as Hsrc.
  { replace (_ + _) with (((p + rows - 1) * ratio + 1) * ropeDim) by lia. apply Z.mul_le_mono_nonneg_r; lia. }
  apply wp_bind, wp_DataCopyPadIn; [rewrite Ep; apply in_tensor_true; cs_simpl; nia|apply in_tensor_true; rewrite ?(ci_cos Hin); lia|].
  apply wp_bind, wp_DataCopyPadIn; [rewrite Ep; apply in_tensor_true; cs_simpl; nia|apply in_tensor_true; rewrite ?(ci_sin Hin); lia|].
  rewrite Ep. apply wp_Pipe_seq; [apply Hub|].
  eapply wp_mono; [apply (RopeOut_spec o rows (fun i => rc_cos (ref_row q (p + i))) (fun i => rc_sin (ref_row q (p + i))));
    [done|exact Hub|exact Hgm|]|].
  - intros i k Hi Hk. cs_simpl. pose proof (row_index_bound i k rows dimAligned Hi ltac:(lia)).
    rewrite <- (Z.add_0_l (i * dimAligned + k)), !write_range_in by done.
    destruct (div_mod_row dimAligned i k ltac:(lia)) as [-> ->]. rewrite (proj2 (Z.ltb_lt k ropeDim)) by lia.
    cbn [rc_cos rc_sin ref_row]. split; f_equal; lia.
  - intros [] s' (Hu & Hg & Hsl & Hin' & Hout). split; [unfold cub_ok; rewrite Hu; exact Hub|].
    split; [unfold same_tables; by rewrite Hu|]. done.
Qed.

Lemma WriteSlotTile_spec o q p rows s :
  tile_fits o rows -> cub_ok s -> cm_gm_ok (cgm s) -> tile_pos q p rows -> 0 <= block_id q p ->
  (flat = true -> block_id q p * kvBlockSize + p mod kvBlockSize + rows - 1 <= MAX_INT32_VALUE) ->
  wp (WriteSlotTile e o p rows (block_id q p))
     (fun _ s' => cub_ok s' /\ same_tables s s' /\ compressCosGm (cgm s') = compressCosGm (cgm s) /\
      compressSinGm (cgm s') = compressSinGm (cgm s) /\ t_len (slotMappingGm (cgm s')) = t_len (slotMappingGm (cgm s)) /\
      (forall i k, 0 <= i < rows -> 0 <= k < slotCols ->
         t_at (slotMappingGm (cgm s')) ((o + i) * slotCols + k) = rc_slot (ref_row q (p + i)) k) /\
      (forall r k, ~ o <= r < o + rows -> 0 <= k < slotCols ->
         t_at (slotMappingGm (cgm s')) (r * slotCols + k) = t_at (slotMappingGm (cgm s)) (r * slotCols + k))) s.
Proof.
  intros Hfit Hub Hgm (Hq & Hp & Hp32 & Hpb) Hid Hflat. pose proof Hfit as (_ & Hr & _).
  destruct (tile_arith o rows Hfit) as (_ & _ & _ & _ & _ & Hle & _). pose proof (ct_tile Htd).
  destruct (buffer_sizes s Hub) as (_ & _ & _ & _ & Hslot & _). pose proof (ct_block Htd) as [Hk HkM]. pose proof (ct_cols Htd) as Hcc.
  pose proof (Z.mod_pos_bound p kvBlockSize Hk) as Hm. unfold INT32_MAX, MAX_INT32_VALUE in *.
  pose proof (ci_table_i32 Hin (q * stride + p / kvBlockSize)) as Hb32. fold (block_id q p) in Hb32.
  unfold WriteSlotTile. rewrite rem_nonneg_mod by lia. cbv zeta.
  rewrite (i32_id (p mod kvBlockSize)), (i32_id kvBlockSize) by (unfold fits_i32; lia).
  eapply wp_seq with (P := fun _ s2 => exists t, slots_set s s2 t /\ forall i k, 0 <= i < rows -> 0 <= k < slotCols ->
    t_at t (i * slotCols + k) = rc_slot (ref_row q (p + i)) k).
  { cbn [rc_slot ref_row]. unfold block_id in *. destruct flat.
    - specialize (Hflat eq_refl). set (B := t_at _ (q * stride + p / kvBlockSize)) in *.
      assert (0 <= B * kvBlockSize) by nia.
      rewrite (i32_id (B * kvBlockSize)), (i32_id (B * kvBlockSize + _)) by (unfold fits_i32; lia).
      eapply wp_mono; [apply (slot_fill_flat (fun row => i32 (B * kvBlockSize + p mod kvBlockSize + i32 row))); [lia|rewrite Hcc in *; lia]|].
      intros [] s2 (t & Hset & Ht). exists t. split; [done|]. intros i k Hi Hk'. rewrite Hcc in *.
      replace (i * 1 + k) with i by lia. rewrite Ht by done. destruct (tile_block p i rows Hp Hpb Hi) as [-> ->].
      fold B. rewrite (i32_id i), i32_id by (unfold fits_i32; lia). lia.
    - eapply wp_mono; [apply (slot_fill_pairs (fun row => i32 (p mod kvBlockSize + i32 row))); [lia|rewrite Hcc in *; lia|done]|].
      intros [] s2 (t & Hset & Ht). exists t. split; [done|]. intros i k Hi Hk'. rewrite Hcc in *.
      destruct (tile_block p i rows Hp Hpb Hi) as [-> ->]. destruct (Ht i Hi) as [Ht0 Ht1].
      assert (k = 0 \/ k = 1) as [-> | ->] by lia; [by rewrite Z.add_0_r|]. rewrite Ht1.
      change (1 =? 0) with false. cbv iota. rewrite (i32_id i), i32_id by (unfold fits_i32; lia). done. }
  intros [] s2 (t & [-> Hlt] & Ht).
  assert (cub_ok (lset slotLocal t s)) as Hub2.
  { destruct Hub as [(B1 & B2 & B3 & B4 & B5 & B6 & B7) Hfl]. unfold cub_ok, init_buffers. simpl. by rewrite Hlt. }
  eapply wp_mono; [apply (SlotsOut_spec o rows (fun i => rc_slot (ref_row q (p + i)))); [done|exact Hub2|exact Hgm|exact Ht]|].
  intros [] s3 (Hu3 & Hc3 & Hs3 & Hl3 & Hin3 & Hout3). cs_simpl. split; [unfold cub_ok; rewrite Hu3; exact Hub2|].
  split; [unfold same_tables; by rewrite Hu3|]. done.
Qed.

(** The tests of [ProcessTile] are those of the last row. *)
Lemma tile_out_of_range_eq q p rows : tile_pos q p rows -> 0 < rows ->
  tile_out_of_range e p rows (block_id q p) = negb (in_range q (p + rows - 1)).
Proof.
  intros (Hq & Hp & Hp32 & Hpb) Hr. pose proof (ct_block Htd) as [Hk HkM]. pose proof (ct_ratio Htd) as [Hrt _].
  destruct (tile_block p (rows - 1) rows Hp Hpb ltac:(lia)) as [Hdiv Hmod].
  replace (p + (rows - 1)) with (p + rows - 1) in Hdiv, Hmod by lia.
  unfold tile_out_of_range, in_range, block_id. rewrite rem_nonneg_mod by lia. rewrite Hdiv, Hmod.
  assert (0 <= (p + rows - 1) * ratio) by (apply Z.mul_nonneg_nonneg; lia).
  assert ((p + rows - 1) * ratio < 2 ^ 32 * 2 ^ 32) by (apply Z.mul_lt_mono_nonneg; lia).
  cbv zeta. rewrite (u64_id (p + rows - 1)) by lia. rewrite u64_id by lia. rewrite negb_andb, negb_orb, negb_involutive. f_equal.
  - f_equal. rewrite Z.gtb_ltb, Z.add_assoc, Z.add_sub_assoc. apply Z.ltb_antisym.
  - rewrite Z.geb_leb, Z.leb_antisym. done.
Qed.

(** A tile is written with its reference rows when its last row is in range,
    and with padding otherwise. *)
Lemma ProcessTile_spec o q p rows s :
  tile_fits o rows -> cub_ok s -> cm_gm_ok (cgm s) -> tile_pos q p rows ->
  wp (ProcessTile e q o p rows)
     (fun _ s' => cub_ok s' /\ same_tables s s' /\
        tile_written (cgm s) (cgm s') o rows (fun i =>
          if in_table q p && in_range q (p + rows - 1) then ref_row q (p + i) else pad_row)) s.
Proof.
  intros Hfit Hub Hgm Hpos. pose proof Hpos as (Hq & Hp & Hp32 & Hpb). pose proof Hfit as (_ & Hr & _).
  pose proof (ct_block Htd) as [Hk HkM]. pose proof (ct_stride Htd) as Hs. pose proof (ct_reqs Htd) as Hn.
  pose proof (Z.div_pos p kvBlockSize Hp Hk) as Hdp.
  destruct (buffer_sizes s Hub) as (_ & _ & _ & Hbt & _).
  unfold ProcessTile. rewrite quot_nonneg_div by lia. cbv zeta. unfold in_table.
  rewrite Z.geb_leb. destruct (stride <=? p / kvBlockSize) eqn:E1; bool_prop.
  { rewrite (proj2 (Z.ltb_ge (p / kvBlockSize) stride)) by lia. cbn [andb]. by apply WriteInvalidTile_spec. }
  rewrite (proj2 (Z.ltb_lt (p / kvBlockSize) stride)) by lia. cbn [andb].
  pose proof (row_index_bound q (p / kvBlockSize) numReqs stride Hq ltac:(lia)) as Hoff.
  assert (numReqs * stride < 2 ^ 32 * 2 ^ 32) by (apply Z.mul_lt_mono_nonneg; lia). rewrite u64_id by lia.
  pose proof (ci_table Hin). apply wp_bind, wp_DataCopyPad; [apply in_tensor_true; cs_simpl; lia|apply in_tensor_true; lia|].
  apply wp_Pipe_seq; [apply Hub|]. apply wp_bind, wp_GetValue; [cs_simpl; rewrite write_range_len; lia|].
  cs_simpl. rewrite (write_range_in _ 0 1 _ 0) by lia. rewrite Z.add_0_r. fold (block_id q p).
  rewrite tile_out_of_range_eq by (done || lia). rewrite Z.ltb_antisym, <- negb_andb.
  match goal with |- wp _ _ ?x => set (s1 := x) end.
  assert (cub_ok s1) as Hub1 by exact Hub. assert (same_tables s s1) as Hst1 by done.
  assert (cgm s1 = cgm s) as Hg1 by done. clearbody s1. rewrite <- Hg1 in Hgm |- *.
  destruct ((0 <=? block_id q p) && in_range q (p + rows - 1)) eqn:E2; cbn [negb]; bool_prop.
  - destruct (tile_block p (rows - 1) rows Hp Hpb ltac:(lia)) as [Hdiv Hmod].
    replace (p + (rows - 1)) with (p + rows - 1) in Hdiv, Hmod by lia.
    assert (in_range q (p + rows - 1) = true) as Hr1 by done. unfold in_range in Hr1. bool_prop.
    eapply wp_seq; [apply (CopyRopeTile_spec o q p rows s1); try done|].
    intros [] s2 (Hub2 & Hst2 & Hg2 & Hsl2 & Hin2 & Hout2).
    eapply wp_mono; [apply (WriteSlotTile_spec o q p rows s2); try done|].
    + intros Hf. rewrite Hf in *. unfold block_id in *. rewrite Hdiv, Hmod in *. naive_solver lia.
    + intros [] s3 (Hub3 & Hst3 & Hc3 & Hs3 & Hl3 & Hin3 & Hout3). split; [done|].
      split; [unfold same_tables in *; naive_solver congruence|]. by eapply tile_written_parts.
  - eapply wp_mono; [by apply WriteInvalidTile_spec|]. intros [] s2 (Hub2 & Hst2 & Hw). split; [done|].
    split; [unfold same_tables in *; naive_solver congruence|]. done.
Qed.
End Tile.
