(* ===== verification/CompressorRows.v ===== *)
(** CompressorMetadata: which output row belongs to which request, and the
    loops over the rows of a core. *)

From S2P Require Import Prelude AscendC Compressor CompressorTile.

Lemma u32_i32 x : 0 <= x < 2 ^ 32 -> u32 (i32 x) = x.
Proof.
  intros Hx. unfold u32, i32. rewrite Zminus_mod_idemp_l, Z.add_simpl_r. by apply Z.mod_small.
Qed.

Section Rows.
Context {T : Type}.
Variable e : CEnv T.
Abbreviation td := (ctd e).
Implicit Types (s : CS T) (g : CGM T).
Abbreviation numReqs := (cm_actualNumReqs td).
Abbreviation numRows := (cm_numRows td).
Abbreviation ratio := (cm_cmpRatio td).
Abbreviation kvBlockSize := (cm_kvBlockSize td).
Abbreviation start q := (t_at (startPosGm e) q).
Abbreviation cu q := (t_at (cuSeqlensGm e) q).

(** ** Requests and rows *)

(** Complete groups of [ratio] tokens among the new tokens of a request. *)
Definition rows_of (q : Z) : Z :=
  if (0 <=? start q) && (cu q <? cu (q + 1)) then (start q + (cu (q + 1) - cu q)) / ratio - start q / ratio else 0.

Fixpoint pre_nat (n : nat) : Z := match n with O => 0 | S n' => pre_nat n' + rows_of (Z.of_nat n') end.

(** Rows of the requests before [i]. *)
Definition pre (i : Z) : Z := pre_nat (Z.to_nat i).

Definition in_request (q r : Z) : Prop := 0 <= q < numReqs /\ pre q <= r < pre (q + 1).
Definition pos_of (q r : Z) : Z := start q / ratio + (r - pre q).

(** Every row of the request is within the rotary table and the slot range. *)
Definition request_fits (q : Z) : Prop :=
  forall r, in_request q r -> r < numRows -> in_range e q (pos_of q r) = true.

(** What row [r] must hold: the reference row of its position, or padding when
    that is not in the block table or out of range; rows of a request that is
    partly out of range may also be padded; the rows after the last request are
    padding. *)
Definition row_result (r : Z) g : Prop :=
  (forall q, in_request q r ->
     let p := pos_of q r in
     row_is e g r (if in_table e q p && in_range e q p then ref_row e q p else pad_row e) \/
     (~ request_fits q /\ row_is e g r (pad_row e))) /\
  (pre numReqs <= r -> row_is e g r (pad_row e)).

Context (Htd : cm_tiling_ok e) (Hin : cm_inputs_ok e) (Hrows32 : numRows < 2 ^ 31).
Context (Htotal : pre numReqs < 2 ^ 32) (Hcu0 : forall q, 0 <= q <= numReqs -> 0 <= cu q).

Lemma rows_of_nonneg q : 0 <= rows_of q.
Proof.
  unfold rows_of. pose proof (ct_ratio e Htd) as [Hr _]. destruct (_ && _) eqn:E; bool_prop; [|lia].
  pose proof (Z.div_le_mono (start q) (start q + (cu (q + 1) - cu q)) ratio ltac:(lia) ltac:(lia)). lia.
Qed.

Lemma pre_0 : pre 0 = 0.
Proof. done. Qed.

Lemma pre_succ i : 0 <= i -> pre (i + 1) = pre i + rows_of i.
Proof. intros Hi. unfold pre. rewrite Z2Nat.inj_add, Nat.add_1_r by lia. simpl. by rewrite Z2Nat.id. Qed.

Lemma pre_mono i j : 0 <= i <= j -> pre i <= pre j.
Proof.
  intros Hij. replace j with (i + Z.of_nat (Z.to_nat (j - i))) by lia. generalize (Z.to_nat (j - i)). intros n.
  induction n as [|n IH]; [rewrite Z.add_0_r; lia|].
  replace (i + Z.of_nat (S n)) with (i + Z.of_nat n + 1) by lia. rewrite pre_succ by lia.
  pose proof (rows_of_nonneg (i + Z.of_nat n)). lia.
Qed.

Lemma pre_range i : 0 <= i <= numReqs -> 0 <= pre i < 2 ^ 32.
Proof. intros Hi. pose proof (pre_mono 0 i ltac:(lia)). pose proof (pre_mono i numReqs ltac:(lia)). rewrite pre_0 in *. lia. Qed.

(** The kernel's count is the specified one. *)
Lemma compressedRows_eq q : compressedRows e (start q) (cu q) (cu (q + 1)) = rows_of q.
Proof.
  unfold compressedRows, rows_of. pose proof (ct_ratio e Htd) as [Hr _].
  pose proof (ci_start_i32 e Hin q) as H1. pose proof (ci_cu_i32 e Hin q) as H2. pose proof (ci_cu_i32 e Hin (q + 1)) as H3.
  unfold fits_i32 in *. rewrite Z.geb_leb, Z.gtb_ltb.
  replace (0 <? cu (q + 1) - cu q) with (cu q <? cu (q + 1)) by (destruct (Z.ltb_spec (cu q) (cu (q + 1))), (Z.ltb_spec 0 (cu (q + 1) - cu q)); lia).
  destruct (_ && _) eqn:E; bool_prop; [|done]. rewrite !quot_nonneg_div by lia.
  pose proof (Z.div_le_mono (start q) (start q + (cu (q + 1) - cu q)) ratio ltac:(lia) ltac:(lia)).
  pose proof (Z.div_pos (start q) ratio ltac:(lia) ltac:(lia)).
  pose proof (Z.div_le_mono (start q + (cu (q + 1) - cu q)) (start q + (cu (q + 1) - cu q) * ratio) ratio ltac:(lia) ltac:(nia)) as Hle.
  rewrite Z.div_add in Hle by lia.
  apply u32_id. unfold fits_u32. lia.
Qed.

(** ** The prefix table *)

Definition tables_ok s : Prop :=
  (forall i, 0 <= i <= numReqs -> t_at (prefixBuf (cub s)) i = i32 (pre i)) /\
  (forall q, 0 <= q < numReqs -> t_at (startPosBuf (cub s)) q = start q).

Lemma tables_same s s' : same_tables s s' -> tables_ok s -> tables_ok s'.
Proof. intros [H1 H2] [H3 H4]. split; [by rewrite H1|by rewrite H2]. Qed.

Lemma BuildCompressedPrefix_loop_spec n i s :
  0 <= i -> i + Z.of_nat n = numReqs -> cub_ok e s ->
  (forall k, 0 <= k <= i -> t_at (prefixBuf (cub s)) k = i32 (pre k)) ->
  (forall q, 0 <= q < numReqs -> t_at (startPosBuf (cub s)) q = start q) ->
  (forall q, 0 <= q <= numReqs -> t_at (cuSeqlensBuf (cub s)) q = cu q) ->
  wp (BuildCompressedPrefix_loop e n i (pre i)) (fun _ s' => cub_ok e s' /\ cgm s' = cgm s /\ tables_ok s') s.
Proof.
  revert i s. induction n as [|n IH]; intros i s Hi Hn Hub Hpre Hst Hcu; cbn [BuildCompressedPrefix_loop].
  - apply wp_ret. split_and!; [done|done|]. split; [|done]. intros k Hk. apply Hpre. lia.
  - destruct (buffer_sizes e Htd s Hub) as (B1 & B2 & B3 & _).
    apply wp_bind, wp_GetValue; [cs_simpl; lia|]. apply wp_bind, wp_GetValue; [cs_simpl; lia|].
    apply wp_bind, wp_GetValue; [cs_simpl; lia|]. cs_simpl. rewrite Hst, !Hcu by lia. rewrite compressedRows_eq.
    rewrite <- pre_succ by lia. pose proof (pre_range (i + 1) ltac:(lia)). cbv zeta.
    rewrite u32_id by (unfold fits_u32; lia). apply wp_bind, wp_SetValue; [cs_simpl; lia|].
    eapply wp_mono; [apply IH; try lia; cs_simpl|]; [exact Hub| |exact Hst|exact Hcu|].
    + intros k Hk. destruct (decide (k = i + 1)) as [->|]; [apply write_one_in|].
      rewrite write_one_out by done. apply Hpre. lia.
    + intros [] s' Hpost. exact Hpost.
Qed.

Lemma BuildCompressedPrefix_spec s :
  cub_ok e s -> wp (BuildCompressedPrefix e) (fun _ s' => cub_ok e s' /\ cgm s' = cgm s /\ tables_ok s') s.
Proof.
  intros Hub. destruct (buffer_sizes e Htd s Hub) as (B1 & B2 & B3 & _). pose proof (ct_reqs e Htd).
  pose proof (ci_cu e Hin). pose proof (ci_start e Hin). unfold BuildCompressedPrefix.
  apply wp_bind, wp_DataCopyPad; [apply in_tensor_true; cs_simpl; lia|apply in_tensor_true; lia|].
  apply wp_bind, wp_DataCopyPad; [apply in_tensor_true; cs_simpl; lia|apply in_tensor_true; lia|].
  apply wp_Pipe_seq; [apply Hub|]. apply wp_bind, wp_SetValue; [cs_simpl; lia|].
  eapply wp_mono; [apply BuildCompressedPrefix_loop_spec; try lia; cs_simpl|]; [exact Hub|..].
  - intros k Hk. replace k with 0 by lia. rewrite write_one_in. done.
  - intros q Hq. rewrite <- (Z.add_0_l q). by rewrite write_range_in.
  - intros q Hq. rewrite <- (Z.add_0_l q). by rewrite write_range_in by lia.
  - intros [] s' Hpost. exact Hpost.
Qed.

(** The linear search stops at the request of the row. *)
Lemma FindRequest_spec row s (Q : Z -> CS T -> Prop) :
  cub_ok e s -> tables_ok s ->
  (forall q, 0 <= q <= numReqs -> (forall j, 0 <= j < q -> pre (j + 1) <= row) -> (q < numReqs -> row < pre (q + 1)) -> Q q s) ->
  wp (FindRequest e row) Q s.
Proof.
  intros Hub [Hpre _] HQ. destruct (buffer_sizes e Htd s Hub) as (B1 & _). pose proof (ct_reqs e Htd). unfold FindRequest.
  apply (wp_loop (fun q s' => s' = s /\ 0 <= q <= numReqs /\ forall j, 0 <= j < q -> pre (j + 1) <= row)
    (fun q => Z.to_nat (numReqs - q))); [|lia|split_and!; [done|lia|lia|lia]].
  intros q s' (-> & Hq & Hlow). destruct (q <? numReqs) eqn:E; bool_prop.
  - apply wp_bind, wp_GetValue; [cs_simpl; lia|]. cs_simpl. rewrite Hpre by lia.
    rewrite u32_i32 by (apply pre_range; lia). apply wp_ret.
    destruct (pre (q + 1) <=? row) eqn:E1; bool_prop; [|by apply HQ].
    split; [|lia]. split_and!; [done|lia|lia|]. intros j Hj. destruct (decide (j = q)) as [->|]; [done|]. apply Hlow. lia.
  - apply wp_ret, HQ; [done|done|lia].
Qed.

(** ** Rows written so far *)

Lemma row_is_trans g g' r c : row_is e g' r (row_of e g r) -> row_is e g r c -> row_is e g' r c.
Proof.
  intros [H1 H2] [H3 H4]. split.
  - intros k Hk. destruct (H1 k Hk) as [-> ->]. apply (H3 k Hk).
  - intros k Hk. rewrite H2 by done. apply (H4 k Hk).
Qed.

Lemma row_is_refl g r : row_is e g r (row_of e g r).
Proof. by split. Qed.

Lemma row_result_same r g g' : row_is e g' r (row_of e g r) -> row_result r g -> row_result r g'.
Proof.
  intros Hs [H1 H2]. split.
  - intros q Hq. destruct (H1 q Hq) as [Hr|[Hf Hr]]; [left|right; split; [done|]]; by eapply row_is_trans.
  - intros Hr. eapply row_is_trans; [exact Hs|by apply H2].
Qed.

(** The rows in [D] hold their results, the others are untouched. *)
Definition rows_done (D : Z -> Prop) g g' : Prop :=
  (cm_gm_ok e g -> cm_gm_ok e g') /\
  (forall r, D r -> row_result r g') /\
  (forall r, ~ D r -> row_is e g' r (row_of e g r)).

Lemma rows_done_refl g : rows_done (fun _ => False) g g.
Proof. split_and!; [done|done|]. intros r _. apply row_is_refl. Qed.

Lemma rows_done_trans (D1 D2 : Z -> Prop) g g1 g2 :
  (forall r, D2 r \/ ~ D2 r) -> rows_done D1 g g1 -> rows_done D2 g1 g2 -> rows_done (fun r => D1 r \/ D2 r) g g2.
Proof.
  intros Hdec (H1 & H2 & H3) (H4 & H5 & H6). split_and!; [auto| |].
  - intros r Hr. destruct (Hdec r) as [Hd|Hn]; [by apply H5|]. destruct Hr as [Hr|]; [|done].
    eapply row_result_same; [by apply H6|by apply H2].
  - intros r Hr. eapply row_is_trans; [apply H6; tauto|]. apply H3. tauto.
Qed.

Lemma rows_done_ext (D D' : Z -> Prop) g g' : (forall r, D r <-> D' r) -> rows_done D g g' -> rows_done D' g g'.
Proof. intros HD (H1 & H2 & H3). split_and!; [done| |]; intros r Hr; [apply H2|apply H3]; by rewrite HD. Qed.

(** An interval of rows; the loops extend it to the right. *)
Definition span (lo hi r : Z) : Prop := lo <= r < hi.

Lemma span_dec lo hi r : span lo hi r \/ ~ span lo hi r.
Proof. unfold span. lia. Qed.

Lemma rows_done_app lo mid hi g g1 g2 :
  lo <= mid <= hi -> rows_done (span lo mid) g g1 -> rows_done (span mid hi) g1 g2 -> rows_done (span lo hi) g g2.
Proof.
  intros Hm H1 H2. eapply rows_done_ext; [|by eapply rows_done_trans; [apply span_dec|..]]. unfold span. lia.
Qed.

Lemma rows_done_empty lo hi g : hi <= lo -> rows_done (span lo hi) g g.
Proof. intros Hle. eapply rows_done_ext; [|apply rows_done_refl]. unfold span. lia. Qed.

(** A padding tile beyond the last request. *)
Lemma pad_tile_done o n g g' :
  pre numReqs <= o -> tile_written e g g' o n (fun _ => pad_row e) -> rows_done (span o (o + n)) g g'.
Proof.
  intros Ho (H1 & H2 & H3). split_and!; [done| |].
  - intros r Hr. unfold span in Hr. replace r with (o + (r - o)) by lia. specialize (H2 (r - o) ltac:(lia)).
    split; [|done]. intros q (Hq & Hqr). pose proof (pre_mono (q + 1) numReqs ltac:(lia)). lia.
  - intros r Hr. apply H3. unfold span in Hr. lia.
Qed.

(** A row belongs to one request. *)
Lemma in_request_unique q q' r : in_request q r -> in_request q' r -> q = q'.
Proof.
  intros [Hq Hr] [Hq' Hr']. destruct (Z.lt_trichotomy q q') as [Hlt|[?|Hlt]]; [|done|].
  - pose proof (pre_mono (q + 1) q' ltac:(lia)). lia.
  - pose proof (pre_mono (q' + 1) q ltac:(lia)). lia.
Qed.

(** Inside one cache block the tests of a later row imply those of an earlier. *)
Lemma in_range_mono q p i rows :
  0 <= p -> p mod kvBlockSize + rows <= kvBlockSize -> 0 <= i < rows ->
  in_table e q (p + i) = in_table e q p /\ (in_range e q (p + rows - 1) = true -> in_range e q (p + i) = true).
Proof.
  intros Hp Hb Hi. pose proof (ct_ratio e Htd) as [Hr _].
  destruct (tile_block e Htd p i rows Hp Hb Hi) as [Hd Hm].
  destruct (tile_block e Htd p (rows - 1) rows Hp Hb ltac:(lia)) as [Hd' Hm'].
  replace (p + (rows - 1)) with (p + rows - 1) in * by lia.
  unfold in_table, in_range, block_id. rewrite Hd, Hd', Hm, Hm'. split; [done|].
  intros Hr1. apply andb_prop in Hr1 as [H1 H2]. apply andb_true_intro. split.
  - destruct (cm_slotMappingFormat td =? SLOT_MAPPING_FLAT); [|done]. cbn [negb orb] in *. bool_prop. apply Z.leb_le. lia.
  - bool_prop. apply Z.ltb_lt. nia.
Qed.

(** A tile of a request. *)
Lemma request_tile_done q o n g g' :
  in_request q o -> 0 < n -> o + n <= pre (q + 1) -> o + n <= numRows -> 0 <= pos_of q o ->
  pos_of q o mod kvBlockSize + n <= kvBlockSize ->
  tile_written e g g' o n (fun i => if in_table e q (pos_of q o) && in_range e q (pos_of q o + n - 1)
                                    then ref_row e q (pos_of q o + i) else pad_row e) ->
  rows_done (span o (o + n)) g g'.
Proof.
  intros [Hq Hqo] Hn Hend Hrow Hp Hb (H1 & H2 & H3). split_and!; [done| |].
  - intros r Hr. unfold span in Hr. specialize (H2 (r - o) ltac:(lia)). replace (o + (r - o)) with r in H2 by lia.
    assert (in_request q r) as Hqr by (split; [done|lia]). split.
    + intros q' Hq'. rewrite (in_request_unique q' q r Hq' Hqr) in *.
      assert (pos_of q r = pos_of q o + (r - o)) as -> by (unfold pos_of; lia). cbv zeta.
      destruct (in_range_mono q (pos_of q o) (r - o) n Hp Hb ltac:(lia)) as [-> Hmono].
      destruct (in_table e q (pos_of q o)); cbn [andb] in *; [|by left].
      destruct (in_range e q (pos_of q o + n - 1)) eqn:El; [rewrite Hmono by done; by left|].
      destruct (in_range e q (pos_of q o + (r - o))) eqn:Er; [|by left]. right. split; [|done].
      intros Hf. specialize (Hf (o + n - 1) ltac:(split; [done|lia]) ltac:(lia)).
      replace (pos_of q (o + n - 1)) with (pos_of q o + n - 1) in Hf by (unfold pos_of; lia). congruence.
    + intros Hge. pose proof (pre_mono (q + 1) numReqs ltac:(lia)). lia.
  - intros r Hr. apply H3. unfold span in Hr. lia.
Qed.

(** ** The loops *)

Lemma MinU32_min a b : MinU32 a b = Z.min a b.
Proof. unfold MinU32. destruct (Z.ltb_spec a b); lia. Qed.

(** Positions of a request's rows. *)
Lemma pos_range q r : in_request q r -> 0 <= pos_of q r /\ pos_of q r + (pre (q + 1) - r) < 2 ^ 32 /\
  (pos_of q r + (pre (q + 1) - r)) * ratio <= start q + (cu (q + 1) - cu q) /\ 0 <= start q.
Proof.
  intros [Hq Hr]. rewrite pre_succ in * by lia. unfold pos_of, rows_of in *. pose proof (ct_ratio e Htd) as [Hrt _].
  pose proof (ci_start_i32 e Hin q) as H1. pose proof (ci_cu_i32 e Hin q) as H2. pose proof (ci_cu_i32 e Hin (q + 1)) as H3.
  pose proof (Hcu0 q ltac:(lia)). unfold fits_i32 in *. destruct (_ && _) eqn:E; bool_prop; [|lia].
  pose proof (Z.div_pos (start q) ratio ltac:(lia) ltac:(lia)).
  set (S := start q + (cu (q + 1) - cu q)) in *. pose proof (Z.mul_div_le S ratio ltac:(lia)).
  pose proof (Z.div_le_upper_bound S ratio S ltac:(lia) ltac:(nia)).
  replace (start q / ratio + (r - pre q) + (pre q + (S / ratio - start q / ratio) - r)) with (S / ratio) by lia.
  split_and!; lia.
Qed.

(** What every step keeps. *)
Definition core_ok s : Prop := cub_ok e s /\ tables_ok s /\ cm_gm_ok e (cgm s).

Lemma ProcessRequestRows_spec q o rows s :
  in_request q o -> 0 <= rows -> o + rows <= pre (q + 1) -> o + rows <= numRows -> core_ok s ->
  wp (ProcessRequestRows e q o (pos_of q o) rows)
     (fun _ s' => core_ok s' /\ rows_done (span o (o + rows)) (cgm s) (cgm s')) s.
Proof.
  intros Hq Hrows Hend Hnum Hok. pose proof (pre_range q ltac:(destruct Hq; lia)) as Hpq.
  pose proof (ct_block e Htd) as [Hk HkM]. pose proof (ct_tile e Htd) as Ht. unfold INT32_MAX in *.
  destruct (pos_range q o Hq) as (Hp0 & Hp32 & _). pose proof Hq as (_ & Hqo).
  unfold ProcessRequestRows.
  apply (wp_loop (fun '(o', p', n') s' => o <= o' /\ o' + n' = o + rows /\ 0 <= n' /\ p' = pos_of q o' /\ core_ok s' /\
      rows_done (span o o') (cgm s) (cgm s')) (fun '(_, _, n') => Z.to_nat n')); [|lia|].
  2: { split_and!; try done; try lia. apply rows_done_empty. lia. }
  intros [[o' p'] n'] s' (Ho & Hn & Hn0 & -> & (Hub & Htab & Hgm) & Hdone). rewrite Z.gtb_ltb.
  destruct (0 <? n') eqn:E; bool_prop.
  2: { apply wp_ret. split; [done|]. by replace (o + rows) with o' by lia. }
  assert (in_request q o') as Hq' by (split; [apply Hq|lia]).
  assert (0 <= pos_of q o' /\ pos_of q o' + n' < 2 ^ 32) as [Hp' Hpn] by (unfold pos_of in *; lia).
  pose proof (Z.mod_pos_bound (pos_of q o') kvBlockSize Hk). cbv zeta. rewrite !MinU32_min, rem_nonneg_mod by lia.
  rewrite (u32_id (kvBlockSize - _)) by (unfold fits_u32; lia).
  set (n := Z.min (Z.min n' (cm_tileRows td)) (kvBlockSize - pos_of q o' mod kvBlockSize)).
  assert (0 < n <= n' /\ n <= cm_tileRows td /\ pos_of q o' mod kvBlockSize + n <= kvBlockSize) as (Hn1 & Hn2 & Hn3) by (subst n; lia).
  clearbody n.
  eapply wp_seq; [apply (ProcessTile_spec e Htd Hin Hrows32 o' q (pos_of q o') n s'); try done|].
  - split_and!; lia.
  - split_and!; try done; try lia; apply Hq.
  - intros [] s2 (Hub2 & Hst2 & Hw). apply wp_ret. rewrite !u32_id by (unfold fits_u32; lia).
    apply request_tile_done in Hw as Hw'; [|done|lia|lia|lia|lia|lia].
    split; [|lia]. split_and!; [lia|lia|lia|unfold pos_of; lia| |].
    + split_and!; [done|by eapply tables_same|]. by apply Hw'.
    + by eapply rows_done_app; [|exact Hdone|exact Hw']; lia.
Qed.

(** The range of a core. *)
Lemma SplitRange_eq total :
  0 <= total < 2 ^ 31 -> 0 <= cBlockIdx e < cBlockNum e -> total + cBlockNum e <= 2 ^ 31 ->
  let per := (total + cBlockNum e - 1) / cBlockNum e in
  SplitRange e total = (Z.min (cBlockIdx e * per) total, Z.min (Z.min (cBlockIdx e * per) total + per) total).
Proof.
  intros Ht Hb Hf per. unfold SplitRange, MaxU32. rewrite Z.gtb_ltb.
  assert ((if 1 <? cBlockNum e then cBlockNum e else 1) = cBlockNum e) as -> by (destruct (Z.ltb_spec 1 (cBlockNum e)); lia).
  cbv zeta. rewrite (u32_id (total + _ - 1)) by (unfold fits_u32; lia). rewrite quot_nonneg_div by lia. fold per.
  pose proof (ceil_quot_spec total (cBlockNum e) ltac:(lia) ltac:(lia)) as (H1 & H2 & H3).
  rewrite quot_nonneg_div in H1, H2, H3 by lia. fold per in H1, H2, H3.
  assert (per <= total) by nia. assert (cBlockIdx e * per <= (cBlockNum e - 1) * per) by nia.
  rewrite !MinU32_min, (u32_id (cBlockIdx e * per)) by (unfold fits_u32; nia).
  rewrite u32_id by (unfold fits_u32; lia). done.
Qed.

Definition valid_rows : Z := Z.min (pre numReqs) numRows.

Context (Hblk : 0 <= cBlockIdx e < cBlockNum e) (Hfit : numRows + cBlockNum e <= 2 ^ 31).

(** The share of this core of [total] rows. *)
Definition share (total : Z) : Z * Z :=
  let per := (total + cBlockNum e - 1) / cBlockNum e in
  let begin := Z.min (cBlockIdx e * per) total in
  (begin, Z.min (begin + per) total).

Lemma share_bounds total : 0 <= total -> 0 <= (share total).1 <= total /\ (share total).1 <= (share total).2 <= total.
Proof.
  intros Ht. unfold share. cbn [fst snd]. pose proof (Z.div_pos (total + cBlockNum e - 1) (cBlockNum e) ltac:(lia) ltac:(lia)). nia.
Qed.

Lemma ProcessValidRows_spec s :
  core_ok s ->
  wp (ProcessValidRows e valid_rows)
     (fun _ s' => core_ok s' /\ rows_done (span (share valid_rows).1 (share valid_rows).2) (cgm s) (cgm s')) s.
Proof.
  intros Hok. pose proof (ct_rows e Htd). pose proof (ct_reqs e Htd). pose proof (pre_range numReqs ltac:(lia)).
  assert (0 <= valid_rows <= numRows) as Hv by (unfold valid_rows; lia).
  unfold ProcessValidRows. rewrite SplitRange_eq by (done || lia). cbv zeta. fold (share valid_rows).
  pose proof (share_bounds valid_rows ltac:(lia)) as Hsh.
  change (Z.min (cBlockIdx e * _) valid_rows) with (share valid_rows).1.
  change (Z.min ((share valid_rows).1 + _) valid_rows) with (share valid_rows).2.
  destruct (share valid_rows) as [begin end_]. cbn [fst snd] in *. rewrite Z.geb_leb.
  destruct (end_ <=? begin) eqn:E; bool_prop; [apply wp_ret; split; [done|by apply rows_done_empty]|].
  pose proof Hok as (Hub & Htab & Hgm). apply wp_bind, FindRequest_spec; [done|done|]. intros q0 Hq0 Hlow Hup.
  apply (wp_loop (fun '(row, q) s' => begin <= row <= end_ /\ 0 <= q <= numReqs /\ pre q <= row /\ core_ok s' /\
      rows_done (span begin row) (cgm s) (cgm s'))
    (fun '(row, q) => (Z.to_nat (end_ - row) + Z.to_nat (numReqs - q))%nat)); [|lia|].
  2: { split_and!; try done; try lia; [|apply rows_done_empty; lia].
       destruct (decide (q0 = 0)) as [->|]; [rewrite pre_0; lia|]. specialize (Hlow (q0 - 1) ltac:(lia)).
       by replace (q0 - 1 + 1) with q0 in Hlow by lia. }
  intros [row q] s' (Hrow & Hq & Hpq & (Hub' & Htab' & Hgm') & Hdone).
  destruct ((row <? end_) && (q <? numReqs)) eqn:Eg; bool_prop.
  2: { apply wp_ret. split; [done|]. assert (row = end_) as ->; [|done].
       destruct Eg as [?|?]; bool_prop; [lia|]. assert (q = numReqs) as -> by lia. unfold valid_rows in *. lia. }
  destruct (buffer_sizes e Htd s' Hub') as (B1 & B2 & _). destruct Htab' as [Hpre Hst].
  apply wp_bind, wp_GetValue; [cs_simpl; lia|]. apply wp_bind, wp_GetValue; [cs_simpl; lia|]. cs_simpl.
  rewrite !Hpre by lia. pose proof (pre_range q ltac:(lia)) as R1. pose proof (pre_range (q + 1) ltac:(lia)) as R2.
  rewrite !u32_i32 by done. rewrite Z.geb_leb. destruct (pre (q + 1) <=? row) eqn:E1; bool_prop.
  { apply wp_ret. split; [|lia]. split_and!; try done; try lia. }
  assert (in_request q row) as Hreq by (split; lia).
  apply wp_bind, wp_GetValue; [cs_simpl; lia|]. cs_simpl. rewrite Hst by lia.
  destruct (pos_range q row Hreq) as (Hp0 & Hp32 & _ & Hs0). pose proof (ct_ratio e Htd) as [Hrt _].
  cbv zeta. rewrite MinU32_min, !quot_nonneg_div by lia.
  pose proof (Z.div_pos (start q) ratio Hs0 ltac:(lia)). pose proof (ci_start_i32 e Hin q) as H32. unfold fits_i32 in H32.
  pose proof (Z.div_le_upper_bound (start q) ratio (start q) ltac:(lia) ltac:(nia)).
  rewrite (u32_id (start q / ratio)), (u32_id (row - pre q)), (u32_id (end_ - row)), (u32_id (pre (q + 1) - row))
    by (unfold fits_u32; lia).
  rewrite (u32_id (_ + (row - pre q))) by (unfold fits_u32, pos_of in *; lia). fold (pos_of q row).
  set (n := Z.min (end_ - row) (pre (q + 1) - row)). assert (0 < n <= end_ - row /\ row + n <= pre (q + 1)) as [Hn1 Hn2] by (subst n; lia).
  clearbody n.
  eapply wp_seq; [apply (ProcessRequestRows_spec q row n s'); try done; lia|].
  intros [] s2 (Hok2 & Hd2). apply wp_ret. rewrite u32_id by (unfold fits_u32; lia). split; [|lia].
  split_and!; try done; try lia. eapply rows_done_app; [|exact Hdone|exact Hd2]. lia.
Qed.

Lemma ProcessPaddingRows_spec s :
  core_ok s ->
  wp (ProcessPaddingRows e valid_rows)
     (fun _ s' => core_ok s' /\
        rows_done (span (valid_rows + (share (numRows - valid_rows)).1) (valid_rows + (share (numRows - valid_rows)).2))
          (cgm s) (cgm s')) s.
Proof.
  intros Hok. pose proof (ct_rows e Htd). pose proof (ct_reqs e Htd). pose proof (ct_tile e Htd).
  pose proof (pre_range numReqs ltac:(lia)). assert (0 <= valid_rows <= numRows) as Hv by (unfold valid_rows; lia).
  unfold ProcessPaddingRows. rewrite Z.geb_leb. pose proof (share_bounds (numRows - valid_rows) ltac:(lia)) as Hsh.
  destruct (numRows <=? valid_rows) eqn:E; bool_prop.
  { apply wp_ret. split; [done|]. apply rows_done_empty. lia. }
  rewrite (u32_id (numRows - valid_rows)) by (unfold fits_u32; lia). cbv zeta.
  rewrite SplitRange_eq by (done || lia). cbv zeta.
  change (Z.min (cBlockIdx e * _) (numRows - valid_rows)) with (share (numRows - valid_rows)).1.
  change (Z.min ((share (numRows - valid_rows)).1 + _) (numRows - valid_rows)) with (share (numRows - valid_rows)).2.
  destruct (share (numRows - valid_rows)) as [begin end_]. cbn [fst snd] in *.
  rewrite (u32_id (valid_rows + begin)), (u32_id (valid_rows + end_)) by (unfold fits_u32; lia).
  apply (wp_loop (fun row s' => valid_rows + begin <= row <= valid_rows + end_ /\ core_ok s' /\
      rows_done (span (valid_rows + begin) row) (cgm s) (cgm s')) (fun row => Z.to_nat (valid_rows + end_ - row))); [|lia|].
  2: { split_and!; try lia; try done. apply rows_done_empty. lia. }
  intros row s' (Hrow & (Hub & Htab & Hgm) & Hdone). destruct (row <? valid_rows + end_) eqn:E1; bool_prop.
  2: { apply wp_ret. split; [done|]. by replace (valid_rows + end_) with row by lia. }
  rewrite MinU32_min, (u32_id (valid_rows + end_ - row)) by (unfold fits_u32; lia).
  set (n := Z.min _ _). assert (0 < n <= cm_tileRows td /\ row + n <= valid_rows + end_) as [Hn1 Hn2] by (subst n; lia). clearbody n.
  eapply wp_seq; [apply (WriteInvalidTile_spec e Htd Hrows32 row n s'); try done; split_and!; lia|].
  intros [] s2 (Hub2 & Hst2 & Hw). apply wp_ret. rewrite u32_id by (unfold fits_u32; lia).
  apply pad_tile_done in Hw as Hw'; [|unfold valid_rows in *; lia]. split; [|lia]. split_and!; [lia|lia| |].
  - split_and!; [done|by eapply tables_same|]. by apply Hw'.
  - eapply rows_done_app; [|exact Hdone|exact Hw']. lia.
Qed.

(** All rows of this core. *)
Definition core_rows (r : Z) : Prop :=
  span (share valid_rows).1 (share valid_rows).2 r \/
  span (valid_rows + (share (numRows - valid_rows)).1) (valid_rows + (share (numRows - valid_rows)).2) r.

Lemma Process_spec s :
  cub_ok e s -> cm_gm_ok e (cgm s) ->
  wp (Process e) (fun _ s' => cub_ok e s' /\ rows_done core_rows (cgm s) (cgm s')) s.
Proof.
  intros Hub Hgm. unfold Process. pose proof (ct_reqs e Htd).
  eapply wp_seq; [by apply BuildCompressedPrefix_spec|]. intros [] s1 (Hub1 & Hg1 & Htab1).
  destruct (buffer_sizes e Htd s1 Hub1) as (B1 & _). apply wp_bind, wp_GetValue; [cs_simpl; lia|]. cs_simpl.
  rewrite (proj1 Htab1) by lia. rewrite u32_i32 by (apply pre_range; lia). rewrite MinU32_min. cbv zeta. fold valid_rows.
  rewrite <- Hg1 in Hgm |- *.
  eapply wp_seq; [by apply ProcessValidRows_spec|]. intros [] s2 (Hok2 & Hd2).
  eapply wp_mono; [by apply ProcessPaddingRows_spec|]. intros [] s3 (Hok3 & Hd3). split; [apply Hok3|].
  eapply rows_done_trans; [apply span_dec|exact Hd2|exact Hd3].
Qed.
End Rows.
