(* ===== verification/CompressorHost.v ===== *)
(** CompressorMetadata on the host
    ([op_host/compressor_metadata_tiling.cpp]): validation of the call and the
    choice of tile size and number of cores. *)

From S2P Require Import Prelude AscendC TilingContext Compressor CompressorTile.

Definition ROPE_COS_INDEX : Z := 0.
Definition ROPE_SIN_INDEX : Z := 1.
Definition CU_SEQLENS_INDEX : Z := 2.
Definition START_POS_INDEX : Z := 3.
Definition KV_BLOCK_TABLE_INDEX : Z := 4.
Definition COMPRESS_COS_INDEX : Z := 0.
Definition COMPRESS_SIN_INDEX : Z := 1.
Definition SLOT_MAPPING_INDEX : Z := 2.
Definition SLOT_MAPPING_BLOCK_OFFSET : Z := 2.
Definition MAX_UINT32_VALUE : Z := 0xFFFFFFFF.
Definition MAX_TILE_ROWS : Z := 512.
Definition MAX_DATACOPY_BLOCK_COUNT : Z := 4095.
Definition ROWS_PER_CORE_TARGET : Z := 64.
Definition UB_RESERVED_BYTES : Z := 16 * 1024.

Definition AlignUp (value align : Z) : Z := u32 (u64 (value + align - 1) /c align * align).
Definition CeilDiv (lhs rhs : Z) : Z := u32 (u64 (lhs + rhs - 1) /c rhs).

Record CompressorLaunch : Type := {
  cl_tiling : CompressorMetadataTilingData;
  cl_blockDim : Z;
  cl_tilingKey : Z }.

(** Core number and unified-buffer size (51-67). *)
Definition cm_platform (context : TilingContext) : HostM (Z * Z) :=
  platformInfo ← OP_CHECK_NULL (GetPlatformInfoPtr context) "platformInfo is null";
  let aivCoreNum := if GetCoreNumAiv platformInfo =? 0 then GetCoreNum platformInfo else GetCoreNumAiv platformInfo in
  OP_CHECK_IF (aivCoreNum =? 0) "Failed to get AIV core num." ;;
  let ubSize := GetCoreMemSizeUB platformInfo in
  OP_CHECK_IF (ubSize =? 0) "Failed to get UB size." ;;
  Ok (aivCoreNum, ubSize).

(** Output shapes (69-95): rows and rotary dimension. *)
Definition cm_outputs (context : TilingContext) : HostM (Z * Z * list Z) :=
  outputShape ← OP_CHECK_NULL (GetOutputShape context COMPRESS_COS_INDEX) "compressCos is null";
  compressSinShape ← OP_CHECK_NULL (GetOutputShape context COMPRESS_SIN_INDEX) "compressSin is null";
  slotMappingShape ← OP_CHECK_NULL (GetOutputShape context SLOT_MAPPING_INDEX) "slotMapping is null";
  let outputDimNum := GetDimNum outputShape in
  OP_CHECK_IF (outputDimNum <? 2) "compressCos dim num should be at least 2." ;;
  OP_CHECK_IF (negb (GetDimNum compressSinShape =? outputDimNum)) "compressCos and compressSin dim num mismatch." ;;
  check_each (zrange 0 outputDimNum) (fun dimIdx =>
    OP_CHECK_IF (negb (GetDim compressSinShape dimIdx =? GetDim outputShape dimIdx)) "compressCos and compressSin shape mismatch.") ;;
  let numRows := GetDim outputShape 0 in
  let ropeDim := GetDim outputShape (outputDimNum - 1) in
  OP_CHECK_IF ((numRows <=? 0) || (ropeDim <=? 0) || (numRows >? MAX_UINT32_VALUE) || (ropeDim >? MAX_UINT32_VALUE))
    "compressCos shape is invalid." ;;
  Ok (numRows, ropeDim, slotMappingShape).

(** Input shapes (97-140). *)
Record cm_shapes : Type := {
  cs_ropeRows : Z;
  cs_cuSeqlensDim0 : Z;
  cs_startPosDim0 : Z;
  cs_kvBlockTableRows : Z;
  cs_kvBlockTableStride : Z }.

Definition cm_inputs (context : TilingContext) (ropeDim : Z) : HostM cm_shapes :=
  ropeCosShape ← OP_CHECK_NULL (GetInputShape context ROPE_COS_INDEX) "ropeCos is null";
  ropeSinShape ← OP_CHECK_NULL (GetInputShape context ROPE_SIN_INDEX) "ropeSin is null";
  cuSeqlensShape ← OP_CHECK_NULL (GetInputShape context CU_SEQLENS_INDEX) "cuSeqlens is null";
  startPosShape ← OP_CHECK_NULL (GetInputShape context START_POS_INDEX) "startPos is null";
  kvBlockTableShape ← OP_CHECK_NULL (GetInputShape context KV_BLOCK_TABLE_INDEX) "kvBlockTable is null";
  OP_CHECK_IF (negb (GetDimNum ropeCosShape =? 2) || negb (GetDimNum ropeSinShape =? 2)) "ropeCos and ropeSin should be 2D tensors." ;;
  let ropeRows := GetDim ropeCosShape 0 in
  let ropeCosDim := GetDim ropeCosShape 1 in
  OP_CHECK_IF ((ropeRows <=? 0) || (ropeCosDim <=? 0) || (ropeRows >? MAX_UINT32_VALUE) || negb (ropeCosDim =? ropeDim) ||
     negb (GetDim ropeSinShape 0 =? ropeRows) || negb (GetDim ropeSinShape 1 =? ropeCosDim)) "ropeCos and ropeSin shape mismatch." ;;
  let cuSeqlensDim0 := GetDim cuSeqlensShape 0 in
  OP_CHECK_IF ((cuSeqlensDim0 <? 2) || (cuSeqlensDim0 >? MAX_UINT32_VALUE)) "cuSeqlens dim0 should be at least 2." ;;
  OP_CHECK_IF (negb (GetDimNum startPosShape =? 1) || (GetDim startPosShape 0 <=? 0) ||
     (GetDim startPosShape 0 >? MAX_UINT32_VALUE)) "startPos should be a non-empty 1D tensor." ;;
  OP_CHECK_IF (negb (GetDimNum kvBlockTableShape =? 2)) "kvBlockTable should be a 2D tensor." ;;
  let kvBlockTableRows := GetDim kvBlockTableShape 0 in
  let kvBlockTableStride := GetDim kvBlockTableShape 1 in
  OP_CHECK_IF ((kvBlockTableRows <=? 0) || (kvBlockTableStride <=? 0) || (kvBlockTableRows >? MAX_UINT32_VALUE) ||
     (kvBlockTableStride >? MAX_UINT32_VALUE)) "kvBlockTable shape is invalid." ;;
  Ok {| cs_ropeRows := ropeRows; cs_cuSeqlensDim0 := cuSeqlensDim0; cs_startPosDim0 := GetDim startPosShape 0;
        cs_kvBlockTableRows := kvBlockTableRows; cs_kvBlockTableStride := kvBlockTableStride |}.

(** Attributes (142-179). *)
Record cm_attrs : Type := {
  ca_kvBlockSize : Z;
  ca_slotMappingFormat : Z;
  ca_cmpRatio : Z;
  ca_actualNumReqs : Z }.

Definition cm_check_attrs (context : TilingContext) (numRows : Z) (slotMappingShape : list Z) (sh : cm_shapes)
    : HostM cm_attrs :=
  OP_CHECK_IF (negb (HasAttrs context)) "attrs is null" ;;
  kvBlockSize ← OP_CHECK_NULL (GetAttrInt context 0) "kvBlockSize is null";
  slotMappingFormat ← OP_CHECK_NULL (GetAttrInt context 1) "slotMappingFormat is null";
  cmpRatio ← OP_CHECK_NULL (GetAttrInt context 2) "cmpRatio is null";
  actualNumReqs ← OP_CHECK_NULL (GetAttrInt context 3) "actualNumReqs is null";
  OP_CHECK_IF ((kvBlockSize <=? 0) || (kvBlockSize >? MAX_INT32_VALUE)) "kvBlockSize should be in (0, INT32_MAX]." ;;
  OP_CHECK_IF ((cmpRatio <=? 0) || (cmpRatio >? MAX_UINT32_VALUE)) "cmpRatio should be in (0, UINT32_MAX]." ;;
  OP_CHECK_IF (negb (slotMappingFormat =? SLOT_MAPPING_FLAT) && negb (slotMappingFormat =? SLOT_MAPPING_BLOCK_OFFSET))
    "slotMappingFormat should be 1(flat) or 2(block_offset)." ;;
  let slotMappingDimNum := GetDimNum slotMappingShape in
  OP_CHECK_IF (((slotMappingFormat =? SLOT_MAPPING_FLAT) &&
      (negb (slotMappingDimNum =? 1) || negb (GetDim slotMappingShape 0 =? numRows))) ||
     ((slotMappingFormat =? SLOT_MAPPING_BLOCK_OFFSET) &&
      (negb (slotMappingDimNum =? 2) || negb (GetDim slotMappingShape 0 =? numRows) || negb (GetDim slotMappingShape 1 =? 2))))
    "slotMapping shape does not match slotMappingFormat." ;;
  OP_CHECK_IF ((actualNumReqs <=? 0) || (actualNumReqs >=? cs_cuSeqlensDim0 sh) || (actualNumReqs >? cs_startPosDim0 sh) ||
     (actualNumReqs >? cs_kvBlockTableRows sh) || (actualNumReqs >? MAX_UINT32_VALUE)) "actualNumReqs is invalid." ;;
  Ok {| ca_kvBlockSize := kvBlockSize; ca_slotMappingFormat := slotMappingFormat; ca_cmpRatio := cmpRatio;
        ca_actualNumReqs := actualNumReqs |}.

(** Element type (192-222): tiling key and size. *)
Definition cm_dtype (context : TilingContext) : HostM (Z * Z) :=
  ropeDtype ← OP_CHECK_NULL (GetInputDesc context ROPE_COS_INDEX) "ropeCos desc is null";
  ropeSinDtype ← OP_CHECK_NULL (GetInputDesc context ROPE_SIN_INDEX) "ropeSin desc is null";
  compressCosDtype ← OP_CHECK_NULL (GetOutputDesc context COMPRESS_COS_INDEX) "compressCos desc is null";
  compressSinDtype ← OP_CHECK_NULL (GetOutputDesc context COMPRESS_SIN_INDEX) "compressSin desc is null";
  OP_CHECK_IF (bool_decide (ropeSinDtype <> ropeDtype) || bool_decide (compressCosDtype <> ropeDtype) ||
     bool_decide (compressSinDtype <> ropeDtype)) "rope and compress output dtypes should match." ;;
  match ropeDtype with
  | DT_FLOAT => Ok (1, 4)
  | DT_FLOAT16 => Ok (2, 2)
  | DT_BF16 => Ok (3, 2)
  | _ => Err (GRAPH_FAILED "Unsupported rope dtype.")
  end.

(** Sizes of the buffers and the number of rows per tile (224-257). *)
Record cm_plan : Type := {
  cp_ropeRowBytes : Z;
  cp_ropeRowBytesAligned : Z;
  cp_slotCols : Z;
  cp_tileRows : Z }.

Definition cm_plan_tile (ubSize ropeDim dtypeSize : Z) (at_ : cm_attrs) : HostM cm_plan :=
  let actualNumReqs := u32 (ca_actualNumReqs at_) in
  let cmpRatio := u32 (ca_cmpRatio at_) in
  OP_CHECK_IF ((u64 (ropeDim * dtypeSize) >? MAX_UINT32_VALUE) || (u64 ((actualNumReqs + 1) * 4) >? MAX_UINT32_VALUE))
    "tiling byte size exceeds UINT32_MAX." ;;
  let ropeRowBytes := u32 (u32 ropeDim * dtypeSize) in
  OP_CHECK_IF (u64 (u32 (cmpRatio - 1) * ropeRowBytes) >? MAX_UINT32_VALUE) "rope stride exceeds UINT32_MAX." ;;
  let ropeRowBytesAligned := AlignUp ropeRowBytes ALIGN_BYTES in
  let slotCols := if ca_slotMappingFormat at_ =? SLOT_MAPPING_FLAT then 1 else 2 in
  let reqTableBytes := AlignUp (u64 ((actualNumReqs + 1) * 4)) ALIGN_BYTES in
  let fixedUbBytes := u64 (reqTableBytes * 3 + ALIGN_BYTES + UB_RESERVED_BYTES) in
  let rowUbBytes := u64 (BUFFER_NUM * ropeRowBytesAligned * 2 + slotCols * 4 + 4) in
  OP_CHECK_IF (rowUbBytes >? MAX_UINT32_VALUE) "row UB footprint exceeds UINT32_MAX." ;;
  let minUbBytes := u64 (reqTableBytes * 3 + ALIGN_BYTES + rowUbBytes) in
  OP_CHECK_IF (ubSize <=? minUbBytes) "UB size is insufficient for compressor metadata." ;;
  let tileRows0 := if (ubSize >? fixedUbBytes) && (rowUbBytes >? 0)
                   then Z.max (u32 ((ubSize - fixedUbBytes) /c rowUbBytes)) 1 else 1 in
  let tileRows := Z.min (Z.min tileRows0 MAX_TILE_ROWS) MAX_DATACOPY_BLOCK_COUNT in
  Ok {| cp_ropeRowBytes := ropeRowBytes; cp_ropeRowBytesAligned := ropeRowBytesAligned; cp_slotCols := slotCols;
        cp_tileRows := tileRows |}.

Definition CompressorMetadataTilingFunc (context : TilingContext) : HostM CompressorLaunch :=
  '(aivCoreNum, ubSize) ← cm_platform context;
  '(numRows, ropeDim, slotMappingShape) ← cm_outputs context;
  sh ← cm_inputs context ropeDim;
  at_ ← cm_check_attrs context numRows slotMappingShape sh;
  '(tilingKey, dtypeSize) ← cm_dtype context;
  plan ← cm_plan_tile ubSize ropeDim dtypeSize at_;
  let usedCoreNum := Z.min aivCoreNum (Z.max 1 (CeilDiv numRows ROWS_PER_CORE_TARGET)) in
  OP_CHECK_IF (negb (HasWorkspaceSizes context)) "workspaceSize is null" ;;
  OP_CHECK_IF (negb (HasTilingData context)) "rawTilingData is null" ;;
  Ok {| cl_tiling :=
          {| cm_numRows := u32 numRows; cm_numReqs := u32 (cs_cuSeqlensDim0 sh - 1);
             cm_actualNumReqs := u32 (ca_actualNumReqs at_); cm_ropeRows := u32 (cs_ropeRows sh);
             cm_ropeDim := u32 ropeDim; cm_kvBlockTableStride := u32 (cs_kvBlockTableStride sh);
             cm_kvBlockSize := u32 (ca_kvBlockSize at_); cm_slotMappingFormat := u32 (ca_slotMappingFormat at_);
             cm_cmpRatio := u32 (ca_cmpRatio at_); cm_usedCoreNum := usedCoreNum; cm_tileRows := cp_tileRows plan;
             cm_ropeRowBytes := cp_ropeRowBytes plan; cm_ropeRowBytesAligned := cp_ropeRowBytesAligned plan;
             cm_slotCols := cp_slotCols plan |};
        cl_blockDim := usedCoreNum;
        cl_tilingKey := tilingKey |}.

(** ** What the kernel may assume *)

(** Bytes of unified buffer that [Init] requests. *)
Definition ub_footprint {T} (e : CEnv T) : Z :=
  3 * reqTableBytes e + blockTableTileBytes e + slotTileBytes e +
  2 * (BUFFER_NUM * (cm_tileRows (ctd e) * cm_ropeRowBytesAligned (ctd e))).

(** Extents far from the 32-bit limit, as the platform and the callers have. *)
Record cm_moderate (ubSize ropeDim dtypeSize actualNumReqs : Z) : Prop := {
  mo_ub : 0 <= ubSize < 2 ^ 31;
  mo_dim : ropeDim * dtypeSize < 2 ^ 31;
  mo_reqs : actualNumReqs < 2 ^ 29 }.

Lemma AlignUp_32 v : 0 <= v -> v + 31 < 2 ^ 32 -> AlignUp v 32 = (v + 31) / 32 * 32.
Proof.
  intros Hv Hf. unfold AlignUp. rewrite (u64_id (v + 32 - 1)) by lia. rewrite quot_nonneg_div by lia.
  replace (v + 32 - 1) with (v + 31) by lia. apply u32_id. unfold fits_u32. zlia.
Qed.

Lemma align_bounds v : 0 <= v -> v <= (v + 31) / 32 * 32 < v + 32.
Proof. intros. zlia. Qed.

(** The tile fits: rows are a multiple of the block size apart and the buffers
    of a tile fit next to the request tables. *)
Record cm_plan_ok (ubSize ropeDim dtypeSize actualNumReqs slotCols : Z) (plan : cm_plan) : Prop := {
  po_bytes : cp_ropeRowBytes plan = ropeDim * dtypeSize;
  po_aligned : cp_ropeRowBytesAligned plan = (cp_ropeRowBytes plan + 31) / 32 * 32;
  po_cols : cp_slotCols plan = slotCols;
  po_tile : 0 < cp_tileRows plan <= 512;
  po_tile_ub : ((actualNumReqs + 1) * 4 + 31) / 32 * 32 * 3 + 32 +
     cp_tileRows plan * (4 * cp_ropeRowBytesAligned plan + slotCols * 4 + 4) < ubSize;
  po_reserved : ((actualNumReqs + 1) * 4 + 31) / 32 * 32 * 3 + 32 + UB_RESERVED_BYTES +
     (4 * cp_ropeRowBytesAligned plan + slotCols * 4 + 4) <= ubSize ->
     ((actualNumReqs + 1) * 4 + 31) / 32 * 32 * 3 + 32 + UB_RESERVED_BYTES +
     cp_tileRows plan * (4 * cp_ropeRowBytesAligned plan + slotCols * 4 + 4) <= ubSize;
  po_single : ubSize < ((actualNumReqs + 1) * 4 + 31) / 32 * 32 * 3 + 32 + UB_RESERVED_BYTES +
     (4 * cp_ropeRowBytesAligned plan + slotCols * 4 + 4) -> cp_tileRows plan = 1 }.

Lemma cm_plan_tile_sound ubSize ropeDim dtypeSize at_ plan :
  cm_moderate ubSize ropeDim dtypeSize (ca_actualNumReqs at_) ->
  0 < ropeDim -> dtypeSize = 2 \/ dtypeSize = 4 -> 0 < ca_actualNumReqs at_ -> 0 < ca_cmpRatio at_ < 2 ^ 32 ->
  cm_plan_tile ubSize ropeDim dtypeSize at_ = Ok plan ->
  cm_plan_ok ubSize ropeDim dtypeSize (ca_actualNumReqs at_)
    (if ca_slotMappingFormat at_ =? SLOT_MAPPING_FLAT then 1 else 2) plan /\
  (ca_cmpRatio at_ - 1) * cp_ropeRowBytes plan < 2 ^ 32.
Proof.
  intros [Hub Hdim Hreq] Hd Hsz Hn Hr Hok. unfold cm_plan_tile in Hok. cbv zeta in Hok.
  set (cols := if ca_slotMappingFormat at_ =? SLOT_MAPPING_FLAT then 1 else 2) in *.
  assert (cols = 1 \/ cols = 2) as Hcols by (subst cols; destruct (_ =? _); auto). clearbody cols.
  assert (0 < ropeDim * dtypeSize) by nia. assert (ropeDim < 2 ^ 31) by nia.
  rewrite (u32_id (ca_actualNumReqs at_)), (u32_id (ca_cmpRatio at_)), (u32_id ropeDim) in Hok by (unfold fits_u32; lia).
  rewrite (u32_id (ropeDim * dtypeSize)), (u32_id (ca_cmpRatio at_ - 1)) in Hok by (unfold fits_u32; lia).
  rewrite (u64_id ((ca_actualNumReqs at_ + 1) * 4)) in Hok by lia. unfold ALIGN_BYTES, BUFFER_NUM, UB_RESERVED_BYTES in Hok.
  rewrite !AlignUp_32 in Hok by lia.
  set (B := ropeDim * dtypeSize) in *. set (N := ca_actualNumReqs at_) in *.
  pose proof (align_bounds B ltac:(lia)) as HB. pose proof (align_bounds ((N + 1) * 4) ltac:(lia)) as HN.
  remember ((B + 31) / 32 * 32) as A eqn:HA. remember (((N + 1) * 4 + 31) / 32 * 32) as R eqn:HR.
  assert (0 <= (ca_cmpRatio at_ - 1) * B < 2 ^ 32 * 2 ^ 31) as Hst.
  { split; [apply Z.mul_nonneg_nonneg; lia|apply Z.mul_lt_mono_nonneg; lia]. }
  rewrite (u64_id ((ca_cmpRatio at_ - 1) * B)) in Hok by lia.
  rewrite (u64_id (2 * A * 2 + cols * 4 + 4)), (u64_id (R * 3 + 32 + 16 * 1024)), (u64_id (R * 3 + 32 + (2 * A * 2 + cols * 4 + 4))) in Hok by lia.
  do 4 inv_bind Hok. injection Hok as <-. cbn [cp_ropeRowBytes cp_ropeRowBytesAligned cp_slotCols cp_tileRows].
  unfold MAX_UINT32_VALUE, MAX_TILE_ROWS, MAX_DATACOPY_BLOCK_COUNT in *. rewrite !Z.gtb_ltb in *. bool_prop.
  set (U := 2 * A * 2 + cols * 4 + 4) in *.
  assert (4 * A + cols * 4 + 4 = U) as HU by (subst U; lia).
  split; [|lia]. split; unfold UB_RESERVED_BYTES; cbn [cp_ropeRowBytes cp_ropeRowBytesAligned cp_slotCols cp_tileRows];
    rewrite <- ?HR, ?HU; try done.
  - destruct (_ && _); lia.
  - destruct (R * 3 + 32 + 16 * 1024 <? ubSize) eqn:E; cbn [andb]; bool_prop; [|lia].
    rewrite (proj2 (Z.ltb_lt 0 U)) by lia. rewrite quot_nonneg_div by lia.
    set (q := (ubSize - (R * 3 + 32 + 16 * 1024)) / U).
    assert (0 <= q /\ q * U <= ubSize - (R * 3 + 32 + 16 * 1024)) as [Hq1 Hq2].
    { split; [apply Z.div_pos; lia|]. rewrite Z.mul_comm. apply Z.mul_div_le. lia. }
    rewrite u32_id by (unfold fits_u32; nia). nia.
  - intros Hlt. rewrite (proj2 (Z.ltb_lt _ ubSize)) by lia. cbn [andb]. rewrite (proj2 (Z.ltb_lt 0 U)) by lia.
    rewrite quot_nonneg_div by lia. set (q := (ubSize - (R * 3 + 32 + 16 * 1024)) / U).
    assert (1 <= q /\ q * U <= ubSize - (R * 3 + 32 + 16 * 1024)) as [Hq1 Hq2].
    { split; [apply Z.div_le_lower_bound; lia|]. rewrite Z.mul_comm. apply Z.mul_div_le. lia. }
    rewrite u32_id by (unfold fits_u32; nia). nia.
  - intros Hlt. destruct (R * 3 + 32 + 16 * 1024 <? ubSize) eqn:E; cbn [andb]; bool_prop; [|lia].
    rewrite (proj2 (Z.ltb_lt 0 U)) by lia. rewrite quot_nonneg_div, Z.div_small by lia. done.
Qed.

(** The kernel instance of a launch. *)
Definition cm_launched {T} (la : CompressorLaunch) (e : CEnv T) : Prop :=
  ctd e = cl_tiling la /\ sizeofT e = if cl_tilingKey la =? 1 then 4 else 2.

Lemma cm_dtype_sound context key size :
  cm_dtype context = Ok (key, size) -> size = (if key =? 1 then 4 else 2) /\ (size = 2 \/ size = 4).
Proof.
  unfold cm_dtype. intros Hok. do 5 inv_bind Hok. destruct a; try discriminate Hok; injection Hok as <- <-; auto.
Qed.

(** Footprint of a tile of [t] rows. *)
Lemma ub_footprint_eq {T} (e : CEnv T) :
  cm_tiling_ok e ->
  let td := ctd e in
  ub_footprint e = ((cm_actualNumReqs td + 1) * 4 + 31) / 32 * 32 * 3 + (cm_tileRows td * 4 + 31) / 32 * 32 +
    (cm_tileRows td * cm_slotCols td * 4 + 31) / 32 * 32 + cm_tileRows td * (4 * cm_ropeRowBytesAligned td).
Proof.
  intros Htd. cbv zeta. pose proof (ct_reqs e Htd). pose proof (ct_tile e Htd). remember (ctd e) as td eqn:Etd.
  assert (cm_slotCols td = 1 \/ cm_slotCols td = 2) as Hs by (rewrite Etd, (ct_cols e Htd); destruct (_ =? _); auto).
  unfold ub_footprint, reqTableBytes, blockTableTileBytes, slotTileBytes, Int32BytesU32, ALIGN_BYTES, BUFFER_NUM. rewrite <- Etd.
  rewrite (u32_id (cm_actualNumReqs td + 1)), (u32_id ((cm_actualNumReqs td + 1) * 4)), (u32_id (cm_tileRows td * 4)),
    (u32_id (cm_tileRows td * cm_slotCols td)), (u32_id (cm_tileRows td * cm_slotCols td * 4)) by (unfold fits_u32; nia).
  rewrite !AlignUpU32_32 by nia. lia.
Qed.

(** What each validation step establishes. *)
Lemma cm_outputs_sound context numRows ropeDim slots :
  cm_outputs context = Ok (numRows, ropeDim, slots) -> 0 < numRows < 2 ^ 32 /\ 0 < ropeDim < 2 ^ 32.
Proof.
  unfold cm_outputs. intros Hok. cbv zeta in Hok. do 7 inv_bind Hok. injection Hok as <- <- <-.
  unfold MAX_UINT32_VALUE in *. lia.
Qed.

Lemma cm_inputs_sound context ropeDim sh :
  cm_inputs context ropeDim = Ok sh ->
  0 < cs_ropeRows sh < 2 ^ 32 /\ 0 < cs_kvBlockTableStride sh < 2 ^ 32 /\ cs_cuSeqlensDim0 sh < 2 ^ 32.
Proof.
  unfold cm_inputs. intros Hok. cbv zeta in Hok. do 11 inv_bind Hok. injection Hok as <-.
  unfold MAX_UINT32_VALUE in *. cbn [cs_ropeRows cs_kvBlockTableStride cs_cuSeqlensDim0]. lia.
Qed.

Lemma cm_check_attrs_sound context numRows slots sh at_ :
  cm_check_attrs context numRows slots sh = Ok at_ ->
  0 < ca_kvBlockSize at_ <= INT32_MAX /\ 0 < ca_cmpRatio at_ < 2 ^ 32 /\
  (ca_slotMappingFormat at_ = 1 \/ ca_slotMappingFormat at_ = 2) /\
  0 < ca_actualNumReqs at_ < cs_cuSeqlensDim0 sh /\ ca_actualNumReqs at_ <= cs_startPosDim0 sh /\
  ca_actualNumReqs at_ <= cs_kvBlockTableRows sh /\ ca_actualNumReqs at_ < 2 ^ 32.
Proof.
  unfold cm_check_attrs. intros Hok. cbv zeta in Hok. do 10 inv_bind Hok. injection Hok as <-.
  unfold MAX_UINT32_VALUE, MAX_INT32_VALUE, INT32_MAX, SLOT_MAPPING_FLAT, SLOT_MAPPING_BLOCK_OFFSET in *.
  cbn [ca_kvBlockSize ca_cmpRatio ca_slotMappingFormat ca_actualNumReqs].
  split_and!; lia.
Qed.

Section Sound.
Context {T : Type}.
Variables (context : TilingContext) (la : CompressorLaunch) (e : CEnv T).

Lemma CompressorMetadataTilingFunc_launch ubSize coreNum :
  cm_platform context = Ok (coreNum, ubSize) -> 0 < coreNum < 2 ^ 32 ->
  CompressorMetadataTilingFunc context = Ok la -> cm_launched la e ->
  cm_moderate ubSize (cm_ropeDim (ctd e)) (sizeofT e) (cm_actualNumReqs (ctd e)) ->
  cm_tiling_ok e /\ 0 < cl_blockDim la <= coreNum /\ cm_usedCoreNum (ctd e) = cl_blockDim la /\
  (ubSize mod 32 = 0 -> ub_footprint e <= ubSize).
Proof.
  intros Hplat Hcore Hok [Htd Hsize] Hmod. unfold CompressorMetadataTilingFunc in Hok. rewrite Hplat in Hok. cbn [mbind outcome_bind] in Hok.
  inv_bind Hok. destruct a as [[numRows ropeDim] slotShape]. inv_bind Hok. rename a into sh. inv_bind Hok. rename a into at_.
  inv_bind Hok. destruct a as [key size]. inv_bind Hok. rename a into plan. do 2 inv_bind Hok. injection Hok as <-.
  cbn [cl_tiling cl_tilingKey cl_blockDim] in *. apply cm_dtype_sound in Hok3 as [Hkey Hsz]. rewrite <- Hkey in Hsize.
  apply cm_outputs_sound in Hok0 as [Hrows Hdim]. apply cm_inputs_sound in Hok1 as (Hrope & Hstride & _).
  apply cm_check_attrs_sound in Hok2 as (Hbs & Hratio & Hfmt & Hreq & _ & _ & Hreq32).
  rewrite (u32_id numRows), (u32_id (ca_actualNumReqs at_)), (u32_id (cs_ropeRows sh)), (u32_id ropeDim),
    (u32_id (cs_kvBlockTableStride sh)), (u32_id (ca_kvBlockSize at_)), (u32_id (ca_slotMappingFormat at_)),
    (u32_id (ca_cmpRatio at_)) in Htd by (unfold fits_u32, INT32_MAX in *; lia). rewrite Hsize in Hmod.
  rewrite Htd in Hmod |- *. cbn [cm_ropeDim cm_actualNumReqs cm_usedCoreNum] in *.
  destruct (cm_plan_tile_sound ubSize ropeDim size at_ plan Hmod ltac:(lia) Hsz ltac:(lia) Hratio Hok4) as [[P1 P2 P3 P4 P5 P6 P7] Hst].
  destruct Hmod as [Hub Hd Hn].
  assert (0 <= cp_ropeRowBytesAligned plan) by (rewrite P2, P1; pose proof (align_bounds (ropeDim * size) ltac:(lia)); lia).
  pose proof (align_bounds ((ca_actualNumReqs at_ + 1) * 4) ltac:(lia)).
  assert (0 <= cp_tileRows plan * cp_ropeRowBytesAligned plan) by (apply Z.mul_nonneg_nonneg; lia).
  assert (cm_tiling_ok e) as Hok'.
  { split; rewrite ?Htd; cbn [cm_numRows cm_actualNumReqs cm_ropeDim cm_ropeRowBytes cm_ropeRowBytesAligned cm_tileRows cm_kvBlockSize
      cm_kvBlockTableStride cm_cmpRatio cm_ropeRows cm_slotCols cm_slotMappingFormat]; rewrite ?Hsize; try done; try lia.
    destruct (_ =? SLOT_MAPPING_FLAT) in P5; lia. }
  split; [done|]. split; [lia|]. split; [done|]. intros Hal.
  rewrite ub_footprint_eq by done. cbv zeta. rewrite Htd.
  cbn [cm_actualNumReqs cm_tileRows cm_slotCols cm_ropeRowBytesAligned]. rewrite P3.
  pose proof (align_bounds (cp_tileRows plan * 4) ltac:(lia)).
  set (c := if ca_slotMappingFormat at_ =? SLOT_MAPPING_FLAT then 1 else 2) in *.
  assert (c = 1 \/ c = 2) as Hc by (unfold c; destruct (ca_slotMappingFormat at_ =? SLOT_MAPPING_FLAT); [by left|by right]). clearbody c.
  pose proof (align_bounds (cp_tileRows plan * c * 4) ltac:(nia)). unfold UB_RESERVED_BYTES in *.
  set (R := ((ca_actualNumReqs at_ + 1) * 4 + 31) / 32) in *. rewrite P2 in *.
  set (A := (cp_ropeRowBytes plan + 31) / 32) in *.
  destruct (Z.le_gt_cases (R * 32 * 3 + 32 + 16 * 1024 + (4 * (A * 32) + c * 4 + 4)) ubSize) as [Hroom|Hno].
  - specialize (P6 Hroom). destruct Hc as [-> | ->]; lia.
  - rewrite (P7 Hno) in *. destruct Hc as [-> | ->]; zlia.
Qed.
End Sound.
