(* ===== verification/CompressorGrid.v ===== *)
(** CompressorMetadata launched: all cores together write every row. *)

From S2P Require Import Prelude AscendC TilingContext Compressor CompressorTile CompressorRows CompressorHost.

(** The environment of core [b] of [n]. *)
Definition with_core {T} (e : CEnv T) (b n : Z) : CEnv T :=
  {| ropeCosGm := ropeCosGm e; ropeSinGm := ropeSinGm e; cuSeqlensGm := cuSeqlensGm e; startPosGm := startPosGm e;
     kvBlockTableGm := kvBlockTableGm e; ctd := ctd e; sizeofT := sizeofT e; valueT := valueT e;
     cBlockIdx := b; cBlockNum := n |}.

Section Grid.
Context {T : Type}.
Variable e : CEnv T.
Abbreviation td := (ctd e).

(** One core on the shared outputs, with its own buffers. *)
Definition compressor_core (n : Z) (ubs : Z -> CUB T) (b : Z) (g : CGM T) : outcome fault_kind (CGM T) :=
  match Process (with_core e b n) (Build_CS (ubs b) g) with
  | Ok (_, s) => Ok (cgm s)
  | Err f => Err f
  end.

(** Buffers as [Init] leaves them. *)
Definition cub_fresh (u : CUB T) : Prop := init_buffers e u /\ pipeFlags u = ∅.

(** What the caller promises: tensors of the announced sizes, non-negative
    sequence offsets, and row counts that fit 32-bit indexing. *)
Record compressor_ok (n : Z) : Prop := {
  ko_tiling : cm_tiling_ok e;
  ko_inputs : cm_inputs_ok e;
  ko_total : pre e (cm_actualNumReqs td) < 2 ^ 32;
  ko_cu : forall q, 0 <= q <= cm_actualNumReqs td -> 0 <= t_at (cuSeqlensGm e) q;
  ko_cores : 0 < n;
  ko_rows : cm_numRows td + n <= 2 ^ 31 }.

Variable n : Z.
Context (Hok : compressor_ok n).

(** The core that writes row [r]. *)
Definition row_owner (r : Z) : Z :=
  let v := valid_rows e in
  if r <? v then r / ((v + n - 1) / n) else (r - v) / ((cm_numRows td - v + n - 1) / n).

Lemma valid_rows_bounds : 0 <= valid_rows e <= cm_numRows td.
Proof.
  destruct Hok as [Htd Hin Htot Hcu Hn Hrows]. pose proof (ct_rows e Htd). pose proof (ct_reqs e Htd).
  pose proof (pre_range e Htd Htot (cm_actualNumReqs td) ltac:(lia)). unfold valid_rows. lia.
Qed.

Lemma core_rows_owner b r : 0 <= b < n -> 0 <= r < cm_numRows td ->
  core_rows (with_core e b n) r <-> b = row_owner r.
Proof.
  intros Hb Hr. pose proof valid_rows_bounds as Hv. unfold core_rows, row_owner, share, span.
  change (valid_rows (with_core e b n)) with (valid_rows e).
  change (cm_numRows (ctd (with_core e b n))) with (cm_numRows td). cbn [cBlockIdx cBlockNum with_core fst snd].
  set (v := valid_rows e) in *. destruct (r <? v) eqn:E; bool_prop.
  - destruct (even_split_owner n v b r ltac:(lia) ltac:(lia) ltac:(lia)) as (Hp & _ & Hiff). rewrite <- Hiff.
    split; [|by left]. intros [H|H]; [done|]. pose proof (Z.div_pos (cm_numRows td - v + n - 1) n ltac:(lia) ltac:(lia)). nia.
  - destruct (even_split_owner n (cm_numRows td - v) b (r - v) ltac:(lia) ltac:(lia) ltac:(lia)) as (Hp & _ & Hiff). rewrite <- Hiff.
    split; [intros [H|H]; lia|]. intros H. right. lia.
Qed.

Lemma row_owner_range r : 0 <= r < cm_numRows td -> 0 <= row_owner r < n.
Proof.
  intros Hr. pose proof valid_rows_bounds as Hv. pose proof (ko_cores n Hok). unfold row_owner.
  destruct (r <? valid_rows e) eqn:E; bool_prop.
  - by destruct (even_split_owner n (valid_rows e) 0 r ltac:(lia) ltac:(lia) ltac:(lia)) as (_ & ? & _).
  - by destruct (even_split_owner n (cm_numRows td - valid_rows e) 0 (r - valid_rows e) ltac:(lia) ltac:(lia) ltac:(lia)) as (_ & ? & _).
Qed.

(** Rows of the cores in [D] are done. *)
Definition compressor_inv (D : Z -> Prop) (g : CGM T) : Prop :=
  cm_gm_ok e g /\ forall r, 0 <= r < cm_numRows td -> D (row_owner r) -> row_result e r g.

Lemma compressor_core_spec ubs D b g :
  (forall c, cub_fresh (ubs c)) -> 0 <= b < n -> compressor_inv D g ->
  exists g', compressor_core n ubs b g = Ok g' /\ compressor_inv (fun x => D x \/ x = b) g'.
Proof.
  intros Hub Hb [Hg HD]. pose proof Hok as [Htd Hin Htot Hcu Hn Hrows].
  assert (cm_numRows td < 2 ^ 31) as H31 by lia.
  assert (wp (Process (with_core e b n)) (fun _ s' => cub_ok (with_core e b n) s' /\
    rows_done (with_core e b n) (core_rows (with_core e b n)) g (cgm s')) (Build_CS (ubs b) g)) as Hwp.
  { apply (Process_spec (with_core e b n)); try done; [by destruct Htd|by destruct Hin|exact (Hub b)]. }
  destruct (wp_run _ _ _ Hwp) as (u & s & Hrun & _ & (H1 & H2 & H3)).
  unfold compressor_core. rewrite Hrun. exists (cgm s). split; [done|]. split; [by apply H1|].
  intros r Hr Hd. destruct (decide (row_owner r = b)) as [Heq|Hne].
  - apply (H2 r). by apply core_rows_owner.
  - destruct Hd as [Hd|]; [|done]. eapply (row_result_same e r g); [apply (H3 r)|by apply HD].
    rewrite core_rows_owner by done. congruence.
Qed.

Lemma compressor_grid_spec order ubs g :
  order ≡ₚ zrange 0 n -> (forall c, cub_fresh (ubs c)) -> cm_gm_ok e g ->
  exists g', run_blocks (compressor_core n ubs) order g = Ok g' /\ cm_gm_ok e g' /\
    forall r, 0 <= r < cm_numRows td -> row_result e r g'.
Proof.
  intros Hperm Hub Hg.
  destruct (run_blocks_spec (compressor_core n ubs) compressor_inv order) with (D := fun _ : Z => False) (g := g)
    as (g' & Hrun & Hg' & HD); [..|].
  - intros D b g1 Hb. rewrite Hperm, elem_of_zrange in Hb. by apply compressor_core_spec.
  - intros D D' g1 HDD [H1 H2]. split; [done|]. intros r Hr Hd. apply H2; [done|]. by apply HDD.
  - split; [done|]. done.
  - exists g'. split_and!; [done|done|]. intros r Hr. apply HD; [done|]. right.
    rewrite Hperm, elem_of_zrange. by apply row_owner_range.
Qed.
End Grid.

(** C15.  CompressorMetadata writes every output row, whatever the number of
    cores and the order in which they run, and without a fault: row [r] of a
    request holds the rotary row of the first token of its group and the cache
    slot of its compressed position when that position is in the block table and
    in range, padding otherwise (rows of a request that runs out of range may be
    padded early), and the rows after the last request hold padding. *)
Theorem compressor_grid_correct {T : Type} (e : CEnv T) (n : Z) (order : list Z) (ubs : Z -> CUB T) (g : CGM T) :
  compressor_ok e n -> order ≡ₚ zrange 0 n -> (forall c, cub_fresh e (ubs c)) -> cm_gm_ok e g ->
  exists g', run_blocks (compressor_core e n ubs) order g = Ok g' /\ cm_gm_ok e g' /\
    forall r, 0 <= r < cm_numRows (ctd e) -> row_result e r g'.
Proof. intros Hok. apply (compressor_grid_spec e n Hok). Qed.

(** C26.  A call that the tiling function of CompressorMetadata accepts gives
    the kernel a consistent tiling record (aligned rotary rows, a tile of 1 to
    512 rows, as many slot columns as the format needs), between one and all
    cores, and a tile whose buffers fit the unified buffer, for extents below
    the 32-bit limit and a unified buffer of whole 32-byte blocks. *)
Theorem CompressorMetadataTilingFunc_sound {T : Type} (context : TilingContext) (la : CompressorLaunch) (e : CEnv T)
    (ubSize coreNum : Z) :
  cm_platform context = Ok (coreNum, ubSize) -> 0 < coreNum < 2 ^ 32 ->
  CompressorMetadataTilingFunc context = Ok la -> cm_launched la e ->
  cm_moderate ubSize (cm_ropeDim (ctd e)) (sizeofT e) (cm_actualNumReqs (ctd e)) ->
  cm_tiling_ok e /\ 0 < cl_blockDim la <= coreNum /\ cm_usedCoreNum (ctd e) = cl_blockDim la /\
  (ubSize mod 32 = 0 -> ub_footprint e <= ubSize).
Proof. apply CompressorMetadataTilingFunc_launch. Qed.

(** ** A concrete call: two requests, two and one complete groups of four *)

Definition cm_context : TilingContext :=
  {| GetPlatformInfoPtr := Some (Build_PlatformInfo 40 20 196608);
     GetInputShape := fun i => if (i =? ROPE_COS_INDEX) || (i =? ROPE_SIN_INDEX) then Some [16; 8]
       else if i =? CU_SEQLENS_INDEX then Some [3]
       else if i =? START_POS_INDEX then Some [2]
       else if i =? KV_BLOCK_TABLE_INDEX then Some [2; 2] else None;
     GetOptionalInputShape := fun _ => None;
     GetOutputShape := fun i => if i =? SLOT_MAPPING_INDEX then Some [6; 2] else Some [6; 1; 8];
     GetInputDesc := fun _ => Some DT_FLOAT;
     GetOptionalInputDesc := fun _ => None;
     GetOutputDesc := fun _ => Some DT_FLOAT;
     GetOptionalInputTensor := fun _ => None;
     HasAttrs := true;
     GetAttrInt := fun i => if i =? 0 then Some 4 else if i =? 1 then Some 2 else if i =? 2 then Some 4 else Some 2;
     HasTilingData := true;
     HasWorkspaceSizes := true;
     SetScheduleModeOk := true |}.

Definition cm_launch_example : CompressorLaunch :=
  Eval vm_compute in match CompressorMetadataTilingFunc cm_context with
                     | Ok la => la
                     | Err _ => Build_CompressorLaunch (Build_CompressorMetadataTilingData 0 0 0 0 0 0 0 0 0 0 0 0 0 0) 0 0
                     end.

Definition cm_env : CEnv Z :=
  {| ropeCosGm := Tensor 128 (fun i => 1000 + i); ropeSinGm := Tensor 128 (fun i => 5000 + i);
     cuSeqlensGm := Tensor 3 (fun q => if q <=? 0 then 0 else if q <=? 1 then 10 else 16);
     startPosGm := Tensor 2 (fun q => if q <=? 0 then 0 else 5);
     kvBlockTableGm := Tensor 4 (fun i => if i <=? 1 then 7 else 9);
     ctd := cl_tiling cm_launch_example; sizeofT := 4; valueT := fun v => v; cBlockIdx := 0; cBlockNum := 2 |}.

Lemma CompressorMetadataTilingFunc_sound_witness :
  CompressorMetadataTilingFunc cm_context = Ok cm_launch_example /\ cm_tiling_ok cm_env /\ ub_footprint cm_env <= 196608.
Proof.
  split; [vm_compute; reflexivity|].
  destruct (CompressorMetadataTilingFunc_sound cm_context cm_launch_example cm_env 196608 40) as (H1 & _ & _ & H2).
  - reflexivity.
  - split; reflexivity.
  - vm_compute. reflexivity.
  - split; reflexivity.
  - split; vm_compute; intuition congruence.
  - split; [exact H1|]. apply H2. reflexivity.
Defined.

Definition cub_example : CUB Z :=
  Build_CUB (Tensor 8 (fun _ => 0)) (Tensor 8 (fun _ => 0)) (Tensor 8 (fun _ => 0))
    (Tensor 512 (fun _ => 0)) (Tensor 1024 (fun _ => 0)) (Tensor 4096 (fun _ => 0)) (Tensor 4096 (fun _ => 0)) ∅.
Definition cgm_example : CGM Z :=
  Build_CGM (Tensor 48 (fun _ => 0)) (Tensor 48 (fun _ => 0)) (Tensor 12 (fun _ => 0)).

Lemma compressor_ok_example : compressor_ok cm_env 2.
Proof.
  split.
  - split; vm_compute; intuition congruence.
  - split; [vm_compute; congruence..| | |]; intros i; unfold fits_i32, cm_env; cbn [t_at cuSeqlensGm startPosGm kvBlockTableGm];
      repeat case_match; vm_compute; intuition congruence.
  - vm_compute. reflexivity.
  - intros q _. unfold cm_env. cbn [t_at cuSeqlensGm]. repeat case_match; vm_compute; congruence.
  - reflexivity.
  - vm_compute. congruence.
Qed.

Lemma compressor_grid_correct_witness :
  exists g', run_blocks (compressor_core cm_env 2 (fun _ => cub_example)) [1; 0] cgm_example = Ok g' /\
    cm_gm_ok cm_env g' /\ forall r, 0 <= r < 6 -> row_result cm_env r g'.
Proof.
  apply compressor_grid_correct.
  - exact compressor_ok_example.
  - change (zrange 0 2) with [0; 1]. exact (Permutation_app_comm [1] [0]).
  - intros c. repeat split.
  - repeat split.
Defined.

(** Row 2 is the only group of request 1: position 1, tokens 4-7, block 9. *)
Example compressor_value :
  match run_blocks (compressor_core cm_env 2 (fun _ => cub_example)) [0; 1] cgm_example with
  | Ok g => t_at (compressCosGm g) (2 * 8 + 3) = 1000 + 4 * 8 + 3 /\ t_at (slotMappingGm g) 4 = 9 /\
            t_at (slotMappingGm g) 5 = 1 /\ t_at (compressCosGm g) (3 * 8) = 1 /\ t_at (slotMappingGm g) 6 = -1 /\
            t_at (slotMappingGm g) 7 = 3
  | Err _ => False
  end.
Proof. vm_compute. repeat split. Qed.
