(* ===== verification/Exn.v ===== *)
(** Code that throws: a state monad in which an exception keeps the state that
    the code had reached when it threw, as C++ exceptions do.  [xwp] is its
    weakest precondition with one postcondition for a normal return and one for
    an exception. *)

From S2P Require Import Prelude.

Definition X (S E A : Type) : Type := S -> outcome E A * S.

#[global] Instance X_ret S E : MRet (X S E) := fun A a s => (Ok a, s).
#[global] Instance X_bind S E : MBind (X S E) :=
  fun A B f m s => match m s with (Ok a, s') => f a s' | (Err e, s') => (Err e, s') end.

Section ExnOps.
Context {S E : Type}.

Definition xgets {A} (f : S -> A) : X S E A := fun s => (Ok (f s), s).
Definition xmodify (f : S -> S) : X S E unit := fun s => (Ok tt, f s).
Definition xthrow {A} (e : E) : X S E A := fun s => (Err e, s).
Definition xcheck (b : bool) (e : E) : X S E unit := if b then mret tt else xthrow e.
Definition xwhen (b : bool) (m : X S E unit) : X S E unit := if b then m else mret tt.

Definition xwp {A} (m : X S E A) (Q : A -> S -> Prop) (R : S -> Prop) (s : S) : Prop :=
  match m s with (Ok a, s') => Q a s' | (Err _, s') => R s' end.

Implicit Types (R : S -> Prop) (s : S).

Lemma xwp_ret {A} (a : A) (Q : A -> S -> Prop) R s : Q a s -> xwp (mret a) Q R s.
Proof. done. Qed.

Lemma xwp_throw {A} e (Q : A -> S -> Prop) R s : R s -> xwp (xthrow e) Q R s.
Proof. done. Qed.

Lemma xwp_bind {A B} (m : X S E A) (f : A -> X S E B) (Q : B -> S -> Prop) R s :
  xwp m (fun a s' => xwp (f a) Q R s') R s -> xwp (m ≫= f) Q R s.
Proof. unfold xwp, mbind, X_bind. destruct (m s) as [[a|e] s']; auto. Qed.

Lemma xwp_mono {A} (m : X S E A) (P Q : A -> S -> Prop) R R' s :
  xwp m P R s -> (forall a s', P a s' -> Q a s') -> (forall s', R s' -> R' s') -> xwp m Q R' s.
Proof. unfold xwp. destruct (m s) as [[a|e] s']; auto. Qed.

Lemma xwp_seq {A B} (m : X S E A) (f : A -> X S E B) (P : A -> S -> Prop) Q R s :
  xwp m P R s -> (forall a s', P a s' -> xwp (f a) Q R s') -> xwp (m ≫= f) Q R s.
Proof. intros H1 H2. apply xwp_bind. eapply xwp_mono; eauto. Qed.

Lemma xwp_gets {A} (f : S -> A) (Q : A -> S -> Prop) R s : Q (f s) s -> xwp (xgets f) Q R s.
Proof. done. Qed.

Lemma xwp_modify (f : S -> S) (Q : unit -> S -> Prop) R s : Q tt (f s) -> xwp (xmodify f) Q R s.
Proof. done. Qed.

Lemma xwp_check b e (Q : unit -> S -> Prop) R s :
  (b = true -> Q tt s) -> (b = false -> R s) -> xwp (xcheck b e) Q R s.
Proof. destruct b; intros H1 H2; [by apply H1|by apply H2]. Qed.

Lemma xwp_when b m (Q : unit -> S -> Prop) R s :
  (b = true -> xwp m Q R s) -> (b = false -> Q tt s) -> xwp (xwhen b m) Q R s.
Proof. destruct b; intros H1 H2; [by apply H1|by apply H2]. Qed.

(** What is known of a run from its weakest precondition. *)
Lemma xwp_ok {A} (m : X S E A) Q R s a s' : xwp m Q R s -> m s = (Ok a, s') -> Q a s'.
Proof. unfold xwp. intros H Hr. by rewrite Hr in H. Qed.

Lemma xwp_err {A} (m : X S E A) Q R s e s' : xwp m Q R s -> m s = (Err e, s') -> R s'.
Proof. unfold xwp. intros H Hr. by rewrite Hr in H. Qed.

(** Inverting a successful run. *)
Lemma xbind_ok {A B} (m : X S E A) (f : A -> X S E B) s b s' :
  (m ≫= f) s = (Ok b, s') -> exists a s1, m s = (Ok a, s1) /\ f a s1 = (Ok b, s').
Proof. unfold mbind, X_bind. destruct (m s) as [[a|e] s1]; [eauto|discriminate]. Qed.

Lemma xcheck_ok b (e : E) s u s' : xcheck b e s = (Ok u, s') -> b = true /\ s' = s.
Proof. destruct b; [|discriminate]. intros [= _ <-]. done. Qed.
End ExnOps.

#[global] Arguments X_bind : simpl never.
#[global] Arguments xwp : simpl never.

(** One step of symbolic execution. *)
Ltac xwp_step :=
  lazymatch goal with
  | |- xwp (mret _) _ _ _ => apply xwp_ret
  | |- xwp (_ ≫= _) _ _ _ => apply xwp_bind
  | |- xwp (xgets _) _ _ _ => apply xwp_gets
  | |- xwp (xmodify _) _ _ _ => apply xwp_modify
  | |- xwp (xcheck _ _) _ _ _ => apply xwp_check; intros
  | |- xwp (let _ := _ in _) _ _ _ => cbv zeta
  | |- xwp (if ?b then _ else _) _ _ _ => let E := fresh "E" in destruct b eqn:E
  end.
