(* ===== verification/HostRegistry.v ===== *)
(** The mapped-host registry behind the KvCacheBlockGather operator
    ([csrc/kv_cache_block_gather_binding.cpp]): leases on host memory that the
    ACL runtime has made visible to the device.  A mapping is one registered
    address range; every call of [register] hands out a handle of its own on a
    mapping, and the mapping is released with its last handle.

    Every operation holds the registry's mutex, so an operation is one step on
    the registry.  The ACL runtime and the operating system are not part of the
    repository: what they answer during an operation is an argument of it,
    [Acl], and the calls that change the device's view of host memory are kept
    in the trace [acl_trace]. *)

From stdpp Require Import gmap.
From S2P Require Import Prelude Exn.

Definition UINT64_MAX : Z := 2 ^ 64 - 1.
Definition ACL_SUCCESS : Z := 0.

(** ** The runtime's answers *)

Record Acl : Type := {
  getpid : Z;
  sysconf_PAGESIZE : Z;
  aclrtGetDevice : Z * Z;                       (* error code, device *)
  aclrtHostGetDevicePointer : Z -> Z * Z;       (* error code, pointer *)
  aclrtHostRegister : Z -> Z -> Z * Z;          (* error code, device base *)
  aclrtSynchronizeDevice : Z;
  aclrtHostUnregister : Z -> Z }.

(** Calls that succeeded and have an effect on the device. *)
Inductive AclCall : Type :=
  | HostRegister (addr bytes : Z)
  | SynchronizeDevice
  | HostUnregister (addr : Z).

(** A tensor argument: what the adapter reads of it, and its identity. *)
Record HostTensorArg : Type := {
  at_defined : bool;
  at_numel : Z;
  at_element_size : Z;
  at_is_cpu : bool;
  at_is_contiguous : bool;
  at_data_ptr : Z;
  at_owner : Z }.

(** ** State *)

Record HostMapping : Type := {
  hm_mapping_id : Z;
  hm_host_base : Z;
  hm_size : Z;
  hm_device_base : Z;
  hm_device_id : Z;
  hm_owned : bool;
  hm_explicit_handle_count : Z }.

Record HostMappingHandle : Type := {
  hh_handle : Z;
  hh_mapping_id : Z;
  hh_requested_host_addr : Z;
  hh_requested_bytes : Z;
  hh_mapped_host_base : Z;
  hh_mapped_bytes : Z;
  hh_device_addr : Z;
  hh_owned : bool;
  hh_already_mapped : bool;
  hh_active : bool;
  hh_tensor_owner : Z;
  hh_owner_pid : Z;
  hh_device_id : Z }.

Record HostRange : Type := {
  hr_host_addr : Z;
  hr_aligned_addr : Z;
  hr_offset : Z;
  hr_register_size : Z }.

Record HostMappingCounters : Type := {
  hc_register_call_count : Z;
  hc_register_bytes_total : Z;
  hc_register_bytes_current : Z;
  hc_register_bytes_peak : Z;
  hc_unregister_call_count : Z;
  hc_borrowed_mapping_count : Z;
  hc_explicit_register_call_count : Z;
  hc_explicit_unregister_call_count : Z }.

Record HostMappingRegistry : Type := {
  r_pid : Z;
  r_mappings : list HostMapping;
  r_handles : gmap Z HostMappingHandle;
  r_next_mapping_id : Z;
  r_next_handle : Z;
  r_counters : HostMappingCounters;
  acl_trace : list AclCall }.

(** The registry created at the first use, in process [process_id]. *)
Definition HostMappingRegistry_init (process_id : Z) : HostMappingRegistry :=
  {| r_pid := process_id; r_mappings := []; r_handles := ∅; r_next_mapping_id := 1;
     r_next_handle := Z.lor (Z.shiftl (Z.land process_id 0x7fffffff) 32) 1;
     r_counters := Build_HostMappingCounters 0 0 0 0 0 0 0 0; acl_trace := [] |}.

(** *** Updates *)

Definition with_mappings (f : list HostMapping -> list HostMapping) (r : HostMappingRegistry) : HostMappingRegistry :=
  {| r_pid := r_pid r; r_mappings := f (r_mappings r); r_handles := r_handles r; r_next_mapping_id := r_next_mapping_id r;
     r_next_handle := r_next_handle r; r_counters := r_counters r; acl_trace := acl_trace r |}.
Definition with_handles (f : gmap Z HostMappingHandle -> gmap Z HostMappingHandle) (r : HostMappingRegistry)
    : HostMappingRegistry :=
  {| r_pid := r_pid r; r_mappings := r_mappings r; r_handles := f (r_handles r); r_next_mapping_id := r_next_mapping_id r;
     r_next_handle := r_next_handle r; r_counters := r_counters r; acl_trace := acl_trace r |}.
Definition with_next_mapping_id (n : Z) (r : HostMappingRegistry) : HostMappingRegistry :=
  {| r_pid := r_pid r; r_mappings := r_mappings r; r_handles := r_handles r; r_next_mapping_id := n;
     r_next_handle := r_next_handle r; r_counters := r_counters r; acl_trace := acl_trace r |}.
Definition with_next_handle (n : Z) (r : HostMappingRegistry) : HostMappingRegistry :=
  {| r_pid := r_pid r; r_mappings := r_mappings r; r_handles := r_handles r; r_next_mapping_id := r_next_mapping_id r;
     r_next_handle := n; r_counters := r_counters r; acl_trace := acl_trace r |}.
Definition with_counters (f : HostMappingCounters -> HostMappingCounters) (r : HostMappingRegistry) : HostMappingRegistry :=
  {| r_pid := r_pid r; r_mappings := r_mappings r; r_handles := r_handles r; r_next_mapping_id := r_next_mapping_id r;
     r_next_handle := r_next_handle r; r_counters := f (r_counters r); acl_trace := acl_trace r |}.
Definition with_trace (c : AclCall) (r : HostMappingRegistry) : HostMappingRegistry :=
  {| r_pid := r_pid r; r_mappings := r_mappings r; r_handles := r_handles r; r_next_mapping_id := r_next_mapping_id r;
     r_next_handle := r_next_handle r; r_counters := r_counters r; acl_trace := acl_trace r ++ [c] |}.
Definition with_handle_count (f : Z -> Z) (m : HostMapping) : HostMapping :=
  {| hm_mapping_id := hm_mapping_id m; hm_host_base := hm_host_base m; hm_size := hm_size m;
     hm_device_base := hm_device_base m; hm_device_id := hm_device_id m; hm_owned := hm_owned m;
     hm_explicit_handle_count := f (hm_explicit_handle_count m) |}.

(** The statements on the counters; every counter is a [uint64_t]. *)
Definition count_explicit_register (k : HostMappingCounters) : HostMappingCounters :=
  Build_HostMappingCounters (hc_register_call_count k) (hc_register_bytes_total k) (hc_register_bytes_current k)
    (hc_register_bytes_peak k) (hc_unregister_call_count k) (hc_borrowed_mapping_count k)
    (u64 (hc_explicit_register_call_count k + 1)) (hc_explicit_unregister_call_count k).
Definition count_borrowed (k : HostMappingCounters) : HostMappingCounters :=
  Build_HostMappingCounters (hc_register_call_count k) (hc_register_bytes_total k) (hc_register_bytes_current k)
    (hc_register_bytes_peak k) (hc_unregister_call_count k) (u64 (hc_borrowed_mapping_count k + 1))
    (hc_explicit_register_call_count k) (hc_explicit_unregister_call_count k).
Definition count_registered (bytes : Z) (k : HostMappingCounters) : HostMappingCounters :=
  let current := u64 (hc_register_bytes_current k + bytes) in
  Build_HostMappingCounters (u64 (hc_register_call_count k + 1)) (u64 (hc_register_bytes_total k + bytes)) current
    (Z.max (hc_register_bytes_peak k) current) (hc_unregister_call_count k) (hc_borrowed_mapping_count k)
    (hc_explicit_register_call_count k) (hc_explicit_unregister_call_count k).
Definition count_explicit_unregister (k : HostMappingCounters) : HostMappingCounters :=
  Build_HostMappingCounters (hc_register_call_count k) (hc_register_bytes_total k) (hc_register_bytes_current k)
    (hc_register_bytes_peak k) (hc_unregister_call_count k) (hc_borrowed_mapping_count k)
    (hc_explicit_register_call_count k) (u64 (hc_explicit_unregister_call_count k + 1)).
Definition count_unregistered (bytes : Z) (k : HostMappingCounters) : HostMappingCounters :=
  Build_HostMappingCounters (hc_register_call_count k) (hc_register_bytes_total k)
    (u64 (hc_register_bytes_current k - bytes)) (hc_register_bytes_peak k) (u64 (hc_unregister_call_count k + 1))
    (hc_borrowed_mapping_count k) (hc_explicit_register_call_count k) (hc_explicit_unregister_call_count k).

(** ** Operations *)

(** [TORCH_CHECK] throws its message. *)
Inductive torch_error : Type :=
  | TorchError (msg : string).

Abbreviation RM := (X HostMappingRegistry torch_error).
Definition TORCH_CHECK (cond : bool) (msg : string) : RM unit := xcheck cond (TorchError msg).

Definition get_host_mapping_registry (acl : Acl) : RM unit :=
  pid ← xgets r_pid;
  TORCH_CHECK (pid =? getpid acl) "mapped-host registry cannot be used after fork".

Definition allocate_host_mapping_id_locked : RM Z :=
  next_id ← xgets r_next_mapping_id;
  TORCH_CHECK ((next_id >? 0) && (next_id <? UINT64_MAX)) "host mapping ID space exhausted" ;;
  xmodify (with_next_mapping_id (next_id + 1)) ;;
  mret next_id.

Definition round_up_u64 (value alignment : Z) : RM Z :=
  TORCH_CHECK (alignment >? 0) "host mapping alignment must be positive" ;;
  TORCH_CHECK (value <=? UINT64_MAX - (alignment - 1)) "host mapping size overflow" ;;
  mret ((value + alignment - 1) /c alignment * alignment).

Definition get_host_range (acl : Acl) (host_ptr bytes : Z) : RM HostRange :=
  TORCH_CHECK (negb (host_ptr =? 0)) "src_pages data pointer is null" ;;
  TORCH_CHECK (bytes >? 0) "src_pages must not be empty" ;;
  let page_size := sysconf_PAGESIZE acl in
  TORCH_CHECK (page_size >? 0) "sysconf(_SC_PAGESIZE) failed" ;;
  let host_addr := host_ptr in
  TORCH_CHECK (bytes <=? UINT64_MAX - host_addr) "host range address overflow" ;;
  let aligned_addr := host_addr /c page_size * page_size in
  let offset := host_addr - aligned_addr in
  TORCH_CHECK (bytes <=? UINT64_MAX - offset) "host mapping size overflow" ;;
  register_size ← round_up_u64 (offset + bytes) page_size;
  mret {| hr_host_addr := host_addr; hr_aligned_addr := aligned_addr; hr_offset := offset;
          hr_register_size := register_size |}.

Definition get_current_host_mapping_device (acl : Acl) : RM Z :=
  get_host_mapping_registry acl ;;
  let '(ret, device_id) := aclrtGetDevice acl in
  TORCH_CHECK ((ret =? ACL_SUCCESS) && (device_id >=? 0)) "aclrtGetDevice failed" ;;
  mret device_id.

Definition mapping_end (m : HostMapping) : Z := u64 (hm_host_base m + hm_size m).

(** The test of [find_host_mapping_locked]: the mapping holds the request. *)
Definition holds_range (host_addr request_end : Z) (m : HostMapping) : bool :=
  (host_addr >=? hm_host_base m) && (request_end <=? mapping_end m).

(** A shared pointer to a mapping is its position in the vector. *)
Definition find_host_mapping_locked (host_addr bytes device_id : Z) : RM (option (nat * HostMapping)) :=
  let request_end := u64 (host_addr + bytes) in
  TORCH_CHECK (request_end >=? host_addr) "host range address overflow" ;;
  mappings ← xgets r_mappings;
  match list_find (fun m => holds_range host_addr request_end m = true) mappings with
  | Some (i, mapping) =>
      TORCH_CHECK (hm_device_id mapping =? device_id) "worker-local mappings cannot cross devices" ;;
      mret (Some (i, mapping))
  | None => mret None
  end.

(** The loop of [find_overlapping_host_mapping_locked]. *)
Fixpoint find_overlapping_loop (host_addr request_end : Z) (mappings : list HostMapping) : RM (option HostMapping) :=
  match mappings with
  | [] => mret None
  | mapping :: rest =>
      TORCH_CHECK (mapping_end mapping >=? hm_host_base mapping) "cached host mapping address overflow" ;;
      if (host_addr <? mapping_end mapping) && (hm_host_base mapping <? request_end) then mret (Some mapping)
      else find_overlapping_loop host_addr request_end rest
  end.

Definition find_overlapping_host_mapping_locked (host_addr bytes : Z) : RM (option HostMapping) :=
  mappings ← xgets r_mappings;
  find_overlapping_loop host_addr (u64 (host_addr + bytes)) mappings.

Definition check_no_partial_host_mapping_overlap_locked (host_addr bytes : Z) : RM unit :=
  overlap ← find_overlapping_host_mapping_locked host_addr bytes;
  TORCH_CHECK (match overlap with None => true | Some _ => false end)
    "requested host range partially overlaps an existing mapping".

Definition is_host_range_mapping_cached (acl : Acl) (range : HostRange) (bytes : Z) : RM bool :=
  device_id ← get_current_host_mapping_device acl;
  m ← find_host_mapping_locked (hr_host_addr range) bytes device_id;
  mret (match m with Some _ => true | None => false end).

Definition get_mapped_host_device_ptr (acl : Acl) (host_ptr bytes : Z) : RM Z :=
  range ← get_host_range acl host_ptr bytes;
  device_id ← get_current_host_mapping_device acl;
  m ← find_host_mapping_locked (hr_host_addr range) bytes device_id;
  match m with
  | None => xthrow (TorchError "src_pages must have an active explicit host-pool registration before gather")
  | Some (_, mapping) => mret (u64 (hm_device_base mapping + (hr_host_addr range - hm_host_base mapping)))
  end.

(** The bytes of a tensor. *)
Definition tensor_bytes (t : HostTensorArg) : Z := u64 (at_numel t * at_element_size t).

(** A new mapping for a range that no mapping holds: borrowed when the allocator
    has registered it already, registered with the runtime otherwise. *)
Definition create_mapping (acl : Acl) (host_ptr bytes device_id : Z) (range : HostRange) : RM (HostMapping * bool) :=
  check_no_partial_host_mapping_overlap_locked (hr_host_addr range) bytes ;;
  let '(lookup_ret, borrowed_device_ptr) := aclrtHostGetDevicePointer acl host_ptr in
  if (lookup_ret =? ACL_SUCCESS) && negb (borrowed_device_ptr =? 0) then
    id ← allocate_host_mapping_id_locked;
    xmodify (with_counters count_borrowed) ;;
    mret ({| hm_mapping_id := id; hm_host_base := hr_host_addr range; hm_size := bytes;
             hm_device_base := borrowed_device_ptr; hm_device_id := device_id; hm_owned := false;
             hm_explicit_handle_count := 0 |}, true)
  else
    let '(register_ret, mapped_base) := aclrtHostRegister acl (hr_aligned_addr range) (hr_register_size range) in
    TORCH_CHECK (register_ret =? ACL_SUCCESS) "aclrtHostRegister failed" ;;
    xmodify (with_trace (HostRegister (hr_aligned_addr range) (hr_register_size range))) ;;
    id ← allocate_host_mapping_id_locked;
    xmodify (with_counters (count_registered (hr_register_size range))) ;;
    mret ({| hm_mapping_id := id; hm_host_base := hr_aligned_addr range; hm_size := hr_register_size range;
             hm_device_base := mapped_base; hm_device_id := device_id; hm_owned := true;
             hm_explicit_handle_count := 0 |}, false).

(** The new lease on mapping [i]. *)
Definition issue_handle (acl : Acl) (t : HostTensorArg) (bytes device_id : Z) (range : HostRange)
    (i : nat) (mapping : HostMapping) (already_mapped : bool) : RM Z :=
  next_handle ← xgets r_next_handle;
  TORCH_CHECK ((next_handle >? 0) && (next_handle <? INT64_MAX)) "host mapping handle space exhausted" ;;
  xmodify (with_next_handle (next_handle + 1)) ;;
  let opaque_handle := next_handle in
  xmodify (with_mappings (alter (with_handle_count (fun n => u64 (n + 1))) i)) ;;
  xmodify (with_handles (fun handles =>
    match handles !! opaque_handle with
    | Some _ => handles                          (* [emplace] keeps an existing entry *)
    | None => <[ opaque_handle :=
        {| hh_handle := opaque_handle; hh_mapping_id := hm_mapping_id mapping;
           hh_requested_host_addr := hr_host_addr range; hh_requested_bytes := bytes;
           hh_mapped_host_base := hm_host_base mapping; hh_mapped_bytes := hm_size mapping;
           hh_device_addr := u64 (hm_device_base mapping + (hr_host_addr range - hm_host_base mapping));
           hh_owned := hm_owned mapping; hh_already_mapped := already_mapped; hh_active := true;
           hh_tensor_owner := at_owner t; hh_owner_pid := getpid acl; hh_device_id := device_id |} ]> handles
    end)) ;;
  mret opaque_handle.

Definition register_explicit_mapped_host_range (acl : Acl) (src_pages : HostTensorArg) : RM Z :=
  let host_ptr := at_data_ptr src_pages in
  let bytes := tensor_bytes src_pages in
  range ← get_host_range acl host_ptr bytes;
  device_id ← get_current_host_mapping_device acl;
  xmodify (with_counters count_explicit_register) ;;
  found ← find_host_mapping_locked (hr_host_addr range) bytes device_id;
  match found with
  | None =>
      new ← create_mapping acl host_ptr bytes device_id range;
      i ← xgets (fun r => length (r_mappings r));
      xmodify (with_mappings (fun ms => ms ++ [new.1])) ;;
      issue_handle acl src_pages bytes device_id range i new.1 new.2
  | Some (i, mapping) =>
      issue_handle acl src_pages bytes device_id range i mapping (negb (hm_owned mapping))
  end.

Definition find_host_mapping_by_id_locked (mapping_id : Z) : RM (option (nat * HostMapping)) :=
  mappings ← xgets r_mappings;
  mret (list_find (fun m => hm_mapping_id m = mapping_id) mappings).

Definition synchronize_before_host_mapping_release_locked (acl : Acl) : RM unit :=
  TORCH_CHECK (aclrtSynchronizeDevice acl =? ACL_SUCCESS) "aclrtSynchronizeDevice before host unregistration failed" ;;
  xmodify (with_trace SynchronizeDevice).

Definition is_kv_cache_block_gather_host_mapping_cached (acl : Acl) (src_pages : HostTensorArg) : RM bool :=
  if negb (at_defined src_pages) || (at_numel src_pages =? 0) then mret false
  else if negb (at_is_cpu src_pages) || negb (at_is_contiguous src_pages) then mret false
  else
    let bytes := tensor_bytes src_pages in
    range ← get_host_range acl (at_data_ptr src_pages) bytes;
    is_host_range_mapping_cached acl range bytes.

Definition register_kv_cache_block_gather_host_pool (acl : Acl) (src_pages : HostTensorArg) : RM Z :=
  TORCH_CHECK (at_defined src_pages) "src_pages is undefined" ;;
  TORCH_CHECK (at_numel src_pages >? 0) "src_pages must not be empty" ;;
  TORCH_CHECK (at_is_cpu src_pages) "src_pages must be a CPU tensor" ;;
  TORCH_CHECK (at_is_contiguous src_pages) "src_pages must be contiguous" ;;
  register_explicit_mapped_host_range acl src_pages.

(** [None]: the handle is unknown. *)
Definition inspect_kv_cache_block_gather_host_pool (acl : Acl) (opaque_handle : Z) : RM (option HostMappingHandle) :=
  get_host_mapping_registry acl ;;
  xgets (fun r => r_handles r !! opaque_handle).

(** Release of the mapping's last handle, as seen by the device. *)
Definition release_mapping (acl : Acl) (mapping : HostMapping) : RM unit :=
  synchronize_before_host_mapping_release_locked acl ;;
  xwhen (hm_owned mapping)
    (TORCH_CHECK (aclrtHostUnregister acl (hm_host_base mapping) =? ACL_SUCCESS) "aclrtHostUnregister failed" ;;
     xmodify (with_trace (HostUnregister (hm_host_base mapping)))).

Definition unregister_kv_cache_block_gather_host_pool (acl : Acl) (opaque_handle : Z) : RM bool :=
  device_id ← get_current_host_mapping_device acl;
  handle_it ← xgets (fun r => r_handles r !! opaque_handle);
  match handle_it with
  | None => mret false
  | Some handle =>
    if negb (hh_active handle) then mret false else
    found ← find_host_mapping_by_id_locked (hh_mapping_id handle);
    match found with
    | None => xthrow (TorchError "active host mapping handle has no mapping")
    | Some (i, mapping) =>
      TORCH_CHECK (hm_explicit_handle_count mapping >? 0) "invalid explicit host mapping reference count" ;;
      TORCH_CHECK (hm_device_id mapping =? device_id) "cannot release a host pool registered on another device" ;;
      let remove_mapping := hm_explicit_handle_count mapping =? 1 in
      xwhen remove_mapping (release_mapping acl mapping) ;;
      xmodify (with_mappings (alter (with_handle_count (fun n => u64 (n - 1))) i)) ;;
      xmodify (with_counters count_explicit_unregister) ;;
      xwhen remove_mapping
        (xwhen (hm_owned mapping) (xmodify (with_counters (count_unregistered (hm_size mapping)))) ;;
         xmodify (with_mappings (filter (fun m => hm_mapping_id m <> hm_mapping_id mapping)))) ;;
      xmodify (with_handles (delete opaque_handle)) ;;
      mret true
    end
  end.

(** The entries of the statistics that are computed from the registry. *)
Record HostMappingStats : Type := {
  st_mapping_count : Z;
  st_mapped_bytes_current : Z;
  st_mapped_bytes_peak : Z;
  st_mapped_bytes_max_region : Z;
  st_owned_mapping_count : Z;
  st_borrowed_mapping_count : Z;
  st_explicit_handle_count : Z;
  st_explicit_handle_storage_count : Z;
  st_counters : HostMappingCounters;
  st_registry_pid : Z }.

Definition get_kv_cache_block_gather_host_mapping_stats (acl : Acl) : RM HostMappingStats :=
  get_host_mapping_registry acl ;;
  r ← xgets id;
  let ms := r_mappings r in
  mret {| st_mapping_count := Z.of_nat (length ms);
          st_mapped_bytes_current := foldl (fun acc m => u64 (acc + hm_size m)) 0 ms;
          st_mapped_bytes_peak := hc_register_bytes_peak (r_counters r);
          st_mapped_bytes_max_region := foldl (fun acc m => if hm_size m >? acc then hm_size m else acc) 0 ms;
          st_owned_mapping_count := foldl (fun acc m => u64 (acc + if hm_owned m then 1 else 0)) 0 ms;
          st_borrowed_mapping_count := foldl (fun acc m => u64 (acc + if hm_owned m then 0 else 1)) 0 ms;
          st_explicit_handle_count := Z.of_nat (base.size (filter (fun p => hh_active p.2 = true) (r_handles r)));
          st_explicit_handle_storage_count := Z.of_nat (base.size (r_handles r));
          st_counters := r_counters r; st_registry_pid := r_pid r |}.
