(* ===== verification/HostRegistryInv.v ===== *)
(** Invariant of the mapped-host registry: identifiers are unique, a mapping's
    reference count is the number of its handles, mappings of one kind do not
    overlap, and the ranges registered with the ACL runtime are exactly the
    owned mappings.  Each operation is specified on its normal and on its
    exceptional exit. *)

From stdpp Require Import gmap.
From S2P Require Import Prelude Exn HostRegistry.

(** ** The invariant *)

(** A mapping without its reference count. *)
Definition shape (m : HostMapping) : HostMapping := with_handle_count (fun _ => 0) m.

(** The handles on a mapping. *)
Definition refs (hs : gmap Z HostMappingHandle) (id : Z) : Z :=
  Z.of_nat (base.size (filter (fun p => hh_mapping_id p.2 = id) hs)).

(** The ranges a sequence of runtime calls leaves registered, base to size;
    [None] if a range is registered twice or unregistered without being so. *)
Definition acl_step (st : option (gmap Z Z)) (c : AclCall) : option (gmap Z Z) :=
  st ≫= fun m =>
  match c with
  | HostRegister addr bytes => match m !! addr with None => Some (<[addr := bytes]> m) | Some _ => None end
  | SynchronizeDevice => Some m
  | HostUnregister addr => match m !! addr with Some _ => Some (delete addr m) | None => None end
  end.
Definition acl_registered (tr : list AclCall) : option (gmap Z Z) := foldl acl_step (Some ∅) tr.

(** A range is unregistered only right after a device-wide fence. *)
Definition fenced (tr : list AclCall) : Prop :=
  forall i addr, tr !! i = Some (HostUnregister addr) -> exists j, i = S j /\ tr !! j = Some SynchronizeDevice.

Definition owned_entries (ms : list HostMapping) : list (Z * Z) :=
  omap (fun m => if hm_owned m then Some (hm_host_base m, hm_size m) else None) ms.
Definition owned_bytes (ms : list HostMapping) : Z := foldr (fun p acc => p.2 + acc) 0 (owned_entries ms).

Definition disjoint_maps (m1 m2 : HostMapping) : Prop :=
  hm_host_base m1 + hm_size m1 <= hm_host_base m2 \/ hm_host_base m2 + hm_size m2 <= hm_host_base m1.

Section Inv.
Variable pg : Z.

Record mapping_ok (next_id : Z) (m : HostMapping) : Prop := {
  mo_id : 0 < hm_mapping_id m < next_id;
  mo_base : 0 <= hm_host_base m;
  mo_size : 0 < hm_size m;
  mo_end : hm_host_base m + hm_size m < 2 ^ 64;
  mo_pages : hm_owned m = true -> (pg | hm_host_base m) /\ (pg | hm_size m) }.

Record static_ok (next_id : Z) (ms : list HostMapping) : Prop := {
  so_ids : NoDup (hm_mapping_id <$> ms);
  so_mapping : forall m, m ∈ ms -> mapping_ok next_id m;
  so_disjoint : forall m1 m2, m1 ∈ ms -> m2 ∈ ms -> hm_mapping_id m1 <> hm_mapping_id m2 ->
                  hm_owned m1 = hm_owned m2 -> disjoint_maps m1 m2 }.

(** A handle and the mapping it is a lease on. *)
Record handle_of (k : Z) (h : HostMappingHandle) (m : HostMapping) : Prop := {
  ho_key : hh_handle h = k;
  ho_active : hh_active h = true;
  ho_id : hh_mapping_id h = hm_mapping_id m;
  ho_base : hh_mapped_host_base h = hm_host_base m;
  ho_size : hh_mapped_bytes h = hm_size m;
  ho_owned : hh_owned h = hm_owned m;
  ho_device : hh_device_id h = hm_device_id m;
  ho_bytes : 0 < hh_requested_bytes h;
  ho_range : hm_host_base m <= hh_requested_host_addr h /\
             hh_requested_host_addr h + hh_requested_bytes h <= hm_host_base m + hm_size m;
  ho_addr : hh_device_addr h = u64 (hm_device_base m + (hh_requested_host_addr h - hm_host_base m)) }.

(** Everything but that no mapping is left without a handle. *)
Record registry_base (r : HostMappingRegistry) : Prop := {
  ro_static : static_ok (r_next_mapping_id r) (shape <$> r_mappings r);
  ro_next_id : 0 < r_next_mapping_id r <= UINT64_MAX;
  ro_next_handle : 0 < r_next_handle r <= INT64_MAX;
  ro_handles : forall k h, r_handles r !! k = Some h ->
                 0 < k < r_next_handle r /\ exists m, m ∈ shape <$> r_mappings r /\ handle_of k h m;
  ro_counts : forall m, m ∈ r_mappings r ->
                hm_explicit_handle_count m = refs (r_handles r) (hm_mapping_id m);
  ro_trace : acl_registered (acl_trace r) = Some (list_to_map (owned_entries (shape <$> r_mappings r)));
  ro_fenced : fenced (acl_trace r);
  ro_bytes : hc_register_bytes_current (r_counters r) = u64 (owned_bytes (shape <$> r_mappings r));
  ro_calls : u64 (hc_register_call_count (r_counters r) - hc_unregister_call_count (r_counters r)) =
             u64 (Z.of_nat (length (owned_entries (shape <$> r_mappings r)))) }.

Definition registry_ok (r : HostMappingRegistry) : Prop :=
  registry_base r /\ forall m, m ∈ r_mappings r -> 0 < hm_explicit_handle_count m.

(** Identifiers are left: 2^64 mappings and 2^63 handles have not been used up. *)
Definition ids_left (r : HostMappingRegistry) : Prop :=
  r_next_mapping_id r < UINT64_MAX /\ r_next_handle r < INT64_MAX.

(** ** Reference counts *)

Lemma refs_insert hs k h id : hs !! k = None ->
  refs (<[k := h]> hs) id = refs hs id + (if decide (hh_mapping_id h = id) then 1 else 0).
Proof.
  intros Hk. unfold refs. case_decide as Hd.
  - rewrite map_filter_insert_True by done. rewrite map_size_insert_None; [lia|].
    apply map_lookup_filter_None. auto.
  - rewrite map_filter_insert_False by done. rewrite delete_id by done. lia.
Qed.

Lemma refs_delete hs k h id : hs !! k = Some h ->
  refs (delete k hs) id = refs hs id - (if decide (hh_mapping_id h = id) then 1 else 0).
Proof.
  intros Hk. pose proof (refs_insert (delete k hs) k h id (lookup_delete_eq hs k)) as H.
  rewrite insert_delete_id in H by done. lia.
Qed.

Lemma refs_none hs id : (forall k h, hs !! k = Some h -> hh_mapping_id h <> id) -> refs hs id = 0.
Proof.
  intros Hn. unfold refs. rewrite (proj2 (map_empty_filter _ _)); [by rewrite map_size_empty|].
  intros k h Hk. simpl. by eapply Hn.
Qed.

Lemma refs_zero hs id k h : refs hs id = 0 -> hs !! k = Some h -> hh_mapping_id h <> id.
Proof.
  intros H0 Hk He. pose proof (refs_delete hs k h id Hk) as Hd. rewrite decide_True in Hd by done.
  unfold refs in *. lia.
Qed.

(** Handles are numbered, so there are fewer than [2^63] of them. *)
Lemma refs_bound hs n id : 0 < n -> (forall k h, hs !! k = Some h -> 0 < k < n) -> 0 <= refs hs id < n.
Proof.
  intros Hn Hk. unfold refs. split; [lia|].
  assert (base.size (filter (fun p => hh_mapping_id p.2 = id) hs) <= base.size (list_to_set (seqZ 1 (n - 1)) : gset Z))%nat
    as Hle.
  { rewrite <- size_dom. apply subseteq_size. intros k (h & Hh)%elem_of_dom.
    apply map_lookup_filter_Some in Hh as [Hh _]. apply elem_of_list_to_set, elem_of_seqZ. specialize (Hk _ _ Hh). lia. }
  rewrite size_list_to_set in Hle by apply NoDup_seqZ. rewrite length_seqZ in Hle. lia.
Qed.

(** ** Arithmetic modulo [2^64] *)

Lemma u64_add_l a b : u64 (u64 a + b) = u64 (a + b).
Proof. apply Z.add_mod_idemp_l. lia. Qed.
Lemma u64_sub_l a b : u64 (u64 a - b) = u64 (a - b).
Proof. apply Zminus_mod_idemp_l. Qed.
Lemma u64_sub_r a b : u64 (a - u64 b) = u64 (a - b).
Proof. apply Zminus_mod_idemp_r. Qed.

(** ** The runtime's view *)

Lemma acl_registered_snoc tr c : acl_registered (tr ++ [c]) = acl_step (acl_registered tr) c.
Proof. unfold acl_registered. by rewrite foldl_snoc. Qed.

Lemma acl_registered_two tr c d : acl_registered (tr ++ [c; d]) = acl_step (acl_step (acl_registered tr) c) d.
Proof. unfold acl_registered. by rewrite foldl_app. Qed.

Lemma fenced_snoc tr c : fenced tr -> (forall addr, c <> HostUnregister addr) -> fenced (tr ++ [c]).
Proof.
  intros Hf Hc i addr Hi. apply lookup_app_Some in Hi as [Hi|[Hge Hi]].
  - destruct (Hf _ _ Hi) as (j & -> & Hj). exists j. split; [done|]. by apply lookup_app_l_Some.
  - apply list_lookup_singleton_Some in Hi as [_ Hi]. by destruct (Hc addr).
Qed.

Lemma fenced_release tr addr : fenced tr -> fenced (tr ++ [SynchronizeDevice] ++ [HostUnregister addr]).
Proof.
  intros Hf i a Hi. rewrite (assoc_L app) in *. apply lookup_app_Some in Hi as [Hi|[Hge Hi]].
  - destruct (fenced_snoc tr SynchronizeDevice Hf ltac:(done) _ _ Hi) as (j & -> & Hj). exists j. split; [done|].
    by apply lookup_app_l_Some.
  - apply list_lookup_singleton_Some in Hi as [Hi _]. rewrite length_app in Hi, Hge. simpl in Hi, Hge.
    exists (length tr). split; [lia|]. apply lookup_app_l_Some. by apply list_lookup_middle.
Qed.

Lemma owned_entries_app l1 l2 : owned_entries (l1 ++ l2) = owned_entries l1 ++ owned_entries l2.
Proof. apply omap_app. Qed.

Lemma owned_bytes_app l1 l2 : owned_bytes (l1 ++ l2) = owned_bytes l1 + owned_bytes l2.
Proof.
  unfold owned_bytes. rewrite owned_entries_app, foldr_app.
  induction (owned_entries l1) as [|p l IH]; simpl; lia.
Qed.

Lemma owned_entries_one m : owned_entries [m] = if hm_owned m then [(hm_host_base m, hm_size m)] else [].
Proof. unfold owned_entries. simpl. by destruct (hm_owned m). Qed.

Lemma owned_bytes_one m : owned_bytes [m] = if hm_owned m then hm_size m else 0.
Proof. unfold owned_bytes. rewrite owned_entries_one. destruct (hm_owned m); simpl; lia. Qed.

Lemma elem_of_owned_entries p ms :
  p ∈ owned_entries ms <-> exists m, m ∈ ms /\ hm_owned m = true /\ p = (hm_host_base m, hm_size m).
Proof.
  unfold owned_entries. rewrite list_elem_of_omap. split.
  - intros (m & Hm & He). exists m. destruct (hm_owned m); [|done]. by injection He as <-.
  - intros (m & Hm & Ho & ->). exists m. by rewrite Ho.
Qed.

Lemma static_bases_NoDup n ms : static_ok n ms -> NoDup (owned_entries ms).*1.
Proof.
  intros [Hids Hm Hd]. induction ms as [|m ms IH]; [constructor|].
  unfold owned_entries. simpl. fold (owned_entries ms). rewrite fmap_cons in Hids. apply list.NoDup_cons in Hids as [Hnin Hids].
  assert (NoDup (owned_entries ms).*1) as Hms by (apply IH; [done|set_solver|set_solver]).
  destruct (hm_owned m) eqn:Ho; [|done]. simpl. apply list.NoDup_cons. split; [|done].
  intros ([b s] & Hb & (m' & Hin & Ho' & [= -> ->])%elem_of_owned_entries)%list_elem_of_fmap. simpl in Hb.
  assert (hm_mapping_id m <> hm_mapping_id m') as Hne by (intros He; apply Hnin; rewrite He; by apply list_elem_of_fmap_2).
  destruct (Hd m m' ltac:(set_solver) ltac:(set_solver) Hne ltac:(congruence));
    pose proof (mo_size _ _ (Hm m ltac:(set_solver))); pose proof (mo_size _ _ (Hm m' ltac:(set_solver))); lia.
Qed.

(** ** Adding and removing a mapping *)

Lemma mapping_ok_mono n n' m : n <= n' -> mapping_ok n m -> mapping_ok n' m.
Proof. intros Hle [[] ? ? ? ?]. split; try done; lia. Qed.

Lemma static_ok_snoc n ms m :
  static_ok n ms -> 0 < n -> hm_mapping_id m = n -> mapping_ok (n + 1) m ->
  (forall m', m' ∈ ms -> hm_owned m' = hm_owned m -> disjoint_maps m' m) ->
  static_ok (n + 1) (ms ++ [m]).
Proof.
  intros [Hids Hm Hd] Hn Hid Hnew Hdis. split.
  - rewrite fmap_app. apply list.NoDup_app. split_and!; [done| |apply NoDup_singleton].
    intros x Hx. rewrite list_elem_of_fmap in Hx. destruct Hx as (m' & -> & Hin). simpl.
    pose proof (mo_id _ _ (Hm _ Hin)). set_unfold. lia.
  - intros m' [Hin| ->%list_elem_of_singleton]%elem_of_app; [|done]. eapply mapping_ok_mono; [|by apply Hm]. lia.
  - intros m1 m2 [H1| ->%list_elem_of_singleton]%elem_of_app [H2| ->%list_elem_of_singleton]%elem_of_app Hne Ho.
    + by apply Hd.
    + by apply Hdis.
    + destruct (Hdis m2 H2 ltac:(done)); [by right|by left].
    + done.
Qed.

Lemma static_ok_remove n l1 m l2 : static_ok n (l1 ++ m :: l2) -> static_ok n (l1 ++ l2).
Proof.
  intros [Hids Hm Hd]. split.
  - rewrite fmap_app in *. simpl in Hids. apply list.NoDup_app in Hids as (H1 & H2 & H3).
    apply list.NoDup_cons in H3 as [_ H3]. apply list.NoDup_app. set_solver.
  - intros m' Hin. apply Hm. set_solver.
  - intros m1 m2 H1 H2. apply Hd; set_solver.
Qed.

Lemma entries_snoc n ms m :
  static_ok n (ms ++ [m]) ->
  (list_to_map (owned_entries (ms ++ [m])) : gmap Z Z) =
    if hm_owned m then <[hm_host_base m := hm_size m]> (list_to_map (owned_entries ms)) else list_to_map (owned_entries ms).
Proof.
  intros Hs. apply static_bases_NoDup in Hs. rewrite owned_entries_app in *. unfold owned_entries at 2. simpl.
  unfold owned_entries at 2 in Hs. simpl in Hs.
  destruct (hm_owned m); simpl in *; [|by rewrite (right_id_L [] app)].
  rewrite list_to_map_snoc; [done|]. rewrite fmap_app in Hs. apply list.NoDup_app in Hs as (_ & Hn & _).
  intros Hin. apply (Hn _ Hin). set_solver.
Qed.

Lemma entries_fresh n ms m :
  static_ok n (ms ++ [m]) -> hm_owned m = true ->
  (list_to_map (owned_entries ms) : gmap Z Z) !! hm_host_base m = None.
Proof.
  intros Hs Ho. apply static_bases_NoDup in Hs. rewrite owned_entries_app in Hs. unfold owned_entries at 2 in Hs.
  simpl in Hs. rewrite Ho, fmap_app in Hs. apply list.NoDup_app in Hs as (_ & Hn & _).
  apply not_elem_of_list_to_map_1. intros Hin. apply (Hn _ Hin). set_solver.
Qed.

Lemma entries_remove n l1 m l2 :
  static_ok n (l1 ++ m :: l2) ->
  (list_to_map (owned_entries (l1 ++ l2)) : gmap Z Z) =
    (if hm_owned m then delete (hm_host_base m) (list_to_map (owned_entries (l1 ++ m :: l2)))
     else list_to_map (owned_entries (l1 ++ m :: l2))) /\
  (hm_owned m = true -> (list_to_map (owned_entries (l1 ++ m :: l2)) : gmap Z Z) !! hm_host_base m = Some (hm_size m)).
Proof.
  intros Hs. apply static_bases_NoDup in Hs. rewrite !owned_entries_app in *.
  change (m :: l2) with ([m] ++ l2) in *. rewrite owned_entries_app in *.
  rewrite owned_entries_one in *. destruct (hm_owned m); [|done].
  assert (owned_entries l1 ++ [(hm_host_base m, hm_size m)] ++ owned_entries l2 ≡ₚ
          (hm_host_base m, hm_size m) :: owned_entries l1 ++ owned_entries l2) as Hp by solve_Permutation.
  rewrite (list_to_map_proper _ _ Hs Hp). simpl. rewrite lookup_insert_eq. split; [|done].
  rewrite delete_insert_id; [done|]. apply not_elem_of_list_to_map_1.
  assert (NoDup ((hm_host_base m, hm_size m) :: owned_entries l1 ++ owned_entries l2).*1) as Hn by (by rewrite <- Hp).
  simpl in Hn. by apply list.NoDup_cons in Hn as [].
Qed.
End Inv.
