(* ===== verification/HostRegistryOps.v ===== *)
(** Specifications of the registry's operations. *)

From stdpp Require Import gmap.
From S2P Require Import Prelude Exn HostRegistry HostRegistryInv.

Section Ops.
Variable pg : Z.
Context (Hpg : 0 < pg).
Abbreviation registry_base := (registry_base pg).
Abbreviation registry_ok := (registry_ok pg).
Abbreviation static_ok := (static_ok pg).
Implicit Types (r : HostMappingRegistry) (acl : Acl).

(** A request below the last page of the address space. *)
Definition user_range (p b : Z) : Prop := 0 <= p /\ 0 <= b /\ p + b <= 2 ^ 64 - pg.

Record range_ok (p b : Z) (rg : HostRange) : Prop := {
  rk_addr : hr_host_addr rg = p;
  rk_bytes : 0 < b;
  rk_start : 0 <= hr_aligned_addr rg <= p;
  rk_near : p < hr_aligned_addr rg + pg;
  rk_end : p + b <= hr_aligned_addr rg + hr_register_size rg < p + b + pg;
  rk_top : hr_aligned_addr rg + hr_register_size rg < 2 ^ 64;
  rk_pages : (pg | hr_aligned_addr rg) /\ (pg | hr_register_size rg) }.

Lemma round_up_pages v : 0 <= v ->
  let q := (v + pg - 1) /c pg * pg in v <= q < v + pg /\ (pg | q).
Proof.
  intros Hv q. pose proof (ceil_quot_spec v pg Hv Hpg) as (H1 & H2 & H3). fold q in H2. subst q.
  split; [lia|]. by exists ((v + pg - 1) /c pg).
Qed.

Lemma get_host_range_spec acl p b r :
  sysconf_PAGESIZE acl = pg -> user_range p b ->
  xwp (get_host_range acl p b) (fun rg r' => r' = r /\ range_ok p b rg) (fun r' => r' = r) r.
Proof.
  intros Hsys (Hp & Hb & Htop). unfold get_host_range, round_up_u64, TORCH_CHECK. rewrite Hsys.
  repeat xwp_step; try done; bool_prop. split; [done|].
  rewrite (quot_nonneg_div p) by lia. pose proof (Z.div_mod p pg ltac:(lia)). pose proof (Z.mod_pos_bound p pg Hpg).
  pose proof (Z.div_pos p pg Hp Hpg). clear H3 H5. generalize dependent (p mod pg). generalize dependent (p / pg).
  intros q Hq z Hz1 Hz2.
  assert (0 <= p - q * pg + b) as Hv by (clear - Hb Hz1 Hz2; lia). destruct (round_up_pages _ Hv) as [Hr Hd].
  split; simpl; try lia. split; [by exists q|done].
Qed.

Lemma get_current_host_mapping_device_spec acl r :
  xwp (get_current_host_mapping_device acl)
    (fun d r' => r' = r /\ r_pid r = getpid acl /\ d = (aclrtGetDevice acl).2) (fun r' => r' = r) r.
Proof.
  unfold get_current_host_mapping_device, get_host_mapping_registry, TORCH_CHECK.
  destruct (aclrtGetDevice acl) as [ret d]. repeat xwp_step; try done. by bool_prop.
Qed.

Lemma mapping_end_eq n r m : static_ok n (shape <$> r_mappings r) -> m ∈ r_mappings r ->
  mapping_end m = hm_host_base m + hm_size m.
Proof.
  intros Hs Hm. apply u64_id. pose proof (so_mapping _ _ _ Hs (shape m) (list_elem_of_fmap_2 _ _ _ Hm)) as [? ? ? ? ?].
  simpl in *. lia.
Qed.

Lemma holds_range_iff n r m p e : static_ok n (shape <$> r_mappings r) -> m ∈ r_mappings r ->
  holds_range p e m = true <-> hm_host_base m <= p /\ e <= hm_host_base m + hm_size m.
Proof.
  intros Hs Hm. unfold holds_range. rewrite (mapping_end_eq n r) by done. by rewrite andb_true_iff, Z.geb_leb, !Z.leb_le.
Qed.

Lemma find_host_mapping_locked_spec n p b d r :
  static_ok n (shape <$> r_mappings r) -> user_range p b ->
  xwp (find_host_mapping_locked p b d)
    (fun o r' => r' = r /\
       match o with
       | Some (i, m) => r_mappings r !! i = Some m /\ hm_host_base m <= p /\ p + b <= hm_host_base m + hm_size m /\
                        hm_device_id m = d
       | None => forall m, m ∈ r_mappings r -> ~ (hm_host_base m <= p /\ p + b <= hm_host_base m + hm_size m)
       end)
    (fun r' => r' = r) r.
Proof.
  intros Hs (Hp & Hb & Htop). unfold find_host_mapping_locked, TORCH_CHECK. rewrite (u64_id (p + b)) by lia.
  repeat xwp_step; try done. destruct (list_find _ _) as [[i m]|] eqn:Hf; repeat xwp_step; try done; (split; [done|]).
  - apply list_find_Some in Hf as (Hi & Hh & _). bool_prop.
    apply (holds_range_iff n r) in Hh; [|done|by eapply list_elem_of_lookup_2]. tauto.
  - intros m Hm Hin. apply list_find_None in Hf. rewrite list.Forall_forall in Hf. apply (Hf m Hm).
    by apply (holds_range_iff n r).
Qed.

Lemma find_overlapping_loop_spec p e ms r :
  (forall m, m ∈ ms -> mapping_end m = hm_host_base m + hm_size m) ->
  xwp (find_overlapping_loop p e ms)
    (fun o r' => r' = r /\ (o = None -> forall m, m ∈ ms -> e <= hm_host_base m \/ hm_host_base m + hm_size m <= p))
    (fun r' => r' = r) r.
Proof.
  induction ms as [|m ms IH]; intros Hend; simpl; unfold TORCH_CHECK; repeat xwp_step; try done.
  - set_solver.
  - eapply xwp_mono; [apply IH; set_solver| |done]. intros o r' [-> Ho]. split; [done|].
    intros -> m' [-> |Hm']%elem_of_cons; [|by apply Ho].
    rewrite Hend in * by set_solver. apply Bool.andb_false_iff in E as [E|E]; bool_prop; lia.
Qed.

Lemma check_no_overlap_spec n p b r :
  static_ok n (shape <$> r_mappings r) -> user_range p b ->
  xwp (check_no_partial_host_mapping_overlap_locked p b)
    (fun _ r' => r' = r /\ forall m, m ∈ r_mappings r -> p + b <= hm_host_base m \/ hm_host_base m + hm_size m <= p)
    (fun r' => r' = r) r.
Proof.
  intros Hs (Hp & Hb & Htop).
  unfold check_no_partial_host_mapping_overlap_locked, find_overlapping_host_mapping_locked, TORCH_CHECK.
  rewrite (u64_id (p + b)) by lia. repeat xwp_step. eapply xwp_mono; [apply find_overlapping_loop_spec| |done].
  - intros m Hm. by eapply mapping_end_eq.
  - intros o r' [-> Ho]. apply xwp_check; [|done]. intros He. destruct o; [done|]. eauto.
Qed.

(** A request that misses a mapping made of whole pages, rounded out to whole
    pages, still misses it. *)
Lemma aligned_disjoint p b rg base size :
  range_ok p b rg -> (pg | base) -> (pg | size) ->
  p + b <= base \/ base + size <= p ->
  hr_aligned_addr rg + hr_register_size rg <= base \/ base + size <= hr_aligned_addr rg.
Proof.
  intros [? ? ? ? ? ? [[x Hx] [y Hy]]] [u Hu] [v Hv] [Hd|Hd]; subst base size; rewrite Hx, Hy in *.
  - left. assert (x + y < u + 1) by (apply (Z.mul_lt_mono_pos_r pg); lia).
    assert ((x + y) * pg <= u * pg) by (apply Z.mul_le_mono_nonneg_r; lia). lia.
  - right. assert (u + v < x + 1) by (apply (Z.mul_lt_mono_pos_r pg); lia).
    assert ((u + v) * pg <= x * pg) by (apply Z.mul_le_mono_nonneg_r; lia). lia.
Qed.

(** *** A new mapping *)

(** The state after [create_mapping] and the mapping it returns. *)
Record created (p b d : Z) (r r' : HostMappingRegistry) (m : HostMapping) : Prop := {
  cr_pid : r_pid r' = r_pid r;
  cr_mappings : r_mappings r' = r_mappings r;
  cr_handles : r_handles r' = r_handles r;
  cr_next_id : r_next_mapping_id r' = r_next_mapping_id r + 1;
  cr_next_handle : r_next_handle r' = r_next_handle r;
  cr_counters : r_counters r' =
    (if hm_owned m then count_registered (hm_size m) else count_borrowed) (r_counters r);
  cr_trace : acl_trace r' =
    acl_trace r ++ if hm_owned m then [HostRegister (hm_host_base m) (hm_size m)] else [];
  cr_id : hm_mapping_id m = r_next_mapping_id r;
  cr_count : hm_explicit_handle_count m = 0;
  cr_device : hm_device_id m = d;
  cr_range : hm_host_base m <= p /\ p + b <= hm_host_base m + hm_size m;
  cr_ok : mapping_ok pg (r_next_mapping_id r + 1) m;
  cr_disjoint : forall m', m' ∈ r_mappings r -> mapping_ok pg (r_next_mapping_id r) (shape m') ->
                  hm_owned m' = hm_owned m -> disjoint_maps m' m }.

Lemma allocate_spec r :
  0 < r_next_mapping_id r < UINT64_MAX ->
  xwp allocate_host_mapping_id_locked
    (fun id r' => id = r_next_mapping_id r /\ r' = with_next_mapping_id (id + 1) r) (fun _ => False) r.
Proof.
  intros Hn. unfold allocate_host_mapping_id_locked, TORCH_CHECK. repeat xwp_step; [done|].
  apply Bool.andb_false_iff in H as [H|H]; bool_prop; lia.
Qed.

Lemma create_mapping_spec acl p b d rg r :
  registry_base r -> r_next_mapping_id r < UINT64_MAX -> user_range p b -> range_ok p b rg ->
  xwp (create_mapping acl p b d rg) (fun x r' => created p b d r r' x.1 /\ x.2 = negb (hm_owned x.1)) (fun r' => r' = r) r.
Proof.
  intros Hr Hid Hu Hk. pose proof (ro_next_id _ _ Hr) as Hn. pose proof Hu as (Hp & Hb & Htop).
  pose proof Hk as [Ha ? ? ? ? ? ?]. unfold create_mapping. rewrite Ha.
  eapply xwp_seq; [apply (check_no_overlap_spec _ _ _ _ (ro_static _ _ Hr) Hu)|]. intros _ r1 [-> Hmiss].
  destruct (aclrtHostGetDevicePointer acl p) as [lret lptr]. xwp_step; [|].
  - eapply xwp_seq; [eapply xwp_mono; [apply allocate_spec; lia|done|done]|]. intros id r1 [-> ->]. repeat xwp_step.
    split; [|done]. split; try done; simpl; try lia.
    + by rewrite (right_id_L [] app).
    + split; simpl; try done; lia.
    + intros m' Hm' _ _. unfold disjoint_maps. simpl. destruct (Hmiss m' Hm'); [right|left]; lia.
  - destruct (aclrtHostRegister acl _ _) as [rret rbase]. unfold TORCH_CHECK. repeat xwp_step; [|done].
    eapply xwp_mono; [apply allocate_spec; simpl; lia| |done]. intros id r1 [-> ->]. repeat xwp_step.
    split; [|done]. split; try done; simpl; try lia.
    + split; simpl; try done; try lia.
    + intros m' Hm' Hok Ho. destruct (mo_pages _ _ _ Hok Ho) as [H1 H2]. simpl in H1, H2.
      unfold disjoint_maps. simpl. destruct (aligned_disjoint p b rg _ _ Hk H1 H2 (Hmiss m' Hm')); [by right|by left].
Qed.

(** *** Leases *)

Lemma shape_alter f i (ms : list HostMapping) : shape <$> alter (with_handle_count f) i ms = shape <$> ms.
Proof. revert i. induction ms as [|m ms IH]; intros [|i]; simpl; [done..|]. f_equal. apply IH. Qed.

Lemma ids_differ n (ms : list HostMapping) i j m m' :
  static_ok n (shape <$> ms) -> ms !! i = Some m -> ms !! j = Some m' -> i <> j -> hm_mapping_id m' <> hm_mapping_id m.
Proof.
  intros Hs Hi Hj Hne Heq. apply Hne. apply (NoDup_lookup _ _ _ (hm_mapping_id m) (so_ids _ _ _ Hs)).
  - by rewrite !list_lookup_fmap, Hi.
  - rewrite !list_lookup_fmap, Hj. simpl. by rewrite Heq.
Qed.

(** The state with one more handle [h], numbered [k], on mapping [i]. *)
Definition leased (k : Z) (h : HostMappingHandle) (i : nat) (r : HostMappingRegistry) : HostMappingRegistry :=
  with_handles <[k := h]> (with_mappings (alter (with_handle_count (fun n => u64 (n + 1))) i) (with_next_handle (k + 1) r)).

Lemma handle_fresh r : registry_base r -> r_handles r !! r_next_handle r = None.
Proof.
  intros Hr. destruct (r_handles r !! r_next_handle r) eqn:E; [|done].
  destruct (ro_handles _ _ Hr _ _ E). lia.
Qed.

Lemma count_bound r id : registry_base r -> 0 <= refs (r_handles r) id < r_next_handle r.
Proof.
  intros Hr. apply refs_bound; [apply (ro_next_handle _ _ Hr)|]. intros k h Hk. apply (ro_handles _ _ Hr _ _ Hk).
Qed.

Lemma leased_ok r h i m :
  registry_base r -> r_next_handle r < INT64_MAX -> r_mappings r !! i = Some m ->
  handle_of (r_next_handle r) h (shape m) ->
  (forall j m', j <> i -> r_mappings r !! j = Some m' -> 0 < hm_explicit_handle_count m') ->
  registry_ok (leased (r_next_handle r) h i r).
Proof.
  intros Hr Hlt Hi Hh Hpos. pose proof (handle_fresh r Hr) as Hfresh.
  assert (forall m', m' ∈ alter (with_handle_count (fun n => u64 (n + 1))) i (r_mappings r) ->
            hm_explicit_handle_count m' = refs (<[r_next_handle r := h]> (r_handles r)) (hm_mapping_id m') /\
            0 < hm_explicit_handle_count m') as Hcount.
  { intros m' (j & Hj)%list_elem_of_lookup. destruct (decide (j = i)) as [->|Hne].
    - rewrite list_lookup_alter_eq, Hi in Hj. injection Hj as <-. simpl.
      rewrite refs_insert, decide_True by (done || apply (ho_id _ _ _ Hh)).
      rewrite (ro_counts _ _ Hr m) by (by eapply list_elem_of_lookup_2).
      pose proof (count_bound r (hm_mapping_id m) Hr). rewrite u64_id by (unfold INT64_MAX in *; lia). lia.
    - rewrite list_lookup_alter_ne in Hj by done. split; [|by apply (Hpos j)].
      pose proof (ids_differ _ _ _ _ _ _ (ro_static _ _ Hr) Hi Hj ltac:(done)) as Hid.
      rewrite refs_insert, decide_False by (done || rewrite (ho_id _ _ _ Hh); simpl; congruence).
      rewrite (ro_counts _ _ Hr m') by (by eapply list_elem_of_lookup_2). lia. }
  split; [|intros m' Hm'; by apply Hcount]. pose proof Hr as [H1 H2 H3 H4 H5 H6 H7 H8 H9].
  split; simpl; rewrite ?shape_alter; try done; [lia| |intros m' Hm'; by apply Hcount].
  intros k h' [[<- <-]|[Hne Hk]]%lookup_insert_Some.
  - split; [lia|]. exists (shape m). split; [|done]. apply list_elem_of_fmap_2. by eapply list_elem_of_lookup_2.
  - destruct (H4 _ _ Hk) as [? ?]. split; [lia|done].
Qed.

Lemma issue_handle_spec acl t b d rg i m am r p :
  registry_base r -> r_next_handle r < INT64_MAX -> r_mappings r !! i = Some m -> range_ok p b rg ->
  hm_host_base m <= p -> p + b <= hm_host_base m + hm_size m -> hm_device_id m = d ->
  xwp (issue_handle acl t b d rg i m am)
    (fun k r' => k = r_next_handle r /\ exists h, r' = leased k h i r /\ handle_of k h (shape m) /\
       hh_requested_host_addr h = p /\ hh_requested_bytes h = b /\ hh_tensor_owner h = at_owner t /\ hh_already_mapped h = am)
    (fun _ => False) r.
Proof.
  intros Hr Hlt Hi Hk Hb He Hd. pose proof (ro_next_handle _ _ Hr). unfold issue_handle, TORCH_CHECK. repeat xwp_step.
  - split; [done|]. eexists. split.
    { unfold leased, with_handles. simpl. by rewrite (handle_fresh r Hr). }
    simpl. rewrite (rk_addr _ _ _ Hk). split_and!; try done. split; try done. apply Hk.
  - apply Bool.andb_false_iff in H0 as [H0|H0]; bool_prop; lia.
Qed.

(** *** Registration *)

Lemma count_explicit_register_base r : registry_base r -> registry_base (with_counters count_explicit_register r).
Proof. intros []. by split. Qed.

Lemma pushed_counters n c l (m : HostMapping) :
  hc_register_bytes_current c = u64 (owned_bytes l) ->
  u64 (hc_register_call_count c - hc_unregister_call_count c) = u64 (Z.of_nat (length (owned_entries l))) ->
  hm_size m = n ->
  let c' := (if hm_owned m then count_registered n else count_borrowed) c in
  hc_register_bytes_current c' = u64 (owned_bytes (l ++ [m])) /\
  u64 (hc_register_call_count c' - hc_unregister_call_count c') = u64 (Z.of_nat (length (owned_entries (l ++ [m])))).
Proof.
  intros Hb Hc <- c'. subst c'. rewrite owned_bytes_app, owned_entries_app, length_app, owned_bytes_one, owned_entries_one. destruct (hm_owned m); simpl.
  - rewrite Hb, u64_add_l, u64_sub_l. split; [f_equal; lia|].
    replace (_ + 1 - _) with (hc_register_call_count c - hc_unregister_call_count c + 1) by lia.
    rewrite <- u64_add_l, Hc, u64_add_l. f_equal. lia.
  - rewrite Hb, Hc. split; f_equal; lia.
Qed.

Lemma pushed_base p b d r r1 m :
  registry_base r -> r_next_mapping_id r < UINT64_MAX -> created p b d r r1 m ->
  registry_base (with_mappings (fun ms => ms ++ [m]) r1).
Proof.
  intros Hr Hid [Hpid Hms Hhs Hni Hnh Hcs Htr Hmid Hcnt Hdev Hrg Hok Hdis].
  pose proof Hr as [H1 H2 H3 H4 H5 H6 H7 H8 H9].
  assert (static_ok (r_next_mapping_id r + 1) ((shape <$> r_mappings r) ++ [shape m])) as Hs.
  { apply static_ok_snoc; [done|lia|done| |].
    - destruct Hok. by split.
    - intros m' (m0 & -> & Hin)%list_elem_of_fmap Ho.
      by apply (Hdis m0 Hin (so_mapping _ _ _ H1 _ (list_elem_of_fmap_2 _ _ _ Hin))). }
  destruct (pushed_counters (hm_size m) (r_counters r) (shape <$> r_mappings r) (shape m) H8 H9 eq_refl) as [Hcb Hcc].
  split; simpl; rewrite ?Hms, ?Hhs, ?Hni, ?Hnh, ?Hcs, ?Htr, ?fmap_app; simpl; try done; try lia.
  - intros k h Hk. destruct (H4 _ _ Hk) as (? & m' & Hm' & Hh). split; [lia|]. exists m'. split; [set_solver|done].
  - intros m' [Hin| ->%list_elem_of_singleton]%elem_of_app; [by apply H5|].
    rewrite Hcnt, refs_none; [done|]. intros k h Hk. destruct (H4 _ _ Hk) as (_ & m' & Hm' & Hh).
    rewrite (ho_id _ _ _ Hh). pose proof (mo_id _ _ _ (so_mapping _ _ _ H1 _ Hm')). lia.
  - rewrite (entries_snoc _ _ _ _ Hs). simpl. pose proof (entries_fresh _ _ _ _ Hs) as Hf. simpl in Hf.
    destruct (hm_owned m); [|by rewrite (right_id_L [] app)].
    rewrite acl_registered_snoc, H6. simpl. by rewrite Hf.
  - destruct (hm_owned m); [by apply fenced_snoc|by rewrite (right_id_L [] app)].
Qed.

(** What a successful registration has done. *)
Record registered (t : HostTensorArg) (r r' : HostMappingRegistry) (k : Z) : Prop := {
  rg_key : k = r_next_handle r /\ r_next_handle r' = k + 1;
  rg_pid : r_pid r' = r_pid r;
  rg_handle : exists h, r_handles r' = <[k := h]> (r_handles r) /\
     hh_requested_host_addr h = at_data_ptr t /\ hh_requested_bytes h = tensor_bytes t /\ hh_tensor_owner h = at_owner t /\
     ((exists i m, r_mappings r !! i = Some m /\ hh_mapping_id h = hm_mapping_id m /\
         r_mappings r' = alter (with_handle_count (fun n => u64 (n + 1))) i (r_mappings r)) \/
      (exists m, hm_explicit_handle_count m = 1 /\ hh_mapping_id h = hm_mapping_id m /\
         r_mappings r' = r_mappings r ++ [m])) }.

Lemma register_explicit_spec acl t r :
  sysconf_PAGESIZE acl = pg -> user_range (at_data_ptr t) (tensor_bytes t) -> registry_ok r -> ids_left r ->
  xwp (register_explicit_mapped_host_range acl t)
    (fun k r' => registry_ok r' /\ registered t r r' k)
    (fun r' => r' = r \/ r' = with_counters count_explicit_register r) r.
Proof.
  intros Hsys Hu [Hr Hpos] [Hid Hha]. unfold register_explicit_mapped_host_range.
  eapply xwp_seq; [eapply xwp_mono; [by apply get_host_range_spec|done|by left]|]. intros rg r0 [-> Hk].
  eapply xwp_seq; [eapply xwp_mono; [apply get_current_host_mapping_device_spec|done|by left]|].
  intros d r0 (-> & _ & _). xwp_step. xwp_step. set (r1 := with_counters count_explicit_register r).
  pose proof (count_explicit_register_base r Hr) as Hr1. fold r1 in Hr1. rewrite (rk_addr _ _ _ Hk).
  eapply xwp_seq; [eapply xwp_mono; [apply (find_host_mapping_locked_spec _ _ _ _ _ (ro_static _ _ Hr1) Hu)|done|by right]|].
  intros [[i m]|] r0 [-> Hf].
  - destruct Hf as (Hi & Hb & He & Hd). eapply xwp_mono; [by apply issue_handle_spec with (p := at_data_ptr t)| |done].
    intros k r' (-> & h & -> & Hh & ? & ? & ? & ?). split.
    + apply leased_ok with (m := m); try done. intros j m' _ Hj. apply Hpos. by eapply list_elem_of_lookup_2.
    + split; try done. exists h. split_and!; try done. left. exists i, m. split_and!; try done. apply (ho_id _ _ _ Hh).
  - eapply xwp_seq; [eapply xwp_mono; [by apply create_mapping_spec|done|by right]|]. intros [m am] r2 [Hc _]. simpl in *.
    pose proof (pushed_base _ _ _ _ _ _ Hr1 Hid Hc) as Hr2. repeat xwp_step.
    eapply xwp_mono; [apply issue_handle_spec with (p := at_data_ptr t) (r := with_mappings (fun ms => ms ++ [m]) r2)| |done];
      try done; try apply Hc.
    + simpl. by rewrite (cr_next_handle _ _ _ _ _ _ Hc).
    + simpl. apply list_lookup_middle. done.
    + intros k r' (-> & h & -> & Hh & ? & ? & ? & ?). simpl. rewrite (cr_next_handle _ _ _ _ _ _ Hc). split.
      * rewrite <- (cr_next_handle _ _ _ _ _ _ Hc).
        apply (leased_ok (with_mappings (fun ms => ms ++ [m]) r2)) with (m := m); try done; simpl.
        { by rewrite (cr_next_handle _ _ _ _ _ _ Hc). }
        { by apply list_lookup_middle. }
        intros j m' Hne Hj. rewrite (cr_mappings _ _ _ _ _ _ Hc) in *. apply Hpos.
        apply lookup_app_Some in Hj as [Hj|[Hge Hj]]; [by eapply list_elem_of_lookup_2|].
        apply list_lookup_singleton_Some in Hj as [Hj _]. lia.
      * split; try done; simpl.
        { by rewrite (cr_pid _ _ _ _ _ _ Hc). }
        exists h. rewrite (cr_handles _ _ _ _ _ _ Hc). split_and!; try done.
        right. exists (with_handle_count (fun n => u64 (n + 1)) m). simpl.
        rewrite (cr_count _ _ _ _ _ _ Hc), (cr_mappings _ _ _ _ _ _ Hc). split_and!; [done|apply (ho_id _ _ _ Hh)|].
        rewrite alter_app_r_alt by lia. by rewrite Nat.sub_diag.
Qed.

(** *** Release *)

Lemma sync_base r : registry_base r -> registry_base (with_trace SynchronizeDevice r).
Proof.
  intros [H1 H2 H3 H4 H5 H6 H7 H8 H9]. split; try done; simpl.
  - by rewrite acl_registered_snoc, H6.
  - by apply fenced_snoc.
Qed.

(** The state after a sequence of runtime calls. *)
Definition with_calls (cs : list AclCall) (r : HostMappingRegistry) : HostMappingRegistry :=
  {| r_pid := r_pid r; r_mappings := r_mappings r; r_handles := r_handles r; r_next_mapping_id := r_next_mapping_id r;
     r_next_handle := r_next_handle r; r_counters := r_counters r; acl_trace := acl_trace r ++ cs |}.

(** A released mapping: fenced, and unregistered when owned. *)
Definition fence_calls (m : HostMapping) : list AclCall :=
  SynchronizeDevice :: if hm_owned m then [HostUnregister (hm_host_base m)] else [].

Lemma release_mapping_spec acl m r :
  xwp (release_mapping acl m)
    (fun _ r' => r' = with_calls (fence_calls m) r)
    (fun r' => r' = r \/ r' = with_trace SynchronizeDevice r) r.
Proof.
  unfold release_mapping, synchronize_before_host_mapping_release_locked, TORCH_CHECK, fence_calls.
  repeat xwp_step; [|by left]. apply xwp_when; intros ->; [|done].
  repeat xwp_step; [|by right]. unfold with_trace, with_calls. simpl. by rewrite <- (assoc_L app).
Qed.

Lemma split_at {A} (l : list A) i x : l !! i = Some x -> exists l1 l2, l = l1 ++ x :: l2 /\ i = length l1.
Proof. intros (l1 & l2 & -> & Hl)%list_elem_of_split_length. by exists l1, l2. Qed.

Lemma alter_middle {A} (f : A -> A) (l1 l2 : list A) x : alter f (length l1) (l1 ++ x :: l2) = l1 ++ f x :: l2.
Proof. rewrite alter_app_r_alt by lia. by rewrite Nat.sub_diag. Qed.

Lemma filter_ids n (l1 l2 : list HostMapping) m m' :
  static_ok n (shape <$> l1 ++ m :: l2) -> hm_mapping_id m' = hm_mapping_id m ->
  filter (fun x => hm_mapping_id x <> hm_mapping_id m) (l1 ++ m' :: l2) = l1 ++ l2.
Proof.
  intros Hs Hid. assert (forall l : list HostMapping, (forall x, x ∈ l -> hm_mapping_id x <> hm_mapping_id m) ->
    filter (fun x => hm_mapping_id x <> hm_mapping_id m) l = l) as Hkeep.
  { induction l as [|x l IH]; intros Hl; [done|]. rewrite filter_cons_True by set_solver. rewrite IH; set_solver. }
  rewrite list.filter_app, filter_cons_False by (rewrite Hid; auto).
  pose proof (so_ids _ _ _ Hs) as Hn. rewrite <- list_fmap_compose, fmap_app in Hn. simpl in Hn.
  apply list.NoDup_app in Hn as (_ & Hn1 & [Hn2 _]%list.NoDup_cons).
  rewrite !Hkeep; [done|intros x Hx Hi..].
  - apply Hn2. rewrite <- Hi. by apply (list_elem_of_fmap_2 (hm_mapping_id ∘ shape)).
  - apply (Hn1 (hm_mapping_id x)); [by apply (list_elem_of_fmap_2 (hm_mapping_id ∘ shape))|]. rewrite Hi. set_solver.
Qed.

(** The state after the handle [k] on mapping [i] has been given back. *)
Definition released (k : Z) (i : nat) (m : HostMapping) (r : HostMappingRegistry) : HostMappingRegistry :=
  let last := hm_explicit_handle_count m =? 1 in
  let r1 := with_calls (if last then fence_calls m else []) r in
  let r2 := with_counters (fun c => let c1 := count_explicit_unregister c in
              if last && hm_owned m then count_unregistered (hm_size m) c1 else c1) r1 in
  with_handles (delete k)
    (with_mappings (fun ms => let ms1 := alter (with_handle_count (fun n => u64 (n - 1))) i ms in
       if last then filter (fun x => hm_mapping_id x <> hm_mapping_id m) ms1 else ms1) r2).

Lemma unregister_spec acl k r :
  registry_ok r ->
  xwp (unregister_kv_cache_block_gather_host_pool acl k)
    (fun b r' => match r_handles r !! k with
       | None => b = false /\ r' = r
       | Some h => b = true /\ exists i m, r_mappings r !! i = Some m /\ hm_mapping_id m = hh_mapping_id h /\
                     hm_device_id m = (aclrtGetDevice acl).2 /\ r' = released k i m r
       end)
    (fun r' => r' = r \/ r' = with_trace SynchronizeDevice r) r.
Proof.
  intros [Hr Hpos]. unfold unregister_kv_cache_block_gather_host_pool.
  eapply xwp_seq; [eapply xwp_mono; [apply get_current_host_mapping_device_spec|done|by left]|].
  intros d r0 (-> & _ & Hd). repeat xwp_step. destruct (r_handles r !! k) as [h|] eqn:Hk; [|done].
  destruct (ro_handles _ _ Hr _ _ Hk) as (_ & m0 & (m1 & -> & Hm1)%list_elem_of_fmap & Hh).
  rewrite (ho_active _ _ _ Hh). simpl. unfold find_host_mapping_by_id_locked, TORCH_CHECK. repeat xwp_step.
  destruct (list_find _ _) as [[i m]|] eqn:Hf.
  2:{ exfalso. apply list_find_None in Hf. rewrite list.Forall_forall in Hf. apply (Hf m1 Hm1). by rewrite (ho_id _ _ _ Hh). }
  apply list_find_Some in Hf as (Hi & Hid & _). repeat xwp_step; [|by left..]. bool_prop.
  apply xwp_when; intros Hlast.
  - eapply xwp_mono; [apply release_mapping_spec| |done]. intros _ r1 ->. rewrite Hlast. repeat xwp_step. cbn [xwhen]. apply xwp_bind, xwp_when; intros Ho; repeat xwp_step; (split; [done|]); exists i, m; split_and!; try congruence;
      unfold released, fence_calls; rewrite Hlast, Ho; reflexivity.
  - rewrite Hlast. repeat xwp_step. simpl. split; [done|]. exists i, m. split_and!; try congruence.
    unfold released. rewrite Hlast. unfold with_calls. simpl. by rewrite (right_id_L [] app).
Qed.

Lemma removed_counters c (l1 l2 : list HostMapping) m :
  hc_register_bytes_current c = u64 (owned_bytes (l1 ++ m :: l2)) ->
  u64 (hc_register_call_count c - hc_unregister_call_count c) = u64 (Z.of_nat (length (owned_entries (l1 ++ m :: l2)))) ->
  let c' := if hm_owned m then count_unregistered (hm_size m) (count_explicit_unregister c)
            else count_explicit_unregister c in
  hc_register_bytes_current c' = u64 (owned_bytes (l1 ++ l2)) /\
  u64 (hc_register_call_count c' - hc_unregister_call_count c') = u64 (Z.of_nat (length (owned_entries (l1 ++ l2)))).
Proof.
  change (m :: l2) with ([m] ++ l2).
  rewrite !owned_bytes_app, !owned_entries_app, !length_app, owned_bytes_one, owned_entries_one.
  intros Hb Hc. simpl. destruct (hm_owned m); simpl in *.
  - rewrite Hb, u64_sub_l, u64_sub_r. split; [f_equal; lia|].
    replace (_ - (_ + 1)) with (hc_register_call_count c - hc_unregister_call_count c - 1) by lia.
    rewrite <- u64_sub_l, Hc, u64_sub_l. f_equal. lia.
  - rewrite Hb, Hc. split; f_equal; lia.
Qed.

Lemma released_more r k h i m :
  registry_ok r -> r_handles r !! k = Some h -> r_mappings r !! i = Some m -> hm_mapping_id m = hh_mapping_id h ->
  hm_explicit_handle_count m <> 1 -> registry_ok (released k i m r).
Proof.
  intros [Hr Hpos] Hk Hi Hid Hne. unfold released. rewrite (proj2 (Z.eqb_neq _ _) Hne). simpl.
  assert (m ∈ r_mappings r) as Hm by (by eapply list_elem_of_lookup_2). specialize (Hpos m Hm) as Hp.
  assert (forall m', m' ∈ alter (with_handle_count (fun n => u64 (n - 1))) i (r_mappings r) ->
            hm_explicit_handle_count m' = refs (delete k (r_handles r)) (hm_mapping_id m') /\
            0 < hm_explicit_handle_count m') as Hcount.
  { intros m' (j & Hj)%list_elem_of_lookup. destruct (decide (j = i)) as [->|Hji].
    - rewrite list_lookup_alter_eq, Hi in Hj. injection Hj as <-. simpl. rewrite (refs_delete _ _ h), decide_True by done.
      pose proof (ro_counts _ _ Hr m Hm) as Hc. pose proof (count_bound r (hm_mapping_id m) Hr).
      pose proof (ro_next_handle _ _ Hr). rewrite u64_id by (unfold INT64_MAX in *; lia). lia.
    - rewrite list_lookup_alter_ne in Hj by done. assert (m' ∈ r_mappings r) by (by eapply list_elem_of_lookup_2).
      split; [|by apply Hpos]. pose proof (ids_differ _ _ _ _ _ _ (ro_static _ _ Hr) Hi Hj ltac:(done)).
      rewrite (refs_delete _ _ h), decide_False by (done || congruence). rewrite (ro_counts _ _ Hr m') by done. lia. }
  split; [|intros m' Hm'; by apply Hcount]. destruct Hr as [H1 H2 H3 H4 H5 H6 H7 H8 H9].
  split; simpl; rewrite ?shape_alter, ?(right_id_L [] app); try done; [|intros m' Hm'; by apply Hcount].
  intros k' h' [_ Hk']%lookup_delete_Some. by apply H4.
Qed.

Lemma released_last r k h i m :
  registry_ok r -> r_handles r !! k = Some h -> r_mappings r !! i = Some m -> hm_mapping_id m = hh_mapping_id h ->
  hm_explicit_handle_count m = 1 -> registry_ok (released k i m r).
Proof.
  intros [Hr Hpos] Hk Hi Hid Hone. pose proof Hr as [H1 H2 H3 H4 H5 H6 H7 H8 H9].
  destruct (split_at _ _ _ Hi) as (l1 & l2 & Hms & ->).
  assert (refs (delete k (r_handles r)) (hm_mapping_id m) = 0) as Hzero.
  { rewrite (refs_delete _ _ h), decide_True by done. rewrite <- (H5 m), Hone; [done|]. rewrite Hms. set_solver. }
  unfold released. rewrite Hone. simpl. rewrite Hms in *.
  assert (filter (fun x => hm_mapping_id x <> hm_mapping_id m)
            (alter (with_handle_count (fun n => u64 (n - 1))) (length l1) (l1 ++ m :: l2)) = l1 ++ l2) as Hfil
    by (rewrite alter_middle; by eapply filter_ids).
  rewrite fmap_app, fmap_cons in *.
  assert (forall m', m' ∈ l1 ++ l2 -> hm_mapping_id m' <> hm_mapping_id m) as Hids.
  { intros m' Hm'. rewrite <- Hfil in Hm'. by apply list_elem_of_filter in Hm' as []. }
  destruct (entries_remove _ _ _ _ _ H1) as [He Hb].
  cbn [shape with_handle_count hm_owned hm_host_base hm_size] in He, Hb.
  destruct (removed_counters _ _ _ _ H8 H9) as [Hcb Hcc].
  cbn [shape with_handle_count hm_owned hm_host_base hm_size] in Hcb, Hcc.
  assert (forall m', m' ∈ l1 ++ l2 -> hm_explicit_handle_count m' = refs (delete k (r_handles r)) (hm_mapping_id m')) as Hcnt.
  { intros m' Hm'. rewrite (refs_delete _ _ h), decide_False by (done || (rewrite <- Hid; by apply not_eq_sym, Hids)).
    rewrite (H5 m') by set_solver. lia. }
  split; [|simpl; rewrite Hms, Hfil; set_solver].
  split; simpl; rewrite ?Hms, ?Hfil, ?fmap_app; try done.
  - by eapply static_ok_remove.
  - intros k' h' [Hne Hk']%lookup_delete_Some. destruct (H4 _ _ Hk') as (? & m' & Hm' & Hh'). split; [done|].
    exists m'. split; [|done]. assert (hm_mapping_id m' <> hm_mapping_id m).
    { rewrite <- (ho_id _ _ _ Hh'). apply (refs_zero (delete k (r_handles r)) _ k'); [done|]. by apply lookup_delete_Some. }
    set_unfold. destruct Hm' as [?|[->|?]]; [by left|done|by right].
  - rewrite He. unfold fence_calls. destruct (hm_owned m).
    + rewrite acl_registered_two, H6. simpl. by rewrite (Hb eq_refl).
    + by rewrite acl_registered_snoc, H6.
  - unfold fence_calls. destruct (hm_owned m); [|by apply fenced_snoc]. by apply (fenced_release (acl_trace r)).
Qed.

Lemma released_ok r k h i m :
  registry_ok r -> r_handles r !! k = Some h -> r_mappings r !! i = Some m -> hm_mapping_id m = hh_mapping_id h ->
  registry_ok (released k i m r).
Proof.
  intros. destruct (decide (hm_explicit_handle_count m = 1)); [by eapply released_last|by eapply released_more].
Qed.
End Ops.
