(* ===== verification/HostRegistrySpec.v ===== *)
(** The registry as a state machine, and what it guarantees to its callers:
    the leases are balanced, an address handed to the device lies in a live
    mapping, a failed operation has no effect, and a handle is never issued
    twice. *)

From stdpp Require Import gmap.
From S2P Require Import Prelude Exn HostRegistry HostRegistryInv HostRegistryOps.

(** ** Steps *)

Inductive RegOp : Type :=
  | OpRegister (src_pages : HostTensorArg)
  | OpUnregister (opaque_handle : Z)
  | OpInspect (opaque_handle : Z)
  | OpCached (src_pages : HostTensorArg)
  | OpLookup (host_ptr bytes : Z)
  | OpStats.

(** The operation with its result dropped. *)
Definition run_op (acl : Acl) (op : RegOp) : RM unit :=
  match op with
  | OpRegister t => register_kv_cache_block_gather_host_pool acl t ;; mret tt
  | OpUnregister k => unregister_kv_cache_block_gather_host_pool acl k ;; mret tt
  | OpInspect k => inspect_kv_cache_block_gather_host_pool acl k ;; mret tt
  | OpCached t => is_kv_cache_block_gather_host_mapping_cached acl t ;; mret tt
  | OpLookup p b => get_mapped_host_device_ptr acl p b ;; mret tt
  | OpStats => get_kv_cache_block_gather_host_mapping_stats acl ;; mret tt
  end.

Section Machine.
Variable pg : Z.

(** Requests for memory below the last page of the address space. *)
Definition op_ok (op : RegOp) : Prop :=
  match op with
  | OpRegister t | OpCached t => user_range pg (at_data_ptr t) (tensor_bytes t)
  | OpLookup p b => user_range pg p b
  | _ => True
  end.

(** A step: any operation, any answers of the runtime, any outcome. *)
Inductive reg_step (r r' : HostMappingRegistry) : Prop :=
  | RegStep acl op res : sysconf_PAGESIZE acl = pg -> op_ok op -> ids_left r -> run_op acl op r = (res, r') -> reg_step r r'.

Context (Hpg : 0 < pg).
Implicit Types (r : HostMappingRegistry) (acl : Acl).

(** *** The operations that only read *)

Lemma inspect_same acl k r :
  xwp (inspect_kv_cache_block_gather_host_pool acl k)
    (fun o r' => r' = r /\ o = r_handles r !! k) (fun r' => r' = r) r.
Proof.
  unfold inspect_kv_cache_block_gather_host_pool, get_host_mapping_registry, TORCH_CHECK. repeat xwp_step; done.
Qed.

Lemma stats_same acl r :
  xwp (get_kv_cache_block_gather_host_mapping_stats acl) (fun _ r' => r' = r) (fun r' => r' = r) r.
Proof.
  unfold get_kv_cache_block_gather_host_mapping_stats, get_host_mapping_registry, TORCH_CHECK. repeat xwp_step; done.
Qed.

Lemma cached_same acl t r :
  sysconf_PAGESIZE acl = pg -> user_range pg (at_data_ptr t) (tensor_bytes t) -> registry_ok pg r ->
  xwp (is_kv_cache_block_gather_host_mapping_cached acl t) (fun _ r' => r' = r) (fun r' => r' = r) r.
Proof.
  intros Hsys Hu [Hr _]. unfold is_kv_cache_block_gather_host_mapping_cached. xwp_step; [done|]. xwp_step; [done|].
  eapply xwp_seq; [by apply get_host_range_spec|]. intros rg r1 [-> Hk]. unfold is_host_range_mapping_cached.
  eapply xwp_seq; [apply get_current_host_mapping_device_spec|]. intros d r1 (-> & _). rewrite (rk_addr _ _ _ _ Hk).
  eapply xwp_seq; [apply (find_host_mapping_locked_spec _ Hpg _ _ _ _ _ (ro_static _ _ Hr) Hu)|]. by intros o r1 [-> _].
Qed.

Lemma lookup_spec acl p b r :
  sysconf_PAGESIZE acl = pg -> user_range pg p b -> registry_ok pg r ->
  xwp (get_mapped_host_device_ptr acl p b)
    (fun ptr r' => r' = r /\ r_pid r = getpid acl /\ exists m, m ∈ r_mappings r /\ hm_host_base m <= p /\
       p + b <= hm_host_base m + hm_size m /\ hm_device_id m = (aclrtGetDevice acl).2 /\
       ptr = u64 (hm_device_base m + (p - hm_host_base m)))
    (fun r' => r' = r) r.
Proof.
  intros Hsys Hu [Hr _]. unfold get_mapped_host_device_ptr.
  eapply xwp_seq; [by apply get_host_range_spec|]. intros rg r1 [-> Hk].
  eapply xwp_seq; [apply get_current_host_mapping_device_spec|]. intros d r1 (-> & Hp & ->). rewrite (rk_addr _ _ _ _ Hk).
  eapply xwp_seq; [apply (find_host_mapping_locked_spec _ Hpg _ _ _ _ _ (ro_static _ _ Hr) Hu)|].
  intros [[i m]|] r1 [-> Hf]; [|done]. apply xwp_ret. split_and!; try done. exists m.
  destruct Hf as (Hi & ? & ? & ?). split_and!; try done. by eapply list_elem_of_lookup_2.
Qed.

(** *** Registration with the checks of the entry point *)

Lemma register_spec acl t r :
  sysconf_PAGESIZE acl = pg -> user_range pg (at_data_ptr t) (tensor_bytes t) -> registry_ok pg r -> ids_left r ->
  xwp (register_kv_cache_block_gather_host_pool acl t)
    (fun k r' => registry_ok pg r' /\ registered t r r' k)
    (fun r' => r' = r \/ r' = with_counters count_explicit_register r) r.
Proof.
  intros. unfold register_kv_cache_block_gather_host_pool, TORCH_CHECK. repeat xwp_step; try (by left).
  by apply register_explicit_spec.
Qed.

(** ** The invariant is preserved *)

Lemma counted_ok r : registry_ok pg r -> registry_ok pg (with_counters count_explicit_register r).
Proof. intros [Hr Hp]. split; [by apply count_explicit_register_base|done]. Qed.

Lemma fenced_ok r : registry_ok pg r -> registry_ok pg (with_trace SynchronizeDevice r).
Proof. intros [Hr Hp]. split; [by apply sync_base|done]. Qed.

(** What a step does to the handles and their numbering. *)
Definition handles_step r r' : Prop :=
  (r_handles r' = r_handles r /\ r_next_handle r' = r_next_handle r) \/
  (exists h, r_handles r' = <[r_next_handle r := h]> (r_handles r) /\ r_next_handle r' = r_next_handle r + 1) \/
  (exists k, r_handles r' = delete k (r_handles r) /\ r_next_handle r' = r_next_handle r).

Lemma run_op_spec acl op r :
  sysconf_PAGESIZE acl = pg -> op_ok op -> registry_ok pg r -> ids_left r ->
  xwp (run_op acl op) (fun _ r' => registry_ok pg r' /\ handles_step r r')
    (fun r' => registry_ok pg r' /\ handles_step r r') r.
Proof.
  intros Hsys Hop Hr Hids. destruct op as [t|k|k|t|p b|]; simpl in *.
  - eapply xwp_seq; [eapply xwp_mono; [by apply register_spec|done|]|].
    + intros r' [->| ->]; (split; [|by left]); [done|by apply counted_ok].
    + intros k r' [Hr' [[-> ?] ? (h & ? & _)]]. apply xwp_ret. split; [done|]. right. left. by exists h.
  - eapply xwp_seq; [eapply xwp_mono; [by apply (unregister_spec pg)|done|]|].
    + intros r' [->| ->]; (split; [|by left]); [done|by apply fenced_ok].
    + intros b r' Hb. apply xwp_ret. destruct (r_handles r !! k) as [h|] eqn:Hk.
      * destruct Hb as (_ & i & m & Hi & Hid & _ & ->). split; [by eapply released_ok|]. right. right. by exists k.
      * destruct Hb as [_ ->]. split; [done|by left].
  - eapply xwp_seq; [eapply xwp_mono; [apply inspect_same|done|]|]; [intros r' ->|intros o r' [-> _]; apply xwp_ret];
      (split; [done|by left]).
  - eapply xwp_seq; [eapply xwp_mono; [by apply cached_same|done|]|]; [intros r' ->|intros o r' ->; apply xwp_ret];
      (split; [done|by left]).
  - eapply xwp_seq; [eapply xwp_mono; [by apply lookup_spec|done|]|]; [intros r' ->|intros o r' [-> _]; apply xwp_ret];
      (split; [done|by left]).
  - eapply xwp_seq; [eapply xwp_mono; [apply stats_same|done|]|]; [intros r' ->|intros o r' ->; apply xwp_ret];
      (split; [done|by left]).
Qed.

Lemma reg_step_ok r r' : registry_ok pg r -> reg_step r r' -> registry_ok pg r' /\ handles_step r r'.
Proof.
  intros Hr [acl op [u|e] Hsys Hop Hids Hrun].
  - exact (xwp_ok _ _ _ _ _ _ (run_op_spec acl op r Hsys Hop Hr Hids) Hrun).
  - exact (xwp_err _ _ _ _ _ _ (run_op_spec acl op r Hsys Hop Hr Hids) Hrun).
Qed.

Lemma reg_steps_ok r r' : registry_ok pg r -> rtc reg_step r r' -> registry_ok pg r'.
Proof. intros Hr Hs. induction Hs as [|r r1 r' Hst Hs IH]; [done|]. apply IH. by eapply reg_step_ok. Qed.

Lemma init_handle pid : 0 < r_next_handle (HostMappingRegistry_init pid) <= INT64_MAX.
Proof.
  simpl. set (a := Z.land pid 2147483647).
  assert (0 <= a < 2 ^ 31) as Ha.
  { subst a. change 2147483647 with (Z.ones 31). rewrite Z.land_ones by lia. by apply Z.mod_pos_bound. }
  assert (Z.land (Z.shiftl a 32) 1 = 0) as Hl.
  { change 1 with (Z.ones 1). rewrite Z.land_ones, Z.shiftl_mul_pow2 by lia. change (2 ^ 32) with (2 ^ 31 * 2 ^ 1).
    rewrite Z.mul_assoc. by apply Z.mod_mul. }
  pose proof (Z.add_lor_land (Z.shiftl a 32) 1) as Hs. rewrite Hl, Z.shiftl_mul_pow2 in Hs by lia.
  rewrite Z.shiftl_mul_pow2 by lia. unfold INT64_MAX. lia.
Qed.

Lemma init_ok pid : registry_ok pg (HostMappingRegistry_init pid).
Proof.
  split; [|set_solver]. split; try done.
  - split; [constructor|set_solver..].
  - apply init_handle.
  - set_solver.
Qed.

(** *** Consequences of the invariant *)

Lemma refs_pos_handle hs id : 0 < refs hs id -> exists k h, hs !! k = Some h /\ hh_mapping_id h = id.
Proof.
  unfold refs. intros Hp. destruct (map_choose (filter (fun p => hh_mapping_id p.2 = id) hs)) as (k & h & Hk).
  { intros He. rewrite He, map_size_empty in Hp. lia. }
  apply map_lookup_filter_Some in Hk as [Hk Hid]. by exists k, h.
Qed.

Lemma no_handles_no_mappings r : registry_ok pg r -> r_handles r = ∅ -> r_mappings r = [].
Proof.
  intros [Hr Hp] He. destruct (r_mappings r) as [|m ms] eqn:Hms; [done|]. exfalso.
  assert (m ∈ r_mappings r) as Hm by (rewrite Hms; set_solver).
  pose proof (ro_counts _ _ Hr m Hm) as Hc. rewrite He, refs_none in Hc by (intros k h; by rewrite lookup_empty).
  specialize (Hp m ltac:(set_solver)). lia.
Qed.

(** A mapping that answers a lookup is leased, and registered if owned. *)
Lemma mapping_live r m : registry_ok pg r -> m ∈ r_mappings r ->
  (exists k h, r_handles r !! k = Some h /\ hh_mapping_id h = hm_mapping_id m) /\
  (hm_owned m = true -> exists reg, acl_registered (acl_trace r) = Some reg /\ reg !! hm_host_base m = Some (hm_size m)).
Proof.
  intros [Hr Hp] Hm. split.
  - apply refs_pos_handle. rewrite <- (ro_counts _ _ Hr m Hm). by apply Hp.
  - intros Ho. eexists. split; [apply (ro_trace _ _ Hr)|]. apply elem_of_list_to_map_1.
    + eapply static_bases_NoDup, (ro_static _ _ Hr).
    + apply elem_of_owned_entries. exists (shape m). split; [by apply list_elem_of_fmap_2|done].
Qed.

(** *** Lookups of leased memory succeed *)

Lemma get_host_range_total acl p b r :
  sysconf_PAGESIZE acl = pg -> user_range pg p b -> p <> 0 -> 0 < b ->
  xwp (get_host_range acl p b) (fun rg r' => r' = r /\ hr_host_addr rg = p) (fun _ => False) r.
Proof.
  intros Hsys (Hp & Hb & Htop) Hnz Hpos. unfold get_host_range, round_up_u64, TORCH_CHECK. rewrite Hsys.
  rewrite (quot_nonneg_div p) by lia. pose proof (Z.div_mod p pg ltac:(lia)). pose proof (Z.mod_pos_bound p pg Hpg).
  pose proof (Z.div_pos p pg Hp Hpg). unfold UINT64_MAX. generalize dependent (p mod pg). generalize dependent (p / pg).
  intros q Hq z Hz1 Hz2. repeat xwp_step; bool_prop; (done || lia).
Qed.

Lemma lookup_total acl p b r k h :
  registry_ok pg r -> r_handles r !! k = Some h ->
  sysconf_PAGESIZE acl = pg -> getpid acl = r_pid r ->
  aclrtGetDevice acl = (ACL_SUCCESS, hh_device_id h) -> 0 <= hh_device_id h ->
  (forall m, m ∈ r_mappings r -> hm_device_id m = hh_device_id h) ->
  user_range pg p b -> p <> 0 -> 0 < b ->
  hh_requested_host_addr h <= p -> p + b <= hh_requested_host_addr h + hh_requested_bytes h ->
  xwp (get_mapped_host_device_ptr acl p b) (fun _ r' => r' = r) (fun _ => False) r.
Proof.
  intros [Hr Hpos] Hk Hsys Hpid Hdev Hd Hall Hu Hnz Hb Hlo Hhi.
  destruct (ro_handles _ _ Hr _ _ Hk) as (_ & m0 & (m & -> & Hm)%list_elem_of_fmap & Hh).
  pose proof (ho_range _ _ _ Hh) as [H1 H2]. simpl in H1, H2. unfold get_mapped_host_device_ptr.
  eapply xwp_seq; [by apply get_host_range_total|]. intros rg r1 [-> ->].
  unfold get_current_host_mapping_device, get_host_mapping_registry, TORCH_CHECK. rewrite Hdev. repeat xwp_step.
  2:{ simpl in *. bool_prop. lia. }
  2:{ bool_prop. congruence. }
  unfold find_host_mapping_locked, TORCH_CHECK. rewrite (u64_id (p + b)) by (unfold user_range in *; lia).
  repeat xwp_step; [|bool_prop; lia]. destruct (list_find _ _) as [[i m']|] eqn:Hfind.
  - repeat xwp_step; [done|]. bool_prop. apply list_find_Some in Hfind as (Hi & _).
    by destruct (Hall m' (list_elem_of_lookup_2 _ _ _ Hi)).
  - exfalso. apply list_find_None in Hfind. rewrite list.Forall_forall in Hfind. apply (Hfind m Hm).
    apply (holds_range_iff pg (r_next_mapping_id r) r); [apply Hr|done|lia].
Qed.

(** *** Failures *)

(** What a failed operation leaves as it was. *)
Definition same_leases r r' : Prop :=
  r_mappings r' = r_mappings r /\ r_handles r' = r_handles r /\ r_next_mapping_id r' = r_next_mapping_id r /\
  r_next_handle r' = r_next_handle r /\ acl_registered (acl_trace r') = acl_registered (acl_trace r).

Lemma same_leases_refl r : same_leases r r.
Proof. done. Qed.

(** What even a registration that runs out of identifiers keeps: the leases and
    their mappings. *)
Definition keeps_leases r r' : Prop :=
  r_handles r' = r_handles r /\ r_next_handle r' = r_next_handle r /\ exists ms, r_mappings r' = r_mappings r ++ ms.

Lemma keeps_leases_refl r : keeps_leases r r.
Proof. split_and!; try done. exists []. by rewrite (right_id_L [] app). Qed.

Lemma keeps_leases_trans r r1 r2 : keeps_leases r r1 -> keeps_leases r1 r2 -> keeps_leases r r2.
Proof.
  intros (H1 & H2 & ms & H3) (H4 & H5 & ms' & H6). split_and!; [congruence|congruence|]. exists (ms ++ ms'). by rewrite H6, H3, (assoc_L app).
Qed.

Lemma create_mapping_keeps acl p b d rg r : registry_base pg r -> user_range pg p b -> range_ok pg p b rg ->
  xwp (create_mapping acl p b d rg) (fun _ => keeps_leases r) (keeps_leases r) r.
Proof.
  intros Hr Hu Hk. pose proof (keeps_leases_refl r) as Hrefl. unfold create_mapping. rewrite (rk_addr _ _ _ _ Hk).
  eapply xwp_seq; [eapply xwp_mono; [apply (check_no_overlap_spec pg Hpg _ _ _ _ (ro_static _ _ Hr) Hu)|done|by intros r' ->]|]. intros _ r1 [-> _].
  destruct (aclrtHostGetDevicePointer acl p) as [lret lptr]. destruct (aclrtHostRegister acl _ _) as [rret rbase].
  unfold allocate_host_mapping_id_locked, TORCH_CHECK. repeat xwp_step; done.
Qed.

Lemma issue_handle_fails acl t b d rg i m am r : xwp (issue_handle acl t b d rg i m am) (fun _ _ => True) (fun r' => r' = r) r.
Proof. unfold issue_handle, TORCH_CHECK. repeat xwp_step; done. Qed.

Lemma register_keeps acl t r :
  sysconf_PAGESIZE acl = pg -> user_range pg (at_data_ptr t) (tensor_bytes t) -> registry_ok pg r ->
  xwp (register_kv_cache_block_gather_host_pool acl t) (fun _ _ => True) (keeps_leases r) r.
Proof.
  intros Hsys Hu Hr. pose proof (keeps_leases_refl r) as Hrefl.
  unfold register_kv_cache_block_gather_host_pool, register_explicit_mapped_host_range, TORCH_CHECK. do 4 (xwp_step; xwp_step; [|done]). cbv zeta.
  eapply xwp_seq; [eapply xwp_mono; [by apply (get_host_range_spec pg)|done|by intros r' ->]|]. intros rg r0 [-> Hk].
  eapply xwp_seq; [eapply xwp_mono; [apply get_current_host_mapping_device_spec|done|by intros r' ->]|].
  intros d r0 (-> & _ & _). xwp_step. xwp_step. pose proof (proj1 (counted_ok r Hr)) as Hr1.
  set (r1 := with_counters count_explicit_register r) in *. rewrite (rk_addr _ _ _ _ Hk).
  eapply xwp_seq; [eapply xwp_mono; [apply (find_host_mapping_locked_spec _ Hpg _ _ _ _ _ (ro_static _ _ Hr1) Hu)|done|by intros r' ->]|].
  intros [[i m]|] r0 [-> _]; [eapply xwp_mono; [apply issue_handle_fails|done|by intros r' ->]|].
  assert (keeps_leases r r1) as Hk1 by exact Hrefl.
  eapply xwp_seq; [eapply xwp_mono; [by apply create_mapping_keeps|intros x r2 Hx; exact Hx|intros r2; by apply keeps_leases_trans]|].
  intros [m am] r2 Hk2. repeat xwp_step.
  eapply xwp_mono; [apply issue_handle_fails|done|]. intros r' ->. eapply keeps_leases_trans; [exact Hk1|]. eapply keeps_leases_trans; [exact Hk2|].
  split_and!; try done. by exists [m].
Qed.

Lemma run_op_fails acl op r :
  sysconf_PAGESIZE acl = pg -> op_ok op -> registry_ok pg r -> (forall t, op = OpRegister t -> ids_left r) ->
  xwp (run_op acl op) (fun _ _ => True) (same_leases r) r.
Proof.
  intros Hsys Hop Hr Hids. pose proof (same_leases_refl r) as Hrefl. destruct op as [t|k|k|t|p b|]; simpl in *.
  - eapply xwp_seq; [eapply xwp_mono; [apply register_spec; eauto|done|]|done]. by intros r' [->| ->].
  - eapply xwp_seq; [eapply xwp_mono; [by apply (unregister_spec pg)|done|]|done].
    intros r' [->| ->]; [done|]. split_and!; try done. simpl. by rewrite acl_registered_snoc, (ro_trace _ _ (proj1 Hr)).
  - eapply xwp_seq; [eapply xwp_mono; [apply inspect_same|done|by intros r' ->]|done].
  - eapply xwp_seq; [eapply xwp_mono; [by apply cached_same|done|by intros r' ->]|done].
  - eapply xwp_seq; [eapply xwp_mono; [by apply lookup_spec|done|by intros r' ->]|done].
  - eapply xwp_seq; [eapply xwp_mono; [apply stats_same|done|by intros r' ->]|done].
Qed.

(** *** Handles *)

Lemma handles_step_dead r r' k :
  registry_ok pg r -> handles_step r r' -> k < r_next_handle r -> r_handles r !! k = None ->
  k < r_next_handle r' /\ r_handles r' !! k = None.
Proof.
  intros Hr [[-> ->]|[(h & -> & ->)|(k' & -> & ->)]] Hk Hn; [done| |].
  - split; [lia|]. rewrite lookup_insert_ne by lia. done.
  - split; [done|]. apply lookup_delete_None. auto.
Qed.

(** *** Registering and giving back *)

Lemma alter_undo (ms : list HostMapping) i m :
  ms !! i = Some m -> 0 <= hm_explicit_handle_count m < 2 ^ 64 - 1 ->
  alter (with_handle_count (fun n => u64 (n - 1))) i (alter (with_handle_count (fun n => u64 (n + 1))) i ms) = ms.
Proof.
  intros Hi Hc. destruct (split_at _ _ _ Hi) as (l1 & l2 & -> & ->). rewrite !alter_middle. f_equal. f_equal.
  destruct m. unfold with_handle_count. simpl in *. f_equal. rewrite (u64_id (_ + 1)) by lia. rewrite u64_id; lia.
Qed.

Lemma released_undo r r1 k i h i' m' :
  registry_ok pg r -> registry_ok pg r1 -> r_handles r1 !! k = Some h ->
  r_mappings r1 !! i' = Some m' -> hm_mapping_id m' = hh_mapping_id h ->
  (exists m, r_mappings r !! i = Some m /\ hh_mapping_id h = hm_mapping_id m /\
     r_mappings r1 = alter (with_handle_count (fun n => u64 (n + 1))) i (r_mappings r)) ->
  r_mappings (released k i' m' r1) = r_mappings r.
Proof.
  intros [Hr Hpos] [Hr1 Hpos1] Hk Hi' Hid' (m & Hi & Hid & Hms).
  assert (m ∈ r_mappings r) as Hm by (by eapply list_elem_of_lookup_2).
  assert (r_mappings r1 !! i = Some (with_handle_count (fun n => u64 (n + 1)) m)) as Hi1
    by (by rewrite Hms, list_lookup_alter_eq, Hi).
  assert (i' = i) as ->.
  { destruct (decide (i' = i)); [done|]. exfalso.
    apply (ids_differ pg _ _ _ _ _ _ (ro_static _ _ Hr1) Hi1 Hi' ltac:(done)). simpl. congruence. }
  rewrite Hi1 in Hi'. injection Hi' as <-. pose proof (Hpos m Hm). pose proof (count_bound pg r (hm_mapping_id m) Hr).
  pose proof (ro_next_handle _ _ Hr). rewrite <- (ro_counts _ _ Hr m Hm) in *. unfold INT64_MAX in *.
  unfold released. simpl. rewrite u64_id by lia. rewrite (proj2 (Z.eqb_neq (_ + 1) 1)) by lia.
  rewrite Hms. simpl. apply (alter_undo _ _ m); [done|lia].
Qed.

Lemma released_new r r1 k h i' m' :
  registry_ok pg r1 -> r_mappings r1 !! i' = Some m' -> hm_mapping_id m' = hh_mapping_id h ->
  (exists m, hm_explicit_handle_count m = 1 /\ hh_mapping_id h = hm_mapping_id m /\ r_mappings r1 = r_mappings r ++ [m]) ->
  r_mappings (released k i' m' r1) = r_mappings r.
Proof.
  intros [Hr1 Hpos1] Hi' Hid' (m & Hone & Hid & Hms).
  assert (r_mappings r1 !! length (r_mappings r) = Some m) as Hi1 by (rewrite Hms; by apply list_lookup_middle).
  assert (i' = length (r_mappings r)) as ->.
  { destruct (decide (i' = length (r_mappings r))); [done|]. exfalso.
    apply (ids_differ pg _ _ _ _ _ _ (ro_static _ _ Hr1) Hi1 Hi' ltac:(done)). congruence. }
  rewrite Hi1 in Hi'. injection Hi' as <-. unfold released. rewrite Hone. simpl. pose proof (ro_static _ _ Hr1) as Hs.
  rewrite Hms in *. rewrite alter_middle. rewrite (filter_ids pg Hpg _ _ [] m (with_handle_count (fun n => u64 (n - 1)) m) Hs eq_refl). by rewrite (right_id_L [] app).
Qed.

(** *** After a fork *)

Lemma get_host_range_same acl p b r : xwp (get_host_range acl p b) (fun _ r' => r' = r) (fun r' => r' = r) r.
Proof. unfold get_host_range, round_up_u64, TORCH_CHECK. repeat xwp_step; done. Qed.

Lemma device_forked acl r (Q : Z -> HostMappingRegistry -> Prop) :
  r_pid r <> getpid acl -> xwp (get_current_host_mapping_device acl) Q (fun r' => r' = r) r.
Proof.
  intros Hp. unfold get_current_host_mapping_device, get_host_mapping_registry, TORCH_CHECK. repeat xwp_step; try done.
  by bool_prop.
Qed.

Lemma run_op_forked acl op r :
  r_pid r <> getpid acl ->
  xwp (run_op acl op) (fun _ r' => r' = r /\ exists t, op = OpCached t) (fun r' => r' = r) r.
Proof.
  intros Hp. destruct op as [t|k|k|t|p b|]; simpl.
  - apply xwp_bind. unfold register_kv_cache_block_gather_host_pool, TORCH_CHECK. repeat xwp_step; try done.
    unfold register_explicit_mapped_host_range. eapply xwp_seq; [apply get_host_range_same|]. intros rg r1 ->.
    apply xwp_bind. by apply device_forked.
  - apply xwp_bind. unfold unregister_kv_cache_block_gather_host_pool. apply xwp_bind. by apply device_forked.
  - apply xwp_bind. unfold inspect_kv_cache_block_gather_host_pool, get_host_mapping_registry, TORCH_CHECK.
    repeat xwp_step; [by bool_prop|done].
  - apply xwp_bind. unfold is_kv_cache_block_gather_host_mapping_cached.
    xwp_step; [repeat xwp_step; by eauto|]. xwp_step; [repeat xwp_step; by eauto|].
    eapply xwp_seq; [apply get_host_range_same|]. intros rg r1 ->. apply xwp_bind. by apply device_forked.
  - apply xwp_bind. unfold get_mapped_host_device_ptr. eapply xwp_seq; [apply get_host_range_same|]. intros rg r1 ->.
    apply xwp_bind. by apply device_forked.
  - apply xwp_bind. unfold get_kv_cache_block_gather_host_mapping_stats, get_host_mapping_registry, TORCH_CHECK.
    repeat xwp_step; [by bool_prop|done].
Qed.
End Machine.
