(* ===== verification/HostRegistryClaims.v ===== *)
(** What the mapped-host registry guarantees, with concrete executions. *)

From stdpp Require Import gmap.
From S2P Require Import Prelude Exn HostRegistry HostRegistryInv HostRegistryOps HostRegistrySpec.

(** *** A process with one pool *)

Definition acl_example : Acl :=
  {| getpid := 77; sysconf_PAGESIZE := 4096; aclrtGetDevice := (0, 0); aclrtHostGetDevicePointer := fun _ => (0, 0);
     aclrtHostRegister := fun addr _ => (0, addr + 2 ^ 40); aclrtSynchronizeDevice := 0; aclrtHostUnregister := fun _ => 0 |}.

(** 3000 two-byte elements that start and end inside a page. *)
Definition pool_example : HostTensorArg :=
  {| at_defined := true; at_numel := 3000; at_element_size := 2; at_is_cpu := true; at_is_contiguous := true;
     at_data_ptr := 10000; at_owner := 5 |}.

Definition r0_example : HostMappingRegistry := HostMappingRegistry_init 77.
Definition r1_example : HostMappingRegistry := (register_kv_cache_block_gather_host_pool acl_example pool_example r0_example).2.
Definition handle_example : Z := 77 * 2 ^ 32 + 1.

Lemma register_example :
  register_kv_cache_block_gather_host_pool acl_example pool_example r0_example = (Ok handle_example, r1_example).
Proof. vm_compute. reflexivity. Qed.

Lemma ids_left_example : ids_left r0_example.
Proof. split; vm_compute; reflexivity. Qed.

Lemma pool_range_example : user_range 4096 (at_data_ptr pool_example) (tensor_bytes pool_example).
Proof. vm_compute. intuition congruence. Qed.

Lemma step_example : reg_step 4096 r0_example r1_example.
Proof.
  apply (RegStep _ _ _ acl_example (OpRegister pool_example) (Ok tt));
    [reflexivity|exact pool_range_example|exact ids_left_example|vm_compute; reflexivity].
Qed.

Lemma registry_example : registry_ok 4096 r1_example.
Proof. apply (reg_step_ok 4096 ltac:(reflexivity) r0_example _ (init_ok 4096 ltac:(reflexivity) 77) step_example). Qed.

(** ** Claims *)

(** C8.  Every state that the registry can reach, from its creation in a process
    and through any sequence of operations on memory below the last page of the
    address space, with any answers of the runtime, failures included, while
    identifiers are left, satisfies the invariant: unique mapping
    identifiers, mappings of one kind that do not overlap, every handle a lease
    inside an existing mapping, every reference count the number of handles and
    positive, the runtime's registered ranges exactly the owned mappings, every
    unregistration preceded by a fence, byte and call counters that agree with
    the mappings. *)
Theorem registry_invariant (pg pid : Z) (r : HostMappingRegistry) :
  0 < pg -> rtc (reg_step pg) (HostMappingRegistry_init pid) r -> registry_ok pg r.
Proof. intros Hpg. apply (reg_steps_ok pg Hpg _ r (init_ok pg Hpg pid)). Qed.

Lemma registry_invariant_witness : registry_ok 4096 r1_example.
Proof. apply (registry_invariant 4096 77); [reflexivity|]. apply rtc_once. exact step_example. Defined.

(** C9.  Registrations are balanced.  In every reachable state no range was
    registered twice or unregistered without being registered, each
    unregistration directly follows a device-wide fence, and when no handle is
    left the runtime has nothing registered, no mapping is left and the current
    byte count is zero. *)
Theorem registry_balanced (pg pid : Z) (r : HostMappingRegistry) :
  0 < pg -> rtc (reg_step pg) (HostMappingRegistry_init pid) r ->
  (exists reg, acl_registered (acl_trace r) = Some reg /\ fenced (acl_trace r)) /\
  (r_handles r = ∅ -> r_mappings r = [] /\ acl_registered (acl_trace r) = Some ∅ /\
                      hc_register_bytes_current (r_counters r) = 0).
Proof.
  intros Hpg Hs. assert (registry_ok pg r) as Hr by (exact (reg_steps_ok pg Hpg _ r (init_ok pg Hpg pid) Hs)).
  pose proof Hr as [Hb _]. split.
  - eexists. split; [apply (ro_trace _ _ Hb)|apply (ro_fenced _ _ Hb)].
  - intros He. pose proof (no_handles_no_mappings pg Hpg r Hr He) as Hm. split_and!; [done| |].
    + rewrite (ro_trace _ _ Hb), Hm. done.
    + rewrite (ro_bytes _ _ Hb), Hm. done.
Qed.

Lemma registry_balanced_witness : exists reg, acl_registered (acl_trace r1_example) = Some reg /\ fenced (acl_trace r1_example).
Proof.
  destruct (registry_balanced 4096 77 r1_example) as [H _]; [reflexivity| |exact H]. apply rtc_once. exact step_example.
Defined.

(** C17.  A device address handed out for a host range lies in a mapping that
    holds the whole range, on the current device, that some handle leases and,
    if the registry owns it, that the runtime has registered. *)
Theorem lookup_live (pg : Z) (acl : Acl) (p b ptr : Z) (r r' : HostMappingRegistry) :
  0 < pg -> sysconf_PAGESIZE acl = pg -> user_range pg p b -> registry_ok pg r ->
  get_mapped_host_device_ptr acl p b r = (Ok ptr, r') ->
  r' = r /\ exists m, m ∈ r_mappings r /\ hm_host_base m <= p /\ p + b <= hm_host_base m + hm_size m /\
    hm_device_id m = (aclrtGetDevice acl).2 /\ ptr = u64 (hm_device_base m + (p - hm_host_base m)) /\
    (exists k h, r_handles r !! k = Some h /\ hh_mapping_id h = hm_mapping_id m) /\
    (hm_owned m = true -> exists reg, acl_registered (acl_trace r) = Some reg /\ reg !! hm_host_base m = Some (hm_size m)).
Proof.
  intros Hpg Hsys Hu Hr Hrun.
  destruct (xwp_ok _ _ _ _ _ _ (lookup_spec pg Hpg acl p b r Hsys Hu Hr) Hrun) as (-> & _ & m & Hm & H1 & H2 & H3 & H4).
  split; [done|]. exists m. destruct (mapping_live pg r m Hr Hm). split_and!; done.
Qed.

Lemma lookup_live_witness :
  exists m, m ∈ r_mappings r1_example /\ 10100 + 64 <= hm_host_base m + hm_size m /\ 10100 + 2 ^ 40 = u64 (hm_device_base m + (10100 - hm_host_base m)).
Proof.
  destruct (lookup_live 4096 acl_example 10100 64 (10100 + 2 ^ 40) r1_example r1_example) as (_ & m & H1 & _ & H2 & _ & H3 & _).
  - reflexivity.
  - reflexivity.
  - vm_compute. intuition congruence.
  - exact registry_example.
  - vm_compute. reflexivity.
  - exists m. auto.
Defined.

(** C18.  A lease is good until it is given back: while the handle exists, every
    part of the memory it was issued for resolves to a device address, in the
    process that holds the lease and on the worker's device. *)
Theorem lease_resolves (pg : Z) (acl : Acl) (p b k : Z) (h : HostMappingHandle) (r : HostMappingRegistry) :
  0 < pg -> registry_ok pg r -> r_handles r !! k = Some h ->
  sysconf_PAGESIZE acl = pg -> getpid acl = r_pid r ->
  aclrtGetDevice acl = (ACL_SUCCESS, hh_device_id h) -> 0 <= hh_device_id h ->
  (forall m, m ∈ r_mappings r -> hm_device_id m = hh_device_id h) ->
  user_range pg p b -> p <> 0 -> 0 < b ->
  hh_requested_host_addr h <= p -> p + b <= hh_requested_host_addr h + hh_requested_bytes h ->
  exists ptr, get_mapped_host_device_ptr acl p b r = (Ok ptr, r).
Proof.
  intros Hpg Hr Hk Hsys Hpid Hdev Hd Hall Hu Hnz Hb Hlo Hhi.
  pose proof (lookup_total pg Hpg acl p b r k h Hr Hk Hsys Hpid Hdev Hd Hall Hu Hnz Hb Hlo Hhi) as Hw.
  unfold xwp in Hw. destruct (get_mapped_host_device_ptr acl p b r) as [[ptr|e] r']; [|done]. subst. eauto.
Qed.

Lemma lease_resolves_witness : exists ptr, get_mapped_host_device_ptr acl_example 10100 64 r1_example = (Ok ptr, r1_example).
Proof.
  destruct (r_handles r1_example !! handle_example) as [h|] eqn:Hk; [|vm_compute in Hk; discriminate].
  assert (hh_device_id h = 0 /\ hh_requested_host_addr h = 10000 /\ hh_requested_bytes h = 6000) as (Hd & Ha & Hb)
    by (vm_compute in Hk; injection Hk as <-; repeat split).
  apply (lease_resolves 4096 acl_example 10100 64 handle_example h); rewrite ?Hd, ?Ha, ?Hb.
  - reflexivity.
  - exact registry_example.
  - exact Hk.
  - reflexivity.
  - reflexivity.
  - reflexivity.
  - lia.
  - intros m Hm. assert (r_mappings r1_example = [Build_HostMapping 1 8192 8192 (8192 + 2 ^ 40) 0 true 1]) as He by reflexivity.
    rewrite He in Hm. apply list_elem_of_singleton in Hm as ->. reflexivity.
  - vm_compute. intuition congruence.
  - lia.
  - lia.
  - lia.
  - lia.
Defined.

(** C33.  An operation that throws leaves the leases as they were: the same
    mappings, handles, identifiers and registered ranges.  The one exception is a
    registration when the handle numbers or mapping identifiers are used up, which
    throws after the runtime has registered the range ([handle_exhaustion_leaks]):
    it still keeps every handle and every mapping, but may leave a
    further mapping or registered range behind. *)
Theorem failure_has_no_effect (pg : Z) (acl : Acl) (op : RegOp) (e : torch_error) (r r' : HostMappingRegistry) :
  0 < pg -> sysconf_PAGESIZE acl = pg -> op_ok pg op -> registry_ok pg r ->
  run_op acl op r = (Err e, r') ->
  same_leases r r' \/ (exists t, op = OpRegister t) /\ ~ ids_left r /\ keeps_leases r r'.
Proof.
  intros Hpg Hsys Hop Hr Hrun.
  destruct (decide (r_next_mapping_id r < UINT64_MAX /\ r_next_handle r < INT64_MAX)) as [Hids|Hids].
  { left. revert Hrun. apply xwp_err with (Q := fun _ _ => True). by apply (run_op_fails pg). }
  assert ((exists t, op = OpRegister t) \/ forall t, op <> OpRegister t) as [[t ->]|Hne] by (destruct op; naive_solver).
  - right. split; [eauto|]. split; [exact Hids|]. revert Hrun. apply xwp_err with (Q := fun _ _ => True).
    eapply xwp_seq; [by apply (register_keeps pg)|done].
  - left. revert Hrun. apply xwp_err with (Q := fun _ _ => True). apply (run_op_fails pg); try done. intros t Ht. by destruct (Hne t).
Qed.

(** The runtime refuses the registration. *)
Definition acl_refuses : Acl :=
  {| getpid := 77; sysconf_PAGESIZE := 4096; aclrtGetDevice := (0, 0); aclrtHostGetDevicePointer := fun _ => (0, 0);
     aclrtHostRegister := fun _ _ => (507899, 0); aclrtSynchronizeDevice := 0; aclrtHostUnregister := fun _ => 0 |}.

Lemma failure_has_no_effect_witness : same_leases r0_example (run_op acl_refuses (OpRegister pool_example) r0_example).2.
Proof.
  destruct (failure_has_no_effect 4096 acl_refuses (OpRegister pool_example) (TorchError "aclrtHostRegister failed") r0_example
    (run_op acl_refuses (OpRegister pool_example) r0_example).2) as [H|(_ & H & _)].
  - reflexivity.
  - reflexivity.
  - exact pool_range_example.
  - by apply init_ok.
  - vm_compute. reflexivity.
  - exact H.
  - destruct H. exact ids_left_example.
Defined.

(** C34.  A handle that was given back is dead for good: whatever happens
    afterwards it stays unknown, and its number is not issued again. *)
Theorem handles_not_reused (pg k : Z) (r r' : HostMappingRegistry) :
  0 < pg -> registry_ok pg r -> rtc (reg_step pg) r r' -> k < r_next_handle r -> r_handles r !! k = None ->
  r_handles r' !! k = None /\ k < r_next_handle r'.
Proof.
  intros Hpg Hr Hs. induction Hs as [r|r r1 r' Hst Hs IH]; intros Hk Hn; [done|].
  destruct (reg_step_ok pg Hpg r r1 Hr Hst) as [Hr1 Hh].
  destruct (handles_step_dead pg r r1 k Hr Hh Hk Hn) as [Hk1 Hn1]. by apply IH.
Qed.

Lemma handles_not_reused_witness : r_handles r1_example !! 42 = None /\ 42 < r_next_handle r1_example.
Proof.
  apply (handles_not_reused 4096 42 r0_example).
  - reflexivity.
  - by apply init_ok.
  - apply rtc_once. exact step_example.
  - vm_compute. reflexivity.
  - vm_compute. reflexivity.
Defined.

(** C20.  Registering a pool and giving its handle back is neutral, whether the
    registration created a mapping or shared one, and whatever the runtime
    answers the two calls as long as they succeed: mappings, handles and
    registered ranges are as before. *)
Theorem register_unregister_roundtrip (pg : Z) (acl acl' : Acl) (t : HostTensorArg) (k : Z) (b : bool)
    (r r1 r2 : HostMappingRegistry) :
  0 < pg -> sysconf_PAGESIZE acl = pg -> user_range pg (at_data_ptr t) (tensor_bytes t) -> registry_ok pg r -> ids_left r ->
  register_kv_cache_block_gather_host_pool acl t r = (Ok k, r1) ->
  unregister_kv_cache_block_gather_host_pool acl' k r1 = (Ok b, r2) ->
  b = true /\ r_mappings r2 = r_mappings r /\ r_handles r2 = r_handles r /\
  acl_registered (acl_trace r2) = acl_registered (acl_trace r).
Proof.
  intros Hpg Hsys Hu Hr Hids H1 H2.
  destruct (xwp_ok _ _ _ _ _ _ (register_spec pg Hpg acl t r Hsys Hu Hr Hids) H1) as [Hr1 [[-> _] _ (h & Hh & _ & _ & _ & Hcase)]].
  pose proof (xwp_ok _ _ _ _ _ _ (unregister_spec pg acl' _ r1 Hr1) H2) as Hun.
  assert (r_handles r1 !! r_next_handle r = Some h) as Hk by (rewrite Hh; apply lookup_insert_eq). rewrite Hk in Hun.
  destruct Hun as (-> & i & m & Hi & Hid & _ & ->).
  pose proof (released_ok pg Hpg r1 _ h i m Hr1 Hk Hi Hid) as Hr2.
  assert (r_mappings (released (r_next_handle r) i m r1) = r_mappings r) as Hms.
  { destruct Hcase as [(j & Hj)|Hnew]; [by apply (released_undo pg r r1 _ j h)|by apply (released_new pg Hpg r r1 _ h)]. }
  split_and!; [done..| |].
  - simpl. rewrite Hh. apply delete_insert_id. by apply (handle_fresh pg), Hr.
  - by rewrite (ro_trace _ _ (proj1 Hr2)), (ro_trace _ _ (proj1 Hr)), Hms.
Qed.

Lemma register_unregister_roundtrip_witness :
  let r2 := (unregister_kv_cache_block_gather_host_pool acl_example handle_example r1_example).2 in
  r_mappings r2 = r_mappings r0_example /\ r_handles r2 = r_handles r0_example.
Proof.
  intros r2. destruct (register_unregister_roundtrip 4096 acl_example acl_example pool_example handle_example true
    r0_example r1_example r2) as (_ & H1 & H2 & _).
  - reflexivity.
  - reflexivity.
  - exact pool_range_example.
  - by apply init_ok.
  - exact ids_left_example.
  - exact register_example.
  - vm_compute. reflexivity.
  - split; assumption.
Defined.

(**  In a child process that inherited the registry through a fork, no
    operation changes it, and all of them throw, except the query whether a
    tensor is mapped, which may answer without looking at the registry. *)
Theorem fork_rejected (acl : Acl) (op : RegOp) (r : HostMappingRegistry) :
  r_pid r <> getpid acl ->
  (run_op acl op r).2 = r /\ ((exists t, op = OpCached t) \/ exists e, (run_op acl op r).1 = Err e).
Proof.
  intros Hp. pose proof (run_op_forked acl op r Hp) as Hw. unfold xwp in Hw.
  destruct (run_op acl op r) as [[u|e] r']; simpl; [|subst; eauto]. destruct Hw as [-> Ht]. auto.
Qed.

Lemma fork_rejected_witness :
  (run_op acl_example (OpUnregister 1) (HostMappingRegistry_init 76)).2 = HostMappingRegistry_init 76.
Proof. apply (fork_rejected acl_example (OpUnregister 1) (HostMappingRegistry_init 76)). vm_compute. discriminate. Defined.

(** ** What the operations do at the edges *)

(** When the handle numbers are used up, [register] throws after it has
    registered the range and stored the mapping: the range stays registered
    with no handle that could release it. *)
Example handle_exhaustion_leaks :
  let r := with_next_handle INT64_MAX r0_example in
  let '(res, r') := register_kv_cache_block_gather_host_pool acl_example pool_example r in
  res = Err (TorchError "host mapping handle space exhausted") /\ r_handles r' = ∅ /\
  acl_registered (acl_trace r') = Some {[ 8192 := 8192 ]}.
Proof. vm_compute. repeat split. Qed.

(** The allocator has already registered the pool. *)
Definition acl_borrows : Acl :=
  {| getpid := 77; sysconf_PAGESIZE := 4096; aclrtGetDevice := (0, 0); aclrtHostGetDevicePointer := fun p => (0, p + 2 ^ 40);
     aclrtHostRegister := fun _ _ => (0, 0); aclrtSynchronizeDevice := 0; aclrtHostUnregister := fun _ => 0 |}.

(** The statistics count the bytes of borrowed mappings as current but not in
    the peak, so the peak can be below the current value. *)
Example stats_peak_below_current :
  let r := (register_kv_cache_block_gather_host_pool acl_borrows pool_example r0_example).2 in
  match (get_kv_cache_block_gather_host_mapping_stats acl_borrows r).1 with
  | Ok st => st_mapped_bytes_current st = 6000 /\ st_mapped_bytes_peak st = 0
  | Err _ => False
  end.
Proof. vm_compute. repeat split. Qed.
