(* ===== verification/HostRuntime.v ===== *)
(** The loader of the custom-operator library in
    [csrc/kv_cache_block_gather_binding.cpp]: a process-wide handle, set at most
    once, that decides where the operator's entry points come from. *)

From coqutil Require Import Datatypes.RecordSettersUsingExistingGetters.
From stdpp Require Import strings.
From S2P Require Import Prelude Exn.

#[local] Arguments RecordSettersUsingExistingGetters.const {E} _ _ /.

(** The dynamic linker and the search of the process-wide libraries; 0 is the
    null pointer. *)
Record Linker : Type := {
  dlopen : string -> Z;
  dlsym : Z -> string -> Z;
  GetOpApiFuncAddr : string -> Z }.

(** The handle and the path of the loaded library, and the function-local statics
    of [kv_cache_block_gather]: [None] until the first gather gets there. *)
Record OpApiRuntime : Type := {
  opapi_handler : Z;
  opapi_path : string;
  get_workspace_addr : option Z;
  op_api_addr : option Z }.

Inductive runtime_error : Type :=
  | RuntimeError (msg : string).

Abbreviation LM := (X OpApiRuntime runtime_error).

Definition get_host_gather_opapi_func_addr (ld : Linker) (api_name : string) : LM Z :=
  handler ← xgets opapi_handler;
  mret (if negb (handler =? 0) then dlsym ld handler api_name else GetOpApiFuncAddr ld api_name).

Definition has_kv_cache_block_gather_runtime (ld : Linker) : LM bool :=
  workspace ← get_host_gather_opapi_func_addr ld "aclnnKvCacheBlockGatherGetWorkspaceSize";
  if workspace =? 0 then mret false else
  launch ← get_host_gather_opapi_func_addr ld "aclnnKvCacheBlockGather";
  mret (negb (launch =? 0)).

Definition load_kv_cache_block_gather_runtime (ld : Linker) (path : string) : LM bool :=
  xcheck (negb (bool_decide (path = ""%string))) (RuntimeError "custom-op library path is empty") ;;
  handler ← xgets opapi_handler;
  if negb (handler =? 0) then
    loaded_path ← xgets opapi_path;
    xcheck (bool_decide (loaded_path = path)) (RuntimeError "runtime already loaded; refusing a second library") ;;
    mret true
  else
    xmodify (fun s => { s with opapi_handler := dlopen ld path }) ;;
    handler ← xgets opapi_handler;
    xcheck (negb (handler =? 0)) (RuntimeError "failed to dlopen") ;;
    xmodify (fun s => { s with opapi_path := path }) ;;
    has_kv_cache_block_gather_runtime ld.

(** The entry points of a gather that passed its checks.  [static const]: each is
    looked up by the first gather only. *)
Definition gather_entry_points (ld : Linker) : LM (Z * Z) :=
  cached ← xgets get_workspace_addr;
  workspace ← (match cached with
               | Some a => mret a
               | None => a ← get_host_gather_opapi_func_addr ld "aclnnKvCacheBlockGatherGetWorkspaceSize";
                         xmodify (fun s => { s with get_workspace_addr := Some a }) ;; mret a
               end);
  cached ← xgets op_api_addr;
  launch ← (match cached with
            | Some a => mret a
            | None => a ← get_host_gather_opapi_func_addr ld "aclnnKvCacheBlockGather";
                      xmodify (fun s => { s with op_api_addr := Some a }) ;; mret a
            end);
  xcheck (negb (workspace =? 0) && negb (launch =? 0)) (RuntimeError "not found in op_api libraries") ;;
  mret (workspace, launch).

(** ** Sequences of calls *)

(** The calls that use the loader, each with the linker's answers at the time. *)
Inductive runtime_call : Type :=
  | CallLoad (ld : Linker) (path : string)
  | CallHas (ld : Linker)
  | CallGather (ld : Linker).

(** The state after a call, whether it throws or not. *)
Definition run_call (s : OpApiRuntime) (c : runtime_call) : OpApiRuntime :=
  match c with
  | CallLoad ld path => (load_kv_cache_block_gather_runtime ld path s).2
  | CallHas ld => (has_kv_cache_block_gather_runtime ld s).2
  | CallGather ld => (gather_entry_points ld s).2
  end.

Definition run_calls (calls : list runtime_call) (s : OpApiRuntime) : OpApiRuntime := foldl run_call s calls.

Ltac unfold_lm := unfold gather_entry_points, has_kv_cache_block_gather_runtime, get_host_gather_opapi_func_addr,
  xcheck, mbind, X_bind, xgets, xmodify, xthrow, mret, X_ret; cbn.

Lemma has_runtime_pure ld s : exists b, has_kv_cache_block_gather_runtime ld s = (Ok b, s).
Proof. unfold_lm. case_match; eauto. Qed.

(** Every outcome of a load: the state changes only on the first success. *)
Lemma load_cases ld path s :
  (path <> ""%string /\ opapi_handler s = 0 /\ dlopen ld path <> 0 /\
     exists b, load_kv_cache_block_gather_runtime ld path s = (Ok b, { s with opapi_handler := dlopen ld path; opapi_path := path })) \/
  (opapi_handler s <> 0 /\ opapi_path s = path /\ path <> ""%string /\ load_kv_cache_block_gather_runtime ld path s = (Ok true, s)) \/
  ((path = ""%string \/ opapi_handler s = 0 \/ opapi_path s <> path) /\
     exists msg, load_kv_cache_block_gather_runtime ld path s = (Err (RuntimeError msg), s)).
Proof.
  destruct s as [h p w l]. unfold load_kv_cache_block_gather_runtime, xcheck, mbind, X_bind, xgets, xmodify, xthrow, mret, X_ret. cbn.
  case_bool_decide as E1; cbn; [right; right; split; [by left|by eexists]|].
  destruct (h =? 0) eqn:E2; bool_prop; cbn; subst.
  - destruct (dlopen ld path =? 0) eqn:E3; bool_prop; cbn.
    + rewrite E3. right; right. split; [auto|by eexists].
    + destruct (has_runtime_pure ld {| opapi_handler := dlopen ld path; opapi_path := path; get_workspace_addr := w; op_api_addr := l |}) as [b Hb].
      left. split_and!; eauto.
  - case_bool_decide as E3; cbn.
    + right; left. done.
    + right; right. split; [auto|by eexists].
Qed.

(** What the lookup answers in a state. *)
Definition lookup_addr (ld : Linker) (s : OpApiRuntime) (api : string) : Z :=
  if opapi_handler s =? 0 then GetOpApiFuncAddr ld api else dlsym ld (opapi_handler s) api.

(** Every outcome of the lookup in a gather. *)
Lemma gather_cases ld s :
  let w := default (lookup_addr ld s "aclnnKvCacheBlockGatherGetWorkspaceSize") (get_workspace_addr s) in
  let l := default (lookup_addr ld s "aclnnKvCacheBlockGather") (op_api_addr s) in
  gather_entry_points ld s =
    (if (w =? 0) || (l =? 0) then Err (RuntimeError "not found in op_api libraries") else Ok (w, l),
     { s with get_workspace_addr := Some w; op_api_addr := Some l }).
Proof.
  destruct s as [h p [w|] [l|]]; unfold lookup_addr; unfold_lm; destruct (h =? 0); cbn; repeat (destruct (_ =? 0); cbn); done.
Qed.

(** ** The claim *)

(** The statics are unset, or hold the entry points that library [h] had for the
    linker of an earlier gather. *)
Definition statics_from (h : Z) (s : OpApiRuntime) : Prop :=
  (get_workspace_addr s = None /\ op_api_addr s = None) \/
  exists ld, get_workspace_addr s = Some (dlsym ld h "aclnnKvCacheBlockGatherGetWorkspaceSize") /\
             op_api_addr s = Some (dlsym ld h "aclnnKvCacheBlockGather").

(** After the load every call keeps the handle, the path and statics that are set. *)
Definition stays (s s' : OpApiRuntime) : Prop :=
  opapi_handler s' = opapi_handler s /\ opapi_path s' = opapi_path s /\
  (forall a, get_workspace_addr s = Some a -> get_workspace_addr s' = Some a) /\
  (forall a, op_api_addr s = Some a -> op_api_addr s' = Some a).

Lemma run_call_loaded h c s : h <> 0 -> opapi_handler s = h -> stays s (run_call s c) /\ (statics_from h s -> statics_from h (run_call s c)).
Proof.
  intros Hh Hs. destruct c as [ld path|ld|ld]; cbn.
  - destruct (load_cases ld path s) as [(_ & H0 & _)|[(_ & _ & _ & ->)|(_ & msg & ->)]]; [congruence|done|done].
  - by destruct (has_runtime_pure ld s) as [b ->].
  - rewrite (gather_cases _ _). cbv zeta. unfold stays, statics_from. simpl.
    assert (forall api, lookup_addr ld s api = dlsym ld h api) as Hl by (intros api; unfold lookup_addr; by rewrite Hs, (proj2 (Z.eqb_neq _ _) Hh)).
    split; [split_and!; try done; by intros a ->|]. intros [[-> ->]|(ld0 & -> & ->)]; right; simpl; [exists ld; by rewrite !Hl|by exists ld0].
Qed.

Lemma run_calls_loaded h calls : h <> 0 -> forall s, opapi_handler s = h ->
  stays s (run_calls calls s) /\ (statics_from h s -> statics_from h (run_calls calls s)).
Proof.
  intros Hh. induction calls as [|c calls IH]; intros s Hs; [done|]. change (run_calls (c :: calls) s) with (run_calls calls (run_call s c)).
  destruct (run_call_loaded h c s Hh Hs) as [(A1 & A2 & A3 & A4) A5]. destruct (IH (run_call s c)) as [(B1 & B2 & B3 & B4) B5]; [congruence|].
  split; [|by auto]. split_and!; [congruence|congruence|by auto|by auto].
Qed.

(** C35.  The first library that is loaded is authoritative.  After a load that
    returns, whatever sequence of loads, queries and gathers follows and whatever
    the linker answers: the library stays the one of that path; a load of another
    path throws and changes nothing; and, if no gather had looked up its entry
    points before the load, every gather that does not throw uses entry points of
    that library, the same for all gathers.  If a gather came before, the entry
    points it found are kept in its static variables, and the load does not
    replace them. *)
Theorem load_authoritative (ld : Linker) (path : string) (s s' : OpApiRuntime) (b : bool) :
  load_kv_cache_block_gather_runtime ld path s = (Ok b, s') ->
  opapi_path s' = path /\ opapi_handler s' <> 0 /\ (opapi_handler s = 0 -> opapi_handler s' = dlopen ld path) /\
  get_workspace_addr s' = get_workspace_addr s /\ op_api_addr s' = op_api_addr s /\
  forall calls, let s1 := run_calls calls s' in
    opapi_handler s1 = opapi_handler s' /\ opapi_path s1 = path /\
    (forall ld' other, other <> path -> exists msg, load_kv_cache_block_gather_runtime ld' other s1 = (Err (RuntimeError msg), s1)) /\
    (get_workspace_addr s = None -> op_api_addr s = None -> forall ld' w l s2, gather_entry_points ld' s1 = (Ok (w, l), s2) ->
       (exists ld0, w = dlsym ld0 (opapi_handler s') "aclnnKvCacheBlockGatherGetWorkspaceSize" /\
                    l = dlsym ld0 (opapi_handler s') "aclnnKvCacheBlockGather") /\
       forall calls' ld'', (gather_entry_points ld'' (run_calls calls' s2)).1 = Ok (w, l)) /\
    (forall w l, get_workspace_addr s = Some w -> op_api_addr s = Some l -> forall ld',
       (gather_entry_points ld' s1).1 = if (w =? 0) || (l =? 0) then Err (RuntimeError "not found in op_api libraries") else Ok (w, l)).
Proof.
  intros Hrun. assert (opapi_path s' = path /\ opapi_handler s' <> 0 /\ (opapi_handler s = 0 -> opapi_handler s' = dlopen ld path) /\
    get_workspace_addr s' = get_workspace_addr s /\ op_api_addr s' = op_api_addr s) as (Hp & Hh & Hd & Hw & Hl).
  { destruct (load_cases ld path s) as [(_ & H0 & H1 & b' & Hc)|[(H0 & H1 & _ & Hc)|(_ & msg & Hc)]];
      rewrite Hc in Hrun; simplify_eq; done. }
  split_and!; try done. intros calls. cbv zeta. destruct (run_calls_loaded _ calls Hh s' eq_refl) as [(A1 & A2 & A3 & A4) A5].
  set (s1 := run_calls calls s') in *. split_and!; [done|congruence|..].
  - intros ld' other Hne. destruct (load_cases ld' other s1) as [(_ & H0 & _)|[(_ & H1 & _)|(_ & msg & Hc)]]; [congruence|congruence|eauto].
  - intros N1 N2 ld' w l s2 Hg. rewrite <- Hw in N1. rewrite <- Hl in N2.
    destruct (run_call_loaded _ (CallGather ld') s1 Hh A1) as [_ St]. specialize (St (A5 (or_introl (conj N1 N2)))). simpl in St.
    rewrite gather_cases in Hg, St. cbv zeta in *. set (w0 := default _ _) in *. set (l0 := default _ (op_api_addr s1)) in *.
    simpl in St. destruct ((w0 =? 0) || (l0 =? 0)) eqn:E; [done|]. injection Hg as <- <- <-. split.
    + destruct St as [[? _]|(ld0 & H1 & H2)]; [done|]. simpl in *. exists ld0. simplify_eq. by split.
    + intros calls' ld''. destruct (run_calls_loaded _ calls' Hh { s1 with get_workspace_addr := Some w0; op_api_addr := Some l0 }) as [(_ & _ & C3 & C4) _];
        [exact A1|]. rewrite (gather_cases _ _). cbv zeta. rewrite (C3 w0), (C4 l0) by done. simpl. by rewrite E.
  - intros w l N1 N2 ld'. rewrite (gather_cases _ _). cbv zeta. rewrite (A3 w), (A4 l) by congruence. done.
Qed.

(** A linker that finds a library with the operator's entry points. *)
Definition linker_example : Linker :=
  {| dlopen := fun p => if bool_decide (p = "libops.so"%string) then 64 else 0;
     dlsym := fun h api => if bool_decide (api = "aclnnKvCacheBlockGather"%string) then h + 2 else h + 1; GetOpApiFuncAddr := fun _ => 0 |}.

Definition unloaded : OpApiRuntime := {| opapi_handler := 0; opapi_path := ""; get_workspace_addr := None; op_api_addr := None |}.
Definition loaded_example : OpApiRuntime := { unloaded with opapi_handler := 64; opapi_path := "libops.so" }.

Lemma load_authoritative_witness :
  let s2 := { loaded_example with get_workspace_addr := Some 65; op_api_addr := Some 66 } in
  (gather_entry_points linker_example (run_calls [CallLoad linker_example "other.so"; CallGather linker_example] s2)).1 = Ok (65, 66).
Proof.
  destruct (load_authoritative linker_example "libops.so" unloaded loaded_example true eq_refl) as (_ & _ & _ & _ & _ & H).
  destruct (H [CallHas linker_example]) as (_ & _ & _ & Hfirst & _).
  destruct (Hfirst eq_refl eq_refl linker_example 65 66 { loaded_example with get_workspace_addr := Some 65; op_api_addr := Some 66 } eq_refl) as [_ Hlater].
  exact (Hlater [CallLoad linker_example "other.so"; CallGather linker_example] linker_example).
Defined.

(** A linker that finds a library without the operator's entry points. *)
Definition linker_without : Linker := {| dlopen := fun _ => 64; dlsym := fun _ _ => 0; GetOpApiFuncAddr := fun _ => 8 |}.

(** The result of the call says whether the entry points exist only the first
    time: asked again for the same library, it returns true. *)
Example second_load_reports_true :
  let '(r1, s1) := load_kv_cache_block_gather_runtime linker_without "libops.so" unloaded in
  let '(r2, s2) := load_kv_cache_block_gather_runtime linker_without "libops.so" s1 in
  r1 = Ok false /\ r2 = Ok true /\ (has_kv_cache_block_gather_runtime linker_without s2).1 = Ok false.
Proof. vm_compute. repeat split. Qed.

(** A gather before the load finds no entry points and keeps the null pointers:
    after a successful load the runtime is reported to be there and every gather
    still throws. *)
Example gather_before_load_sticks :
  let s := run_calls [CallGather linker_example; CallLoad linker_example "libops.so"] unloaded in
  opapi_handler s = 64 /\ (has_kv_cache_block_gather_runtime linker_example s).1 = Ok true /\
  (gather_entry_points linker_example s).1 = Err (RuntimeError "not found in op_api libraries").
Proof. vm_compute. repeat split. Qed.
