(* ===== verification/KvGather.v ===== *)
(** KvCacheBlockGather, device side
    ([csrc/attention/kv_cache_block_gather/op_kernel]): copies the pages named
    by the pairs [(src_block_ids[i], dst_block_ids[i])] from the source pool
    into the output.  A page moves in tiles through an input and an output
    queue of two buffers each. *)

From S2P Require Import Prelude AscendC.

Definition BUFFER_NUM_GATHER : Z := 2.

Record KvCacheBlockGatherTilingData : Type := {
  selectedBlocks : Z;
  elemsPerBlock : Z;
  tileElems : Z }.

(** What the kernel reads. *)
Record GEnv (T : Type) : Type := {
  srcBlockIdsGM : tensor Z;
  dstBlockIdsGM : tensor Z;
  srcPagesGM : tensor T;
  gtd : KvCacheBlockGatherTilingData;
  gsizeofT : Z;
  gBlockIdx : Z;
  gBlockNum : Z }.
Arguments srcBlockIdsGM {T} g.
Arguments dstBlockIdsGM {T} g.
Arguments srcPagesGM {T} g.
Arguments gtd {T} g.
Arguments gsizeofT {T} g.
Arguments gBlockIdx {T} g.
Arguments gBlockNum {T} g.
Arguments Build_GEnv {T}.

(** What it changes: its queues and the output. *)
Record GS (T : Type) : Type := {
  inputQueue : TQue T;
  outputQueue : TQue T;
  outGM : tensor T }.
Arguments inputQueue {T} g.
Arguments outputQueue {T} g.
Arguments outGM {T} g.
Arguments Build_GS {T}.

Section Kernel.
Context {T : Type}.
Variable e : GEnv T.
Abbreviation td := (gtd e).
Abbreviation K := (M (GS T) fault_kind).

Definition l_in : lens (GS T) (TQue T) := Lens inputQueue (fun q s => Build_GS q (outputQueue s) (outGM s)).
Definition l_out : lens (GS T) (TQue T) := Lens outputQueue (fun q s => Build_GS (inputQueue s) q (outGM s)).
Definition l_gm : lens (GS T) (tensor T) := Lens outGM (fun t s => Build_GS (inputQueue s) (outputQueue s) t).

(** The queues as [Init] creates them. *)
Definition gather_init (v : T) (out : tensor T) : GS T :=
  Build_GS (TQue_init BUFFER_NUM_GATHER (tileElems td) v) (TQue_init BUFFER_NUM_GATHER (tileElems td) v) out.

(** One tile of a page: [copyElems] elements from [soff] to [doff]. *)
Definition CopyTile (soff doff copyElems : Z) : K unit :=
  inLocal ← AllocTensor l_in;
  DataCopy (gsizeofT e) (LocalTensor l_in inLocal) 0 (fun _ => srcPagesGM e) soff copyElems ;;
  EnQue l_in inLocal ;;
  inLocal ← DeQue l_in;
  outLocal ← AllocTensor l_out;
  DataCopy (gsizeofT e) (LocalTensor l_out outLocal) 0 (lget (LocalTensor l_in inLocal)) 0 copyElems ;;
  EnQue l_out outLocal ;;
  FreeTensor l_in inLocal ;;
  outLocal ← DeQue l_out;
  DataCopy (gsizeofT e) l_gm doff (lget (LocalTensor l_out outLocal)) 0 copyElems ;;
  FreeTensor l_out outLocal.

(** The [while] loop makes progress in every iteration for [tileElems >= 1]. *)
Definition CopyBlock (pairIdx : Z) : K unit :=
  srcPageIdx ← GetValue (fun _ => srcBlockIdsGM e) pairIdx;
  dstPageIdx ← GetValue (fun _ => dstBlockIdsGM e) pairIdx;
  let srcBase := srcPageIdx * elemsPerBlock td in
  let dstBase := dstPageIdx * elemsPerBlock td in
  loop (S (Z.to_nat (elemsPerBlock td)))
    (fun copied =>
       if copied <? elemsPerBlock td then
         let remain := elemsPerBlock td - copied in
         let copyElems := if remain <? tileElems td then remain else tileElems td in
         CopyTile (srcBase + copied) (dstBase + copied) copyElems ;;
         mret (inl (copied + copyElems))
       else mret (inr tt))
    0.

Definition GatherProcess : K unit :=
  for_step (gBlockIdx e) (selectedBlocks td) (gBlockNum e) CopyBlock.

(** ** Specification *)

(** What the host promises: positive extents, transfers of whole 32-byte
    blocks, and page numbers that exist. *)
Record gather_env (srcN dstN : Z) : Prop := {
  ge_elems : 0 < elemsPerBlock td;
  ge_tile : 0 < tileElems td;
  ge_tile_aligned : block_aligned (gsizeofT e) (tileElems td) = true;
  ge_elems_aligned : block_aligned (gsizeofT e) (elemsPerBlock td) = true;
  ge_size : 0 < gsizeofT e;
  ge_src : t_len (srcPagesGM e) = srcN * elemsPerBlock td;
  ge_ids : selectedBlocks td <= t_len (srcBlockIdsGM e) /\ selectedBlocks td <= t_len (dstBlockIdsGM e);
  ge_src_ids : forall i, 0 <= i < selectedBlocks td -> 0 <= t_at (srcBlockIdsGM e) i < srcN;
  ge_dst_ids : forall i, 0 <= i < selectedBlocks td -> 0 <= t_at (dstBlockIdsGM e) i < dstN }.

Context (srcN dstN : Z) (He : gather_env srcN dstN).
Implicit Types (s : GS T).

(** A queue between two tiles: nothing is waiting, some buffer is free, and
    every free buffer holds a whole tile. *)
Definition queue_idle (q : TQue T) : Prop :=
  q_que q = [] /\ q_free q <> [] /\ forall b, b ∈ q_free q -> t_len (q_bufs q b) = tileElems td.

Definition gather_idle s : Prop :=
  queue_idle (inputQueue s) /\ queue_idle (outputQueue s) /\ t_len (outGM s) = dstN * elemsPerBlock td.

Lemma queue_idle_rotate (q : TQue T) b rest f : q_free q = b :: rest ->
  (forall b, b ∈ q_free q -> t_len (f b) = tileElems td) -> queue_idle (Build_TQue f (rest ++ [b]) []).
Proof.
  intros Hf Hl. split_and!; [done|by destruct rest|]. simpl. intros b' Hb'. apply Hl. rewrite Hf. set_solver.
Qed.

Lemma CopyTile_spec soff doff n s :
  gather_idle s -> 0 < n <= tileElems td -> block_aligned (gsizeofT e) n = true ->
  0 <= soff -> soff + n <= t_len (srcPagesGM e) -> 0 <= doff -> doff + n <= t_len (outGM s) ->
  wp (CopyTile soff doff n)
    (fun _ s' => gather_idle s' /\
       (forall c, 0 <= c < n -> t_at (outGM s') (doff + c) = t_at (srcPagesGM e) (soff + c)) /\
       (forall i, i < doff \/ doff + n <= i -> t_at (outGM s') i = t_at (outGM s) i)) s.
Proof.
  intros ((Hi1 & Hi2 & Hi3) & (Ho1 & Ho2 & Ho3) & Hlen) Hn Hal Hs1 Hs2 Hd1 Hd2. unfold CopyTile.
  destruct (q_free (inputQueue s)) as [|bi ri] eqn:Hfi; [done|].
  destruct (q_free (outputQueue s)) as [|bo ro] eqn:Hfo; [done|].
  pose proof (Hi3 bi ltac:(set_solver)) as Hbi. pose proof (Ho3 bo ltac:(set_solver)) as Hbo.
  apply wp_bind, (wp_AllocTensor l_in bi ri); [done|].
  apply wp_bind, wp_DataCopy; [done|apply in_tensor_true; simpl; lia|apply in_tensor_true; lia|].
  apply wp_bind, wp_EnQue. apply wp_bind, (wp_DeQue l_in bi []); [simpl; by rewrite Hi1|].
  apply wp_bind, (wp_AllocTensor l_out bo ro); [done|].
  apply wp_bind, wp_DataCopy; [done|apply in_tensor_true; simpl; lia|apply in_tensor_true; simpl; rewrite ?Z.eqb_refl, ?write_range_len; lia|].
  apply wp_bind, wp_EnQue. apply wp_bind, wp_FreeTensor.
  apply wp_bind, (wp_DeQue l_out bo []); [simpl; by rewrite Ho1|].
  apply wp_bind, wp_DataCopy; [done|apply in_tensor_true; simpl; lia|apply in_tensor_true; simpl; rewrite ?Z.eqb_refl, ?write_range_len; lia|].
  apply wp_FreeTensor. cbn [outGM lset l_gm l_in l_out LocalTensor lget inputQueue outputQueue q_bufs q_free q_que app].
  split_and!.
  - split_and!.
    + apply (queue_idle_rotate (inputQueue s)); [done|]. intros b Hb. destruct (b =? bi); [by rewrite write_range_len|]. apply Hi3. by rewrite <- Hfi.
    + apply (queue_idle_rotate (outputQueue s)); [done|]. intros b Hb. destruct (b =? bo); [by rewrite write_range_len|]. apply Ho3. by rewrite <- Hfo.
    + done.
  - intros c Hc. rewrite write_range_in by done. rewrite !Z.eqb_refl.
    rewrite !(write_range_in _ 0 n _ c) by done. done.
  - intros i Hi. by rewrite write_range_out.
Qed.

(** *** One page *)

Abbreviation E := (elemsPerBlock td).
Abbreviation src_id := (t_at (srcBlockIdsGM e)).
Abbreviation dst_id := (t_at (dstBlockIdsGM e)).

(** Cell [c] of the page that pair [i] copies. *)
Definition src_page (i c : Z) : T := t_at (srcPagesGM e) (src_id i * E + c).

Lemma block_aligned_div n : block_aligned (gsizeofT e) n = true <-> (32 | n * gsizeofT e).
Proof. unfold block_aligned. rewrite Z.eqb_eq. apply Z.rem_divide. done. Qed.

Lemma block_aligned_add m n :
  block_aligned (gsizeofT e) m = true -> block_aligned (gsizeofT e) n = true -> block_aligned (gsizeofT e) (m + n) = true.
Proof. rewrite !block_aligned_div, Z.mul_add_distr_r. apply Z.divide_add_r. Qed.

Lemma block_aligned_sub m n :
  block_aligned (gsizeofT e) m = true -> block_aligned (gsizeofT e) n = true -> block_aligned (gsizeofT e) (m - n) = true.
Proof. rewrite !block_aligned_div, Z.mul_sub_distr_r. apply Z.divide_sub_r. Qed.

Lemma CopyBlock_spec i s :
  gather_idle s -> 0 <= i < selectedBlocks td ->
  wp (CopyBlock i)
    (fun _ s' => gather_idle s' /\
       (forall c, 0 <= c < E -> t_at (outGM s') (dst_id i * E + c) = src_page i c) /\
       (forall j, j < dst_id i * E \/ dst_id i * E + E <= j -> t_at (outGM s') j = t_at (outGM s) j)) s.
Proof.
  intros Hs Hi. pose proof He as [HE Ht Hta HEa Hsz Hsrc [Hl1 Hl2] Hsi Hdi]. specialize (Hsi i Hi). specialize (Hdi i Hi).
  unfold CopyBlock. apply wp_bind, wp_GetValue; [lia|]. apply wp_bind, wp_GetValue; [lia|]. cbv zeta.
  apply (wp_loop (fun copied s' => 0 <= copied <= E /\ block_aligned (gsizeofT e) copied = true /\ gather_idle s' /\
      (forall c, 0 <= c < copied -> t_at (outGM s') (dst_id i * E + c) = src_page i c) /\
      (forall j, j < dst_id i * E \/ dst_id i * E + E <= j -> t_at (outGM s') j = t_at (outGM s) j))
    (fun copied => Z.to_nat (E - copied))).
  - intros copied s1 (Hc & Hal & Hid & Hdone & Hrest). destruct (copied <? E) eqn:Hlt; bool_prop.
    2:{ apply wp_ret. split_and!; [done| |done]. intros c Hcc. apply Hdone. lia. }
    set (n := if E - copied <? tileElems td then E - copied else tileElems td).
    assert (0 < n <= tileElems td /\ copied + n <= E /\ block_aligned (gsizeofT e) n = true) as (Hn & Hn2 & Hn3).
    { subst n. case_if; split_and!; try lia; [by apply block_aligned_sub|done]. }
    pose proof (row_index_bound (src_id i) copied srcN E Hsi ltac:(lia)).
    pose proof (row_index_bound (dst_id i) copied dstN E Hdi ltac:(lia)).
    assert (src_id i * E + E <= srcN * E) by nia. assert (dst_id i * E + E <= dstN * E) by nia.
    pose proof Hid as (_ & _ & Hlen).
    eapply wp_seq; [apply CopyTile_spec; try done; lia|]. intros [] s2 (Hid2 & Hnew & Hold). apply wp_ret. split; [|lia].
    split_and!; [lia..|by apply block_aligned_add|done| |].
    + intros c Hcc. destruct (decide (c < copied)) as [Hlo|Hhi].
      * rewrite Hold by lia. apply Hdone. lia.
      * specialize (Hnew (c - copied) ltac:(lia)). unfold src_page.
        replace (dst_id i * E + c) with (dst_id i * E + copied + (c - copied)) by lia. rewrite Hnew. f_equal. lia.
    + intros j Hj. rewrite Hold by lia. by apply Hrest.
  - lia.
  - split_and!; try done; try lia.
Qed.

(** *** The pairs that are done *)

(** Page [d] of the output: copied by a pair that is done, or untouched. *)
Definition page_result (g0 : tensor T) (D : Z -> Prop) (g : tensor T) (d : Z) : Prop :=
  (exists i, D i /\ 0 <= i < selectedBlocks td /\ dst_id i = d /\
     forall c, 0 <= c < E -> t_at g (d * E + c) = src_page i c) \/
  ((forall i, D i -> 0 <= i < selectedBlocks td -> dst_id i <> d) /\
   forall c, 0 <= c < E -> t_at g (d * E + c) = t_at g0 (d * E + c)).

Definition gather_inv (g0 : tensor T) (D : Z -> Prop) (g : tensor T) : Prop :=
  t_len g = dstN * E /\ forall d, 0 <= d < dstN -> page_result g0 D g d.

Lemma gather_inv_ext g0 (D D' : Z -> Prop) g :
  (forall i, 0 <= i < selectedBlocks td -> D i <-> D' i) -> gather_inv g0 D g -> gather_inv g0 D' g.
Proof.
  intros Hext [Hl Hp]. split; [done|]. intros d Hd. destruct (Hp d Hd) as [(i & H1 & H2 & H3)|[H1 H2]].
  - left. exists i. split; [by apply Hext|done].
  - right. split; [|done]. intros i Hi Hr. apply H1; [by apply Hext|done].
Qed.

Lemma gather_inv_step g0 D g g' i :
  gather_inv g0 D g -> 0 <= i < selectedBlocks td -> t_len g' = t_len g ->
  (forall c, 0 <= c < E -> t_at g' (dst_id i * E + c) = src_page i c) ->
  (forall j, j < dst_id i * E \/ dst_id i * E + E <= j -> t_at g' j = t_at g j) ->
  gather_inv g0 (fun x => D x \/ x = i) g'.
Proof.
  intros [Hl Hp] Hi Hl' Hnew Hold. split; [congruence|]. intros d Hd. pose proof (ge_elems _ _ He).
  destruct (decide (dst_id i = d)) as [<-|Hne]; [left; exists i; auto|].
  assert (forall c, 0 <= c < E -> t_at g' (d * E + c) = t_at g (d * E + c)) as Hsame.
  { intros c Hc. apply Hold. destruct (Z.lt_trichotomy d (dst_id i)) as [?|[?|?]]; [left|done|right]; nia. }
  destruct (Hp d Hd) as [(k & H1 & H2 & H3 & H4)|[H1 H2]].
  - left. exists k. split_and!; [by left|lia|lia|done|]. intros c Hc. by rewrite Hsame, H4.
  - right. split; [|intros c Hc; by rewrite Hsame, H2]. intros k [Hk| ->] Hr; [by apply H1|done].
Qed.

(** A core performs the pairs of its residue class. *)
Lemma GatherProcess_spec g0 D s :
  0 <= gBlockIdx e < gBlockNum e -> gather_idle s -> gather_inv g0 D (outGM s) ->
  wp GatherProcess (fun _ s' => gather_inv g0 (fun i => D i \/ i mod gBlockNum e = gBlockIdx e) (outGM s')) s.
Proof.
  intros Hb Hs Hinv. set (n := gBlockNum e) in *. set (b := gBlockIdx e) in *. unfold GatherProcess. fold n b.
  apply (wp_for_step (fun j s' => exists k, j = b + k * n /\ 0 <= k /\ gather_idle s' /\
    gather_inv g0 (fun i => D i \/ stride_before n b k i) (outGM s'))).
  - lia.
  - exists 0. split_and!; [lia|lia|done|]. eapply gather_inv_ext; [|exact Hinv]. intros i Hi. split; [auto|].
    intros [?|Hb0]; [done|]. by destruct (stride_before_0 n b i Hb ltac:(lia) Hb0).
  - intros k s1 Hk Hlt (k' & Hkk & _ & Hs1 & Hi1). assert (k' = k) as -> by nia.
    eapply wp_mono; [apply CopyBlock_spec; [done|nia]|]. intros [] s2 (Hs2 & Hnew & Hold).
    pose proof Hs1 as (_ & _ & Hl1). pose proof Hs2 as (_ & _ & Hl2). exists (k + 1). split_and!; [lia|lia|done|].
    eapply gather_inv_ext; [|eapply (gather_inv_step _ _ _ _ (b + k * n)); [exact Hi1|nia|congruence|done|done]].
    intros i Hi. rewrite stride_before_S by lia. tauto.
  - intros k s' Hk Hge _ (k' & Hkk & _ & _ & Hi1). assert (k' = k) as -> by nia. eapply gather_inv_ext; [|exact Hi1].
    intros i Hi. unfold stride_before. split; [tauto|]. intros [?|?]; [by left|]. right. split; [done|lia].
Qed.
End Kernel.
