(* ===== verification/KvGatherHost.v ===== *)
(** KvCacheBlockGather, host side: the tiling function
    ([op_host/kv_cache_block_gather_tiling.cpp]), the selection of the kernel
    instance ([op_kernel/kv_cache_block_gather.cpp]) and the checks of the Torch
    adapter ([csrc/kv_cache_block_gather_binding.cpp]). *)

From stdpp Require Import gmap.
From S2P Require Import Prelude AscendC TilingContext Exn HostRegistry KvGather.

(** ** Tiling *)

Definition WS_SYS_SIZE : Z := 16 * 1024 * 1024.
Definition DEFAULT_TILE_ELEMS : Z := 1024.
Definition DATA_COPY_BLOCK_BYTES : Z := 32.
Definition IDX_SRC_BLOCK_IDS : Z := 0.
Definition IDX_SRC_PAGES : Z := 1.
Definition IDX_DST_BLOCK_IDS : Z := 2.
Definition IDX_OUT : Z := 0.

Definition KV_CACHE_BLOCK_GATHER_FLOAT_MODE : Z := 1.
Definition KV_CACHE_BLOCK_GATHER_FLOAT16_MODE : Z := 2.
Definition KV_CACHE_BLOCK_GATHER_BF16_MODE : Z := 3.
Definition KV_CACHE_BLOCK_GATHER_INT8_MODE : Z := 4.

Record GatherLaunch : Type := {
  gl_tiling : KvCacheBlockGatherTilingData;
  gl_blockDim : Z;
  gl_tilingKey : Z;
  gl_workspace : Z }.

Definition GatherPlatformInfo (context : TilingContext) : HostM Z :=
  platformInfo ← OP_CHECK_NULL (GetPlatformInfoPtr context) "platformInfoPtr is null";
  let coreNum := GetCoreNumAiv platformInfo in
  OP_CHECK_IF (coreNum =? 0) "coreNum is 0" ;;
  Ok coreNum.

Definition GetWorkspaceSize (context : TilingContext) : HostM Z :=
  OP_CHECK_IF (negb (HasWorkspaceSizes context)) "currentWorkspace is null" ;;
  Ok WS_SYS_SIZE.

(** The loop over the dimensions; a tensor's element count fits [int64_t]. *)
Definition shape_elems (shape : list Z) : Z := foldl Z.mul 1 shape.

Definition GetShapeInfo (context : TilingContext) : HostM (Z * Z) :=
  srcBlockIds ← OP_CHECK_NULL (GetInputShape context IDX_SRC_BLOCK_IDS) "srcBlockIdsShape is null";
  srcPages ← OP_CHECK_NULL (GetInputShape context IDX_SRC_PAGES) "srcPagesShape is null";
  dstBlockIds ← OP_CHECK_NULL (GetInputShape context IDX_DST_BLOCK_IDS) "dstBlockIdsShape is null";
  out ← OP_CHECK_NULL (GetOutputShape context IDX_OUT) "outShape is null";
  OP_CHECK_IF (negb (GetDimNum srcBlockIds =? 1)) "src_block_ids must be 1D" ;;
  OP_CHECK_IF (negb (GetDimNum dstBlockIds =? 1)) "dst_block_ids must be 1D" ;;
  OP_CHECK_IF (GetDimNum out <? 1) "out must have at least 1 dimension" ;;
  let selectedBlocks := GetDim srcBlockIds 0 in
  OP_CHECK_IF (selectedBlocks <=? 0) "selectedBlocks must be positive" ;;
  OP_CHECK_IF (negb (GetDim dstBlockIds 0 =? selectedBlocks)) "dst_block_ids dim0 must equal src_block_ids dim0" ;;
  let outElems := shape_elems out in
  let dstBlocks := GetDim out 0 in
  OP_CHECK_IF (dstBlocks <=? 0) "out dim0 must be positive" ;;
  OP_CHECK_IF (negb (outElems %c dstBlocks =? 0)) "out element count is not divisible by out dim0" ;;
  let elemsPerBlock := outElems /c dstBlocks in
  OP_CHECK_IF (elemsPerBlock <=? 0) "elemsPerBlock must be positive" ;;
  OP_CHECK_IF (negb (elemsPerBlock %c 8 =? 0)) "elemsPerBlock must be a multiple of 8 elements" ;;
  let srcElems := shape_elems srcPages in
  OP_CHECK_IF (srcElems <? elemsPerBlock) "src_pages must hold at least one block" ;;
  OP_CHECK_IF (negb (srcElems %c elemsPerBlock =? 0)) "src_pages element count must be divisible by elemsPerBlock" ;;
  Ok (selectedBlocks, elemsPerBlock).

Definition IsSupportedPayloadDtype (dtype : DataType) : bool :=
  bool_decide (dtype = DT_FLOAT) || bool_decide (dtype = DT_FLOAT16) || bool_decide (dtype = DT_BF16) ||
  bool_decide (dtype = DT_INT8).

Definition GetDataCopyAlignmentElems (dtype : DataType) : Z :=
  if bool_decide (dtype = DT_FLOAT) then DATA_COPY_BLOCK_BYTES /c 4
  else if bool_decide (dtype = DT_FLOAT16) || bool_decide (dtype = DT_BF16) then DATA_COPY_BLOCK_BYTES /c 2
  else DATA_COPY_BLOCK_BYTES /c 1.

Definition CheckDtypes (context : TilingContext) : HostM DataType :=
  srcBlockIds ← OP_CHECK_NULL (GetInputDesc context IDX_SRC_BLOCK_IDS) "srcBlockIdsDesc is null";
  srcPages ← OP_CHECK_NULL (GetInputDesc context IDX_SRC_PAGES) "srcPagesDesc is null";
  dstBlockIds ← OP_CHECK_NULL (GetInputDesc context IDX_DST_BLOCK_IDS) "dstBlockIdsDesc is null";
  out ← OP_CHECK_NULL (GetOutputDesc context IDX_OUT) "outDesc is null";
  OP_CHECK_IF (negb (bool_decide (srcBlockIds = DT_INT32))) "src_block_ids dtype must be int32" ;;
  OP_CHECK_IF (negb (bool_decide (dstBlockIds = DT_INT32))) "dst_block_ids dtype must be int32" ;;
  OP_CHECK_IF (negb (IsSupportedPayloadDtype srcPages)) "src_pages dtype must be float, float16, bf16, or int8" ;;
  OP_CHECK_IF (negb (bool_decide (out = srcPages))) "out dtype must match src_pages dtype" ;;
  Ok srcPages.

Definition GetTilingKeyByDtype (payloadDtype : DataType) : Z :=
  if bool_decide (payloadDtype = DT_FLOAT16) then KV_CACHE_BLOCK_GATHER_FLOAT16_MODE
  else if bool_decide (payloadDtype = DT_BF16) then KV_CACHE_BLOCK_GATHER_BF16_MODE
  else if bool_decide (payloadDtype = DT_INT8) then KV_CACHE_BLOCK_GATHER_INT8_MODE
  else KV_CACHE_BLOCK_GATHER_FLOAT_MODE.

Definition KvCacheBlockGatherTilingFunc (context : TilingContext) : HostM GatherLaunch :=
  coreNum ← GatherPlatformInfo context;
  payloadDtype ← CheckDtypes context;
  '(selectedBlocks, elemsPerBlock) ← GetShapeInfo context;
  let alignmentElems := GetDataCopyAlignmentElems payloadDtype in
  OP_CHECK_IF (negb (elemsPerBlock %c alignmentElems =? 0)) "elemsPerBlock must be block-aligned" ;;
  workspace ← GetWorkspaceSize context;
  OP_CHECK_IF (negb (HasTilingData context)) "tiling is null" ;;
  Ok {| gl_tiling := {| selectedBlocks := selectedBlocks; elemsPerBlock := elemsPerBlock;
                        tileElems := Z.min DEFAULT_TILE_ELEMS elemsPerBlock |};
        gl_blockDim := u32 (Z.min coreNum selectedBlocks);
        gl_tilingKey := GetTilingKeyByDtype payloadDtype;
        gl_workspace := workspace |}.

(** The payload type of each compiled kernel instance, by its size. *)
Definition kernel_sizeofT (schMode : Z) : option Z :=
  if schMode =? KV_CACHE_BLOCK_GATHER_FLOAT_MODE then Some 4
  else if schMode =? KV_CACHE_BLOCK_GATHER_FLOAT16_MODE then Some 2
  else if schMode =? KV_CACHE_BLOCK_GATHER_BF16_MODE then Some 2
  else if schMode =? KV_CACHE_BLOCK_GATHER_INT8_MODE then Some 1
  else None.

(** ** What the tiling function accepts *)

Definition dtype_size (dt : DataType) : Z :=
  match dt with
  | DT_FLOAT | DT_INT32 | DT_UINT32 => 4
  | DT_FLOAT16 | DT_BF16 => 2
  | DT_INT8 => 1
  | DT_INT64 => 8
  | DT_UNDEFINED => 0
  end.

(** The elements of a page: all dimensions but the first. *)
Definition page_elems (shape : list Z) : Z := shape_elems (tail shape).

Record gather_acceptable (context : TilingContext) (cores sel elems srcN dstN : Z) (dt : DataType) : Prop := {
  ga_platform : exists pi, GetPlatformInfoPtr context = Some pi /\ GetCoreNumAiv pi = cores /\ cores <> 0;
  ga_src_ids : GetInputShape context IDX_SRC_BLOCK_IDS = Some [sel] /\ GetInputDesc context IDX_SRC_BLOCK_IDS = Some DT_INT32;
  ga_dst_ids : GetInputShape context IDX_DST_BLOCK_IDS = Some [sel] /\ GetInputDesc context IDX_DST_BLOCK_IDS = Some DT_INT32;
  ga_sel : 0 < sel;
  ga_out : exists shape, GetOutputShape context IDX_OUT = Some (dstN :: shape) /\ shape_elems shape = elems /\
             GetOutputDesc context IDX_OUT = Some dt;
  ga_dst : 0 < dstN;
  ga_elems : 0 < elems;
  ga_src : exists shape, GetInputShape context IDX_SRC_PAGES = Some shape /\ shape_elems shape = srcN * elems /\
             GetInputDesc context IDX_SRC_PAGES = Some dt;
  ga_srcN : 0 < srcN;
  ga_dtype : IsSupportedPayloadDtype dt = true;
  ga_aligned : (32 | elems * dtype_size dt);
  ga_buffers : HasWorkspaceSizes context = true /\ HasTilingData context = true }.

Lemma foldl_mul_acc a l : foldl Z.mul a l = a * foldl Z.mul 1 l.
Proof.
  revert a. induction l as [|x l IH]; intros a; cbn [foldl]; [lia|]. rewrite IH, (IH (1 * x)). lia.
Qed.

Lemma shape_elems_cons d shape : shape_elems (d :: shape) = d * shape_elems shape.
Proof. unfold shape_elems. cbn [foldl]. rewrite foldl_mul_acc. lia. Qed.

Lemma shape_1 shape : GetDimNum shape = 1 -> shape = [GetDim shape 0].
Proof. destruct shape as [|d [|]]; unfold GetDimNum; simpl; try done; lia. Qed.

(** The two divisibility checks together are one on the bytes of a page. *)
Lemma alignment_iff dt elems : 0 < elems -> IsSupportedPayloadDtype dt = true ->
  (elems %c 8 = 0 /\ elems %c GetDataCopyAlignmentElems dt = 0) <-> (32 | elems * dtype_size dt).
Proof.
  intros He Hdt. rewrite <- (Z.rem_divide (elems * _)) by done.
  destruct dt; try discriminate Hdt; vm_compute GetDataCopyAlignmentElems; unfold dtype_size;
    rewrite !rem_nonneg_mod by lia; Z.to_euclidean_division_equations; lia.
Qed.

Lemma GatherPlatformInfo_inv context cores :
  GatherPlatformInfo context = Ok cores <->
  exists pi, GetPlatformInfoPtr context = Some pi /\ GetCoreNumAiv pi = cores /\ cores <> 0.
Proof.
  unfold GatherPlatformInfo. split.
  - intros H. inv_bind H. inv_bind H. injection H as <-. eauto.
  - intros (pi & -> & <- & Hc). cbn. by rewrite (proj2 (Z.eqb_neq _ _) Hc).
Qed.

Lemma CheckDtypes_inv context dt :
  CheckDtypes context = Ok dt <->
  GetInputDesc context IDX_SRC_BLOCK_IDS = Some DT_INT32 /\ GetInputDesc context IDX_DST_BLOCK_IDS = Some DT_INT32 /\
  GetInputDesc context IDX_SRC_PAGES = Some dt /\ GetOutputDesc context IDX_OUT = Some dt /\ IsSupportedPayloadDtype dt = true.
Proof.
  unfold CheckDtypes. split.
  - intros H. do 8 inv_bind H. injection H as <-.
    repeat match goal with H : bool_decide _ = true |- _ => apply bool_decide_eq_true in H end. subst. done.
  - intros (-> & -> & -> & -> & Hs). cbn -[IsSupportedPayloadDtype]. rewrite Hs. cbn. by rewrite bool_decide_eq_true_2.
Qed.

Lemma GetShapeInfo_inv context sel elems :
  GetShapeInfo context = Ok (sel, elems) <->
  exists srcShape dstN rest srcN,
    GetInputShape context IDX_SRC_BLOCK_IDS = Some [sel] /\ GetInputShape context IDX_DST_BLOCK_IDS = Some [sel] /\
    GetInputShape context IDX_SRC_PAGES = Some srcShape /\ GetOutputShape context IDX_OUT = Some (dstN :: rest) /\
    0 < sel /\ 0 < dstN /\ 0 < elems /\ shape_elems rest = elems /\ elems %c 8 = 0 /\
    shape_elems srcShape = srcN * elems /\ 0 < srcN.
Proof.
  unfold GetShapeInfo. split.
  - intros H. do 15 inv_bind H. injection H as <- <-.
    match goal with H : GetDimNum ?x = 1, H' : GetInputShape _ IDX_SRC_BLOCK_IDS = Some ?x |- _ => apply shape_1 in H; rewrite H in H' end.
    match goal with H : GetDimNum ?x = 1, H' : GetInputShape _ IDX_DST_BLOCK_IDS = Some ?x |- _ => apply shape_1 in H; rewrite H in H' end.
    match goal with H : GetOutputShape _ _ = Some ?x |- _ => destruct x as [|dstN rest]; [unfold GetDimNum in *; simpl in *; lia|] end.
    rewrite shape_elems_cons in *. change (GetDim (dstN :: rest) 0) with dstN in *.
    rewrite (Z.mul_comm dstN), Z.quot_mul in * by lia.
    match goal with H : shape_elems ?x %c _ = 0, H' : GetInputShape _ IDX_SRC_PAGES = Some ?x |- _ =>
      apply Z.rem_divide in H as [srcN HsrcN]; [|lia]; exists x, dstN, rest, srcN end.
    split_and!; try done; try congruence. nia.
  - intros (srcShape & dstN & rest & srcN & -> & -> & -> & -> & Hsel & Hd & He & <- & H8 & Hs & HsN).
    do 4 (erewrite OP_CHECK_NULL_pass by reflexivity).
    rewrite !OP_CHECK_IF_pass; [| |..]; cbv zeta; change (GetDim (dstN :: rest) 0) with dstN; change (GetDim [sel] 0) with sel;
      rewrite ?shape_elems_cons, ?(Z.mul_comm dstN), ?Z.quot_mul, ?Hs, ?Z.rem_mul, ?Z.eqb_refl by lia; try reflexivity;
      rewrite ?Bool.negb_false_iff, ?Z.eqb_eq, ?Z.leb_gt, ?Z.ltb_ge; try done; unfold GetDimNum; cbn [length]; nia.
Qed.

(** The launch of an accepted call. *)
Definition gather_launch (cores sel elems : Z) (dt : DataType) : GatherLaunch :=
  {| gl_tiling := {| selectedBlocks := sel; elemsPerBlock := elems; tileElems := Z.min DEFAULT_TILE_ELEMS elems |};
     gl_blockDim := u32 (Z.min cores sel); gl_tilingKey := GetTilingKeyByDtype dt; gl_workspace := WS_SYS_SIZE |}.

Lemma tiling_func_exact context la :
  KvCacheBlockGatherTilingFunc context = Ok la <->
  exists cores sel elems srcN dstN dt, gather_acceptable context cores sel elems srcN dstN dt /\ la = gather_launch cores sel elems dt.
Proof.
  unfold KvCacheBlockGatherTilingFunc. split.
  - intros H. inv_bind H. inv_bind H. inv_bind H. destruct a1 as [sel elems]. inv_bind H. inv_bind H. inv_bind H.
    injection H as <-. apply GatherPlatformInfo_inv in Hok. apply CheckDtypes_inv in Hok0 as (D1 & D2 & D3 & D4 & D5).
    apply GetShapeInfo_inv in Hok1 as (srcShape & dstN & rest & srcN & S1 & S2 & S3 & S4 & S5 & S6 & S7 & S8 & S9 & S10 & S11).
    unfold GetWorkspaceSize in Hok3. inv_bind Hok3. injection Hok3 as <-.
    exists a, sel, elems, srcN, dstN, a0. split; [|done]. split; try done; eauto. by apply alignment_iff.
  - intros (cores & sel & elems & srcN & dstN & dt & [P1 [P2 P2'] [P3 P3'] P4 (rest & P5 & P5' & P5'') P6 P7 (sh & P8 & P8' & P8'') P9 P10 P11 [P12 P13]] & ->).
    apply alignment_iff in P11 as [A1 A2]; [|done|done].
    rewrite (proj2 (GatherPlatformInfo_inv _ _) P1), (proj2 (CheckDtypes_inv context dt)) by done.
    rewrite (proj2 (GetShapeInfo_inv context sel elems)) by (exists sh, dstN, rest, srcN; done).
    cbn -[GetDataCopyAlignmentElems Z.rem]. unfold OP_CHECK_IF, GetWorkspaceSize. rewrite A2, P12, P13. reflexivity.
Qed.
