(* ===== verification/KvGatherGrid.v ===== *)
(** KvCacheBlockGather end to end: the cores of a launch, the launch that the
    tiling function prescribes, and the call through the Torch adapter with its
    source pool leased from the mapped-host registry. *)

From stdpp Require Import gmap.
From S2P Require Import Prelude AscendC TilingContext Exn HostRegistry HostRegistryInv HostRegistryOps HostRegistrySpec.
From S2P Require Import HostRegistryClaims.
From S2P Require Import KvGather KvGatherHost.

(** ** The cores of a launch *)

Definition with_gcore {T} (e : GEnv T) (b n : Z) : GEnv T :=
  Build_GEnv (srcBlockIdsGM e) (dstBlockIdsGM e) (srcPagesGM e) (gtd e) (gsizeofT e) b n.

Section Grid.
Context {T : Type}.
Variable e : GEnv T.

(** Core [b] of [n] with fresh queues; [v] is what the buffers happen to hold. *)
Definition gather_core (n : Z) (v : T) (b : Z) (g : tensor T) : outcome fault_kind (tensor T) :=
  match GatherProcess (with_gcore e b n) (gather_init e v g) with
  | Ok (_, s) => Ok (outGM s)
  | Err k => Err k
  end.

Context (srcN dstN : Z) (He : gather_env e srcN dstN).

Lemma with_gcore_env b n : gather_env (with_gcore e b n) srcN dstN.
Proof. destruct He. by split. Qed.

Lemma init_idle v g : t_len g = dstN * elemsPerBlock (gtd e) -> gather_idle e dstN (gather_init e v g).
Proof. intros Hg. split_and!; try done; simpl; by intros []. Qed.

Lemma gather_core_spec n v g0 (D : Z -> Prop) b g :
  0 <= b < n -> gather_inv e dstN g0 (fun i => D (i mod n)) g ->
  exists g', gather_core n v b g = Ok g' /\ gather_inv e dstN g0 (fun i => D (i mod n) \/ i mod n = b) g'.
Proof.
  intros Hb Hg. pose proof (GatherProcess_spec (with_gcore e b n) srcN dstN (with_gcore_env b n) g0
    (fun i => D (i mod n)) (gather_init e v g) Hb (init_idle v g (proj1 Hg)) Hg) as Hw.
  apply wp_run in Hw as ([] & s & Hrun & Hs). exists (outGM s). unfold gather_core. by rewrite Hrun.
Qed.

Lemma gather_grid_spec n v order g :
  0 < n -> order ≡ₚ zrange 0 n -> t_len g = dstN * elemsPerBlock (gtd e) ->
  exists g', run_blocks (gather_core n v) order g = Ok g' /\ gather_inv e dstN g (fun _ => True) g'.
Proof.
  intros Hn Hperm Hg.
  destruct (run_blocks_spec (gather_core n v) (fun D g' => gather_inv e dstN g (fun i => D (i mod n)) g') order) with (D := fun _ : Z => False) (g := g)
    as (g' & Hrun & Hinv).
  - intros D b g1 Hb Hg1. apply gather_core_spec; [|done]. by rewrite Hperm, elem_of_zrange in Hb.
  - intros D D' g1 HD. apply gather_inv_ext. intros i _. apply HD.
  - split; [done|]. intros d Hd. right. done.
  - exists g'. split; [done|]. eapply gather_inv_ext; [|exact Hinv]. intros i Hi. split; [done|]. intros _. right.
    rewrite Hperm, elem_of_zrange. by apply Z.mod_pos_bound.
Qed.

(** With distinct destinations every pair's page arrives. *)
Lemma gather_inv_distinct g0 g :
  (forall i j, 0 <= i < selectedBlocks (gtd e) -> 0 <= j < selectedBlocks (gtd e) ->
     t_at (dstBlockIdsGM e) i = t_at (dstBlockIdsGM e) j -> i = j) ->
  gather_inv e dstN g0 (fun _ => True) g ->
  forall i c, 0 <= i < selectedBlocks (gtd e) -> 0 <= c < elemsPerBlock (gtd e) ->
  t_at g (t_at (dstBlockIdsGM e) i * elemsPerBlock (gtd e) + c) = src_page e i c.
Proof.
  intros Hinj [_ Hp] i c Hi Hc. destruct (Hp _ (ge_dst_ids _ _ _ He i Hi)) as [(j & _ & Hj & Hd & Hcopy)|[Hno _]].
  - rewrite Hcopy by done. by rewrite (Hinj j i Hj Hi Hd).
  - by destruct (Hno i I Hi).
Qed.
End Grid.

(**  A launch of the gather kernel, whatever the number of cores and their
    order, completes without a fault (all transfers in range and of whole
    32-byte blocks, no queue over- or underrun, every copy loop ends).  Every
    output page is a page that some pair sends there, or untouched if none does;
    with distinct destinations [out[dst[i]] = src_pages[src[i]]] for every pair. *)
Theorem gather_grid_correct {T : Type} (e : GEnv T) (srcN dstN n : Z) (v : T) (order : list Z) (g : tensor T) :
  gather_env e srcN dstN -> 0 < n -> order ≡ₚ zrange 0 n -> t_len g = dstN * elemsPerBlock (gtd e) ->
  exists g', run_blocks (gather_core e n v) order g = Ok g' /\ t_len g' = t_len g /\
    (forall d, 0 <= d < dstN -> page_result e g (fun _ => True) g' d) /\
    ((forall i j, 0 <= i < selectedBlocks (gtd e) -> 0 <= j < selectedBlocks (gtd e) ->
        t_at (dstBlockIdsGM e) i = t_at (dstBlockIdsGM e) j -> i = j) ->
     forall i c, 0 <= i < selectedBlocks (gtd e) -> 0 <= c < elemsPerBlock (gtd e) ->
     t_at g' (t_at (dstBlockIdsGM e) i * elemsPerBlock (gtd e) + c) =
     t_at (srcPagesGM e) (t_at (srcBlockIdsGM e) i * elemsPerBlock (gtd e) + c)).
Proof.
  intros He Hn Hperm Hg. destruct (gather_grid_spec e srcN dstN He n v order g Hn Hperm Hg) as (g' & Hrun & Hinv).
  exists g'. split_and!; [done|by rewrite Hg; apply Hinv|apply Hinv|]. intros Hinj.
  exact (gather_inv_distinct e srcN dstN He g g' Hinj Hinv).
Qed.

(** ** From the tiling function to the kernel *)

(** Bytes of the two queues that [Init] allocates. *)
Definition gather_ub_bytes (td : KvCacheBlockGatherTilingData) (size : Z) : Z :=
  2 * (BUFFER_NUM_GATHER * (tileElems td * size)).

(** The kernel environment of a launch and what the caller promises of the
    block numbers. *)
Record gather_launched {T} (la : GatherLaunch) (e : GEnv T) (srcN dstN : Z) : Prop := {
  gd_tiling : gtd e = gl_tiling la;
  gd_size : kernel_sizeofT (gl_tilingKey la) = Some (gsizeofT e);
  gd_src : t_len (srcPagesGM e) = srcN * elemsPerBlock (gtd e);
  gd_src_ids : t_len (srcBlockIdsGM e) = selectedBlocks (gtd e) /\
               forall i, 0 <= i < selectedBlocks (gtd e) -> 0 <= t_at (srcBlockIdsGM e) i < srcN;
  gd_dst_ids : t_len (dstBlockIdsGM e) = selectedBlocks (gtd e) /\
               forall i, 0 <= i < selectedBlocks (gtd e) -> 0 <= t_at (dstBlockIdsGM e) i < dstN }.

Lemma key_size dt : IsSupportedPayloadDtype dt = true -> kernel_sizeofT (GetTilingKeyByDtype dt) = Some (dtype_size dt).
Proof. by destruct dt. Qed.

Lemma tile_aligned elems size :
  0 < elems -> size = 1 \/ size = 2 \/ size = 4 -> (32 | elems * size) -> (32 | Z.min DEFAULT_TILE_ELEMS elems * size).
Proof.
  intros He Hs Hd. unfold DEFAULT_TILE_ELEMS. destruct (Z.min_spec 1024 elems) as [[_ ->]|[_ ->]]; [|done].
  exists (32 * size). lia.
Qed.

Lemma accepted_env {T} context cores sel elems srcN dstN dt (e : GEnv T) :
  gather_acceptable context cores sel elems srcN dstN dt -> gather_launched (gather_launch cores sel elems dt) e srcN dstN ->
  gather_env e srcN dstN /\ gsizeofT e = dtype_size dt.
Proof.
  intros [P1 P2 P3 P4 P5 P6 P7 P8 P9 P10 P11 P12] [L1 L2 L3 [L4 L4'] [L5 L5']]. simpl in *.
  rewrite (key_size dt P10) in L2. injection L2 as Hsize.
  assert (gsizeofT e = 1 \/ gsizeofT e = 2 \/ gsizeofT e = 4) as Hs by (rewrite <- Hsize; destruct dt; try discriminate P10; auto).
  split; [|done]. rewrite L1 in *. simpl in *. split; rewrite ?L1; simpl; try done; try lia.
  - unfold DEFAULT_TILE_ELEMS. lia.
  - apply block_aligned_div. rewrite <- Hsize in *. by apply tile_aligned.
  - apply block_aligned_div. by rewrite <- Hsize.
Qed.

(** C32.  The tiling function accepts a call exactly when the platform has
    cores, the block-id tensors are equally long non-empty int32 vectors, the
    pages have a supported common type and a size that is a positive multiple
    of 32 bytes, and the source holds a positive whole number of pages; the
    launch then is the one determined by these extents. *)
Theorem KvCacheBlockGatherTilingFunc_exact (context : TilingContext) (la : GatherLaunch) :
  KvCacheBlockGatherTilingFunc context = Ok la <->
  exists cores sel elems srcN dstN dt,
    gather_acceptable context cores sel elems srcN dstN dt /\ la = gather_launch cores sel elems dt.
Proof. apply tiling_func_exact. Qed.

(**  A launch as prescribed by the tiling function fulfils the kernel's
    contract, uses between one core and as many as there are pairs, and its
    queues take at most 16 KiB of unified buffer. *)
Theorem gather_launch_fits {T : Type} (context : TilingContext) (la : GatherLaunch) (e : GEnv T) (cores sel elems srcN dstN : Z)
    (dt : DataType) :
  gather_acceptable context cores sel elems srcN dstN dt -> KvCacheBlockGatherTilingFunc context = Ok la ->
  gather_launched la e srcN dstN -> 0 < cores < 2 ^ 32 ->
  gather_env e srcN dstN /\ 0 < gl_blockDim la <= Z.min cores sel /\ gather_ub_bytes (gtd e) (gsizeofT e) <= 16384.
Proof.
  intros Ha Hok Hl Hc. assert (la = gather_launch cores sel elems dt) as ->.
  { assert (KvCacheBlockGatherTilingFunc context = Ok (gather_launch cores sel elems dt)) as Hok'
      by (apply tiling_func_exact; eauto 10). congruence. }
  destruct (accepted_env _ _ _ _ _ _ _ _ Ha Hl) as [He Hsz]. split; [done|].
  pose proof (ga_sel _ _ _ _ _ _ _ Ha). pose proof (ga_elems _ _ _ _ _ _ _ Ha).
  split; [simpl; rewrite u32_id by (unfold fits_u32; lia); lia|].
  rewrite (gd_tiling _ _ _ _ Hl), Hsz. unfold gather_ub_bytes, BUFFER_NUM_GATHER.
  cbn [gather_launch gl_tiling tileElems]. unfold DEFAULT_TILE_ELEMS.
  assert (1 <= dtype_size dt <= 4) by (pose proof (ga_dtype _ _ _ _ _ _ _ Ha) as Hd; destruct dt; try discriminate Hd; simpl; lia).
  assert (Z.min 1024 elems * dtype_size dt <= 1024 * 4) by (apply Z.mul_le_mono_nonneg; lia). lia.
Qed.

(** ** The Torch adapter *)

Inductive TorchDevice : Type :=
  | DevCpu
  | DevNpu (index : Z)
  | DevOther.
#[global] Instance TorchDevice_eq_dec : EqDecision TorchDevice.
Proof. solve_decision. Defined.

Inductive ScalarType : Type :=
  | Float
  | Half
  | BFloat16
  | Char
  | Int
  | OtherScalar.
#[global] Instance ScalarType_eq_dec : EqDecision ScalarType.
Proof. solve_decision. Defined.

Record TorchTensor : Type := {
  tt_device : TorchDevice;
  tt_scalar_type : ScalarType;
  tt_sizes : list Z;
  tt_is_contiguous : bool;
  tt_data_ptr : Z }.

Definition is_privateuseone (t : TorchTensor) : bool := match tt_device t with DevNpu _ => true | _ => false end.
Definition tt_numel (t : TorchTensor) : Z := shape_elems (tt_sizes t).
Definition element_size (st : ScalarType) : Z :=
  match st with Float | Int => 4 | Half | BFloat16 => 2 | Char => 1 | OtherScalar => 8 end.

(** The checks before the registry is consulted.  [None]: nothing to do. *)
Definition gather_checks (src_block_ids src_pages dst_block_ids out : TorchTensor) : RM (option unit) :=
  TORCH_CHECK (is_privateuseone src_block_ids) "src_block_ids must be on NPU" ;;
  TORCH_CHECK (is_privateuseone dst_block_ids) "dst_block_ids must be on NPU" ;;
  TORCH_CHECK (is_privateuseone out) "out must be on NPU" ;;
  TORCH_CHECK (bool_decide (tt_device src_block_ids = tt_device out)) "src_block_ids and out must be on the same NPU device" ;;
  TORCH_CHECK (bool_decide (tt_device dst_block_ids = tt_device out)) "dst_block_ids and out must be on the same NPU device" ;;
  TORCH_CHECK (bool_decide (tt_device src_pages = DevCpu)) "src_pages must be a CPU tensor" ;;
  TORCH_CHECK (bool_decide (tt_scalar_type src_block_ids = Int)) "src_block_ids must be int32" ;;
  TORCH_CHECK (bool_decide (tt_scalar_type dst_block_ids = Int)) "dst_block_ids must be int32" ;;
  TORCH_CHECK ((GetDimNum (tt_sizes src_block_ids) =? 1) && (GetDimNum (tt_sizes dst_block_ids) =? 1))
    "src_block_ids and dst_block_ids must be 1D" ;;
  TORCH_CHECK (GetDim (tt_sizes src_block_ids) 0 =? GetDim (tt_sizes dst_block_ids) 0)
    "src_block_ids and dst_block_ids length must match" ;;
  if GetDim (tt_sizes src_block_ids) 0 =? 0 then mret None else
  TORCH_CHECK (tt_is_contiguous src_block_ids) "src_block_ids must be contiguous" ;;
  TORCH_CHECK (tt_is_contiguous dst_block_ids) "dst_block_ids must be contiguous" ;;
  TORCH_CHECK (tt_is_contiguous src_pages) "src_pages must be contiguous" ;;
  TORCH_CHECK (tt_is_contiguous out) "out must be contiguous" ;;
  TORCH_CHECK ((GetDimNum (tt_sizes src_pages) >=? 1) && (GetDimNum (tt_sizes out) >=? 1))
    "src_pages and out must have at least 1 dimension" ;;
  TORCH_CHECK (bool_decide (tt_scalar_type src_pages = tt_scalar_type out)) "src_pages and out dtype must match" ;;
  TORCH_CHECK (bool_decide (tt_scalar_type src_pages = Float) || bool_decide (tt_scalar_type src_pages = Half) ||
               bool_decide (tt_scalar_type src_pages = BFloat16) || bool_decide (tt_scalar_type src_pages = Char))
    "src_pages dtype must be float32, float16, bfloat16, or int8" ;;
  TORCH_CHECK (GetDim (tt_sizes out) 0 >? 0) "out dim0 must be positive" ;;
  TORCH_CHECK (tt_numel out %c GetDim (tt_sizes out) 0 =? 0) "out element count must be divisible by out dim0" ;;
  let elements_per_block := tt_numel out /c GetDim (tt_sizes out) 0 in
  let bytes_per_block := elements_per_block * element_size (tt_scalar_type out) in
  TORCH_CHECK (bytes_per_block %c 32 =? 0) "bytes per block must be a multiple of 32" ;;
  mret (Some tt).

(** The adapter up to the descriptors of the ACLNN call: the device address that
    replaces the data pointer of [src_pages].  [acl] answers for the device that
    the guard has selected, that of [out]. *)
Definition kv_cache_block_gather (acl : Acl) (src_block_ids src_pages dst_block_ids out : TorchTensor) : RM (option Z) :=
  work ← gather_checks src_block_ids src_pages dst_block_ids out;
  match work with
  | None => mret None
  | Some _ =>
      mapped_src_pages ← get_mapped_host_device_ptr acl (tt_data_ptr src_pages)
        (u64 (tt_numel src_pages * element_size (tt_scalar_type src_pages)));
      mret (Some mapped_src_pages)
  end.

Definition dtype_of (st : ScalarType) : DataType :=
  match st with
  | Float => DT_FLOAT
  | Half => DT_FLOAT16
  | BFloat16 => DT_BF16
  | Char => DT_INT8
  | Int => DT_INT32
  | OtherScalar => DT_UNDEFINED
  end.

(** The tiling context that ACLNN builds from the descriptors of the call: the
    shapes and types of the tensors, on a platform with [cores] vector cores. *)
Record gather_context (context : TilingContext) (cores : Z) (src_block_ids src_pages dst_block_ids out : TorchTensor) : Prop := {
  gx_platform : exists pi, GetPlatformInfoPtr context = Some pi /\ GetCoreNumAiv pi = cores;
  gx_src_ids : GetInputShape context IDX_SRC_BLOCK_IDS = Some (tt_sizes src_block_ids) /\
               GetInputDesc context IDX_SRC_BLOCK_IDS = Some (dtype_of (tt_scalar_type src_block_ids));
  gx_src : GetInputShape context IDX_SRC_PAGES = Some (tt_sizes src_pages) /\
           GetInputDesc context IDX_SRC_PAGES = Some (dtype_of (tt_scalar_type src_pages));
  gx_dst_ids : GetInputShape context IDX_DST_BLOCK_IDS = Some (tt_sizes dst_block_ids) /\
               GetInputDesc context IDX_DST_BLOCK_IDS = Some (dtype_of (tt_scalar_type dst_block_ids));
  gx_out : GetOutputShape context IDX_OUT = Some (tt_sizes out) /\
           GetOutputDesc context IDX_OUT = Some (dtype_of (tt_scalar_type out));
  gx_buffers : HasWorkspaceSizes context = true /\ HasTilingData context = true }.

Lemma xcheck_inv {S E} b (x : E) {A} (f : unit -> X S E A) s a s' :
  (xcheck b x ≫= f) s = (Ok a, s') -> b = true /\ f tt s = (Ok a, s').
Proof. destruct b; [done|discriminate]. Qed.

Lemma gather_checks_inv ids pages dst out r r' :
  gather_checks ids pages dst out r = (Ok (Some tt), r') -> (forall d, d ∈ tt_sizes ids -> 0 <= d) ->
  r' = r /\ exists sel dstN rest,
    tt_sizes ids = [sel] /\ tt_sizes dst = [sel] /\ tt_sizes out = dstN :: rest /\ 0 < sel /\ 0 < dstN /\
    tt_scalar_type ids = Int /\ tt_scalar_type dst = Int /\ tt_scalar_type out = tt_scalar_type pages /\
    IsSupportedPayloadDtype (dtype_of (tt_scalar_type pages)) = true /\
    (32 | shape_elems rest * dtype_size (dtype_of (tt_scalar_type pages))).
Proof.
  unfold gather_checks, TORCH_CHECK. intros H Hnn.
  do 10 (apply xcheck_inv in H as [? H]). destruct (_ =? 0) eqn:Hz in H; [done|].
  do 9 (apply xcheck_inv in H as [? H]). cbv zeta in H. apply xcheck_inv in H as [? H]. injection H as <-. split; [done|].
  repeat match goal with H : bool_decide _ = true |- _ => apply bool_decide_eq_true in H end. bool_prop.
  match goal with H : GetDimNum (tt_sizes ids) = 1 |- _ => apply shape_1 in H; remember (GetDim (tt_sizes ids) 0) as sel eqn:Hsel end.
  match goal with H : GetDimNum (tt_sizes dst) = 1 |- _ => apply shape_1 in H end.
  destruct (tt_sizes out) as [|dstN rest] eqn:Hout; [unfold GetDimNum in *; simpl in *; lia|].
  unfold tt_numel in *. rewrite Hout, shape_elems_cons in *. change (GetDim (dstN :: rest) 0) with dstN in *.
  rewrite (Z.mul_comm dstN), Z.quot_mul in * by lia. exists sel, dstN, rest.
  match goal with H : tt_scalar_type pages = tt_scalar_type out |- _ => rewrite <- H in * end.
  match goal with H : tt_sizes ids = [sel] |- _ => assert (0 <= sel) by (apply Hnn; rewrite H; set_solver) end.
  split_and!; try congruence; try lia.
  - destruct (tt_scalar_type pages); vm_compute in *; intuition congruence.
  - apply Z.rem_divide; [done|]. destruct (tt_scalar_type pages); try done; vm_compute in H16; intuition congruence.
Qed.

(** C2.  The whole call.  When the adapter accepts a call in a state of the
    registry that satisfies its invariant, the source tensor lies inside a leased
    mapping of the current device and the address passed on is its alias there.
    If the output is not empty and the source holds whole pages, the tiling
    function accepts the call, and the launch it prescribes runs without a fault
    and leaves in every output page a page that some pair sends there, or the old
    contents if none does, for block numbers in range. *)
Theorem gather_call_correct {T : Type} (pg : Z) (acl : Acl) (r r' : HostMappingRegistry) (ids pages dst out : TorchTensor) (ptr : Z)
    (context : TilingContext) (cores srcN : Z) (e : GEnv T) (v : T) (g : tensor T) :
  0 < pg -> sysconf_PAGESIZE acl = pg -> registry_ok pg r ->
  let bytes := u64 (tt_numel pages * element_size (tt_scalar_type pages)) in
  user_range pg (tt_data_ptr pages) bytes -> (forall d, d ∈ tt_sizes ids -> 0 <= d) ->
  kv_cache_block_gather acl ids pages dst out r = (Ok (Some ptr), r') ->
  0 < page_elems (tt_sizes out) -> 0 < srcN -> tt_numel pages = srcN * page_elems (tt_sizes out) ->
  gather_context context cores ids pages dst out -> 0 < cores < 2 ^ 32 ->
  r' = r /\
  (exists m, m ∈ r_mappings r /\ hm_host_base m <= tt_data_ptr pages /\
     tt_data_ptr pages + bytes <= hm_host_base m + hm_size m /\ hm_device_id m = (aclrtGetDevice acl).2 /\
     ptr = u64 (hm_device_base m + (tt_data_ptr pages - hm_host_base m))) /\
  exists la, KvCacheBlockGatherTilingFunc context = Ok la /\
    forall dstN order, dstN = GetDim (tt_sizes out) 0 -> gather_launched la e srcN dstN ->
    order ≡ₚ zrange 0 (gl_blockDim la) -> t_len g = tt_numel out ->
    exists g', run_blocks (gather_core e (gl_blockDim la) v) order g = Ok g' /\
      forall d, 0 <= d < dstN -> page_result e g (fun _ => True) g' d.
Proof.
  intros Hpg Hsys Hr bytes Hu Hnn Hcall Hpe HsN Hnum [[pi [X1 X1']] [X2 X2'] [X3 X3'] [X4 X4'] [X5 X5'] X6] Hc.
  unfold kv_cache_block_gather in Hcall. apply xbind_ok in Hcall as ([[]|] & r1 & Hchk & Hcall); [|done].
  destruct (gather_checks_inv _ _ _ _ _ _ Hchk Hnn) as (-> & sel & dstN & rest & S1 & S2 & S3 & S4 & S5 & T1 & T2 & T3 & T4 & T5).
  apply xbind_ok in Hcall as (p & r2 & Hlook & [= -> ->]).
  destruct (xwp_ok _ _ _ _ _ _ (lookup_spec pg Hpg acl _ _ r Hsys Hu Hr) Hlook) as (-> & _ & Hm).
  split; [done|]. split; [done|]. rewrite S3 in *. unfold page_elems in *. cbn [tail] in *.
  assert (gather_acceptable context cores sel (shape_elems rest) srcN dstN (dtype_of (tt_scalar_type pages))) as Ha.
  { rewrite S1 in X2. rewrite S2 in X4. rewrite T1 in X2'. rewrite T2 in X4'. rewrite T3 in X5'.
    split; try done; try lia; eauto. exists pi. split_and!; [done|done|lia]. }
  exists (gather_launch cores sel (shape_elems rest) (dtype_of (tt_scalar_type pages))). split.
  { apply tiling_func_exact. eauto 10. }
  intros ? order -> Hl Hperm Hg. change (GetDim (dstN :: rest) 0) with dstN in *.
  destruct (accepted_env _ _ _ _ _ _ _ e Ha Hl) as [He _].
  destruct (gather_grid_spec e srcN dstN He (gl_blockDim (gather_launch cores sel (shape_elems rest) (dtype_of (tt_scalar_type pages)))) v order g)
    as (g' & Hrun & Hinv); [simpl; rewrite u32_id by (unfold fits_u32; lia); lia|done| |].
  { rewrite Hg. unfold tt_numel. rewrite S3, shape_elems_cons, (gd_tiling _ _ _ _ Hl). done. }
  exists g'. split; [done|]. apply Hinv.
Qed.

(** ** A concrete call: pages 2 and 0 of a pool of three go to pages 1 and 0 *)

Definition ids_example (sizes : list Z) : TorchTensor :=
  {| tt_device := DevNpu 0; tt_scalar_type := Int; tt_sizes := sizes; tt_is_contiguous := true; tt_data_ptr := 64 |}.
Definition pages_example : TorchTensor :=
  {| tt_device := DevCpu; tt_scalar_type := Half; tt_sizes := [3; 16]; tt_is_contiguous := true; tt_data_ptr := 10000 |}.
Definition out_example : TorchTensor :=
  {| tt_device := DevNpu 0; tt_scalar_type := Half; tt_sizes := [2; 4; 4]; tt_is_contiguous := true; tt_data_ptr := 4096 |}.

Definition gather_context_example : TilingContext :=
  {| GetPlatformInfoPtr := Some (Build_PlatformInfo 40 20 196608);
     GetInputShape := fun i => if i =? IDX_SRC_PAGES then Some [3; 16] else Some [2];
     GetOptionalInputShape := fun _ => None;
     GetOutputShape := fun _ => Some [2; 4; 4];
     GetInputDesc := fun i => if i =? IDX_SRC_PAGES then Some DT_FLOAT16 else Some DT_INT32;
     GetOptionalInputDesc := fun _ => None;
     GetOutputDesc := fun _ => Some DT_FLOAT16;
     GetOptionalInputTensor := fun _ => None;
     HasAttrs := true; GetAttrInt := fun _ => None; HasTilingData := true; HasWorkspaceSizes := true;
     SetScheduleModeOk := true |}.

Definition genv_example : GEnv Z :=
  Build_GEnv (Tensor 2 (fun i => if i <=? 0 then 2 else 0)) (Tensor 2 (fun i => if i <=? 0 then 1 else 0))
    (Tensor 48 (fun i => 100 + i)) (gl_tiling (gather_launch 40 2 16 DT_FLOAT16)) 2 0 2.

Lemma gather_acceptable_example : gather_acceptable gather_context_example 40 2 16 3 2 DT_FLOAT16.
Proof.
  split; try done.
  - eexists. split_and!; [reflexivity|reflexivity|done].
  - exists [4; 4]. done.
  - exists [3; 16]. done.
Qed.

Lemma gather_launched_example : gather_launched (gather_launch 40 2 16 DT_FLOAT16) genv_example 3 2.
Proof. split; try done; (split; [done|]); intros i Hi; cbn; case_match; lia. Qed.

Lemma gather_env_example : gather_env genv_example 3 2.
Proof. apply (accepted_env _ _ _ _ _ _ _ _ gather_acceptable_example gather_launched_example). Qed.

Lemma gather_grid_correct_witness :
  exists g', run_blocks (gather_core genv_example 2 0) [1; 0] (Tensor 32 (fun _ => 7)) = Ok g' /\ t_len g' = 32.
Proof.
  destruct (gather_grid_correct genv_example 3 2 2 0 [1; 0] (Tensor 32 (fun _ => 7))) as (g' & Hrun & Hlen & _).
  - exact gather_env_example.
  - reflexivity.
  - exact (Permutation_app_comm [1] [0]).
  - reflexivity.
  - exists g'. split; assumption.
Defined.

Example gather_value :
  match run_blocks (gather_core genv_example 2 0) [1; 0] (Tensor 32 (fun _ => 7)) with
  | Ok g => t_at g 5 = 105 /\ t_at g (16 + 5) = 100 + 2 * 16 + 5
  | Err _ => False
  end.
Proof. vm_compute. repeat split. Qed.

Lemma gather_launch_fits_witness :
  gather_env genv_example 3 2 /\ 0 < 2 <= 2 /\ gather_ub_bytes (gtd genv_example) 2 <= 16384.
Proof.
  apply (gather_launch_fits gather_context_example (gather_launch 40 2 16 DT_FLOAT16) genv_example 40 2 16 3 2 DT_FLOAT16).
  - exact gather_acceptable_example.
  - vm_compute. reflexivity.
  - exact gather_launched_example.
  - split; reflexivity.
Defined.

Lemma gather_call_correct_witness :
  exists la, KvCacheBlockGatherTilingFunc gather_context_example = Ok la.
Proof.
  destruct (gather_call_correct 4096 acl_example r1_example r1_example (ids_example [2]) pages_example (ids_example [2]) out_example
    (10000 + 2 ^ 40) gather_context_example 40 3 genv_example 0 (Tensor 32 (fun _ => 7))) as (_ & _ & la & Hla & _).
  - reflexivity.
  - reflexivity.
  - exact registry_example.
  - vm_compute. intuition congruence.
  - intros d Hd%list_elem_of_singleton. subst. discriminate.
  - vm_compute. reflexivity.
  - vm_compute. reflexivity.
  - reflexivity.
  - vm_compute. reflexivity.
  - split; try (split; reflexivity). eexists. split; reflexivity.
  - split; reflexivity.
  - exists la. exact Hla.
Defined.
