(* ===== verification/StoreKvGroups.v ===== *)
(** StoreKVBlock, the grouping of slots
    ([csrc/attention/store_kv_block/store_kv_block_torch_adpt.h]): the slots of
    a batch of tokens are split into runs of consecutive slots inside one cache
    block, so that the kernel can move each run with one transfer. *)

From S2P Require Import Prelude AscendC.

(** ** The source *)

(** The vectors [length], [key_idx] and [key_cache_idx], which always have the
    same size, and their capacity. *)
Record GroupVecs : Type := {
  gv_length : list Z;
  gv_key_idx : list Z;
  gv_key_cache_idx : list Z;
  gv_capacity : Z }.

Definition init_vecs : GroupVecs :=
  {| gv_length := replicate 16 0; gv_key_idx := replicate 16 0; gv_key_cache_idx := replicate 16 0; gv_capacity := 16 |}.

(** [v[i] = x] for a [std::vector]. *)
Definition store_at (v : list Z) (i x : Z) : outcome fault_kind (list Z) :=
  if (0 <=? i) && (i <? Z.of_nat (length v)) then Ok (<[Z.to_nat i := x]> v) else Err OutOfBounds.

(** Doubling the capacity and filling up with zeros ([reserve] provides exactly
    the requested capacity). *)
Definition grow (idx_groups : Z) (v : GroupVecs) : GroupVecs :=
  if idx_groups >=? gv_capacity v then
    let new_capacity := i32 (gv_capacity v * 2) in
    let fill := replicate (Z.to_nat (new_capacity - idx_groups)) 0 in
    {| gv_length := gv_length v ++ fill; gv_key_idx := gv_key_idx v ++ fill;
       gv_key_cache_idx := gv_key_cache_idx v ++ fill; gv_capacity := new_capacity |}
  else v.

Section Pre.
Variable slot_mapping_list : list Z.
Variable block_size : Z.
Abbreviation PM := (outcome fault_kind).

Definition slot_mapping_len : Z := Z.of_nat (length slot_mapping_list).

Definition slot_at (i : Z) : PM Z :=
  match (if 0 <=? i then slot_mapping_list !! Z.to_nat i else None) with Some v => Ok v | None => Err OutOfBounds end.

(** The inner [while] loop. *)
Fixpoint run_end (fuel : nat) (block_id j : Z) : PM Z :=
  match fuel with
  | O => Err LoopBound
  | S fuel' =>
      if j + 1 <? slot_mapping_len then
        a ← slot_at j;
        if a /c block_size =? block_id then
          b ← slot_at (j + 1);
          if b =? a + 1 then run_end fuel' block_id (j + 1) else Ok j
        else Ok j
      else Ok j
  end.

(** The end [j] of the group that starts at [idx_slotmap]. *)
Definition group_end (idx_slotmap current_idx : Z) : PM Z :=
  let block_id := i32 (current_idx /c block_size) in
  let y := i32 (current_idx %c block_size) in
  let j := idx_slotmap in
  breaks ← (if j + 1 <? slot_mapping_len
            then b ← slot_at (j + 1); a ← slot_at j; Ok (negb (b =? a + 1))
            else Ok false);
  if breaks : bool then Ok (j + 1)
  else
    let idx_stride := i32 (Z.min (block_size - y) (slot_mapping_len - idx_slotmap) - 1) in
    let expected_last := i32 (current_idx + idx_stride) in
    let expected_last_idx := i32 (idx_slotmap + (expected_last - current_idx)) in
    last ← slot_at expected_last_idx;
    if expected_last =? last then Ok (expected_last_idx + 1)
    else run_end (length slot_mapping_list) block_id j.

Fixpoint pre_loop (fuel : nat) (idx_slotmap idx_groups : Z) (v : GroupVecs) : PM (Z * GroupVecs) :=
  match fuel with
  | O => Err LoopBound
  | S fuel' =>
      if idx_slotmap <? slot_mapping_len then
        s ← slot_at idx_slotmap;
        let current_idx := i32 s in
        if current_idx <? 0 then pre_loop fuel' (idx_slotmap + 1) idx_groups v
        else
          key_idx ← store_at (gv_key_idx v) idx_groups idx_slotmap;
          key_cache_idx ← store_at (gv_key_cache_idx v) idx_groups current_idx;
          j ← group_end idx_slotmap current_idx;
          lengths ← store_at (gv_length v) idx_groups (i32 (j - idx_slotmap));
          let v' := {| gv_length := lengths; gv_key_idx := key_idx; gv_key_cache_idx := key_cache_idx;
                       gv_capacity := gv_capacity v |} in
          pre_loop fuel' j (idx_groups + 1) (grow (idx_groups + 1) v')
      else Ok (idx_groups, v)
  end.

(** The three device tensors: lengths, first tokens and first slots. *)
Definition store_kv_block_pre : PM (list Z * list Z * list Z) :=
  '(idx_groups, v) ← pre_loop (S (length slot_mapping_list)) 0 0 init_vecs;
  let n := Z.to_nat idx_groups in
  Ok (take n (gv_length v), take n (gv_key_idx v), take n (gv_key_cache_idx v)).

(** ** Specification *)

(** Slot of token [i]. *)
Definition slot (i : Z) : Z := default (-1) (slot_mapping_list !! Z.to_nat i).

(** The tokens of [lo, hi) that have a slot, with their slots. *)
Definition valid_pairs (lo hi : Z) : list (Z * Z) :=
  omap (fun i => if 0 <=? slot i then Some (i, slot i) else None) (zrange lo hi).

(** The tokens a group moves and the slots it moves them to. *)
Definition expand_group (g : Z * Z * Z) : list (Z * Z) :=
  let '(len, key, cache) := g in (fun k => (key + k, cache + k)) <$> zrange 0 len.

(** Slots and block size that fit 32 bits. *)
Record slots_fit : Prop := {
  sk_block : 0 < block_size < 2 ^ 31;
  sk_len : slot_mapping_len < 2 ^ 30;
  sk_range : forall i, 0 <= i < slot_mapping_len -> - 2 ^ 31 <= slot i /\ slot i + block_size < 2 ^ 31 }.

(** The tokens that go to one cache block are listed in the order of their slots,
    with no other token or padding in between.  A scheduler that appends each
    request's tokens to its own blocks lists them like this; the code does not
    check it. *)
Definition in_order : Prop := forall i k, 0 <= i < k -> k < slot_mapping_len -> 0 <= slot i -> slot i / block_size = slot k / block_size ->
  forall j, i <= j < k -> slot j < slot (j + 1).

(** Two slots of one block that are as far apart as their tokens then bound a run of
    consecutive slots. *)
Lemma in_order_run i k : in_order -> 0 <= i <= k -> k < slot_mapping_len -> 0 <= slot i -> slot k = slot i + (k - i) ->
  slot i / block_size = slot k / block_size -> forall j, i <= j <= k -> slot j = slot i + (j - i).
Proof.
  intros Ho Hik Hk Hs Hd Hb j Hj.
  assert (forall a n, i <= a -> a + Z.of_nat n <= k -> slot a + Z.of_nat n <= slot (a + Z.of_nat n)) as Hup.
  { intros a n Ha. induction n as [|n IH]; intros Hn; [rewrite !Z.add_0_r; lia|]. specialize (IH ltac:(lia)).
    pose proof (Ho i k ltac:(lia) Hk Hs Hb (a + Z.of_nat n) ltac:(lia)). replace (a + Z.of_nat (S n)) with (a + Z.of_nat n + 1) by lia. lia. }
  pose proof (Hup i (Z.to_nat (j - i)) ltac:(lia) ltac:(lia)) as H1. pose proof (Hup j (Z.to_nat (k - j)) ltac:(lia) ltac:(lia)) as H2.
  replace (i + Z.of_nat (Z.to_nat (j - i))) with j in H1 by lia. replace (j + Z.of_nat (Z.to_nat (k - j))) with k in H2 by lia. lia.
Qed.

Context (Hok : slots_fit).

Lemma slot_at_ok i : 0 <= i < slot_mapping_len -> slot_at i = Ok (slot i).
Proof.
  intros Hi. unfold slot_at, slot. rewrite (proj2 (Z.leb_le 0 i)) by lia.
  destruct (slot_mapping_list !! Z.to_nat i) eqn:E; [done|]. apply lookup_ge_None in E. unfold slot_mapping_len in *. lia.
Qed.

(** A run from token [i]: as many slots as tokens, all in the block of the first;
    the slots are consecutive when the list is in order. *)
Definition run (i j : Z) : Prop :=
  i < j <= slot_mapping_len /\ (in_order -> forall k, i <= k < j -> slot k = slot i + (k - i)) /\
  slot i / block_size = (slot i + (j - i) - 1) / block_size /\ slot (j - 1) = slot i + (j - 1 - i).

Lemma same_block_le a b : 0 <= a <= b -> a / block_size = b / block_size -> forall c, a <= c <= b -> c / block_size = a / block_size.
Proof.
  intros Hab He c Hc. pose proof (sk_block Hok). pose proof (Z.div_le_mono a c block_size ltac:(lia) ltac:(lia)).
  pose proof (Z.div_le_mono c b block_size ltac:(lia) ltac:(lia)). lia.
Qed.

Lemma run_end_spec fuel i j :
  0 <= i -> i <= j < slot_mapping_len -> 0 <= slot i ->
  (forall k, i <= k <= j -> slot k = slot i + (k - i)) -> (i < j -> slot i / block_size = (slot j - 1) / block_size) ->
  (Z.to_nat (slot_mapping_len - j) <= fuel)%nat ->
  (i = j -> j + 1 < slot_mapping_len /\ slot (j + 1) = slot j + 1) ->
  exists j', run_end fuel (slot i / block_size) j = Ok j' /\ run i j'.
Proof.
  pose proof (sk_block Hok) as Hb. revert j. induction fuel as [|fuel IH]; intros j H0 Hj Hs Hrun Hblk Hfuel Hfirst; [lia|].
  assert (i < j -> run i j) as Hstop.
  { intros Hlt. split_and!; [lia|lia|intros _ k Hk; apply Hrun; lia| |apply Hrun; lia]. rewrite Hblk by done. f_equal. rewrite (Hrun j); lia. }
  cbn [run_end]. destruct (j + 1 <? slot_mapping_len) eqn:Hlen; bool_prop.
  2:{ exists j. split; [done|]. apply Hstop. destruct (decide (i = j)) as [Hij|]; [|lia]. specialize (Hfirst Hij). lia. }
  rewrite (slot_at_ok j) by lia. rewrite bind_Ok. pose proof (Hrun j ltac:(lia)) as Hsj.
  rewrite quot_nonneg_div by lia. destruct (slot j / block_size =? slot i / block_size) eqn:Hsame; bool_prop.
  2:{ exists j. split; [done|]. apply Hstop. destruct (decide (i = j)) as [<-|]; [done|lia]. }
  rewrite (slot_at_ok (j + 1)) by lia. rewrite bind_Ok. destruct (slot (j + 1) =? slot j + 1) eqn:Hnext; bool_prop.
  2:{ exists j. split; [done|]. apply Hstop. destruct (decide (i = j)) as [Hij|]; [|lia]. specialize (Hfirst Hij). lia. }
  apply IH; try lia.
  - intros k Hk. destruct (decide (k = j + 1)) as [->|]; [lia|]. apply Hrun. lia.
  - intros _. rewrite Hnext. replace (slot j + 1 - 1) with (slot j) by lia. done.
Qed.

Lemma block_span a n : 0 <= a -> 0 < n -> n <= block_size - a mod block_size -> a / block_size = (a + n - 1) / block_size.
Proof.
  intros Ha Hn Hle. pose proof (sk_block Hok). pose proof (Z.div_mod a block_size ltac:(lia)).
  pose proof (Z.mod_pos_bound a block_size ltac:(lia)).
  apply (Z.div_unique_pos _ _ _ (a mod block_size + n - 1)); lia.
Qed.

Lemma group_end_spec i : 0 <= i < slot_mapping_len -> 0 <= slot i -> exists j, group_end i (slot i) = Ok j /\ run i j.
Proof.
  intros Hi Hs. pose proof (sk_block Hok) as Hb. pose proof (sk_len Hok) as HL. pose proof (sk_range Hok i Hi) as Hr.
  pose proof (Z.mod_pos_bound (slot i) block_size ltac:(lia)) as Hm. pose proof (Z.div_pos (slot i) block_size Hs ltac:(lia)) as Hd.
  pose proof (Z.div_le_upper_bound (slot i) block_size (slot i) ltac:(lia) ltac:(nia)) as Hd2.
  unfold group_end. cbv zeta. rewrite (quot_nonneg_div (slot i)), (rem_nonneg_mod (slot i)) by lia.
  rewrite (i32_id (slot i / block_size)), (i32_id (slot i mod block_size)) by (unfold fits_i32; lia).
  assert (run i (i + 1)) as Hone.
  { split_and!; [lia|lia|intros _ k Hk; replace k with i by lia; lia|f_equal; lia|]. replace (i + 1 - 1) with i by lia. lia. }
  set (n := Z.min (block_size - slot i mod block_size) (slot_mapping_len - i)).
  assert (1 <= n /\ n <= block_size - slot i mod block_size /\ i + n <= slot_mapping_len) as (Hn1 & Hn2 & Hn3) by lia. clearbody n.
  rewrite (i32_id (n - 1)) by (unfold fits_i32; lia). rewrite (i32_id (slot i + (n - 1))) by (unfold fits_i32; lia).
  replace (slot i + (n - 1) - slot i) with (n - 1) by lia. rewrite (i32_id (i + (n - 1))) by (unfold fits_i32; lia).
  assert (forall b, (i + 1 < slot_mapping_len -> slot (i + 1) = slot i + 1) -> b = false -> exists j,
    (if b : bool then Ok (i + 1) else
       (last ← slot_at (i + (n - 1)); if slot i + (n - 1) =? last then Ok (i + (n - 1) + 1)
        else run_end (length slot_mapping_list) (slot i / block_size) i)) = Ok j /\ run i j) as Hrest.
  { intros b Hnext ->. rewrite slot_at_ok by lia. rewrite bind_Ok.
    destruct (slot i + (n - 1) =? slot (i + (n - 1))) eqn:Hlast; bool_prop.
    - exists (i + (n - 1) + 1). split; [done|]. assert (slot i / block_size = (slot i + n - 1) / block_size) as Hblk by (apply block_span; lia).
      split_and!; [lia|lia| |rewrite Hblk; f_equal; lia|].
      + intros Ho k Hk. apply (in_order_run i (i + (n - 1))); try done; try lia. rewrite <- Hlast, Hblk. f_equal. lia.
      + replace (i + (n - 1) + 1 - 1) with (i + (n - 1)) by lia. lia.
    - apply run_end_spec; try lia.
      + intros k Hk. replace k with i by lia. lia.
      + unfold slot_mapping_len in *. lia.
      + intros _. assert (n <> 1) by (intros ->; apply Hlast; replace (i + (1 - 1)) with i by lia; lia). split; [lia|]. apply Hnext. lia. }
  destruct (i + 1 <? slot_mapping_len) eqn:Hlt; bool_prop.
  - rewrite (slot_at_ok (i + 1)), (slot_at_ok i) by lia. rewrite !bind_Ok. destruct (slot (i + 1) =? slot i + 1) eqn:Hnx; bool_prop; cbn [negb].
    + apply (Hrest false); [done|done].
    + exists (i + 1). split; [done|exact Hone].
  - rewrite bind_Ok. apply (Hrest false); [lia|done].
Qed.

(** *** The loop *)

Lemma valid_pairs_app lo mid hi : lo <= mid <= hi -> valid_pairs lo hi = valid_pairs lo mid ++ valid_pairs mid hi.
Proof. intros H. unfold valid_pairs. by rewrite (zrange_split lo mid hi), omap_app. Qed.

Lemma zrange_shift lo hi : zrange lo hi = (Z.add lo) <$> zrange 0 (hi - lo).
Proof.
  unfold zrange. rewrite Z.sub_0_r, <- (Z.add_0_r lo) at 1. apply list_eq. intros k. rewrite list_lookup_fmap.
  destruct (decide (Z.of_nat k < hi - lo)).
  - rewrite !lookup_seqZ_lt by lia. simpl. f_equal. lia.
  - rewrite !lookup_seqZ_ge by lia. done.
Qed.

Lemma run_pairs i j : in_order -> 0 <= i -> 0 <= slot i -> run i j -> valid_pairs i j = expand_group (j - i, i, slot i).
Proof.
  intros Ho Hi Hs (Hr & Hrun & _). specialize (Hrun Ho). unfold valid_pairs, expand_group. rewrite zrange_shift.
  assert (forall l : list Z, (forall k, k ∈ l -> 0 <= k < j - i) ->
    omap (fun k => if 0 <=? slot k then Some (k, slot k) else None) (Z.add i <$> l) = (fun k => (i + k, slot i + k)) <$> l) as Hl.
  { induction l as [|k l IH]; intros Hk; [done|]. pose proof (Hk k ltac:(set_solver)). rewrite !fmap_cons. simpl.
    rewrite (Hrun (i + k)) by lia. rewrite (proj2 (Z.leb_le 0 _)) by lia. f_equal; [f_equal; lia|].
    apply IH. set_solver. }
  apply Hl. intros k Hk%elem_of_zrange. lia.
Qed.

Definition vecs_ok (n : Z) (v : GroupVecs) : Prop :=
  Z.of_nat (length (gv_length v)) = gv_capacity v /\ length (gv_key_idx v) = length (gv_length v) /\
  length (gv_key_cache_idx v) = length (gv_length v) /\ 0 <= n < gv_capacity v /\ gv_capacity v <= Z.max 16 (2 * n).

(** The groups stored so far. *)
Definition groups_of (n : Z) (v : GroupVecs) : list (Z * Z * Z) :=
  zip (zip (take (Z.to_nat n) (gv_length v)) (take (Z.to_nat n) (gv_key_idx v))) (take (Z.to_nat n) (gv_key_cache_idx v)).

(** A group the kernel can move: not empty and inside one cache block. *)
Definition group_ok (g : Z * Z * Z) : Prop :=
  let '(len, key, cache) := g in
  0 < len /\ 0 <= key /\ key + len <= slot_mapping_len /\ 0 <= cache /\ cache / block_size = (cache + len - 1) / block_size.

(** Its first and its last token go to their slots. *)
Definition group_ends (g : Z * Z * Z) : Prop :=
  let '(len, key, cache) := g in slot key = cache /\ slot (key + len - 1) = cache + len - 1.

(** Every token below [hi] that has a slot is in a group. *)
Definition grouped (hi : Z) (gs : list (Z * Z * Z)) : Prop :=
  forall i, 0 <= i < hi -> 0 <= slot i -> exists len key cache, (len, key, cache) ∈ gs /\ key <= i < key + len.

(** What holds of the groups when the tokens below [i] are done. *)
Record grouping (i : Z) (gs : list (Z * Z * Z)) : Prop := {
  gr_ok : Forall group_ok gs;
  gr_ends : Forall group_ends gs;
  gr_all : grouped i gs;
  gr_exact : in_order -> concat (expand_group <$> gs) = valid_pairs 0 i }.

Lemma grouping_skip i gs : 0 <= i -> slot i < 0 -> grouping i gs -> grouping (i + 1) gs.
Proof.
  intros Hi Hs [G1 G2 G3 G4]. constructor; [done|done| |].
  - intros k Hk Hsk. apply G3; [|done]. destruct (decide (k = i)) as [->|]; lia.
  - intros Ho. rewrite (G4 Ho), (valid_pairs_app 0 i (i + 1)) by lia.
    assert (valid_pairs i (i + 1) = []) as ->; [|by rewrite (right_id_L [] app)].
    unfold valid_pairs. rewrite zrange_one. simpl. by rewrite (proj2 (Z.leb_gt 0 (slot i))) by lia.
Qed.

Lemma grouping_run i j gs : 0 <= i -> 0 <= slot i -> run i j -> grouping i gs -> grouping j (gs ++ [(j - i, i, slot i)]).
Proof.
  intros Hi Hs Hrun [G1 G2 G3 G4]. pose proof Hrun as (Hij & _ & Hblk & Hlast). constructor.
  - apply Forall_app. split; [done|]. apply Forall_singleton. unfold group_ok. split_and!; try lia.
  - apply Forall_app. split; [done|]. apply Forall_singleton. unfold group_ends. split; [done|].
    replace (i + (j - i) - 1) with (j - 1) by lia. lia.
  - intros k Hk Hsk. destruct (decide (k < i)) as [Hlt|Hge].
    + destruct (G3 k ltac:(lia) Hsk) as (l & a & c & Hin & Hr). exists l, a, c. split; [set_solver|done].
    + exists (j - i), i, (slot i). split; [set_solver|lia].
  - intros Ho. rewrite fmap_app, concat_app, (G4 Ho), (valid_pairs_app 0 i j), (run_pairs i j) by (done || lia).
    simpl. by rewrite (right_id_L [] app).
Qed.

Lemma store_at_ok v i x : 0 <= i < Z.of_nat (length v) -> store_at v i x = Ok (<[Z.to_nat i := x]> v).
Proof. intros Hi. unfold store_at. by rewrite (proj2 (Z.leb_le 0 i)), (proj2 (Z.ltb_lt i _)) by lia. Qed.

Lemma take_insert_snoc {A} (l : list A) n x : (n < length l)%nat -> take (S n) (<[n := x]> l) = take n l ++ [x].
Proof.
  intros Hn. rewrite (take_S_r _ _ x) by (by apply list_lookup_insert_eq). by rewrite take_insert_ge by lia.
Qed.

Lemma groups_snoc n v len key cache :
  vecs_ok n v ->
  groups_of (n + 1) {| gv_length := <[Z.to_nat n := len]> (gv_length v); gv_key_idx := <[Z.to_nat n := key]> (gv_key_idx v);
                       gv_key_cache_idx := <[Z.to_nat n := cache]> (gv_key_cache_idx v); gv_capacity := gv_capacity v |} =
  groups_of n v ++ [(len, key, cache)].
Proof.
  intros (H1 & H2 & H3 & H4 & H5). unfold groups_of. simpl. replace (Z.to_nat (n + 1)) with (S (Z.to_nat n)) by lia.
  rewrite !take_insert_snoc by lia. rewrite !zip_with_app; [done|..]; rewrite ?length_zip_with, ?length_take; lia.
Qed.

Lemma grow_ok n v : Z.of_nat (length (gv_length v)) = gv_capacity v -> length (gv_key_idx v) = length (gv_length v) ->
  length (gv_key_cache_idx v) = length (gv_length v) -> 16 <= gv_capacity v -> 0 <= n <= gv_capacity v ->
  gv_capacity v <= Z.max 16 (2 * n) -> n < 2 ^ 30 ->
  vecs_ok n (grow n v) /\ 16 <= gv_capacity (grow n v) /\ groups_of n (grow n v) = groups_of n v.
Proof.
  intros H1 H2 H3 H16 Hn Hc Hlt. unfold grow. rewrite Z.geb_leb. destruct (gv_capacity v <=? n) eqn:E; bool_prop.
  - rewrite i32_id by (unfold fits_i32; lia). split_and!; simpl; try lia.
    + unfold vecs_ok. simpl. rewrite !length_app, !length_replicate. lia.
    + unfold groups_of. simpl. by rewrite !take_app_le by lia.
  - unfold vecs_ok. split_and!; try done; lia.
Qed.

Lemma pre_loop_spec fuel i n v :
  (Z.to_nat (slot_mapping_len - i) < fuel)%nat -> 0 <= i <= slot_mapping_len -> vecs_ok n v -> 16 <= gv_capacity v -> n <= i ->
  grouping i (groups_of n v) ->
  exists n' v', pre_loop fuel i n v = Ok (n', v') /\ vecs_ok n' v' /\ n' <= slot_mapping_len /\ grouping slot_mapping_len (groups_of n' v').
Proof.
  revert i n v. induction fuel as [|fuel IH]; intros i n v Hfuel Hi Hv H16 Hni HG; [lia|]. cbn [pre_loop].
  pose proof (sk_len Hok) as HL. destruct (i <? slot_mapping_len) eqn:Hlt; bool_prop.
  2:{ exists n, v. replace i with slot_mapping_len in * by lia. done. }
  rewrite slot_at_ok by lia. rewrite bind_Ok. cbv zeta. pose proof (sk_range Hok i ltac:(lia)) as Hr.
  pose proof (sk_block Hok) as Hb. rewrite (i32_id (slot i)) by (unfold fits_i32; lia). destruct (slot i <? 0) eqn:Hneg; bool_prop.
  - apply IH; try done; try lia. apply grouping_skip; [lia|done|done].
  - pose proof Hv as (Hv1 & Hv2 & Hv3 & Hv4 & Hv5). rewrite !store_at_ok by lia. rewrite !bind_Ok.
    destruct (group_end_spec i ltac:(lia) Hneg) as (j & -> & Hrun). rewrite bind_Ok, store_at_ok, bind_Ok by lia.
    pose proof Hrun as (Hij & _).
    rewrite (i32_id (j - i)) by (unfold fits_i32; lia).
    pose proof (groups_snoc n v (j - i) i (slot i) Hv) as Hsn.
    match goal with |- context [grow _ ?w] => set (w0 := w) in * end.
    destruct (grow_ok (n + 1) w0) as (Hg1 & Hg2 & Hg3); try (subst w0; simpl; rewrite ?length_insert; lia).
    apply IH; try done; try lia. rewrite Hg3, Hsn. apply grouping_run; [lia|done|done|done].
Qed.

Lemma store_kv_block_pre_spec :
  exists lens keys caches, store_kv_block_pre = Ok (lens, keys, caches) /\
    length keys = length lens /\ length caches = length lens /\ Z.of_nat (length lens) <= slot_mapping_len /\
    grouping slot_mapping_len (zip (zip lens keys) caches).
Proof.
  destruct (pre_loop_spec (S (length slot_mapping_list)) 0 0 init_vecs) as (n & v & Hrun & Hv & Hn & HG); try done.
  - unfold slot_mapping_len. lia.
  - unfold slot_mapping_len. lia.
  - constructor; [constructor|constructor|intros i Hi; lia|done].
  - unfold store_kv_block_pre. rewrite Hrun, bind_Ok. destruct Hv as (H1 & H2 & H3 & H4 & H5).
    do 3 eexists. split; [reflexivity|]. rewrite !length_take. split_and!; [lia|lia|lia|exact HG].
Qed.
End Pre.

(** C19.  The grouping of slots, for every list of slots that fit 32 bits, ends
    without a fault.  Every group is a non-empty range of tokens of at most
    [block_size] tokens that is moved inside one cache block, its first and its
    last token to their own slots, and every token that has a slot is in a group.
    When moreover the tokens of each cache block are listed in the order of their
    slots, with nothing in between, the groups are exact: expanded, they are
    precisely the tokens that have a slot, in order, each with its slot.  Without
    that order the middle of a group can be wrong ([padding_inside_run]), because
    the code recognises a run by its first two slots and its last one. *)
Theorem store_kv_block_pre_exact (slots : list Z) (block_size : Z) :
  slots_fit slots block_size ->
  exists lens keys caches, store_kv_block_pre slots block_size = Ok (lens, keys, caches) /\
    let groups := zip (zip lens keys) caches in
    Forall (group_ok slots block_size) groups /\ Forall (group_ends slots) groups /\ grouped slots (slot_mapping_len slots) groups /\
    (in_order slots block_size -> concat (expand_group <$> groups) = valid_pairs slots 0 (slot_mapping_len slots)).
Proof.
  intros Hok. destruct (store_kv_block_pre_spec slots block_size Hok) as (l & k & c & H1 & _ & _ & _ & [G1 G2 G3 G4]).
  exists l, k, c. cbv zeta. auto 10.
Qed.

(** Tokens of two requests (slots 6-9 and 16-17, across a block boundary) with a
    padding token between them. *)
Definition slots_example : list Z := [6; 7; 8; 9; -1; 16; 17].

(** Deciding [slots_fit] and [in_order]. *)
Definition slots_check (slots : list Z) (bs : Z) : bool :=
  (0 <? bs) && (bs <? 2 ^ 31) && (slot_mapping_len slots <? 2 ^ 30) &&
  forallb (fun i => (- 2 ^ 31 <=? slot slots i) && (slot slots i + bs <? 2 ^ 31)) (zrange 0 (slot_mapping_len slots)).

Definition order_check (slots : list Z) (bs : Z) : bool :=
  let r := zrange 0 (slot_mapping_len slots) in
  let s := slot slots in
  forallb (fun i => forallb (fun k => forallb (fun j =>
    implb ((0 <=? s i) && (s i / bs =? s k / bs) && (i <=? j) && (j <? k)) (s j <? s (j + 1))) r) r) r.

Lemma slots_check_ok slots bs : slots_check slots bs = true -> slots_fit slots bs.
Proof.
  unfold slots_check. intros H. bool_prop. rewrite forallb_forall in *. split; try lia.
  intros i Hi. match goal with H : forall x, _ -> (_ && _) = true |- _ => specialize (H i) end.
  rewrite <- list_elem_of_In, elem_of_zrange in H0. specialize (H0 Hi). bool_prop. lia.
Qed.

Lemma order_check_ok slots bs : order_check slots bs = true -> in_order slots bs.
Proof.
  unfold order_check, in_order. rewrite forallb_forall. intros H i k Hik Hk Hs Hb j Hj.
  assert (forall x, 0 <= x < slot_mapping_len slots -> In x (zrange 0 (slot_mapping_len slots))) as Hin.
  { intros x Hx. apply list_elem_of_In. by apply elem_of_zrange. }
  specialize (H i (Hin i ltac:(lia))). rewrite forallb_forall in H. specialize (H k (Hin k ltac:(lia))). rewrite forallb_forall in H.
  specialize (H j (Hin j ltac:(lia))). rewrite (proj2 (Z.leb_le 0 _)), (proj2 (Z.eqb_eq (slot slots i / bs) _)),
    (proj2 (Z.leb_le i j)), (proj2 (Z.ltb_lt j k)) in H by (done || lia). simpl in H. by bool_prop.
Qed.

Lemma slots_fit_example : slots_fit slots_example 8.
Proof. apply slots_check_ok. vm_compute. reflexivity. Qed.

Lemma in_order_example : in_order slots_example 8.
Proof. apply order_check_ok. vm_compute. reflexivity. Qed.

Lemma store_kv_block_pre_exact_witness :
  exists lens keys caches, store_kv_block_pre slots_example 8 = Ok (lens, keys, caches) /\
    concat (expand_group <$> zip (zip lens keys) caches) = [(0, 6); (1, 7); (2, 8); (3, 9); (5, 16); (6, 17)].
Proof.
  destruct (store_kv_block_pre_exact slots_example 8 slots_fit_example) as (lens & keys & caches & H1 & _ & _ & _ & H2).
  exists lens, keys, caches. split; [exact H1|]. rewrite (H2 in_order_example). vm_compute. reflexivity.
Defined.

(** The run is detected from its first two slots and its last one only: a
    padding token in the middle of a full block is taken for part of the run
    and written to the cache. *)
Example padding_inside_run :
  store_kv_block_pre [0; 1; -1; 3] 4 = Ok ([4], [0], [0]) /\ slots_check [0; 1; -1; 3] 4 = true /\ order_check [0; 1; -1; 3] 4 = false.
Proof. vm_compute. repeat split. Qed.
