(* ===== verification/StoreKv.v ===== *)
(** StoreKVBlock, kernel and tiling ([csrc/attention/store_kv_block]): every
    group of consecutive tokens is copied through the unified buffer to its
    consecutive cache slots.  Core [c] of [n] handles the groups [c], [c + n],
    [c + 2n], ... *)

From stdpp Require Import gmap.
From S2P Require Import Prelude AscendC TilingContext.

Record StoreKVBlockTilingData : Type := {
  sk_blockTableSize : Z;
  sk_typeByte : Z;
  sk_tokenSize : Z;
  sk_corePerNum : Z;
  sk_coreTail : Z;
  sk_numTokens : Z;
  sk_numCache : Z;
  sk_groupInfoLen : Z }.

(** ** Tiling *)

Definition DIM_0 : Z := 0.
Definition DIM_1 : Z := 1.
Definition DIM_2 : Z := 2.
Definition MAX_UB_USE_SIZE : Z := 180 * 1024.

Record StoreKVBlockParams : Type := {
  pa_numTokens : Z;
  pa_numCache : Z;
  pa_numHeads : Z;
  pa_headSize : list Z;
  pa_blockTableSize : Z;
  pa_typeByte : Z;
  pa_tokenSize : Z;
  pa_tilingKey : Z;
  pa_groupInfoLen : Z;
  pa_corepernum : Z;
  pa_coretail : Z;
  pa_coreNum : Z }.

(** The loop over the dimensions of the key tensor: the token count, the number
    of heads and up to five head sizes. *)
Fixpoint read_dims (i : nat) (dims : list Z) (acc : Z * Z * list Z) : Z * Z * list Z :=
  match dims with
  | [] => acc
  | d :: dims' =>
      let '(numTokens, numHeads, headSize) := acc in
      let acc' := match i with
                  | O => (u32 d, numHeads, headSize)
                  | 1%nat => (numTokens, u32 d, headSize)
                  | S (S k) => if u32 d =? 0 then acc else (numTokens, numHeads, <[k := u32 d]> headSize)
                  end in
      read_dims (S i) dims' acc'
  end.

Definition DoCommonTiling (context : TilingContext) (coreNum : Z) : HostM StoreKVBlockParams :=
  kShape ← deref (GetInputShape context DIM_0) "kShape";
  OP_CHECK_IF ((GetDimNum kShape <? 2) || (GetDimNum kShape >? 7)) "StoreKVBlock Input kDimNum dim < 2 || kDimNum>7" ;;
  let '(numTokens, numHeads, headSize) := read_dims 0 kShape (0, 1, [1; 1; 1; 1; 1]) in
  kCacheShape ← deref (GetInputShape context DIM_1) "kCacheShape";
  OP_CHECK_IF ((GetDimNum kCacheShape <? 2) || (GetDimNum kCacheShape >? 7)) "StoreKVBlock Input kCacheDimNum < 2" ;;
  let numCache := u32 (GetDim kCacheShape 0 * GetDim kCacheShape 1) in
  deref (if HasAttrs context then Some tt else None) "attrs" ;;
  blockSizePtr ← deref (GetAttrInt context 0) "blockSizePtr";
  let blockSize := u32 blockSizePtr in
  let tokenSize := foldl (fun acc h => u32 (acc * h)) numHeads headSize in
  xDataType ← deref (GetInputDesc context DIM_0) "xDesc";
  '(typeByte, tilingKey) ←
    (if bool_decide (xDataType = DT_INT8) then Ok (1, 1)
     else if bool_decide (xDataType = DT_FLOAT16) || bool_decide (xDataType = DT_BF16) then Ok (2, 2)
     else if bool_decide (xDataType = DT_INT32) || bool_decide (xDataType = DT_UINT32) then Ok (4, 4)
     else Err (GRAPH_FAILED "Unsupported type."));
  groupInfoShape ← deref (GetInputShape context DIM_2) "groupInfoShape";
  let groupInfoLen := u32 (GetDim groupInfoShape 0) in
  let pageBlockEleSize := u32 (blockSize * tokenSize) in
  OP_CHECK_IF (pageBlockEleSize >? MAX_UB_USE_SIZE) "pageBlockEleSize > MaxUBSize" ;;
  Ok {| pa_numTokens := numTokens; pa_numCache := numCache; pa_numHeads := numHeads; pa_headSize := headSize;
        pa_blockTableSize := blockSize; pa_typeByte := typeByte; pa_tokenSize := tokenSize; pa_tilingKey := tilingKey;
        pa_groupInfoLen := groupInfoLen; pa_corepernum := groupInfoLen /c coreNum; pa_coretail := groupInfoLen %c coreNum;
        pa_coreNum := coreNum |}.

Record StoreLaunch : Type := {
  sl_tiling : StoreKVBlockTilingData;
  sl_blockDim : Z;
  sl_tilingKey : Z;
  sl_workspaceSize : Z }.

(** Fields of the tiling record that are not set stay zero; [params.workspaceSize]
    is never set.  [GetLibApiWorkSpaceSize] is what the platform library answers. *)
Definition StoreKVBlockTilingFunc (GetLibApiWorkSpaceSize : Z) (context : TilingContext) : HostM StoreLaunch :=
  platformInfo ← OP_CHECK_NULL (GetPlatformInfoPtr context) "platformInfo is null";
  let coreNum := GetCoreNum platformInfo in
  OP_CHECK_IF (coreNum =? 0) "Failed to get core num." ;;
  params ← DoCommonTiling context coreNum;
  let set (b : bool) (v : Z) := if b then v else 0 in
  deref (if HasWorkspaceSizes context then Some tt else None) "workspaceSize" ;;
  deref (if HasTilingData context then Some tt else None) "rawTilingData" ;;
  Ok {| sl_tiling :=
          {| sk_blockTableSize := set (pa_blockTableSize params >? 0) (pa_blockTableSize params);
             sk_typeByte := set (pa_typeByte params >? 0) (pa_typeByte params);
             sk_tokenSize := set (pa_tokenSize params >? 0) (pa_tokenSize params);
             sk_corePerNum := set ((pa_corepernum params >? 0) || negb (pa_coretail params =? 0)) (pa_corepernum params);
             sk_coreTail := set (pa_coretail params <? 48) (pa_coretail params);
             sk_numTokens := set (pa_numTokens params >? 0) (pa_numTokens params);
             sk_numCache := set (pa_numCache params >? 0) (pa_numCache params);
             sk_groupInfoLen := set (pa_groupInfoLen params >? 0) (u32 (pa_groupInfoLen params)) |};
        sl_blockDim := coreNum;
        sl_tilingKey := pa_tilingKey params;
        sl_workspaceSize := 0 + GetLibApiWorkSpaceSize |}.

(** ** Kernel *)

Inductive StoreEvent : Type :=
  | MTE2_MTE3
  | MTE3_MTE2.
#[global] Instance StoreEvent_eq_dec : EqDecision StoreEvent.
Proof. solve_decision. Defined.
#[global] Instance StoreEvent_countable : Countable StoreEvent.
Proof.
  apply (inj_countable (fun e => match e with MTE2_MTE3 => 0 | MTE3_MTE2 => 1 end)
           (fun n => if n =? 0 then Some MTE2_MTE3 else Some MTE3_MTE2)); by intros [].
Qed.

Record SEnv (T : Type) : Type := {
  keyInputGt : tensor T;
  groupLenGt : tensor Z;
  groupKeyIdxGt : tensor Z;
  groupKeyCacheIdxGt : tensor Z;
  std : StoreKVBlockTilingData;
  ssizeofT : Z;
  sBlockIdx : Z;
  sBlockNum : Z }.
Arguments keyInputGt {T} s.
Arguments groupLenGt {T} s.
Arguments groupKeyIdxGt {T} s.
Arguments groupKeyCacheIdxGt {T} s.
Arguments std {T} s.
Arguments ssizeofT {T} s.
Arguments sBlockIdx {T} s.
Arguments sBlockNum {T} s.
Arguments Build_SEnv {T}.

Record SS (T : Type) : Type := {
  tokenBuf : tensor T;
  storeFlags : gset StoreEvent;
  keyCacheInputGt : tensor T }.
Arguments tokenBuf {T} s.
Arguments storeFlags {T} s.
Arguments keyCacheInputGt {T} s.
Arguments Build_SS {T}.

Section Kernel.
Context {T : Type}.
Variable e : SEnv T.
Abbreviation td := (std e).
Abbreviation K := (M (SS T) fault_kind).

Definition l_token : lens (SS T) (tensor T) := Lens tokenBuf (fun t s => Build_SS t (storeFlags s) (keyCacheInputGt s)).
Definition l_flags : lens (SS T) (gset StoreEvent) := Lens storeFlags (fun f s => Build_SS (tokenBuf s) f (keyCacheInputGt s)).
Definition l_cache : lens (SS T) (tensor T) := Lens keyCacheInputGt (fun t s => Build_SS (tokenBuf s) (storeFlags s) t).

#[global] Instance l_flags_laws : LensLaws l_flags.
Proof. split; [done| |done]. by intros []. Qed.

(** The members that [Init] computes. *)
Definition tokenByteSize : Z := u32 (sk_tokenSize td * sk_typeByte td).
Definition corePerNum : Z :=
  if sBlockIdx e <? sk_coreTail td then u32 (sk_corePerNum td + 1) else sk_corePerNum td.

(** [InitBuffer(tokenBuf, blockTableSize * tokenByteSize)], in bytes and in elements. *)
Definition tokenBuf_bytes : Z := u32 (sk_blockTableSize td * tokenByteSize).
Definition tokenBuf_len : Z := tokenBuf_bytes /c ssizeofT e.

(** One group; [copyParams.blockLen] is in bytes. *)
Definition StoreGroup (i : Z) : K unit :=
  let idx := u32 (sBlockIdx e + u32 (i * sBlockNum e)) in
  len ← GetValue (fun _ => groupLenGt e) idx;
  let blockLen := u32 (len * tokenByteSize) in
  key ← GetValue (fun _ => groupKeyIdxGt e) idx;
  DataCopyPad l_token 0 (fun _ => keyInputGt e) (u32 (key * sk_tokenSize td)) (blockLen /c ssizeofT e) ;;
  Pulse l_flags MTE2_MTE3 ;;
  cache ← GetValue (fun _ => groupKeyCacheIdxGt e) idx;
  DataCopyPad l_cache (u32 (cache * sk_tokenSize td)) tokenBuf 0 (blockLen /c ssizeofT e) ;;
  Pulse l_flags MTE3_MTE2.

Definition StoreProcess : K unit := for_range 0 corePerNum StoreGroup.

(** ** Specification of one core *)

Abbreviation ts := (sk_tokenSize td).
Abbreviation G := (sk_groupInfoLen td).
Abbreviation glen := (t_at (groupLenGt e)).
Abbreviation gkey := (t_at (groupKeyIdxGt e)).
Abbreviation gcache := (t_at (groupKeyCacheIdxGt e)).

(** What the host and the caller promise: sizes below the 32-bit limits, and
    groups that fit the buffer, the keys and the cache. *)
Record store_env (rows cacheRows : Z) : Prop := {
  se_ts : 0 < ts;
  se_size : 0 < ssizeofT e /\ sk_typeByte td = ssizeofT e;
  se_bytes : sk_blockTableSize td * ts * ssizeofT e < 2 ^ 32;
  se_block : 0 < sk_blockTableSize td;
  se_groups : 0 <= G < 2 ^ 31 /\ t_len (groupLenGt e) = G /\ t_len (groupKeyIdxGt e) = G /\ t_len (groupKeyCacheIdxGt e) = G;
  se_rows : t_len (keyInputGt e) = rows * ts /\ rows * ts < 2 ^ 32 /\ cacheRows * ts < 2 ^ 32;
  se_cores : 0 <= sBlockIdx e < sBlockNum e /\ sBlockNum e < 2 ^ 31;
  se_split : 0 <= sk_corePerNum td /\ sk_corePerNum td * sBlockNum e + sk_coreTail td = G /\ 0 <= sk_coreTail td < sBlockNum e;
  se_len : forall q, 0 <= q < G -> 0 < glen q <= sk_blockTableSize td;
  se_key : forall q, 0 <= q < G -> 0 <= gkey q /\ gkey q + glen q <= rows;
  se_cache : forall q, 0 <= q < G -> 0 <= gcache q /\ gcache q + glen q <= cacheRows;
  se_disjoint : forall p q, 0 <= p < G -> 0 <= q < G -> p <> q ->
                  gcache p + glen p <= gcache q \/ gcache q + glen q <= gcache p }.

Context (rows cacheRows : Z) (He : store_env rows cacheRows).
Implicit Types (s : SS T).

Definition store_idle s : Prop :=
  t_len (tokenBuf s) = tokenBuf_len /\ storeFlags s = ∅ /\ t_len (keyCacheInputGt s) = cacheRows * ts.

Lemma tokenByteSize_eq : tokenByteSize = ts * ssizeofT e /\ 0 < ts * ssizeofT e.
Proof.
  pose proof He as [H1 [H2 H2'] H3 H4 _ _ _ _ _ _ _ _]. unfold tokenByteSize. rewrite H2'.
  assert (0 < ts * ssizeofT e) by nia. split; [|done]. apply u32_id. unfold fits_u32. nia.
Qed.

Lemma tokenBuf_bytes_eq : tokenBuf_bytes = sk_blockTableSize td * ts * ssizeofT e.
Proof.
  destruct tokenByteSize_eq as [Ht Hp]. pose proof He as [H1 [H2 H2'] H3 H4 _ _ _ _ _ _ _ _].
  unfold tokenBuf_bytes. rewrite Ht, Z.mul_assoc. apply u32_id. unfold fits_u32. nia.
Qed.

Lemma tokenBuf_len_eq : tokenBuf_len = sk_blockTableSize td * ts.
Proof.
  destruct tokenByteSize_eq as [Ht Hp]. pose proof He as [H1 [H2 H2'] H3 H4 _ _ _ _ _ _ _ _].
  unfold tokenBuf_len. rewrite tokenBuf_bytes_eq. by rewrite Z.quot_mul by lia.
Qed.

(** Group [q] is done: its tokens are in the cache, the rest is unchanged. *)
Lemma StoreGroup_spec i s :
  store_idle s -> 0 <= i -> sBlockIdx e + i * sBlockNum e < G ->
  let q := sBlockIdx e + i * sBlockNum e in
  wp (StoreGroup i)
    (fun _ s' => store_idle s' /\
       (forall x, 0 <= x < glen q * ts -> t_at (keyCacheInputGt s') (gcache q * ts + x) = t_at (keyInputGt e) (gkey q * ts + x)) /\
       (forall c, c < gcache q * ts \/ (gcache q + glen q) * ts <= c -> t_at (keyCacheInputGt s') c = t_at (keyCacheInputGt s) c)) s.
Proof.
  intros (Hb & Hf & Hc) Hi Hq q. rewrite tokenBuf_len_eq in Hb. destruct tokenByteSize_eq as [Ht Hp].
  pose proof He as [H1 [H2 H2'] H3 H4 (H5 & H5a & H5b & H5c) (H6 & H6a & H6b) [H7 H7a] _ H9 H10 H11 _].
  assert (0 <= i * sBlockNum e) by nia.
  assert (0 <= q < G) as Hqr by (subst q; lia). specialize (H9 q Hqr). specialize (H10 q Hqr). specialize (H11 q Hqr).
  unfold StoreGroup. rewrite (u32_id (i * _)) by (unfold fits_u32; lia). rewrite (u32_id (sBlockIdx e + _)) by (unfold fits_u32; lia).
  fold q. cbv zeta. apply wp_bind, wp_GetValue; [lia|]. rewrite Ht.
  assert (glen q * ts <= sk_blockTableSize td * ts) as Hlb by (apply Z.mul_le_mono_nonneg_r; lia).
  assert (u32 (glen q * (ts * ssizeofT e)) /c ssizeofT e = glen q * ts) as ->.
  { rewrite Z.mul_assoc, u32_id by (unfold fits_u32; nia). by apply Z.quot_mul; lia. }
  assert (0 <= gkey q * ts) by nia. assert ((gkey q + glen q) * ts <= rows * ts) by (apply Z.mul_le_mono_nonneg_r; lia).
  assert (0 <= gcache q * ts) by nia. assert ((gcache q + glen q) * ts <= cacheRows * ts) by (apply Z.mul_le_mono_nonneg_r; lia).
  assert (0 < glen q * ts) by nia.
  apply wp_bind, wp_GetValue; [lia|]. rewrite (u32_id (gkey q * ts)) by (unfold fits_u32; lia).
  apply wp_bind, wp_DataCopyPad; [apply in_tensor_true; cbn [lget l_token]; lia|apply in_tensor_true; lia|].
  apply wp_bind, wp_Pulse; [apply l_flags_laws|cbn [lget l_flags lset l_token storeFlags]; rewrite Hf; set_solver|].
  apply wp_bind, wp_GetValue; [lia|]. rewrite (u32_id (gcache q * ts)) by (unfold fits_u32; lia).
  apply wp_bind, wp_DataCopyPad; [apply in_tensor_true; cbn [lget l_cache l_token lset keyCacheInputGt]; lia
    |apply in_tensor_true; cbn [l_token lset lget tokenBuf]; rewrite ?write_range_len; lia|].
  apply wp_Pulse; [apply l_flags_laws|cbn [lget l_flags lset l_cache l_token storeFlags]; rewrite Hf; set_solver|].
  cbn [lget l_cache l_token lset tokenBuf storeFlags keyCacheInputGt]. split_and!.
  - split_and!; cbn [tokenBuf storeFlags keyCacheInputGt]; rewrite ?write_range_len, ?tokenBuf_len_eq; done.
  - intros x Hx. rewrite write_range_in by done. by rewrite write_range_in.
  - intros c Hcc. apply write_range_out. lia.
Qed.

(** *** The groups that are done *)

Definition group_stored (g : tensor T) (q : Z) : Prop :=
  forall x, 0 <= x < glen q * ts -> t_at g (gcache q * ts + x) = t_at (keyInputGt e) (gkey q * ts + x).

Definition in_group (q c : Z) : Prop := gcache q * ts <= c < (gcache q + glen q) * ts.

Definition store_inv (g0 : tensor T) (D : Z -> Prop) (g : tensor T) : Prop :=
  t_len g = cacheRows * ts /\
  (forall q, D q -> 0 <= q < G -> group_stored g q) /\
  (forall c, (forall q, D q -> 0 <= q < G -> ~ in_group q c) -> t_at g c = t_at g0 c).

Lemma store_inv_ext g0 (D D' : Z -> Prop) g :
  (forall q, 0 <= q < G -> D q <-> D' q) -> store_inv g0 D g -> store_inv g0 D' g.
Proof.
  intros Hext (H1 & H2 & H3). split_and!; [done| |].
  - intros q Hq Hr. apply H2; [by apply Hext|done].
  - intros c Hc. apply H3. intros q Hq Hr. apply Hc; [by apply Hext|done].
Qed.

Lemma store_inv_step g0 D g g' q :
  store_inv g0 D g -> 0 <= q < G -> t_len g' = t_len g -> group_stored g' q ->
  (forall c, c < gcache q * ts \/ (gcache q + glen q) * ts <= c -> t_at g' c = t_at g c) ->
  store_inv g0 (fun x => D x \/ x = q) g'.
Proof.
  intros (H1 & H2 & H3) Hq Hl Hnew Hold. pose proof (se_ts _ _ He) as Hts. split_and!; [congruence| |].
  - intros p Hp Hr. destruct (decide (p = q)) as [->|Hne]; [done|]. destruct Hp as [Hp|Hp]; [|done].
    intros x Hx. rewrite Hold; [by apply H2|].
    destruct (se_disjoint _ _ He p q Hr Hq Hne) as [Hd|Hd];
      apply (Z.mul_le_mono_nonneg_r _ _ ts ltac:(lia)) in Hd; rewrite Z.mul_add_distr_r in Hd; lia.
  - intros c Hc. rewrite Hold.
    + apply H3. intros p Hp Hr. apply Hc; [by left|done].
    + specialize (Hc q ltac:(by right) Hq). unfold in_group in Hc. lia.
Qed.

(** A core stores the groups of its residue class. *)
Lemma StoreProcess_spec g0 D s :
  store_idle s -> store_inv g0 D (keyCacheInputGt s) ->
  wp StoreProcess (fun _ s' => store_inv g0 (fun q => D q \/ q mod sBlockNum e = sBlockIdx e) (keyCacheInputGt s')) s.
Proof.
  intros Hs Hinv. set (n := sBlockNum e) in *. set (b := sBlockIdx e) in *.
  pose proof (se_cores _ _ He) as [Hb Hn]. pose proof (se_split _ _ He) as (Hp & Hsum & Ht). pose proof (se_groups _ _ He) as (HG & _).
  fold n b in Hb, Hn, Hsum, Ht.
  assert (sk_corePerNum td <= G) by nia.
  assert (corePerNum = if b <? sk_coreTail td then sk_corePerNum td + 1 else sk_corePerNum td) as Hcnt.
  { unfold corePerNum. fold b. case_if; [|done]. apply u32_id. unfold fits_u32. lia. }
  assert (forall i, 0 <= i -> i < corePerNum <-> b + i * n < G) as Hcover.
  { intros i Hi. rewrite Hcnt, <- Hsum. destruct (b <? sk_coreTail td) eqn:Eb; bool_prop; split; intros; nia. }
  unfold StoreProcess.
  apply (wp_for_range (fun i s' => store_idle s' /\
    store_inv g0 (fun q => D q \/ stride_before n b i q) (keyCacheInputGt s'))).
  - rewrite Hcnt. case_if; lia.
  - split; [done|]. eapply store_inv_ext; [|exact Hinv]. intros q Hq. split; [auto|].
    intros [?|Hb0]; [done|]. by destruct (stride_before_0 n b q Hb ltac:(lia) Hb0).
  - intros i s1 Hi [Hs1 Hi1]. eapply wp_mono; [apply StoreGroup_spec; [done|lia|apply Hcover; lia]|].
    intros [] s2 (Hs2 & Hnew & Hold). fold n b in Hnew, Hold. split; [done|]. pose proof Hs1 as (_ & _ & Hl1). pose proof Hs2 as (_ & _ & Hl2).
    pose proof (proj1 (Hcover i ltac:(lia)) ltac:(lia)) as Hq. assert (0 <= i * n) by nia.
    eapply store_inv_ext; [|eapply (store_inv_step _ _ _ _ (b + i * n)); [exact Hi1|lia|congruence|exact Hnew|exact Hold]].
    intros q Hqr. rewrite stride_before_S by lia. tauto.
  - intros s' [_ Hi1]. eapply store_inv_ext; [|exact Hi1]. intros q Hq. unfold stride_before. split; [tauto|].
    intros [?|Hm]; [by left|]. right. split; [done|]. pose proof (Z.div_mod q n ltac:(lia)) as Hdm. rewrite Hm in Hdm.
    pose proof (Z.div_pos q n ltac:(lia) ltac:(lia)).
    assert (q / n < corePerNum) as Hlt by (apply Hcover; [done|lia]). nia.
Qed.
End Kernel.
