(* ===== verification/StoreKvGrid.v ===== *)
(** StoreKVBlock end to end: grouping on the host, tiling, and the cores of a
    launch together perform the scatter [cache[slot[i]] = key[i]]. *)

From stdpp Require Import gmap.
From S2P Require Import Prelude AscendC TilingContext StoreKvGroups StoreKv.

Definition with_score {T} (e : SEnv T) (b : Z) : SEnv T :=
  Build_SEnv (keyInputGt e) (groupLenGt e) (groupKeyIdxGt e) (groupKeyCacheIdxGt e) (std e) (ssizeofT e) b (sBlockNum e).

Section Grid.
Context {T : Type}.
Variable e : SEnv T.

(** Core [b]: [Process] takes the token buffer, which holds [v], out of the [ub] bytes
    of the unified buffer and stores the groups. *)
Definition store_core (ub : Z) (v : T) (b : Z) (g : tensor T) : outcome fault_kind (tensor T) :=
  InitBuffers ub [tokenBuf_bytes (with_score e b)] ;;
  match StoreProcess (with_score e b) (Build_SS (Tensor (tokenBuf_len e) (fun _ => v)) ∅ g) with
  | Ok (_, s) => Ok (keyCacheInputGt s)
  | Err k => Err k
  end.

Context (rows cacheRows : Z) (He : store_env e rows cacheRows).

Lemma with_score_env b : 0 <= b < sBlockNum e -> store_env (with_score e b) rows cacheRows.
Proof. intros Hb. destruct He. split; try done. simpl. split; [done|apply se_cores]. Qed.

Lemma store_grid_spec ub v order g :
  ub_blocks (tokenBuf_bytes e) <= ub -> order ≡ₚ zrange 0 (sBlockNum e) -> t_len g = cacheRows * sk_tokenSize (std e) ->
  exists g', run_blocks (store_core ub v) order g = Ok g' /\ store_inv e cacheRows g (fun _ => True) g'.
Proof.
  intros Hub Hperm Hg. pose proof (se_cores _ _ _ He) as [Hb0 _]. set (n := sBlockNum e) in *.
  destruct (run_blocks_spec (store_core ub v) (fun D g' => store_inv e cacheRows g (fun q => D (q mod n)) g') order)
    with (D := fun _ : Z => False) (g := g) as (g' & Hrun & Hinv).
  - intros D b g1 Hb Hg1. rewrite Hperm, elem_of_zrange in Hb.
    pose proof (StoreProcess_spec (with_score e b) rows cacheRows (with_score_env b Hb) g (fun q => D (q mod n))
      (Build_SS (Tensor (tokenBuf_len e) (fun _ => v)) ∅ g1)) as Hw.
    apply wp_run in Hw as ([] & s & Hr & Hs); [|split_and!; [done|done|apply Hg1]|exact Hg1].
    exists (keyCacheInputGt s). unfold store_core. rewrite InitBuffers_ok by (simpl; unfold tokenBuf_bytes, tokenByteSize in *; simpl; lia). by rewrite bind_Ok, Hr.
  - intros D D' g1 HD. apply store_inv_ext. intros q _. apply HD.
  - split_and!; [done|done|done].
  - exists g'. split; [done|]. eapply store_inv_ext; [|exact Hinv]. intros q Hq. split; [done|]. intros _. right.
    rewrite Hperm, elem_of_zrange. apply Z.mod_pos_bound. lia.
Qed.

(** A buffer that is too large stops the first core. *)
Lemma store_grid_full ub v order g :
  ub < ub_blocks (tokenBuf_bytes e) -> order ≡ₚ zrange 0 (sBlockNum e) -> run_blocks (store_core ub v) order g = Err UbExhausted.
Proof.
  intros Hub Hperm. pose proof (se_cores _ _ _ He) as [Hb0 _].
  destruct order as [|b order].
  - assert (0 ∈ zrange 0 (sBlockNum e)) as Hin by (apply elem_of_zrange; lia). rewrite <- Hperm in Hin. by apply elem_of_nil in Hin.
  - cbn [run_blocks]. unfold store_core. rewrite InitBuffers_full; [done|]. simpl. unfold tokenBuf_bytes, tokenByteSize in *. simpl. lia.
Qed.
End Grid.

(** ** The groups of a slot list *)

(** A device tensor filled from a host vector. *)
Definition list_tensor (l : list Z) : tensor Z := Tensor (Z.of_nat (length l)) (fun i => nth (Z.to_nat i) l 0).

Lemma elem_of_valid_pairs slots lo hi i s :
  (i, s) ∈ valid_pairs slots lo hi <-> lo <= i < hi /\ s = slot slots i /\ 0 <= s.
Proof.
  unfold valid_pairs. rewrite list_elem_of_omap. split.
  - intros (k & Hk%elem_of_zrange & He). destruct (0 <=? slot slots k) eqn:E; [|done]. injection He as <- <-. bool_prop. done.
  - intros (Hi & -> & Hs). exists i. split; [by apply elem_of_zrange|]. by rewrite (proj2 (Z.leb_le 0 _)).
Qed.

Lemma NoDup_valid_pairs slots lo hi : NoDup (valid_pairs slots lo hi).
Proof.
  unfold valid_pairs. pose proof (NoDup_zrange lo hi) as Hn. induction (zrange lo hi) as [|i l IH]; [constructor|]. simpl.
  apply list.NoDup_cons in Hn as [Hnin Hn]. destruct (0 <=? slot slots i); [|by apply IH]. apply list.NoDup_cons. split; [|by apply IH].
  rewrite list_elem_of_omap. intros (k & Hk & He). destruct (0 <=? slot slots k); [|done]. injection He as -> _. done.
Qed.

Lemma concat_disjoint {A} (L : list (list A)) p q a b x :
  NoDup (concat L) -> L !! p = Some a -> L !! q = Some b -> x ∈ a -> x ∈ b -> p = q.
Proof.
  revert p q. induction L as [|l L IH]; intros p q Hn Hp Hq Ha Hb; [done|]. simpl in Hn.
  apply list.NoDup_app in Hn as (_ & Hd & Hn).
  destruct p as [|p], q as [|q]; simpl in *; simplify_eq; [done| | |f_equal; by apply IH].
  - exfalso. apply (Hd x Ha). apply list_elem_of_In, in_concat. exists b. split; apply list_elem_of_In; [|done]. by eapply list_elem_of_lookup_2.
  - exfalso. apply (Hd x Hb). apply list_elem_of_In, in_concat. exists a. split; apply list_elem_of_In; [|done]. by eapply list_elem_of_lookup_2.
Qed.

Lemma elem_of_expand len key cache i s :
  (i, s) ∈ expand_group (len, key, cache) <-> exists k, 0 <= k < len /\ i = key + k /\ s = cache + k.
Proof.
  unfold expand_group. rewrite list_elem_of_fmap. split.
  - intros (k & [= -> ->] & Hk%elem_of_zrange). eauto.
  - intros (k & Hk & -> & ->). exists k. split; [done|]. by apply elem_of_zrange.
Qed.

Section Groups.
Variable slots : list Z.
Variable bs : Z.
Variables lens keys caches : list Z.
Context (Hlk : length keys = length lens) (Hlc : length caches = length lens).
Context (Hpairs : concat (expand_group <$> zip (zip lens keys) caches) = valid_pairs slots 0 (slot_mapping_len slots)).
Context (Hgrp : Forall (group_ok slots bs) (zip (zip lens keys) caches)).
Context (Hinj : forall i k, 0 <= i < slot_mapping_len slots -> 0 <= k < slot_mapping_len slots ->
                 0 <= slot slots i -> slot slots i = slot slots k -> i = k).
Context (Hbs : 0 < bs).

Abbreviation G := (Z.of_nat (length lens)).
Abbreviation glen q := (t_at (list_tensor lens) q).
Abbreviation gkey q := (t_at (list_tensor keys) q).
Abbreviation gcache q := (t_at (list_tensor caches) q).

Lemma group_lookup q : 0 <= q < G -> zip (zip lens keys) caches !! Z.to_nat q = Some (glen q, gkey q, gcache q).
Proof.
  intros Hq. simpl.
  destruct (lookup_lt_is_Some_2 lens (Z.to_nat q) ltac:(lia)) as [a Ha].
  destruct (lookup_lt_is_Some_2 keys (Z.to_nat q) ltac:(lia)) as [b Hb].
  destruct (lookup_lt_is_Some_2 caches (Z.to_nat q) ltac:(lia)) as [c Hc].
  rewrite (nth_lookup_Some _ _ _ _ Ha), (nth_lookup_Some _ _ _ _ Hb), (nth_lookup_Some _ _ _ _ Hc).
  apply lookup_zip_with_Some. eexists (a, b), c. split_and!; [done| |done]. apply lookup_zip_with_Some. eauto.
Qed.

Lemma group_facts q : 0 <= q < G -> group_ok slots bs (glen q, gkey q, gcache q).
Proof.
  intros Hq. rewrite list.Forall_forall in Hgrp. apply Hgrp. eapply list_elem_of_lookup_2. by apply group_lookup.
Qed.

Lemma group_len_le q : 0 <= q < G -> 0 < glen q <= bs.
Proof.
  intros Hq. destruct (group_facts q Hq) as (H1 & _ & _ & H4 & H5). split; [done|].
  pose proof (Z.div_mod (gcache q) bs ltac:(lia)). pose proof (Z.div_mod (gcache q + glen q - 1) bs ltac:(lia)).
  pose proof (Z.mod_pos_bound (gcache q) bs Hbs). pose proof (Z.mod_pos_bound (gcache q + glen q - 1) bs Hbs). nia.
Qed.

(** The tokens of a group and their slots. *)
Lemma group_slot q k : 0 <= q < G -> 0 <= k < glen q ->
  0 <= gkey q + k < slot_mapping_len slots /\ slot slots (gkey q + k) = gcache q + k.
Proof.
  intros Hq Hk. assert ((gkey q + k, gcache q + k) ∈ valid_pairs slots 0 (slot_mapping_len slots)) as Hin.
  { rewrite <- Hpairs. apply list_elem_of_In, in_concat. exists (expand_group (glen q, gkey q, gcache q)).
    split; apply list_elem_of_In; [|apply elem_of_expand; eauto].
    apply list_elem_of_fmap_2. eapply list_elem_of_lookup_2. by apply group_lookup. }
  apply elem_of_valid_pairs in Hin as (H1 & H2 & H3). auto.
Qed.

Lemma slot_group i : 0 <= i < slot_mapping_len slots -> 0 <= slot slots i ->
  exists q k, 0 <= q < G /\ 0 <= k < glen q /\ i = gkey q + k /\ slot slots i = gcache q + k.
Proof.
  intros Hi Hs. assert ((i, slot slots i) ∈ valid_pairs slots 0 (slot_mapping_len slots)) as Hin by (by apply elem_of_valid_pairs).
  rewrite <- Hpairs in Hin. apply list_elem_of_In, in_concat in Hin as (l & Hl & Hin). apply list_elem_of_In in Hl, Hin.
  apply list_elem_of_fmap in Hl as (g & -> & Hg). apply list_elem_of_lookup in Hg as (p & Hp).
  assert (p < length lens)%nat as Hlt by (apply lookup_lt_Some in Hp; rewrite !length_zip_with, Hlk, Hlc, !Nat.min_id in Hp; done).
  rewrite <- (Nat2Z.id p), (group_lookup (Z.of_nat p)) in Hp by lia. injection Hp as <-.
  apply elem_of_expand in Hin as (k & Hk & H1 & H2). exists (Z.of_nat p), k. split_and!; [lia|lia|apply Hk|apply Hk|exact H1|exact H2].
Qed.

Lemma groups_disjoint p q : 0 <= p < G -> 0 <= q < G -> p <> q ->
  gcache p + glen p <= gcache q \/ gcache q + glen q <= gcache p.
Proof.
  intros Hp Hq Hne. destruct (decide (gcache p + glen p <= gcache q)) as [|H1]; [by left|].
  destruct (decide (gcache q + glen q <= gcache p)) as [|H2]; [by right|]. exfalso.
  pose proof (group_len_le p Hp). pose proof (group_len_le q Hq).
  set (c := Z.max (gcache p) (gcache q)).
  destruct (group_slot p (c - gcache p) Hp ltac:(lia)) as [T1 S1]. destruct (group_slot q (c - gcache q) Hq ltac:(lia)) as [T2 S2].
  destruct (group_facts p Hp) as (_ & _ & _ & Hc & _).
  assert (gkey p + (c - gcache p) = gkey q + (c - gcache q)) as Heq by (apply Hinj; try done; lia).
  apply Hne. apply Z2Nat.inj; [lia|lia|].
  apply (concat_disjoint (expand_group <$> zip (zip lens keys) caches) _ _ (expand_group (glen p, gkey p, gcache p))
    (expand_group (glen q, gkey q, gcache q)) (gkey p + (c - gcache p), c)).
  - rewrite Hpairs. apply NoDup_valid_pairs.
  - rewrite list_lookup_fmap, group_lookup by done. done.
  - rewrite list_lookup_fmap, group_lookup by done. done.
  - apply elem_of_expand. exists (c - gcache p). lia.
  - apply elem_of_expand. exists (c - gcache q). lia.
Qed.
End Groups.

(** ** Tiling *)

(** The product of the dimensions after the first: elements of a token. *)
Definition token_elems (shape : list Z) : Z := foldr Z.mul 1 (tail shape).

Lemma u32_mul_l a b : u32 (u32 a * b) = u32 (a * b).
Proof. unfold u32. apply Zmult_mod_idemp_l. Qed.

Lemma u32_mul_r a b : u32 (a * u32 b) = u32 (a * b).
Proof. unfold u32. apply Zmult_mod_idemp_r. Qed.

Lemma foldl_u32 l a : foldl (fun acc h => u32 (acc * h)) (u32 a) l = u32 (a * foldr Z.mul 1 l).
Proof.
  revert a. induction l as [|h l IH]; intros a; simpl; [by rewrite Z.mul_1_r|]. by rewrite u32_mul_l, IH, Z.mul_assoc.
Qed.

Lemma foldr_mul_app l l' : foldr Z.mul 1 (l ++ l') = foldr Z.mul 1 l * foldr Z.mul 1 l'.
Proof. induction l as [|x l IH]; cbn [app foldr]; [by rewrite Z.mul_1_l|]. by rewrite IH, Z.mul_assoc. Qed.

Lemma u32_foldr_mul l a : u32 (a * foldr Z.mul 1 (u32 <$> l)) = u32 (a * foldr Z.mul 1 l).
Proof.
  revert a. induction l as [|x l IH]; intros a; [done|]. rewrite fmap_cons. cbn [foldr].
  rewrite !Z.mul_assoc, !IH, <- u32_mul_l, u32_mul_r, u32_mul_l. done.
Qed.

(** The head sizes are stored one after the other; those that are missing stay 1. *)
Lemma read_dims_heads rest k nt nh pre :
  (length pre = k)%nat -> (k + length rest <= 5)%nat -> (forall d, d ∈ rest -> u32 d <> 0) ->
  read_dims (S (S k)) rest (nt, nh, pre ++ replicate (5 - k) 1) =
  (nt, nh, pre ++ (u32 <$> rest) ++ replicate (5 - k - length rest) 1).
Proof.
  revert k pre. induction rest as [|d rest IH]; intros k pre Hk Hlen Hnz; [simpl; by rewrite Nat.sub_0_r|].
  cbn [read_dims length] in *. rewrite (proj2 (Z.eqb_neq _ _) (Hnz d ltac:(set_solver))).
  replace (5 - k)%nat with (S (5 - S k)) at 1 by lia. cbn [replicate].
  rewrite insert_app_r_alt by lia. rewrite Hk, Nat.sub_diag. cbn [insert list_insert].
  pose proof (IH (S k) (pre ++ [u32 d])) as Hstep. rewrite <- !app_assoc in Hstep.
  etransitivity; [apply Hstep; [rewrite length_app; simpl; lia|lia|set_solver]|].
  rewrite fmap_cons. cbn [app]. do 5 f_equal. lia.
Qed.

Lemma read_dims_token n h rest :
  (length rest <= 5)%nat -> (forall d, d ∈ rest -> u32 d <> 0) ->
  exists hs, read_dims 0 (n :: h :: rest) (0, 1, [1; 1; 1; 1; 1]) = (u32 n, u32 h, hs) /\
    foldl (fun acc h => u32 (acc * h)) (u32 h) hs = u32 (token_elems (n :: h :: rest)).
Proof.
  intros Hlen Hnz. eexists. split.
  - cbn [read_dims]. exact (read_dims_heads rest 0 _ _ [] eq_refl Hlen Hnz).
  - rewrite foldl_u32. cbn [app]. rewrite foldr_mul_app, Z.mul_assoc.
    assert (forall m, foldr Z.mul 1 (replicate m 1) = 1) as -> by (induction m as [|m IHm]; simpl; [done|by rewrite IHm]).
    rewrite Z.mul_1_r. apply u32_foldr_mul.
Qed.

(** The element sizes of the types that the operator supports. *)
Definition store_dtype_size (dt : DataType) : option Z :=
  match dt with
  | DT_INT8 => Some 1
  | DT_FLOAT16 | DT_BF16 => Some 2
  | DT_INT32 | DT_UINT32 => Some 4
  | _ => None
  end.

(** [sizeof(T)] of the kernel instance that a tiling key selects. *)
Definition store_kernel_sizeofT (key : Z) : option Z :=
  if key =? 1 then Some 1 else if key =? 2 then Some 2 else if key =? 4 then Some 4 else None.

(** A call as the tiling context describes it. *)
Record store_context (context : TilingContext) (cores rows ts cacheRows bs groups size : Z) : Prop := {
  sx_platform : exists pi, GetPlatformInfoPtr context = Some pi /\ GetCoreNum pi = cores;
  sx_key : exists h rest, GetInputShape context DIM_0 = Some (rows :: h :: rest) /\ token_elems (rows :: h :: rest) = ts /\
             (length rest <= 5)%nat /\ forall d, d ∈ rest -> 0 < d < 2 ^ 32;
  sx_cache : exists nb b rest, GetInputShape context DIM_1 = Some (nb :: b :: rest) /\ nb * b = cacheRows /\ (length rest <= 5)%nat;
  sx_block : HasAttrs context = true /\ GetAttrInt context 0 = Some bs;
  sx_buffers : HasWorkspaceSizes context = true /\ HasTilingData context = true;
  sx_type : exists dt, GetInputDesc context DIM_0 = Some dt /\ store_dtype_size dt = Some size;
  sx_groups : exists rest, GetInputShape context DIM_2 = Some (groups :: rest) }.

(** The launch that the extents determine. *)
Definition store_launch (ws cores rows ts cacheRows bs groups size : Z) : StoreLaunch :=
  {| sl_tiling := {| sk_blockTableSize := u32 bs; sk_typeByte := size; sk_tokenSize := u32 ts;
                     sk_corePerNum := u32 groups / cores;
                     sk_coreTail := if u32 groups mod cores <? 48 then u32 groups mod cores else 0;
                     sk_numTokens := u32 rows; sk_numCache := u32 cacheRows; sk_groupInfoLen := u32 groups |};
     sl_blockDim := cores;
     sl_tilingKey := size;
     sl_workspaceSize := ws |}.

Lemma u32_nonneg z : 0 <= u32 z.
Proof. unfold u32. apply Z.mod_pos_bound. lia. Qed.

Lemma set_pos v : 0 <= v -> (if v >? 0 then v else 0) = v.
Proof. intros Hv. rewrite Z.gtb_ltb. destruct (0 <? v) eqn:E; bool_prop; lia. Qed.

Lemma shape_dims_ok {A} (x y : A) rest : (length rest <= 5)%nat ->
  (Z.of_nat (length (x :: y :: rest)) <? 2) || (Z.of_nat (length (x :: y :: rest)) >? 7) = false.
Proof. intros Hl. cbn [length]. rewrite Z.gtb_ltb. apply orb_false_intro; [apply Z.ltb_ge|apply Z.ltb_ge]; lia. Qed.

Lemma tiling_func_spec ws context cores rows ts cacheRows bs groups size :
  store_context context cores rows ts cacheRows bs groups size -> 0 < cores ->
  StoreKVBlockTilingFunc ws context =
    if u32 (u32 bs * u32 ts) >? MAX_UB_USE_SIZE then Err (GRAPH_FAILED "pageBlockEleSize > MaxUBSize")
    else Ok (store_launch ws cores rows ts cacheRows bs groups size).
Proof.
  intros [(pi & X1 & X1') (h & rest & X2 & X2a & X2b & X2c) (nb & b & rest' & X3 & X3a & X3b) [X4a X4] [X7 X8] (dt & X5 & X5a) (rest'' & X6)] Hc.
  unfold StoreKVBlockTilingFunc. rewrite (OP_CHECK_NULL_pass _ _ pi) by done. cbv zeta. rewrite X1'.
  rewrite OP_CHECK_IF_pass by (apply Z.eqb_neq; lia). unfold DoCommonTiling. rewrite X2, X3, X4, X4a, X5, X6. cbn [deref]. rewrite bind_Ok.
  destruct (read_dims_token rows h rest) as (hs & Hdims & Htok);
    [done|intros d Hd; specialize (X2c d Hd); rewrite u32_id by (unfold fits_u32; lia); lia|].
  unfold GetDimNum. rewrite OP_CHECK_IF_pass by (by apply shape_dims_ok). rewrite Hdims, bind_Ok.
  rewrite OP_CHECK_IF_pass by (by apply shape_dims_ok). rewrite !bind_Ok. cbv zeta. rewrite Htok, X2a.
  change (GetDim (nb :: b :: rest') 0) with nb. change (GetDim (nb :: b :: rest') 1) with b. rewrite X3a.
  assert (forall A (k : Z * Z -> HostM A),
    ((if bool_decide (dt = DT_INT8) then Ok (1, 1)
     else if bool_decide (dt = DT_FLOAT16) || bool_decide (dt = DT_BF16) then Ok (2, 2)
     else if bool_decide (dt = DT_INT32) || bool_decide (dt = DT_UINT32) then Ok (4, 4)
     else Err (GRAPH_FAILED "Unsupported type.")) ≫= k) = k (size, size)) as ->.
  { intros A k. destruct dt; simpl in X5a; simplify_eq; reflexivity. }
  rewrite bind_Ok. change (GetDim (groups :: rest'') 0) with groups.
  destruct (u32 (u32 bs * u32 ts) >? MAX_UB_USE_SIZE) eqn:Hub; [reflexivity|]. cbn [OP_CHECK_IF]. rewrite !bind_Ok, X7, X8. cbn [deref]. rewrite !bind_Ok.
  cbn [pa_numTokens pa_numCache pa_blockTableSize pa_typeByte pa_tokenSize pa_tilingKey pa_groupInfoLen pa_corepernum pa_coretail].
  unfold store_launch. pose proof (u32_nonneg groups) as Hg.
  rewrite !(set_pos (u32 _)) by apply u32_nonneg. rewrite (quot_nonneg_div (u32 groups)), (rem_nonneg_mod (u32 groups)) by lia.
  assert ((if size >? 0 then size else 0) = size) as -> by (destruct dt; simpl in X5a; simplify_eq; reflexivity).
  assert ((if u32 groups >? 0 then u32 (u32 groups) else 0) = u32 groups) as ->.
  { rewrite (u32_id (u32 groups)); [by apply set_pos|]. unfold fits_u32, u32. apply Z.mod_pos_bound. lia. }
  pose proof (Z.div_pos (u32 groups) cores Hg ltac:(lia)) as Hd.
  assert ((if (u32 groups / cores >? 0) || negb (u32 groups mod cores =? 0) then u32 groups / cores else 0) = u32 groups / cores) as ->; [|done].
  destruct (negb _); [by rewrite orb_true_r|]. rewrite orb_false_r. by apply set_pos.
Qed.

(**  The tiling function on a well-formed call: it refuses exactly the calls
    whose block has more than [MAX_UB_USE_SIZE] elements (as a 32-bit product);
    otherwise the tiling key selects the kernel instance of the element size,
    every core is launched, and on at most 48 cores the per-core counts add up
    to the number of groups, so each group has one core. *)
Theorem StoreKVBlockTilingFunc_split (ws : Z) (context : TilingContext) (cores rows ts cacheRows bs groups size : Z) :
  store_context context cores rows ts cacheRows bs groups size -> 0 < cores <= 48 ->
  (StoreKVBlockTilingFunc ws context = Err (GRAPH_FAILED "pageBlockEleSize > MaxUBSize") <-> MAX_UB_USE_SIZE < u32 (u32 bs * u32 ts)) /\
  forall la, StoreKVBlockTilingFunc ws context = Ok la ->
    store_kernel_sizeofT (sl_tilingKey la) = Some (sk_typeByte (sl_tiling la)) /\
    sl_blockDim la = cores /\ sk_groupInfoLen (sl_tiling la) = u32 groups /\
    0 <= sk_coreTail (sl_tiling la) < cores /\ 0 <= sk_corePerNum (sl_tiling la) /\
    sk_corePerNum (sl_tiling la) * cores + sk_coreTail (sl_tiling la) = sk_groupInfoLen (sl_tiling la) /\
    u32 (sk_blockTableSize (sl_tiling la) * sk_tokenSize (sl_tiling la)) <= MAX_UB_USE_SIZE.
Proof.
  intros Hx Hc. rewrite (tiling_func_spec _ _ _ _ _ _ _ _ _ Hx) by lia. rewrite Z.gtb_ltb.
  destruct (MAX_UB_USE_SIZE <? u32 (u32 bs * u32 ts)) eqn:E; bool_prop; [done|]. split; [split; [discriminate|lia]|].
  intros la [= <-]. destruct (sx_type _ _ _ _ _ _ _ _ Hx) as (dt & _ & Hdt). cbn [store_launch sl_tiling sl_tilingKey sl_blockDim
    sk_typeByte sk_groupInfoLen sk_coreTail sk_corePerNum sk_blockTableSize sk_tokenSize].
  pose proof (Z.mod_pos_bound (u32 groups) cores ltac:(lia)). rewrite (proj2 (Z.ltb_lt (_ mod _) 48)) by lia.
  pose proof (u32_nonneg groups). split_and!; try lia; try done.
  - destruct dt; simpl in Hdt; simplify_eq; reflexivity.
  - apply Z.div_pos; lia.
  - pose proof (Z.div_mod (u32 groups) cores ltac:(lia)). lia.
Qed.

(** ** The whole operator *)

(** The kernel arguments of a call on the groups of a slot list. *)
Record store_launched {T} (la : StoreLaunch) (e : SEnv T) (lens keys caches : list Z) (rows : Z) : Prop := {
  sd_tiling : std e = sl_tiling la;
  sd_size : store_kernel_sizeofT (sl_tilingKey la) = Some (ssizeofT e);
  sd_cores : sBlockNum e = sl_blockDim la /\ sBlockIdx e = 0;
  sd_key : t_len (keyInputGt e) = rows * sk_tokenSize (std e);
  sd_lens : groupLenGt e = list_tensor lens;
  sd_keys : groupKeyIdxGt e = list_tensor keys;
  sd_caches : groupKeyCacheIdxGt e = list_tensor caches }.

(** The sizes and slots of a call, none of which the host checks: slots that fit 32
    bits and lie inside the cache, no slot used twice, the tokens of each cache block
    listed in the order of their slots ([in_order]), a key row per slot, tensors of
    less than [2^32] elements and blocks of less than [2^32] bytes, and at most 48
    cores. *)
Record store_call (slots : list Z) (bs cores rows ts cacheRows size : Z) : Prop := {
  sc_slots : slots_fit slots bs;
  sc_order : in_order slots bs;
  sc_inj : forall i k, 0 <= i < slot_mapping_len slots -> 0 <= k < slot_mapping_len slots ->
             0 <= slot slots i -> slot slots i = slot slots k -> i = k;
  sc_cache : forall i, 0 <= i < slot_mapping_len slots -> slot slots i < cacheRows;
  sc_rows : slot_mapping_len slots <= rows;
  sc_ts : 0 < ts;
  sc_elems : rows * ts < 2 ^ 32 /\ cacheRows * ts < 2 ^ 32 /\ bs * ts * size < 2 ^ 32;
  sc_cores : 0 < cores <= 48 }.

Section Whole.
Context {T : Type}.
Variables (slots : list Z) (bs cores rows ts cacheRows size : Z).
Context (Hcall : store_call slots bs cores rows ts cacheRows size).
Variables lens keys caches : list Z.
Context (Hlk : length keys = length lens) (Hlc : length caches = length lens).
Context (Hpairs : concat (expand_group <$> zip (zip lens keys) caches) = valid_pairs slots 0 (slot_mapping_len slots)).
Context (Hgrp : Forall (group_ok slots bs) (zip (zip lens keys) caches)).
Abbreviation groups := (Z.of_nat (length lens)).
Context (groups_le : groups <= slot_mapping_len slots).

Lemma call_store_env ws (e : SEnv T) :
  store_launched (store_launch ws cores rows ts cacheRows bs groups size) e lens keys caches rows ->
  store_kernel_sizeofT size = Some size -> store_env e rows cacheRows.
Proof.
  intros [L1 L2 [L3 L3'] L4 L5 L6 L7] Hsz. pose proof Hcall as [S1 _ S2 S3 S4 S5 (S6 & S7 & S8) S9].
  pose proof (sk_block _ _ S1). pose proof (sk_len _ _ S1). pose proof groups_le. simpl in L2, L3. rewrite Hsz in L2. injection L2 as Hs.
  assert (0 < size) by (unfold store_kernel_sizeofT in Hsz; repeat case_match; simplify_eq; bool_prop; lia).
  assert (0 < bs * ts) by nia. assert (bs * ts <= bs * ts * size) by nia. assert (ts <= bs * ts) by nia.
  pose proof (Z.mod_pos_bound groups cores ltac:(lia)). pose proof (Z.div_mod groups cores ltac:(lia)).
  assert (std e = {| sk_blockTableSize := bs; sk_typeByte := size; sk_tokenSize := ts; sk_corePerNum := groups / cores;
     sk_coreTail := groups mod cores; sk_numTokens := u32 rows; sk_numCache := u32 cacheRows; sk_groupInfoLen := groups |}) as Htd.
  { rewrite L1. unfold store_launch. simpl. rewrite (u32_id bs), (u32_id ts), (u32_id groups) by (unfold fits_u32; lia).
    by rewrite (proj2 (Z.ltb_lt (groups mod cores) 48)) by lia. }
  rewrite Htd in L4. simpl in L4.
  split; rewrite ?Htd, ?L3, ?L3', ?L4, ?L5, ?L6, ?L7, <- ?Hs; simpl; try lia; try done.
  - split_and!; [apply Z.div_pos; lia|lia|lia|lia].
  - intros q Hq. apply (group_len_le slots bs lens keys caches); [done|done|done|lia|done].
  - intros q Hq. destruct (group_facts slots bs lens keys caches Hlk Hlc Hgrp q Hq) as (_ & G2 & G3 & _ & _). simpl in *. lia.
  - intros q Hq. destruct (group_facts slots bs lens keys caches Hlk Hlc Hgrp q Hq) as (G1 & _ & _ & G4 & _).
    destruct (group_slot slots lens keys caches Hlk Hlc Hpairs q (t_at (list_tensor lens) q - 1) Hq) as [Hr Hsl]; [simpl in *; lia|].
    specialize (S3 _ Hr). rewrite Hsl in S3. simpl in *. lia.
  - intros p q Hp Hq Hne. apply (groups_disjoint slots bs lens keys caches); try done. lia.
Qed.
End Whole.

(** The effect on the cache, row by row: row [slot[i]] holds key row [i], a row
    that no token names is unchanged. *)
Definition scattered {T} (slots : list Z) (ts : Z) (key g g' : tensor T) : Prop :=
  (forall i x, 0 <= i < slot_mapping_len slots -> 0 <= slot slots i -> 0 <= x < ts ->
     t_at g' (slot slots i * ts + x) = t_at key (i * ts + x)) /\
  (forall r x, 0 <= x < ts -> (forall i, 0 <= i < slot_mapping_len slots -> slot slots i <> r) ->
     t_at g' (r * ts + x) = t_at g (r * ts + x)).

Lemma store_inv_scattered {T} (e : SEnv T) slots bs lens keys caches cacheRows g g' :
  length keys = length lens -> length caches = length lens ->
  concat (expand_group <$> zip (zip lens keys) caches) = valid_pairs slots 0 (slot_mapping_len slots) ->
  Forall (group_ok slots bs) (zip (zip lens keys) caches) ->
  groupLenGt e = list_tensor lens -> groupKeyIdxGt e = list_tensor keys -> groupKeyCacheIdxGt e = list_tensor caches ->
  sk_groupInfoLen (std e) = Z.of_nat (length lens) -> 0 < sk_tokenSize (std e) ->
  store_inv e cacheRows g (fun _ => True) g' -> scattered slots (sk_tokenSize (std e)) (keyInputGt e) g g'.
Proof.
  intros Hlk Hlc Hp Hg E1 E2 E3 HG Hts (_ & Hst & Hfr). set (ts := sk_tokenSize (std e)) in *. split.
  - intros i x Hi Hs Hx. destruct (slot_group slots lens keys caches Hlk Hlc Hp i Hi Hs) as (q & k & Hq & Hk & Hik & Hsk).
    specialize (Hst q I ltac:(lia) (k * ts + x)). fold ts in Hst. rewrite E1, E2, E3 in Hst.
    rewrite Hsk, Hik, !Z.mul_add_distr_r, <- !Z.add_assoc. apply Hst.
    assert ((k + 1) * ts <= t_at (list_tensor lens) q * ts) by (apply Z.mul_le_mono_nonneg_r; lia).
    assert (0 <= k * ts) by nia. lia.
  - intros r x Hx Hno. apply Hfr. intros q _ Hq. unfold in_group. rewrite E1, E3. fold ts. rewrite HG in Hq. intros Hin.
    assert (0 <= r - t_at (list_tensor caches) q < t_at (list_tensor lens) q) as Hk by nia.
    destruct (group_slot slots lens keys caches Hlk Hlc Hp q _ Hq Hk) as [Hr Hsl]. apply (Hno _ Hr). rewrite Hsl. lia.
Qed.

(** C3.  The operator is a scatter, for calls within the limits that the caller and
    the device set and the host does not check ([store_call]): distinct slots inside
    the cache, the tokens of each cache block listed in the order of their slots,
    tensors of less than [2^32] elements, at most 48 cores; and a block of at most
    [MAX_UB_USE_SIZE] elements, the limit of the tiling function.  Grouping on the
    host then succeeds and the tiling function accepts the call.  On a device whose
    unified buffer of [ub] bytes holds a block, the launch completes without a fault
    in every order of its cores: row [slot[i]] of the cache is row [i] of the keys
    for every token with a slot, and no other row has changed.  On a device whose
    unified buffer does not hold a block, the launch faults when it takes the
    buffer; the tiling function compares the block with its limit in elements, not
    in bytes ([block_exceeds_buffer]).  Beyond the other limits the scatter
    can be wrong: see [padding_inside_run] and [tail_of_48_dropped]. *)
Theorem store_call_correct {T : Type} (ws : Z) (slots : list Z) (bs cores rows ts cacheRows size : Z) :
  store_call slots bs cores rows ts cacheRows size -> store_kernel_sizeofT size = Some size -> bs * ts <= MAX_UB_USE_SIZE ->
  exists lens keys caches, store_kv_block_pre slots bs = Ok (lens, keys, caches) /\
  forall context, store_context context cores rows ts cacheRows bs (Z.of_nat (length lens)) size ->
  exists la, StoreKVBlockTilingFunc ws context = Ok la /\
  forall (e : SEnv T) (ub : Z) (v : T) (order : list Z) (g : tensor T),
  store_launched la e lens keys caches rows -> order ≡ₚ zrange 0 (sl_blockDim la) -> t_len g = cacheRows * ts ->
  (ub_blocks (bs * ts * size) <= ub ->
   exists g', run_blocks (store_core e ub v) order g = Ok g' /\ t_len g' = t_len g /\ scattered slots ts (keyInputGt e) g g') /\
  (ub < ub_blocks (bs * ts * size) -> run_blocks (store_core e ub v) order g = Err UbExhausted).
Proof.
  intros Hc Hsz Hlim. pose proof Hc as [S1 So _ _ S4 S5 (S6 & S7 & S8) S9].
  destruct (store_kv_block_pre_spec slots bs S1) as (lens & keys & caches & Hpre & Hlk & Hlc & HG & [Hg _ _ Hp]). specialize (Hp So).
  exists lens, keys, caches. split; [done|]. intros context Hx.
  pose proof (sk_block _ _ S1). pose proof (sk_len _ _ S1).
  assert (0 < bs * ts) by nia. assert (ts <= bs * ts) by nia. unfold MAX_UB_USE_SIZE in Hlim.
  assert (u32 ts = ts) as Hts by (apply u32_id; unfold fits_u32; lia). assert (u32 bs = bs) as Hbs by (apply u32_id; unfold fits_u32; lia).
  exists (store_launch ws cores rows ts cacheRows bs (Z.of_nat (length lens)) size). split.
  { rewrite (tiling_func_spec _ _ _ _ _ _ _ _ _ Hx) by lia. rewrite Hbs, Hts, u32_id by (unfold fits_u32; lia).
    by rewrite Z.gtb_ltb, (proj2 (Z.ltb_ge _ _)) by (unfold MAX_UB_USE_SIZE; lia). }
  intros e ub v order g He Hperm Hlen.
  pose proof (call_store_env slots bs cores rows ts cacheRows size Hc lens keys caches Hlk Hlc Hp Hg HG ws e He Hsz) as Henv.
  pose proof He as [L1 L2 [L3 _] _ L5 L6 L7]. assert (ssizeofT e = size) as Hse by (cbn in L2; congruence).
  assert (sk_tokenSize (std e) = ts) as Htd by (rewrite L1; exact Hts).
  assert (tokenBuf_bytes e = bs * ts * size) as Hbytes.
  { rewrite (tokenBuf_bytes_eq e rows cacheRows Henv), Htd, Hse, L1. cbn [store_launch sl_tiling sk_blockTableSize]. by rewrite Hbs. }
  rewrite <- Hbytes. split; [intros Hub|intros Hub; apply (store_grid_full e rows cacheRows Henv); [done|by rewrite L3]].
  destruct (store_grid_spec e rows cacheRows Henv ub v order g) as (g' & Hrun & Hinv); [done|by rewrite L3|by rewrite Htd|].
  exists g'. split_and!; [done|rewrite Hlen, <- Htd; apply Hinv|]. rewrite <- Htd.
  apply (store_inv_scattered e slots bs lens keys caches cacheRows g g'); try done; [|lia].
  rewrite L1. cbn [store_launch sl_tiling sk_groupInfoLen]. apply u32_id. unfold fits_u32. lia.
Qed.

(** ** A concrete call: seven tokens of 16 half-precision elements on two cores *)

Definition store_context_example (cores : Z) (shape : list Z) (bs groups : Z) : TilingContext :=
  {| GetPlatformInfoPtr := Some (Build_PlatformInfo cores cores 196608);
     GetInputShape := fun i => if i =? DIM_0 then Some shape else if i =? DIM_1 then Some [3; 8; 2; 8] else Some [groups];
     GetOptionalInputShape := fun _ => None;
     GetOutputShape := fun _ => None;
     GetInputDesc := fun _ => Some DT_FLOAT16;
     GetOptionalInputDesc := fun _ => None;
     GetOutputDesc := fun _ => None;
     GetOptionalInputTensor := fun _ => None;
     HasAttrs := true; GetAttrInt := fun _ => Some bs; HasTilingData := true; HasWorkspaceSizes := true;
     SetScheduleModeOk := true |}.

Lemma store_context_ok groups : store_context (store_context_example 2 [7; 2; 8] 8 groups) 2 7 16 24 8 groups 2.
Proof.
  split.
  - eexists. split; reflexivity.
  - exists 2, [8]. split_and!; [reflexivity|reflexivity|simpl; lia|]. intros d Hd%list_elem_of_singleton. subst. lia.
  - exists 3, 8, [2; 8]. split_and!; [reflexivity|reflexivity|simpl; lia].
  - split; reflexivity.
  - split; reflexivity.
  - exists DT_FLOAT16. split; reflexivity.
  - exists []. reflexivity.
Qed.

(** Deciding that slots are distinct and inside the cache. *)
Definition distinct_check (slots : list Z) (cacheRows : Z) : bool :=
  let r := zrange 0 (slot_mapping_len slots) in
  forallb (fun i => (slot slots i <? cacheRows) &&
    forallb (fun k => implb ((0 <=? slot slots i) && (slot slots i =? slot slots k)) (i =? k)) r) r.

Lemma distinct_check_ok slots cacheRows : distinct_check slots cacheRows = true ->
  (forall i k, 0 <= i < slot_mapping_len slots -> 0 <= k < slot_mapping_len slots ->
     0 <= slot slots i -> slot slots i = slot slots k -> i = k) /\
  (forall i, 0 <= i < slot_mapping_len slots -> slot slots i < cacheRows).
Proof.
  unfold distinct_check. intros H. rewrite forallb_forall in H.
  assert (forall x, 0 <= x < slot_mapping_len slots -> In x (zrange 0 (slot_mapping_len slots))) as Hin.
  { intros x Hx. apply list_elem_of_In. by apply elem_of_zrange. }
  split.
  - intros i k Hi Hk Hs Heq. specialize (H i (Hin i Hi)). bool_prop. rewrite forallb_forall in *.
    match goal with H : forall x, _ -> implb _ _ = true |- _ => specialize (H k (Hin k Hk)) as Hik end.
    rewrite (proj2 (Z.leb_le 0 _)), (proj2 (Z.eqb_eq _ _)) in Hik by done. simpl in Hik. by bool_prop.
  - intros i Hi. specialize (H i (Hin i Hi)). by bool_prop.
Qed.

Lemma store_call_example : store_call slots_example 8 2 7 16 24 2.
Proof.
  destruct (distinct_check_ok slots_example 24) as [H1 H2]; [vm_compute; reflexivity|].
  split; [exact slots_fit_example|exact in_order_example|exact H1|exact H2|discriminate|reflexivity|split_and!; reflexivity|split; [reflexivity|discriminate]].
Qed.

Definition senv_example (la : StoreLaunch) (lens keys caches : list Z) : SEnv Z :=
  Build_SEnv (Tensor 112 (fun i => 1000 + i)) (list_tensor lens) (list_tensor keys) (list_tensor caches)
    (sl_tiling la) 2 0 (sl_blockDim la).

(** Token 3 has slot 9, row 10 has no token. *)
Lemma store_call_correct_witness :
  exists lens keys caches la g', store_kv_block_pre slots_example 8 = Ok (lens, keys, caches) /\
    StoreKVBlockTilingFunc 16 (store_context_example 2 [7; 2; 8] 8 (Z.of_nat (length lens))) = Ok la /\
    run_blocks (store_core (senv_example la lens keys caches) 196608 0) [1; 0] (Tensor 384 (fun i => i)) = Ok g' /\
    t_at g' (9 * 16 + 5) = 1000 + (3 * 16 + 5) /\ t_at g' (10 * 16 + 5) = 10 * 16 + 5.
Proof.
  destruct (store_call_correct (T := Z) 16 slots_example 8 2 7 16 24 2 store_call_example eq_refl) as (lens & keys & caches & Hpre & Hrest);
    [discriminate|].
  assert (lens = [2; 1; 1; 2]) as -> by (vm_compute in Hpre; congruence).
  destruct (Hrest _ (store_context_ok 4)) as (la & Hla & Hrun). assert (la = store_launch 16 2 7 16 24 8 4 2) as -> by (vm_compute in Hla; injection Hla as <-; reflexivity).
  destruct (Hrun (senv_example (store_launch 16 2 7 16 24 8 4 2) [2; 1; 1; 2] keys caches) 196608 0 [1; 0] (Tensor 384 (fun i => i))) as [Hfit _].
  - split; try reflexivity. split; reflexivity.
  - exact (Permutation_app_comm [1] [0]).
  - reflexivity.
  - destruct Hfit as (g' & Hg & _ & Hin & Hout); [discriminate|]. exists [2; 1; 1; 2], keys, caches. exists (store_launch 16 2 7 16 24 8 4 2), g'. split; [exact Hpre|]. split; [exact Hla|]. split; [exact Hg|]. split.
    + pose proof (Hin 3 5) as H3. change (slot slots_example 3) with 9 in H3. cbn [senv_example keyInputGt t_at] in H3.
      rewrite H3 by (unfold slot_mapping_len; simpl; lia). reflexivity.
    + pose proof (Hout 10 5) as H10. cbn [t_at] in H10. rewrite H10; [reflexivity|lia|]. intros i Hi. change (slot_mapping_len slots_example) with 7 in Hi.
      assert (i = 0 \/ i = 1 \/ i = 2 \/ i = 3 \/ i = 4 \/ i = 5 \/ i = 6) as Hc by lia.
      destruct Hc as [->|[->|[->|[->|[->|[->| ->]]]]]]; discriminate.
Defined.

Lemma StoreKVBlockTilingFunc_split_witness :
  exists la, StoreKVBlockTilingFunc 16 (store_context_example 2 [7; 2; 8] 8 3) = Ok la /\
    sk_corePerNum (sl_tiling la) * 2 + sk_coreTail (sl_tiling la) = 3.
Proof.
  destruct (StoreKVBlockTilingFunc_split 16 _ 2 7 16 24 8 3 2 (store_context_ok 3)) as [_ Hok]; [lia|].
  assert (StoreKVBlockTilingFunc 16 (store_context_example 2 [7; 2; 8] 8 3) = Ok (store_launch 16 2 7 16 24 8 3 2)) as Hla
    by (vm_compute; reflexivity).
  exists (store_launch 16 2 7 16 24 8 3 2). split; [exact Hla|].
  destruct (Hok _ Hla) as (_ & _ & Hg & _ & _ & Hsum & _). rewrite Hsum, Hg. reflexivity.
Defined.

(** On 50 cores the remainder of 49 groups is not passed on: no core gets one. *)
Example tail_of_48_dropped :
  match StoreKVBlockTilingFunc 16 (store_context_example 50 [7; 2; 8] 8 49) with
  | Ok la => sk_groupInfoLen (sl_tiling la) = 49 /\ sk_corePerNum (sl_tiling la) = 0 /\ sk_coreTail (sl_tiling la) = 0
  | Err _ => False
  end.
Proof. vm_compute. repeat split. Qed.

(** The limit of the tiling function is in elements, the buffer in bytes: a block of
    131072 two-byte elements is accepted, and its buffer of 262144 bytes does not fit
    a unified buffer of 192 KiB. *)
Example block_exceeds_buffer :
  match StoreKVBlockTilingFunc 16 (store_context_example 40 [7; 8; 128] 128 3) with
  | Ok la => tokenBuf_bytes (senv_example la [] [] []) = 262144 /\
      store_core (senv_example la [] [] []) 196608 0 0 (Tensor 384 (fun i => i)) = Err UbExhausted
  | Err _ => False
  end.
Proof. vm_compute. repeat split. Qed.
