(* ===== verification/Eagle.v ===== *)
(** CopyAndExpandEagleInputs ([csrc/moe/copy_and_expand_eagle_inputs]): builds the
    inputs of the draft model of speculative decoding.  The tokens of each
    request are copied, followed by the token just sampled, slots for parallel
    drafting and padding in place of rejected tokens.  Host functions and kernel. *)

From stdpp Require Import gmap.
From S2P Require Import Prelude AscendC TilingContext.

Record CopyAndExpandEagleInputsTilingData : Type := {
  ee_usedCoreNum : Z;
  ee_numReqs : Z;
  ee_reqsPerCore : Z;
  ee_remainderReqs : Z;
  ee_paddingTokenId : Z;
  ee_parallelDraftingTokenId : Z;
  ee_numPaddingSlotsPerReq : Z;
  ee_totalInputTokens : Z;
  ee_shiftInputIds : Z;
  ee_totalDraftTokens : Z }.

(** ** Host *)

Definition IDX_TARGET_TOKEN_IDS : Z := 0.
Definition IDX_QUERY_START_LOC : Z := 3.
Definition ATTR_NUM_PADDING_SLOTS : Z := 2.
Definition ATTR_SHIFT_INPUT_IDS : Z := 3.

(** The core count: from the compile information, or else from the platform. *)
Definition GetCompileParameters (compileInfo : option Z) (context : TilingContext) : HostM Z :=
  match compileInfo with
  | Some totalCoreNum => Ok totalCoreNum
  | None => pi ← deref (GetPlatformInfoPtr context) "platformInfo"; Ok (GetCoreNum pi)
  end.

(** Dimension 0 of a tensor, if there is one. *)
Definition dim0_of (shape : option (list Z)) : option Z :=
  match shape with
  | Some s => if GetDimNum s >? 0 then Some (GetDim s 0) else None
  | None => None
  end.

Record EagleLaunch : Type := {
  el_tiling : CopyAndExpandEagleInputsTilingData;
  el_tilingKey : Z;
  el_blockDim : Z }.

(** Attributes are 64-bit in the graph and read as [int32_t]. *)
Definition EagleTilingFunc (compileInfo : option Z) (context : TilingContext) : HostM EagleLaunch :=
  _ ← GetCompileParameters compileInfo context;
  let numReqs := match dim0_of (GetInputShape context IDX_QUERY_START_LOC) with
                 | Some dim0 => if dim0 >? 1 then u32 (dim0 - 1) else 0
                 | None => 0
                 end in
  deref (if HasAttrs context then Some tt else None) "attrs" ;;
  paddingTokenId ← deref (GetAttrInt context 0) "attr 0";
  parallelDraftingTokenId ← deref (GetAttrInt context 1) "attr 1";
  numPaddingSlotsPerReq ← deref (GetAttrInt context 2) "attr 2";
  shiftInputIds ← deref (GetAttrInt context 3) "attr 3";
  totalInputTokens ← deref (GetAttrInt context 4) "attr 4";
  let usedCoreNum := 1 in
  let reqsPerCore := numReqs /c usedCoreNum in
  let remainderReqs := numReqs %c usedCoreNum in
  let totalDraftTokens := match dim0_of (GetOutputShape context 0) with Some d => u32 d | None => 0 end in
  deref (if HasTilingData context then Some tt else None) "rawTilingData" ;;
  Ok {| el_tiling :=
          {| ee_usedCoreNum := usedCoreNum; ee_numReqs := numReqs; ee_reqsPerCore := reqsPerCore;
             ee_remainderReqs := remainderReqs; ee_paddingTokenId := i32 paddingTokenId;
             ee_parallelDraftingTokenId := i32 parallelDraftingTokenId;
             ee_numPaddingSlotsPerReq := u32 (i32 numPaddingSlotsPerReq);
             ee_totalInputTokens := u32 (i32 totalInputTokens);
             ee_shiftInputIds := if negb (shiftInputIds =? 0) then 1 else 0;
             ee_totalDraftTokens := totalDraftTokens |};
        el_tilingKey := 1;
        el_blockDim := usedCoreNum |}.

(** Shape inference: the extents of the six outputs. *)
Definition InferShape4CopyAndExpandEagleInputs (context : TilingContext) : HostM (list Z) :=
  targetTokenIdsShape ← OP_CHECK_NULL (GetInputShape context IDX_TARGET_TOKEN_IDS) "targetTokenIdsShape is nullptr!";
  queryStartLocShape ← OP_CHECK_NULL (GetInputShape context IDX_QUERY_START_LOC) "queryStartLocShape is nullptr!";
  let totalInputTokens := GetDim targetTokenIdsShape 0 in
  let numReqs := GetDim queryStartLocShape 0 - 1 in
  OP_CHECK_IF (negb (HasAttrs context)) "attrs is nullptr!" ;;
  numPaddingSlotsPerReq ← deref (GetAttrInt context ATTR_NUM_PADDING_SLOTS) "numPaddingSlotsPerReq";
  shiftInputIds ← deref (GetAttrInt context ATTR_SHIFT_INPUT_IDS) "shiftInputIds";
  let totalDraftTokens :=
    totalInputTokens + (numPaddingSlotsPerReq - (if negb (shiftInputIds =? 0) then 1 else 0)) * numReqs in
  check_each (zrange 0 6) (fun i =>
    OP_CHECK_IF (match GetOutputShape context i with Some _ => false | None => true end) "outShapes[i] is nullptr!") ;;
  Ok [totalDraftTokens; totalDraftTokens; totalDraftTokens; totalDraftTokens;
      numReqs * numPaddingSlotsPerReq; totalInputTokens].

(** ** State of a core *)

Inductive EBuf : Type :=
  | qsBuf | qeBuf | ntBuf | inputBuf | outIdsBuf | outPosBuf | outRejBuf | outMskBuf | ntiBuf | hsmBuf.
#[global] Instance EBuf_eq_dec : EqDecision EBuf.
Proof. solve_decision. Defined.

Inductive EOut : Type :=
  | gmOutInputIds | gmOutPositions | gmOutIsRejectedTokenMask | gmOutIsMaskedTokenMask
  | gmOutNewTokenIndices | gmOutHiddenStateMapping.
#[global] Instance EOut_eq_dec : EqDecision EOut.
Proof. solve_decision. Defined.

Record ES : Type := {
  e_ub : EBuf -> tensor Z;
  e_gm : EOut -> tensor Z }.

(** Buffer [b] and output [o]. *)
Definition ubuf (b : EBuf) : lens ES (tensor Z) :=
  Lens (fun s => e_ub s b) (fun t s => {| e_ub := upd (e_ub s) b t; e_gm := e_gm s |}).
Definition gout (o : EOut) : lens ES (tensor Z) :=
  Lens (fun s => e_gm s o) (fun t s => {| e_ub := e_ub s; e_gm := upd (e_gm s) o t |}).

Record EEnv : Type := {
  gmTargetTokenIds : tensor Z;
  gmTargetPositions : tensor Z;
  gmNextTokenIds : tensor Z;
  gmQueryStartLoc : tensor Z;
  gmQueryEndLoc : tensor Z;
  etd : CopyAndExpandEagleInputsTilingData;
  eBlockIdx : Z }.

(** ** Kernel *)

Definition ONE_BLK_SIZE : Z := 32.
Definition MAX_PER_REQ : Z := 4096.
Definition EagleAlignUp (x a : Z) : Z := u32 (u32 (x + a - 1) /c a * a).

Section Kernel.
Variable e : EEnv.
Abbreviation td := (etd e).
Abbreviation K := (M ES fault_kind).
Abbreviation P := (ee_numPaddingSlotsPerReq td).

(** The requests of this core. *)
Definition myStartReq : Z :=
  let coreId := eBlockIdx e in
  if coreId <? ee_remainderReqs td then u32 (coreId * (ee_reqsPerCore td + 1))
  else u32 (ee_remainderReqs td * (ee_reqsPerCore td + 1) + (coreId - ee_remainderReqs td) * ee_reqsPerCore td).
Definition myNumReqs : Z :=
  if eBlockIdx e <? ee_remainderReqs td then u32 (ee_reqsPerCore td + 1) else ee_reqsPerCore td.

(** Elements of each buffer that [Init] asks for. *)
Definition buf_elems (b : EBuf) : Z :=
  match b with
  | qsBuf => EagleAlignUp ((myNumReqs + 1) * 4) ONE_BLK_SIZE /c 4
  | qeBuf | ntBuf => EagleAlignUp (myNumReqs * 4) ONE_BLK_SIZE /c 4
  | inputBuf | outIdsBuf | outPosBuf | hsmBuf => EagleAlignUp (MAX_PER_REQ * 4) ONE_BLK_SIZE /c 4
  | outRejBuf | outMskBuf => EagleAlignUp MAX_PER_REQ ONE_BLK_SIZE
  | ntiBuf => EagleAlignUp (64 * 4) ONE_BLK_SIZE /c 4
  end.

(** The calls of [InitBuffer], in bytes and in the order of the source. *)
Definition ebuf_bytes (b : EBuf) : Z := match b with outRejBuf | outMskBuf => buf_elems b | _ => buf_elems b * 4 end.

Definition eagle_buffers : list EBuf :=
  [qsBuf; qeBuf; ntBuf; inputBuf; outIdsBuf; outPosBuf; outRejBuf; outMskBuf; ntiBuf; hsmBuf].

(** The bytes of unified buffer that they take. *)
Definition eagle_ub_bytes : Z := foldr Z.add 0 (ub_blocks <$> (ebuf_bytes <$> eagle_buffers)).

Definition DataCopyIn (dst : lens ES (tensor Z)) (src : tensor Z) (gmOffset count : Z) : K unit :=
  if count <=? 0 then mret tt
  else DataCopy 4 dst 0 (fun _ => src) gmOffset ((count + 8 - 1) /c 8 * 8).

(** The pipelines are drained before and after the transfer. *)
Definition DataCopyOut_int32 (dst : lens ES (tensor Z)) (src : lens ES (tensor Z)) (gmOffset count : Z) : K unit :=
  if count <=? 0 then mret tt
  else DataCopyPad dst gmOffset (lget src) 0 (u32 (count * 4) /c 4).

Definition DataCopyOut_int8 (dst : lens ES (tensor Z)) (src : lens ES (tensor Z)) (gmOffset count : Z) : K unit :=
  if count <=? 0 then mret tt
  else DataCopyPad dst gmOffset (lget src) 0 (u32 (count * 1) /c 1).

Definition EagleInit : K unit :=
  when (myNumReqs >? 0)
    (DataCopyIn (ubuf qsBuf) (gmQueryStartLoc e) (i32 myStartReq) (i32 (myNumReqs + 1)) ;;
     DataCopyIn (ubuf qeBuf) (gmQueryEndLoc e) (i32 myStartReq) (i32 myNumReqs) ;;
     DataCopyIn (ubuf ntBuf) (gmNextTokenIds e) (i32 myStartReq) (i32 myNumReqs)).

Definition ReadQS (rLocal : Z) : K Z := GetValue (lget (ubuf qsBuf)) rLocal.
Definition ReadNextQS (rLocal : Z) : K Z := GetValue (lget (ubuf qsBuf)) (u32 (rLocal + 1)).
Definition ReadQE (rLocal : Z) : K Z := GetValue (lget (ubuf qeBuf)) rLocal.
Definition ReadNT (rLocal : Z) : K Z := GetValue (lget (ubuf ntBuf)) rLocal.

(** Slot [j] of the output of a request. *)
Definition PutSlot (j id pos rej msk : Z) : K unit :=
  SetValue (ubuf outIdsBuf) j id ;;
  SetValue (ubuf outPosBuf) j pos ;;
  SetValue (ubuf outRejBuf) j rej ;;
  SetValue (ubuf outMskBuf) j msk.

(** The slots after the valid tokens: bonus token, parallel drafting, rejected. *)
Definition FillDraft (startPos numValid nextTokenId numRejected : Z) : K unit :=
  PutSlot numValid nextTokenId (i32 (startPos + numValid)) 0 0 ;;
  for_range 1 (i32 P) (fun k =>
    let j := i32 (numValid + k) in
    PutSlot j (ee_parallelDraftingTokenId td) (i32 (startPos + j)) 0 1) ;;
  for_range 0 numRejected (fun k =>
    let j := i32 (numValid + i32 P + k) in
    PutSlot j (ee_paddingTokenId td) 0 1 0).

Definition WriteSlots (outputStart len : Z) : K unit :=
  DataCopyOut_int32 (gout gmOutInputIds) (ubuf outIdsBuf) outputStart len ;;
  DataCopyOut_int32 (gout gmOutPositions) (ubuf outPosBuf) outputStart len ;;
  DataCopyOut_int8 (gout gmOutIsRejectedTokenMask) (ubuf outRejBuf) outputStart len ;;
  DataCopyOut_int8 (gout gmOutIsMaskedTokenMask) (ubuf outMskBuf) outputStart len.

Definition WriteNti (r outputStart numValid : Z) : K unit :=
  SetValue (ubuf ntiBuf) 0 (i32 (outputStart + numValid)) ;;
  for_range 1 (i32 P) (fun k => SetValue (ubuf ntiBuf) k (i32 (outputStart + numValid + k))) ;;
  DataCopyOut_int32 (gout gmOutNewTokenIndices) (ubuf ntiBuf) (i32 (i32 r * i32 P)) (i32 P).

Definition clamp0 (z : Z) : Z := if z <? 0 then 0 else z.

Definition ProcessOneRequestShiftFalse (r rLocal : Z) : K unit :=
  queryStart ← ReadQS rLocal;
  nextQueryStart ← ReadNextQS rLocal;
  queryEnd ← ReadQE rLocal;
  let numRejected := clamp0 (i32 (nextQueryStart - queryEnd - 1)) in
  let numValid := clamp0 (i32 (queryEnd - queryStart + 1)) in
  let outputStart := i32 (queryStart + i32 r * i32 P) in
  let outputLen := i32 (numValid + i32 P + numRejected) in
  let numInputTokensForReq := i32 (nextQueryStart - queryStart) in
  when (numInputTokensForReq >? 0) (DataCopyIn (ubuf inputBuf) (gmTargetTokenIds e) queryStart numInputTokensForReq) ;;
  DataCopyIn (ubuf hsmBuf) (gmTargetPositions e) queryStart 1 ;;
  startPos ← GetValue (lget (ubuf hsmBuf)) 0;
  nextTokenId ← ReadNT rLocal;
  for_range 0 numValid (fun j =>
    let inIdx := if j >=? numInputTokensForReq then i32 (numInputTokensForReq - 1) else j in
    id ← GetValue (lget (ubuf inputBuf)) inIdx;
    PutSlot j id (i32 (startPos + j)) 0 0) ;;
  FillDraft startPos numValid nextTokenId numRejected ;;
  WriteSlots outputStart outputLen ;;
  WriteNti r outputStart numValid.

Definition ProcessOneRequestShiftTrue (r rLocal : Z) : K unit :=
  queryStart ← ReadQS rLocal;
  nextQueryStart ← ReadNextQS rLocal;
  queryEnd ← ReadQE rLocal;
  let numRejected := clamp0 (i32 (nextQueryStart - queryEnd - 1)) in
  let numValid := clamp0 (i32 (queryEnd - queryStart)) in
  let outputStart := i32 (queryStart + i32 r * (i32 P - 1)) in
  let outputLen := i32 (numValid + i32 P + numRejected) in
  let numInputTokensForReq := i32 (nextQueryStart - queryStart) in
  let readStart := i32 (queryStart + 1) in
  let readCount :=
    if i32 (readStart + numValid) >? i32 (ee_totalInputTokens td)
    then clamp0 (i32 (i32 (ee_totalInputTokens td) - readStart)) else numValid in
  when (readCount >? 0) (DataCopyIn (ubuf inputBuf) (gmTargetTokenIds e) readStart readCount) ;;
  DataCopyIn (ubuf hsmBuf) (gmTargetPositions e) queryStart 1 ;;
  startPos ← GetValue (lget (ubuf hsmBuf)) 0;
  nextTokenId ← ReadNT rLocal;
  for_range 0 numValid (fun j =>
    let inIdx := if (j >=? readCount) && (readCount >? 0) then i32 (readCount - 1) else j in
    id ← (if readCount >? 0 then GetValue (lget (ubuf inputBuf)) inIdx else mret 0);
    PutSlot j id (i32 (startPos + j)) 0 0) ;;
  FillDraft startPos numValid nextTokenId numRejected ;;
  let outputLenToWrite :=
    if (nextQueryStart =? queryEnd) && (u32 (r + 1) <? ee_numReqs td) then i32 (outputLen - 1) else outputLen in
  WriteSlots outputStart outputLenToWrite ;;
  WriteNti r outputStart numValid ;;
  for_range 0 numInputTokensForReq (fun j => SetValue (ubuf hsmBuf) j (i32 (outputStart + j))) ;;
  DataCopyOut_int32 (gout gmOutHiddenStateMapping) (ubuf hsmBuf) queryStart numInputTokensForReq.

Definition ProcessShiftFalse : K unit :=
  for_range 0 myNumReqs (fun rLocal => ProcessOneRequestShiftFalse (u32 (myStartReq + rLocal)) rLocal).

(** The slots after the last request, on the core that has it. *)
Definition ZeroTail : K unit :=
  let lastLocal := u32 (myNumReqs - 1) in
  lastQs ← GetValue (lget (ubuf qsBuf)) lastLocal;
  lastNqs ← GetValue (lget (ubuf qsBuf)) (u32 (lastLocal + 1));
  lastQe ← GetValue (lget (ubuf qeBuf)) lastLocal;
  let lastNumValid := clamp0 (i32 (lastQe - lastQs)) in
  let lastNumRejected := clamp0 (i32 (lastNqs - lastQe - 1)) in
  let lastOutputLen := i32 (lastNumValid + i32 P + lastNumRejected) in
  let lastOutputStart := i32 (lastQs + i32 (u32 (myStartReq + lastLocal)) * (i32 P - 1)) in
  let writtenEnd := i32 (lastOutputStart + lastOutputLen) in
  let tailCount := i32 (i32 (ee_totalDraftTokens td) - writtenEnd) in
  when (tailCount >? 0)
    (for_range 0 tailCount (fun j =>
       SetValue (ubuf outIdsBuf) j 0 ;;
       SetValue (ubuf outRejBuf) j 0) ;;
     DataCopyOut_int32 (gout gmOutInputIds) (ubuf outIdsBuf) writtenEnd tailCount ;;
     DataCopyOut_int32 (gout gmOutPositions) (ubuf outIdsBuf) writtenEnd tailCount ;;
     DataCopyOut_int8 (gout gmOutIsRejectedTokenMask) (ubuf outRejBuf) writtenEnd tailCount ;;
     DataCopyOut_int8 (gout gmOutIsMaskedTokenMask) (ubuf outRejBuf) writtenEnd tailCount).

Definition ProcessShiftTrue : K unit :=
  for_range 0 myNumReqs (fun rLocal => ProcessOneRequestShiftTrue (u32 (myStartReq + rLocal)) rLocal) ;;
  when ((u32 (myStartReq + myNumReqs) =? ee_numReqs td) && (ee_totalDraftTokens td >? 0)) ZeroTail.

(** The kernel entry on a core with [ub] bytes of unified buffer; [key] is the tiling key. *)
Definition copy_and_expand_eagle_inputs (ub key : Z) : K unit :=
  if eBlockIdx e >=? ee_usedCoreNum td then mret tt
  else if key =? 1 then
    TakeBuffers ub (ebuf_bytes <$> eagle_buffers) ;;
    EagleInit ;;
    (if ee_shiftInputIds td =? 0 then ProcessShiftFalse else ProcessShiftTrue)
  else mret tt.
End Kernel.
