(* ===== verification/EagleSpec.v ===== *)
(** CopyAndExpandEagleInputs: what each output slot must hold, and that a core
    writes it. *)

From stdpp Require Import gmap.
From S2P Require Import Prelude AscendC TilingContext Eagle.

(** ** Frames *)

(** Only the buffers [bs] may have changed; no buffer changes its size. *)
Definition ub_keeps (bs : list EBuf) (s s' : ES) : Prop :=
  (forall b, t_len (e_ub s' b) = t_len (e_ub s b)) /\ (forall b, b ∉ bs -> e_ub s' b = e_ub s b).

Lemma ub_keeps_refl bs s : ub_keeps bs s s.
Proof. done. Qed.

Lemma ub_keeps_trans bs s1 s2 s3 : ub_keeps bs s1 s2 -> ub_keeps bs s2 s3 -> ub_keeps bs s1 s3.
Proof. intros [L1 S1] [L2 S2]. split; intros b; [by rewrite L2|]. intros Hb. by rewrite S2, S1. Qed.

Lemma ub_keeps_mono bs bs' s s' : bs ⊆ bs' -> ub_keeps bs s s' -> ub_keeps bs' s s'.
Proof. intros Hsub [L S]. split; [done|]. set_solver. Qed.

Lemma wp_Set b i v (Q : unit -> ES -> Prop) s :
  0 <= i < t_len (e_ub s b) ->
  (forall s', ub_keeps [b] s s' -> e_gm s' = e_gm s -> t_at (e_ub s' b) i = v ->
     (forall k, k <> i -> t_at (e_ub s' b) k = t_at (e_ub s b) k) -> Q tt s') ->
  wp (SetValue (ubuf b) i v) Q s.
Proof.
  intros Hi HQ. apply wp_SetValue; [done|]. apply HQ; [|done| |].
  - split; intros b'; cbn [ubuf lset e_ub]; unfold upd; case_decide; subst; try done. set_solver.
  - cbn [ubuf lset e_ub]. rewrite upd_eq. apply write_one_in.
  - intros k Hk. cbn [ubuf lset e_ub]. rewrite upd_eq. by apply write_one_out.
Qed.

(** ** Rows of slots *)

Abbreviation slots4 := [outIdsBuf; outPosBuf; outRejBuf; outMskBuf].
Abbreviation outs4 := [gmOutInputIds; gmOutPositions; gmOutIsRejectedTokenMask; gmOutIsMaskedTokenMask].

Definition cell (s : ES) (j : Z) : Z * Z * Z * Z :=
  (t_at (e_ub s outIdsBuf) j, t_at (e_ub s outPosBuf) j, t_at (e_ub s outRejBuf) j, t_at (e_ub s outMskBuf) j).
Definition out_cell (g : EOut -> tensor Z) (i : Z) : Z * Z * Z * Z :=
  (t_at (g gmOutInputIds) i, t_at (g gmOutPositions) i, t_at (g gmOutIsRejectedTokenMask) i, t_at (g gmOutIsMaskedTokenMask) i).

Definition filled (f : Z -> Z * Z * Z * Z) (n : Z) (s : ES) : Prop := forall i, 0 <= i < n -> cell s i = f i.

(** A change of the slot buffers at [j] only. *)
Definition puts (j : Z) (v : Z * Z * Z * Z) (s s' : ES) : Prop :=
  ub_keeps slots4 s s' /\ e_gm s' = e_gm s /\ cell s' j = v /\ forall k, k <> j -> cell s' k = cell s k.

Definition slots_len (s : ES) : Prop := forall b, b ∈ slots4 -> t_len (e_ub s b) = MAX_PER_REQ.

Lemma slots_len_keeps bs s s' : ub_keeps bs s s' -> slots_len s -> slots_len s'.
Proof. intros [L _] H b Hb. by rewrite L, H. Qed.

Lemma PutSlot_spec j a b c d s :
  slots_len s -> 0 <= j < MAX_PER_REQ -> wp (PutSlot j a b c d) (fun _ s' => puts j (a, b, c, d) s s') s.
Proof.
  intros Hl Hj. unfold PutSlot.
  apply wp_bind, wp_Set; [rewrite Hl by set_solver; done|]. intros s1 [L1 S1] G1 V1 O1.
  apply wp_bind, wp_Set; [rewrite L1, Hl by set_solver; done|]. intros s2 [L2 S2] G2 V2 O2.
  apply wp_bind, wp_Set; [rewrite L2, L1, Hl by set_solver; done|]. intros s3 [L3 S3] G3 V3 O3.
  apply wp_Set; [rewrite L3, L2, L1, Hl by set_solver; done|]. intros s4 [L4 S4] G4 V4 O4.
  split_and!.
  - split; intros x; [by rewrite L4, L3, L2, L1|]. intros Hx. rewrite S4, S3, S2, S1 by set_solver. done.
  - congruence.
  - unfold cell. rewrite V4, (S4 outRejBuf), V3, (S4 outPosBuf), (S3 outPosBuf), V2, (S4 outIdsBuf), (S3 outIdsBuf), (S2 outIdsBuf), V1
      by set_solver. done.
  - intros k Hk. unfold cell. rewrite O4, (S4 outRejBuf), O3, (S4 outPosBuf), (S3 outPosBuf), O2, (S4 outIdsBuf), (S3 outIdsBuf),
      (S2 outIdsBuf), O1, (S3 outMskBuf), (S2 outMskBuf), (S1 outMskBuf), (S2 outRejBuf), (S1 outRejBuf), (S1 outPosBuf) by set_solver.
    done.
Qed.

(** A loop that puts slots one after the other. *)
Lemma wp_fill (f : Z -> Z * Z * Z * Z) base lo hi (body : Z -> M ES fault_kind unit) s0 s (Q : unit -> ES -> Prop) :
  lo <= hi -> ub_keeps slots4 s0 s -> e_gm s = e_gm s0 -> filled f (base + lo) s ->
  (forall k s, lo <= k < hi -> ub_keeps slots4 s0 s -> wp (body k) (fun _ s' => puts (base + k) (f (base + k)) s s') s) ->
  (forall s', ub_keeps slots4 s0 s' -> e_gm s' = e_gm s0 -> filled f (base + hi) s' -> Q tt s') ->
  wp (for_range lo hi body) Q s.
Proof.
  intros Hle Hk Hg Hf Hbody HQ.
  apply (wp_for_range (fun k s => ub_keeps slots4 s0 s /\ e_gm s = e_gm s0 /\ filled f (base + k) s)); [done|done| |].
  - intros k s1 Hr (K1 & G1 & F1). eapply wp_mono; [by apply Hbody|]. intros [] s2 (K2 & G2 & V2 & O2).
    split_and!; [by eapply ub_keeps_trans|congruence|]. intros i Hi.
    destruct (decide (i = base + k)) as [->|]; [done|]. rewrite O2 by done. apply F1. lia.
  - intros s' (K1 & G1 & F1). by apply HQ.
Qed.

(** A transfer from a buffer to an output. *)
Lemma wp_CopyOut32 o b off n (Q : unit -> ES -> Prop) s :
  0 <= off -> 0 < n < 2 ^ 30 -> off + n <= t_len (e_gm s o) -> n <= t_len (e_ub s b) ->
  Q tt {| e_ub := e_ub s; e_gm := upd (e_gm s) o (write_range (e_gm s o) off n (t_at (e_ub s b))) |} ->
  wp (DataCopyOut_int32 (gout o) (ubuf b) off n) Q s.
Proof.
  intros Ho Hn Hg Hb HQ. unfold DataCopyOut_int32. rewrite (proj2 (Z.leb_gt n 0)) by lia.
  rewrite u32_id, Z.quot_mul by (done || unfold fits_u32; lia). apply wp_DataCopyPad; [apply in_tensor_true; simpl; lia..|exact HQ].
Qed.

Lemma wp_CopyOut8 o b off n (Q : unit -> ES -> Prop) s :
  0 <= off -> 0 < n < 2 ^ 30 -> off + n <= t_len (e_gm s o) -> n <= t_len (e_ub s b) ->
  Q tt {| e_ub := e_ub s; e_gm := upd (e_gm s) o (write_range (e_gm s o) off n (t_at (e_ub s b))) |} ->
  wp (DataCopyOut_int8 (gout o) (ubuf b) off n) Q s.
Proof.
  intros Ho Hn Hg Hb HQ. unfold DataCopyOut_int8. rewrite (proj2 (Z.leb_gt n 0)) by lia.
  rewrite u32_id, Z.quot_mul by (done || unfold fits_u32; lia). apply wp_DataCopyPad; [apply in_tensor_true; simpl; lia..|exact HQ].
Qed.

(** The four slot outputs after [n] slots [f] were written at [off]. *)
Definition wrote (off n : Z) (f : Z -> Z * Z * Z * Z) (g g' : EOut -> tensor Z) : Prop :=
  (forall o, t_len (g' o) = t_len (g o)) /\ (forall o, o ∉ outs4 -> g' o = g o) /\
  (forall j, 0 <= j < n -> out_cell g' (off + j) = f j) /\
  (forall i, i < off \/ off + n <= i -> out_cell g' i = out_cell g i).

(** Writing the rows [r1] to [r4] to the four outputs. *)
Lemma wrote_intro off n f (g : EOut -> tensor Z) (r1 r2 r3 r4 : Z -> Z) :
  (forall j, 0 <= j < n -> (r1 j, r2 j, r3 j, r4 j) = f j) ->
  wrote off n f g (upd (upd (upd (upd g gmOutInputIds (write_range (g gmOutInputIds) off n r1))
    gmOutPositions (write_range (g gmOutPositions) off n r2))
    gmOutIsRejectedTokenMask (write_range (g gmOutIsRejectedTokenMask) off n r3))
    gmOutIsMaskedTokenMask (write_range (g gmOutIsMaskedTokenMask) off n r4)).
Proof.
  intros Hf. set (g' := upd _ _ _).
  assert (forall i, out_cell g' i = (t_at (write_range (g gmOutInputIds) off n r1) i, t_at (write_range (g gmOutPositions) off n r2) i,
    t_at (write_range (g gmOutIsRejectedTokenMask) off n r3) i, t_at (write_range (g gmOutIsMaskedTokenMask) off n r4) i)) as Hc
    by (intros i; reflexivity).
  split_and!.
  - intros []; reflexivity.
  - intros o Ho. subst g'. rewrite !upd_ne by set_solver. done.
  - intros j Hj. rewrite <- Hf, Hc, !write_range_in by done. done.
  - intros i Hi. rewrite Hc, !write_range_out by done. done.
Qed.

(** The four transfers, from any slot buffers. *)
Lemma wp_write4 off n f b1 b2 b3 b4 s (Q : unit -> ES -> Prop) :
  slots_len s -> b1 ∈ slots4 -> b2 ∈ slots4 -> b3 ∈ slots4 -> b4 ∈ slots4 ->
  0 <= off -> 0 < n <= MAX_PER_REQ -> (forall o, o ∈ outs4 -> off + n <= t_len (e_gm s o)) ->
  (forall j, 0 <= j < n -> (t_at (e_ub s b1) j, t_at (e_ub s b2) j, t_at (e_ub s b3) j, t_at (e_ub s b4) j) = f j) ->
  (forall s', e_ub s' = e_ub s -> wrote off n f (e_gm s) (e_gm s') -> Q tt s') ->
  wp (DataCopyOut_int32 (gout gmOutInputIds) (ubuf b1) off n ≫= fun _ =>
      DataCopyOut_int32 (gout gmOutPositions) (ubuf b2) off n ≫= fun _ =>
      DataCopyOut_int8 (gout gmOutIsRejectedTokenMask) (ubuf b3) off n ≫= fun _ =>
      DataCopyOut_int8 (gout gmOutIsMaskedTokenMask) (ubuf b4) off n) Q s.
Proof.
  intros Hl H1 H2 H3 H4 Ho Hn Hg Hf HQ. unfold MAX_PER_REQ in *.
  assert (forall b, b ∈ slots4 -> n <= t_len (e_ub s b)) as Hb by (intros b Hb; rewrite Hl by done; unfold MAX_PER_REQ; lia).
  apply wp_bind, wp_CopyOut32; [done|lia|apply Hg; set_solver|by apply Hb|].
  apply wp_bind, wp_CopyOut32; [done|lia|apply Hg; set_solver|by apply Hb|].
  apply wp_bind, wp_CopyOut8; [done|lia|apply Hg; set_solver|by apply Hb|].
  apply wp_CopyOut8; [done|lia|apply Hg; set_solver|by apply Hb|].
  apply HQ; [done|]. exact (wrote_intro off n f (e_gm s) (t_at (e_ub s b1)) (t_at (e_ub s b2)) (t_at (e_ub s b3)) (t_at (e_ub s b4)) Hf).
Qed.

Lemma WriteSlots_spec off n f s (Q : unit -> ES -> Prop) :
  slots_len s -> 0 <= off -> 0 < n <= MAX_PER_REQ -> (forall o, o ∈ outs4 -> off + n <= t_len (e_gm s o)) -> filled f n s ->
  (forall s', e_ub s' = e_ub s -> wrote off n f (e_gm s) (e_gm s') -> Q tt s') ->
  wp (WriteSlots off n) Q s.
Proof. intros Hl Ho Hn Hg Hf HQ. apply (wp_write4 off n f); try done; set_solver. Qed.

(** ** The reference: what a slot must hold *)

Section Spec.
Variable e : EEnv.
Variable shift : bool.
Abbreviation td := (etd e).
Abbreviation P := (ee_numPaddingSlotsPerReq td).
Abbreviation R := (ee_numReqs td).
Abbreviation total := (ee_totalInputTokens td).
Abbreviation D := (ee_totalDraftTokens td).
Abbreviation qs := (t_at (gmQueryStartLoc e)).
Abbreviation qe := (t_at (gmQueryEndLoc e)).

(** In shift mode the first token of a request is left out. *)
Definition skip : Z := if shift then 1 else 0.
Definition valid (r : Z) : Z := qe r - qs r + 1 - skip.
Definition rejected (r : Z) : Z := clamp0 (qs (r + 1) - qe r - 1).

(** Request [r] has the slots from [start r] up to [finish r].  In shift mode a
    request without rejected tokens may end at the start of the next one
    ([queryEnd = nextQueryStart]); its last slot is then left to the next request,
    if there is one. *)
Definition start (r : Z) : Z := qs r + r * (P - skip).
Definition written (r : Z) : Z :=
  valid r + P + rejected r - (if shift && (qe r =? qs (r + 1)) && (r + 1 <? R) then 1 else 0).
Definition finish (r : Z) : Z := start r + written r.

(** Valid token [j] of request [r]; past the last input token that one is repeated. *)
Definition token_of (r j : Z) : Z :=
  if qs r + skip + j <? total then t_at (gmTargetTokenIds e) (qs r + skip + j)
  else if qs r + skip <? total then t_at (gmTargetTokenIds e) (total - 1) else 0.

(** (token, position, rejected, masked) of slot [j] of request [r]. *)
Definition slot_of (r j : Z) : Z * Z * Z * Z :=
  let position := t_at (gmTargetPositions e) (qs r) in
  if j <? valid r then (token_of r j, i32 (position + j), 0, 0)
  else if j =? valid r then (t_at (gmNextTokenIds e) r, i32 (position + j), 0, 0)
  else if j <? valid r + P then (ee_parallelDraftingTokenId td, i32 (position + j), 0, 1)
  else (ee_paddingTokenId td, 0, 1, 0).

(** What the caller promises and neither host nor kernel checks.  There is a
    request; each has tokens, and ends among them (in shift mode it may also end at
    the start of the next one); the output has room for the slots of the last one;
    a request with its new slots fits the buffers of a core; and, because transfers
    into the unified buffer are rounded up to eight elements, seven more elements
    can be read after each input. *)
Record eagle_input : Prop := {
  ev_reqs : 0 < R < 2 ^ 24;
  ev_pads : 1 <= P <= 64;
  ev_draft : finish (R - 1) <= D < 2 ^ 31;
  ev_qs0 : qs 0 = 0;
  ev_total : qs R = total /\ total < 2 ^ 30;
  ev_req : forall r, 0 <= r < R -> qs r < qs (r + 1) /\ 0 <= valid r /\ qe r < qs (r + 1) + skip;
  ev_fits : forall r, 0 <= r < R -> qs (r + 1) - qs r + P <= MAX_PER_REQ;
  ev_inputs : total + 7 <= t_len (gmTargetTokenIds e) /\ total + 7 <= t_len (gmTargetPositions e) /\
              R + 7 <= t_len (gmNextTokenIds e) /\ R + 7 <= t_len (gmQueryEndLoc e) /\ R + 8 <= t_len (gmQueryStartLoc e) }.

(** With what the tiling function promises. *)
Record eagle_env : Prop := {
  ev_core : eBlockIdx e = 0 /\ ee_usedCoreNum td = 1 /\ ee_reqsPerCore td = R /\ ee_remainderReqs td = 0;
  ev_shift : ee_shiftInputIds td = skip;
  ev_caller :> eagle_input }.

Context (He : eagle_env).

Lemma skip_cases : skip = 0 \/ skip = 1.
Proof. unfold skip. destruct shift; auto. Qed.

Lemma start_S r : start (r + 1) = start r + (qs (r + 1) - qs r + P - skip).
Proof. unfold start. lia. Qed.

Lemma qs_mono a b : 0 <= a <= b -> b <= R -> qs a <= qs b.
Proof.
  intros Ha Hb. replace b with (a + Z.of_nat (Z.to_nat (b - a))) in * by lia. generalize dependent (Z.to_nat (b - a)). intros n.
  induction n as [|n IH]; intros H1 H2; [by rewrite Z.add_0_r|]. etrans; [apply IH; lia|].
  destruct (ev_req He (a + Z.of_nat n)) as [Hlt _]; [lia|]. replace (a + Z.of_nat (S n)) with (a + Z.of_nat n + 1) by lia. lia.
Qed.

Lemma start_mono a b : 0 <= a <= b -> b <= R -> start a <= start b.
Proof.
  intros Ha Hb. pose proof (qs_mono a b Ha Hb). pose proof (ev_pads He). pose proof skip_cases. unfold start.
  assert (a * (P - skip) <= b * (P - skip)) by (apply Z.mul_le_mono_nonneg_r; lia). lia.
Qed.

(** Where request [r] ends. *)
Lemma finish_bounds r : 0 <= r < R ->
  start (r + 1) <= finish r <= start (r + 1) + 1 /\ (r + 1 < R -> finish r = start (r + 1)) /\
  0 <= rejected r /\ valid r + rejected r <= qs (r + 1) - qs r /\ 0 < written r <= valid r + P + rejected r.
Proof.
  intros Hr. destruct (ev_req He r Hr) as (H1 & H2 & H3). pose proof (ev_pads He).
  rewrite start_S. unfold finish, written, rejected, clamp0, valid, skip in *.
  destruct shift; cbn [andb]; [|destruct (_ <? 0) eqn:E; bool_prop; lia].
  destruct (qe r =? qs (r + 1)) eqn:Eq, (qs (r + 1) - qe r - 1 <? 0) eqn:E, (r + 1 <? R) eqn:El; bool_prop; cbn [andb]; lia.
Qed.

(** The arithmetic facts of request [r]. *)
Lemma request_facts r : 0 <= r < R ->
  0 <= qs r < qs (r + 1) /\ qs (r + 1) <= total /\ 0 <= valid r /\ qe r < qs (r + 1) + skip /\ qs (r + 1) - qs r + P <= MAX_PER_REQ /\
  0 <= r * (P - skip) < 2 ^ 30 /\ 0 <= r * P < 2 ^ 30 /\ r * P + P <= R * P /\
  0 <= start r /\ finish r <= D /\ valid r + rejected r <= qs (r + 1) - qs r /\ 0 <= rejected r /\ 0 < written r <= valid r + P + rejected r.
Proof.
  intros Hr. destruct (ev_req He r Hr) as (H1 & H2 & H3). pose proof (ev_fits He r Hr). pose proof (ev_pads He). pose proof (ev_reqs He).
  pose proof (qs_mono 0 r ltac:(lia) ltac:(lia)) as Hq0. rewrite (ev_qs0 He) in Hq0.
  pose proof (qs_mono (r + 1) R ltac:(lia) ltac:(lia)) as Hqt. destruct (ev_total He) as [Ht1 Ht2]. rewrite Ht1 in Hqt.
  destruct (finish_bounds r Hr) as (B1 & B2 & B3 & B4 & B5). destruct (ev_draft He) as [HD _]. pose proof skip_cases.
  assert (finish r <= D) as HfD.
  { destruct (decide (r = R - 1)) as [->|]; [done|]. rewrite B2 by lia.
    destruct (finish_bounds (R - 1) ltac:(lia)) as (C1 & _). replace (R - 1 + 1) with R in C1 by lia.
    pose proof (start_mono (r + 1) R ltac:(lia) ltac:(lia)). lia. }
  assert (0 <= r * (P - skip) <= r * P) by nia. assert (0 <= r * P) by nia. assert (r * P <= (2 ^ 24 - 1) * 64) by nia.
  assert (r * P + P <= R * P) by nia.
  split_and!; try lia; try (unfold start, valid in *; lia).
Qed.

(** *** The state between requests *)

Definition loaded (s : ES) : Prop :=
  (forall b, t_len (e_ub s b) = buf_elems e b) /\
  (forall i, 0 <= i <= R -> t_at (e_ub s qsBuf) i = qs i) /\
  (forall i, 0 <= i < R -> t_at (e_ub s qeBuf) i = qe i /\ t_at (e_ub s ntBuf) i = t_at (gmNextTokenIds e) i).

Definition out_len (o : EOut) : Z :=
  match o with gmOutNewTokenIndices => R * P | gmOutHiddenStateMapping => total | _ => D end.
Definition outs_len (s : ES) : Prop := forall o, t_len (e_gm s o) = out_len o.

Lemma my_reqs : myNumReqs e = R /\ myStartReq e = 0.
Proof.
  destruct (ev_core He) as (H1 & _ & H3 & H4). unfold myNumReqs, myStartReq. rewrite H1, H3, H4. simpl. done.
Qed.

Lemma align4 n : 0 <= n < 2 ^ 29 -> EagleAlignUp (n * 4) ONE_BLK_SIZE /c 4 = (n + 7) / 8 * 8.
Proof.
  intros Hn. unfold EagleAlignUp, ONE_BLK_SIZE. rewrite (u32_id (n * 4 + 32 - 1)) by (unfold fits_u32; lia).
  rewrite (quot_nonneg_div (n * 4 + 32 - 1) 32) by lia. rewrite u32_id by (unfold fits_u32; zlia). rewrite quot_nonneg_div by zlia. zlia.
Qed.

Lemma buf_sizes : buf_elems e qsBuf = (R + 1 + 7) / 8 * 8 /\ buf_elems e qeBuf = (R + 7) / 8 * 8 /\ buf_elems e ntBuf = (R + 7) / 8 * 8 /\
  buf_elems e inputBuf = MAX_PER_REQ /\ buf_elems e hsmBuf = MAX_PER_REQ /\ buf_elems e ntiBuf = 64 /\
  forall b, b ∈ slots4 -> buf_elems e b = MAX_PER_REQ.
Proof.
  pose proof (ev_reqs He). unfold buf_elems. destruct my_reqs as [-> _]. rewrite !align4 by lia. split_and!; try done.
  intros b Hb. assert (b = outIdsBuf \/ b = outPosBuf \/ b = outRejBuf \/ b = outMskBuf) as [->|[->|[->| ->]]] by set_solver; done.
Qed.

Lemma loaded_slots s : loaded s -> slots_len s.
Proof. intros (Hl & _) b Hb. rewrite Hl. by apply buf_sizes. Qed.

Lemma loaded_keeps bs s s' : ub_keeps bs s s' -> qsBuf ∉ bs -> qeBuf ∉ bs -> ntBuf ∉ bs -> loaded s -> loaded s'.
Proof.
  intros [L S] H1 H2 H3 (Hl & Hq & Hr). split_and!.
  - intros b. by rewrite L.
  - intros i Hi. rewrite S by done. by apply Hq.
  - intros i Hi. rewrite !S by done. by apply Hr.
Qed.

(** A block of an input in a buffer. *)
Lemma wp_CopyIn b src off n (Q : unit -> ES -> Prop) s :
  0 <= off -> 0 < n -> off + (n + 7) <= t_len src -> (n + 7) / 8 * 8 <= t_len (e_ub s b) ->
  (forall s', ub_keeps [b] s s' -> e_gm s' = e_gm s -> (forall i, 0 <= i < n -> t_at (e_ub s' b) i = t_at src (off + i)) -> Q tt s') ->
  wp (DataCopyIn (ubuf b) src off n) Q s.
Proof.
  intros Ho Hn Hs Hb HQ. unfold DataCopyIn. rewrite (proj2 (Z.leb_gt n 0)) by lia.
  replace (n + 8 - 1) with (n + 7) by lia. rewrite quot_nonneg_div by lia.
  assert (n <= (n + 7) / 8 * 8 <= n + 7) as Hr by zlia. set (k := (n + 7) / 8 * 8) in *.
  apply wp_DataCopy; [|apply in_tensor_true; simpl; lia|apply in_tensor_true; simpl; lia|].
  - unfold block_aligned. apply Z.eqb_eq. subst k. rewrite <- Z.mul_assoc. change (8 * 4) with 32. apply Z.rem_mul. done.
  - apply HQ; [|done|].
    + split; intros b'; cbn [ubuf lset e_ub]; unfold upd; case_decide; subst; try done. set_solver.
    + intros i Hi. cbn [ubuf lset lget e_ub]. rewrite upd_eq. refine (write_range_in _ 0 _ _ i _). lia.
Qed.

Lemma EagleInit_spec s (Q : unit -> ES -> Prop) :
  (forall b, t_len (e_ub s b) = buf_elems e b) -> (forall s', loaded s' -> e_gm s' = e_gm s -> Q tt s') -> wp (EagleInit e) Q s.
Proof.
  intros Hl HQ. destruct my_reqs as [Hn Hs]. pose proof (ev_reqs He). destruct (ev_inputs He) as (_ & _ & I1 & I2 & I3).
  destruct buf_sizes as (B1 & B2 & B3 & _). unfold EagleInit. rewrite Hn, Hs. apply wp_when_true; [apply Z.gtb_lt; lia|].
  rewrite !i32_id by (unfold fits_i32; lia).
  apply wp_bind, wp_CopyIn; [done|lia|lia|rewrite Hl, B1; done|]. intros s1 [L1 S1] G1 V1.
  apply wp_bind, wp_CopyIn; [done|lia|lia|rewrite L1, Hl, B2; done|]. intros s2 [L2 S2] G2 V2.
  apply wp_CopyIn; [done|lia|lia|rewrite L2, L1, Hl, B3; done|]. intros s3 [L3 S3] G3 V3.
  apply HQ; [|congruence]. split_and!.
  - intros b. by rewrite L3, L2, L1.
  - intros i Hi. rewrite S3, S2 by set_solver. rewrite V1 by lia. done.
  - intros i Hi. rewrite (S3 qeBuf), V2, V3 by set_solver || lia. done.
Qed.

Lemma i32_pads : i32 P = P.
Proof. pose proof (ev_pads He). apply i32_id. unfold fits_i32. lia. Qed.

(** The slots of request [r] after its valid tokens. *)
Lemma FillDraft_spec r s (Q : unit -> ES -> Prop) :
  0 <= r < R -> slots_len s -> filled (slot_of r) (valid r) s ->
  (forall s', ub_keeps slots4 s s' -> e_gm s' = e_gm s -> filled (slot_of r) (valid r + P + rejected r) s' -> Q tt s') ->
  wp (FillDraft e (t_at (gmTargetPositions e) (qs r)) (valid r) (t_at (gmNextTokenIds e) r) (rejected r)) Q s.
Proof.
  intros Hr Hl Hf HQ. destruct (request_facts r Hr) as (F1 & F2 & F3 & F4 & F5 & _ & _ & _ & _ & _ & F6 & F7 & _).
  pose proof (ev_pads He). destruct (ev_total He) as [_ Ht]. pose proof skip_cases. unfold FillDraft. rewrite i32_pads.
  assert (valid r = qe r - qs r + 1 - skip) as Hv by done.
  unfold MAX_PER_REQ in F5. eapply wp_seq; [apply PutSlot_spec; [done|unfold MAX_PER_REQ; lia]|]. intros [] s1 (K1 & G1 & V1 & O1).
  apply wp_bind, (wp_fill (slot_of r) (valid r) 1 P _ s); [lia|done|done| | |].
  - intros i Hi. destruct (decide (i = valid r)) as [->|]; [|rewrite O1 by done; apply Hf; lia]. rewrite V1. unfold slot_of.
    by rewrite Z.ltb_irrefl, Z.eqb_refl.
  - intros k s2 Hk K2. cbv zeta. rewrite (i32_id (valid r + k)) by (unfold fits_i32; lia).
    assert (slot_of r (valid r + k) = (ee_parallelDraftingTokenId td, i32 (t_at (gmTargetPositions e) (qs r) + (valid r + k)), 0, 1)) as ->.
    { unfold slot_of. rewrite (proj2 (Z.ltb_ge _ _)), (proj2 (Z.eqb_neq _ _)), (proj2 (Z.ltb_lt (valid r + k) (valid r + P))) by lia. done. }
    apply PutSlot_spec; [by eapply slots_len_keeps|unfold MAX_PER_REQ; lia].
  - intros s2 K2 G2 F. apply (wp_fill (slot_of r) (valid r + P) 0 (rejected r) _ s); [lia|done|done|by rewrite Z.add_0_r| |].
    + intros k s3 Hk K3. cbv zeta. rewrite (i32_id (valid r + P + k)) by (unfold fits_i32; lia).
      assert (slot_of r (valid r + P + k) = (ee_paddingTokenId td, 0, 1, 0)) as ->.
      { unfold slot_of. rewrite (proj2 (Z.ltb_ge _ (valid r))), (proj2 (Z.eqb_neq _ _)), (proj2 (Z.ltb_ge _ (valid r + P))) by lia. done. }
      apply PutSlot_spec; [by eapply slots_len_keeps|unfold MAX_PER_REQ; lia].
    + intros s3 K3 G3 F'. by apply HQ.
Qed.

(** The indices of the new tokens of request [r]. *)
Lemma WriteNti_spec r s (Q : unit -> ES -> Prop) :
  0 <= r < R -> t_len (e_ub s ntiBuf) = 64 -> t_len (e_gm s gmOutNewTokenIndices) = R * P ->
  (forall s', ub_keeps [ntiBuf] s s' -> (forall o, t_len (e_gm s' o) = t_len (e_gm s o)) ->
     (forall o, o <> gmOutNewTokenIndices -> e_gm s' o = e_gm s o) ->
     (forall k, 0 <= k < P -> t_at (e_gm s' gmOutNewTokenIndices) (r * P + k) = start r + valid r + k) ->
     (forall i, i < r * P \/ r * P + P <= i -> t_at (e_gm s' gmOutNewTokenIndices) i = t_at (e_gm s gmOutNewTokenIndices) i) ->
     Q tt s') ->
  wp (WriteNti e r (start r) (valid r)) Q s.
Proof.
  intros Hr Hb Hg HQ. destruct (request_facts r Hr) as (F1 & F2 & F3 & F4 & F5 & F0 & F8 & F9 & F10 & F11 & F6 & F7 & _).
  pose proof (ev_pads He). destruct (ev_draft He) as [_ HD]. pose proof (ev_reqs He). pose proof skip_cases. destruct (ev_total He) as [_ Ht].
  assert (start r = qs r + r * (P - skip)) as Hstart by done.
  assert (r * (P - skip) <= r * P) by nia. assert (R * P <= (2 ^ 24 - 1) * 64) by nia.
  assert (forall k, 0 <= k < P -> i32 (start r + valid r + k) = start r + valid r + k) as Hfit by (intros k Hk; apply i32_id; unfold fits_i32; lia).
  unfold WriteNti. rewrite i32_pads, (i32_id r), (i32_id (r * P)) by (unfold fits_i32; lia).
  apply wp_bind, wp_Set; [lia|]. intros s1 K1 G1 V1 O1.
  apply wp_bind, (wp_for_range (fun k s' => ub_keeps [ntiBuf] s s' /\ e_gm s' = e_gm s /\
    forall i, 0 <= i < k -> t_at (e_ub s' ntiBuf) i = start r + valid r + i)); [lia| | |].
  - split_and!; [done|done|]. intros i Hi. replace i with 0 by lia. rewrite V1.
    specialize (Hfit 0 ltac:(lia)). by rewrite Z.add_0_r in Hfit |- *.
  - intros k s2 Hk (K2 & G2 & V2). apply wp_Set; [rewrite (proj1 K2); lia|]. intros s3 K3 G3 V3 O3.
    split_and!; [by eapply ub_keeps_trans|congruence|]. intros i Hi.
    destruct (decide (i = k)) as [->|]; [rewrite V3; apply Hfit; lia|]. rewrite O3 by done. apply V2. lia.
  - intros s2 (K2 & G2 & V2). apply wp_CopyOut32; [lia|lia|rewrite G2, Hg; lia|rewrite (proj1 K2); lia|].
    apply HQ; cbn [e_gm e_ub].
    + exact K2.
    + intros o. unfold upd. case_decide; subst; simpl; by rewrite G2.
    + intros o Ho. rewrite upd_ne by done. by rewrite G2.
    + intros k Hk. rewrite upd_eq, write_range_in by done. by apply V2.
    + intros i Hi. rewrite upd_eq, write_range_out by done. by rewrite G2.
Qed.

(** The effect of request [r] on the outputs. *)
Record request_done (r : Z) (g g' : EOut -> tensor Z) : Prop := {
  rd_len : forall o, t_len (g' o) = t_len (g o);
  rd_slots : forall j, 0 <= j < written r -> out_cell g' (start r + j) = slot_of r j;
  rd_slots_out : forall i, i < start r \/ finish r <= i -> out_cell g' i = out_cell g i;
  rd_nti : forall k, 0 <= k < P -> t_at (g' gmOutNewTokenIndices) (r * P + k) = start r + valid r + k;
  rd_nti_out : forall i, i < r * P \/ r * P + P <= i -> t_at (g' gmOutNewTokenIndices) i = t_at (g gmOutNewTokenIndices) i;
  rd_hsm : shift = true -> forall j, 0 <= j < qs (r + 1) - qs r -> t_at (g' gmOutHiddenStateMapping) (qs r + j) = start r + j;
  rd_hsm_out : forall i, shift = false \/ i < qs r \/ qs (r + 1) <= i ->
                 t_at (g' gmOutHiddenStateMapping) i = t_at (g gmOutHiddenStateMapping) i }.

(** Reading the metadata of request [r]. *)
Lemma wp_read_meta {A} r (k : Z -> Z -> Z -> M ES fault_kind A) Q s :
  0 <= r < R -> loaded s -> wp (k (qs r) (qs (r + 1)) (qe r)) Q s ->
  wp (ReadQS r ≫= fun a => ReadNextQS r ≫= fun b => ReadQE r ≫= fun c => k a b c) Q s.
Proof.
  intros Hr (Hl & Hq & Hm) Hk. pose proof (ev_reqs He). destruct buf_sizes as (B1 & B2 & _).
  assert (R + 1 <= (R + 1 + 7) / 8 * 8 /\ R <= (R + 7) / 8 * 8) as [] by zlia.
  apply wp_bind, wp_GetValue; [simpl; rewrite Hl, B1; lia|]. apply wp_bind. unfold ReadNextQS. rewrite u32_id by (unfold fits_u32; lia).
  apply wp_GetValue; [simpl; rewrite Hl, B1; lia|]. apply wp_bind, wp_GetValue; [simpl; rewrite Hl, B2; lia|].
  cbn [ubuf lget]. rewrite !Hq by lia. destruct (Hm r Hr) as [-> _]. exact Hk.
Qed.

(** Position and next token of request [r]. *)
Lemma wp_read_first {A} r (k : Z -> Z -> M ES fault_kind A) Q s :
  0 <= r < R -> loaded s ->
  (forall s', ub_keeps [hsmBuf] s s' -> e_gm s' = e_gm s -> loaded s' ->
     wp (k (t_at (gmTargetPositions e) (qs r)) (t_at (gmNextTokenIds e) r)) Q s') ->
  wp (DataCopyIn (ubuf hsmBuf) (gmTargetPositions e) (qs r) 1 ≫= fun _ =>
      GetValue (lget (ubuf hsmBuf)) 0 ≫= fun p => ReadNT r ≫= fun t => k p t) Q s.
Proof.
  intros Hr Hld Hk. pose proof Hld as (Hl & _). pose proof (ev_reqs He). destruct buf_sizes as (_ & _ & B3 & _ & B5 & _).
  destruct (request_facts r Hr) as (F1 & F2 & _). destruct (ev_inputs He) as (_ & I2 & _).
  assert (R <= (R + 7) / 8 * 8) by zlia.
  apply wp_bind, wp_CopyIn; [lia|lia|lia|rewrite Hl, B5; done|]. intros s1 K1 G1 V1.
  assert (loaded s1) as Hld1 by (eapply loaded_keeps; [exact K1|set_solver..|done]). pose proof Hld1 as (Hl1 & _ & Hm1).
  apply wp_bind, wp_GetValue; [simpl; rewrite Hl1, B5; done|]. apply wp_bind, wp_GetValue; [simpl; rewrite Hl1, B3; lia|].
  cbn [ubuf lget]. rewrite (V1 0), Z.add_0_r by lia. destruct (Hm1 r Hr) as [_ ->]. by apply Hk.
Qed.

(** From the valid slots in the buffers to the slot outputs. *)
Lemma wp_emit r n s (Q : unit -> ES -> Prop) (rest : M ES fault_kind unit) :
  0 <= r < R -> loaded s -> outs_len s -> filled (slot_of r) (valid r) s -> n = written r ->
  (forall s', ub_keeps slots4 s s' -> loaded s' -> wrote (start r) n (slot_of r) (e_gm s) (e_gm s') -> wp rest Q s') ->
  wp (FillDraft e (t_at (gmTargetPositions e) (qs r)) (valid r) (t_at (gmNextTokenIds e) r) (rejected r) ≫= fun _ =>
      WriteSlots (start r) n ≫= fun _ => rest) Q s.
Proof.
  intros Hr Hld Ho Hf -> Hrest. destruct (request_facts r Hr) as (F1 & F2 & F3 & F4 & F5 & _ & F8 & F9 & F10 & F11 & F6 & F7 & F13).
  pose proof (ev_pads He). pose proof skip_cases.
  apply wp_bind, FillDraft_spec; [done|by apply loaded_slots|done|]. intros s1 K1 G1 V1.
  assert (loaded s1) as Hld1 by (eapply loaded_keeps; [exact K1|set_solver..|done]).
  apply wp_bind, (WriteSlots_spec _ _ (slot_of r)); [by apply loaded_slots|lia|lia| |intros i Hi; apply V1; lia|].
  { intros o Hin. rewrite G1, Ho. fold (finish r).
    assert (o = gmOutInputIds \/ o = gmOutPositions \/ o = gmOutIsRejectedTokenMask \/ o = gmOutIsMaskedTokenMask) as [->|[->|[->| ->]]]
      by set_solver; exact F11. }
  intros s2 U2 W2. rewrite G1 in W2.
  assert (ub_keeps slots4 s s2) as K by (apply (ub_keeps_trans _ _ s1); [done|split; intros b; by rewrite U2]).
  apply Hrest; [done| |done]. eapply loaded_keeps; [exact K|set_solver..|done].
Qed.

Lemma request_done_intro r g g1 g' :
  wrote (start r) (written r) (slot_of r) g g1 ->
  (forall o, t_len (g' o) = t_len (g1 o)) ->
  (forall o, o ∈ outs4 -> g' o = g1 o) ->
  (forall k, 0 <= k < P -> t_at (g' gmOutNewTokenIndices) (r * P + k) = start r + valid r + k) ->
  (forall i, i < r * P \/ r * P + P <= i -> t_at (g' gmOutNewTokenIndices) i = t_at (g gmOutNewTokenIndices) i) ->
  (shift = true -> forall j, 0 <= j < qs (r + 1) - qs r -> t_at (g' gmOutHiddenStateMapping) (qs r + j) = start r + j) ->
  (forall i, shift = false \/ i < qs r \/ qs (r + 1) <= i ->
     t_at (g' gmOutHiddenStateMapping) i = t_at (g gmOutHiddenStateMapping) i) ->
  request_done r g g'.
Proof.
  intros (WL & WO & WI & WX) L S N1 N2 H1 H2.
  assert (forall i, out_cell g' i = out_cell g1 i) as Hc by (intros i; unfold out_cell; rewrite !S by set_solver; done).
  split; try done.
  - intros o. by rewrite L, WL.
  - intros j Hj. rewrite Hc. by apply WI.
  - intros i Hi. rewrite Hc. apply WX. unfold finish in Hi. lia.
Qed.

Lemma clamp0_id z : 0 <= z -> clamp0 z = z.
Proof. intros Hz. unfold clamp0. by rewrite (proj2 (Z.ltb_ge z 0)) by lia. Qed.

Lemma slot_valid r j : j < valid r ->
  slot_of r j = (token_of r j, i32 (t_at (gmTargetPositions e) (qs r) + j), 0, 0).
Proof. intros Hj. unfold slot_of. by rewrite (proj2 (Z.ltb_lt j (valid r))) by lia. Qed.

Lemma request_false r s (Q : unit -> ES -> Prop) :
  shift = false -> 0 <= r < R -> loaded s -> outs_len s ->
  (forall s', loaded s' -> request_done r (e_gm s) (e_gm s') -> Q tt s') -> wp (ProcessOneRequestShiftFalse e r r) Q s.
Proof.
  intros Hsh Hr Hld Ho HQ. destruct (request_facts r Hr) as (F1 & F2 & F3 & F4 & F5 & F12 & F8 & F9 & F10 & F11 & F6 & F7 & F13).
  destruct (ev_total He) as [_ Ht]. destruct (ev_inputs He) as (I1 & _). pose proof (ev_pads He). destruct (ev_draft He) as [_ HD].
  pose proof (ev_reqs He). destruct buf_sizes as (_ & _ & _ & B4 & _).
  assert (written r = valid r + P + rejected r) as Hw by (unfold written; rewrite Hsh; cbn [andb]; lia).
  assert (skip = 0) as Hsk by (unfold skip; by rewrite Hsh). assert (valid r = qe r - qs r + 1) as Hv by (unfold valid; lia).
  assert (start r = qs r + r * P) as Hst by (unfold start; rewrite Hsk; lia).
  unfold ProcessOneRequestShiftFalse. apply wp_read_meta; [done|done|]. cbv zeta.
  rewrite i32_pads, (i32_id r), (i32_id (qs (r + 1) - qe r - 1)), (i32_id (qe r - qs r + 1)), (i32_id (qs (r + 1) - qs r))
    by (unfold fits_i32; lia).
  fold (rejected r). rewrite clamp0_id by lia. rewrite <- Hv. rewrite (i32_id (qs r + r * P)), <- Hst by (unfold fits_i32; lia).
  rewrite (i32_id (valid r + P + _)), <- Hw by (unfold fits_i32; lia).
  apply wp_bind, wp_when_true; [apply Z.gtb_lt; lia|]. unfold MAX_PER_REQ in *.
  apply wp_CopyIn; [lia|lia|lia|rewrite (proj1 Hld), B4; zlia|]. intros s1 K1 G1 V1.
  apply wp_read_first; [done|eapply loaded_keeps; [exact K1|set_solver..|done]|]. intros s2 K2 G2 Hld2.
  apply wp_bind, (wp_fill (slot_of r) 0 0 (valid r) _ s2); [lia|done|done|intros i Hi; lia| |].
  - intros j s3 Hj K3. rewrite Z.geb_leb, (proj2 (Z.leb_gt _ j)) by lia.
    apply wp_bind, wp_GetValue; [simpl; rewrite (proj1 K3), (proj1 Hld2), B4; unfold MAX_PER_REQ; lia|].
    cbn [ubuf lget]. rewrite (proj2 K3), (proj2 K2), V1 by set_solver || lia. rewrite Z.add_0_l, slot_valid by lia.
    unfold token_of. rewrite Hsk, Z.add_0_r, (proj2 (Z.ltb_lt _ total)) by lia.
    apply PutSlot_spec; [|unfold MAX_PER_REQ; lia]. eapply slots_len_keeps; [exact K3|]. by apply loaded_slots.
  - intros s3 K3 G3 V3. assert (loaded s3) as Hld3 by (eapply loaded_keeps; [exact K3|set_solver..|done]).
    assert (outs_len s3) as Ho3 by (intros o; by rewrite G3, G2, G1).
    apply wp_emit; [done|done|done|done|lia|]. intros s4 K4 Hld4 W4. pose proof W4 as (WL & WO & _).
    apply WriteNti_spec; [done|rewrite (proj1 Hld4); apply buf_sizes|by rewrite WL, Ho3|]. intros s5 K5 L5 O5 V5 N5.
    apply HQ; [eapply loaded_keeps; [exact K5|set_solver..|done]|]. rewrite G3, G2, G1 in *.
    apply (request_done_intro r _ (e_gm s4)); [done|done|intros o Hin; apply O5; set_solver|done| |by rewrite Hsh|].
    + intros i Hi. rewrite N5 by done. by rewrite (WO gmOutNewTokenIndices) by set_solver.
    + intros i _. by rewrite (O5 gmOutHiddenStateMapping), (WO gmOutHiddenStateMapping) by set_solver.
Qed.

(** The mapping from input tokens to slots. *)
Lemma wp_hsm r s (Q : unit -> ES -> Prop) :
  0 <= r < R -> loaded s -> t_len (e_gm s gmOutHiddenStateMapping) = total ->
  (forall s', loaded s' -> (forall o, t_len (e_gm s' o) = t_len (e_gm s o)) ->
     (forall o, o <> gmOutHiddenStateMapping -> e_gm s' o = e_gm s o) ->
     (forall j, 0 <= j < qs (r + 1) - qs r -> t_at (e_gm s' gmOutHiddenStateMapping) (qs r + j) = start r + j) ->
     (forall i, i < qs r \/ qs (r + 1) <= i -> t_at (e_gm s' gmOutHiddenStateMapping) i = t_at (e_gm s gmOutHiddenStateMapping) i) ->
     Q tt s') ->
  wp (for_range 0 (qs (r + 1) - qs r) (fun j => SetValue (ubuf hsmBuf) j (i32 (start r + j))) ≫= fun _ =>
      DataCopyOut_int32 (gout gmOutHiddenStateMapping) (ubuf hsmBuf) (qs r) (qs (r + 1) - qs r)) Q s.
Proof.
  intros Hr Hld Hg HQ. destruct (request_facts r Hr) as (F1 & F2 & F3 & F4 & F5 & _ & F8 & F9 & F10 & F11 & F6 & F7).
  destruct (ev_total He) as [_ Ht]. destruct (ev_draft He) as [_ HD]. destruct buf_sizes as (_ & _ & _ & _ & B5 & _).
  pose proof (start_S r). pose proof (ev_pads He). pose proof skip_cases. destruct (finish_bounds r Hr) as (Hend & _). unfold MAX_PER_REQ in *.
  apply wp_bind, (wp_for_range (fun k s' => ub_keeps [hsmBuf] s s' /\ e_gm s' = e_gm s /\
    forall i, 0 <= i < k -> t_at (e_ub s' hsmBuf) i = start r + i)); [lia| | |].
  - split_and!; [done|done|]. intros i Hi. lia.
  - intros k s2 Hk (K2 & G2 & V2). apply wp_Set; [rewrite (proj1 K2), (proj1 Hld), B5; unfold MAX_PER_REQ; lia|]. intros s3 K3 G3 V3 O3.
    split_and!; [by eapply ub_keeps_trans|congruence|]. intros i Hi.
    destruct (decide (i = k)) as [->|]; [rewrite V3; apply i32_id; unfold fits_i32; lia|]. rewrite O3 by done. apply V2. lia.
  - intros s2 (K2 & G2 & V2). apply wp_CopyOut32; [lia|lia|rewrite G2, Hg; lia|rewrite (proj1 K2), (proj1 Hld), B5; unfold MAX_PER_REQ; lia|].
    apply HQ; cbn [e_gm e_ub].
    + eapply (loaded_keeps [hsmBuf] s); [exact K2|set_solver..|done].
    + intros o. unfold upd. case_decide; subst; simpl; by rewrite G2.
    + intros o Hne. rewrite upd_ne by done. by rewrite G2.
    + intros j Hj. rewrite upd_eq, write_range_in by done. by apply V2.
    + intros i Hi. rewrite upd_eq, write_range_out by lia. by rewrite G2.
Qed.

Lemma request_true r s (Q : unit -> ES -> Prop) :
  shift = true -> 0 <= r < R -> loaded s -> outs_len s ->
  (forall s', loaded s' -> request_done r (e_gm s) (e_gm s') -> Q tt s') -> wp (ProcessOneRequestShiftTrue e r r) Q s.
Proof.
  intros Hsh Hr Hld Ho HQ. destruct (request_facts r Hr) as (F1 & F2 & F3 & F4 & F5 & F12 & F8 & F9 & F10 & F11 & F6 & F7 & F13).
  destruct (ev_total He) as [_ Ht]. destruct (ev_inputs He) as (I1 & _). pose proof (ev_pads He). destruct (ev_draft He) as [_ HD].
  pose proof (ev_reqs He). destruct buf_sizes as (_ & _ & _ & B4 & _).
  assert (skip = 1) as Hsk by (unfold skip; by rewrite Hsh). assert (valid r = qe r - qs r) as Hv by (unfold valid; lia).
  assert (start r = qs r + r * (P - 1)) as Hst by (unfold start; by rewrite Hsk). rewrite Hsk in F12.
  unfold ProcessOneRequestShiftTrue. apply wp_read_meta; [done|done|]. cbv zeta.
  rewrite i32_pads, (i32_id r), (i32_id (qs (r + 1) - qe r - 1)), (i32_id (qe r - qs r)), (i32_id (qs (r + 1) - qs r)),
    (i32_id (qs r + 1)), (i32_id total) by (unfold fits_i32; lia).
  fold (rejected r). rewrite (clamp0_id (qe r - qs r)) by lia. rewrite <- Hv.
  rewrite (i32_id (qs r + r * (P - 1))), <- Hst by (unfold fits_i32; lia).
  rewrite (i32_id (valid r + P + _)) by (unfold fits_i32; lia). rewrite (i32_id (qs r + 1 + valid r)) by (unfold fits_i32; lia).
  rewrite (i32_id (total - (qs r + 1))), (clamp0_id (total - (qs r + 1))), (i32_id (valid r + P + rejected r - 1)), (u32_id (r + 1))
    by (unfold fits_i32, fits_u32; lia).
  assert ((if (qs (r + 1) =? qe r) && (r + 1 <? R) then valid r + P + rejected r - 1 else valid r + P + rejected r) = written r) as ->.
  { unfold written. rewrite Hsh, (Z.eqb_sym (qe r)). cbn [andb]. destruct (_ && _); lia. }
  unfold MAX_PER_REQ in *. set (n := if qs r + 1 + valid r >? total then _ else _).
  assert (n = Z.min (valid r) (total - (qs r + 1))) as Hn by (unfold n; rewrite Z.gtb_ltb; destruct (total <? _) eqn:E; bool_prop; lia).
  clearbody n.
  eapply (wp_seq _ _ (fun _ s1 => ub_keeps [inputBuf] s s1 /\ e_gm s1 = e_gm s /\
    forall i, 0 <= i < n -> t_at (e_ub s1 inputBuf) i = t_at (gmTargetTokenIds e) (qs r + 1 + i))).
  { destruct (n >? 0) eqn:Hpos; bool_prop.
    - apply wp_when_true; [done|]. apply wp_CopyIn; [lia|lia|lia|rewrite (proj1 Hld), B4; unfold MAX_PER_REQ; zlia|]. intros s1 K1 G1 V1. done.
    - apply wp_when_false; [done|]. split_and!; [done|done|]. intros i Hi. lia. }
  intros _ s1 (K1 & G1 & V1).
  apply wp_read_first; [done|eapply loaded_keeps; [exact K1|set_solver..|done]|]. intros s2 K2 G2 Hld2.
  apply wp_bind, (wp_fill (slot_of r) 0 0 (valid r) _ s2); [lia|done|done|intros i Hi; lia| |].
  - intros j s3 Hj K3. rewrite Z.add_0_l, slot_valid by lia. eapply (wp_seq _ _ (fun id s4 => id = token_of r j /\ s4 = s3)).
    + unfold token_of. rewrite Hsk, Z.geb_leb, (Z.gtb_ltb n). destruct (0 <? n) eqn:Hpos; bool_prop.
      * rewrite (i32_id (n - 1)) by (unfold fits_i32; lia). rewrite andb_true_r. rewrite (proj2 (Z.ltb_lt (qs r + 1) total)) by lia.
        apply wp_GetValue; [simpl; rewrite (proj1 K3), (proj1 Hld2), B4; unfold MAX_PER_REQ; case_if; bool_prop; lia|]. split; [|done].
        cbn [ubuf lget]. rewrite (proj2 K3), (proj2 K2), V1 by (set_solver || (case_if; bool_prop; lia)).
        destruct (n <=? j) eqn:Hj'; bool_prop.
        -- rewrite (proj2 (Z.ltb_ge _ total)) by lia. f_equal. lia.
        -- rewrite (proj2 (Z.ltb_lt _ total)) by lia. done.
      * apply wp_ret. split; [|done]. rewrite (proj2 (Z.ltb_ge _ total)), (proj2 (Z.ltb_ge _ total)) by lia. done.
    + intros id s4 [-> ->]. apply PutSlot_spec; [|unfold MAX_PER_REQ; lia]. eapply slots_len_keeps; [exact K3|]. by apply loaded_slots.
  - intros s3 K3 G3 V3. assert (loaded s3) as Hld3 by (eapply loaded_keeps; [exact K3|set_solver..|done]).
    assert (outs_len s3) as Ho3 by (intros o; by rewrite G3, G2, G1).
    apply wp_emit; [done|done|done|done|lia|]. intros s4 K4 Hld4 W4. pose proof W4 as (WL & WO & _).
    apply wp_bind, WriteNti_spec; [done|rewrite (proj1 Hld4); apply buf_sizes|by rewrite WL, Ho3|]. intros s5 K5 L5 O5 V5 N5.
    apply wp_hsm; [done|eapply loaded_keeps; [exact K5|set_solver..|done]|by rewrite L5, WL, Ho3|]. intros s6 Hld6 L6 O6 V6 N6.
    apply HQ; [done|]. rewrite G3, G2, G1 in *.
    apply (request_done_intro r _ (e_gm s4)); [done|intros o; by rewrite L6, L5|intros o Hin; rewrite O6, O5 by set_solver; done
      |intros k Hk; rewrite O6 by done; by apply V5| |done|].
    + intros i Hi. rewrite O6, N5 by done. by rewrite (WO gmOutNewTokenIndices) by set_solver.
    + intros i [Hi|Hi]; [by rewrite Hsh in Hi|]. by rewrite N6, (O5 gmOutHiddenStateMapping), (WO gmOutHiddenStateMapping) by (done || set_solver).
Qed.
End Spec.
