(* ===== verification/EagleGrid.v ===== *)
(** CopyAndExpandEagleInputs end to end: all requests of a call, the slots after
    them, and the launch that the host prescribes. *)

From stdpp Require Import gmap.
From S2P Require Import Prelude AscendC TilingContext Eagle EagleSpec.

Section Core.
Variable e : EEnv.
Variable shift : bool.
Abbreviation td := (etd e).
Abbreviation P := (ee_numPaddingSlotsPerReq td).
Abbreviation R := (ee_numReqs td).
Abbreviation D := (ee_totalDraftTokens td).
Abbreviation qs := (t_at (gmQueryStartLoc e)).
Abbreviation qe := (t_at (gmQueryEndLoc e)).
Abbreviation start := (start e shift).
Abbreviation valid := (valid e shift).
Abbreviation written := (written e shift).
Abbreviation finish := (finish e shift).



Context (He : eagle_env e shift).








End Core.

(** ** The call *)

Definition flag (b : bool) : Z := if b then 1 else 0.


Definition eagle_launch (R P total D padding drafting : Z) (shift : bool) : EagleLaunch :=
  {| el_tiling := {| ee_usedCoreNum := 1; ee_numReqs := R; ee_reqsPerCore := R; ee_remainderReqs := 0;
                     ee_paddingTokenId := i32 padding; ee_parallelDraftingTokenId := i32 drafting;
                     ee_numPaddingSlotsPerReq := P; ee_totalInputTokens := total; ee_shiftInputIds := flag shift;
                     ee_totalDraftTokens := D |};
     el_tilingKey := 1; el_blockDim := 1 |}.






(** ** A concrete call: requests of four and three tokens, the first ends where the
    second starts *)

Definition eagle_context_example (R D shift : Z) : TilingContext :=
  {| GetPlatformInfoPtr := Some (Build_PlatformInfo 40 20 196608);
     GetInputShape := fun i => if i =? IDX_QUERY_START_LOC then Some [R + 1] else Some [7];
     GetOptionalInputShape := fun _ => None;
     GetOutputShape := fun i => Some [D];
     GetInputDesc := fun _ => Some DT_INT32;
     GetOptionalInputDesc := fun _ => None;
     GetOutputDesc := fun _ => Some DT_INT32;
     GetOptionalInputTensor := fun _ => None;
     HasAttrs := true; GetAttrInt := fun i => nth (Z.to_nat i) [Some (-9); Some 999; Some 3; Some shift; Some 7] None;
     HasTilingData := true; HasWorkspaceSizes := true; SetScheduleModeOk := true |}.

Definition padded (l : list Z) : tensor Z := Tensor (Z.of_nat (length l) + 7) (fun i => nth (Z.to_nat i) l 0).

Definition eenv_example (la : EagleLaunch) : EEnv :=
  {| gmTargetTokenIds := padded [10; 11; 12; 13; 20; 21; 22]; gmTargetPositions := padded [100; 101; 102; 103; 50; 51; 52];
     gmNextTokenIds := padded [77; 88]; gmQueryStartLoc := padded [0; 4; 7]; gmQueryEndLoc := padded [4; 6];
     etd := el_tiling la; eBlockIdx := 0 |}.

Definition estate_example (e : EEnv) : ES :=
  {| e_ub := fun b => Tensor (buf_elems e b) (fun _ => 5); e_gm := fun o => Tensor (out_len e o) (fun _ => -1) |}.


Abbreviation la_example D shift := (eagle_launch 2 3 7 D (-9) 999 shift).






(** Without requests the shift mode reads before the start of its buffers. *)
Example no_requests_fault :
  match EagleTilingFunc None (eagle_context_example 0 4 1) with
  | Ok la => copy_and_expand_eagle_inputs (eenv_example la) 196608 1 (estate_example (eenv_example la)) = Err OutOfBounds
  | Err _ => False
  end.
Proof. vm_compute. reflexivity. Qed.

(** A request of more than 4096 tokens overruns the buffers; the host accepts it. *)
Definition long_env (n : Z) : EEnv :=
  {| gmTargetTokenIds := Tensor (n + 7) (fun i => i); gmTargetPositions := Tensor (n + 7) (fun i => i);
     gmNextTokenIds := padded [77]; gmQueryStartLoc := padded [0; n]; gmQueryEndLoc := padded [n - 1];
     etd := el_tiling (eagle_launch 1 1 n (n + 1) (-9) 999 false); eBlockIdx := 0 |}.

Example long_request_fault :
  copy_and_expand_eagle_inputs (long_env 4104) 196608 1 (estate_example (long_env 4104)) = Err OutOfBounds.
Proof. vm_compute. reflexivity. Qed.

(** The buffers for the locations of 12000 requests exceed a unified buffer of 192 KiB. *)
Definition many_env (n : Z) : EEnv :=
  {| gmTargetTokenIds := Tensor (n + 7) (fun i => i); gmTargetPositions := Tensor (n + 7) (fun i => i);
     gmNextTokenIds := Tensor (n + 8) (fun i => i); gmQueryStartLoc := Tensor (n + 9) (fun i => i); gmQueryEndLoc := Tensor (n + 8) (fun i => i);
     etd := el_tiling (eagle_launch n 1 n (n + n) (-9) 999 false); eBlockIdx := 0 |}.

Example many_requests_exceed_ub :
  copy_and_expand_eagle_inputs (many_env 12000) 196608 1 (estate_example (many_env 12000)) = Err UbExhausted.
Proof. vm_compute. reflexivity. Qed.
