(* ===== verification/TransposeKvHost.v ===== *)
(** TransposeKvCacheByBlock, host side
    ([csrc/moe/transpose_kv_cache_by_block/op_host/transpose_kv_cache_by_block_tiling.cpp]):
    the divisors of the core count, the search for the number of cores that share
    a cache block, and the distribution of the (block, layer) rounds over the
    groups of cores. *)

From stdpp Require Import sorting.
From S2P Require Import Prelude AscendC TilingContext.

(** ** Constants and tiling record *)

Definition DATA_SIZE : Z := 2.
Definition BLOCK_SIZE : Z := 32.
Definition DB_ON : Z := 2.

Definition FULL_LOAD : Z := 0.
Definition SPLIT_BLOCK_SIZE_ALIGNED_AND_DB : Z := 1.
Definition SPLIT_BLOCK_SIZE_UNALIGNED_AND_DB : Z := 3.
Definition SPLIT_BLOCK_SIZE_ALIGNED_AND_NOT_DB : Z := 2.
Definition SPLIT_BLOCK_SIZE_UNALIGNED_AND_NOT_DB : Z := 4.

Record TransposeTilingData : Type := {
  tt_blockSize : Z;
  tt_headNum : Z;
  tt_headDim : Z;
  tt_splitNum : Z;
  tt_layerNum : Z;
  tt_useCoreNum : Z;
  tt_blockPerCore : Z;
  tt_tailCoreNum : Z;
  tt_calBlockNum : Z;
  tt_blockSizePerTime : Z;
  tt_blockSizePerTimeTail : Z;
  tt_blockSizeSplitNum : Z }.

Record TransposeLaunch : Type := {
  tl_tiling : TransposeTilingData;
  tl_blockDim : Z;
  tl_tilingKey : Z }.

(** ** Divisors *)

(** The loop [for (i = 1; i * i <= n; i++)], with a bound on its iterations. *)
Fixpoint factor_loop (bound : nat) (i n : Z) (factors : list Z) : HostM (list Z) :=
  match bound with
  | O => Err HostLoopBound
  | S bound' =>
      if i * i <=? n then
        let factors := if n %c i =? 0 then
                         let factors := factors ++ [i] in
                         if negb (i =? n /c i) then factors ++ [n /c i] else factors
                       else factors in
        factor_loop bound' (i + 1) n factors
      else Ok factors
  end.

(** [std::sort] is the sort of [stdpp]; the loop runs at most [n] times. *)
Definition findFactorsOptimized (factors : list Z) (n : Z) : HostM (list Z) :=
  factors ← factor_loop (S (Z.to_nat n)) 1 n factors;
  Ok (merge_sort Z.le factors).

(** ** Search for the split *)

(** Bytes of the rows of a block that one core holds. *)
Definition load_bytes (blockSize headNum headDim split : Z) : Z :=
  u64 ((blockSize + split - 1) /c split * headNum * headDim * DATA_SIZE).

(** [while (dataSizeloadOnce > limit)]: [rest] is the part of [factors] after
    [factorIndex]; the result is the split and whether one was found. *)
Fixpoint split_loop (limit blockSize headNum headDim : Z) (rest : list Z)
    (blockSizeSplitNum dataSizeloadOnce : Z) : Z * bool :=
  if dataSizeloadOnce <=? limit then (blockSizeSplitNum, true)
  else match rest with
       | [] => (blockSizeSplitNum, false)
       | f :: rest' => split_loop limit blockSize headNum headDim rest' f (load_bytes blockSize headNum headDim f)
       end.

(** The two searches: tiling key, split, and whether one was found. *)
Definition choose_split (ubSize blockSize headNum headDim first : Z) (rest : list Z) : Z * Z * bool :=
  let whole := u64 (blockSize * headNum * headDim * DATA_SIZE) in
  let '(tilingKey, split, found) :=
    if ubSize <? whole then
      match split_loop (ubSize /c DB_ON) blockSize headNum headDim rest first whole with
      | (split, false) => (FULL_LOAD, split, false)
      | (split, true) =>
          (if negb (blockSize %c split =? 0) then SPLIT_BLOCK_SIZE_UNALIGNED_AND_DB
           else SPLIT_BLOCK_SIZE_ALIGNED_AND_DB, split, true)
      end
    else (FULL_LOAD, first, true) in
  if negb found then
    match split_loop ubSize blockSize headNum headDim rest first whole with
    | (split, false) => (FULL_LOAD, split, false)
    | (split, true) =>
        (if negb (blockSize %c split =? 0) then SPLIT_BLOCK_SIZE_UNALIGNED_AND_NOT_DB
         else SPLIT_BLOCK_SIZE_ALIGNED_AND_NOT_DB, split, true)
    end
  else (tilingKey, split, found).

(** ** The tiling function *)

(** [context->GetDynamicInputTensor(i, j)->GetStorageShape()]; [None] is null. *)
Definition DynamicInputs : Type := Z -> Z -> option (list Z).

Definition split_error : string :=
  "headNum * headDim * sizeof(half) > ubSize or blockSize * headNum * headDim * sizeof(half) > ubSize * vectorCoreNum. Currently, splitting headNum or headDim is not supported.".

Definition CalTiling (context : TilingContext) (GetDynamicInputTensor : DynamicInputs) : HostM TransposeLaunch :=
  platformInfo ← OP_CHECK_NULL (GetPlatformInfoPtr context) "platformInfoPtr is null";
  let useCoreNum := GetCoreNumAiv platformInfo in
  let ubSize := GetCoreMemSizeUB platformInfo in
  OP_CHECK_IF (negb (HasAttrs context)) "attr is null" ;;
  blockSize ← OP_CHECK_NULL (GetAttrInt context 0) "Get attr failed.";
  headNum ← OP_CHECK_NULL (GetAttrInt context 1) "Get attr failed.";
  headDim ← OP_CHECK_NULL (GetAttrInt context 2) "Get attr failed.";
  splitNum ← OP_CHECK_NULL (GetAttrInt context 3) "Get attr failed.";
  layerNum ← OP_CHECK_NULL (GetAttrInt context 4) "Get attr failed.";
  blockIDsTensorShape ← OP_CHECK_NULL (GetDynamicInputTensor 2 0) "blockIDsTensor is null";
  let calBlockNum := GetDim blockIDsTensorShape 0 in
  OP_CHECK_IF (negb (u64 (headDim * DATA_SIZE) %c BLOCK_SIZE =? 0))
    "headDim * DATA_SIZE must be a multiple of 32 bytes." ;;
  factors ← findFactorsOptimized [] useCoreNum;
  '(first, rest) ← (match factors with [] => Err VectorIndex | f :: r => Ok (f, r) end : HostM (Z * list Z));
  let '(tilingKey, blockSizeSplitNum, findSplitNum) := choose_split ubSize blockSize headNum headDim first rest in
  OP_CHECK_IF (negb findSplitNum) split_error ;;
  let totalRound := layerNum * calBlockNum in
  let useCoreNum := if totalRound * blockSizeSplitNum <? useCoreNum then totalRound * blockSizeSplitNum
                    else useCoreNum in
  blockPerCore ← c_quot totalRound (useCoreNum /c blockSizeSplitNum);
  tailCoreNum ← c_rem totalRound (useCoreNum /c blockSizeSplitNum);
  Ok {| tl_tiling := {|
          tt_blockSize := u32 blockSize;
          tt_headNum := u32 headNum;
          tt_headDim := u32 headDim;
          tt_splitNum := u32 splitNum;
          tt_layerNum := u32 layerNum;
          tt_useCoreNum := u32 useCoreNum;
          tt_blockPerCore := u32 blockPerCore;
          tt_tailCoreNum := u32 tailCoreNum;
          tt_calBlockNum := u32 calBlockNum;
          tt_blockSizePerTime := u32 ((blockSize + blockSizeSplitNum - 1) /c blockSizeSplitNum);
          tt_blockSizePerTimeTail := u32 (blockSize %c blockSizeSplitNum);
          tt_blockSizeSplitNum := u32 blockSizeSplitNum |};
        tl_blockDim := useCoreNum;
        tl_tilingKey := tilingKey |}.

(** The registered function: the record is written to the raw tiling data, whose
    pointer is not checked. *)
Definition TransposeKvCacheByBlockTilingFunc (context : TilingContext) (GetDynamicInputTensor : DynamicInputs)
    : HostM TransposeLaunch :=
  launch ← match CalTiling context GetDynamicInputTensor with
           | Err (GRAPH_FAILED _) => Err (GRAPH_FAILED "Cal tiling failed.")
           | r => r
           end;
  deref (if HasTilingData context then Some tt else None) "GetRawTilingData" ;;
  Ok launch.

(** ** The divisor search is exact *)

(** The divisors of [n] in ascending order, by trial of every candidate. *)
Definition divisors (n : Z) : list Z := filter (fun d => n mod d = 0) (zrange 1 (n + 1)).

Lemma elem_of_divisors n d : d ∈ divisors n <-> 1 <= d <= n /\ n mod d = 0.
Proof. unfold divisors. rewrite list_elem_of_filter, elem_of_zrange. naive_solver lia. Qed.

Lemma divisors_NoDup n : NoDup (divisors n).
Proof. apply NoDup_filter, NoDup_zrange. Qed.

Lemma seqZ_sorted lo len : StronglySorted Z.le (seqZ lo len).
Proof.
  destruct (Z.lt_ge_cases len 0) as [Hneg|Hpos]; [rewrite seqZ_nil by lia; constructor|].
  revert lo. pattern len. apply natlike_ind; [..|done].
  - intros lo. rewrite seqZ_nil by lia. constructor.
  - intros x Hx IH lo. rewrite seqZ_cons by lia. rewrite Z.pred_succ. constructor; [done|].
    apply list.Forall_forall. intros y Hy%elem_of_seqZ. lia.
Qed.

Lemma filter_sorted (P : Z -> Prop) `{!forall x, Decision (P x)} l :
  StronglySorted Z.le l -> StronglySorted Z.le (filter P l).
Proof.
  induction 1 as [|x l Hl IH Hall]; [constructor|]. rewrite filter_cons. destruct (decide _); [|done].
  constructor; [done|]. rewrite list.Forall_forall in *. intros y [_ Hy]%list_elem_of_filter. auto.
Qed.

Lemma divisors_sorted n : StronglySorted Z.le (divisors n).
Proof. apply filter_sorted, seqZ_sorted. Qed.

(** What the accumulator holds when the loop is at [i]. *)
Definition factors_below (n i : Z) (acc : list Z) : Prop :=
  NoDup acc /\ forall d, d ∈ acc <-> (1 <= d <= n /\ n mod d = 0) /\ (d < i \/ n / d < i).

Lemma codivisor n d : 0 < n -> 1 <= d <= n -> n mod d = 0 ->
  d * (n / d) = n /\ 1 <= n / d <= n /\ n mod (n / d) = 0 /\ n / (n / d) = d.
Proof.
  intros Hn Hd Hm. pose proof (Z.div_mod n d ltac:(lia)) as Hdm. rewrite Hm, Z.add_0_r in Hdm.
  assert (1 <= n / d) by nia. assert (n = d * (n / d)) as He by lia.
  split; [lia|]. split; [nia|]. split.
  - rewrite He at 1. apply Z.mod_mul. lia.
  - rewrite He at 1. apply Z.div_mul. lia.
Qed.

Lemma factors_below_step n i acc :
  0 < n -> 1 <= i -> i * i <= n -> factors_below n i acc ->
  factors_below n (i + 1)
    (if n %c i =? 0 then if negb (i =? n /c i) then (acc ++ [i]) ++ [n /c i] else acc ++ [i] else acc).
Proof.
  intros Hn Hi Hii [Hnd Hacc]. rewrite rem_nonneg_mod, quot_nonneg_div by lia.
  assert (i <= n) as Hin by nia.
  assert (forall d, 1 <= d <= n -> n mod d = 0 -> n / d = i -> d = n / i /\ n mod i = 0) as Hco.
  { intros d H1 H2 H3. destruct (codivisor n d Hn H1 H2) as (_ & _ & H4 & H5). by rewrite H3 in H4, H5. }
  destruct (n mod i =? 0) eqn:Em; bool_prop.
  - destruct (codivisor n i Hn ltac:(lia) Em) as (H1 & H2 & H3 & H4).
    assert (i <= n / i) as Hle by nia.
    assert (i ∉ acc) as Hfr by (rewrite Hacc; lia).
    assert (n / i ∉ acc) as Hfr' by (rewrite Hacc, H4; lia).
    assert (forall d, (1 <= d <= n /\ n mod d = 0) /\ (d < i + 1 \/ n / d < i + 1) <->
              (d ∈ acc \/ d = i \/ d = n / i)) as Hext.
    { intros d. rewrite Hacc. split.
      - intros [[Hd Hdm] Hor]. destruct (decide (d = i)) as [?|Hne]; [tauto|].
        destruct (decide (n / d = i)) as [He|Hne']; [destruct (Hco d Hd Hdm He); tauto|]. left. lia.
      - intros [H| [-> | ->]]; [|lia|rewrite H4; lia]. lia. }
    destruct (i =? n / i) eqn:Eq; simpl; bool_prop; (split; [|intros d; rewrite Hext]).
    + apply NoDup_app. split_and!; [done|set_solver|apply NoDup_singleton].
    + rewrite <- Eq. set_solver.
    + rewrite <- app_assoc. apply NoDup_app. split_and!; [done|set_solver|].
      simpl. apply list.NoDup_cons. split; [set_solver|apply NoDup_singleton].
    + set_solver.
  - split; [done|]. intros d. rewrite Hacc. split; [intros [H1 H2]; split; [done|lia]|].
    intros [[Hd Hdm] Hor]. split; [done|].
    destruct (decide (d = i)) as [-> |Hne]; [by rewrite Hdm in Em|].
    destruct (decide (n / d = i)) as [He|Hne']; [destruct (Hco d Hd Hdm He); lia|lia].
Qed.

Lemma factor_loop_spec bound i n acc :
  0 < n -> 1 <= i -> (Z.to_nat (n + 1 - i) < bound)%nat -> factors_below n i acc ->
  exists l, factor_loop bound i n acc = Ok l /\ l ≡ₚ divisors n.
Proof.
  intros Hn. revert i acc. induction bound as [|bound IH]; intros i acc Hi Hb Hinv; [lia|].
  cbn [factor_loop]. destruct (i * i <=? n) eqn:E; bool_prop.
  - assert (i <= n) by nia. apply IH; [lia|lia|]. by apply factors_below_step.
  - exists acc. split; [done|]. destruct Hinv as [Hnd Hacc].
    apply NoDup_Permutation; [done|apply divisors_NoDup|]. intros d. rewrite Hacc, elem_of_divisors.
    split; [tauto|]. intros [H1 H2]. split; [done|]. destruct (codivisor n d Hn H1 H2) as (He & _). nia.
Qed.

Lemma findFactors_divisors n : 0 < n -> findFactorsOptimized [] n = Ok (divisors n).
Proof.
  intros Hn. unfold findFactorsOptimized.
  destruct (factor_loop_spec (S (Z.to_nat n)) 1 n [] Hn ltac:(lia) ltac:(lia)) as (l & -> & Hl).
  { split; [constructor|]. intros d. split; [set_solver|]. intros [[H1 H2] H3].
    destruct (codivisor n d Hn H1 H2). lia. }
  rewrite bind_Ok. f_equal. apply (StronglySorted_unique Z.le).
  - apply (StronglySorted_merge_sort Z.le).
  - apply divisors_sorted.
  - by rewrite merge_sort_Permutation.
Qed.

Lemma findFactors_nonpos n : n <= 0 -> findFactorsOptimized [] n = Ok [].
Proof. intros Hn. unfold findFactorsOptimized. cbn [factor_loop]. by destruct (1 * 1 <=? n) eqn:E; bool_prop; [lia|]. Qed.

(** C38.  The divisor search of the tiling function, which tries candidates only
    up to the square root and sorts what it found, returns exactly the ascending
    list of all divisors, within its iteration bound, for every core count. *)
Theorem findFactorsOptimized_exact n : findFactorsOptimized [] n = Ok (divisors n).
Proof.
  destruct (Z.lt_ge_cases 0 n) as [Hn|Hn]; [by apply findFactors_divisors|].
  rewrite findFactors_nonpos by lia. unfold divisors, zrange. by rewrite seqZ_nil by lia.
Qed.

(** ** What the tiling function computes

    [TransposeCall] is what a call passes to the operator; the plan is stated on
    unbounded integers and by search among the divisors of the core count. *)

Record TransposeCall : Type := {
  tc_cores : Z;
  tc_ubSize : Z;
  tc_blockSize : Z;
  tc_headNum : Z;
  tc_headDim : Z;
  tc_splitNum : Z;
  tc_layerNum : Z;
  tc_calBlockNum : Z }.

Definition tc_total (tc : TransposeCall) : Z := tc_layerNum tc * tc_calBlockNum tc.
Definition tc_row (tc : TransposeCall) : Z := tc_headNum tc * tc_headDim tc.
Definition tc_blockLen (tc : TransposeCall) : Z := tc_blockSize tc * tc_row tc.

(** Rows and bytes of the share of a core when [s] cores share a block. *)
Definition slice_rows (tc : TransposeCall) (s : Z) : Z := (tc_blockSize tc + s - 1) / s.
Definition slice_bytes (tc : TransposeCall) (s : Z) : Z := slice_rows tc s * tc_row tc * DATA_SIZE.

(** The least divisor of the core count whose share fits [limit]. *)
Definition least_fit (tc : TransposeCall) (limit : Z) : option Z :=
  head (filter (fun s => slice_bytes tc s <= limit) (divisors (tc_cores tc))).

(** The whole block if it fits; else a split that leaves room for two buffers;
    else one that fills the unified buffer.  The flag says whether there are two
    buffers. *)
Definition split_plan (tc : TransposeCall) : option (bool * Z) :=
  if slice_bytes tc 1 <=? tc_ubSize tc then Some (false, 1)
  else match least_fit tc (tc_ubSize tc / 2) with
       | Some s => Some (true, s)
       | None => match least_fit tc (tc_ubSize tc) with Some s => Some (false, s) | None => None end
       end.

Definition plan_key (tc : TransposeCall) (db : bool) (s : Z) : Z :=
  if s =? 1 then FULL_LOAD
  else match db, tc_blockSize tc mod s =? 0 with
       | true, true => SPLIT_BLOCK_SIZE_ALIGNED_AND_DB
       | true, false => SPLIT_BLOCK_SIZE_UNALIGNED_AND_DB
       | false, true => SPLIT_BLOCK_SIZE_ALIGNED_AND_NOT_DB
       | false, false => SPLIT_BLOCK_SIZE_UNALIGNED_AND_NOT_DB
       end.

(** Groups of [s] cores; the rounds are dealt to the groups. *)
Definition plan_groups (tc : TransposeCall) (s : Z) : Z := Z.min (tc_total tc) (tc_cores tc / s).

Definition split_launch (tc : TransposeCall) (db : bool) (s : Z) : TransposeLaunch :=
  {| tl_tiling := {|
       tt_blockSize := tc_blockSize tc;
       tt_headNum := tc_headNum tc;
       tt_headDim := tc_headDim tc;
       tt_splitNum := tc_splitNum tc;
       tt_layerNum := tc_layerNum tc;
       tt_useCoreNum := plan_groups tc s * s;
       tt_blockPerCore := tc_total tc / plan_groups tc s;
       tt_tailCoreNum := tc_total tc mod plan_groups tc s;
       tt_calBlockNum := tc_calBlockNum tc;
       tt_blockSizePerTime := slice_rows tc s;
       tt_blockSizePerTimeTail := tc_blockSize tc mod s;
       tt_blockSizeSplitNum := s |};
     tl_blockDim := plan_groups tc s * s;
     tl_tilingKey := plan_key tc db s |}.

(** The context and the dynamic inputs present the call. *)
Definition presents (tc : TransposeCall) (context : TilingContext) (dyn : DynamicInputs) : Prop :=
  (exists p, GetPlatformInfoPtr context = Some p /\ GetCoreNumAiv p = tc_cores tc /\
             GetCoreMemSizeUB p = tc_ubSize tc) /\
  HasAttrs context = true /\
  GetAttrInt context 0 = Some (tc_blockSize tc) /\
  GetAttrInt context 1 = Some (tc_headNum tc) /\
  GetAttrInt context 2 = Some (tc_headDim tc) /\
  GetAttrInt context 3 = Some (tc_splitNum tc) /\
  GetAttrInt context 4 = Some (tc_layerNum tc) /\
  (exists shape, dyn 2 0 = Some shape /\ GetDim shape 0 = tc_calBlockNum tc).

(** Positive sizes for which no host computation wraps.  The host does not check them. *)
Record tc_sizes (tc : TransposeCall) : Prop := {
  ts_cores : 0 < tc_cores tc < 2 ^ 32;
  ts_ub : 0 <= tc_ubSize tc;
  ts_blockSize : 0 < tc_blockSize tc < 2 ^ 32;
  ts_headNum : 0 < tc_headNum tc < 2 ^ 32;
  ts_headDim : 0 < tc_headDim tc < 2 ^ 32;
  ts_splitNum : 0 < tc_splitNum tc < 2 ^ 32;
  ts_layerNum : 0 <= tc_layerNum tc < 2 ^ 32;
  ts_calBlockNum : 0 <= tc_calBlockNum tc < 2 ^ 32;
  ts_total : tc_total tc < 2 ^ 32;
  ts_bytes : tc_blockLen tc * DATA_SIZE < 2 ^ 64 }.

Section SplitPlan.
Context (tc : TransposeCall) (Hts : tc_sizes tc).

Lemma slice_rows_bound s : 0 < s -> 1 <= slice_rows tc s <= tc_blockSize tc.
Proof. intros Hs. unfold slice_rows. destruct Hts. split; [apply Z.div_le_lower_bound; lia|]. apply Z.div_le_upper_bound; nia. Qed.

Lemma slice_rows_antitone s s' : 0 < s -> s <= s' -> slice_rows tc s' <= slice_rows tc s.
Proof.
  intros Hs Hle. unfold slice_rows. destruct Hts.
  pose proof (Z.div_mod (tc_blockSize tc + s - 1) s ltac:(lia)). pose proof (Z.mod_pos_bound (tc_blockSize tc + s - 1) s Hs).
  apply Z.lt_succ_r, Z.div_lt_upper_bound; nia.
Qed.

Lemma tc_row_pos : 0 < tc_row tc.
Proof. unfold tc_row. destruct Hts. nia. Qed.

Lemma slice_bytes_antitone s s' : 0 < s -> s <= s' -> slice_bytes tc s' <= slice_bytes tc s.
Proof.
  intros. unfold slice_bytes, DATA_SIZE. pose proof (slice_rows_antitone s s'). pose proof tc_row_pos. nia.
Qed.

Lemma slice_bytes_1 : slice_bytes tc 1 = tc_blockLen tc * DATA_SIZE.
Proof. unfold slice_bytes, slice_rows, tc_blockLen. rewrite Z.div_1_r. lia. Qed.

Lemma slice_bytes_fits_u64 s : 0 < s -> 0 <= slice_bytes tc s < 2 ^ 64.
Proof.
  intros Hs. pose proof (slice_bytes_antitone 1 s ltac:(lia) ltac:(lia)) as H. rewrite slice_bytes_1 in H.
  pose proof (ts_bytes _ Hts). split; [|lia]. unfold slice_bytes, DATA_SIZE.
  pose proof (slice_rows_bound s Hs). pose proof tc_row_pos. nia.
Qed.

Lemma load_bytes_slice s : 0 < s -> load_bytes (tc_blockSize tc) (tc_headNum tc) (tc_headDim tc) s = slice_bytes tc s.
Proof.
  intros Hs. unfold load_bytes. destruct Hts. rewrite quot_nonneg_div by lia. fold (slice_rows tc s).
  rewrite <- (Z.mul_assoc (slice_rows tc s)). fold (tc_row tc) (slice_bytes tc s). apply u64_id, (slice_bytes_fits_u64 s Hs).
Qed.

Lemma whole_slice : u64 (tc_blockSize tc * tc_headNum tc * tc_headDim tc * DATA_SIZE) = slice_bytes tc 1.
Proof.
  rewrite slice_bytes_1. unfold tc_blockLen, tc_row. rewrite <- (Z.mul_assoc (tc_blockSize tc)).
  fold (tc_row tc) (tc_blockLen tc). apply u64_id. rewrite <- slice_bytes_1. by apply slice_bytes_fits_u64.
Qed.

(** The loop of the tiling function is the search for the first fit. *)
Lemma split_loop_first limit s rest :
  Forall (fun d => 0 < d) (s :: rest) ->
  match head (filter (fun d => slice_bytes tc d <= limit) (s :: rest)) with
  | Some d => split_loop limit (tc_blockSize tc) (tc_headNum tc) (tc_headDim tc) rest s (slice_bytes tc s) = (d, true)
  | None => exists d, split_loop limit (tc_blockSize tc) (tc_headNum tc) (tc_headDim tc) rest s (slice_bytes tc s) = (d, false)
  end.
Proof.
  revert s. induction rest as [|f rest IH]; intros s Hpos; rewrite filter_cons; cbn [split_loop];
    destruct (slice_bytes tc s <=? limit) eqn:E; bool_prop.
  - by rewrite decide_True.
  - rewrite decide_False by lia. simpl. by exists s.
  - by rewrite decide_True.
  - rewrite decide_False by lia. apply list.Forall_cons in Hpos as [_ Hpos].
    rewrite load_bytes_slice by (apply list.Forall_cons in Hpos; tauto). by apply IH.
Qed.

Lemma least_fit_Some limit s :
  least_fit tc limit = Some s ->
  (1 <= s <= tc_cores tc /\ tc_cores tc mod s = 0) /\ slice_bytes tc s <= limit /\
  forall d, 1 <= d < s -> tc_cores tc mod d = 0 -> limit < slice_bytes tc d.
Proof.
  unfold least_fit. destruct (filter _ _) as [|x l] eqn:E; [discriminate|]. intros [= ->].
  assert (s ∈ filter (fun s => slice_bytes tc s <= limit) (divisors (tc_cores tc))) as Hs by (rewrite E; left).
  apply list_elem_of_filter in Hs as [Hs1 Hs2]. apply elem_of_divisors in Hs2. split_and!; [lia..|].
  intros d Hd Hm. apply Z.nle_gt. intros Hle.
  assert (d ∈ s :: l) as Hin. { rewrite <- E. apply list_elem_of_filter. split; [done|]. apply elem_of_divisors. lia. }
  assert (StronglySorted Z.le (s :: l)) as Hsort. { rewrite <- E. apply filter_sorted, divisors_sorted. }
  inversion Hsort as [|? ? ? Hall]; subst. apply elem_of_cons in Hin as [-> |Hin]; [lia|].
  rewrite list.Forall_forall in Hall. apply Hall in Hin. lia.
Qed.

(** There is a fit exactly if the share of all cores together fits. *)
Lemma least_fit_None limit : least_fit tc limit = None <-> limit < slice_bytes tc (tc_cores tc).
Proof.
  pose proof (ts_cores _ Hts). unfold least_fit. split.
  - intros Hn. apply Z.nle_gt. intros Hle. destruct (filter _ _) as [|x l] eqn:E; [|discriminate].
    assert (tc_cores tc ∈ @nil Z) as Hin; [|set_solver]. rewrite <- E. apply list_elem_of_filter.
    split; [done|]. apply elem_of_divisors. split; [lia|]. apply Z.mod_same. lia.
  - intros Hlt. destruct (filter _ _) as [|x l] eqn:E; [done|exfalso].
    assert (x ∈ filter (fun s => slice_bytes tc s <= limit) (divisors (tc_cores tc))) as Hs by (rewrite E; left).
    apply list_elem_of_filter in Hs as [Hs1 Hs2]. apply elem_of_divisors in Hs2.
    pose proof (slice_bytes_antitone x (tc_cores tc) ltac:(lia) ltac:(lia)). lia.
Qed.

Lemma divisors_head : exists rest, divisors (tc_cores tc) = 1 :: rest.
Proof.
  pose proof (ts_cores _ Hts). unfold divisors. unfold zrange. rewrite seqZ_cons by lia. rewrite filter_cons.
  rewrite decide_True by apply Z.mod_1_r. eauto.
Qed.

Lemma divisors_pos rest : divisors (tc_cores tc) = 1 :: rest -> Forall (fun d => 0 < d) (1 :: rest).
Proof. intros <-. apply list.Forall_forall. intros d Hd%elem_of_divisors. lia. Qed.

Lemma ub_half : tc_ubSize tc /c DB_ON = tc_ubSize tc / 2.
Proof. apply quot_nonneg_div; [apply (ts_ub _ Hts)|done]. Qed.

(** A split found after the whole block did not fit is a proper one. *)
Lemma least_fit_proper limit s : limit < slice_bytes tc 1 -> least_fit tc limit = Some s -> 1 < s.
Proof.
  intros Hl Hs. apply least_fit_Some in Hs as ((Hs1 & _) & Hs2 & _).
  destruct (decide (s = 1)) as [-> |Hne]; lia.
Qed.

Lemma plan_key_split db s : 1 < s ->
  plan_key tc db s =
    if negb (tc_blockSize tc %c s =? 0)
    then if db then SPLIT_BLOCK_SIZE_UNALIGNED_AND_DB else SPLIT_BLOCK_SIZE_UNALIGNED_AND_NOT_DB
    else if db then SPLIT_BLOCK_SIZE_ALIGNED_AND_DB else SPLIT_BLOCK_SIZE_ALIGNED_AND_NOT_DB.
Proof.
  intros Hs. pose proof (ts_blockSize _ Hts). unfold plan_key. rewrite (proj2 (Z.eqb_neq s 1)) by lia. rewrite rem_nonneg_mod by lia.
  by destruct db, (tc_blockSize tc mod s =? 0).
Qed.

Lemma choose_split_plan rest :
  divisors (tc_cores tc) = 1 :: rest ->
  match split_plan tc with
  | Some (db, s) =>
      choose_split (tc_ubSize tc) (tc_blockSize tc) (tc_headNum tc) (tc_headDim tc) 1 rest = (plan_key tc db s, s, true)
  | None => exists k s,
      choose_split (tc_ubSize tc) (tc_blockSize tc) (tc_headNum tc) (tc_headDim tc) 1 rest = (k, s, false)
  end.
Proof.
  intros Hd. unfold choose_split, split_plan. rewrite whole_slice, ub_half.
  pose proof (divisors_pos rest Hd) as Hpos.
  destruct (slice_bytes tc 1 <=? tc_ubSize tc) eqn:E; bool_prop.
  { by rewrite (proj2 (Z.ltb_ge _ _)) by lia. }
  rewrite (proj2 (Z.ltb_lt _ _)) by lia.
  assert (tc_ubSize tc / 2 <= tc_ubSize tc) as Hhalf by (apply Z.div_le_upper_bound; [|pose proof (ts_ub _ Hts)]; lia).
  pose proof (split_loop_first (tc_ubSize tc / 2) 1 rest Hpos) as H1.
  pose proof (split_loop_first (tc_ubSize tc) 1 rest Hpos) as H2. rewrite <- Hd in H1, H2.
  fold (least_fit tc (tc_ubSize tc / 2)) in H1. fold (least_fit tc (tc_ubSize tc)) in H2.
  destruct (least_fit tc (tc_ubSize tc / 2)) as [s|] eqn:E1.
  - rewrite H1. cbn [negb]. rewrite plan_key_split by (apply (least_fit_proper (tc_ubSize tc / 2)); [lia|done]). done.
  - destruct H1 as (d & ->). cbn [negb]. destruct (least_fit tc (tc_ubSize tc)) as [s|] eqn:E2.
    + rewrite H2. rewrite plan_key_split by (apply (least_fit_proper (tc_ubSize tc)); [lia|done]). done.
    + destruct H2 as (d' & ->). eauto.
Qed.

(** What a planned split guarantees. *)
Lemma split_plan_Some db s :
  split_plan tc = Some (db, s) ->
  (1 <= s <= tc_cores tc /\ tc_cores tc mod s = 0) /\
  slice_bytes tc s <= (if db then tc_ubSize tc / 2 else tc_ubSize tc) /\
  (s = 1 <-> slice_bytes tc 1 <= tc_ubSize tc).
Proof.
  pose proof (ts_cores _ Hts). pose proof (ts_ub _ Hts). unfold split_plan. destruct (slice_bytes tc 1 <=? tc_ubSize tc) eqn:E; bool_prop.
  { intros [= <- <-]. rewrite Z.mod_1_r. lia. }
  assert (tc_ubSize tc / 2 <= tc_ubSize tc) as Hhalf by (apply Z.div_le_upper_bound; lia).
  destruct (least_fit tc (tc_ubSize tc / 2)) as [d|] eqn:E1.
  - intros [= <- <-]. pose proof (least_fit_proper (tc_ubSize tc / 2) d ltac:(lia) E1). apply least_fit_Some in E1 as (? & ? & _).
    split_and!; lia.
  - destruct (least_fit tc (tc_ubSize tc)) as [d|] eqn:E2; [|discriminate]. intros [= <- <-].
    pose proof (least_fit_proper (tc_ubSize tc) d ltac:(lia) E2). apply least_fit_Some in E2 as (? & ? & _). split_and!; lia.
Qed.

(** The launch has whole groups. *)
Lemma plan_groups_bound s :
  0 < tc_total tc -> 1 <= s <= tc_cores tc -> tc_cores tc mod s = 0 ->
  1 <= plan_groups tc s /\ plan_groups tc s * s <= tc_cores tc.
Proof.
  intros Ht Hs Hm. unfold plan_groups. pose proof (Z.div_mod (tc_cores tc) s ltac:(lia)) as Hdm. rewrite Hm in Hdm.
  assert (1 <= tc_cores tc / s) by (apply Z.div_le_lower_bound; lia). nia.
Qed.

Lemma plan_cores s : 0 <= tc_total tc -> 1 <= s -> tc_cores tc mod s = 0 ->
  (if tc_total tc * s <? tc_cores tc then tc_total tc * s else tc_cores tc) = plan_groups tc s * s.
Proof.
  intros Ht Hs Hm. unfold plan_groups. pose proof (Z.div_mod (tc_cores tc) s ltac:(lia)) as Hdm. rewrite Hm in Hdm.
  destruct (Z.ltb_spec (tc_total tc * s) (tc_cores tc)); nia.
Qed.
End SplitPlan.

(** ** The tiling function computes the plan *)

(** A head row is a whole number of 32-byte blocks. *)
Definition head_aligned (tc : TransposeCall) : bool := (tc_headDim tc * DATA_SIZE) mod BLOCK_SIZE =? 0.

Definition align_error : string := "headDim * DATA_SIZE must be a multiple of 32 bytes.".

Definition plan_result (tc : TransposeCall) : HostM TransposeLaunch :=
  if negb (head_aligned tc) then Err (GRAPH_FAILED align_error)
  else match split_plan tc with
       | None => Err (GRAPH_FAILED split_error)
       | Some (db, s) => if tc_total tc =? 0 then Err DivideByZero else Ok (split_launch tc db s)
       end.

(** The remaining computation once a split is chosen. *)
Lemma plan_tail tc db s :
  tc_sizes tc -> split_plan tc = Some (db, s) -> tc_total tc <> 0 ->
  plan_groups tc s * s /c s = plan_groups tc s /\ plan_groups tc s <> 0 /\
  fits_u32 (slice_rows tc s) /\ fits_u32 (tc_blockSize tc mod s) /\ fits_u32 s /\
  fits_u32 (plan_groups tc s * s) /\
  fits_u32 (tc_total tc / plan_groups tc s) /\ fits_u32 (tc_total tc mod plan_groups tc s).
Proof.
  intros Hts Hs Ht. apply split_plan_Some in Hs as ((Hs & Hm) & _); [|done]. destruct Hts.
  assert (0 < tc_total tc) as Htot by (unfold tc_total in *; nia).
  destruct (plan_groups_bound tc s Htot Hs Hm) as (Hg & Hc).
  assert (0 <= slice_rows tc s <= tc_blockSize tc).
  { unfold slice_rows. split; [apply Z.div_pos; lia|]. apply Z.div_le_upper_bound; nia. }
  pose proof (Z.mod_pos_bound (tc_blockSize tc) s ltac:(lia)). pose proof (Z.mod_le (tc_blockSize tc) s ltac:(lia) ltac:(lia)).
  pose proof (Z.mod_pos_bound (tc_total tc) (plan_groups tc s) ltac:(lia)).
  pose proof (Z.mod_le (tc_total tc) (plan_groups tc s) ltac:(lia) ltac:(lia)).
  assert (0 <= tc_total tc / plan_groups tc s <= tc_total tc).
  { split; [apply Z.div_pos; lia|]. apply Z.div_le_upper_bound; nia. }
  rewrite quot_nonneg_div by nia. rewrite Z.div_mul by lia. unfold fits_u32.
  split_and!; try done; try lia; nia.
Qed.

Lemma split_plan_None tc :
  tc_sizes tc -> split_plan tc = None <-> tc_ubSize tc < slice_bytes tc (tc_cores tc).
Proof.
  intros Hts. pose proof (ts_ub _ Hts). pose proof (ts_cores _ Hts).
  pose proof (slice_bytes_antitone tc Hts 1 (tc_cores tc) ltac:(lia) ltac:(lia)).
  assert (tc_ubSize tc / 2 <= tc_ubSize tc) by (apply Z.div_le_upper_bound; lia).
  pose proof (least_fit_None tc Hts (tc_ubSize tc)) as Hn. pose proof (least_fit_None tc Hts (tc_ubSize tc / 2)) as Hn2.
  unfold split_plan. destruct (slice_bytes tc 1 <=? tc_ubSize tc) eqn:E; bool_prop; [split; [done|lia]|].
  destruct (least_fit tc (tc_ubSize tc / 2)) as [s|] eqn:E1.
  - split; [done|]. intros Hlt. by assert (Some s = None) by (apply Hn2; lia).
  - destruct (least_fit tc (tc_ubSize tc)) as [s|] eqn:E2; [|tauto]. split; [done|].
    intros Hlt. by assert (Some s = None) by (by apply Hn).
Qed.

Lemma align_check tc : tc_sizes tc -> negb (u64 (tc_headDim tc * DATA_SIZE) %c BLOCK_SIZE =? 0) = negb (head_aligned tc).
Proof.
  intros []. unfold head_aligned, DATA_SIZE in *. rewrite u64_id by lia. by rewrite rem_nonneg_mod by (unfold BLOCK_SIZE; lia).
Qed.

Lemma CalTiling_plan tc context dyn :
  tc_sizes tc -> presents tc context dyn -> CalTiling context dyn = plan_result tc.
Proof.
  intros Hts ((p & Hp & Hcores & Hub) & Hattrs & H0 & H1 & H2 & H3 & H4 & (shape & Hdyn & Hdim)).
  unfold CalTiling. rewrite (OP_CHECK_NULL_pass _ _ p) by done. cbv zeta. rewrite Hcores, Hub.
  rewrite OP_CHECK_IF_pass by (by rewrite Hattrs). rewrite (OP_CHECK_NULL_pass _ _ _ _ H0).
  rewrite (OP_CHECK_NULL_pass _ _ _ _ H1), (OP_CHECK_NULL_pass _ _ _ _ H2), (OP_CHECK_NULL_pass _ _ _ _ H3).
  rewrite (OP_CHECK_NULL_pass _ _ _ _ H4), (OP_CHECK_NULL_pass _ _ _ _ Hdyn).
  unfold plan_result. rewrite align_check by done. destruct (head_aligned tc); [|done]. cbn [negb].
  rewrite OP_CHECK_IF_pass by done. rewrite findFactors_divisors by apply Hts. rewrite bind_Ok.
  destruct (divisors_head tc Hts) as (rest & Hd). rewrite Hd, bind_Ok, Hdim.
  pose proof (choose_split_plan tc Hts rest Hd) as Hc.
  destruct (split_plan tc) as [[db s]|] eqn:Hs; [|destruct Hc as (k & s & ->); done].
  rewrite Hc. rewrite OP_CHECK_IF_pass by done. fold (tc_total tc).
  destruct (split_plan_Some tc Hts db s Hs) as ((Hs1 & Hm) & _).
  assert (0 <= tc_total tc) as Htot by (destruct Hts; unfold tc_total; nia).
  rewrite plan_cores by (lia || done).
  destruct (tc_total tc =? 0) eqn:E0; bool_prop.
  { unfold plan_groups. rewrite E0, Z.min_l by (apply Z.div_pos; lia). done. }
  destruct (plan_tail tc db s Hts Hs E0) as (Hq & Hnz & F1 & F2 & F3 & F4 & F5 & F6). rewrite Hq.
  destruct (plan_groups_bound tc s ltac:(lia) Hs1 Hm) as (Hg & _).
  rewrite c_quot_pass, bind_Ok, c_rem_pass, bind_Ok by done. destruct Hts.
  rewrite !quot_nonneg_div, !rem_nonneg_mod by lia. fold (slice_rows tc s).
  unfold split_launch. f_equal. f_equal. f_equal; apply u32_id; (done || (unfold fits_u32; lia)).
Qed.

(** C37.  On every call with positive sizes for which no computation of the host
    wraps ([tc_sizes]), the outcome of the tiling function is determined.  It
    reports failure exactly when a head row is not a whole number of 32-byte blocks
    or the share of a core does not fit the unified buffer even when all cores share
    a block; otherwise it divides by zero exactly when there is no round to
    distribute; otherwise it returns exactly the plan: the whole block per core when
    it fits the unified buffer, else the least divisor of the core count whose share
    fits half of it (two buffers), else the least divisor whose share fits it. *)
Theorem CalTiling_exact tc context dyn :
  tc_sizes tc -> presents tc context dyn ->
  CalTiling context dyn = plan_result tc /\
  ((exists log, CalTiling context dyn = Err (GRAPH_FAILED log)) <->
     (tc_headDim tc * DATA_SIZE) mod BLOCK_SIZE <> 0 \/ tc_ubSize tc < slice_bytes tc (tc_cores tc)) /\
  (CalTiling context dyn = Err DivideByZero <->
     (tc_headDim tc * DATA_SIZE) mod BLOCK_SIZE = 0 /\ slice_bytes tc (tc_cores tc) <= tc_ubSize tc /\ tc_total tc = 0).
Proof.
  intros Hts Hp. rewrite (CalTiling_plan tc context dyn Hts Hp). split; [done|].
  pose proof (split_plan_None tc Hts) as Hnone. unfold plan_result, head_aligned.
  destruct (Z.eqb_spec ((tc_headDim tc * DATA_SIZE) mod BLOCK_SIZE) 0) as [Ha|Ha]; cbn [negb].
  - destruct (split_plan tc) as [[db s]|].
    + assert (slice_bytes tc (tc_cores tc) <= tc_ubSize tc) as Hfit by (apply Z.nlt_ge; intros Hlt; by apply Hnone in Hlt).
      destruct (Z.eqb_spec (tc_total tc) 0) as [H0|H0]; (split; split).
      all: try (intros [log Hl]; discriminate Hl). all: try (intros [?|?]; [done|lia]). all: try done. all: intros (_ & _ & ?); done.
    + assert (tc_ubSize tc < slice_bytes tc (tc_cores tc)) as Hno by (by apply Hnone).
      split; split; [by right|by eexists|discriminate|intros (_ & ? & _); lia].
  - split; split; [by left|by eexists|discriminate|intros (? & _); done].
Qed.
