(* ===== verification/TransposeKv.v ===== *)
(** TransposeKvCacheByBlock, device side
    ([csrc/moe/transpose_kv_cache_by_block/op_kernel]): the two kernel classes and
    the selection of an instance by the tiling key.

    The control code of a core reads only the tiling record, the block ids and the
    tensor-list descriptors, none of which the launch changes; what it does to the
    caches, to the buffer queue and to the cross-core flag are the instructions it
    issues.  [Process] is therefore modelled as code that issues a list of
    instructions, and [exec_instr] and [step] say what the cores of a launch do
    with their lists: each core executes its own list in order, and the cores
    interleave arbitrarily, except that [CrossCoreWaitFlag] blocks until every
    core of the launch has set the flag as often as the waiting core. *)

From S2P Require Import Prelude AscendC TilingContext TransposeKvHost.

(** ** Instructions *)

(** [cache] is the address of a tensor in global memory; offsets and lengths are
    in elements of two bytes. *)
Inductive instr : Type :=
  | IAllocTensor
  | ICopyIn (doff cache soff : Z) (p : DataCopyParams)
  | IEnQue
  | IDeQue
  | ICrossCoreSetFlag
  | ICrossCoreWaitFlag
  | ICopyOut (cache off n : Z)
  | IFreeTensor.

#[global] Instance DataCopyParams_eq_dec : EqDecision DataCopyParams.
Proof. solve_decision. Defined.

#[global] Instance instr_eq_dec : EqDecision instr.
Proof. solve_decision. Defined.

(** ** Kernel state *)

Record TransposeKernel : Type := {
  blockSize_ : Z;
  headNum_ : Z;
  headDim_ : Z;
  splitNum_ : Z;
  layerNum_ : Z;
  headNumSplited_ : Z;
  blockSizeSplitNum_ : Z;
  useCoreNum_ : Z;
  blockPerCore_ : Z;
  tailCoreNum_ : Z;
  calBlockNum_ : Z;
  srcFactor_ : Z;
  dstFactor_ : Z;
  blockSizePerTime_ : Z;
  blockSizePerTimeTail_ : Z;
  blockIdx_ : Z;
  dataBlockSize_ : Z }.

(** The members that [Process] changes, and the instructions issued so far. *)
Record KState : Type := {
  ks_copyOutLength : Z;
  ks_needSync : bool;
  ks_issued : list instr }.

Abbreviation K := (M KState fault_kind).

Definition issue (i : instr) : K unit :=
  modify (fun s => {| ks_copyOutLength := ks_copyOutLength s; ks_needSync := ks_needSync s;
                      ks_issued := ks_issued s ++ [i] |}).

Definition set_copyOutLength (n : Z) : K unit :=
  modify (fun s => {| ks_copyOutLength := n; ks_needSync := ks_needSync s; ks_issued := ks_issued s |}).

Definition set_needSync (b : bool) : K unit :=
  modify (fun s => {| ks_copyOutLength := ks_copyOutLength s; ks_needSync := b; ks_issued := ks_issued s |}).

(** ** Tensor lists *)

(** A tensor list is a descriptor of 64-bit words: the first word is the byte
    offset of the table of addresses.  [index] is a [uint16_t]. *)
Definition GetTensorAddr (index : Z) (tensorPtr : tensor Z) : K Z :=
  tensorPtrOffset ← GetValue (fun _ => tensorPtr) 0;
  GetValue (fun _ => tensorPtr) (Z.shiftr tensorPtrOffset 3 + u16 index).

Definition GetDataBlockSizeInBytes : Z := 32.
Definition sizeof_T : Z := 2.

(** What a launch hands to each core. *)
Record TransposeArgs : Type := {
  ta_kCachePtr : tensor Z;
  ta_vCachePtr : tensor Z;
  ta_blockIDs : tensor Z }.

(** The layers of block [i] that a core visits, when its rounds run from layer
    [startLayer] of block [startBlock] to layer [endLayer] of block [endBlock - 1]. *)
Definition realStart (startBlock startLayer i : Z) : Z := if i =? startBlock then startLayer else 0.
Definition realEnd (k : TransposeKernel) (endBlock endLayer i : Z) : Z :=
  if i =? u32 (endBlock - 1) then endLayer else layerNum_ k.

(** ** The kernel that loads whole blocks ([full_load.h])

    This class lacks the members of the other one that describe a share of a
    block; they are 0 here and unused. *)

Definition FullLoad_Init (blockIdx : Z) (t : TransposeTilingData) : TransposeKernel :=
  {| blockSize_ := tt_blockSize t;
     headNum_ := tt_headNum t;
     headDim_ := tt_headDim t;
     splitNum_ := tt_splitNum t;
     layerNum_ := tt_layerNum t;
     headNumSplited_ := 0;
     blockSizeSplitNum_ := 0;
     useCoreNum_ := tt_useCoreNum t;
     blockPerCore_ := tt_blockPerCore t;
     tailCoreNum_ := tt_tailCoreNum t;
     calBlockNum_ := tt_calBlockNum t;
     srcFactor_ := u32 (u32 (tt_blockSize t * tt_headNum t) /c tt_splitNum t * tt_headDim t);
     dstFactor_ := u32 (tt_headNum t /c tt_splitNum t * tt_headDim t);
     blockSizePerTime_ := 0;
     blockSizePerTimeTail_ := 0;
     blockIdx_ := blockIdx;
     dataBlockSize_ := GetDataBlockSizeInBytes |}.

Definition FullLoad_copyOutLength (t : TransposeTilingData) : Z :=
  u32 (u32 (tt_blockSize t * tt_headNum t) * tt_headDim t).

Definition FullLoad_CopyIn (k : TransposeKernel) (cacheGm offsetBlock : Z) (repeatParams : DataCopyParams) : K unit :=
  issue IAllocTensor ;;
  for_range 0 (splitNum_ k) (fun i =>
    issue (ICopyIn (u32 (i * dstFactor_ k)) cacheGm (u32 (u32 (i * srcFactor_ k) + offsetBlock)) repeatParams)) ;;
  issue IEnQue.

Definition FullLoad_CopyOut (cacheGm offsetBlock : Z) : K unit :=
  issue IDeQue ;;
  n ← gets ks_copyOutLength;
  issue (ICopyOut cacheGm offsetBlock n) ;;
  issue IFreeTensor.

Definition FullLoad_Caloffset (k : TransposeKernel) : Z * Z * Z * Z :=
  let '(curBlockStart, curBlocknum) :=
    if blockIdx_ k <? tailCoreNum_ k
    then (u32 (blockIdx_ k * u32 (blockPerCore_ k + 1)), u32 (blockPerCore_ k + 1))
    else (u32 (u32 (blockIdx_ k * blockPerCore_ k) + tailCoreNum_ k), blockPerCore_ k) in
  let curBlockEnd := u32 (curBlockStart + curBlocknum) in
  let startBlock := curBlockStart /c layerNum_ k in
  let startLayer := curBlockStart %c layerNum_ k in
  let endBlock := u32 (u32 (curBlockEnd + layerNum_ k) - 1) /c layerNum_ k in
  let endLayer := curBlockEnd %c layerNum_ k in
  (startBlock, endBlock, startLayer, if endLayer =? 0 then layerNum_ k else endLayer).

Definition FullLoad_repeatParams (k : TransposeKernel) : DataCopyParams :=
  {| blockCount := u16 (blockSize_ k);
     blockLen := u16 (u32 (headNum_ k /c splitNum_ k * headDim_ k) * sizeof_T /c dataBlockSize_ k);
     srcStride := 0;
     dstStride := u16 (u32 (u32 (headNum_ k * headDim_ k) - u32 (headNum_ k /c splitNum_ k * headDim_ k)) * sizeof_T
                       /c dataBlockSize_ k) |}.

Definition FullLoad_Process (k : TransposeKernel) (args : TransposeArgs) : K unit :=
  let '(startBlock, endBlock, startLayer, endLayer) := FullLoad_Caloffset k in
  for_range startBlock endBlock (fun i =>
    blockId ← GetValue (fun _ => ta_blockIDs args) i;
    let offsetBlock := u32 (blockId * blockSize_ k * headNum_ k * headDim_ k) in
    for_range (realStart startBlock startLayer i) (realEnd k endBlock endLayer i) (fun layerId =>
      kCacheGm ← GetTensorAddr layerId (ta_kCachePtr args);
      vCacheGm ← GetTensorAddr layerId (ta_vCachePtr args);
      FullLoad_CopyIn k kCacheGm offsetBlock (FullLoad_repeatParams k) ;;
      FullLoad_CopyOut kCacheGm offsetBlock ;;
      FullLoad_CopyIn k vCacheGm offsetBlock (FullLoad_repeatParams k) ;;
      FullLoad_CopyOut vCacheGm offsetBlock)).

(** [InitBuffer(vecInQueue_, 1, TOTAL_UB_SIZE)], then the instructions of the core. *)
Definition FullLoad_program (t : TransposeTilingData) (args : TransposeArgs) (blockIdx : Z) : outcome fault_kind (list instr) :=
  '(_, s) ← FullLoad_Process (FullLoad_Init blockIdx t) args
              {| ks_copyOutLength := FullLoad_copyOutLength t; ks_needSync := false; ks_issued := [] |};
  Ok (ks_issued s).

(** ** The kernel that splits a block over a group of cores ([general.h]) *)

Definition General_Init (blockIdx : Z) (t : TransposeTilingData) : TransposeKernel :=
  let headNumSplited := tt_headNum t /c tt_splitNum t in
  {| blockSize_ := tt_blockSize t;
     headNum_ := tt_headNum t;
     headDim_ := tt_headDim t;
     splitNum_ := tt_splitNum t;
     layerNum_ := tt_layerNum t;
     headNumSplited_ := headNumSplited;
     blockSizeSplitNum_ := tt_blockSizeSplitNum t;
     useCoreNum_ := tt_useCoreNum t;
     blockPerCore_ := tt_blockPerCore t;
     tailCoreNum_ := tt_tailCoreNum t;
     calBlockNum_ := tt_calBlockNum t;
     srcFactor_ := u32 (u32 (tt_blockSize t * headNumSplited) * tt_headDim t);
     dstFactor_ := u32 (headNumSplited * tt_headDim t);
     blockSizePerTime_ := tt_blockSizePerTime t;
     blockSizePerTimeTail_ := tt_blockSizePerTimeTail t;
     blockIdx_ := blockIdx;
     dataBlockSize_ := GetDataBlockSizeInBytes |}.

Definition General_copyOutLength (t : TransposeTilingData) : Z :=
  u32 (u32 (tt_blockSizePerTime t * tt_headNum t) * tt_headDim t).

Definition General_CopyIn (k : TransposeKernel) (cacheGm offsetBlock : Z) (repeatParams : DataCopyParams) : K unit :=
  issue IAllocTensor ;;
  for_range 0 (splitNum_ k) (fun i =>
    issue (ICopyIn (u32 (i * dstFactor_ k)) cacheGm (u32 (u32 (i * srcFactor_ k) + offsetBlock)) repeatParams)) ;;
  issue IEnQue.

Definition General_CopyOut (cacheGm offsetBlock : Z) : K unit :=
  issue IDeQue ;;
  issue ICrossCoreSetFlag ;;
  issue ICrossCoreWaitFlag ;;
  n ← gets ks_copyOutLength;
  issue (ICopyOut cacheGm offsetBlock n) ;;
  issue IFreeTensor.

Definition General_Caloffset (k : TransposeKernel) : K (Z * Z * Z * Z) :=
  let groupBlockIdx := blockIdx_ k /c blockSizeSplitNum_ k in
  '(curBlockStart, curBlocknum) ←
    (if groupBlockIdx <? tailCoreNum_ k
     then set_needSync false ;;
          mret (u32 (groupBlockIdx * u32 (blockPerCore_ k + 1)), u32 (blockPerCore_ k + 1))
     else set_needSync true ;;
          mret (u32 (u32 (groupBlockIdx * blockPerCore_ k) + tailCoreNum_ k), blockPerCore_ k));
  let curBlockEnd := u32 (curBlockStart + curBlocknum) in
  let startBlock := curBlockStart /c layerNum_ k in
  let startLayer := curBlockStart %c layerNum_ k in
  let endBlock := u32 (u32 (curBlockEnd + layerNum_ k) - 1) /c layerNum_ k in
  let endLayer := curBlockEnd %c layerNum_ k in
  mret (startBlock, endBlock, startLayer, if endLayer =? 0 then layerNum_ k else endLayer).

Definition General_repeatParams (k : TransposeKernel) (count : Z) : DataCopyParams :=
  {| blockCount := u16 count;
     blockLen := u16 (u32 (headNumSplited_ k * headDim_ k) * sizeof_T /c dataBlockSize_ k);
     srcStride := 0;
     dstStride := u16 (u32 (u32 (headNum_ k * headDim_ k) - u32 (headNumSplited_ k * headDim_ k)) * sizeof_T
                       /c dataBlockSize_ k) |}.

(** The share of the core in a block: the first row and the number of rows. *)
Definition General_first_row (k : TransposeKernel) (needHandleUnFactorSplit : bool) : Z :=
  let blockSizeIndex := blockIdx_ k %c blockSizeSplitNum_ k in
  if needHandleUnFactorSplit && (blockSizePerTimeTail_ k <=? blockSizeIndex)
  then u32 (u32 (blockSizeIndex * blockSizePerTime_ k) - u32 (blockSizeIndex - blockSizePerTimeTail_ k))
  else u32 (blockSizeIndex * blockSizePerTime_ k).

Definition General_row_count (k : TransposeKernel) (needHandleUnFactorSplit : bool) : Z :=
  let blockSizeIndex := blockIdx_ k %c blockSizeSplitNum_ k in
  if needHandleUnFactorSplit && (blockSizePerTimeTail_ k <=? blockSizeIndex)
  then u32 (blockSizePerTime_ k - 1) else blockSizePerTime_ k.

Definition General_Process (needHandleUnFactorSplit : bool) (k : TransposeKernel) (args : TransposeArgs) : K unit :=
  '(startBlock, endBlock, startLayer, endLayer) ← General_Caloffset k;
  for_range startBlock endBlock (fun i =>
    blockId ← GetValue (fun _ => ta_blockIDs args) i;
    let offsetBlock := u32 (blockId * blockSize_ k * headNum_ k * headDim_ k) in
    for_range (realStart startBlock startLayer i) (realEnd k endBlock endLayer i) (fun layerId =>
      kCacheGm ← GetTensorAddr layerId (ta_kCachePtr args);
      vCacheGm ← GetTensorAddr layerId (ta_vCachePtr args);
      let rows := General_row_count k needHandleUnFactorSplit in
      let row0 := General_first_row k needHandleUnFactorSplit in
      let params := General_repeatParams k rows in
      set_copyOutLength (u32 (u32 (rows * headNum_ k) * headDim_ k)) ;;
      let srcOffset := u32 (u32 (row0 * headNumSplited_ k) * headDim_ k) in
      let dstOffset := u32 (u32 (row0 * headNum_ k) * headDim_ k) in
      General_CopyIn k kCacheGm (u32 (offsetBlock + srcOffset)) params ;;
      General_CopyOut kCacheGm (u32 (offsetBlock + dstOffset)) ;;
      General_CopyIn k vCacheGm (u32 (offsetBlock + srcOffset)) params ;;
      General_CopyOut vCacheGm (u32 (offsetBlock + dstOffset)))) ;;
  needSync ← gets ks_needSync;
  when needSync
    (issue ICrossCoreSetFlag ;; issue ICrossCoreWaitFlag ;;
     issue ICrossCoreSetFlag ;; issue ICrossCoreWaitFlag).

Definition General_program (needHandleUnFactorSplit : bool) (t : TransposeTilingData) (args : TransposeArgs) (blockIdx : Z)
    : outcome fault_kind (list instr) :=
  '(_, s) ← General_Process needHandleUnFactorSplit (General_Init blockIdx t) args
              {| ks_copyOutLength := General_copyOutLength t; ks_needSync := false; ks_issued := [] |};
  Ok (ks_issued s).

(** ** Selection of the kernel instance ([transpose_kv_cache_by_block.cpp]) *)

(** The buffers of the queue and the instructions of core [blockIdx]; a key that
    selects no instance leaves the core idle. *)
Definition transpose_kv_cache_by_block (tilingKey : Z) (t : TransposeTilingData) (args : TransposeArgs) (blockIdx : Z)
    : outcome fault_kind (list instr) :=
  if tilingKey =? 0 then FullLoad_program t args blockIdx
  else if tilingKey =? 1 then General_program false t args blockIdx
  else if tilingKey =? 2 then General_program false t args blockIdx
  else if tilingKey =? 3 then General_program true t args blockIdx
  else if tilingKey =? 4 then General_program true t args blockIdx
  else Ok [].

(** The number of buffers of the instance: template parameter [DB]. *)
Definition buffer_num (tilingKey : Z) : Z :=
  if (tilingKey =? 1) || (tilingKey =? 3) then 2 else 1.
