(* ===== verification/TransposeKvStep.v ===== *)
(** Interleaved execution of the instruction lists that the cores of a
    TransposeKvCacheByBlock launch issue: local state of a core, effect of an
    instruction, and the step relation of the launch.

    [CrossCoreSetFlag<0x0>] and [CrossCoreWaitFlag] are the barrier of all vector
    cores of a launch: the [n]-th wait of a core is enabled once every core has
    set the flag [n] times. *)

From S2P Require Import Prelude AscendC TransposeKv.

Section Machine.
Context {T : Type}.

(** Global memory: the tensors by address. *)
Abbreviation memory := (gmap Z (tensor T)).

Record core : Type := Core {
  c_code : list instr;
  c_que : TQue T;
  c_local : Z;
  c_sets : nat;
  c_waits : nat }.

Definition buffer (c : core) : tensor T := q_bufs (c_que c) (c_local c).

Definition with_buffer (c : core) (t : tensor T) : core :=
  Core (c_code c)
       (Build_TQue (fun i => if i =? c_local c then t else q_bufs (c_que c) i) (q_free (c_que c)) (q_que (c_que c)))
       (c_local c) (c_sets c) (c_waits c).

(** Effect of an instruction on the memory and on the core that executes it. *)
Definition exec_instr (i : instr) (gm : memory) (c : core) : outcome fault_kind (memory * core) :=
  let q := c_que c in
  match i with
  | IAllocTensor =>
      match q_free q with
      | [] => Err QueueFull
      | b :: rest => Ok (gm, Core (c_code c) (Build_TQue (q_bufs q) rest (q_que q)) b (c_sets c) (c_waits c))
      end
  | ICopyIn doff cache soff p =>
      match gm !! cache with
      | None => Err OutOfBounds
      | Some src => t ← copy_rows sizeof_T p (buffer c) doff src soff; Ok (gm, with_buffer c t)
      end
  | IEnQue =>
      Ok (gm, Core (c_code c) (Build_TQue (q_bufs q) (q_free q) (q_que q ++ [c_local c])) (c_local c) (c_sets c) (c_waits c))
  | IDeQue =>
      match q_que q with
      | [] => Err QueueEmpty
      | b :: rest => Ok (gm, Core (c_code c) (Build_TQue (q_bufs q) (q_free q) rest) b (c_sets c) (c_waits c))
      end
  | ICrossCoreSetFlag => Ok (gm, Core (c_code c) q (c_local c) (S (c_sets c)) (c_waits c))
  | ICrossCoreWaitFlag => Ok (gm, Core (c_code c) q (c_local c) (c_sets c) (S (c_waits c)))
  | ICopyOut cache off n =>
      match gm !! cache with
      | None => Err OutOfBounds
      | Some dst =>
          if negb (block_aligned sizeof_T n) then Err Misaligned
          else if in_tensor dst off n && in_tensor (buffer c) 0 n
          then Ok (<[cache := write_range dst off n (t_at (buffer c))]> gm, c)
          else Err OutOfBounds
      end
  | IFreeTensor =>
      Ok (gm, Core (c_code c) (Build_TQue (q_bufs q) (q_free q ++ [c_local c]) (q_que q)) (c_local c) (c_sets c) (c_waits c))
  end.

Record grid : Type := Grid { g_mem : memory; g_core : Z -> core }.

Definition with_code (c : core) (code : list instr) : core :=
  Core code (c_que c) (c_local c) (c_sets c) (c_waits c).

Definition set_core (f : Z -> core) (b : Z) (c : core) : Z -> core := fun x => if x =? b then c else f x.

(** The instruction may execute now. *)
Definition enabled (N : Z) (g : grid) (b : Z) (i : instr) : Prop :=
  i = ICrossCoreWaitFlag -> forall b', 0 <= b' < N -> (c_waits (g_core g b) < c_sets (g_core g b'))%nat.

(** One core of the [N] executes its next instruction. *)
Inductive step (N : Z) (g : grid) : grid -> Prop :=
  | step_core b i code gm c :
      0 <= b < N -> c_code (g_core g b) = i :: code -> enabled N g b i ->
      exec_instr i (g_mem g) (g_core g b) = Ok (gm, c) ->
      step N g (Grid gm (set_core (g_core g) b (with_code c code))).

(** No core is about to fault. *)
Definition safe (N : Z) (g : grid) : Prop :=
  forall b i code, 0 <= b < N -> c_code (g_core g b) = i :: code -> enabled N g b i ->
    exists r, exec_instr i (g_mem g) (g_core g b) = Ok r.

Definition finished (N : Z) (g : grid) : Prop := forall b, 0 <= b < N -> c_code (g_core g b) = [].

(** The start of a launch: [num] buffers of [len] elements per core, with
    arbitrary contents. *)
Definition start (num len : Z) (junk : Z -> Z -> Z -> T) (gm : memory) (prog : Z -> list instr) : grid :=
  Grid gm (fun b => Core (prog b) (Build_TQue (fun i => Tensor len (junk b i)) (seqZ 0 num) []) 0 0 0).

(** ** Every schedule is finite *)

(** Instructions left. *)
Definition remaining (N : Z) (g : grid) : nat :=
  sum_list (map (fun b => length (c_code (g_core g b))) (zrange 0 N)).

Lemma set_core_same f b c : set_core f b c b = c.
Proof. unfold set_core. by rewrite Z.eqb_refl. Qed.

Lemma set_core_other f b c x : x <> b -> set_core f b c x = f x.
Proof. intros H. unfold set_core. by rewrite (proj2 (Z.eqb_neq _ _) H). Qed.

Lemma sum_list_update (f g : Z -> nat) l b :
  NoDup l -> b ∈ l -> (g b < f b)%nat -> (forall x, x <> b -> g x = f x) ->
  (sum_list (map g l) < sum_list (map f l))%nat.
Proof.
  intros Hnd Hb Hlt Hoth. induction Hnd as [|x l Hx Hnd IH]; [set_solver|]. simpl.
  apply elem_of_cons in Hb as [<- |Hb].
  - assert (map g l = map f l) as ->; [|lia]. apply map_ext_in. intros y Hy. apply Hoth. intros ->.
    apply Hx. by apply list_elem_of_In.
  - rewrite (Hoth x) by (intros ->; done). specialize (IH Hb). lia.
Qed.

Lemma step_remaining N g g' : step N g g' -> (remaining N g' < remaining N g)%nat.
Proof.
  intros [b i code gm c Hb Hcode _ _]. unfold remaining. cbn [g_core]. apply (sum_list_update _ _ _ b).
  - apply NoDup_zrange.
  - by apply elem_of_zrange.
  - rewrite set_core_same, Hcode. simpl. lia.
  - intros x Hx. by rewrite set_core_other.
Qed.

(** A schedule has at most as many steps as there are instructions. *)
Lemma nsteps_remaining N n g g' : nsteps (step N) n g g' -> (n + remaining N g' <= remaining N g)%nat.
Proof.
  induction 1 as [|n g1 g2 g3 Hs Hn IH]; [done|]. pose proof (step_remaining _ _ _ Hs). lia.
Qed.

(** If no reachable state is stuck, every state can run to the end. *)
Lemma runs_to_end N (I : grid -> Prop) :
  (forall g g', I g -> step N g g' -> I g') ->
  (forall g, I g -> finished N g \/ exists g', step N g g') ->
  forall g, I g -> exists g', rtc (step N) g g' /\ finished N g' /\ I g'.
Proof.
  intros Hpres Hprog g. remember (remaining N g) as n eqn:Hn. revert g Hn.
  induction n as [n IH] using lt_wf_ind. intros g -> HI. destruct (Hprog g HI) as [Hf|(g1 & Hs)].
  - exists g. split; [constructor|done].
  - destruct (IH _ (step_remaining _ _ _ Hs) g1 eq_refl (Hpres _ _ HI Hs)) as (g' & Hrun & Hfin).
    exists g'. split; [by eapply rtc_l|done].
Qed.
End Machine.

Arguments core : clear implicits.
Arguments grid : clear implicits.
