(* ===== verification/TransposeKvEngine.v ===== *)
(** Cores that transpose slices of cache blocks in place.

    A core works through a list of items; an item is a slice of rows of one block
    of one cache tensor.  For each item the core loads its rows from the
    [sn] sub-blocks of the block into a buffer, meets the other cores at the
    barrier if the blocks are shared ([sync]), and writes the rows back over the
    same block.  The section below shows, for every interleaving, that such cores
    neither fault nor deadlock and leave every slice transposed, provided that
    items of the same block are at the same position of their lists (or belong to
    the same core, without barriers), and that all cores meet the barrier equally
    often. *)

From S2P Require Import Prelude AscendC TransposeKv TransposeKvStep.

Record item : Type := Item {
  it_cache : Z;
  it_base : Z;
  it_row0 : Z;
  it_rows : Z }.

(** The stages of an item. *)
Inductive stage : Type :=
  | SStart
  | SCopy (k : Z)
  | SQueued
  | SLoaded
  | SSet
  | SGo
  | SWritten.

(** Where a core is: in an item, or past its items with [m] extra barriers behind
    it and possibly in the middle of the next one. *)
Inductive position : Type :=
  | AtItem (j : nat) (p : stage)
  | AtTail (m : nat) (waiting : bool).

(** Source of cell [y] of a transposed block: row [y / W], sub-block
    [y mod W / w]. *)
Definition tr_src (W w bs y : Z) : Z := (y mod W) / w * (bs * w) + y / W * w + (y mod W) mod w.

(** The contents of cell [x] of a cache after the transposition of its block. *)
Definition transposed {T} (W w bs : Z) (t : tensor T) (x : Z) : T :=
  t_at t (x / (bs * W) * (bs * W) + tr_src W w bs (x mod (bs * W))).

Section Code.
Context (sync : bool) (W w sn bs : Z).

Definition it_params (it : item) : DataCopyParams :=
  {| blockCount := it_rows it; blockLen := w / 16; srcStride := 0; dstStride := (W - w) / 16 |}.

Definition it_copy (it : item) (i : Z) : instr :=
  ICopyIn (i * w) (it_cache it) (i * (bs * w) + it_base it + it_row0 it * w) (it_params it).

Definition it_out (it : item) : list instr :=
  [ICopyOut (it_cache it) (it_base it + it_row0 it * W) (it_rows it * W); IFreeTensor].

Definition it_barrier (it : item) : list instr :=
  (if sync then [ICrossCoreSetFlag; ICrossCoreWaitFlag] else []) ++ it_out it.

Definition stage_code (it : item) (p : stage) : list instr :=
  match p with
  | SStart => IAllocTensor :: map (it_copy it) (zrange 0 sn) ++ IEnQue :: IDeQue :: it_barrier it
  | SCopy k => map (it_copy it) (zrange k sn) ++ IEnQue :: IDeQue :: it_barrier it
  | SQueued => IDeQue :: it_barrier it
  | SLoaded => it_barrier it
  | SSet => ICrossCoreWaitFlag :: it_out it
  | SGo => it_out it
  | SWritten => [IFreeTensor]
  end.

Definition item_code (it : item) : list instr := stage_code it SStart.

Fixpoint barriers (n : nat) : list instr :=
  match n with O => [] | S n' => ICrossCoreSetFlag :: ICrossCoreWaitFlag :: barriers n' end.

(** The instructions of a core with these items and extra barriers. *)
Definition core_code (items : list item) (extra : nat) : list instr :=
  concat (map item_code items) ++ barriers extra.

(** Past [j] items. *)
Definition enter (items : list item) (j : nat) : position :=
  if decide (j < length items)%nat then AtItem j SStart else AtTail 0 false.

Definition code_left (items : list item) (extra : nat) (p : position) : option (list instr) :=
  match p with
  | AtItem j p => it ← items !! j; Some (stage_code it p ++ core_code (drop (S j) items) extra)
  | AtTail m false => if decide (m <= extra)%nat then Some (barriers (extra - m)) else None
  | AtTail m true => if decide (m < extra)%nat then Some (ICrossCoreWaitFlag :: barriers (extra - S m)) else None
  end.

(** Barriers set and passed. *)
Definition stage_sets (p : stage) : nat := match p with SSet | SGo | SWritten => 1 | _ => 0 end.
Definition stage_waits (p : stage) : nat := match p with SGo | SWritten => 1 | _ => 0 end.

Definition sets_at (n : nat) (p : position) : nat :=
  match p with
  | AtItem j p => if sync then j + stage_sets p else 0
  | AtTail m b => (if sync then n else 0) + m + (if b then 1 else 0)
  end.

Definition waits_at (n : nat) (p : position) : nat :=
  match p with
  | AtItem j p => if sync then j + stage_waits p else 0
  | AtTail m _ => (if sync then n else 0) + m
  end.

(** The core has written item [j]. *)
Definition wrote (p : position) (j : nat) : Prop :=
  match p with
  | AtItem j' p => (j < j')%nat \/ j = j' /\ p = SWritten
  | AtTail _ _ => True
  end.

Lemma enter_code items extra j :
  (j <= length items)%nat -> code_left items extra (enter items j) = Some (core_code (drop j items) extra).
Proof.
  intros Hj. unfold enter. destruct (decide _) as [Hlt|Hge]; cbn [code_left].
  - destruct (lookup_lt_is_Some_2 items j Hlt) as (it & Hit). rewrite Hit. cbn [mbind option_bind].
    rewrite (drop_S _ _ _ Hit). unfold core_code. cbn [map concat]. by rewrite <- app_assoc.
  - rewrite decide_True by lia. rewrite drop_ge by lia. by rewrite Nat.sub_0_r.
Qed.

Lemma enter_sets items j : (j <= length items)%nat -> sets_at (length items) (enter items j) = if sync then j else 0%nat.
Proof.
  intros Hj. unfold enter. destruct (decide _); simpl; destruct sync; lia.
Qed.

Lemma enter_waits items j : (j <= length items)%nat -> waits_at (length items) (enter items j) = if sync then j else 0%nat.
Proof.
  intros Hj. unfold enter. destruct (decide _); simpl; destruct sync; lia.
Qed.

Lemma enter_wrote items j i : (j <= length items)%nat -> (i < length items)%nat -> wrote (enter items j) i <-> (i < j)%nat.
Proof.
  intros Hj Hi. unfold enter. destruct (decide _); simpl; [|split; [lia|done]].
  split; [intros [?|[_ ?]]; [done|discriminate]|]. by left.
Qed.
End Code.

(** ** Loading a slice *)

Section Loading.
Context {T : Type} (W w sn bs : Z).
Hypothesis Hw : 0 < w.
Hypothesis Hw16 : w mod 16 = 0.
Hypothesis Hsn : 0 < sn.
Hypothesis HW : W = sn * w.
Hypothesis Hbs : 0 < bs.

(** The first [k] sub-blocks of the slice are in the buffer. *)
Definition loaded (k : Z) (it : item) (t0 buf : tensor T) : Prop :=
  forall c, 0 <= c < it_rows it * W -> c mod W < k * w ->
    t_at buf c = t_at t0 (it_base it + tr_src W w bs (it_row0 it * W + c)).

Lemma W_pos : 0 < W.
Proof. nia. Qed.

Lemma W_mod16 : W mod 16 = 0.
Proof. rewrite HW, <- Z.mul_mod_idemp_r, Hw16, Z.mul_0_r by lia. done. Qed.

Lemma copy_len it : blockLen (it_params W w it) * 32 /c sizeof_T = w.
Proof.
  unfold sizeof_T. cbn [blockLen it_params]. rewrite quot_nonneg_div by (pose proof (Z.div_pos w 16); lia).
  pose proof (Z.div_mod w 16 ltac:(lia)). zlia.
Qed.

Lemma copy_gap it : dstStride (it_params W w it) * 32 /c sizeof_T = W - w.
Proof.
  assert (w <= W) by nia. assert ((W - w) mod 16 = 0) as Hm by (pose proof W_mod16; zlia).
  unfold sizeof_T. cbn [dstStride it_params]. rewrite quot_nonneg_div by (pose proof (Z.div_pos (W - w) 16); lia).
  zlia.
Qed.

(** A row and a sub-block, back from the flat index. *)
Lemma tr_src_cell row0 r i c :
  0 <= i < sn -> 0 <= c < w -> 0 <= r ->
  tr_src W w bs (row0 * W + (r * W + (i * w + c))) = i * (bs * w) + (row0 + r) * w + c.
Proof.
  intros Hi Hc Hr. pose proof W_pos as HWp. unfold tr_src.
  replace (row0 * W + (r * W + (i * w + c))) with (i * w + c + (row0 + r) * W) by lia.
  assert (0 <= i * w + c < W) as Hlt by nia.
  rewrite Z.mod_add, Z.div_add by lia. rewrite (Z.mod_small _ W), (Z.div_small _ W) by lia.
  rewrite Z.add_comm, (Z.add_comm (i * w) c). rewrite Z.div_add, Z.mod_add by lia.
  rewrite Z.mod_small, Z.div_small by lia. lia.
Qed.

(** The cells of the slice that copy [k] of the loop writes, and the others. *)
Lemma copy_cell k c :
  0 <= k < sn -> 0 <= c -> k * w <= c mod W < (k + 1) * w ->
  (c - k * w) / W = c / W /\ (c - k * w) mod W = c mod W - k * w.
Proof.
  intros Hk Hc Hm. pose proof W_pos as HWp. pose proof (Z.div_mod c W ltac:(lia)).
  pose proof (Z.mod_pos_bound c W HWp).
  assert (c - k * w = W * (c / W) + (c mod W - k * w)) as He by lia.
  split; symmetry; [eapply Z.div_unique_pos|eapply Z.mod_unique_pos]; try exact He; nia.
Qed.

Lemma copy_other k c :
  0 <= k < sn -> k * w <= c -> c mod W < k * w -> w <= (c - k * w) mod W.
Proof.
  intros Hk Hc Hm. pose proof W_pos as HWp. pose proof (Z.div_mod c W ltac:(lia)) as Hd.
  pose proof (Z.mod_pos_bound c W HWp).
  assert (c - k * w = W * (c / W - 1) + (W + c mod W - k * w)) as He by lia.
  assert ((k + 1) * w <= W) by nia.
  rewrite <- (Z.mod_unique_pos (c - k * w) W (c / W - 1) (W + c mod W - k * w)); nia.
Qed.

(** One strided copy. *)
Lemma copy_load k it (t0 src buf : tensor T) :
  0 <= k < sn -> 1 <= it_rows it <= 4095 -> 0 <= it_row0 it -> it_row0 it + it_rows it <= bs -> 0 <= it_base it ->
  it_rows it * W <= t_len buf -> it_base it + bs * W <= t_len src ->
  (forall x, it_base it <= x < it_base it + bs * W -> t_at src x = t_at t0 x) ->
  loaded k it t0 buf ->
  exists buf', copy_rows sizeof_T (it_params W w it) buf (k * w) src
                 (k * (bs * w) + it_base it + it_row0 it * w) = Ok buf' /\
    t_len buf' = t_len buf /\ loaded (k + 1) it t0 buf'.
Proof.
  intros Hk Hrows Hr0 Hfit Hbase Hbuf Hlen Hsame Hload. pose proof W_pos as HWp.
  unfold copy_rows. cbv zeta. rewrite copy_len, copy_gap. cbn [blockCount srcStride it_params].
  replace (0 * 32 /c sizeof_T) with 0 by done. replace (w + (W - w)) with W by lia. rewrite Z.add_0_r.
  assert (block_aligned sizeof_T (k * w) = true) as ->.
  { unfold block_aligned, sizeof_T. apply Z.eqb_eq. rewrite rem_nonneg_mod by nia.
    pose proof (Z.div_mod w 16 ltac:(lia)). replace (k * w * 2) with (k * (w / 16) * 32) by nia. apply Z.mod_mul. lia. }
  assert (1 <= blockLen (it_params W w it)) as Hbl.
  { cbn [blockLen it_params]. pose proof (Z.div_mod w 16 ltac:(lia)). lia. }
  rewrite (proj2 (Z.leb_le 1 _)) by lia. rewrite (proj2 (Z.leb_le _ 4095)) by lia. rewrite (proj2 (Z.leb_le 1 _) Hbl).
  cbn [andb negb].
  assert ((k + 1) * w <= W) as Hkw by nia.
  rewrite !in_tensor_true by nia. cbn [andb]. eexists. split; [done|]. split; [done|].
  intros c Hc Hm. rewrite write_range_at.
  assert (0 <= c mod W < W) as Hcm by (apply Z.mod_pos_bound; lia). pose proof (Z.div_mod c W ltac:(lia)) as Hcd.
  assert (0 <= c / W < it_rows it) as Hq by (split; [apply Z.div_pos|apply Z.div_lt_upper_bound]; lia).
  destruct (Z.lt_ge_cases (c mod W) (k * w)) as [Hlt|Hge].
  - specialize (Hload c Hc Hlt). destruct (_ && _) eqn:E; [|done]. bool_prop.
    pose proof (copy_other k c Hk ltac:(lia) Hlt). rewrite (proj2 (Z.ltb_ge _ _)) by lia.
    by replace (k * w + (c - k * w)) with c by lia.
  - destruct (copy_cell k c Hk ltac:(lia) ltac:(lia)) as (Hq1 & Hm1). rewrite Hq1, Hm1.
    rewrite (proj2 (Z.leb_le (k * w) c)) by nia. rewrite (proj2 (Z.ltb_lt c _)) by nia.
    rewrite (proj2 (Z.ltb_lt (c mod W - k * w) w)) by lia. cbn [andb].
    replace c with (c / W * W + (k * w + (c mod W - k * w))) at 3 by lia.
    rewrite tr_src_cell by lia. rewrite Hsame; [f_equal; lia|].
    assert (k * (bs * w) + (it_row0 it + c / W) * w + w <= bs * W) by nia. nia.
Qed.
End Loading.

(** ** The invariant of a launch *)

Section Engine.
Context {T : Type} (N : Z) (sync : bool) (W w sn bs Lb : Z).
Context (items : Z -> list item) (extra : Z -> nat) (orig : gmap Z (tensor T)).

(** Geometry, items and barriers that the control code must produce. *)
Record engine_ok : Prop := {
  eo_w : 0 < w;
  eo_w16 : w mod 16 = 0;
  eo_sn : 0 < sn;
  eo_W : W = sn * w;
  eo_bs : 0 < bs;
  eo_item : forall b it, 0 <= b < N -> it ∈ items b ->
    1 <= it_rows it <= 4095 /\ 0 <= it_row0 it /\ it_row0 it + it_rows it <= bs /\
    0 <= it_base it /\ it_base it mod (bs * W) = 0 /\ it_rows it * W <= Lb /\
    exists t0, orig !! it_cache it = Some t0 /\ it_base it + bs * W <= t_len t0;
  eo_once : forall b b' j j' it it', 0 <= b < N -> 0 <= b' < N ->
    items b !! j = Some it -> items b' !! j' = Some it' ->
    it_cache it = it_cache it' -> it_base it = it_base it' ->
    j = j' /\ (sync = false -> b = b');
  eo_nosync : sync = false -> forall b, 0 <= b < N -> extra b = 0%nat;
  eo_total : sync = true -> forall b b', 0 <= b < N -> 0 <= b' < N ->
    (length (items b) + extra b = length (items b') + extra b')%nat }.

(** What the stage of an item says about the core. *)
Definition stage_inv (it : item) (p : stage) (c : core T) : Prop :=
  match p with
  | SStart => q_que (c_que c) = [] /\ q_free (c_que c) <> []
  | SCopy k => q_que (c_que c) = [] /\ 0 <= k <= sn /\
      exists t0, orig !! it_cache it = Some t0 /\ loaded W w bs k it t0 (buffer c)
  | SQueued => exists x, q_que (c_que c) = [x] /\
      exists t0, orig !! it_cache it = Some t0 /\ loaded W w bs sn it t0 (q_bufs (c_que c) x)
  | SLoaded | SSet => sync = true /\ q_que (c_que c) = [] /\
      exists t0, orig !! it_cache it = Some t0 /\ loaded W w bs sn it t0 (buffer c)
  | SGo => q_que (c_que c) = [] /\
      exists t0, orig !! it_cache it = Some t0 /\ loaded W w bs sn it t0 (buffer c)
  | SWritten => q_que (c_que c) = []
  end.

Definition position_inv (b : Z) (p : position) (c : core T) : Prop :=
  match p with
  | AtItem j s => exists it, items b !! j = Some it /\ stage_inv it s c
  | AtTail _ _ => q_que (c_que c) = [] /\ q_free (c_que c) <> []
  end.

Record core_inv (b : Z) (p : position) (c : core T) : Prop := {
  ci_code : code_left sync W w sn bs (items b) (extra b) p = Some (c_code c);
  ci_sets : c_sets c = sets_at sync (length (items b)) p;
  ci_waits : c_waits c = waits_at sync (length (items b)) p;
  ci_bufs : forall i, t_len (q_bufs (c_que c) i) = Lb;
  ci_pos : position_inv b p c }.

(** Cell [x] of cache [a] lies in a slice that has been written. *)
Definition in_slice (it : item) (a x : Z) : Prop :=
  it_cache it = a /\ it_base it + it_row0 it * W <= x < it_base it + (it_row0 it + it_rows it) * W.

Definition rewritten (pos : Z -> position) (a x : Z) : Prop :=
  exists b j it, 0 <= b < N /\ items b !! j = Some it /\ in_slice it a x /\ wrote (pos b) j.

Definition mem_inv (pos : Z -> position) (gm : gmap Z (tensor T)) : Prop :=
  forall a, match orig !! a with
  | Some t0 => exists t, gm !! a = Some t /\ t_len t = t_len t0 /\
      forall x, (rewritten pos a x -> t_at t x = transposed W w bs t0 x) /\
                (~ rewritten pos a x -> t_at t x = t_at t0 x)
  | None => gm !! a = None
  end.

(** No core passes a barrier that another core has not reached. *)
Definition barrier_inv (g : grid T) : Prop :=
  forall b b', 0 <= b < N -> 0 <= b' < N -> (c_waits (g_core g b) <= c_sets (g_core g b'))%nat.

Definition launch_inv (g : grid T) : Prop :=
  barrier_inv g /\
  exists pos, (forall b, 0 <= b < N -> core_inv b (pos b) (g_core g b)) /\ mem_inv pos (g_mem g).

Context (Heo : engine_ok).

Lemma BL_pos : 0 < bs * W.
Proof. destruct Heo. nia. Qed.

(** A slice lies in its block. *)
Lemma slice_block b it a x :
  0 <= b < N -> it ∈ items b -> in_slice it a x ->
  x / (bs * W) * (bs * W) = it_base it /\ x mod (bs * W) = x - it_base it.
Proof.
  intros Hb Hit (Ha & Hx). pose proof BL_pos as HB. destruct (eo_item Heo b it Hb Hit) as (H1 & H2 & H3 & H4 & H5 & _).
  pose proof (W_pos W w sn (eo_w Heo) (eo_sn Heo) (eo_W Heo)) as HWp.
  pose proof (Z.div_mod (it_base it) (bs * W) ltac:(lia)) as Hd. rewrite H5, Z.add_0_r in Hd.
  assert (0 <= x - it_base it < bs * W) as Hr by nia.
  assert (x = (bs * W) * (it_base it / (bs * W)) + (x - it_base it)) as Hx' by lia.
  assert (x / (bs * W) = it_base it / (bs * W)) as Hq.
  { symmetry. eapply Z.div_unique_pos; eassumption. }
  split; [rewrite Hq; lia|]. symmetry. eapply Z.mod_unique_pos; eassumption.
Qed.

(** While the core has not set the flag for item [j], its block is untouched. *)
Lemma block_intact g pos b j it t0 :
  barrier_inv g -> (forall b, 0 <= b < N -> core_inv b (pos b) (g_core g b)) -> mem_inv pos (g_mem g) ->
  0 <= b < N -> items b !! j = Some it -> orig !! it_cache it = Some t0 ->
  (sync = true -> c_sets (g_core g b) <= j)%nat -> ~ wrote (pos b) j ->
  exists t, g_mem g !! it_cache it = Some t /\ t_len t = t_len t0 /\
    forall x, it_base it <= x < it_base it + bs * W -> t_at t x = t_at t0 x.
Proof.
  intros Hbar Hcores Hmem Hb Hj Ht0 Hsets Hnw. specialize (Hmem (it_cache it)). rewrite Ht0 in Hmem.
  destruct Hmem as (t & Ht & Hlen & Hx). exists t. split_and!; [done..|]. intros x Hin. apply Hx.
  intros (b' & j' & it' & Hb' & Hj' & Hsl & Hwr).
  destruct (slice_block b' it' _ x Hb' ltac:(by eapply list_elem_of_lookup_2) Hsl) as (Hbase & Hmod).
  pose proof BL_pos. pose proof (Z.mod_pos_bound x (bs * W) ltac:(lia)) as Hmb.
  destruct (eo_item Heo b it Hb ltac:(by eapply list_elem_of_lookup_2)) as (_ & _ & _ & _ & Hal & _).
  assert (it_base it = it_base it') as Heq.
  { pose proof (Z.div_mod (it_base it) (bs * W) ltac:(lia)) as Hd. rewrite Hal in Hd.
    assert (x / (bs * W) = it_base it / (bs * W)) as Hq by (symmetry; apply (Z.div_unique_pos _ _ _ (x - it_base it)); lia).
    rewrite Hq in Hbase. lia. }
  destruct (eo_once Heo b b' j j' it it' Hb Hb' Hj Hj' ltac:(by destruct Hsl) Heq) as (-> & Hsame).
  destruct sync eqn:Es; [|by destruct (Hsame eq_refl)].
  specialize (Hsets eq_refl). specialize (Hbar b' b Hb' Hb).
  rewrite (ci_waits _ _ _ (Hcores b' Hb')) in Hbar. apply lookup_lt_Some in Hj'. rewrite Es in Hbar.
  destruct (pos b') as [i p|m wt]; cbn [waits_at wrote] in *; [|lia].
  destruct Hwr as [?|[-> ->]]; simpl in Hbar; lia.
Qed.

(** *** One instruction of one core *)

(** The memory of a step: unchanged, or with slice [j] of the core transposed. *)
Definition effect (b : Z) (p p' : position) (gm gm' : gmap Z (tensor T)) : Prop :=
  (gm' = gm /\ forall j, (j < length (items b))%nat -> wrote p' j <-> wrote p j) \/
  exists j it t0 t f, p = AtItem j SGo /\ p' = AtItem j SWritten /\
    items b !! j = Some it /\ orig !! it_cache it = Some t0 /\ gm !! it_cache it = Some t /\
    gm' = <[it_cache it := write_range t (it_base it + it_row0 it * W) (it_rows it * W) f]> gm /\
    forall c, 0 <= c < it_rows it * W -> f c = t_at t0 (it_base it + tr_src W w bs (it_row0 it * W + c)).

Definition core_step_ok (b : Z) (p : position) (c : core T) (i : instr) (code : list instr) (gm : gmap Z (tensor T)) : Prop :=
  exists gm' c' p', exec_instr i gm c = Ok (gm', c') /\ core_inv b p' (with_code c' code) /\ effect b p p' gm gm'.

Definition mem_held (gm : gmap Z (tensor T)) : Prop :=
  forall a t0, orig !! a = Some t0 -> exists t, gm !! a = Some t /\ t_len t = t_len t0.

Lemma item_code_eq b j s it code c :
  items b !! j = Some it -> code_left sync W w sn bs (items b) (extra b) (AtItem j s) = Some code ->
  code = c -> stage_code sync W w sn bs it s ++ core_code sync W w sn bs (drop (S j) (items b)) (extra b) = c.
Proof. intros Hit Hc <-. cbn [code_left] in Hc. rewrite Hit in Hc. by injection Hc. Qed.

Lemma item_code_left b j s it rest :
  items b !! j = Some it ->
  rest = stage_code sync W w sn bs it s ++ core_code sync W w sn bs (drop (S j) (items b)) (extra b) ->
  code_left sync W w sn bs (items b) (extra b) (AtItem j s) = Some rest.
Proof. intros Hit ->. cbn [code_left]. by rewrite Hit. Qed.

(** A stage of the same item that has written nothing yet. *)
Lemma quiet_stage b j s s' gm : s <> SWritten -> s' <> SWritten -> effect b (AtItem j s) (AtItem j s') gm gm.
Proof. intros Hs Hs'. left. split; [done|]. intros i _. simpl. naive_solver. Qed.

Lemma core_inv_item b j s s' c c' it rest :
  core_inv b (AtItem j s) c -> items b !! j = Some it ->
  rest = stage_code sync W w sn bs it s' ++ core_code sync W w sn bs (drop (S j) (items b)) (extra b) ->
  c_sets c' = ((if sync then stage_sets s' - stage_sets s else 0) + c_sets c)%nat ->
  c_waits c' = ((if sync then stage_waits s' - stage_waits s else 0) + c_waits c)%nat ->
  (stage_sets s <= stage_sets s' /\ stage_waits s <= stage_waits s')%nat ->
  (forall i, t_len (q_bufs (c_que c') i) = Lb) -> stage_inv it s' (with_code c' rest) ->
  core_inv b (AtItem j s') (with_code c' rest).
Proof.
  intros [Hcode Hsets Hwaits Hbufs _] Hit Hrest Hs Hwt Hle Hb Hst. constructor.
  - by apply (item_code_left _ _ _ it).
  - cbn [with_code c_sets]. rewrite Hs, Hsets. cbn [sets_at]. destruct sync; lia.
  - cbn [with_code c_waits]. rewrite Hwt, Hwaits. cbn [waits_at]. destruct sync; lia.
  - exact Hb.
  - exists it. split; done.
Qed.

Lemma step_start b j c i code gm :
  0 <= b < N ->
  core_inv b (AtItem j SStart) c -> c_code c = i :: code -> core_step_ok b (AtItem j SStart) c i code gm.
Proof.
  intros Hb Hci Hc. pose proof Hci as [Hcode _ _ Hbufs (it & Hit & Hq & Hf)].
  pose proof (item_code_eq _ _ _ it _ _ Hit Hcode Hc) as Heq. cbn [stage_code app] in Heq. injection Heq as <- Hrest.
  destruct (q_free (c_que c)) as [|x free] eqn:Ef; [done|].
  destruct (eo_item Heo b it Hb ltac:(by eapply list_elem_of_lookup_2)) as (_ & _ & _ & _ & _ & _ & (t0 & Ht0 & _)).
  eexists gm, _, (AtItem j (SCopy 0)). split; [cbn [exec_instr]; by rewrite Ef|]. split; [|by apply quiet_stage].
  eapply core_inv_item; [exact Hci|exact Hit|..]; cbn [c_sets c_waits c_que q_bufs stage_sets stage_waits];
    try done; try (by destruct sync).
  split; [done|]. pose proof (eo_sn Heo). split; [lia|]. exists t0. split; [done|]. intros y Hy Hlt.
  pose proof (Z.mod_pos_bound y W (W_pos W w sn (eo_w Heo) (eo_sn Heo) (eo_W Heo))). lia.
Qed.

Lemma step_copy b j k c i code gm it t0 :
  0 <= b < N ->
  core_inv b (AtItem j (SCopy k)) c -> c_code c = i :: code ->
  items b !! j = Some it -> orig !! it_cache it = Some t0 ->
  (exists t, gm !! it_cache it = Some t /\ t_len t = t_len t0 /\
     forall x, it_base it <= x < it_base it + bs * W -> t_at t x = t_at t0 x) ->
  core_step_ok b (AtItem j (SCopy k)) c i code gm.
Proof.
  intros Hb Hci Hc Hit Ht0 (t & Ht & Hlen & Hsame). pose proof Hci as [Hcode _ _ Hbufs (it' & Hit' & Hq & Hk & t1 & Ht1 & Hl)].
  assert (it' = it) as -> by congruence. assert (t1 = t0) as -> by congruence.
  pose proof (item_code_eq _ _ _ it _ _ Hit Hcode Hc) as Heq. cbn [stage_code] in Heq.
  destruct (eo_item Heo b it Hb ltac:(by eapply list_elem_of_lookup_2)) as (H1 & H2 & H3 & H4 & _ & H6 & (t1 & Ht1' & H7)).
  assert (t1 = t0) as -> by congruence.
  destruct (Z.lt_ge_cases k sn) as [Hlt|Hge].
  - unfold zrange in Heq. rewrite seqZ_cons in Heq by lia. cbn [map app] in Heq. injection Heq as <- Hrest.
    destruct (copy_load W w sn bs (eo_w Heo) (eo_w16 Heo) (eo_sn Heo) (eo_W Heo) (eo_bs Heo) k it t0 t (buffer c))
      as (buf & Hcp & Hbl & Hl'); try done; try lia; [unfold buffer; rewrite Hbufs; lia|].
    eexists gm, _, (AtItem j (SCopy (k + 1))). split; [cbn [exec_instr it_copy]; rewrite Ht, Hcp; by rewrite bind_Ok|].
    split; [|by apply quiet_stage].
    eapply core_inv_item; [exact Hci|exact Hit|..]; cbn [with_buffer c_sets c_waits c_que q_bufs stage_sets stage_waits];
      try done; try (by destruct sync).
    + rewrite <- Hrest. cbn [stage_code]. unfold zrange. by replace (sn - (k + 1)) with (Z.pred (sn - k)) by lia.
    + intros x. destruct (_ =? _); [|done]. rewrite Hbl. apply Hbufs.
    + split; [done|]. split; [lia|]. exists t0. split; [done|]. revert Hl'. unfold buffer, with_code, with_buffer.
      cbn [c_que c_local q_bufs]. by rewrite Z.eqb_refl.
  - unfold zrange in Heq. rewrite seqZ_nil in Heq by lia. cbn [map app] in Heq. injection Heq as <- Hrest.
    eexists gm, _, (AtItem j SQueued). split; [done|]. split; [|by apply quiet_stage].
    eapply core_inv_item; [exact Hci|exact Hit|..]; cbn [c_sets c_waits c_que q_bufs stage_sets stage_waits];
      try done; try (by destruct sync).
    exists (c_local c). cbn [with_code c_que q_que q_bufs]. rewrite Hq. split; [done|]. exists t0. split; [done|].
    by assert (k = sn) as <- by lia.
Qed.

Lemma step_queued b j c i code gm :
  core_inv b (AtItem j SQueued) c -> c_code c = i :: code -> core_step_ok b (AtItem j SQueued) c i code gm.
Proof.
  intros Hci Hc. pose proof Hci as [Hcode _ _ Hbufs (it & Hit & x & Hq & t0 & Ht0 & Hl)].
  pose proof (item_code_eq _ _ _ it _ _ Hit Hcode Hc) as Heq. cbn [stage_code app] in Heq. injection Heq as <- Hrest.
  eexists gm, _, (AtItem j (if sync then SLoaded else SGo)). split; [cbn [exec_instr]; by rewrite Hq|].
  split; [|apply quiet_stage; by destruct sync].
  eapply core_inv_item; [exact Hci|exact Hit|..]; cbn [c_sets c_waits c_que q_bufs stage_sets stage_waits].
  - rewrite <- Hrest. unfold it_barrier. assert (sync = true \/ sync = false) as [-> | ->] by (destruct sync; auto); done.
  - by assert (sync = true \/ sync = false) as [-> | ->] by (destruct sync; auto).
  - by assert (sync = true \/ sync = false) as [-> | ->] by (destruct sync; auto).
  - assert (sync = true \/ sync = false) as [-> | ->] by (destruct sync; auto); simpl; lia.
  - exact Hbufs.
  - assert (sync = true \/ sync = false) as [Hs | Hs] by (destruct sync; auto); rewrite Hs; cbn [stage_inv with_code c_que q_que];
      rewrite ?Hs; eauto.
Qed.

Lemma step_loaded b j c i code gm :
  core_inv b (AtItem j SLoaded) c -> c_code c = i :: code -> core_step_ok b (AtItem j SLoaded) c i code gm.
Proof.
  intros Hci Hc. pose proof Hci as [Hcode _ _ Hbufs (it & Hit & Hs & Hq & t0 & Ht0 & Hl)].
  pose proof (item_code_eq _ _ _ it _ _ Hit Hcode Hc) as Heq. cbn [stage_code] in Heq. unfold it_barrier in Heq.
  rewrite Hs in Heq. cbn [app] in Heq. injection Heq as <- Hrest.
  eexists gm, _, (AtItem j SSet). split; [done|]. split; [|by apply quiet_stage].
  eapply core_inv_item; [exact Hci|exact Hit|..]; cbn [c_sets c_waits c_que q_bufs stage_sets stage_waits];
    rewrite ?Hs; try done; try (simpl; lia); eauto.
  split; eauto.
Qed.

Lemma step_set b j c i code gm :
  core_inv b (AtItem j SSet) c -> c_code c = i :: code -> core_step_ok b (AtItem j SSet) c i code gm.
Proof.
  intros Hci Hc. pose proof Hci as [Hcode _ _ Hbufs (it & Hit & Hs & Hq & t0 & Ht0 & Hl)].
  pose proof (item_code_eq _ _ _ it _ _ Hit Hcode Hc) as Heq. cbn [stage_code app] in Heq. injection Heq as <- Hrest.
  eexists gm, _, (AtItem j SGo). split; [done|]. split; [|by apply quiet_stage].
  eapply core_inv_item; [exact Hci|exact Hit|by rewrite <- Hrest|..]; cbn [c_sets c_waits c_que q_bufs stage_sets stage_waits];
    rewrite ?Hs; try done; try (simpl; lia); eauto.
  split; eauto.
Qed.

Lemma step_go b j c i code gm :
  0 <= b < N -> mem_held gm ->
  core_inv b (AtItem j SGo) c -> c_code c = i :: code -> core_step_ok b (AtItem j SGo) c i code gm.
Proof.
  intros Hb Hpr Hci Hc. pose proof Hci as [Hcode _ _ Hbufs (it & Hit & Hq & t0 & Ht0 & Hl)].
  pose proof (item_code_eq _ _ _ it _ _ Hit Hcode Hc) as Heq. cbn [stage_code app it_out] in Heq. injection Heq as <- Hrest.
  destruct (eo_item Heo b it Hb ltac:(by eapply list_elem_of_lookup_2)) as (H1 & H2 & H3 & H4 & _ & H6 & (t1 & Ht1' & H7)).
  assert (t1 = t0) as -> by congruence. destruct (Hpr _ _ Ht0) as (t & Ht & Hlen).
  pose proof (W_pos W w sn (eo_w Heo) (eo_sn Heo) (eo_W Heo)) as HWp.
  eexists _, _, (AtItem j SWritten). split.
  { cbn [exec_instr]. rewrite Ht.
    assert (block_aligned sizeof_T (it_rows it * W) = true) as ->.
    { unfold block_aligned, sizeof_T. apply Z.eqb_eq. rewrite rem_nonneg_mod by nia.
      pose proof (W_mod16 W w sn (eo_w16 Heo) (eo_W Heo)). pose proof (Z.div_mod W 16 ltac:(lia)).
      replace (it_rows it * W * 2) with (it_rows it * (W / 16) * 32) by nia. apply Z.mod_mul. lia. }
    rewrite !in_tensor_true; [done|..]; unfold buffer; rewrite ?Hbufs; nia. }
  split.
  - eapply core_inv_item; [exact Hci|exact Hit|..]; cbn [stage_sets stage_waits]; try done; by destruct sync.
  - right. exists j, it, t0, t, (t_at (buffer c)). split_and!; try done. intros y Hy. apply Hl; [done|].
    rewrite <- (eo_W Heo). by apply Z.mod_pos_bound.
Qed.

Lemma step_written b j c i code gm :
  core_inv b (AtItem j SWritten) c -> c_code c = i :: code -> core_step_ok b (AtItem j SWritten) c i code gm.
Proof.
  intros Hci Hc. pose proof Hci as [Hcode Hsets Hwaits Hbufs (it & Hit & Hq)].
  pose proof (item_code_eq _ _ _ it _ _ Hit Hcode Hc) as Heq. cbn [stage_code app] in Heq. injection Heq as <- Hrest.
  pose proof (lookup_lt_Some _ _ _ Hit) as Hj.
  eexists gm, _, (enter (items b) (S j)). split; [done|]. split; [|left; split; [done|]].
  - constructor.
    + rewrite enter_code by lia. cbn [with_code c_code]. by rewrite Hrest.
    + cbn [with_code c_sets]. rewrite Hsets, enter_sets by lia. cbn [sets_at stage_sets]. destruct sync; lia.
    + cbn [with_code c_waits]. rewrite Hwaits, enter_waits by lia. cbn [waits_at stage_waits]. destruct sync; lia.
    + exact Hbufs.
    + assert (q_free (c_que c) ++ [c_local c] <> []) as Hne by (by destruct (q_free (c_que c))).
      unfold enter. destruct (decide _) as [Hlt|Hge]; [|by split].
      destruct (lookup_lt_is_Some_2 (items b) (S j) Hlt) as (it' & Hit'). exists it'. by split.
  - intros i Hi. rewrite enter_wrote by lia. simpl. split; [|intros [?|[? _]]; lia].
    intros Hlt. destruct (decide (i = j)) as [?|Hne]; [by right|left; lia].
Qed.

Lemma step_tail b m waiting c i code gm :
  core_inv b (AtTail m waiting) c -> c_code c = i :: code -> core_step_ok b (AtTail m waiting) c i code gm.
Proof.
  intros [Hcode Hsets Hwaits Hbufs Hpos] Hc. rewrite Hc in Hcode.
  destruct waiting; cbn [code_left] in Hcode; destruct (decide _) as [Hm|]; try discriminate.
  - injection Hcode as <- Hrest. eexists gm, _, (AtTail (S m) false). split; [done|]. split; [|by left].
    constructor; cbn [with_code c_code c_sets c_waits c_que sets_at waits_at] in *; try done; try lia.
    cbn [code_left]. rewrite decide_True by lia. by rewrite Hrest.
  - destruct (extra b - m)%nat as [|n] eqn:En; [discriminate|]. injection Hcode as <- Hrest.
    eexists gm, _, (AtTail m true). split; [done|]. split; [|by left].
    constructor; cbn [with_code c_code c_sets c_waits c_que sets_at waits_at] in *; try done; try lia.
    cbn [code_left]. rewrite decide_True by lia. by replace (extra b - S m)%nat with n by lia; rewrite Hrest.
Qed.

Lemma mem_present pos gm : mem_inv pos gm -> mem_held gm.
Proof. intros Hm a t0 Ha. specialize (Hm a). rewrite Ha in Hm. destruct Hm as (t & ? & ? & _). eauto. Qed.

Lemma core_steps g pos b i code :
  barrier_inv g -> (forall b, 0 <= b < N -> core_inv b (pos b) (g_core g b)) -> mem_inv pos (g_mem g) ->
  0 <= b < N -> c_code (g_core g b) = i :: code -> core_step_ok b (pos b) (g_core g b) i code (g_mem g).
Proof.
  intros Hbar Hcores Hmem Hb Hc. pose proof (Hcores b Hb) as Hci.
  destruct (pos b) as [j st|m wt] eqn:Ep; [|by apply step_tail].
  destruct st.
  - by apply step_start.
  - pose proof Hci as [_ Hsets _ _ (it & Hit & _ & _ & t0 & Ht0 & _)].
    apply (step_copy _ _ _ _ _ _ _ it t0); try done.
    apply (block_intact g pos b j it t0); try done.
    + intros Hs. rewrite Hsets. cbn [sets_at stage_sets]. rewrite Hs. lia.
    + rewrite Ep. simpl. intros [?|[_ ?]]; [lia|discriminate].
  - by apply step_queued.
  - by apply step_loaded.
  - by apply step_set.
  - apply step_go; try done. by eapply mem_present.
  - by apply step_written.
Qed.

(** *** The launch *)

Definition move (pos : Z -> position) (b : Z) (p : position) : Z -> position := fun x => if x =? b then p else pos x.

Lemma move_same pos b p : move pos b p b = p.
Proof. unfold move. by rewrite Z.eqb_refl. Qed.

Lemma move_other pos b p x : x <> b -> move pos b p x = pos x.
Proof. intros H. unfold move. by rewrite (proj2 (Z.eqb_neq _ _) H). Qed.

Lemma mem_inv_ext pos pos' gm :
  (forall a x, rewritten pos' a x <-> rewritten pos a x) -> mem_inv pos gm -> mem_inv pos' gm.
Proof.
  intros Hr Hm a. specialize (Hm a). destruct (orig !! a) as [t0|]; [|done].
  destruct Hm as (t & Ht & Hlen & Hx). exists t. split_and!; [done..|]. intros x. rewrite Hr. apply Hx.
Qed.

(** After a write, exactly the cells of the slice are added. *)
Lemma rewritten_write pos b j it a x :
  0 <= b < N -> pos b = AtItem j SGo -> items b !! j = Some it ->
  rewritten (move pos b (AtItem j SWritten)) a x <-> rewritten pos a x \/ in_slice it a x.
Proof.
  intros Hb Hp Hit. split.
  - intros (b' & j' & it' & Hb' & Hit' & Hsl & Hwr). destruct (decide (b' = b)) as [-> |Hne].
    + rewrite move_same in Hwr. destruct Hwr as [Hlt|[-> _]].
      * left. exists b, j', it'. do 3 (split; [done|]). rewrite Hp. by left.
      * right. by assert (it' = it) as <- by congruence.
    + rewrite move_other in Hwr by done. left. by exists b', j', it'.
  - intros [(b' & j' & it' & Hb' & Hit' & Hsl & Hwr)|Hsl].
    + exists b', j', it'. do 3 (split; [done|]). destruct (decide (b' = b)) as [-> |Hne]; [|by rewrite move_other].
      rewrite move_same. rewrite Hp in Hwr. destruct Hwr as [?|[_ ?]]; [by left|discriminate].
    + exists b, j, it. rewrite move_same. do 3 (split; [done|]). by right.
Qed.

Lemma mem_inv_effect pos b p' gm gm' :
  0 <= b < N -> effect b (pos b) p' gm gm' -> mem_inv pos gm -> mem_inv (move pos b p') gm'.
Proof.
  intros Hb [(-> & Hq)|(j & it & t0 & t & f & Hp & -> & Hit & Ht0 & Ht & -> & Hf)] Hm.
  - revert Hm. apply mem_inv_ext. intros a x. unfold rewritten.
    split; intros (b' & j' & it' & Hb' & Hit' & Hsl & Hwr); exists b', j', it'; do 3 (split; [done|]);
      (destruct (decide (b' = b)) as [-> |Hne]; [|by rewrite move_other in * ]);
      rewrite move_same in *; apply Hq; try done; by eapply lookup_lt_Some.
  - intros a. pose proof (Hm a) as Hma. destruct (decide (a = it_cache it)) as [-> |Hne].
    + rewrite Ht0 in *. destruct Hma as (t' & Ht' & Hlen & Hx). assert (t' = t) as -> by congruence.
      eexists. split; [by rewrite lookup_insert_eq|]. split; [done|]. intros x.
      rewrite (rewritten_write pos b j it) by done. unfold in_slice. rewrite write_range_at.
      assert (in_slice it (it_cache it) x -> x / (bs * W) * (bs * W) = it_base it /\ x mod (bs * W) = x - it_base it) as Hblk.
      { apply (slice_block b); [done|by eapply list_elem_of_lookup_2]. }
      destruct (_ && _) eqn:E; bool_prop.
      * split; [|intros Hn; exfalso; apply Hn; right; split; [done|nia]]. intros _.
        destruct Hblk as (H1 & H2); [split; [done|nia]|]. rewrite Hf by lia. unfold transposed. rewrite H1, H2. do 3 f_equal. lia.
      * split; [intros [Hr|[_ Hin]]; [by apply Hx|nia]|]. intros Hn. apply Hx. tauto.
    + destruct (orig !! a) as [t1|].
      * destruct Hma as (t' & Ht' & Hlen & Hx). exists t'. rewrite lookup_insert_ne by done. split_and!; try done.
        intros x. rewrite (rewritten_write pos b j it) by done. unfold in_slice. specialize (Hx x). naive_solver.
      * by rewrite lookup_insert_ne.
Qed.

Lemma exec_counts i gm (c : core T) gm' c' :
  exec_instr i gm c = Ok (gm', c') ->
  (c_sets c <= c_sets c')%nat /\ (i <> ICrossCoreWaitFlag -> c_waits c' = c_waits c) /\
  (i = ICrossCoreWaitFlag -> c_waits c' = S (c_waits c)) /\ (c_waits c' <= S (c_waits c))%nat.
Proof.
  destruct i; cbn [exec_instr]; intros H;
    repeat match type of H with
    | match ?x with _ => _ end = _ => destruct x eqn:?; try discriminate
    | (if ?x then _ else _) = _ => destruct x eqn:?; try discriminate
    end; try (apply outcome_bind_ok in H as (? & _ & H));
    injection H as <- <-; cbn [c_sets c_waits with_buffer]; split_and!; (done || lia || intros; lia || done).
Qed.

Lemma launch_inv_preserved g g' : launch_inv g -> step N g g' -> launch_inv g'.
Proof.
  intros (Hbar & pos & Hcores & Hmem) [b i code gm c Hb Hc Hen Hex].
  destruct (core_steps g pos b i code Hbar Hcores Hmem Hb Hc) as (gm' & c' & p' & Hex' & Hci & Heff).
  rewrite Hex in Hex'. injection Hex' as <- <-. destruct (exec_counts _ _ _ _ _ Hex) as (Hs & Hw1 & Hw2 & _). split.
  - intros b1 b2 Hb1 Hb2. cbn [g_core].
    assert (forall x, 0 <= x < N -> (c_sets (g_core g x) <= c_sets (set_core (g_core g) b (with_code c code) x))%nat) as Hsx.
    { intros x Hx. destruct (decide (x = b)) as [-> |Hne]; [by rewrite set_core_same|by rewrite set_core_other]. }
    specialize (Hsx b2 Hb2). pose proof (Hbar b1 b2 Hb1 Hb2) as H12.
    destruct (decide (b1 = b)) as [-> |Hne]; [|rewrite (set_core_other _ _ _ b1) by done; lia].
    rewrite set_core_same. cbn [with_code c_waits]. assert (i = ICrossCoreWaitFlag \/ i <> ICrossCoreWaitFlag) as [Hi|Hi]
      by (destruct i; auto; right; done).
    + specialize (Hen Hi b2 Hb2). rewrite (Hw2 Hi). lia.
    + rewrite (Hw1 Hi). lia.
  - exists (move pos b p'). cbn [g_core g_mem]. split; [|by apply (mem_inv_effect _ _ _ (g_mem g))].
    intros x Hx. destruct (decide (x = b)) as [-> |Hne].
    + by rewrite move_same, set_core_same.
    + rewrite move_other, set_core_other by done. by apply Hcores.
Qed.

Lemma launch_inv_safe g : launch_inv g -> safe N g.
Proof.
  intros (Hbar & pos & Hcores & Hmem) b i code Hb Hc _.
  destruct (core_steps g pos b i code Hbar Hcores Hmem Hb Hc) as (gm' & c' & p' & Hex & _). eauto.
Qed.

(** A core in front of a wait has set the flag once more than it has waited. *)
Lemma waiting_sets b p c code :
  0 <= b < N -> core_inv b p c -> c_code c = ICrossCoreWaitFlag :: code ->
  sync = true /\ c_sets c = S (c_waits c) /\ (c_sets c <= length (items b) + extra b)%nat.
Proof.
  intros Hb [Hcode Hs Hwt _ Hpos] Hc. rewrite Hs, Hwt. destruct p as [j st|m wt]; cbn [position_inv] in Hpos.
  - destruct Hpos as (it & Hit & Hst). pose proof (lookup_lt_Some _ _ _ Hit).
    pose proof (item_code_eq _ _ _ it _ _ Hit Hcode Hc) as Heq.
    destruct st; cbn [stage_code app it_out] in Heq; try discriminate.
    + unfold zrange in Heq. destruct Hst as (_ & Hk & _). destruct (Z.lt_ge_cases k sn).
      * rewrite seqZ_cons in Heq by lia. discriminate.
      * rewrite seqZ_nil in Heq by lia. discriminate.
    + destruct Hst as (Hsy & _). unfold it_barrier in Heq. rewrite Hsy in Heq. discriminate.
    + destruct Hst as (Hsy & _). cbn [sets_at waits_at stage_sets stage_waits]. rewrite Hsy. split_and!; [done|lia..].
  - rewrite Hc in Hcode. destruct wt; cbn [code_left] in Hcode; destruct (decide _) as [Hm|]; try discriminate.
    + assert (sync = true) as Hsy. { destruct sync eqn:E; [done|]. rewrite (eo_nosync Heo E b Hb) in Hm. lia. }
      cbn [sets_at waits_at]. rewrite Hsy. split_and!; [done|lia..].
    + destruct (extra b - m)%nat; discriminate.
Qed.

(** A core with nothing left has met all its barriers. *)
Lemma ended_sets b p c :
  core_inv b p c -> c_code c = [] -> sync = true -> c_sets c = (length (items b) + extra b)%nat.
Proof.
  intros [Hcode Hs _ _ Hpos] Hc Hsy. rewrite Hs. rewrite Hc in Hcode. destruct p as [j st|m wt]; cbn [position_inv] in Hpos.
  - destruct Hpos as (it & Hit & Hst). pose proof (item_code_eq _ _ _ it _ [] Hit Hcode eq_refl) as Heq.
    apply app_eq_nil in Heq as [Heq _]. destruct st; cbn [stage_code it_out it_barrier] in Heq; try discriminate.
    + apply app_eq_nil in Heq as [_ Heq]. discriminate.
    + unfold it_barrier in Heq. apply app_eq_nil in Heq as [_ Heq]. discriminate.
  - destruct wt; cbn [code_left] in Hcode; destruct (decide _) as [Hm|]; try discriminate.
    destruct (extra b - m)%nat eqn:En; [|discriminate]. cbn [sets_at]. rewrite Hsy. lia.
Qed.

Lemma can_step g pos b i code :
  barrier_inv g -> (forall b, 0 <= b < N -> core_inv b (pos b) (g_core g b)) -> mem_inv pos (g_mem g) ->
  0 <= b < N -> c_code (g_core g b) = i :: code -> enabled N g b i -> exists g', step N g g'.
Proof.
  intros Hbar Hcores Hmem Hb Hc Hen.
  destruct (core_steps g pos b i code Hbar Hcores Hmem Hb Hc) as (gm' & c' & p' & Hex & _).
  eexists. by eapply step_core.
Qed.

Lemma least_of (f : Z -> nat) l : l <> [] -> exists b, b ∈ l /\ forall b', b' ∈ l -> (f b <= f b')%nat.
Proof.
  induction l as [|x l IH]; [done|]. intros _. destruct l as [|y l].
  - exists x. split; [left|]. intros b' Hb'%list_elem_of_singleton. by subst.
  - destruct IH as (b & Hb & Hmin); [done|]. destruct (decide (f x <= f b)%nat) as [Hle|Hgt].
    + exists x. split; [left|]. intros b' [-> |Hb']%elem_of_cons; [done|]. specialize (Hmin b' Hb'). lia.
    + exists b. split; [by right|]. intros b' [-> |Hb']%elem_of_cons; [lia|by apply Hmin].
Qed.

Definition at_wait (c : core T) : bool := match c_code c with ICrossCoreWaitFlag :: _ => true | _ => false end.

Lemma at_wait_inv c : at_wait c = true -> exists code, c_code c = ICrossCoreWaitFlag :: code.
Proof. unfold at_wait. destruct (c_code c) as [|[] ?]; try discriminate. eauto. Qed.

(** No deadlock. *)
Lemma launch_inv_progress g : launch_inv g -> finished N g \/ exists g', step N g g'.
Proof.
  intros (Hbar & pos & Hcores & Hmem).
  set (busy := filter (fun b => c_code (g_core g b) <> []) (zrange 0 N)).
  assert (forall b, b ∈ busy <-> c_code (g_core g b) <> [] /\ 0 <= b < N) as Hbusy.
  { intros b. unfold busy. by rewrite list_elem_of_filter, elem_of_zrange. }
  destruct (decide (busy = [])) as [Hnil|Hne].
  { left. intros b Hb. destruct (c_code (g_core g b)) as [|i code] eqn:Ec; [done|]. exfalso.
    assert (b ∈ busy) as Hin by (apply Hbusy; by rewrite Ec). rewrite Hnil in Hin. set_solver. }
  right. destruct (decide (Exists (fun b => at_wait (g_core g b) = false) busy)) as [Hex|Hall].
  - apply list.Exists_exists in Hex as (b & Hb & Hw). apply Hbusy in Hb as (Hc & Hb).
    destruct (c_code (g_core g b)) as [|i code] eqn:Ec; [done|].
    apply (can_step g pos b i code); try done. intros ->. unfold at_wait in Hw. by rewrite Ec in Hw.
  - assert (forall b, b ∈ busy -> exists code, c_code (g_core g b) = ICrossCoreWaitFlag :: code) as Hwait.
    { intros b Hb. apply at_wait_inv. destruct (at_wait (g_core g b)) eqn:E; [done|]. exfalso. apply Hall.
      apply list.Exists_exists. eauto. }
    destruct (least_of (fun b => c_waits (g_core g b)) busy Hne) as (b & Hb & Hmin).
    destruct (Hwait b Hb) as (code & Hc). apply Hbusy in Hb as (_ & Hb).
    apply (can_step g pos b ICrossCoreWaitFlag code); try done. intros _ b' Hb'.
    destruct (waiting_sets b _ _ code Hb (Hcores b Hb) Hc) as (Hsy & Hsets & Htot).
    destruct (decide (c_code (g_core g b') = [])) as [He|Hn].
    + rewrite (ended_sets b' _ _ (Hcores b' Hb') He Hsy). pose proof (eo_total Heo Hsy b b' Hb Hb'). lia.
    + assert (b' ∈ busy) as Hin by (by apply Hbusy). specialize (Hmin b' Hin). destruct (Hwait b' Hin) as (code' & Hc').
      destruct (waiting_sets b' _ _ code' Hb' (Hcores b' Hb') Hc') as (_ & Hsets' & _). lia.
Qed.

(** The launch starts in the invariant. *)
Lemma launch_inv_start num junk prog :
  0 < num -> (forall b, 0 <= b < N -> prog b = core_code sync W w sn bs (items b) (extra b)) ->
  launch_inv (start num Lb junk orig prog).
Proof.
  intros Hnum Hprog. split; [intros b b' _ _; done|]. exists (fun b => enter (items b) 0). split.
  - intros b Hb. cbn [start g_core]. constructor; cbn [c_code c_sets c_waits c_que q_bufs].
    + rewrite enter_code by lia. by rewrite Hprog.
    + rewrite enter_sets by lia. by destruct sync.
    + rewrite enter_waits by lia. by destruct sync.
    + done.
    + unfold enter. destruct (decide _) as [Hlt|_]; [|split; [done|]; cbn; rewrite seqZ_cons by lia; done].
      destruct (lookup_lt_is_Some_2 (items b) 0 Hlt) as (it & Hit). exists it. split; [done|].
      split; [done|]. cbn. by rewrite seqZ_cons by lia.
  - intros a. cbn [start g_mem]. destruct (orig !! a) as [t0|] eqn:Ha; [|done]. exists t0. split_and!; [done..|].
    intros x. split; [|done]. intros (b & j & it & Hb & Hit & _ & Hwr). exfalso.
    apply enter_wrote in Hwr; [lia|lia|by eapply lookup_lt_Some].
Qed.

(** What a finished launch leaves. *)
Definition covered (a x : Z) : Prop := exists b it, 0 <= b < N /\ it ∈ items b /\ in_slice it a x.

Lemma launch_inv_end g :
  launch_inv g -> finished N g ->
  forall a, match orig !! a with
  | Some t0 => exists t, g_mem g !! a = Some t /\ t_len t = t_len t0 /\
      forall x, (covered a x -> t_at t x = transposed W w bs t0 x) /\ (~ covered a x -> t_at t x = t_at t0 x)
  | None => g_mem g !! a = None
  end.
Proof.
  intros (_ & pos & Hcores & Hmem) Hfin a. specialize (Hmem a). destruct (orig !! a) as [t0|]; [|done].
  destruct Hmem as (t & Ht & Hlen & Hx). exists t. split_and!; [done..|]. intros x.
  assert (rewritten pos a x <-> covered a x) as Hr; [|by rewrite <- Hr].
  split.
  - intros (b & j & it & Hb & Hit & Hsl & _). exists b, it. split; [done|]. split; [by eapply list_elem_of_lookup_2|done].
  - intros (b & it & Hb & Hin & Hsl). apply list_elem_of_lookup in Hin as (j & Hit). exists b, j, it.
    do 3 (split; [done|]). pose proof (Hcores b Hb) as [Hcode _ _ _ Hpos]. rewrite (Hfin b Hb) in Hcode.
    destruct (pos b) as [i st|]; [|done]. destruct Hpos as (it' & Hit' & _).
    pose proof (item_code_eq _ _ _ it' _ [] Hit' Hcode eq_refl) as Heq. apply app_eq_nil in Heq as [Heq _].
    destruct st; cbn [stage_code it_out] in Heq; try discriminate.
    + apply app_eq_nil in Heq as [_ Heq]. discriminate.
    + unfold it_barrier in Heq. apply app_eq_nil in Heq as [_ Heq]. discriminate.
Qed.
End Engine.
