(* ===== verification/TransposeKvControl.v ===== *)
(** The control code of TransposeKvCacheByBlock issues the instructions of
    [TransposeKvEngine]: for each kernel class, the instructions of a core are
    those of its items, one K and one V item for each round of its group. *)

From S2P Require Import Prelude AscendC TilingContext TransposeKvHost TransposeKv TransposeKvStep TransposeKvEngine.

(** ** Code that issues a fixed list *)

(** From a state whose members satisfy [P], [m] keeps [P] and issues [l]. *)
Definition emits (P : Z -> bool -> Prop) (m : K unit) (l : list instr) : Prop :=
  forall s, P (ks_copyOutLength s) (ks_needSync s) ->
    wp m (fun _ s' => P (ks_copyOutLength s') (ks_needSync s') /\ ks_issued s' = ks_issued s ++ l) s.

Section Emits.
Context (P : Z -> bool -> Prop).

Lemma emits_issue i : emits P (issue i) [i].
Proof. intros s HP. by apply wp_modify. Qed.

Lemma emits_seq (m1 : K unit) (m2 : unit -> K unit) l1 l2 l :
  emits P m1 l1 -> emits P (m2 tt) l2 -> l = l1 ++ l2 -> emits P (m1 ≫= m2) l.
Proof.
  intros H1 H2 -> s HP. eapply wp_seq; [by apply H1|]. intros [] s1 (HP1 & Hi1). eapply wp_mono; [by apply H2|].
  intros [] s2 (HP2 & Hi2). split; [done|]. by rewrite Hi2, Hi1, app_assoc.
Qed.

Lemma emits_value {A} (src : tensor A) i (k : A -> K unit) l :
  0 <= i < t_len src -> emits P (k (t_at src i)) l -> emits P (GetValue (fun _ => src) i ≫= k) l.
Proof. intros Hi Hk s HP. apply wp_bind, wp_GetValue; [done|]. by apply Hk. Qed.

Lemma emits_assoc {A B} (m : K A) (f : A -> K B) (k : B -> K unit) l :
  emits P (m ≫= fun a => f a ≫= k) l -> emits P ((m ≫= f) ≫= k) l.
Proof.
  intros H s HP. specialize (H s HP). unfold wp, mbind, M_bind in *. by destruct (m s) as [[a s1]|].
Qed.

Lemma emits_for lo hi (body : Z -> K unit) (f : Z -> list instr) :
  lo <= hi -> (forall i, lo <= i < hi -> emits P (body i) (f i)) ->
  emits P (for_range lo hi body) (concat (map f (zrange lo hi))).
Proof.
  intros Hle Hb s HP.
  eapply (wp_for_range (fun i s' => P (ks_copyOutLength s') (ks_needSync s') /\
            ks_issued s' = ks_issued s ++ concat (map f (zrange lo i)))).
  - done.
  - unfold zrange. rewrite Z.sub_diag, seqZ_nil by lia. simpl. by rewrite app_nil_r.
  - intros i s' Hi (HP' & Hs'). eapply wp_mono; [by apply Hb|]. intros [] s2 (HP2 & Hs2). split; [done|].
    rewrite Hs2, Hs', zrange_snoc, map_app, concat_app by lia. simpl. by rewrite app_nil_r, app_assoc.
  - by intros s' H'.
Qed.

Lemma emits_cast (m : K unit) l l' : emits P m l -> l = l' -> emits P m l'.
Proof. by intros H <-. Qed.
End Emits.

(** ** Rounds of a group *)

(** Group [g] of [groups] takes a contiguous range of the rounds; the first
    [total mod groups] groups take one round more. *)
Definition group_start (total groups g : Z) : Z := g * (total / groups) + Z.min g (total mod groups).
Definition group_stop (total groups g : Z) : Z := group_start total groups (g + 1).

Section Rounds.
Context (total groups : Z) (Hgroups : 1 <= groups <= total).

Lemma group_bpc : 1 <= total / groups.
Proof. apply Z.div_le_lower_bound; lia. Qed.

Lemma group_start_mono g g' : g <= g' -> group_start total groups g <= group_start total groups g'.
Proof. intros H. unfold group_start. pose proof group_bpc. nia. Qed.

Lemma group_range g : 0 <= g < groups ->
  0 <= group_start total groups g < group_stop total groups g /\ group_stop total groups g <= total.
Proof.
  intros Hg. unfold group_stop. pose proof group_bpc. pose proof (Z.mod_pos_bound total groups ltac:(lia)).
  pose proof (Z.div_mod total groups ltac:(lia)).
  pose proof (group_start_mono (g + 1) groups ltac:(lia)) as Hm.
  unfold group_start in *. rewrite (Z.min_r groups) in Hm by lia. nia.
Qed.

(** Every round belongs to exactly one group. *)
Lemma group_unique g g' r :
  0 <= g -> 0 <= g' -> group_start total groups g <= r < group_stop total groups g ->
  group_start total groups g' <= r < group_stop total groups g' -> g = g'.
Proof.
  intros Hg Hg' H H'. unfold group_stop in *. destruct (Z.lt_trichotomy g g') as [Hlt|[?|Hlt]]; [|done|].
  - pose proof (group_start_mono (g + 1) g' ltac:(lia)). lia.
  - pose proof (group_start_mono (g' + 1) g ltac:(lia)). lia.
Qed.

Lemma group_exists r : 0 <= r < total ->
  exists g, 0 <= g < groups /\ group_start total groups g <= r < group_stop total groups g.
Proof.
  intros Hr. pose proof group_bpc as Hb. pose proof (Z.mod_pos_bound total groups ltac:(lia)).
  pose proof (Z.div_mod total groups ltac:(lia)).
  set (q := total / groups) in *. set (t := total mod groups) in *.
  destruct (Z.lt_ge_cases r (t * (q + 1))) as [Hlt|Hge].
  - exists (r / (q + 1)). pose proof (Z.div_mod r (q + 1) ltac:(lia)). pose proof (Z.mod_pos_bound r (q + 1) ltac:(lia)).
    assert (0 <= r / (q + 1) < t) by (split; [apply Z.div_pos|apply Z.div_lt_upper_bound]; lia).
    unfold group_stop, group_start. fold q t. rewrite !Z.min_l by lia. nia.
  - exists ((r - t) / q). pose proof (Z.div_mod (r - t) q ltac:(lia)). pose proof (Z.mod_pos_bound (r - t) q ltac:(lia)).
    assert (t <= (r - t) / q) by (apply Z.div_le_lower_bound; nia).
    assert ((r - t) / q < groups) by (apply Z.div_lt_upper_bound; nia).
    unfold group_stop, group_start. fold q t. rewrite !Z.min_r by lia. nia.
Qed.

Lemma group_count g : 0 <= g ->
  group_stop total groups g - group_start total groups g = total / groups + (if g <? total mod groups then 1 else 0).
Proof.
  intros Hg. unfold group_stop, group_start. destruct (Z.ltb_spec g (total mod groups)); nia.
Qed.
End Rounds.

(** The loop bounds that [Caloffset] derives from a range of rounds. *)
Definition round_bounds (L start stop : Z) : Z * Z * Z * Z :=
  (start / L, (stop + L - 1) / L, start mod L, if stop mod L =? 0 then L else stop mod L).

Lemma round_bounds_end L stop : 0 < L -> 0 < stop ->
  ((stop + L - 1) / L - 1) * L + (if stop mod L =? 0 then L else stop mod L) = stop /\
  0 < (if stop mod L =? 0 then L else stop mod L) <= L.
Proof.
  intros HL Hs. pose proof (Z.div_mod stop L ltac:(lia)). pose proof (Z.mod_pos_bound stop L HL).
  destruct (Z.eqb_spec (stop mod L) 0) as [E|E].
  - assert ((stop + L - 1) / L = stop / L) as -> by (symmetry; apply (Z.div_unique_pos _ _ _ (L - 1)); lia). lia.
  - assert ((stop + L - 1) / L = stop / L + 1) as -> by (symmetry; apply (Z.div_unique_pos _ _ _ (stop mod L - 1)); lia). lia.
Qed.

Lemma zrange_map_shift {A} (f : Z -> A) c lo hi :
  map (fun l => f (c + l)) (zrange lo hi) = map f (zrange (c + lo) (c + hi)).
Proof.
  unfold zrange. replace (c + hi - (c + lo)) with (hi - lo) by lia. rewrite <- (fmap_add_seqZ c lo).
  apply (list_fmap_compose (Z.add c) f).
Qed.

(** The nested loops visit the rounds of the range in order. *)
Lemma emits_rounds P k (ids : tensor Z) (body : Z -> Z -> K unit) (f : Z -> list instr) L start stop :
  0 < L -> layerNum_ k = L -> 0 <= start < stop -> stop + L <= 2 ^ 32 -> (stop + L - 1) / L <= t_len ids ->
  (forall i l, 0 <= i < t_len ids -> 0 <= l < L -> start <= i * L + l < stop ->
     emits P (body (t_at ids i) l) (f (i * L + l))) ->
  emits P
    (for_range (start / L) ((stop + L - 1) / L) (fun i =>
       blockId ← GetValue (fun _ => ids) i;
       for_range (realStart (start / L) (start mod L) i)
                 (realEnd k ((stop + L - 1) / L) (if stop mod L =? 0 then L else stop mod L) i)
                 (body blockId)))
    (concat (map f (zrange start stop))).
Proof.
  intros HL Hk Hs Hmax Hlen Hbody s HP.
  destruct (round_bounds_end L stop HL ltac:(lia)) as (Hend & Hlast).
  set (sb := start / L) in *. set (eb := (stop + L - 1) / L) in *.
  set (el := if stop mod L =? 0 then L else stop mod L) in *.
  pose proof (Z.div_mod start L ltac:(lia)) as Hd. fold sb in Hd. pose proof (Z.mod_pos_bound start L HL) as Hm.
  assert (0 <= sb) as Hsb by (apply Z.div_pos; lia). assert (sb < eb) as Hlt by nia.
  assert (eb <= 2 ^ 32) by nia.
  assert (u32 (eb - 1) = eb - 1) as Heb by (apply u32_id; unfold fits_u32; lia).
  clearbody sb eb el.
  set (bound := fun i => if i =? sb then start else if i =? eb then stop else i * L).
  assert (forall i, sb <= i < eb -> i * L + realStart sb (start mod L) i = bound i /\
            i * L + realEnd k eb el i = bound (i + 1) /\
            start <= bound i <= bound (i + 1) /\ bound (i + 1) <= stop /\
            0 <= realStart sb (start mod L) i /\ realEnd k eb el i <= L) as Hbound.
  { intros i Hi. unfold bound, realStart, realEnd. rewrite Heb, Hk.
    destruct (Z.eqb_spec i sb); destruct (Z.eqb_spec i eb); destruct (Z.eqb_spec i (eb - 1));
      destruct (Z.eqb_spec (i + 1) sb); destruct (Z.eqb_spec (i + 1) eb); subst; nia. }
  eapply (wp_for_range (fun i s' => P (ks_copyOutLength s') (ks_needSync s') /\
            ks_issued s' = ks_issued s ++ concat (map f (zrange start (bound i))))).
  - lia.
  - unfold bound, zrange. rewrite Z.eqb_refl, Z.sub_diag, seqZ_nil by lia. simpl. by rewrite app_nil_r.
  - intros i s' Hi (HP' & Hs'). destruct (Hbound i Hi) as (H1 & H2 & H3 & H4 & H5 & H6).
    apply wp_bind, wp_GetValue; [lia|]. eapply wp_mono.
    + apply (emits_for P _ _ _ (fun l => f (i * L + l))); [lia| |exact HP'].
      intros l Hl. apply Hbody; lia.
    + intros [] s2 (HP2 & Hs2). split; [done|]. rewrite Hs2, Hs', <- app_assoc. f_equal.
      rewrite (zrange_split start (bound i) (bound (i + 1))) by lia. rewrite map_app, concat_app. do 2 f_equal.
      rewrite <- H1, <- H2. apply zrange_map_shift.
  - intros s' (HP' & Hs'). split; [done|]. rewrite Hs'. unfold bound.
    rewrite (proj2 (Z.eqb_neq eb sb)) by lia. by rewrite Z.eqb_refl.
Qed.

(** ** A call and its rounds *)

(** Elements of a row of a sub-block. *)
Definition tc_part (tc : TransposeCall) : Z := tc_headNum tc / tc_splitNum tc * tc_headDim tc.

(** A descriptor lists the addresses of [L] tensors. *)
Definition desc_ok (d : tensor Z) (addr : Z -> Z) (L : Z) : Prop :=
  0 < t_len d /\
  forall l, 0 <= l < L ->
    0 <= Z.shiftr (t_at d 0) 3 + l < t_len d /\ t_at d (Z.shiftr (t_at d 0) 3 + l) = addr l.

(** What the kernel relies on: sizes, aligned heads, tensor lists for all layers,
    and block ids whose blocks have element offsets of 32 bits. *)
Record call_ok (tc : TransposeCall) (args : TransposeArgs) (kaddr vaddr : Z -> Z) : Prop := {
  co_sizes : tc_sizes tc;
  co_align : head_aligned tc = true;
  co_layers : 0 < tc_layerNum tc <= 2 ^ 16;
  co_blocks : 0 < tc_calBlockNum tc;
  co_rounds : tc_total tc + tc_layerNum tc <= 2 ^ 32;
  co_ub : tc_ubSize tc <= 2 ^ 20;
  co_split : tc_headNum tc mod tc_splitNum tc = 0;
  co_kdesc : desc_ok (ta_kCachePtr args) kaddr (tc_layerNum tc);
  co_vdesc : desc_ok (ta_vCachePtr args) vaddr (tc_layerNum tc);
  co_len : t_len (ta_blockIDs args) = tc_calBlockNum tc;
  co_ids : forall i, 0 <= i < tc_calBlockNum tc ->
    0 <= t_at (ta_blockIDs args) i /\ (t_at (ta_blockIDs args) i + 1) * tc_blockLen tc < 2 ^ 32 }.

Section Call.
Context (tc : TransposeCall) (args : TransposeArgs) (kaddr vaddr : Z -> Z).
Context (Hok : call_ok tc args kaddr vaddr).

(** The block of round [r], as an element offset. *)
Definition round_base (r : Z) : Z := t_at (ta_blockIDs args) (r / tc_layerNum tc) * tc_blockLen tc.

Definition round_items (row0 rows r : Z) : list item :=
  [Item (kaddr (r mod tc_layerNum tc)) (round_base r) row0 rows;
   Item (vaddr (r mod tc_layerNum tc)) (round_base r) row0 rows].

Definition code_of (sync : bool) : item -> list instr :=
  item_code sync (tc_row tc) (tc_part tc) (tc_splitNum tc) (tc_blockSize tc).

Lemma part_row : tc_row tc = tc_splitNum tc * tc_part tc.
Proof.
  destruct Hok as [Hts _ _ _ _ _ Hs _ _ _ _]. destruct Hts. unfold tc_row, tc_part.
  pose proof (Z.div_mod (tc_headNum tc) (tc_splitNum tc) ltac:(lia)). nia.
Qed.

Lemma part_pos : 0 < tc_part tc.
Proof.
  pose proof part_row as H. pose proof (tc_row_pos tc (co_sizes _ _ _ _ Hok)). pose proof (ts_splitNum _ (co_sizes _ _ _ _ Hok)). nia.
Qed.

Lemma part_mod16 : tc_part tc mod 16 = 0.
Proof.
  pose proof (co_sizes _ _ _ _ Hok) as []. pose proof (co_align _ _ _ _ Hok) as Hal. unfold head_aligned, DATA_SIZE, BLOCK_SIZE in *.
  bool_prop. unfold tc_part.
  assert (tc_headDim tc mod 16 = 0) as Hm by zlia.
  rewrite <- Z.mul_mod_idemp_r, Hm by lia. by rewrite Z.mul_0_r.
Qed.

Lemma row_le_blockLen : tc_row tc <= tc_blockLen tc.
Proof.
  pose proof (tc_row_pos tc (co_sizes _ _ _ _ Hok)). pose proof (ts_blockSize _ (co_sizes _ _ _ _ Hok)). unfold tc_blockLen. nia.
Qed.

(** A block, hence each of its rows and sub-blocks, has less than 2^32 elements. *)
Lemma blockLen_u32 : 0 < tc_blockLen tc < 2 ^ 32.
Proof.
  pose proof (tc_row_pos tc (co_sizes _ _ _ _ Hok)). pose proof (ts_blockSize _ (co_sizes _ _ _ _ Hok)).
  destruct (co_ids _ _ _ _ Hok 0) as (H1 & H2); [pose proof (co_blocks _ _ _ _ Hok); lia|].
  unfold tc_blockLen in *. nia.
Qed.

Lemma round_bound r : 0 <= r < tc_total tc ->
  0 <= r / tc_layerNum tc < tc_calBlockNum tc /\ 0 <= r mod tc_layerNum tc < tc_layerNum tc.
Proof.
  intros Hr. pose proof (co_layers _ _ _ _ Hok). split; [|apply Z.mod_pos_bound; lia].
  split; [apply Z.div_pos; lia|]. apply Z.div_lt_upper_bound; [lia|]. unfold tc_total in Hr. lia.
Qed.

Lemma round_split i l : 0 <= l < tc_layerNum tc ->
  (i * tc_layerNum tc + l) / tc_layerNum tc = i /\ (i * tc_layerNum tc + l) mod tc_layerNum tc = l.
Proof.
  intros Hl. rewrite Z.add_comm, Z.div_add, Z.mod_add by lia. rewrite Z.div_small, Z.mod_small by lia. lia.
Qed.

Lemma round_base_bound r : 0 <= r < tc_total tc -> 0 <= round_base r /\ round_base r + tc_blockLen tc < 2 ^ 32.
Proof.
  intros Hr. destruct (round_bound r Hr) as (Hi & _). destruct (co_ids _ _ _ _ Hok _ Hi) as (H1 & H2).
  unfold round_base. pose proof blockLen_u32. nia.
Qed.

(** The offset the kernels compute for a block id. *)
Lemma offsetBlock_round k i l :
  blockSize_ k = tc_blockSize tc -> headNum_ k = tc_headNum tc -> headDim_ k = tc_headDim tc ->
  0 <= i < tc_calBlockNum tc -> 0 <= l < tc_layerNum tc ->
  u32 (t_at (ta_blockIDs args) i * blockSize_ k * headNum_ k * headDim_ k) = round_base (i * tc_layerNum tc + l).
Proof.
  intros -> -> -> Hi Hl. unfold round_base. destruct (round_split i l Hl) as (-> & _).
  destruct (co_ids _ _ _ _ Hok i Hi) as (H1 & H2). pose proof blockLen_u32.
  replace (t_at (ta_blockIDs args) i * tc_blockSize tc * tc_headNum tc * tc_headDim tc)
    with (t_at (ta_blockIDs args) i * tc_blockLen tc) by (unfold tc_blockLen, tc_row; ring).
  apply u32_id. unfold fits_u32. nia.
Qed.

Lemma emits_addr P d addr l (k : Z -> K unit) code :
  desc_ok d addr (tc_layerNum tc) -> 0 <= l < tc_layerNum tc ->
  emits P (k (addr l)) code -> emits P (GetTensorAddr l d ≫= k) code.
Proof.
  intros (Hd & Ha) Hl Hk. destruct (Ha l Hl) as (Hin & He). rewrite <- He in Hk. unfold GetTensorAddr. apply emits_assoc.
  apply emits_value; [lia|]. pose proof (co_layers _ _ _ _ Hok). rewrite (u16_id l) by lia. by apply emits_value.
Qed.

(** *** What both kernels issue for an item *)

Lemma headDim_16 : 16 <= tc_headDim tc.
Proof.
  pose proof (co_sizes _ _ _ _ Hok) as []. pose proof (co_align _ _ _ _ Hok) as Hal. unfold head_aligned, DATA_SIZE, BLOCK_SIZE in *.
  bool_prop. zlia.
Qed.

Lemma part_le_row : tc_part tc <= tc_row tc.
Proof. pose proof part_row. pose proof part_pos. pose proof (ts_splitNum _ (co_sizes _ _ _ _ Hok)). nia. Qed.

Lemma concat_singletons {A} (f : Z -> A) l : concat (map (fun i => [f i]) l) = map f l.
Proof. induction l as [|x l IH]; [done|]. simpl. by rewrite IH. Qed.

(** The members of an initialised kernel object that the copies use. *)
Record kernel_for (k : TransposeKernel) : Prop := {
  kf_blockSize : blockSize_ k = tc_blockSize tc;
  kf_headNum : headNum_ k = tc_headNum tc;
  kf_headDim : headDim_ k = tc_headDim tc;
  kf_splitNum : splitNum_ k = tc_splitNum tc;
  kf_layerNum : layerNum_ k = tc_layerNum tc;
  kf_srcFactor : srcFactor_ k = tc_blockSize tc * tc_part tc;
  kf_dstFactor : dstFactor_ k = tc_part tc }.

Definition params_for (rows : Z) : DataCopyParams :=
  it_params (tc_row tc) (tc_part tc) (Item 0 0 0 rows).

Definition copy_in_code (it : item) : list instr :=
  IAllocTensor ::
  map (it_copy (tc_row tc) (tc_part tc) (tc_blockSize tc) it) (zrange 0 (tc_splitNum tc)) ++ [IEnQue].

Lemma emits_CopyIn P k it off :
  kernel_for k -> off = it_base it + it_row0 it * tc_part tc ->
  0 <= it_row0 it < tc_blockSize tc -> 0 <= it_base it -> it_base it + tc_blockLen tc < 2 ^ 32 ->
  emits P (FullLoad_CopyIn k (it_cache it) off (params_for (it_rows it))) (copy_in_code it).
Proof.
  intros [_ _ _ Hsn _ Hsrc Hdst] -> Hr0 Hb Hmax. pose proof part_pos. pose proof part_row as Hrow.
  pose proof part_le_row as Hle. pose proof (ts_blockSize _ (co_sizes _ _ _ _ Hok)).
  pose proof (ts_splitNum _ (co_sizes _ _ _ _ Hok)).
  unfold FullLoad_CopyIn. rewrite Hsn, Hsrc, Hdst.
  eapply emits_seq; [apply emits_issue| |reflexivity]. eapply emits_seq; [|apply emits_issue|reflexivity].
  eapply emits_cast; [apply (emits_for P _ _ _ (fun i => [it_copy (tc_row tc) (tc_part tc) (tc_blockSize tc) it i]))|].
  - lia.
  - intros i Hi. unfold it_copy. unfold tc_blockLen in Hmax.
    assert (i * (tc_blockSize tc * tc_part tc) + it_row0 it * tc_part tc + tc_part tc <= tc_blockSize tc * tc_row tc) by nia.
    assert (tc_row tc <= tc_blockSize tc * tc_row tc) by nia.
    rewrite (u32_id (i * tc_part tc)) by (unfold fits_u32; nia).
    rewrite (u32_id (i * (tc_blockSize tc * tc_part tc))) by (unfold fits_u32; nia).
    rewrite u32_id by (unfold fits_u32; nia). rewrite <- Z.add_assoc. apply emits_issue.
  - apply concat_singletons.
Qed.

Lemma item_code_false it :
  code_of false it = copy_in_code it ++ IDeQue :: it_out (tc_row tc) it.
Proof. unfold code_of, item_code, copy_in_code. cbn [stage_code app]. f_equal. by rewrite <- app_assoc. Qed.

Lemma item_code_true it :
  code_of true it = copy_in_code it ++ IDeQue :: ICrossCoreSetFlag :: ICrossCoreWaitFlag :: it_out (tc_row tc) it.
Proof. unfold code_of, item_code, copy_in_code. cbn [stage_code app]. f_equal. by rewrite <- app_assoc. Qed.

(** Products of the sizes as the kernels form them in 32 bits. *)
Lemma u32_product x q h : 0 <= x -> 0 <= q -> 1 <= h -> x * q * h < 2 ^ 32 -> u32 (u32 (x * q) * h) = x * (q * h).
Proof.
  intros Hx Hq Hh Hlt. assert (0 <= x * q) as Hn by (apply Z.mul_nonneg_nonneg; lia).
  assert (x * q <= x * q * h) by nia.
  rewrite (u32_id (x * q)) by (unfold fits_u32; lia). rewrite Z.mul_assoc. apply u32_id. unfold fits_u32. nia.
Qed.

Lemma row_product x : 0 <= x <= tc_blockSize tc -> u32 (u32 (x * tc_headNum tc) * tc_headDim tc) = x * tc_row tc.
Proof.
  intros Hx. pose proof (co_sizes _ _ _ _ Hok) as []. pose proof blockLen_u32 as Hbl. unfold tc_blockLen, tc_row in *.
  apply u32_product; try lia.
  assert (x * (tc_headNum tc * tc_headDim tc) <= tc_blockSize tc * (tc_headNum tc * tc_headDim tc)); [|lia].
  apply Z.mul_le_mono_nonneg_r; lia.
Qed.

Lemma part_product x : 0 <= x <= tc_blockSize tc ->
  u32 (u32 (x * (tc_headNum tc / tc_splitNum tc)) * tc_headDim tc) = x * tc_part tc.
Proof.
  intros Hx. pose proof (co_sizes _ _ _ _ Hok) as []. pose proof blockLen_u32 as Hbl. pose proof part_le_row as Hle.
  pose proof part_pos. unfold tc_blockLen, tc_part in *.
  assert (0 <= tc_headNum tc / tc_splitNum tc) by (apply Z.div_pos; lia). apply u32_product; try lia.
  assert (x * (tc_headNum tc / tc_splitNum tc * tc_headDim tc) <= tc_blockSize tc * tc_row tc); [|lia].
  apply Z.mul_le_mono_nonneg; lia.
Qed.

Lemma part_product_1 : u32 (tc_headNum tc / tc_splitNum tc * tc_headDim tc) = tc_part tc.
Proof.
  pose proof blockLen_u32. pose proof part_pos. pose proof part_le_row. pose proof row_le_blockLen.
  apply u32_id. unfold fits_u32, tc_part in *. lia.
Qed.

(** The strides in 32-byte units, for a row that fits the unified buffer. *)
Lemma params_eq rows :
  tc_row tc < 2 ^ 20 -> 0 <= rows < 2 ^ 16 ->
  {| blockCount := u16 rows;
     blockLen := u16 (tc_part tc * sizeof_T /c GetDataBlockSizeInBytes);
     srcStride := 0;
     dstStride := u16 (u32 (u32 (tc_headNum tc * tc_headDim tc) - tc_part tc) * sizeof_T /c GetDataBlockSizeInBytes) |}
  = params_for rows.
Proof.
  intros Hrow Hr. pose proof part_pos. pose proof part_le_row. pose proof part_mod16.
  pose proof (W_mod16 (tc_row tc) (tc_part tc) (tc_splitNum tc) part_mod16 part_row).
  unfold params_for, it_params, sizeof_T, GetDataBlockSizeInBytes. cbn [it_rows]. fold (tc_row tc).
  rewrite (u32_id (tc_row tc)) by (unfold fits_u32; lia). rewrite (u32_id (_ - _)) by (unfold fits_u32; lia).
  rewrite !quot_nonneg_div by lia. rewrite (u16_id rows) by lia.
  f_equal; rewrite u16_id; zlia.
Qed.

(** *** The rounds of a group *)

Section Group.
Context (groups : Z) (Hg : 1 <= groups <= tc_total tc).

Definition g_start (g : Z) : Z := group_start (tc_total tc) groups g.
Definition g_end (g : Z) : Z := group_stop (tc_total tc) groups g.

Definition group_items (row0 rows g : Z) : list item :=
  concat (map (round_items row0 rows) (zrange (g_start g) (g_end g))).

Definition round_code (sync : bool) (row0 rows r : Z) : list instr :=
  concat (map (code_of sync) (round_items row0 rows r)).

Lemma group_code sync row0 rows g :
  concat (map (code_of sync) (group_items row0 rows g)) =
  concat (map (round_code sync row0 rows) (zrange (g_start g) (g_end g))).
Proof.
  unfold group_items. induction (zrange _ _) as [|r l IH]; [done|]. cbn [map concat].
  by rewrite map_app, concat_app, IH.
Qed.

(** The four results of [Caloffset], for a group that starts at [start]. *)
Lemma bounds_eq g start count :
  0 <= g < groups -> start = g_start g -> count = g_end g - g_start g ->
  (start /c tc_layerNum tc,
   u32 (u32 (u32 (start + count) + tc_layerNum tc) - 1) /c tc_layerNum tc,
   start %c tc_layerNum tc,
   if u32 (start + count) %c tc_layerNum tc =? 0 then tc_layerNum tc else u32 (start + count) %c tc_layerNum tc) =
  round_bounds (tc_layerNum tc) (g_start g) (g_end g).
Proof.
  intros Hgg -> ->. destruct (group_range (tc_total tc) groups Hg g Hgg) as (H1 & H2). fold (g_start g) (g_end g) in *.
  pose proof (co_rounds _ _ _ _ Hok). pose proof (co_layers _ _ _ _ Hok).
  replace (g_start g + (g_end g - g_start g)) with (g_end g) by lia.
  rewrite (u32_id (g_end g)) by (unfold fits_u32; lia).
  assert (u32 (u32 (g_end g + tc_layerNum tc) - 1) = g_end g + tc_layerNum tc - 1) as ->.
  { unfold u32. rewrite Zminus_mod_idemp_l. apply Z.mod_small. lia. }
  unfold round_bounds. by rewrite !quot_nonneg_div, !rem_nonneg_mod by lia.
Qed.

Lemma round_bounds_ids g : 0 <= g < groups ->
  (g_end g + tc_layerNum tc - 1) / tc_layerNum tc <= t_len (ta_blockIDs args).
Proof.
  intros Hgg. destruct (group_range (tc_total tc) groups Hg g Hgg) as (H1 & H2). fold (g_start g) (g_end g) in *.
  pose proof (co_layers _ _ _ _ Hok). rewrite (co_len _ _ _ _ Hok). unfold tc_total in H2.
  apply Z.lt_succ_r, Z.div_lt_upper_bound; [lia|]. nia.
Qed.

(** Both ways to write the first round of a group. *)
Lemma start_cases g : 0 <= g < groups ->
  let bpc := tc_total tc / groups in
  let tail := tc_total tc mod groups in
  (if g <? tail then (u32 (g * u32 (bpc + 1)), u32 (bpc + 1)) else (u32 (u32 (g * bpc) + tail), bpc)) =
  (g_start g, g_end g - g_start g).
Proof.
  intros Hgg bpc tail. destruct (group_range (tc_total tc) groups Hg g Hgg) as (H1 & H2).
  pose proof (group_count (tc_total tc) groups g ltac:(lia)) as Hc. fold bpc tail in Hc.
  pose proof (co_rounds _ _ _ _ Hok). pose proof (co_layers _ _ _ _ Hok). pose proof (group_bpc (tc_total tc) groups Hg) as Hb.
  pose proof (Z.mod_pos_bound (tc_total tc) groups ltac:(lia)) as Htb. fold tail in Htb. fold bpc in Hb.
  assert (g_start g = g * bpc + Z.min g tail) as Hst by done. fold (g_start g) (g_end g) in *.
  destruct (Z.ltb_spec g tail).
  - rewrite (u32_id (bpc + 1)) by (unfold fits_u32; nia). rewrite u32_id by (unfold fits_u32; nia). f_equal; nia.
  - rewrite (u32_id (g * bpc)) by (unfold fits_u32; nia). rewrite u32_id by (unfold fits_u32; nia). f_equal; nia.
Qed.

(** *** The kernel that loads whole blocks *)

(** The tiling record of the plan with [sp] cores per group. *)
Definition tiling_ok (t : TransposeTilingData) (sp : Z) : Prop :=
  tt_blockSize t = tc_blockSize tc /\ tt_headNum t = tc_headNum tc /\ tt_headDim t = tc_headDim tc /\
  tt_splitNum t = tc_splitNum tc /\ tt_layerNum t = tc_layerNum tc /\
  tt_blockPerCore t = tc_total tc / groups /\ tt_tailCoreNum t = tc_total tc mod groups /\
  tt_blockSizePerTime t = slice_rows tc sp /\ tt_blockSizePerTimeTail t = tc_blockSize tc mod sp /\
  tt_blockSizeSplitNum t = sp.

Lemma full_kernel_for t b : tiling_ok t 1 -> kernel_for (FullLoad_Init b t).
Proof.
  intros (H1 & H2 & H3 & H4 & H5 & _). pose proof (co_sizes _ _ _ _ Hok) as Hts. pose proof (co_split _ _ _ _ Hok) as Hs.
  destruct Hts. constructor; try done; cbn [FullLoad_Init srcFactor_ dstFactor_]; rewrite ?H1, ?H2, ?H3, ?H4, !quot_nonneg_div.
  - rewrite (u32_id (_ * tc_headNum tc)).
    2:{ pose proof blockLen_u32. pose proof headDim_16. unfold tc_blockLen, tc_row, fits_u32 in *. nia. }
    pose proof (Z.div_mod (tc_headNum tc) (tc_splitNum tc) ltac:(lia)) as Hd. rewrite Hs, Z.add_0_r in Hd.
    assert (tc_blockSize tc * tc_headNum tc / tc_splitNum tc = tc_blockSize tc * (tc_headNum tc / tc_splitNum tc)) as ->.
    { rewrite Hd at 1. replace (tc_blockSize tc * (tc_splitNum tc * (tc_headNum tc / tc_splitNum tc)))
        with (tc_blockSize tc * (tc_headNum tc / tc_splitNum tc) * tc_splitNum tc) by ring. apply Z.div_mul. lia. }
    pose proof (part_product (tc_blockSize tc) ltac:(lia)) as Hp. rewrite <- Hp. f_equal. f_equal. symmetry. apply u32_id.
    assert (0 <= tc_headNum tc / tc_splitNum tc) by (apply Z.div_pos; lia).
    pose proof part_le_row. pose proof blockLen_u32. pose proof headDim_16. unfold tc_blockLen, tc_part, fits_u32 in *. nia.
  - apply Z.mod_pos_bound. done.
  - lia.
  - apply part_product_1.
  - lia.
  - lia.
Qed.

Lemma full_params t b : tiling_ok t 1 -> tc_row tc < 2 ^ 20 -> tc_blockSize tc < 2 ^ 16 ->
  FullLoad_repeatParams (FullLoad_Init b t) = params_for (tc_blockSize tc).
Proof.
  intros (H1 & H2 & H3 & H4 & _) Hrow Hbs. pose proof (co_sizes _ _ _ _ Hok) as [].
  rewrite <- params_eq by lia. unfold FullLoad_repeatParams.
  cbn [FullLoad_Init blockSize_ headNum_ headDim_ splitNum_ dataBlockSize_].
  rewrite H1, H2, H3, H4, (quot_nonneg_div (tc_headNum tc) (tc_splitNum tc)) by lia. by rewrite part_product_1.
Qed.

Lemma emits_gets (Q : Z -> bool -> Prop) n (f : Z -> K unit) l :
  (forall m c, Q m c -> m = n) -> emits Q (f n) l -> emits Q (gets ks_copyOutLength ≫= f) l.
Proof. intros Hn Hf s HQ. apply wp_bind, wp_gets. rewrite (Hn _ _ HQ). by apply Hf. Qed.

Lemma emits_full_CopyOut Q n cache off :
  (forall m c, Q m c -> m = n) -> emits Q (FullLoad_CopyOut cache off) [IDeQue; ICopyOut cache off n; IFreeTensor].
Proof.
  intros HQ. unfold FullLoad_CopyOut. eapply emits_seq; [apply emits_issue| |reflexivity].
  apply (emits_gets _ n); [done|]. eapply emits_seq; [apply emits_issue|apply emits_issue|reflexivity].
Qed.

Lemma emits_full_round t b i l :
  tiling_ok t 1 -> tc_row tc < 2 ^ 20 -> tc_blockSize tc < 2 ^ 16 ->
  0 <= i < tc_calBlockNum tc -> 0 <= l < tc_layerNum tc -> 0 <= i * tc_layerNum tc + l < tc_total tc ->
  let k := FullLoad_Init b t in
  let offsetBlock := u32 (t_at (ta_blockIDs args) i * blockSize_ k * headNum_ k * headDim_ k) in
  emits (fun m _ => m = tc_blockSize tc * tc_row tc)
    (kCacheGm ← GetTensorAddr l (ta_kCachePtr args);
     vCacheGm ← GetTensorAddr l (ta_vCachePtr args);
     FullLoad_CopyIn k kCacheGm offsetBlock (FullLoad_repeatParams k) ;;
     FullLoad_CopyOut kCacheGm offsetBlock ;;
     FullLoad_CopyIn k vCacheGm offsetBlock (FullLoad_repeatParams k) ;;
     FullLoad_CopyOut vCacheGm offsetBlock)
    (round_code false 0 (tc_blockSize tc) (i * tc_layerNum tc + l)).
Proof.
  intros Ht Hrow Hbs Hi Hl Hr k offsetBlock. pose proof (full_kernel_for t b Ht) as Hk. fold k in Hk.
  assert (offsetBlock = round_base (i * tc_layerNum tc + l)) as ->
    by (apply offsetBlock_round; [apply Hk..|done|done]).
  destruct (round_base_bound _ Hr) as (Hb0 & Hb1). destruct (round_split i l Hl) as (_ & Hm).
  pose proof (ts_blockSize _ (co_sizes _ _ _ _ Hok)).
  assert (FullLoad_repeatParams k = params_for (tc_blockSize tc)) as -> by (by apply full_params).
  eapply emits_addr; [apply (co_kdesc _ _ _ _ Hok)|done|]. eapply emits_addr; [apply (co_vdesc _ _ _ _ Hok)|done|].
  unfold round_code, round_items. rewrite Hm. cbn [map concat]. rewrite app_nil_r, !item_code_false.
  set (ki := Item (kaddr l) _ _ _). set (vi := Item (vaddr l) _ _ _).
  eapply emits_seq; [apply (emits_CopyIn _ _ ki); (done || cbn; lia)|..].
  2:{ rewrite <- app_assoc. reflexivity. }
  eapply emits_seq; [by apply (emits_full_CopyOut _ (tc_blockSize tc * tc_row tc))|..].
  { eapply emits_seq; [apply (emits_CopyIn _ _ vi); (done || cbn; lia)| |reflexivity].
    by apply (emits_full_CopyOut _ (tc_blockSize tc * tc_row tc)). }
  unfold it_out, ki, vi. cbn [it_cache it_base it_row0 it_rows app]. by rewrite Z.mul_0_l, Z.add_0_r.
Qed.

Lemma full_Caloffset t b : tiling_ok t 1 -> 0 <= b < groups ->
  FullLoad_Caloffset (FullLoad_Init b t) = round_bounds (tc_layerNum tc) (g_start b) (g_end b).
Proof.
  intros (_ & _ & _ & _ & H5 & H6 & H7 & _) Hb. unfold FullLoad_Caloffset.
  cbn [FullLoad_Init blockIdx_ tailCoreNum_ blockPerCore_ layerNum_]. rewrite H5, H6, H7.
  rewrite (start_cases b Hb). by apply bounds_eq.
Qed.

(** The instructions of a core of the first kernel. *)
Lemma full_program t b :
  tiling_ok t 1 -> tc_row tc < 2 ^ 20 -> tc_blockSize tc < 2 ^ 16 -> 0 <= b < groups ->
  FullLoad_program t args b =
    Ok (core_code false (tc_row tc) (tc_part tc) (tc_splitNum tc) (tc_blockSize tc) (group_items 0 (tc_blockSize tc) b) 0).
Proof.
  intros Ht Hrow Hbs Hb.
  assert (emits (fun m _ => m = tc_blockSize tc * tc_row tc) (FullLoad_Process (FullLoad_Init b t) args)
            (concat (map (round_code false 0 (tc_blockSize tc)) (zrange (g_start b) (g_end b))))) as He.
  { destruct (group_range (tc_total tc) groups Hg b Hb) as (H1 & H2). fold (g_start b) (g_end b) in *.
    pose proof (co_layers _ _ _ _ Hok). pose proof (co_rounds _ _ _ _ Hok).
    unfold FullLoad_Process. rewrite full_Caloffset by done. unfold round_bounds.
    apply (emits_rounds _ _ _ (fun blockId layerId => _)); [lia|by apply full_kernel_for|lia|lia|by apply round_bounds_ids|].
    intros i l Hi Hl Hr. rewrite (co_len _ _ _ _ Hok) in Hi. apply emits_full_round; try done. lia. }
  assert (FullLoad_copyOutLength t = tc_blockSize tc * tc_row tc) as Hn.
  { destruct Ht as (H1 & H2 & H3 & _). unfold FullLoad_copyOutLength. rewrite H1, H2, H3. apply row_product.
    pose proof (ts_blockSize _ (co_sizes _ _ _ _ Hok)). lia. }
  unfold FullLoad_program. rewrite Hn.
  destruct (wp_run _ _ _ (He (Build_KState (tc_blockSize tc * tc_row tc) false []) eq_refl)) as (u & s' & Hrun & _ & His).
  rewrite Hrun, bind_Ok, His. cbn [ks_issued app]. unfold core_code. cbn [barriers]. rewrite app_nil_r.
  by rewrite <- group_code.
Qed.

(** *** The kernel that shares blocks *)

Lemma general_kernel_for t b sp : tiling_ok t sp -> kernel_for (General_Init b t).
Proof.
  intros (H1 & H2 & H3 & H4 & H5 & _). pose proof (co_sizes _ _ _ _ Hok) as [].
  constructor; try done; cbn [General_Init srcFactor_ dstFactor_]; rewrite ?H1, ?H2, ?H3, ?H4, !quot_nonneg_div by lia.
  - apply part_product. lia.
  - apply part_product_1.
Qed.

Lemma general_params t b sp rows : tiling_ok t sp -> tc_row tc < 2 ^ 20 -> 0 <= rows < 2 ^ 16 ->
  General_repeatParams (General_Init b t) rows = params_for rows.
Proof.
  intros (H1 & H2 & H3 & H4 & _) Hrow Hr. pose proof (co_sizes _ _ _ _ Hok) as [].
  rewrite <- params_eq by lia. unfold General_repeatParams.
  cbn [General_Init headNumSplited_ headNum_ headDim_ splitNum_ dataBlockSize_].
  rewrite H2, H3, H4, (quot_nonneg_div (tc_headNum tc) (tc_splitNum tc)) by lia. by rewrite part_product_1.
Qed.

Lemma emits_general_CopyOut Q n cache off :
  (forall m c, Q m c -> m = n) ->
  emits Q (General_CopyOut cache off)
    [IDeQue; ICrossCoreSetFlag; ICrossCoreWaitFlag; ICopyOut cache off n; IFreeTensor].
Proof.
  intros HQ. unfold General_CopyOut. do 3 (eapply emits_seq; [apply emits_issue| |reflexivity]).
  apply (emits_gets _ n); [done|]. eapply emits_seq; [apply emits_issue|apply emits_issue|reflexivity].
Qed.

(** The member [copyOutLength_] is set anew in every round. *)
Lemma emits_set (sync : bool) n (m : unit -> K unit) l :
  emits (fun x y => x = n /\ y = sync) (m tt) l -> emits (fun _ y => y = sync) (set_copyOutLength n ≫= m) l.
Proof.
  intros Hm s Hs. apply wp_bind, wp_modify. eapply wp_mono; [by apply Hm|]. intros [] s' ((_ & Hy) & Hi). done.
Qed.

(** The rows of core [idx] of a group of [sp]: the split that deals rounds to
    groups also deals the rows of a block to the cores of a group. *)
Definition slice_first (sp idx : Z) : Z := group_start (tc_blockSize tc) sp idx.
Definition slice_count (sp idx : Z) : Z := group_stop (tc_blockSize tc) sp idx - group_start (tc_blockSize tc) sp idx.

Lemma blockSize_28 : tc_blockSize tc < 2 ^ 28.
Proof.
  pose proof blockLen_u32. pose proof headDim_16. pose proof (co_sizes _ _ _ _ Hok) as []. unfold tc_blockLen, tc_row in *.
  assert (16 <= tc_headNum tc * tc_headDim tc) by nia. nia.
Qed.

Lemma slice_rows_eq sp : 1 <= sp ->
  slice_rows tc sp = tc_blockSize tc / sp + (if tc_blockSize tc mod sp =? 0 then 0 else 1).
Proof.
  intros Hs. unfold slice_rows. pose proof (Z.div_mod (tc_blockSize tc) sp ltac:(lia)).
  pose proof (Z.mod_pos_bound (tc_blockSize tc) sp ltac:(lia)). destruct (Z.eqb_spec (tc_blockSize tc mod sp) 0); symmetry.
  - apply (Z.div_unique_pos _ _ _ (sp - 1)); lia.
  - apply (Z.div_unique_pos _ _ _ (tc_blockSize tc mod sp - 1)); lia.
Qed.

Lemma general_slice t b sp : tiling_ok t sp -> 1 <= sp <= tc_blockSize tc -> 0 <= b ->
  let k := General_Init b t in
  let unaligned := negb (tc_blockSize tc mod sp =? 0) in
  General_first_row k unaligned = slice_first sp (b mod sp) /\ General_row_count k unaligned = slice_count sp (b mod sp).
Proof.
  intros (_ & _ & _ & _ & _ & _ & _ & H8 & H9 & H10) Hsp Hb k unaligned. unfold General_first_row, General_row_count.
  cbn [k General_Init blockIdx_ blockSizeSplitNum_ blockSizePerTime_ blockSizePerTimeTail_].
  rewrite H8, H9, H10, rem_nonneg_mod by lia. set (idx := b mod sp). assert (0 <= idx < sp) as Hidx by (apply Z.mod_pos_bound; lia).
  rewrite slice_rows_eq by lia. pose proof (Z.div_mod (tc_blockSize tc) sp ltac:(lia)) as Hd.
  pose proof (Z.mod_pos_bound (tc_blockSize tc) sp ltac:(lia)) as Hm. pose proof blockSize_28.
  assert (1 <= tc_blockSize tc / sp) as Hq by (apply Z.div_le_lower_bound; lia).
  unfold slice_count, slice_first, group_stop, group_start, unaligned.
  set (q := tc_blockSize tc / sp) in *. set (tl := tc_blockSize tc mod sp) in *. clearbody q tl idx.
  destruct (Z.eqb_spec tl 0); cbn [negb andb].
  - rewrite u32_id by (unfold fits_u32; nia). split; nia.
  - rewrite (u32_id (idx * (q + 1))) by (unfold fits_u32; nia).
    destruct (Z.leb_spec tl idx); rewrite ?(u32_id (idx - tl)), ?(u32_id (q + 1 - 1)) by (unfold fits_u32; nia).
    + rewrite u32_id by (unfold fits_u32; nia). split; nia.
    + split; nia.
Qed.

Lemma emits_general_round t b sp sync i l :
  let k := General_Init b t in
  let unaligned := negb (tc_blockSize tc mod sp =? 0) in
  let offsetBlock := u32 (t_at (ta_blockIDs args) i * blockSize_ k * headNum_ k * headDim_ k) in
  let rows := General_row_count k unaligned in
  let row0 := General_first_row k unaligned in
  let srcOffset := u32 (u32 (row0 * headNumSplited_ k) * headDim_ k) in
  let dstOffset := u32 (u32 (row0 * headNum_ k) * headDim_ k) in
  tiling_ok t sp -> 1 <= sp <= tc_blockSize tc -> 0 <= b -> tc_row tc < 2 ^ 20 -> slice_count sp (b mod sp) < 2 ^ 16 ->
  0 <= i < tc_calBlockNum tc -> 0 <= l < tc_layerNum tc -> 0 <= i * tc_layerNum tc + l < tc_total tc ->
  emits (fun _ y => y = sync)
    (kCacheGm ← GetTensorAddr l (ta_kCachePtr args);
     vCacheGm ← GetTensorAddr l (ta_vCachePtr args);
     set_copyOutLength (u32 (u32 (rows * headNum_ k) * headDim_ k)) ;;
     General_CopyIn k kCacheGm (u32 (offsetBlock + srcOffset)) (General_repeatParams k rows) ;;
     General_CopyOut kCacheGm (u32 (offsetBlock + dstOffset)) ;;
     General_CopyIn k vCacheGm (u32 (offsetBlock + srcOffset)) (General_repeatParams k rows) ;;
     General_CopyOut vCacheGm (u32 (offsetBlock + dstOffset)))
    (round_code true (slice_first sp (b mod sp)) (slice_count sp (b mod sp)) (i * tc_layerNum tc + l)).
Proof.
  intros k unaligned offsetBlock rows row0 srcOffset dstOffset Ht Hsp Hb Hrow Hrows Hi Hl Hr.
  pose proof (general_kernel_for t b sp Ht) as Hk. fold k in Hk.
  destruct (general_slice t b sp Ht Hsp Hb) as (Hf & Hc). fold k unaligned in Hf, Hc. fold rows row0 in Hf, Hc.
  assert (0 <= b mod sp < sp) as Hidx by (apply Z.mod_pos_bound; lia).
  destruct (group_range (tc_blockSize tc) sp Hsp (b mod sp) Hidx) as (Hs1 & Hs2).
  assert (0 <= row0 < tc_blockSize tc) as Hr0 by (rewrite Hf; unfold slice_first; lia).
  assert (0 < rows /\ row0 + rows <= tc_blockSize tc) as Hrs by (rewrite Hf, Hc; unfold slice_first, slice_count; lia).
  assert (offsetBlock = round_base (i * tc_layerNum tc + l)) as Hob by (apply offsetBlock_round; [apply Hk..|done|done]).
  pose proof (co_sizes _ _ _ _ Hok) as Hts. pose proof (ts_splitNum _ Hts). pose proof (ts_headNum _ Hts).
  assert (headNumSplited_ k = tc_headNum tc / tc_splitNum tc) as Hhns.
  { destruct Ht as (_ & H2 & _ & H4 & _). unfold k. cbn [General_Init headNumSplited_]. rewrite H2, H4. apply quot_nonneg_div; lia. }
  assert (srcOffset = row0 * tc_part tc) as Hso by (unfold srcOffset; rewrite Hhns, (kf_headDim _ Hk); apply part_product; lia).
  assert (dstOffset = row0 * tc_row tc) as Hdo.
  { unfold dstOffset. rewrite (kf_headDim _ Hk), (kf_headNum _ Hk). apply row_product; lia. }
  assert (General_repeatParams k rows = params_for rows) as Hpar by (apply (general_params t b sp); (done || lia)).
  rewrite Hob, Hso, Hdo, Hpar, (kf_headDim _ Hk), (kf_headNum _ Hk), row_product by lia.
  destruct (round_base_bound _ Hr) as (Hb0 & Hb1). destruct (round_split i l Hl) as (_ & Hm).
  pose proof part_le_row. pose proof part_pos.
  assert (row0 * tc_part tc <= tc_blockLen tc /\ row0 * tc_row tc <= tc_blockLen tc) by (unfold tc_blockLen; nia).
  rewrite (u32_id (_ + row0 * tc_part tc)), (u32_id (_ + row0 * tc_row tc)) by (unfold fits_u32; nia).
  eapply emits_addr; [apply (co_kdesc _ _ _ _ Hok)|done|]. eapply emits_addr; [apply (co_vdesc _ _ _ _ Hok)|done|].
  apply emits_set. rewrite <- Hf, <- Hc.
  unfold round_code, round_items. rewrite Hm. cbn [map concat]. rewrite app_nil_r, !item_code_true, <- app_assoc.
  eapply emits_seq; [apply (emits_CopyIn _ _ (Item (kaddr l) (round_base (i * tc_layerNum tc + l)) row0 rows)); (done || cbn; lia)|..|reflexivity].
  eapply emits_seq; [apply (emits_general_CopyOut _ (rows * tc_row tc)); tauto|..|reflexivity].
  eapply emits_seq; [apply (emits_CopyIn _ _ (Item (vaddr l) (round_base (i * tc_layerNum tc + l)) row0 rows)); (done || cbn; lia)|..|reflexivity].
  apply (emits_general_CopyOut _ (rows * tc_row tc)). tauto.
Qed.

(** The extra barriers of a group with one round less. *)
Definition extra_of (g : Z) : nat := if g <? tc_total tc mod groups then 0 else 2.

Lemma general_Caloffset t b sp s :
  tiling_ok t sp -> 1 <= sp -> 0 <= b < groups * sp ->
  General_Caloffset (General_Init b t) s =
    Ok (round_bounds (tc_layerNum tc) (g_start (b / sp)) (g_end (b / sp)),
        {| ks_copyOutLength := ks_copyOutLength s; ks_needSync := negb (b / sp <? tc_total tc mod groups); ks_issued := ks_issued s |}).
Proof.
  intros (_ & _ & _ & _ & H5 & H6 & H7 & _ & _ & H10) Hsp Hb. unfold General_Caloffset.
  cbn [General_Init blockIdx_ tailCoreNum_ blockPerCore_ layerNum_ blockSizeSplitNum_]. cbv zeta.
  rewrite H5, H6, H7, H10, quot_nonneg_div by lia.
  assert (0 <= b / sp < groups) as Hg' by (split; [apply Z.div_pos|apply Z.div_lt_upper_bound]; lia).
  pose proof (start_cases (b / sp) Hg') as Hst. cbv zeta in Hst.
  unfold set_needSync, modify, mbind, M_bind, mret, M_ret.
  destruct (b / sp <? tc_total tc mod groups); injection Hst as H1 H2; rewrite ?H1, ?H2;
    do 2 f_equal; by apply bounds_eq.
Qed.

Lemma emits_extra (sync : bool) :
  emits (fun _ y => y = sync)
    (needSync ← gets ks_needSync;
     when needSync
       (issue ICrossCoreSetFlag ;; issue ICrossCoreWaitFlag ;;
        issue ICrossCoreSetFlag ;; issue ICrossCoreWaitFlag))
    (barriers (if sync then 2 else 0)).
Proof.
  intros s Hs. apply wp_bind, wp_gets. rewrite Hs. destruct sync.
  - assert (emits (fun _ y => y = true)
      (issue ICrossCoreSetFlag ;; issue ICrossCoreWaitFlag ;; issue ICrossCoreSetFlag ;; issue ICrossCoreWaitFlag)
      (barriers 2)) as He; [|by apply He].
    do 3 (eapply emits_seq; [apply emits_issue| |reflexivity]). apply emits_issue.
  - apply wp_when_false; [done|]. split; [done|]. by rewrite app_nil_r.
Qed.

(** The instructions of a core of the second kernel. *)
Lemma general_program t b sp :
  tiling_ok t sp -> 1 <= sp <= tc_blockSize tc -> tc_row tc < 2 ^ 20 -> slice_count sp (b mod sp) < 2 ^ 16 ->
  0 <= b < groups * sp ->
  General_program (negb (tc_blockSize tc mod sp =? 0)) t args b =
    Ok (core_code true (tc_row tc) (tc_part tc) (tc_splitNum tc) (tc_blockSize tc)
          (group_items (slice_first sp (b mod sp)) (slice_count sp (b mod sp)) (b / sp)) (extra_of (b / sp))).
Proof.
  intros Ht Hsp Hrow Hrows Hb. unfold General_program, General_Process.
  assert (0 <= b / sp < groups) as Hgb by (split; [apply Z.div_pos|apply Z.div_lt_upper_bound]; lia).
  destruct (group_range (tc_total tc) groups Hg (b / sp) Hgb) as (H1 & H2). fold (g_start (b / sp)) (g_end (b / sp)) in *.
  pose proof (co_layers _ _ _ _ Hok). pose proof (co_rounds _ _ _ _ Hok).
  unfold mbind at 2, M_bind at 1. rewrite (general_Caloffset t b sp) by (done || lia). unfold round_bounds.
  cbn [ks_copyOutLength ks_issued]. set (sync := negb (b / sp <? tc_total tc mod groups)).
  assert (extra_of (b / sp) = if sync then 2%nat else 0%nat) as -> by (unfold extra_of, sync; by destruct (_ <? _)).
  match goal with |- (?m ?s ≫= _) = _ =>
    assert (emits (fun _ y => y = sync) m
      (concat (map (round_code true (slice_first sp (b mod sp)) (slice_count sp (b mod sp))) (zrange (g_start (b / sp)) (g_end (b / sp))))
       ++ barriers (if sync then 2 else 0))) as He
  end.
  { eapply emits_seq; [|apply emits_extra|reflexivity].
    apply (emits_rounds _ _ _ (fun blockId layerId => _)); [lia|by eapply general_kernel_for|lia|lia|by apply round_bounds_ids|].
    intros i l Hi Hl Hr. rewrite (co_len _ _ _ _ Hok) in Hi. apply emits_general_round; (done || lia). }
  destruct (wp_run _ _ _ (He (Build_KState (General_copyOutLength t) sync []) eq_refl)) as (u & s' & Hrun & _ & His).
  rewrite Hrun, bind_Ok, His. cbn [ks_issued app]. unfold core_code. f_equal. f_equal. by rewrite <- group_code.
Qed.
End Group.
End Call.
