(* ===== verification/TransposeKvGrid.v ===== *)
(** A TransposeKvCacheByBlock launch as a whole: the tiling chosen by the host,
    the instructions its cores issue, and every interleaved execution of them. *)

From S2P Require Import Prelude AscendC TilingContext TransposeKvHost TransposeKv TransposeKvStep TransposeKvEngine TransposeKvControl.

(** ** What a launch does to memory *)

Section Launch.
Context {T : Type}.
Abbreviation memory := (gmap Z (tensor T)).

(** The cores issue their instructions and some interleaving of them ends with
    memory [gm'].  [TOTAL_UB_SIZE] is the size of the unified buffer of a core,
    of which each queue buffer takes an equal part; buffers start with junk. *)
Definition runs_to (TOTAL_UB_SIZE : Z) (junk : Z -> Z -> Z -> T) (launch : TransposeLaunch) (args : TransposeArgs)
    (gm gm' : memory) : Prop :=
  exists prog g,
    (forall b, 0 <= b < tl_blockDim launch ->
       transpose_kv_cache_by_block (tl_tilingKey launch) (tl_tiling launch) args b = Ok (prog b)) /\
    rtc (step (tl_blockDim launch))
        (start (buffer_num (tl_tilingKey launch)) (TOTAL_UB_SIZE / buffer_num (tl_tilingKey launch) / sizeof_T) junk gm prog) g /\
    finished (tl_blockDim launch) g /\ g_mem g = gm'.

(** The tensors of the call: distinct caches that hold the listed blocks, which
    are distinct. *)
Record caches_ok (tc : TransposeCall) (args : TransposeArgs) (kaddr vaddr : Z -> Z) (gm : memory) : Prop := {
  ca_k : forall l l', 0 <= l < tc_layerNum tc -> 0 <= l' < tc_layerNum tc -> kaddr l = kaddr l' -> l = l';
  ca_v : forall l l', 0 <= l < tc_layerNum tc -> 0 <= l' < tc_layerNum tc -> vaddr l = vaddr l' -> l = l';
  ca_kv : forall l l', 0 <= l < tc_layerNum tc -> 0 <= l' < tc_layerNum tc -> kaddr l <> vaddr l';
  ca_ids : forall i i', 0 <= i < tc_calBlockNum tc -> 0 <= i' < tc_calBlockNum tc ->
    t_at (ta_blockIDs args) i = t_at (ta_blockIDs args) i' -> i = i';
  ca_mem : forall l i, 0 <= l < tc_layerNum tc -> 0 <= i < tc_calBlockNum tc ->
    (exists t, gm !! kaddr l = Some t /\ (t_at (ta_blockIDs args) i + 1) * tc_blockLen tc <= t_len t) /\
    (exists t, gm !! vaddr l = Some t /\ (t_at (ta_blockIDs args) i + 1) * tc_blockLen tc <= t_len t) }.

(** Cell [x] of the tensor at [a] belongs to a listed block of a listed cache. *)
Definition selected (tc : TransposeCall) (args : TransposeArgs) (kaddr vaddr : Z -> Z) (a x : Z) : Prop :=
  (exists l, 0 <= l < tc_layerNum tc /\ (a = kaddr l \/ a = vaddr l)) /\
  (exists i, 0 <= i < tc_calBlockNum tc /\ 0 <= x - t_at (ta_blockIDs args) i * tc_blockLen tc < tc_blockLen tc).

(** Every listed block, read as [splitNum] sub-blocks of [blockSize] rows, has
    become [blockSize] rows of [splitNum] parts; nothing else has changed. *)
Definition transposed_caches (tc : TransposeCall) (args : TransposeArgs) (kaddr vaddr : Z -> Z) (gm gm' : memory) : Prop :=
  forall a, match gm !! a with
  | None => gm' !! a = None
  | Some t0 => exists t, gm' !! a = Some t /\ t_len t = t_len t0 /\
      (forall blk row sub c,
         0 <= row < tc_blockSize tc -> 0 <= sub < tc_splitNum tc -> 0 <= c < tc_part tc ->
         selected tc args kaddr vaddr a (blk * tc_blockLen tc) ->
         t_at t (blk * tc_blockLen tc + (row * tc_splitNum tc + sub) * tc_part tc + c) =
         t_at t0 (blk * tc_blockLen tc + (sub * tc_blockSize tc + row) * tc_part tc + c)) /\
      (forall x, ~ selected tc args kaddr vaddr a x -> t_at t x = t_at t0 x)
  end.
End Launch.

(** ** The items of a launch *)

Section Grid.
Context {T : Type} (tc : TransposeCall) (args : TransposeArgs) (kaddr vaddr : Z -> Z) (gm : gmap Z (tensor T)).
Context (Hok : call_ok tc args kaddr vaddr) (Hca : caches_ok tc args kaddr vaddr gm).
Context (db : bool) (sp : Z) (Hplan : split_plan tc = Some (db, sp)).
Context (Hsp : sp <= tc_blockSize tc) (Hrows : slice_rows tc sp <= 4095).
Context (TOTAL_UB_SIZE : Z) (HU : tc_ubSize tc <= TOTAL_UB_SIZE).

Let groups : Z := plan_groups tc sp.
Let N : Z := groups * sp.
Let sync : bool := negb (sp =? 1).

Definition core_items (b : Z) : list item :=
  group_items tc args kaddr vaddr groups (slice_first tc sp (b mod sp)) (slice_count tc sp (b mod sp)) (b / sp).

Definition core_extra (b : Z) : nat := if sp =? 1 then 0 else extra_of tc groups (b / sp).

Lemma total_pos : 0 < tc_total tc.
Proof. pose proof (co_layers _ _ _ _ Hok). pose proof (co_blocks _ _ _ _ Hok). unfold tc_total. nia. Qed.

Lemma plan_facts :
  (1 <= sp <= tc_cores tc /\ tc_cores tc mod sp = 0) /\
  slice_bytes tc sp <= (if db then tc_ubSize tc / 2 else tc_ubSize tc) /\ (sp = 1 <-> slice_bytes tc 1 <= tc_ubSize tc).
Proof. exact (split_plan_Some tc (co_sizes _ _ _ _ Hok) db sp Hplan). Qed.

Lemma sp_pos : 1 <= sp <= tc_blockSize tc.
Proof. destruct plan_facts. lia. Qed.

Lemma groups_bound : 1 <= groups <= tc_total tc.
Proof.
  destruct plan_facts as ((H1 & H2) & _). destruct (plan_groups_bound tc sp total_pos H1 H2) as (H3 & _).
  split; [done|]. unfold groups, plan_groups. lia.
Qed.

Lemma core_group b : 0 <= b < N -> 0 <= b / sp < groups /\ 0 <= b mod sp < sp.
Proof.
  intros Hb. pose proof sp_pos. unfold N in Hb.
  split; [split; [apply Z.div_pos|apply Z.div_lt_upper_bound]; lia|apply Z.mod_pos_bound; lia].
Qed.

Lemma slice_bound idx : 0 <= idx < sp ->
  0 <= slice_first tc sp idx /\ 1 <= slice_count tc sp idx <= slice_rows tc sp /\
  slice_first tc sp idx + slice_count tc sp idx <= tc_blockSize tc.
Proof.
  intros Hi. pose proof sp_pos as Hs. destruct (group_range (tc_blockSize tc) sp Hs idx Hi) as (H1 & H2).
  unfold slice_first, slice_count. split_and!; try lia.
  rewrite (slice_rows_eq tc sp) by lia. rewrite group_count by lia.
  destruct (Z.eqb_spec (tc_blockSize tc mod sp) 0) as [E|E]; destruct (Z.ltb_spec idx (tc_blockSize tc mod sp)); lia.
Qed.

(** The item at a position of the list of a core. *)
Lemma pairs_lookup {A} (f g : Z -> A) lo hi j x :
  concat (map (fun r => [f r; g r]) (zrange lo hi)) !! j = Some x ->
  exists r, lo <= r < hi /\ ((j = 2 * Z.to_nat (r - lo) /\ x = f r) \/ (j = S (2 * Z.to_nat (r - lo)) /\ x = g r))%nat.
Proof.
  unfold zrange. intros H. destruct (Z.lt_ge_cases hi lo) as [Hlt|Hge]; [rewrite seqZ_nil in H by lia; done|].
  remember (hi - lo) as n eqn:Hn. assert (0 <= n) as Hn0 by lia. clear Hge. revert lo hi j Hn H.
  pattern n. apply natlike_ind; [..|exact Hn0]; clear n Hn0.
  - intros lo hi j _ H. rewrite seqZ_nil in H by lia. done.
  - intros n Hn IH lo hi j Hlo H. rewrite seqZ_cons in H by lia. cbn [map concat app] in H. rewrite Z.pred_succ in H.
    destruct j as [|[|j]]; cbn in H.
    + injection H as <-. exists lo. split; [lia|]. left. split; [lia|done].
    + injection H as <-. exists lo. split; [lia|]. right. split; [lia|done].
    + apply (IH (Z.succ lo) hi) in H; [|lia]. destruct H as (r & Hr & Hor). exists r. split; [lia|].
      destruct Hor as [[-> ->]|[-> ->]]; [left|right]; (split; [lia|done]).
Qed.

Lemma pairs_length {A} (f g : Z -> A) lo hi : lo <= hi ->
  length (concat (map (fun r => [f r; g r]) (zrange lo hi))) = (2 * Z.to_nat (hi - lo))%nat.
Proof.
  intros H. rewrite <- (length_seqZ lo (hi - lo)). fold (zrange lo hi). induction (zrange lo hi) as [|r l IH]; [done|].
  cbn [map concat]. rewrite length_app, IH. simpl. lia.
Qed.

(** The round and the cache of an item. *)
Lemma core_item b j it : 0 <= b < N -> core_items b !! j = Some it ->
  exists r, g_start tc groups (b / sp) <= r < g_end tc groups (b / sp) /\ 0 <= r < tc_total tc /\
    it_base it = round_base tc args r /\ it_row0 it = slice_first tc sp (b mod sp) /\ it_rows it = slice_count tc sp (b mod sp) /\
    ((j = 2 * Z.to_nat (r - g_start tc groups (b / sp)) /\ it_cache it = kaddr (r mod tc_layerNum tc)) \/
     (j = S (2 * Z.to_nat (r - g_start tc groups (b / sp))) /\ it_cache it = vaddr (r mod tc_layerNum tc)))%nat.
Proof.
  intros Hb Hit. destruct (core_group b Hb) as (Hgb & _). apply (pairs_lookup (fun r => Item _ _ _ _) (fun r => Item _ _ _ _)) in Hit.
  destruct Hit as (r & Hr & Hor). exists r. split; [done|].
  destruct (group_range (tc_total tc) groups groups_bound (b / sp) Hgb) as (H1 & H2). unfold g_start, g_end in *.
  split; [lia|]. destruct Hor as [[-> ->]|[-> ->]]; cbn [it_base it_row0 it_rows it_cache]; split_and!; auto.
Qed.

(** The cache of layer [l] of a kind. *)
Lemma cache_present r : 0 <= r < tc_total tc ->
  forall a, a = kaddr (r mod tc_layerNum tc) \/ a = vaddr (r mod tc_layerNum tc) ->
  exists t, gm !! a = Some t /\ round_base tc args r + tc_blockLen tc <= t_len t.
Proof.
  intros Hr a Ha. destruct (round_bound tc args kaddr vaddr Hok r Hr) as (Hi & Hl).
  destruct (ca_mem _ _ _ _ _ Hca _ _ Hl Hi) as ((t & Ht & Htl) & (t' & Ht' & Htl')). unfold round_base.
  destruct Ha as [-> | ->]; eexists; (split; [eassumption|lia]).
Qed.

Lemma round_unique r r' a :
  0 <= r < tc_total tc -> 0 <= r' < tc_total tc -> round_base tc args r = round_base tc args r' ->
  (a = kaddr (r mod tc_layerNum tc) /\ a = kaddr (r' mod tc_layerNum tc)) \/
  (a = vaddr (r mod tc_layerNum tc) /\ a = vaddr (r' mod tc_layerNum tc)) -> r = r'.
Proof.
  intros Hr Hr' Hbase Ha. destruct (round_bound tc args kaddr vaddr Hok r Hr) as (Hi & Hl).
  destruct (round_bound tc args kaddr vaddr Hok r' Hr') as (Hi' & Hl').
  assert (r / tc_layerNum tc = r' / tc_layerNum tc) as Hblk.
  { apply (ca_ids _ _ _ _ _ Hca); try done. unfold round_base in Hbase.
    pose proof (blockLen_u32 tc args kaddr vaddr Hok). nia. }
  assert (r mod tc_layerNum tc = r' mod tc_layerNum tc) as Hlay.
  { destruct Ha as [[-> He]|[-> He]]; [by apply (ca_k _ _ _ _ _ Hca)|by apply (ca_v _ _ _ _ _ Hca)]. }
  pose proof (co_layers _ _ _ _ Hok). rewrite (Z.div_mod r (tc_layerNum tc)), (Z.div_mod r' (tc_layerNum tc)) by lia. lia.
Qed.

Lemma core_once b b' j j' it it' :
  0 <= b < N -> 0 <= b' < N -> core_items b !! j = Some it -> core_items b' !! j' = Some it' ->
  it_cache it = it_cache it' -> it_base it = it_base it' -> j = j' /\ b / sp = b' / sp.
Proof.
  intros Hb Hb' Hj Hj' Hc Hbase.
  destruct (core_item b j it Hb Hj) as (r & Hr & Hrt & Hbr & _ & _ & Hor).
  destruct (core_item b' j' it' Hb' Hj') as (r' & Hr' & Hrt' & Hbr' & _ & _ & Hor').
  destruct (round_bound tc args kaddr vaddr Hok r Hrt) as (_ & Hl). destruct (round_bound tc args kaddr vaddr Hok r' Hrt') as (_ & Hl').
  pose proof (ca_kv _ _ _ _ _ Hca _ _ Hl Hl') as Hkv. pose proof (ca_kv _ _ _ _ _ Hca _ _ Hl' Hl) as Hkv'.
  assert (r = r') as <-.
  { apply (round_unique r r' (it_cache it)); [done|done|congruence|].
    destruct Hor as [[_ E]|[_ E]]; destruct Hor' as [[_ E']|[_ E']]; [left|..|right]; try (split; congruence); congruence. }
  destruct (core_group b Hb) as (Hg1 & _). destruct (core_group b' Hb') as (Hg2 & _).
  assert (b / sp = b' / sp) as Hg.
  { apply (group_unique (tc_total tc) groups groups_bound _ _ r); [lia..|exact Hr|exact Hr']. }
  rewrite <- Hg in Hor'. split; [|done].
  destruct Hor as [[-> E]|[-> E]]; destruct Hor' as [[-> E']|[-> E']]; (done || congruence).
Qed.

Lemma core_items_length b : 0 <= b < N ->
  length (core_items b) = (2 * Z.to_nat (tc_total tc / groups + (if (b / sp <? tc_total tc mod groups)%Z then 1 else 0)))%nat.
Proof.
  intros Hb. destruct (core_group b Hb) as (Hgb & _).
  destruct (group_range (tc_total tc) groups groups_bound (b / sp) Hgb) as (H1 & _).
  rewrite <- group_count by lia. apply (pairs_length (fun r => Item _ _ _ _) (fun r => Item _ _ _ _)). unfold g_start, g_end. lia.
Qed.

Lemma core_total b : 0 <= b < N -> sp <> 1 ->
  (length (core_items b) + core_extra b = 2 * Z.to_nat (tc_total tc / groups) + 2)%nat.
Proof.
  intros Hb Hne. rewrite core_items_length by done. unfold core_extra, extra_of. rewrite (proj2 (Z.eqb_neq _ _) Hne).
  pose proof (group_bpc (tc_total tc) groups groups_bound). destruct (_ <? _); lia.
Qed.

(** The size of a queue buffer in elements. *)
Definition buffer_len : Z := TOTAL_UB_SIZE / (if db then 2 else 1) / sizeof_T.

Lemma slice_fits : slice_rows tc sp * tc_row tc <= buffer_len.
Proof.
  destruct plan_facts as (_ & Hb & _). unfold slice_bytes, DATA_SIZE, buffer_len, sizeof_T in *.
  apply Z.div_le_lower_bound; [lia|]. destruct db.
  - pose proof (Z.div_le_mono (tc_ubSize tc) TOTAL_UB_SIZE 2 ltac:(lia) HU). lia.
  - rewrite Z.div_1_r. lia.
Qed.

Lemma launch_engine :
  engine_ok N sync (tc_row tc) (tc_part tc) (tc_splitNum tc) (tc_blockSize tc) buffer_len core_items core_extra gm.
Proof.
  pose proof (co_sizes _ _ _ _ Hok) as Hts. constructor.
  - by apply (part_pos tc args kaddr vaddr).
  - by apply (part_mod16 tc args kaddr vaddr).
  - apply Hts.
  - by apply (part_row tc args kaddr vaddr).
  - apply Hts.
  - intros b it Hb Hin. apply list_elem_of_lookup in Hin as (j & Hj).
    destruct (core_item b j it Hb Hj) as (r & _ & Hr & Hbase & Hr0 & Hrs & Hor).
    destruct (slice_bound (b mod sp)) as (H1 & H2 & H3); [apply (core_group b Hb)|].
    destruct (round_base_bound tc args kaddr vaddr Hok r Hr) as (Hb0 & _).
    destruct (cache_present r Hr (it_cache it)) as (t & Ht & Htl); [tauto|].
    rewrite Hbase, Hr0, Hrs. fold (tc_blockLen tc). pose proof slice_fits. pose proof (tc_row_pos tc Hts).
    split_and!; try lia; [|nia|eauto]. unfold round_base. apply Z.mod_mul.
    pose proof (blockLen_u32 tc args kaddr vaddr Hok). lia.
  - intros b b' j j' it it' Hb Hb' Hj Hj' Hc Hbase.
    destruct (core_once b b' j j' it it' Hb Hb' Hj Hj' Hc Hbase) as (-> & Hg). split; [done|].
    unfold sync. intros Hs%negb_false_iff%Z.eqb_eq. by rewrite Hs, !Z.div_1_r in Hg.
  - unfold sync, core_extra. intros Hs%negb_false_iff b _. by rewrite Hs.
  - unfold sync. intros Hs%negb_true_iff%Z.eqb_neq b b' Hb Hb'. by rewrite !core_total.
Qed.

(** *** The launch issues these items *)

Lemma row_20 : tc_row tc < 2 ^ 20.
Proof.
  destruct plan_facts as ((H1 & _) & Hb & _). pose proof (co_ub _ _ _ _ Hok). pose proof (ts_ub _ (co_sizes _ _ _ _ Hok)).
  pose proof (slice_rows_bound tc (co_sizes _ _ _ _ Hok) sp ltac:(lia)). pose proof (tc_row_pos tc (co_sizes _ _ _ _ Hok)).
  assert (tc_ubSize tc / 2 <= tc_ubSize tc) by (apply Z.div_le_upper_bound; lia).
  unfold slice_bytes, DATA_SIZE in Hb. destruct db; nia.
Qed.

Lemma whole_block_single : sp = 1 -> db = false.
Proof.
  intros H1. destruct plan_facts as (_ & _ & Hiff). pose proof (proj1 Hiff H1) as Hfit. pose proof Hplan as Hp.
  unfold split_plan in Hp. rewrite (proj2 (Z.leb_le _ _) Hfit) in Hp. by injection Hp.
Qed.

Lemma launch_tiling : tiling_ok tc groups (tl_tiling (split_launch tc db sp)) sp.
Proof. unfold tiling_ok. cbn [split_launch tl_tiling]. split_and!; done. Qed.

Lemma launch_buffers : buffer_num (plan_key tc db sp) = if db then 2 else 1.
Proof.
  unfold plan_key. destruct (Z.eqb_spec sp 1) as [E|E]; [by rewrite (whole_block_single E)|].
  destruct db, (tc_blockSize tc mod sp =? 0); done.
Qed.

Lemma whole_slice_single b : sp = 1 ->
  slice_first tc sp (b mod sp) = 0 /\ slice_count tc sp (b mod sp) = tc_blockSize tc /\ b / sp = b.
Proof.
  intros ->. unfold slice_first, slice_count, group_stop, group_start. rewrite !Z.mod_1_r, !Z.div_1_r. lia.
Qed.

Lemma launch_prog b : 0 <= b < N ->
  transpose_kv_cache_by_block (plan_key tc db sp) (tl_tiling (split_launch tc db sp)) args b =
    Ok (core_code sync (tc_row tc) (tc_part tc) (tc_splitNum tc) (tc_blockSize tc) (core_items b) (core_extra b)).
Proof.
  intros Hb. pose proof sp_pos as Hs. pose proof row_20 as Hrow. pose proof groups_bound as Hgr. pose proof launch_tiling as Ht.
  destruct (slice_bound (b mod sp)) as (_ & Hc & _); [apply (core_group b Hb)|].
  unfold transpose_kv_cache_by_block, plan_key, sync, core_extra, core_items. destruct (Z.eqb_spec sp 1) as [E|E].
  - destruct (whole_slice_single b E) as (-> & Hcnt & ->). rewrite Hcnt in *. cbn [negb Z.eqb FULL_LOAD].
    apply (full_program tc args kaddr vaddr Hok groups Hgr); [by rewrite <- E|done|lia|]. unfold N in Hb. nia.
  - pose proof (general_program tc args kaddr vaddr Hok groups Hgr _ b sp Ht Hs Hrow ltac:(lia) Hb) as Hp.
    cbn [negb]. destruct db, (tc_blockSize tc mod sp =? 0); exact Hp.
Qed.

Lemma ts_splitNum_pos : tc_sizes tc -> 0 < tc_splitNum tc.
Proof. intros H. apply (ts_splitNum _ H). Qed.

(** *** The items cover the selected cells *)

Lemma core_has_item g idx r : 0 <= g < groups -> 0 <= idx < sp -> g_start tc groups g <= r < g_end tc groups g ->
  forall a, a = kaddr (r mod tc_layerNum tc) \/ a = vaddr (r mod tc_layerNum tc) ->
  0 <= g * sp + idx < N /\
  Item a (round_base tc args r) (slice_first tc sp idx) (slice_count tc sp idx) ∈ core_items (g * sp + idx).
Proof.
  intros Hg Hidx Hr a Ha. split; [unfold N; nia|]. unfold core_items, group_items.
  rewrite (Z.add_comm (g * sp)), Z.div_add, Z.mod_add, Z.div_small, Z.mod_small by lia. cbn [Z.add].
  apply list_elem_of_In, in_concat. exists (round_items tc args kaddr vaddr (slice_first tc sp idx) (slice_count tc sp idx) r). split.
  - apply in_map, list_elem_of_In, elem_of_zrange. done.
  - unfold round_items. destruct Ha as [-> | ->]; simpl; auto.
Qed.

Lemma covered_selected a x : covered N (tc_row tc) core_items a x <-> selected tc args kaddr vaddr a x.
Proof.
  pose proof (tc_row_pos tc (co_sizes _ _ _ _ Hok)) as HW. split.
  - intros (b & it & Hb & Hin & Hca' & Hx). apply list_elem_of_lookup in Hin as (j & Hj).
    destruct (core_item b j it Hb Hj) as (r & _ & Hr & Hbase & Hr0 & Hrs & Hor).
    destruct (slice_bound (b mod sp)) as (H1 & H2 & H3); [apply (core_group b Hb)|].
    destruct (round_bound tc args kaddr vaddr Hok r Hr) as (Hi & Hl). split.
    + exists (r mod tc_layerNum tc). split; [done|]. rewrite <- Hca'. tauto.
    + exists (r / tc_layerNum tc). split; [done|]. rewrite Hbase, Hr0, Hrs in Hx. unfold round_base in Hx.
      unfold tc_blockLen in *. nia.
  - intros ((l & Hl & Ha) & (i & Hi & Hx)). set (r := i * tc_layerNum tc + l).
    assert (0 <= r < tc_total tc) as Hr by (unfold r, tc_total; nia).
    destruct (round_split tc i l Hl) as (Hri & Hrl). fold r in Hri, Hrl.
    destruct (group_exists (tc_total tc) groups groups_bound r Hr) as (g & Hg & Hgr).
    set (y := x - t_at (ta_blockIDs args) i * tc_blockLen tc) in *.
    assert (0 <= y / tc_row tc < tc_blockSize tc) as Hrow
      by (split; [apply Z.div_pos|apply Z.div_lt_upper_bound]; unfold tc_blockLen in *; lia).
    destruct (group_exists (tc_blockSize tc) sp sp_pos (y / tc_row tc) Hrow) as (idx & Hidx & Hrows').
    destruct (core_has_item g idx r Hg Hidx Hgr a) as (Hb & Hin); [by rewrite Hrl|].
    eexists _, _. split; [exact Hb|]. split; [exact Hin|]. split; [done|]. cbn [it_base it_row0 it_rows].
    unfold round_base. rewrite Hri. unfold slice_first, slice_count.
    pose proof (Z.div_mod y (tc_row tc) ltac:(lia)). pose proof (Z.mod_pos_bound y (tc_row tc) HW). unfold y in *. nia.
Qed.

(** *** The launch *)

Let launch : TransposeLaunch := split_launch tc db sp.

Lemma launch_start junk prog :
  (forall b, 0 <= b < tl_blockDim launch ->
     transpose_kv_cache_by_block (tl_tilingKey launch) (tl_tiling launch) args b = Ok (prog b)) ->
  launch_inv N sync (tc_row tc) (tc_part tc) (tc_splitNum tc) (tc_blockSize tc) buffer_len core_items core_extra gm
    (start (buffer_num (tl_tilingKey launch)) (TOTAL_UB_SIZE / buffer_num (tl_tilingKey launch) / sizeof_T) junk gm prog).
Proof.
  intros Hprog. cbn [launch split_launch tl_tilingKey]. rewrite launch_buffers. fold buffer_len.
  apply launch_inv_start; [by destruct db|]. intros b Hb. pose proof (Hprog b Hb) as Hp.
  cbn [launch split_launch tl_tilingKey] in Hp. fold launch in Hp. unfold launch in Hp. rewrite (launch_prog b Hb) in Hp.
  by injection Hp.
Qed.

(** A cell of a block by row, part and column. *)
Lemma cell_in_block row sub c :
  0 <= row < tc_blockSize tc -> 0 <= sub < tc_splitNum tc -> 0 <= c < tc_part tc ->
  (row * tc_splitNum tc + sub) * tc_part tc + c = row * tc_row tc + (sub * tc_part tc + c) /\
  0 <= row * tc_row tc + (sub * tc_part tc + c) < tc_blockLen tc.
Proof.
  intros Hr Hs Hc. pose proof (part_row tc args kaddr vaddr Hok) as Hrow. unfold tc_blockLen. split; [rewrite Hrow; ring|].
  assert (0 <= sub * tc_part tc + c < tc_row tc) by nia. nia.
Qed.

Lemma launch_result g :
  launch_inv N sync (tc_row tc) (tc_part tc) (tc_splitNum tc) (tc_blockSize tc) buffer_len core_items core_extra gm g ->
  finished N g -> transposed_caches tc args kaddr vaddr gm (g_mem g).
Proof.
  intros Hinv Hfin a. pose proof (launch_inv_end _ _ _ _ _ _ _ _ _ _ g Hinv Hfin a) as He.
  destruct (gm !! a) as [t0|]; [|done]. destruct He as (t & Ht & Hlen & Hx). exists t. split; [done|]. split; [done|].
  pose proof (co_sizes _ _ _ _ Hok) as Hts. pose proof (blockLen_u32 tc args kaddr vaddr Hok) as HBL. split.
  - intros blk row sub c Hr Hs Hc Hsel. destruct (cell_in_block row sub c Hr Hs Hc) as (Heq & Hin).
    rewrite <- Z.add_assoc, Heq. set (y := row * tc_row tc + (sub * tc_part tc + c)) in *.
    destruct (Hx (blk * tc_blockLen tc + y)) as (H1 & _). rewrite H1.
    + unfold transposed. fold (tc_blockLen tc). rewrite (Z.add_comm (blk * _)), Z.div_add, Z.mod_add by lia.
      rewrite Z.div_small, Z.mod_small by lia. f_equal. cbn [Z.add].
      pose proof (tr_src_cell (tc_row tc) (tc_part tc) (tc_splitNum tc) (tc_blockSize tc)
        (part_pos tc args kaddr vaddr Hok) (ts_splitNum_pos Hts) (part_row tc args kaddr vaddr Hok) 0 row sub c Hs Hc ltac:(lia)) as Htr.
      rewrite Z.mul_0_l, !Z.add_0_l in Htr. fold y in Htr. rewrite Htr. ring.
    + apply covered_selected. destruct Hsel as (Hl & i & Hi & Hd). split; [done|]. exists i. split; [done|].
      assert (blk = t_at (ta_blockIDs args) i) as -> by nia. lia.
  - intros x Hn. apply Hx. by rewrite covered_selected.
Qed.
End Grid.
