(* ===== verification/TransposeKvClaims.v ===== *)
(** The contract of TransposeKvCacheByBlock: what an accepted call does, from the
    host's tiling to the memory that every interleaving of the cores leaves. *)

From S2P Require Import Prelude AscendC TilingContext TransposeKvHost TransposeKv TransposeKvStep TransposeKvEngine TransposeKvControl TransposeKvGrid.

(** The host accepts the call: the context presents it and the tiling function
    returns a launch. *)
Record accepted (tc : TransposeCall) (context : TilingContext) (dyn : DynamicInputs) (launch : TransposeLaunch) : Prop := {
  ac_presents : presents tc context dyn;
  ac_launch : TransposeKvCacheByBlockTilingFunc context dyn = Ok launch }.

(** The tensors that the caller passes: descriptors of the caches of all layers,
    distinct caches that hold the listed blocks, distinct block ids, and sub-blocks
    that divide the heads. *)
Record cache_inputs {T} (tc : TransposeCall) (args : TransposeArgs) (kaddr vaddr : Z -> Z) (gm : gmap Z (tensor T)) : Prop := {
  ci_heads : tc_headNum tc mod tc_splitNum tc = 0;
  ci_kdesc : desc_ok (ta_kCachePtr args) kaddr (tc_layerNum tc);
  ci_vdesc : desc_ok (ta_vCachePtr args) vaddr (tc_layerNum tc);
  ci_len : t_len (ta_blockIDs args) = tc_calBlockNum tc;
  ci_ids : forall i, 0 <= i < tc_calBlockNum tc -> 0 <= t_at (ta_blockIDs args) i;
  ci_caches : caches_ok tc args kaddr vaddr gm }.

(** The limits of the kernel, none of which the tiling function checks: positive sizes
    for which its own computations do not wrap, layer numbers of 16 bits and
    rounds of 32 bits, a unified buffer of at most 1 MiB that is as large on the
    device as the host was told, block offsets of 32 bits, at most as many cores
    per block as the block has rows, and at most 4095 rows per core (the largest row count
    of a strided copy). *)
Record kernel_limits (tc : TransposeCall) (args : TransposeArgs) (TOTAL_UB_SIZE : Z) (launch : TransposeLaunch) : Prop := {
  kl_sizes : tc_sizes tc;
  kl_layers : tc_layerNum tc <= 2 ^ 16;
  kl_rounds : tc_total tc + tc_layerNum tc <= 2 ^ 32;
  kl_ub : tc_ubSize tc <= 2 ^ 20 /\ tc_ubSize tc <= TOTAL_UB_SIZE;
  kl_offsets : forall i, 0 <= i < tc_calBlockNum tc -> (t_at (ta_blockIDs args) i + 1) * tc_blockLen tc < 2 ^ 32;
  kl_split : tt_blockSizeSplitNum (tl_tiling launch) <= tc_blockSize tc;
  kl_rows : tt_blockSizePerTime (tl_tiling launch) <= 4095 }.

Lemma accepted_total tc context dyn launch : tc_sizes tc -> accepted tc context dyn launch ->
  head_aligned tc = true /\ tc_total tc <> 0 /\ exists db sp, split_plan tc = Some (db, sp) /\ launch = split_launch tc db sp.
Proof.
  intros Hts [Hp Hl]. unfold TransposeKvCacheByBlockTilingFunc in Hl. rewrite (CalTiling_plan tc context dyn Hts Hp) in Hl.
  unfold plan_result in Hl. destruct (head_aligned tc); [|discriminate]. cbn [negb] in Hl.
  destruct (split_plan tc) as [[db sp]|]; [|discriminate]. destruct (Z.eqb_spec (tc_total tc) 0); [discriminate|].
  rewrite bind_Ok in Hl. destruct (HasTilingData context); [|discriminate]. injection Hl as <-. split_and!; eauto.
Qed.

(** The contract of the kernel, from the three. *)
Record admitted {T} (tc : TransposeCall) (args : TransposeArgs) (kaddr vaddr : Z -> Z) (TOTAL_UB_SIZE : Z)
    (launch : TransposeLaunch) (gm : gmap Z (tensor T)) : Prop := {
  ad_call : call_ok tc args kaddr vaddr;
  ad_caches : caches_ok tc args kaddr vaddr gm;
  ad_ub : tc_ubSize tc <= TOTAL_UB_SIZE;
  ad_plan : exists db sp, split_plan tc = Some (db, sp) /\ launch = split_launch tc db sp;
  ad_split : tt_blockSizeSplitNum (tl_tiling launch) <= tc_blockSize tc;
  ad_rows : tt_blockSizePerTime (tl_tiling launch) <= 4095 }.

Lemma admit_call {T} tc context dyn args kaddr vaddr U launch (gm : gmap Z (tensor T)) :
  accepted tc context dyn launch -> cache_inputs tc args kaddr vaddr gm -> kernel_limits tc args U launch ->
  admitted tc args kaddr vaddr U launch gm.
Proof.
  intros Hac [I1 I2 I3 I4 I5 I6] [L1 L2 L3 [L4 L4'] L5 L6 L7].
  destruct (accepted_total tc context dyn launch L1 Hac) as (Ha & Ht & Hp). pose proof (ts_layerNum _ L1). pose proof (ts_calBlockNum _ L1).
  unfold tc_total in Ht. assert (tc_layerNum tc <> 0 /\ tc_calBlockNum tc <> 0) as [] by (split; intros Hz; rewrite Hz in Ht; lia).
  split; try done. split; try done; [lia|lia|]. auto.
Qed.

Section Accepted.
Context {T : Type} {tc : TransposeCall} {args : TransposeArgs}.
Context {kaddr vaddr : Z -> Z} {TOTAL_UB_SIZE : Z} {launch : TransposeLaunch}.
Implicit Type gm : gmap Z (tensor T).

Lemma admitted_plan gm : admitted tc args kaddr vaddr TOTAL_UB_SIZE launch gm ->
  exists db sp, split_plan tc = Some (db, sp) /\ launch = split_launch tc db sp /\
    sp <= tc_blockSize tc /\ slice_rows tc sp <= 4095.
Proof. intros [_ _ _ (db & sp & Hp & ->) Hs Hr]. exists db, sp. split_and!; done. Qed.

(** The instruction lists exist, and the launch starts in the invariant. *)
Lemma admitted_programs gm : admitted tc args kaddr vaddr TOTAL_UB_SIZE launch gm ->
  exists prog, forall b, 0 <= b < tl_blockDim launch ->
    transpose_kv_cache_by_block (tl_tilingKey launch) (tl_tiling launch) args b = Ok (prog b).
Proof.
  intros Hac. destruct (admitted_plan gm Hac) as (db & sp & Hplan & -> & Hsp & Hrows). destruct Hac.
  eexists (fun b => _). intros b Hb.
  apply (launch_prog tc args kaddr vaddr ad_call0 db sp Hplan Hsp Hrows b Hb).
Qed.

(** The starting state of a launch. *)
Definition launch_grid (launch : TransposeLaunch) (U : Z) (junk : Z -> Z -> Z -> T) gm (prog : Z -> list instr) : grid T :=
  start (buffer_num (tl_tilingKey launch)) (U / buffer_num (tl_tilingKey launch) / sizeof_T) junk gm prog.

(** What every reachable state satisfies. *)
Lemma admitted_invariant gm junk prog : admitted tc args kaddr vaddr TOTAL_UB_SIZE launch gm ->
  (forall b, 0 <= b < tl_blockDim launch ->
     transpose_kv_cache_by_block (tl_tilingKey launch) (tl_tiling launch) args b = Ok (prog b)) ->
  exists I : grid T -> Prop,
    I (launch_grid launch TOTAL_UB_SIZE junk gm prog) /\
    (forall g g', I g -> step (tl_blockDim launch) g g' -> I g') /\
    (forall g, I g -> safe (tl_blockDim launch) g /\
       (finished (tl_blockDim launch) g \/ exists g', step (tl_blockDim launch) g g') /\
       (finished (tl_blockDim launch) g -> transposed_caches tc args kaddr vaddr gm (g_mem g))).
Proof.
  intros Hac Hprog. destruct (admitted_plan gm Hac) as (db & sp & Hplan & -> & Hsp & Hrows). destruct Hac.
  pose proof (launch_engine tc args kaddr vaddr gm ad_call0 ad_caches0 db sp Hplan Hsp Hrows TOTAL_UB_SIZE ad_ub0) as Heng.
  eexists. split; [eapply (launch_start tc args kaddr vaddr gm ad_call0 db sp Hplan Hsp Hrows TOTAL_UB_SIZE junk prog Hprog)|].
  split; [intros g g' HI Hs; by eapply launch_inv_preserved|]. intros g HI. split; [by eapply launch_inv_safe|].
  split; [by eapply launch_inv_progress|]. intros Hf.
  by apply (launch_result tc args kaddr vaddr gm ad_call0 db sp Hplan Hsp Hrows TOTAL_UB_SIZE).
Qed.

Lemma rtc_invariant (R : grid T -> grid T -> Prop) (I : grid T -> Prop) g g' :
  (forall g g', I g -> R g g' -> I g') -> I g -> rtc R g g' -> I g'.
Proof. intros Hp Hg Hr. induction Hr; eauto. Qed.

(** The specified result of any run. *)
Lemma admitted_result gm junk gm' : admitted tc args kaddr vaddr TOTAL_UB_SIZE launch gm ->
  runs_to TOTAL_UB_SIZE junk launch args gm gm' -> transposed_caches tc args kaddr vaddr gm gm'.
Proof.
  intros Hac (prog & g & Hprog & Hrun & Hf & <-). destruct (admitted_invariant gm junk prog Hac Hprog) as (I & H0 & Hs & HI).
  apply HI; [|done]. by eapply rtc_invariant.
Qed.

(** A run that ends exists. *)
Lemma admitted_runs gm junk : admitted tc args kaddr vaddr TOTAL_UB_SIZE launch gm ->
  exists gm', runs_to TOTAL_UB_SIZE junk launch args gm gm'.
Proof.
  intros Hac. destruct (admitted_programs gm Hac) as (prog & Hprog).
  destruct (admitted_invariant gm junk prog Hac Hprog) as (I & H0 & Hs & HI).
  destruct (runs_to_end (tl_blockDim launch) I Hs (fun g Hg => proj1 (proj2 (HI g Hg))) _ H0) as (g & Hrun & Hf & _).
  exists (g_mem g), prog, g. split_and!; done.
Qed.

(** C5.  On caches and block ids as the operator expects them ([cache_inputs]), a
    call that the host accepts and that is within the limits of the kernel, which
    the host does not check ([kernel_limits]: offsets of 32 bits, at most as many
    cores per block as it has rows, at most 4095 rows per core, ...), transposes
    exactly the listed blocks of all layers of both caches in place: the launch it
    prescribes can run to the end, and whatever the interleaving of the cores, every
    run that ends leaves each listed block with its [splitNum] sub-blocks of
    [blockSize] rows rearranged into [blockSize] rows, and every other cell of memory
    as it was.  Outside the limits an accepted call can fault or move the wrong
    block: see [more_cores_than_rows] and [block_offset_wraps]. *)
Theorem transpose_call_correct context dyn gm junk :
  accepted tc context dyn launch -> cache_inputs tc args kaddr vaddr gm -> kernel_limits tc args TOTAL_UB_SIZE launch ->
  (exists gm', runs_to TOTAL_UB_SIZE junk launch args gm gm') /\
  (forall gm', runs_to TOTAL_UB_SIZE junk launch args gm gm' -> transposed_caches tc args kaddr vaddr gm gm').
Proof.
  intros Ha Hi Hl. pose proof (admit_call _ _ _ _ _ _ _ _ _ Ha Hi Hl) as Had.
  split; [by apply admitted_runs|]. intros gm' Hr. by eapply admitted_result.
Qed.

(** C10.  No schedule of a launch that the host accepts, on caches as the operator
    expects them and within the limits of the kernel ([kernel_limits], which the host
    does not check: in [more_cores_than_rows], outside them, the last core issues a
    copy of zero rows, which faults), faults or deadlocks, and every schedule is finite: after any number [n]
    of steps no core is about to fault, some core can step unless all have finished,
    and [n] is at most the number of instructions issued.  In particular the cores of
    all groups meet the barrier equally often, although the groups have different
    numbers of rounds. *)
Theorem transpose_schedules_live context dyn gm junk :
  accepted tc context dyn launch -> cache_inputs tc args kaddr vaddr gm -> kernel_limits tc args TOTAL_UB_SIZE launch ->
  exists prog,
    (forall b, 0 <= b < tl_blockDim launch ->
       transpose_kv_cache_by_block (tl_tilingKey launch) (tl_tiling launch) args b = Ok (prog b)) /\
    forall n g, nsteps (step (tl_blockDim launch)) n (launch_grid launch TOTAL_UB_SIZE junk gm prog) g ->
      safe (tl_blockDim launch) g /\
      (finished (tl_blockDim launch) g \/ exists g', step (tl_blockDim launch) g g') /\
      (n <= remaining (tl_blockDim launch) (launch_grid launch TOTAL_UB_SIZE junk gm prog))%nat.
Proof.
  intros Ha Hi Hl. pose proof (admit_call _ _ _ _ _ _ _ _ _ Ha Hi Hl) as Hac.
  destruct (admitted_programs gm Hac) as (prog & Hprog). exists prog. split; [done|].
  destruct (admitted_invariant gm junk prog Hac Hprog) as (I & H0 & Hs & HI). intros n g Hn.
  destruct (HI g) as (H1 & H2 & _); [eapply rtc_invariant; [exact Hs|exact H0|by eapply rtc_nsteps_2]|].
  pose proof (nsteps_remaining _ _ _ _ Hn). split_and!; [done|done|lia].
Qed.
End Accepted.

(** ** Round trip *)

(** The call that undoes [tc]: the roles of rows and sub-blocks are exchanged. *)
Definition inverse_call (tc tc' : TransposeCall) : Prop :=
  tc_blockSize tc' = tc_splitNum tc /\ tc_splitNum tc' = tc_blockSize tc /\ tc_part tc' = tc_part tc /\
  tc_layerNum tc' = tc_layerNum tc /\ tc_calBlockNum tc' = tc_calBlockNum tc.

Definition same_memory {T} (gm gm' : gmap Z (tensor T)) : Prop :=
  forall a, match gm !! a, gm' !! a with
  | Some t, Some t' => t_len t' = t_len t /\ forall x, t_at t' x = t_at t x
  | None, None => True
  | _, _ => False
  end.

Lemma selected_dec tc args kaddr vaddr a x : selected tc args kaddr vaddr a x \/ ~ selected tc args kaddr vaddr a x.
Proof.
  destruct (decide (Exists (fun l => a = kaddr l \/ a = vaddr l) (zrange 0 (tc_layerNum tc)))) as [Hl|Hl].
  - destruct (decide (Exists (fun i => 0 <= x - t_at (ta_blockIDs args) i * tc_blockLen tc < tc_blockLen tc)
                             (zrange 0 (tc_calBlockNum tc)))) as [Hi|Hi].
    + left. apply list.Exists_exists in Hl as (l & Hl & Ha). apply list.Exists_exists in Hi as (i & Hi & Hx).
      apply elem_of_zrange in Hl, Hi. split; eauto.
    + right. intros (_ & i & Hi' & Hx). apply Hi. apply list.Exists_exists. exists i. by rewrite elem_of_zrange.
  - right. intros ((l & Hl' & Ha) & _). apply Hl. apply list.Exists_exists. exists l. by rewrite elem_of_zrange.
Qed.

Section RoundTrip.
Context {T : Type} (tc tc' : TransposeCall) (args : TransposeArgs) (kaddr vaddr : Z -> Z).
Context (Hok : call_ok tc args kaddr vaddr) (Hok' : call_ok tc' args kaddr vaddr) (Hinv : inverse_call tc tc').
Implicit Type gm : gmap Z (tensor T).

Lemma inverse_blockLen : tc_blockLen tc' = tc_blockLen tc.
Proof.
  destruct Hinv as (H1 & H2 & H3 & _). unfold tc_blockLen.
  rewrite (part_row tc args kaddr vaddr Hok), (part_row tc' args kaddr vaddr Hok'), H1, H2, H3. ring.
Qed.

Lemma inverse_selected a x : selected tc' args kaddr vaddr a x <-> selected tc args kaddr vaddr a x.
Proof. destruct Hinv as (_ & _ & _ & H4 & H5). unfold selected. by rewrite H4, H5, inverse_blockLen. Qed.

(** Every cell of a block by row, part and column. *)
Lemma block_cell y : 0 <= y < tc_blockLen tc ->
  exists row sub c, 0 <= row < tc_splitNum tc /\ 0 <= sub < tc_blockSize tc /\ 0 <= c < tc_part tc /\
    y = (row * tc_blockSize tc + sub) * tc_part tc + c.
Proof.
  intros Hy. pose proof (part_pos tc args kaddr vaddr Hok) as Hw. pose proof (part_row tc args kaddr vaddr Hok) as Hrow.
  pose proof (ts_blockSize _ (co_sizes _ _ _ _ Hok)) as Hb. unfold tc_blockLen in Hy. rewrite Hrow in Hy.
  set (q := y / tc_part tc). pose proof (Z.div_mod y (tc_part tc) ltac:(lia)) as Hd. fold q in Hd.
  pose proof (Z.mod_pos_bound y (tc_part tc) Hw).
  assert (0 <= q < tc_splitNum tc * tc_blockSize tc) as Hq by (split; [apply Z.div_pos|apply Z.div_lt_upper_bound]; nia).
  exists (q / tc_blockSize tc), (q mod tc_blockSize tc), (y mod tc_part tc).
  pose proof (Z.div_mod q (tc_blockSize tc) ltac:(lia)). pose proof (Z.mod_pos_bound q (tc_blockSize tc) ltac:(lia)).
  split_and!; try lia; first [apply Z.div_pos; lia|apply Z.div_lt_upper_bound; lia|nia].
Qed.

Lemma transposed_back gm gm1 gm2 :
  transposed_caches tc args kaddr vaddr gm gm1 -> transposed_caches tc' args kaddr vaddr gm1 gm2 -> same_memory gm gm2.
Proof.
  intros H1 H2 a. specialize (H1 a). specialize (H2 a). destruct (gm !! a) as [t0|]; [|by rewrite H1 in H2; rewrite H2].
  destruct H1 as (t1 & Ht1 & Hl1 & Hc1 & Hn1). rewrite Ht1 in H2. destruct H2 as (t2 & -> & Hl2 & Hc2 & Hn2).
  split; [congruence|]. intros x. pose proof inverse_blockLen as Hbl.
  destruct (selected_dec tc args kaddr vaddr a x) as [Hs|Hs]; [|rewrite Hn2 by (by rewrite inverse_selected); by apply Hn1].
  pose proof Hs as (Hl & i & Hi & Hx). set (blk := t_at (ta_blockIDs args) i) in *.
  assert (selected tc args kaddr vaddr a (blk * tc_blockLen tc)) as Hsel.
  { split; [done|]. exists i. split; [done|]. fold blk. lia. }
  destruct (block_cell _ Hx) as (row & sub & c & Hr & Hsb & Hc & Hy).
  destruct Hinv as (E1 & E2 & E3 & _). specialize (Hc2 blk row sub c). rewrite E1, E2, E3, Hbl in Hc2.
  replace x with (blk * tc_blockLen tc + (row * tc_blockSize tc + sub) * tc_part tc + c) by lia.
  rewrite Hc2; try done; [|by apply inverse_selected]. by rewrite Hc1.
Qed.

Lemma caches_ok_after gm gm1 :
  caches_ok tc' args kaddr vaddr gm -> transposed_caches tc args kaddr vaddr gm gm1 -> caches_ok tc' args kaddr vaddr gm1.
Proof.
  intros [H1 H2 H3 H4 Hm] Ht. constructor; try done. intros l i Hl Hi. destruct (Hm l i Hl Hi) as ((t & Hk & Hkl) & (t' & Hv & Hvl)).
  pose proof (Ht (kaddr l)) as Htk. pose proof (Ht (vaddr l)) as Htv. rewrite Hk in Htk. rewrite Hv in Htv.
  destruct Htk as (t1 & Hk1 & Hkl1 & _). destruct Htv as (t1' & Hv1 & Hvl1 & _).
  split; eexists; (split; [eassumption|lia]).
Qed.
End RoundTrip.

Lemma inputs_after {T} tc tc' args kaddr vaddr (gm gm1 : gmap Z (tensor T)) :
  cache_inputs tc' args kaddr vaddr gm -> transposed_caches tc args kaddr vaddr gm gm1 -> cache_inputs tc' args kaddr vaddr gm1.
Proof. intros [] Ht. constructor; try done. by apply (caches_ok_after tc tc' args kaddr vaddr gm). Qed.

(** C39.  The operator is undone by the operator with rows and sub-blocks
    exchanged: when a run of an accepted call is followed by a run of the accepted
    inverse call on the same blocks, both on caches as the operator expects them and
    within the limits of the kernel, every cell of memory has its first value
    again, whatever the interleavings of both runs. *)
Theorem transpose_round_trip {T} tc tc' context context' dyn dyn' args kaddr vaddr U launch launch' (gm : gmap Z (tensor T)) :
  accepted tc context dyn launch -> cache_inputs tc args kaddr vaddr gm -> kernel_limits tc args U launch ->
  accepted tc' context' dyn' launch' -> cache_inputs tc' args kaddr vaddr gm -> kernel_limits tc' args U launch' ->
  inverse_call tc tc' ->
  forall junk junk' gm1 gm2,
    runs_to U junk launch args gm gm1 -> runs_to U junk' launch' args gm1 gm2 -> same_memory gm gm2.
Proof.
  intros A1 I1 L1 A2 I2 L2 Hinv junk junk' gm1 gm2 Hr1 Hr2.
  pose proof (admit_call _ _ _ _ _ _ _ _ _ A1 I1 L1) as H1. pose proof (admitted_result gm junk gm1 H1 Hr1) as Ht1.
  pose proof (admit_call _ _ _ _ _ _ _ _ _ A2 (inputs_after tc tc' args kaddr vaddr gm gm1 I2 Ht1) L2) as H2.
  pose proof (admitted_result gm1 junk' gm2 H2 Hr2) as Ht2.
  exact (transposed_back tc tc' args kaddr vaddr (ad_call _ _ _ _ _ _ _ H1) (ad_call _ _ _ _ _ _ _ H2) Hinv gm gm1 gm2 Ht1 Ht2).
Qed.

(** ** The protocol of an instruction list *)

(** A core takes a buffer, fills it, passes it through the queue, meets the
    barrier if blocks are shared, writes the buffer back and returns it; between
    items it may meet the barrier. *)
Inductive protocol_state : Type :=
  | PIdle
  | PFilling
  | PPassed
  | PHeld
  | PRaised
  | PReady
  | PStored
  | PExtra.

Definition protocol_next (shared : bool) (st : protocol_state) (i : instr) : option protocol_state :=
  match st, i with
  | PIdle, IAllocTensor => Some PFilling
  | PIdle, ICrossCoreSetFlag => if shared then Some PExtra else None
  | PFilling, ICopyIn _ _ _ _ => Some PFilling
  | PFilling, IEnQue => Some PPassed
  | PPassed, IDeQue => Some (if shared then PHeld else PReady)
  | PHeld, ICrossCoreSetFlag => Some PRaised
  | PRaised, ICrossCoreWaitFlag => Some PReady
  | PReady, ICopyOut _ _ _ => Some PStored
  | PStored, IFreeTensor => Some PIdle
  | PExtra, ICrossCoreWaitFlag => Some PIdle
  | _, _ => None
  end.

Fixpoint protocol (shared : bool) (st : protocol_state) (code : list instr) : option protocol_state :=
  match code with
  | [] => Some st
  | i :: code' => st' ← protocol_next shared st i; protocol shared st' code'
  end.

Definition set_count (code : list instr) : nat :=
  length (filter (fun i => i = ICrossCoreSetFlag) code).

Section Protocol.
Context (sync : bool) (W w sn bs : Z).

Lemma protocol_app shared st st' c1 c2 :
  protocol shared st c1 = Some st' -> protocol shared st (c1 ++ c2) = protocol shared st' c2.
Proof.
  revert st. induction c1 as [|i c1 IH]; intros st H; cbn [protocol app] in *; [by injection H as ->|].
  destruct (protocol_next shared st i) as [s1|]; [|discriminate]. by apply IH.
Qed.

Lemma protocol_copies it l : protocol sync PFilling (map (it_copy W w bs it) l) = Some PFilling.
Proof. induction l as [|i l IH]; [done|]. exact IH. Qed.

Lemma protocol_item it : protocol sync PIdle (item_code sync W w sn bs it) = Some PIdle.
Proof.
  unfold item_code. cbn [stage_code protocol protocol_next mbind option_bind].
  rewrite (protocol_app _ _ _ _ _ (protocol_copies it (zrange 0 sn))). unfold it_barrier, it_out. by destruct sync.
Qed.

Lemma protocol_items l : protocol sync PIdle (concat (map (item_code sync W w sn bs) l)) = Some PIdle.
Proof. induction l as [|it l IH]; [done|]. cbn [map concat]. by rewrite (protocol_app _ _ _ _ _ (protocol_item it)). Qed.

Lemma protocol_barriers n : protocol true PIdle (barriers n) = Some PIdle.
Proof. by induction n. Qed.

Lemma set_count_app c1 c2 : set_count (c1 ++ c2) = (set_count c1 + set_count c2)%nat.
Proof. unfold set_count. by rewrite filter_app, length_app. Qed.

Lemma set_count_item it : set_count (item_code sync W w sn bs it) = if sync then 1%nat else 0%nat.
Proof.
  unfold item_code. cbn [stage_code].
  change (IAllocTensor :: ?l) with ([IAllocTensor] ++ l). rewrite !set_count_app.
  assert (forall l, set_count (map (it_copy W w bs it) l) = 0%nat) as ->; [|unfold it_barrier, it_out; by destruct sync].
  intros l. induction l as [|i l IH]; [done|]. exact IH.
Qed.

Lemma set_count_core items extra :
  set_count (core_code sync W w sn bs items extra) = ((if sync then length items else 0) + extra)%nat.
Proof.
  unfold core_code. rewrite set_count_app. f_equal.
  - induction items as [|it l IH]; [by destruct sync|]. cbn [map concat length]. rewrite set_count_app, set_count_item, IH.
    destruct sync; lia.
  - induction extra as [|n IH]; [done|]. 
    pose proof (set_count_app [ICrossCoreSetFlag; ICrossCoreWaitFlag] (barriers n)) as Ha. rewrite IH in Ha. exact Ha.
Qed.
End Protocol.

(** C40.  Every core of an accepted launch, on caches as the operator expects them
    and within the limits of the kernel, issues a well-typed instruction list:
    it follows the buffer and barrier protocol from idle to idle, with a barrier
    between loading and storing exactly when blocks are shared among cores, and
    the lists of all cores set the flag the same number of times. *)
Theorem transpose_programs_typed {T} tc context dyn args kaddr vaddr U launch (gm : gmap Z (tensor T)) :
  accepted tc context dyn launch -> cache_inputs tc args kaddr vaddr gm -> kernel_limits tc args U launch ->
  exists n, forall b, 0 <= b < tl_blockDim launch -> exists code,
    transpose_kv_cache_by_block (tl_tilingKey launch) (tl_tiling launch) args b = Ok code /\
    protocol (1 <? tt_blockSizeSplitNum (tl_tiling launch)) PIdle code = Some PIdle /\ set_count code = n.
Proof.
  intros Ha Hi Hl. pose proof (admit_call _ _ _ _ _ _ _ _ _ Ha Hi Hl) as Hac.
  destruct (admitted_plan gm Hac) as (db & sp & Hplan & -> & Hsp & Hrows). destruct Hac.
  pose proof (sp_pos tc args kaddr vaddr ad_call0 db sp Hplan Hsp) as Hs.
  exists (if sp =? 1 then 0%nat else (2 * Z.to_nat (tc_total tc / plan_groups tc sp) + 2)%nat). intros b Hb.
  eexists. split; [apply (launch_prog tc args kaddr vaddr ad_call0 db sp Hplan Hsp Hrows b Hb)|].
  cbn [split_launch tl_tiling tt_blockSizeSplitNum].
  assert (negb (sp =? 1) = (1 <? sp)) as -> by (destruct (Z.eqb_spec sp 1), (Z.ltb_spec 1 sp); (done || lia)).
  rewrite set_count_core. unfold core_code. rewrite (protocol_app _ _ _ _ _ (protocol_items _ _ _ _ _ _)).
  destruct (Z.ltb_spec 1 sp) as [Hlt|Hge].
  - split; [apply protocol_barriers|]. rewrite (proj2 (Z.eqb_neq sp 1)) by lia.
    apply (core_total tc args kaddr vaddr ad_call0 db sp Hplan Hsp b Hb). lia.
  - unfold core_extra. rewrite (proj2 (Z.eqb_eq sp 1)) by lia. done.
Qed.

(** ** A concrete call

    Eight cores, one layer, blocks 2, 0 and 3 of caches of four blocks: five rows
    of two sub-blocks.  A block does not fit half of the unified buffer of 260
    bytes before it is split over four cores, which then have 2, 1, 1 and 1 rows;
    two groups take two rounds and one round. *)
Module Demo.

Definition call : TransposeCall :=
  {| tc_cores := 8; tc_ubSize := 260; tc_blockSize := 5; tc_headNum := 2; tc_headDim := 16; tc_splitNum := 2;
     tc_layerNum := 1; tc_calBlockNum := 3 |}.

(** The call that undoes it: two rows of five sub-blocks. *)
Definition back : TransposeCall :=
  {| tc_cores := 8; tc_ubSize := 320; tc_blockSize := 2; tc_headNum := 5; tc_headDim := 16; tc_splitNum := 5;
     tc_layerNum := 1; tc_calBlockNum := 3 |}.

Definition context (tc : TransposeCall) : TilingContext :=
  {| GetPlatformInfoPtr := Some {| GetCoreNumAiv := tc_cores tc; GetCoreNum := tc_cores tc; GetCoreMemSizeUB := tc_ubSize tc |};
     GetInputShape := fun _ => None;
     GetOptionalInputShape := fun _ => None;
     GetOutputShape := fun _ => None;
     GetInputDesc := fun _ => None;
     GetOptionalInputDesc := fun _ => None;
     GetOutputDesc := fun _ => None;
     GetOptionalInputTensor := fun _ => None;
     HasAttrs := true;
     GetAttrInt := fun i => [tc_blockSize tc; tc_headNum tc; tc_headDim tc; tc_splitNum tc; tc_layerNum tc] !! Z.to_nat i;
     HasTilingData := true;
     HasWorkspaceSizes := true;
     SetScheduleModeOk := true |}.

Definition dyn (tc : TransposeCall) : DynamicInputs := fun i j => if (i =? 2) && (j =? 0) then Some [tc_calBlockNum tc] else None.

Definition words (l : list Z) : tensor Z := Tensor (Z.of_nat (length l)) (fun i => nth (Z.to_nat i) l 0).

Definition kaddr (l : Z) : Z := 1000 + l.
Definition vaddr (l : Z) : Z := 2000 + l.

Definition args : TransposeArgs :=
  {| ta_kCachePtr := words [8; 1000]; ta_vCachePtr := words [8; 2000]; ta_blockIDs := words [2; 0; 3] |}.

Definition memory : gmap Z (tensor Z) :=
  <[1000 := Tensor 640 (fun i => i)]> (<[2000 := Tensor 640 (fun i => - i)]> ∅).

Lemma desc_one a : desc_ok (words [8; a]) (fun l => a + l) 1.
Proof. split; [done|]. intros l Hl. assert (l = 0) as -> by lia. split; [done|]. change (a = a + 0). lia. Qed.

Lemma three_ids (P : Z -> Prop) : P 0 -> P 1 -> P 2 -> forall i, 0 <= i < 3 -> P i.
Proof. intros H0 H1 H2 i Hi. assert (i = 0 \/ i = 1 \/ i = 2) as [-> |[-> | ->]] by lia; done. Qed.

Lemma memory_ok tc : tc_layerNum tc = 1 -> tc_calBlockNum tc = 3 -> tc_blockLen tc = 160 ->
  caches_ok tc args kaddr vaddr memory.
Proof.
  intros HL Hn Hb. constructor; rewrite ?HL, ?Hn, ?Hb; unfold kaddr, vaddr; try (intros; lia).
  - intros i i' Hi Hi'. assert (i = 0 \/ i = 1 \/ i = 2) as [-> |[-> | ->]] by lia;
      assert (i' = 0 \/ i' = 1 \/ i' = 2) as [-> |[-> | ->]] by lia; vm_compute; (done || congruence).
  - intros l i Hl Hi. assert (l = 0) as -> by lia.
    split; (eexists; split; [reflexivity|]);
      assert (i = 0 \/ i = 1 \/ i = 2) as [-> |[-> | ->]] by lia; vm_compute; discriminate.
Qed.

Lemma presents_self tc : presents tc (context tc) (dyn tc).
Proof. split_and!; try done; eexists; split_and!; done. Qed.

Lemma inputs tc : tc_layerNum tc = 1 -> tc_calBlockNum tc = 3 -> tc_blockLen tc = 160 -> tc_headNum tc mod tc_splitNum tc = 0 ->
  cache_inputs tc args kaddr vaddr memory.
Proof.
  intros HL Hn Hb Hs. constructor; rewrite ?HL, ?Hn; [done|apply desc_one|apply desc_one|done| |by apply memory_ok].
  apply three_ids; discriminate.
Qed.

Definition launch : TransposeLaunch := split_launch call true 4.
Definition back_launch : TransposeLaunch := split_launch back false 1.

Lemma call_accepted : accepted call (context call) (dyn call) launch.
Proof. split; [apply presents_self|by vm_compute]. Qed.

Lemma back_accepted : accepted back (context back) (dyn back) back_launch.
Proof. split; [apply presents_self|by vm_compute]. Qed.

Lemma call_sizes : tc_sizes call.
Proof. constructor; (split; done) || done. Qed.

Lemma back_sizes : tc_sizes back.
Proof. constructor; (split; done) || done. Qed.

Lemma call_limits : kernel_limits call args 512 launch.
Proof. constructor; [apply call_sizes|done|done|split; done|apply three_ids; done|done|done]. Qed.

Lemma back_limits : kernel_limits back args 512 back_launch.
Proof. constructor; [apply back_sizes|done|done|split; done|apply three_ids; done|done|done]. Qed.

Lemma call_inputs : cache_inputs call args kaddr vaddr memory.
Proof. by apply inputs. Qed.

Lemma back_inputs : cache_inputs back args kaddr vaddr memory.
Proof. by apply inputs. Qed.
End Demo.

(** The same call with heads of 17 elements. *)
Definition unaligned_call : TransposeCall :=
  {| tc_cores := 8; tc_ubSize := 260; tc_blockSize := 5; tc_headNum := 2; tc_headDim := 17; tc_splitNum := 2;
     tc_layerNum := 1; tc_calBlockNum := 3 |}.

Lemma unaligned_sizes : tc_sizes unaligned_call.
Proof. constructor; (split; done) || done. Qed.

Lemma CalTiling_exact_witness : CalTiling (Demo.context Demo.call) (Demo.dyn Demo.call) = Ok (split_launch Demo.call true 4) /\
  exists log, CalTiling (Demo.context unaligned_call) (Demo.dyn unaligned_call) = Err (GRAPH_FAILED log).
Proof.
  split.
  - exact (proj1 (CalTiling_exact Demo.call _ _ Demo.call_sizes (Demo.presents_self Demo.call))).
  - apply (CalTiling_exact unaligned_call _ _ unaligned_sizes (Demo.presents_self unaligned_call)). left. discriminate.
Defined.

Lemma transpose_call_correct_witness :
  exists gm', runs_to 512 (fun _ _ _ => 7) Demo.launch Demo.args Demo.memory gm' /\
    transposed_caches Demo.call Demo.args Demo.kaddr Demo.vaddr Demo.memory gm'.
Proof.
  destruct (transpose_call_correct _ _ Demo.memory (fun _ _ _ => 7) Demo.call_accepted Demo.call_inputs Demo.call_limits) as ((gm' & Hr) & Ht).
  exists gm'. split; [exact Hr|exact (Ht gm' Hr)].
Defined.

Lemma transpose_schedules_live_witness :
  exists prog, (forall b, 0 <= b < 8 -> transpose_kv_cache_by_block 3 (tl_tiling Demo.launch) Demo.args b = Ok (prog b)) /\
    exists g', step 8 (launch_grid Demo.launch 512 (fun _ _ _ => 7) Demo.memory prog) g'.
Proof.
  destruct (transpose_schedules_live _ _ Demo.memory (fun _ _ _ => 7) Demo.call_accepted Demo.call_inputs Demo.call_limits) as (prog & Hp & Hl).
  exists prog. split; [exact Hp|]. destruct (Hl 0%nat _ (nsteps_O _ _)) as (_ & [Hf|Hs] & _); [|exact Hs].
  exfalso. pose proof (Hp 0 ltac:(split; done)) as H0. specialize (Hf 0 ltac:(split; done)). cbn [launch_grid start g_core c_code] in Hf.
  rewrite Hf in H0. vm_compute in H0. discriminate.
Defined.

Lemma transpose_round_trip_witness : exists gm1 gm2,
  runs_to 512 (fun _ _ _ => 7) Demo.launch Demo.args Demo.memory gm1 /\
  runs_to 512 (fun _ _ _ => 9) Demo.back_launch Demo.args gm1 gm2 /\ same_memory Demo.memory gm2.
Proof.
  assert (inverse_call Demo.call Demo.back) as Hi by (by split_and!).
  pose proof (admit_call _ _ _ _ _ _ _ _ _ Demo.call_accepted Demo.call_inputs Demo.call_limits) as Ha.
  destruct (admitted_runs Demo.memory (fun _ _ _ => 7) Ha) as (gm1 & H1). pose proof (admitted_result _ _ _ Ha H1) as Ht.
  pose proof (inputs_after _ _ _ _ _ _ _ Demo.back_inputs Ht) as Hin.
  pose proof (admit_call _ _ _ _ _ _ _ _ _ Demo.back_accepted Hin Demo.back_limits) as Hb.
  destruct (admitted_runs gm1 (fun _ _ _ => 9) Hb) as (gm2 & H2).
  exists gm1, gm2. split; [exact H1|]. split; [exact H2|].
  exact (transpose_round_trip _ _ _ _ _ _ _ _ _ _ _ _ Demo.memory Demo.call_accepted Demo.call_inputs Demo.call_limits
    Demo.back_accepted Demo.back_inputs Demo.back_limits Hi _ _ gm1 gm2 H1 H2).
Defined.

Lemma transpose_programs_typed_witness :
  exists n, forall b, 0 <= b < 8 -> exists code,
    transpose_kv_cache_by_block 3 (tl_tiling Demo.launch) Demo.args b = Ok code /\
    protocol true PIdle code = Some PIdle /\ set_count code = n.
Proof. exact (transpose_programs_typed _ _ _ _ _ _ _ _ Demo.memory Demo.call_accepted Demo.call_inputs Demo.call_limits). Defined.

(** ** Outside the contract *)

(** An empty list of blocks makes the host divide by zero: no group is used. *)
Example empty_block_list_divides_by_zero :
  let tc := {| tc_cores := 8; tc_ubSize := 260; tc_blockSize := 5; tc_headNum := 2; tc_headDim := 16; tc_splitNum := 2;
               tc_layerNum := 1; tc_calBlockNum := 0 |} in
  TransposeKvCacheByBlockTilingFunc (Demo.context tc) (Demo.dyn tc) = Err DivideByZero.
Proof. vm_compute. reflexivity. Qed.

(** The call fails although neither condition of the error message holds: a row
    of 128 bytes fits the 200 bytes, and 3 rows fit the two cores together, but
    one of the cores would have to hold two rows. *)
Example split_error_is_not_its_message :
  let tc := {| tc_cores := 2; tc_ubSize := 200; tc_blockSize := 3; tc_headNum := 2; tc_headDim := 32; tc_splitNum := 2;
               tc_layerNum := 1; tc_calBlockNum := 1 |} in
  CalTiling (Demo.context tc) (Demo.dyn tc) = Err (GRAPH_FAILED split_error) /\
  tc_row tc * DATA_SIZE <= tc_ubSize tc /\ tc_blockLen tc * DATA_SIZE <= tc_ubSize tc * tc_cores tc.
Proof. vm_compute. repeat split; discriminate. Qed.

(** A block of three rows split over four cores: the last core of the group has no
    row and still issues a strided copy, with a row count of zero. *)
Example more_cores_than_rows :
  let tc := {| tc_cores := 4; tc_ubSize := 100; tc_blockSize := 3; tc_headNum := 2; tc_headDim := 16; tc_splitNum := 1;
               tc_layerNum := 1; tc_calBlockNum := 1 |} in
  let launch := split_launch tc false 4 in
  TransposeKvCacheByBlockTilingFunc (Demo.context tc) (Demo.dyn tc) = Ok launch /\
  exists code,
    transpose_kv_cache_by_block (tl_tilingKey launch) (tl_tiling launch) Demo.args 3 =
    Ok (IAllocTensor :: ICopyIn 0 1000 288 {| blockCount := 0; blockLen := 2; srcStride := 0; dstStride := 0 |} :: code).
Proof. split; [vm_compute; reflexivity|]. eexists. vm_compute. reflexivity. Qed.

(** Element offsets are 32 bits: the block at element offset 2^32 is taken to be
    block 0. *)
Example block_offset_wraps :
  let tc := {| tc_cores := 8; tc_ubSize := 196608; tc_blockSize := 128; tc_headNum := 4; tc_headDim := 128; tc_splitNum := 2;
               tc_layerNum := 1; tc_calBlockNum := 1 |} in
  let ids i := {| ta_kCachePtr := Demo.words [8; 1000]; ta_vCachePtr := Demo.words [8; 2000]; ta_blockIDs := Demo.words [i] |} in
  let launch := split_launch tc false 1 in
  TransposeKvCacheByBlockTilingFunc (Demo.context tc) (Demo.dyn tc) = Ok launch /\
  transpose_kv_cache_by_block (tl_tilingKey launch) (tl_tiling launch) (ids 65536) 0 =
  transpose_kv_cache_by_block (tl_tilingKey launch) (tl_tiling launch) (ids 0) 0.
Proof. vm_compute. split; reflexivity. Qed.
