(* ===== verification/Ngram.v ===== *)
(** NgramSpecDecode ([csrc/attention/ngram_spec_decode]): n-gram drafting for
    speculative decoding.  Each row of the batch appends the tokens just sampled,
    looks for an earlier occurrence of its last tokens, and proposes the tokens
    that followed it.  Host tiling ([op_host/ngram_spec_decode_tiling.cpp]) and
    kernel ([op_kernel/ngram_spec_decode.cpp]).

    The kernel has two search routines for rows that fit the unified buffer (one
    compares a token with a whole stretch of the row at once) and a third path
    for longer rows, which loads the row in chunks. *)

From S2P Require Import Prelude AscendC TilingContext.

(** ** Tiling *)

Record NgramSpecDecodeInfo : Type := {
  ni_batchSize : Z;
  ni_maxSeqLen : Z;
  ni_maxNewTokens : Z;
  ni_vocabSize : Z;
  ni_minN : Z;
  ni_maxN : Z;
  ni_k : Z;
  ni_formerNum : Z;
  ni_rowsPerCore : Z;
  ni_tailRows : Z;
  ni_blockRows : Z }.

Record NgramLaunch : Type := {
  nl_info : NgramSpecDecodeInfo;
  nl_blockDim : Z }.

Definition INPUT_TOKEN_IDS_INDEX : Z := 0.
Definition INPUT_SAMPLED_INDEX : Z := 2.
Definition ATTR_VOCAB_SIZE_INDEX : Z := 0.
Definition ATTR_MIN_N_INDEX : Z := 1.
Definition ATTR_MAX_N_INDEX : Z := 2.
Definition ATTR_K_INDEX : Z := 3.
Definition NGRAM_ELEM_SIZE : Z := 4.

Definition align8 (x : Z) : Z := (x + 8 - 1) /c 8 * 8.

Definition NgramSpecDecodeTilingFunc (context : TilingContext) : HostM NgramLaunch :=
  OP_CHECK_IF (negb (HasTilingData context)) "tilingData is nullptr." ;;
  OP_CHECK_IF (negb (HasAttrs context)) "attrs is nullptr." ;;
  vocab_size ← OP_CHECK_NULL (GetAttrInt context ATTR_VOCAB_SIZE_INDEX) "vocabSizePtr is null.";
  min_n ← OP_CHECK_NULL (GetAttrInt context ATTR_MIN_N_INDEX) "minNPtr is null.";
  max_n ← OP_CHECK_NULL (GetAttrInt context ATTR_MAX_N_INDEX) "maxNPtr is null.";
  k ← OP_CHECK_NULL (GetAttrInt context ATTR_K_INDEX) "kPtr is null.";
  tokenIdsShape ← OP_CHECK_NULL (GetInputShape context INPUT_TOKEN_IDS_INDEX) "tokenIdsShape is null.";
  sampledShape ← OP_CHECK_NULL (GetInputShape context INPUT_SAMPLED_INDEX) "sampledShape is null.";
  let batch_size := GetDim tokenIdsShape 0 in
  let max_seq_len := GetDim tokenIdsShape 1 in
  let max_new_tokens := GetDim sampledShape 1 in
  platform ← deref (GetPlatformInfoPtr context) "GetPlatformInfo";
  let aivNum := GetCoreNumAiv platform in
  let ub_size_limit := GetCoreMemSizeUB platform in
  let max_seq_len_align := align8 max_seq_len in
  let max_new_tokens_align := align8 max_new_tokens in
  let k_align := align8 k in
  let ub_per_row := (max_seq_len_align + max_new_tokens_align + k_align) * NGRAM_ELEM_SIZE in
  let ub_overhead := 4 * 32 + max_n * NGRAM_ELEM_SIZE + (max_seq_len_align + 7) /c 8 in
  let ub_available := ub_size_limit - ub_overhead in
  max_block_rows ← (if ub_available >? 0 then c_quot ub_available ub_per_row else Ok 1);
  let max_block_rows := Z.max max_block_rows 1 in
  let block_dim := Z.min batch_size aivNum in
  let rows_per_core := if block_dim >? 0 then batch_size /c block_dim else 0 in
  let former_num := if block_dim >? 0 then block_dim - 1 else 0 in
  let tail_rows := batch_size - former_num * rows_per_core in
  let block_rows := Z.min rows_per_core max_block_rows in
  Ok {| nl_info := {|
          ni_batchSize := u32 batch_size;
          ni_maxSeqLen := u32 max_seq_len;
          ni_maxNewTokens := u32 max_new_tokens;
          ni_vocabSize := u32 vocab_size;
          ni_minN := u32 min_n;
          ni_maxN := u32 max_n;
          ni_k := u32 k;
          ni_formerNum := u32 former_num;
          ni_rowsPerCore := u32 rows_per_core;
          ni_tailRows := u32 tail_rows;
          ni_blockRows := u32 block_rows |};
        nl_blockDim := u32 block_dim |}.

(** ** State of a core *)

Inductive NBuf : Type :=
  | tokenTileBuf | sampledTileBuf | numTokensBuf | discardTileBuf | nextTokenBuf | draftBuf | numValidBuf
  | suffixBuf | maskBuf.
#[global] Instance NBuf_eq_dec : EqDecision NBuf.
Proof. solve_decision. Defined.

(** The tensors in global memory that the kernel writes. *)
Inductive NGm : Type :=
  | tokenGm | nextTokensGm | draftTokensGm | numValidGm.
#[global] Instance NGm_eq_dec : EqDecision NGm.
Proof. solve_decision. Defined.

Record NS : Type := {
  n_ub : NBuf -> tensor Z;
  n_gm : NGm -> tensor Z }.

Definition nbuf (b : NBuf) : lens NS (tensor Z) :=
  Lens (fun s => n_ub s b) (fun t s => {| n_ub := upd (n_ub s) b t; n_gm := n_gm s |}).
Definition ngm (o : NGm) : lens NS (tensor Z) :=
  Lens (fun s => n_gm s o) (fun t s => {| n_ub := n_ub s; n_gm := upd (n_gm s) o t |}).

Record NEnv : Type := {
  numTokensGm : tensor Z;
  sampledGm : tensor Z;
  discardGm : tensor Z;
  n_info : NgramSpecDecodeInfo;
  nBlockIdx : Z }.

(** ** Comparison with a scalar *)

(** Bits [f 0], [f 1], ... of an integer. *)
Fixpoint bits (n : nat) (f : Z -> bool) : Z :=
  match n with
  | O => 0
  | S n' => Z.b2z (f 0) + 2 * bits n' (fun i => f (i + 1))
  end.

(** [CompareScalar(dst, src[soff], v, EQ, count)]: one bit for each of [count]
    elements; the instruction works on repeats of 64 elements. *)
Definition CompareScalarEQ (dst : lens NS (tensor Z)) (src : NS -> tensor Z) (soff v count : Z) : M NS fault_kind unit :=
  fun s =>
  if negb (count %c 64 =? 0) then Err Misaligned
  else if in_tensor (src s) soff count && in_tensor (lget dst s) 0 (count /c 8)
  then Ok (tt, lset dst (write_range (lget dst s) 0 (count /c 8)
                 (fun q => bits 8 (fun b => t_at (src s) (soff + (8 * q + b)) =? v))) s)
  else Err OutOfBounds.

(** [bv & (1u << (p & 7u))]. *)
Definition mask_bit (bv p : Z) : bool := negb (Z.land bv (Z.shiftl 1 (Z.land p 7)) =? 0).

(** ** Kernel *)

Definition SAFE_CHUNK : Z := 32768.
Definition MAX_CHUNK_ELEMS : Z := 8192.
Definition CMP_MAX : Z := 8192.
Definition STORE_MAX : Z := 16383.

Section Kernel.
Variable e : NEnv.
Abbreviation K := (M NS fault_kind).

Definition max_seq_len : Z := i32 (ni_maxSeqLen (n_info e)).
Definition max_new_tokens : Z := i32 (ni_maxNewTokens (n_info e)).
Definition vocab_size_val : Z := i32 (ni_vocabSize (n_info e)).
Definition min_n_val : Z := i32 (ni_minN (n_info e)).
Definition max_n_val : Z := i32 (ni_maxN (n_info e)).
Definition k_val : Z := i32 (ni_k (n_info e)).
Definition former_num : Z := i32 (ni_formerNum (n_info e)).
Definition rows_per_core : Z := i32 (ni_rowsPerCore (n_info e)).
Definition tail_rows : Z := i32 (ni_tailRows (n_info e)).
Definition block_rows : Z := i32 (ni_blockRows (n_info e)).

Definition max_seq_len_align : Z := i32 (align8 max_seq_len).
Definition max_new_tokens_align : Z := i32 (align8 max_new_tokens).
Definition k_align : Z := i32 (align8 k_val).
Definition is_large_row : bool := max_seq_len_align >? SAFE_CHUNK.

Definition my_rows : Z := if nBlockIdx e <? u32 former_num then u32 rows_per_core else u32 tail_rows.
Definition row_offset : Z :=
  if nBlockIdx e <? u32 former_num then u32 (u32 rows_per_core * nBlockIdx e)
  else u32 (u32 rows_per_core * u32 former_num).

(** Elements of each buffer that [Init] asks for; the mask is in bytes.  Whether the
    unified buffer has room for them is decided by [Init] below. *)
Definition nbuf_elems (b : NBuf) : Z :=
  let br := u32 block_rows in
  let br_align := u32 (u32 (br * 4 + 31) /c 32 * 32) /c 4 in
  match b with
  | tokenTileBuf =>
      if negb is_large_row then u32 (u32 (br * u32 max_seq_len_align) * 4) /c 4
      else u32 (SAFE_CHUNK + u32 max_n_val + 7) /c 8 * 8
  | maskBuf => (SAFE_CHUNK + 7) /c 8
  | sampledTileBuf => u32 (u32 (br * u32 max_new_tokens_align) * 4) /c 4
  | draftBuf => u32 (u32 (br * u32 k_align) * 4) /c 4
  | suffixBuf => u32 (u32 max_n_val * 4) /c 4
  | numTokensBuf | discardTileBuf | nextTokenBuf | numValidBuf => br_align
  end.

(** The calls of [InitBuffer], in bytes and in the order of the source. *)
Definition nbuf_bytes (b : NBuf) : Z := match b with maskBuf => nbuf_elems b | _ => nbuf_elems b * 4 end.

Definition ngram_buffers : list NBuf :=
  [tokenTileBuf; maskBuf; sampledTileBuf; numTokensBuf; discardTileBuf; nextTokenBuf; draftBuf; numValidBuf; suffixBuf].

Abbreviation tokenLocal := (nbuf tokenTileBuf).
Abbreviation sampledLocal := (nbuf sampledTileBuf).
Abbreviation numTokensLocal := (nbuf numTokensBuf).
Abbreviation discardLocal := (nbuf discardTileBuf).
Abbreviation nextLocal := (nbuf nextTokenBuf).
Abbreviation draftLocal := (nbuf draftBuf).
Abbreviation numValidLocal := (nbuf numValidBuf).
Abbreviation suffixLocal := (nbuf suffixBuf).
Abbreviation maskLocal := (nbuf maskBuf).
Abbreviation msa := (u32 max_seq_len_align).
Abbreviation mnta := (u32 max_new_tokens_align).
Abbreviation ka := (u32 k_align).
Abbreviation msl := (u32 max_seq_len).

(** *** Pieces that the paths share *)

(** Sampled tokens that are discarded or outside the vocabulary become -1; the
    others are counted. *)
Definition CleanSampled (idx discard : Z) : K Z :=
  for_acc 0 max_new_tokens 0 (fun j valid_count =>
    let p := u32 (u32 (idx * mnta) + j) in
    val ← GetValue (lget sampledLocal) p;
    if negb (discard =? 0) then SetValue sampledLocal p (-1) ;; mret (inl valid_count)
    else if negb (val =? -1) && (val <? vocab_size_val) then mret (inl (i32 (valid_count + 1)))
    else SetValue sampledLocal p (-1) ;; mret (inl valid_count)).

(** The count is limited by the space left in the row. *)
Definition ClampCount (seq_len valid_count : Z) : Z :=
  let avail_space := i32 (max_seq_len - seq_len) in
  let avail_space := if avail_space <? 0 then 0 else avail_space in
  if valid_count >? avail_space then avail_space else valid_count.

Definition PutNext (idx valid_count backup_token : Z) : K unit :=
  if valid_count >? 0 then
    v ← GetValue (lget sampledLocal) (u32 (u32 (u32 (idx * mnta) + valid_count) - 1));
    SetValue nextLocal idx v
  else SetValue nextLocal idx backup_token.

Definition ClearDraft (idx : Z) : K unit :=
  for_range 0 k_val (fun j => SetValue draftLocal (u32 (u32 (idx * ka) + j)) (-1)).

(** The length of the draft up to the first -1. *)
Definition CountDraft (idx : Z) : K unit :=
  valid_draft_count ← for_acc 0 k_val 0 (fun j valid_draft_count =>
    d ← GetValue (lget draftLocal) (u32 (u32 (idx * ka) + j));
    if negb (d =? -1) then mret (inl (i32 (valid_draft_count + 1))) else mret (inr valid_draft_count));
  SetValue numValidLocal idx valid_draft_count.

(** *** Rows in the unified buffer *)

(** The row at position [pos + s] is compared with its tail, from [s = 1]. *)
Definition MatchTail (nt ngram_len pos : Z) : K bool :=
  for_acc 1 ngram_len true (fun s _ =>
    sv ← GetValue (lget tokenLocal) (u32 (i32 (nt - ngram_len + s)));
    tv ← GetValue (lget tokenLocal) (u32 (i32 (pos + s)));
    if negb (tv =? sv) then mret (inr false) else mret (inl true)).

(** Search of one n-gram length when a core holds one row: stretches of
    [CMP_MAX] positions are compared with the first token of the suffix at once. *)
Definition SearchStretches (nt ngram_len : Z) (best : Z * Z) : K (Z * Z) :=
  let wc := i32 (nt - ngram_len) in
  suffix0 ← GetValue (lget tokenLocal) (u32 (i32 (nt - ngram_len)));
  for_acc_step 0 wc CMP_MAX best (fun cmp_off best =>
    let remaining := u32 (i32 (wc - cmp_off)) in
    let elements := if remaining >=? CMP_MAX then CMP_MAX else remaining in
    let count_aligned := u32 (elements + 63) /c 64 * 64 in
    let buf_avail := u32 (msa - u32 cmp_off) in
    let count_aligned := if count_aligned >? buf_avail then buf_avail /c 64 * 64 else count_aligned in
    best ←
      (if count_aligned =? 0 then
         for_acc 0 (i32 elements) best (fun p best =>
           t ← GetValue (lget tokenLocal) (u32 (i32 (cmp_off + p)));
           if t =? suffix0 then
             all_match ← MatchTail nt ngram_len (i32 (cmp_off + p));
             if (all_match : bool) then mret (inr (i32 (cmp_off + p), ngram_len)) else mret (inl best)
           else mret (inl best))
       else
         CompareScalarEQ maskLocal (lget tokenLocal) (u32 cmp_off) suffix0 count_aligned ;;
         for_acc 0 (i32 elements) best (fun p best =>
           byte_val ← GetValue (lget maskLocal) (Z.shiftr (u32 p) 3);
           if mask_bit byte_val (u32 p) then
             all_match ← MatchTail nt ngram_len (i32 (cmp_off + p));
             if (all_match : bool) then mret (inr (i32 (cmp_off + p), ngram_len)) else mret (inl best)
           else mret (inl best)));
    if fst best >=? 0 then mret (inr best) else mret (inl best)).

Definition SearchSingleRow (nt : Z) : K (Z * Z) :=
  for_acc min_n_val (max_n_val + 1) (-1, 0) (fun ngram_len best =>
    if ngram_len >? nt then mret (inr best)
    else if i32 (nt - ngram_len) <=? 0 then mret (inr best)
    else best' ← SearchStretches nt ngram_len best; mret (inl best')).

(** The search when a core holds several rows. *)
Definition SearchManyRows (idx nt : Z) : K (Z * Z) :=
  let row_base := i32 (i32 idx * i32 msa) in
  for_acc min_n_val (max_n_val + 1) (-1, 0) (fun ngram_len best =>
    if ngram_len >? nt then mret (inr best)
    else
      for_range 0 ngram_len (fun s =>
        v ← GetValue (lget tokenLocal) (u32 (i32 (row_base + nt - ngram_len + s)));
        SetValue suffixLocal (u32 s) v) ;;
      let max_pos := i32 (nt - ngram_len - 1) in
      best' ← for_acc 0 (max_pos + 1) best (fun pos best =>
        matched ← for_acc 0 ngram_len true (fun s _ =>
          tv ← GetValue (lget tokenLocal) (u32 (i32 (row_base + pos + s)));
          sv ← GetValue (lget suffixLocal) (u32 s);
          if negb (tv =? sv) then mret (inr false) else mret (inl true));
        if (matched : bool) then mret (inr (pos, ngram_len)) else mret (inl best));
      mret (inl best')).

Definition PutDraft (idx nt : Z) (best : Z * Z) : K unit :=
  let '(best_match_pos, best_ngram_len) := best in
  if best_match_pos >=? 0 then
    let draft_start := i32 (best_match_pos + best_ngram_len) in
    let tokens_available := i32 (nt - draft_start) in
    for_range 0 k_val (fun j =>
      if j <? tokens_available then
        v ← GetValue (lget tokenLocal) (u32 (u32 (u32 (idx * msa) + draft_start) + j));
        SetValue draftLocal (u32 (u32 (idx * ka) + j)) v
      else SetValue draftLocal (u32 (u32 (idx * ka) + j)) (-1))
  else ClearDraft idx.

Definition ComputeOneRow (idx : Z) : K unit :=
  seq_len ← GetValue (lget numTokensLocal) idx;
  discard ← GetValue (lget discardLocal) idx;
  let backup_pos := if seq_len >? 0 then i32 (seq_len - 1) else 0 in
  backup_token ← GetValue (lget tokenLocal) (u32 (u32 (idx * msa) + backup_pos));
  valid_count ← CleanSampled idx discard;
  let valid_count := ClampCount seq_len valid_count in
  PutNext idx valid_count backup_token ;;
  let num_tokens_tmp := i32 (seq_len + valid_count) in
  for_range 0 valid_count (fun j =>
    v ← GetValue (lget sampledLocal) (u32 (u32 (idx * mnta) + j));
    SetValue tokenLocal (u32 (u32 (u32 (idx * msa) + seq_len) + j)) v) ;;
  best ←
    (if (valid_count >? 0) && (num_tokens_tmp >=? min_n_val) then
       if block_rows <=? 1 then SearchSingleRow num_tokens_tmp else SearchManyRows idx num_tokens_tmp
     else mret (-1, 0));
  PutDraft idx num_tokens_tmp best ;;
  CountDraft idx.

Definition Compute (rows : Z) : K unit := for_range 0 rows ComputeOneRow.

Definition NgramCopyIn (start_row rows : Z) : K unit :=
  for_range 0 rows (fun r =>
    let gmRow := u32 (start_row + r) * msl in
    let ubRow := u32 (r * msa) in
    for_step 0 msl MAX_CHUNK_ELEMS (fun off =>
      let chunk := if u32 (off + MAX_CHUNK_ELEMS) <=? msl then MAX_CHUNK_ELEMS else u32 (msl - off) in
      DataCopyPad tokenLocal (u32 (ubRow + off)) (lget (ngm tokenGm)) (gmRow + off) chunk)) ;;
  for_range 0 rows (fun r =>
    DataCopyPad sampledLocal (r * mnta) (fun _ => sampledGm e) (u32 (start_row + r) * max_new_tokens) (u32 max_new_tokens)) ;;
  DataCopyPad numTokensLocal 0 (fun _ => numTokensGm e) start_row rows ;;
  DataCopyPad discardLocal 0 (fun _ => discardGm e) start_row rows.

(** The outputs of [rows] rows that all paths write at the end. *)
Definition WriteResults (start_row rows : Z) : K unit :=
  DataCopyPad (ngm nextTokensGm) start_row (lget nextLocal) 0 rows ;;
  for_range 0 rows (fun r =>
    DataCopyPad (ngm draftTokensGm) (u32 (start_row + r) * k_val) (lget draftLocal) (r * k_align) (u32 k_val)) ;;
  DataCopyPad (ngm numValidGm) start_row (lget numValidLocal) 0 rows.

Definition NgramCopyOut (start_row rows : Z) : K unit :=
  for_range 0 rows (fun r =>
    let gmRow := u32 (start_row + r) * msl in
    let ubRow := u32 (r * msa) in
    for_step 0 msl MAX_CHUNK_ELEMS (fun off =>
      let chunk := if u32 (off + MAX_CHUNK_ELEMS) <=? msl then MAX_CHUNK_ELEMS else u32 (msl - off) in
      DataCopyPad (ngm tokenGm) (gmRow + off) (lget tokenLocal) (u32 (ubRow + off)) chunk)) ;;
  WriteResults start_row rows.

(** *** Rows that do not fit the unified buffer *)

Definition LoadGmElements (gm_offset count : Z) : K unit :=
  if count <=? 0 then mret tt
  else DataCopyPad tokenLocal 0 (lget (ngm tokenGm)) gm_offset (u32 count).

Definition StoreGmElements (gm_offset count : Z) : K unit :=
  if count <=? 0 then mret tt
  else
    let c := u32 count in
    for_step 0 c STORE_MAX (fun off =>
      let chunk := if u32 (off + STORE_MAX) <=? c then STORE_MAX else u32 (c - off) in
      DataCopyPad (ngm tokenGm) (gm_offset + off) (lget tokenLocal) off chunk).

(** The loaded stretch at [at] is compared with the suffix, from [s = 1]. *)
Definition MatchLoaded (ngram_len suffix_offset load_count at_ : Z) : K bool :=
  for_acc 1 ngram_len true (fun s _ =>
    sv ← GetValue (lget suffixLocal) (u32 (i32 (suffix_offset + s)));
    if u32 (at_ + s) <? u32 load_count then
      tv ← GetValue (lget tokenLocal) (u32 (at_ + u32 s));
      if negb (tv =? sv) then mret (inr false) else mret (inl true)
    else mret (inr false)).

(** One loaded stretch of the row, compared [cmp_count] positions at a time. *)
Definition SearchLoaded (ngram_len suffix_offset suffix0 chunk_start chunk_count load_count : Z) (best : Z * Z) : K (Z * Z) :=
  let cmp_count := u32 (u32 chunk_count + 63) /c 64 * 64 in
  let max_cmp := if SAFE_CHUNK >? 8192 then 8192 else SAFE_CHUNK in
  let cmp_count := if cmp_count >? max_cmp then max_cmp else cmp_count in
  let cmp_count := if cmp_count >? u32 load_count then u32 (u32 load_count + 63) /c 64 * 64 else cmp_count in
  for_acc_step 0 (u32 chunk_count) cmp_count best (fun cmp_off best =>
    let rem := u32 (u32 chunk_count - cmp_off) in
    let elements := if rem >=? cmp_count then cmp_count else rem in
    let aligned := u32 (elements + 63) /c 64 * 64 in
    CompareScalarEQ maskLocal (lget tokenLocal) cmp_off suffix0 aligned ;;
    best ← for_acc 0 elements best (fun p best =>
      bv ← GetValue (lget maskLocal) (Z.shiftr p 3);
      if mask_bit bv p then
        all_match ← MatchLoaded ngram_len suffix_offset load_count (u32 (cmp_off + p));
        if (all_match : bool) then mret (inr (i32 (chunk_start + i32 (u32 (cmp_off + p))), ngram_len)) else mret (inl best)
      else mret (inl best));
    if fst best >=? 0 then mret (inr best) else mret (inl best)).

Definition SearchChunks (gmRow nt ngram_len : Z) (best : Z * Z) : K (Z * Z) :=
  let wc := i32 (nt - ngram_len) in
  let suffix_offset := i32 (max_n_val - ngram_len) in
  suffix0 ← GetValue (lget suffixLocal) (u32 suffix_offset);
  for_acc_step 0 wc SAFE_CHUNK best (fun chunk_start best =>
    let chunk_count := if u32 (chunk_start + SAFE_CHUNK) <=? u32 wc then SAFE_CHUNK else i32 (wc - chunk_start) in
    let load_count := i32 (chunk_count + (ngram_len - 1)) in
    let load_count := if i32 (chunk_start + load_count) >? nt then i32 (nt - chunk_start) else load_count in
    LoadGmElements (gmRow + chunk_start) load_count ;;
    best ← SearchLoaded ngram_len suffix_offset suffix0 chunk_start chunk_count load_count best;
    if fst best >=? 0 then mret (inr best) else mret (inl best)).

Definition SearchLongRow (gmRow nt : Z) : K (Z * Z) :=
  let suffix_gm_start := i32 (nt - max_n_val) in
  let suffix_gm_start := if suffix_gm_start <? 0 then 0 else suffix_gm_start in
  LoadGmElements (gmRow + suffix_gm_start) max_n_val ;;
  for_range 0 max_n_val (fun s =>
    v ← GetValue (lget tokenLocal) (u32 s);
    SetValue suffixLocal (u32 s) v) ;;
  for_acc min_n_val (max_n_val + 1) (-1, 0) (fun ngram_len best =>
    if ngram_len >? nt then mret (inr best)
    else if i32 (nt - ngram_len) <=? 0 then mret (inr best)
    else
      best' ← SearchChunks gmRow nt ngram_len best;
      if fst best' >=? 0 then mret (inr best') else mret (inl best')).

Definition PutLongDraft (i gmRow nt : Z) (best : Z * Z) : K unit :=
  let '(best_match_pos, best_ngram_len) := best in
  if best_match_pos >=? 0 then
    let draft_start := i32 (best_match_pos + best_ngram_len) in
    let tokens_available := i32 (nt - draft_start) in
    let draft_load := if tokens_available <? k_val then tokens_available else k_val in
    if draft_load >? 0 then
      LoadGmElements (gmRow + draft_start) draft_load ;;
      for_range 0 k_val (fun j =>
        if j <? draft_load then
          v ← GetValue (lget tokenLocal) (u32 j);
          SetValue draftLocal (u32 (u32 (i * ka) + j)) v
        else SetValue draftLocal (u32 (u32 (i * ka) + j)) (-1))
    else ClearDraft i
  else ClearDraft i.

Definition ProcessLongRow (start_row i : Z) : K unit :=
  let gmRow := u32 (start_row + i) * msl in
  seq_len ← GetValue (lget numTokensLocal) i;
  discard ← GetValue (lget discardLocal) i;
  let backup_pos := if seq_len >? 0 then i32 (seq_len - 1) else 0 in
  valid_count ← CleanSampled i discard;
  let valid_count := ClampCount seq_len valid_count in
  LoadGmElements (gmRow + backup_pos) 1 ;;
  backup_token ← GetValue (lget tokenLocal) 0;
  PutNext i valid_count backup_token ;;
  let nt := i32 (seq_len + valid_count) in
  when (valid_count >? 0)
    (for_range 0 valid_count (fun j =>
       v ← GetValue (lget sampledLocal) (u32 (u32 (i * mnta) + j));
       SetValue tokenLocal (u32 j) v) ;;
     StoreGmElements (gmRow + seq_len) valid_count) ;;
  best ← (if (valid_count >? 0) && (nt >=? min_n_val) then SearchLongRow gmRow nt else mret (-1, 0));
  PutLongDraft i gmRow nt best ;;
  CountDraft i.

Definition ProcessChunkedRows (start_row rows : Z) : K unit :=
  DataCopyPad numTokensLocal 0 (fun _ => numTokensGm e) start_row rows ;;
  DataCopyPad discardLocal 0 (fun _ => discardGm e) start_row rows ;;
  for_range 0 rows (fun r =>
    DataCopyPad sampledLocal (r * mnta) (fun _ => sampledGm e) (u32 (start_row + r) * max_new_tokens) (u32 max_new_tokens)) ;;
  for_range 0 rows (ProcessLongRow start_row) ;;
  WriteResults start_row rows.

(** *** Entry *)

(** The loop ends because [block_rows] is positive; the state is what remains and
    the rows done. *)
Definition NgramProcess : K unit :=
  loop (S (Z.to_nat my_rows)) (fun '(remaining, cur_offset) =>
    if remaining >? 0 then
      let cur_rows := if remaining >? u32 block_rows then u32 block_rows else remaining in
      (if is_large_row then ProcessChunkedRows (u32 (row_offset + cur_offset)) cur_rows
       else
         NgramCopyIn (u32 (row_offset + cur_offset)) cur_rows ;;
         Compute cur_rows ;;
         NgramCopyOut (u32 (row_offset + cur_offset)) cur_rows) ;;
      mret (inl (u32 (remaining - cur_rows), u32 (cur_offset + cur_rows)))
    else mret (inr tt)) (my_rows, 0).
End Kernel.

(** A core with [ub] bytes of unified buffer: [Init] takes the buffers, which hold
    junk, and the core keeps the memory. *)
Definition ngram_spec_decode (e : NEnv) (ub : Z) (junk : NBuf -> Z -> Z) (gm : NGm -> tensor Z) : outcome fault_kind (NGm -> tensor Z) :=
  InitBuffers ub (nbuf_bytes e <$> ngram_buffers) ;;
  '(_, s) ← NgramProcess e {| n_ub := fun b => Tensor (nbuf_elems e b) (junk b); n_gm := gm |};
  Ok (n_gm s).

(** The bytes of unified buffer that the buffers of a core take. *)
Definition ub_bytes (e : NEnv) : Z := foldr Z.add 0 (ub_blocks <$> (nbuf_bytes e <$> ngram_buffers)).
