(* ===== verification/NgramSpec.v ===== *)
(** NgramSpecDecode: what the operator computes for one row, as functions on the
    tokens of the row, and how the three searches of the kernel are related.

    The kernel tries the n-gram lengths from [minN] to [maxN].  The path for long
    rows stops at the first length that occurs earlier in the row; the two paths
    for rows in the unified buffer go on and let a longer n-gram win. *)

From S2P Require Import Prelude AscendC TilingContext Ngram.

(** A row on entry: its tokens and their number, whether the sampled tokens are
    discarded, and the sampled tokens. *)
Record NRow : Type := {
  r_tok : Z -> Z;
  r_len : Z;
  r_disc : Z;
  r_samp : Z -> Z }.

(** The length of the draft: its tokens up to the first -1. *)
Fixpoint lead (l : list Z) : Z :=
  match l with
  | [] => 0
  | x :: l' => if x =? -1 then 0 else 1 + lead l'
  end.

Section Row.
Variable c : NgramSpecDecodeInfo.
Variable r : NRow.

(** *** The tokens *)

Definition kept (j : Z) : bool := (r_disc r =? 0) && (negb (r_samp r j =? -1) && (r_samp r j <? ni_vocabSize c)).
Definition clean (j : Z) : Z := if kept j then r_samp r j else -1.
Definition vcount (n : Z) : Z := Z.of_nat (length (List.filter kept (zrange 0 n))).
Definition row_count : Z := Z.min (vcount (ni_maxNewTokens c)) (Z.max 0 (ni_maxSeqLen c - r_len r)).
Definition row_total : Z := r_len r + row_count.
Definition row_tok (p : Z) : Z := if (r_len r <=? p) && (p <? row_total) then clean (p - r_len r) else r_tok r p.
Definition row_next : Z :=
  if row_count >? 0 then clean (row_count - 1) else r_tok r (if r_len r >? 0 then r_len r - 1 else 0).

(** *** The search *)

(** The [n] tokens at [p] are the last [n] tokens of the row. *)
Definition occurs (n p : Z) : bool := forallb (fun s => row_tok (p + s) =? row_tok (row_total - n + s)) (zrange 0 n).

(** The first occurrence below [lim]. *)
Definition first_at (n lim : Z) : option Z := find (occurs n) (zrange 0 lim).
Definition first (n : Z) : option Z := first_at n (row_total - n).

(** A longer n-gram wins. *)
Definition longest_step (best : option (Z * Z)) (n : Z) : option (Z * Z) :=
  match first n with Some p => Some (p, n) | None => best end.

(** The same, but once a shorter n-gram was found only the first [CMP_MAX]
    positions are searched. *)
Definition single_step (best : option (Z * Z)) (n : Z) : option (Z * Z) :=
  let lim := match best with Some _ => Z.min CMP_MAX (row_total - n) | None => row_total - n end in
  match first_at n lim with Some p => Some (p, n) | None => best end.

(** The shortest n-gram wins. *)
Definition shortest_step (best : option (Z * Z)) (n : Z) : option (Z * Z) :=
  match best with Some x => Some x | None => match first n with Some p => Some (p, n) | None => None end end.

Definition lengths : list Z := zrange (ni_minN c) (ni_maxN c + 1).
Definition search (step : option (Z * Z) -> Z -> option (Z * Z)) : option (Z * Z) :=
  if row_count >? 0 then foldl step None lengths else None.

(** *** The draft *)

Definition draft (best : option (Z * Z)) (j : Z) : Z :=
  match best with
  | Some (p, n) => if j <? row_total - (p + n) then row_tok (p + n + j) else -1
  | None => -1
  end.
Definition draft_count (best : option (Z * Z)) : Z := lead (draft best <$> zrange 0 (ni_k c)).

(** ** Facts *)

Lemma vcount_S n : 0 <= n -> vcount (n + 1) = vcount n + (if kept n then 1 else 0).
Proof.
  intros Hn. unfold vcount. rewrite zrange_snoc, List.filter_app, length_app, Nat2Z.inj_add by done. cbn [List.filter].
  by destruct (kept n).
Qed.

Lemma vcount_bound n : 0 <= n -> 0 <= vcount n <= n.
Proof.
  intros Hn. split; [unfold vcount; lia|]. unfold vcount. pose proof (List.filter_length_le kept (zrange 0 n)) as H.
  unfold zrange in *. rewrite length_seqZ in H. lia.
Qed.

Lemma row_count_bound : 0 <= ni_maxNewTokens c -> 0 <= row_count <= ni_maxNewTokens c.
Proof. intros H. pose proof (vcount_bound _ H). unfold row_count. lia. Qed.

Lemma row_total_bound : 0 <= r_len r <= ni_maxSeqLen c -> 0 <= ni_maxNewTokens c -> r_len r <= row_total <= ni_maxSeqLen c.
Proof. intros H1 H2. pose proof (vcount_bound _ H2). unfold row_total, row_count. lia. Qed.

(** The head of the n-gram, then the rest: how the kernel compares. *)
Lemma occurs_cons n p : 1 <= n -> occurs n p =
  (row_tok p =? row_tok (row_total - n)) && forallb (fun s => row_tok (p + s) =? row_tok (row_total - n + s)) (zrange 1 n).
Proof. intros Hn. unfold occurs. rewrite (zrange_cons 0 n) by lia. cbn [forallb]. by rewrite !Z.add_0_r. Qed.

Lemma occurs_spec n p : occurs n p = true <-> forall s, 0 <= s < n -> row_tok (p + s) = row_tok (row_total - n + s).
Proof. unfold occurs. rewrite forallb_zrange. by setoid_rewrite Z.eqb_eq. Qed.

Lemma first_at_none n lim : lim <= 0 -> first_at n lim = None.
Proof. intros H. unfold first_at. by rewrite zrange_nil by lia. Qed.

(** Lengths that leave no position before the end change nothing. *)
Lemma steps_beyond best n : row_total <= n -> longest_step best n = best /\ single_step best n = best /\ shortest_step best n = best.
Proof.
  intros Hn. unfold longest_step, single_step, shortest_step, first. rewrite first_at_none by lia. split; [done|]. split; [|by destruct best].
  rewrite first_at_none; [done|]. destruct best; lia.
Qed.

Lemma fold_id (step : option (Z * Z) -> Z -> option (Z * Z)) l best : (forall b n, n ∈ l -> step b n = b) -> foldl step best l = best.
Proof. revert best. induction l as [|n l IH]; intros best H; [done|]. simpl. rewrite H by set_solver. apply IH. set_solver. Qed.

(** The shortest n-gram stays. *)
Lemma fold_id_some l x : foldl shortest_step (Some x) l = Some x.
Proof. induction l as [|n l IH]; [done|]. exact IH. Qed.

(** A result of a search is an earlier occurrence of the end of the row. *)
Definition found (best : option (Z * Z)) : Prop :=
  forall p n, best = Some (p, n) -> ni_minN c <= n <= ni_maxN c /\ 0 <= p < row_total - n /\ occurs n p = true.

Lemma first_at_found n lim p : lim <= row_total - n -> first_at n lim = Some p -> 0 <= p < row_total - n /\ occurs n p = true.
Proof. intros Hl. unfold first_at. rewrite find_zrange_some. intros (H1 & H2 & _). split; [lia|done]. Qed.

Lemma step_found best n : ni_minN c <= n <= ni_maxN c -> found best ->
  found (longest_step best n) /\ found (single_step best n) /\ found (shortest_step best n).
Proof.
  intros Hn Hb. assert (forall lim p, lim <= row_total - n -> first_at n lim = Some p -> found (Some (p, n))) as Hf.
  { intros lim p Hl Hp p' n' [= <- <-]. split; [done|]. by eapply first_at_found. }
  split; [|split].
  - unfold longest_step, first. destruct (first_at _ _) eqn:E; [|done]. by eapply Hf; [|exact E].
  - unfold single_step. destruct (first_at _ _) eqn:E; [|done]. eapply Hf; [|exact E]. destruct best; lia.
  - unfold shortest_step, first. destruct best; [done|]. destruct (first_at _ _) eqn:E; [|done]. by eapply Hf; [|exact E].
Qed.

Definition keeps_found (step : option (Z * Z) -> Z -> option (Z * Z)) : Prop :=
  forall b n, ni_minN c <= n <= ni_maxN c -> found b -> found (step b n).

Lemma foldl_found step l b : keeps_found step -> (forall n, n ∈ l -> ni_minN c <= n <= ni_maxN c) -> found b -> found (foldl step b l).
Proof.
  intros Hs. revert b. induction l as [|n l IH]; intros b Hl Hb; [done|]. simpl. apply IH; [set_solver|]. apply Hs; [apply Hl; set_solver|done].
Qed.

Lemma fold_found step : keeps_found step -> found (search step).
Proof.
  intros Hs. unfold search. destruct (row_count >? 0); [|done]. apply foldl_found; [done| |done]. intros n Hn%elem_of_zrange. lia.
Qed.

(** A loop over the lengths may stop at one that leaves no position. *)
Definition fold_to (step : option (Z * Z) -> Z -> option (Z * Z)) (n : Z) : option (Z * Z) := foldl step None (zrange (ni_minN c) n).

Lemma fold_to_S step n : ni_minN c <= n -> fold_to step (n + 1) = step (fold_to step n) n.
Proof. intros H. unfold fold_to. by rewrite zrange_snoc, foldl_app by done. Qed.

Lemma fold_to_stop step n : (forall b m, row_total <= m -> step b m = b) -> ni_minN c <= n <= ni_maxN c + 1 -> row_total <= n ->
  fold_to step (ni_maxN c + 1) = fold_to step n.
Proof.
  intros Hs Hn Ht. unfold fold_to. rewrite (zrange_split _ n), foldl_app by lia. apply fold_id. intros b m Hm%elem_of_zrange. apply Hs. lia.
Qed.

Lemma fold_to_found step n : keeps_found step -> n <= ni_maxN c + 1 -> found (fold_to step n).
Proof. intros Hs Hn. apply foldl_found; [done| |done]. intros m Hm%elem_of_zrange. lia. Qed.

(** At most one of the lengths asked for occurs earlier in the row. *)
Definition one_occurs : Prop := forall m n, ni_minN c <= m <= ni_maxN c -> ni_minN c <= n <= ni_maxN c ->
  first m <> None -> first n <> None -> m = n.

Lemma first_at_below n lim : lim <= row_total - n -> first n = None -> first_at n lim = None.
Proof. unfold first, first_at. rewrite !find_zrange_none. intros Hl H q Hq. apply H. lia. Qed.

(** Lengths that do not occur change nothing. *)
Lemma steps_absent best n : first n = None -> longest_step best n = best /\ single_step best n = best.
Proof.
  intros Hn. unfold longest_step, single_step. rewrite Hn. split; [done|]. rewrite first_at_below; [done| |done]. destruct best; lia.
Qed.

(** The three searches then agree. *)
Lemma one_search : one_occurs -> search longest_step = search shortest_step /\ search single_step = search shortest_step.
Proof.
  intros H1. unfold search. destruct (row_count >? 0); [|done]. unfold lengths.
  assert (forall n, n ∈ zrange (ni_minN c) (ni_maxN c + 1) -> ni_minN c <= n <= ni_maxN c) as Hl by (intros n Hn%elem_of_zrange; lia).
  pose proof (NoDup_zrange (ni_minN c) (ni_maxN c + 1)) as Hnd. induction (zrange _ _) as [|n l IH]; [done|].
  apply list.NoDup_cons in Hnd as [Hni Hnd]. cbn [foldl]. destruct (first n) as [p|] eqn:E.
  - assert (longest_step None n = Some (p, n) /\ single_step None n = Some (p, n) /\ shortest_step None n = Some (p, n)) as (-> & -> & ->).
    { unfold longest_step, single_step, shortest_step. rewrite E. unfold first in E. by rewrite E. }
    rewrite fold_id_some. assert (forall m, m ∈ l -> first m = None) as Habs.
    { intros m Hm. destruct (first m) as [x|] eqn:Em; [|done]. assert (n = m) as ->; [|done].
      apply H1; [apply Hl; set_solver|apply Hl; set_solver|by rewrite E|by rewrite Em]. }
    split; apply fold_id; intros b m Hm; by apply steps_absent, Habs.
  - destruct (steps_absent None n E) as [-> ->]. assert (shortest_step None n = None) as -> by (unfold shortest_step; by rewrite E).
    apply IH; [set_solver|done].
Qed.

Lemma lead_spec l : 0 <= lead l <= Z.of_nat (length l) /\ (forall i, (Z.of_nat i < lead l) -> exists x, l !! i = Some x /\ x <> -1) /\
  (forall x, l !! Z.to_nat (lead l) = Some x -> x = -1).
Proof.
  induction l as [|x l (H1 & H2 & H3)]; simpl; [split; [lia|]; split; [lia|done]|]. destruct (x =? -1) eqn:E; bool_prop.
  - split; [lia|]. split; [lia|]. intros y Hy. simpl in Hy. congruence.
  - split; [lia|]. split.
    + intros [|i] Hi; [by exists x|]. apply H2. lia.
    + intros y. replace (Z.to_nat (1 + lead l)) with (S (Z.to_nat (lead l))) by lia. apply H3.
Qed.

Lemma draft_count_spec best j : 0 <= j < draft_count best -> j < ni_k c /\ draft best j <> -1.
Proof.
  intros Hj. unfold draft_count in Hj. pose proof (lead_spec (draft best <$> zrange 0 (ni_k c))) as (H1 & H2 & _).
  destruct (H2 (Z.to_nat j)) as (x & Hx & Hne); [lia|]. apply list_lookup_fmap_Some in Hx as (y & -> & Hy).
  unfold zrange in Hy. apply lookup_seqZ in Hy as [-> Hy]. rewrite Z.add_0_l, Z2Nat.id in * by lia. split; [lia|done].
Qed.

(** A draft that is not empty repeats what followed an earlier occurrence. *)
Lemma draft_sound best : found best -> 0 < draft_count best ->
  exists n p, ni_minN c <= n <= ni_maxN c /\ 0 <= p /\ p + n + draft_count best <= row_total /\ occurs n p = true /\
    forall j, 0 <= j < draft_count best -> draft best j = row_tok (p + n + j).
Proof.
  intros Hf Hc. destruct best as [[p n]|]; [|by destruct (draft_count_spec None 0 ltac:(lia))].
  destruct (Hf p n eq_refl) as (Hn & Hp & Ho). exists n, p. split; [done|]. split; [lia|].
  assert (forall j, 0 <= j < draft_count (Some (p, n)) -> j < row_total - (p + n)) as Hlt.
  { intros j Hj. destruct (draft_count_spec _ j Hj) as [_ Hne]. unfold draft in Hne. destruct (_ <? _) eqn:E; bool_prop; [done|lia]. }
  split; [specialize (Hlt (draft_count (Some (p, n)) - 1)); lia|]. split; [done|].
  intros j Hj. unfold draft. by rewrite (proj2 (Z.ltb_lt _ _)) by (by apply Hlt).
Qed.
End Row.
