(* ===== verification/NgramRow.v ===== *)
(** NgramSpecDecode: the parts of a row's work that all paths share. *)

From stdpp Require Import gmap.
From S2P Require Import Prelude AscendC TilingContext Ngram NgramSpec.

Lemma align8_bounds x : 0 <= x -> x <= align8 x <= x + 7 /\ align8 x mod 8 = 0.
Proof.
  intros Hx. unfold align8. replace (x + 8 - 1) with (x + 7) by lia. rewrite quot_nonneg_div by lia. split; [zlia|]. by apply Z.mod_mul.
Qed.

(** What the tiling function and the caller promise about the parameters. *)
Record ngram_env (e : NEnv) : Prop := {
  nv_seq : 0 < ni_maxSeqLen (n_info e) < 2 ^ 28;
  nv_new : 0 <= ni_maxNewTokens (n_info e) < 2 ^ 28;
  nv_vocab : 0 <= ni_vocabSize (n_info e) < 2 ^ 31;
  nv_min : 1 <= ni_minN (n_info e) < 2 ^ 28;
  nv_max : 1 <= ni_maxN (n_info e) < 2 ^ 28;
  nv_k : 0 <= ni_k (n_info e) < 2 ^ 28;
  nv_rows : 0 < ni_blockRows (n_info e) < 2 ^ 28 /\
    ni_blockRows (n_info e) * (align8 (ni_maxSeqLen (n_info e)) + align8 (ni_maxNewTokens (n_info e)) + align8 (ni_k (n_info e))) < 2 ^ 29 }.

(** ** Frames *)

Section Frames.
Variable e : NEnv.
Abbreviation c := (n_info e).
Abbreviation M := (ni_maxSeqLen c).
Abbreviation T := (ni_maxNewTokens c).
Abbreviation k := (ni_k c).
Abbreviation br := (ni_blockRows c).
Abbreviation msa := (align8 M).
Abbreviation mnta := (align8 T).
Abbreviation ka := (align8 k).

(** Elements of a row in each buffer. *)
Definition pitch (b : NBuf) : Z :=
  match b with
  | tokenTileBuf => msa
  | sampledTileBuf => mnta
  | draftBuf => ka
  | nextTokenBuf | numValidBuf => 1
  | _ => 0
  end.

(** Buffers that hold nothing between rows. *)
Definition scratch (b : NBuf) : bool :=
  match b with
  | suffixBuf | maskBuf => true
  | tokenTileBuf => is_large_row e
  | _ => false
  end.

Definition in_row (idx : Z) (b : NBuf) (i : Z) : Prop := scratch b = true \/ idx * pitch b <= i < idx * pitch b + pitch b.

(** Only row [idx] of the buffers [bs] may have changed. *)
Definition touches (idx : Z) (bs : list NBuf) (u u' : NBuf -> tensor Z) : Prop :=
  (forall b, t_len (u' b) = t_len (u b)) /\ (forall b, b ∉ bs -> u' b = u b) /\
  (forall b i, ~ in_row idx b i -> t_at (u' b) i = t_at (u b) i).

(** The same, and global memory is as before. *)
Definition steps (idx : Z) (bs : list NBuf) (s s' : NS) : Prop := n_gm s' = n_gm s /\ touches idx bs (n_ub s) (n_ub s').

Lemma touches_refl idx bs u : touches idx bs u u.
Proof. done. Qed.

Lemma touches_trans idx bs u1 u2 u3 : touches idx bs u1 u2 -> touches idx bs u2 u3 -> touches idx bs u1 u3.
Proof.
  intros (L1 & S1 & R1) (L2 & S2 & R2). split; [|split].
  - intros b. by rewrite L2.
  - intros b Hb. by rewrite S2, S1.
  - intros b i Hi. by rewrite R2, R1.
Qed.

Lemma touches_mono idx bs bs' u u' : bs ⊆ bs' -> touches idx bs u u' -> touches idx bs' u u'.
Proof. intros Hsub (L & S & R). split; [done|]. split; [set_solver|done]. Qed.

Lemma steps_refl idx bs s : steps idx bs s s.
Proof. done. Qed.

Lemma steps_trans idx bs s1 s2 s3 : steps idx bs s1 s2 -> steps idx bs s2 s3 -> steps idx bs s1 s3.
Proof. intros [G1 T1] [G2 T2]. split; [congruence|by eapply touches_trans]. Qed.

Lemma steps_mono idx bs bs' s s' : bs ⊆ bs' -> steps idx bs s s' -> steps idx bs' s s'.
Proof. intros Hsub [G H]. split; [done|by eapply touches_mono]. Qed.

Lemma steps_same idx bs s s' b : steps idx bs s s' -> b ∉ bs -> n_ub s' b = n_ub s b.
Proof. intros (_ & _ & S & _). apply S. Qed.

Lemma steps_len idx bs s s' b : steps idx bs s s' -> t_len (n_ub s' b) = t_len (n_ub s b).
Proof. intros (_ & L & _). apply L. Qed.

Lemma wp_NSet idx b i v (Q : unit -> NS -> Prop) s :
  0 <= i < t_len (n_ub s b) -> in_row idx b i ->
  (forall s', steps idx [b] s s' -> t_at (n_ub s' b) i = v -> (forall j, j <> i -> t_at (n_ub s' b) j = t_at (n_ub s b) j) -> Q tt s') ->
  wp (SetValue (nbuf b) i v) Q s.
Proof.
  intros Hi Hr HQ. apply wp_SetValue; [done|]. apply HQ; cbn [nbuf lset n_ub n_gm lget].
  - split; [done|]. split; [|split]; cbn [n_ub].
    + intros b'. unfold upd. case_decide; by subst.
    + intros b' Hb. apply upd_ne. set_solver.
    + intros b' j Hj. unfold upd. case_decide; [|done]. subst. apply write_one_out. intros ->. done.
  - rewrite upd_eq. apply write_one_in.
  - intros j Hj. rewrite upd_eq. by apply write_one_out.
Qed.

(** ** The members *)

Context (He : ngram_env e).

Lemma aligned : M <= msa <= M + 7 /\ T <= mnta <= T + 7 /\ k <= ka <= k + 7.
Proof. destruct He. split; [|split]; apply align8_bounds; lia. Qed.

Lemma bounds : 0 < br < 2 ^ 28 /\ br * msa < 2 ^ 29 /\ br * mnta < 2 ^ 29 /\ br * ka < 2 ^ 29 /\ 1 <= msa /\ 0 <= mnta /\ 0 <= ka.
Proof. pose proof aligned. destruct He. split; [lia|]. nia. Qed.

Lemma m_seq : max_seq_len e = M.
Proof. destruct He. apply i32_id. unfold fits_i32. lia. Qed.
Lemma m_new : max_new_tokens e = T.
Proof. destruct He. apply i32_id. unfold fits_i32. lia. Qed.
Lemma m_vocab : vocab_size_val e = ni_vocabSize c.
Proof. destruct He. apply i32_id. unfold fits_i32. lia. Qed.
Lemma m_min : min_n_val e = ni_minN c.
Proof. destruct He. apply i32_id. unfold fits_i32. lia. Qed.
Lemma m_max : max_n_val e = ni_maxN c.
Proof. destruct He. apply i32_id. unfold fits_i32. lia. Qed.
Lemma m_k : k_val e = k.
Proof. destruct He. apply i32_id. unfold fits_i32. lia. Qed.
Lemma m_br : block_rows e = br.
Proof. destruct He. apply i32_id. unfold fits_i32. lia. Qed.
Lemma m_msa : max_seq_len_align e = msa.
Proof. unfold max_seq_len_align. rewrite m_seq. pose proof aligned. destruct He. apply i32_id. unfold fits_i32. lia. Qed.
Lemma m_mnta : max_new_tokens_align e = mnta.
Proof. unfold max_new_tokens_align. rewrite m_new. pose proof aligned. destruct He. apply i32_id. unfold fits_i32. lia. Qed.
Lemma m_ka : k_align e = ka.
Proof. unfold k_align. rewrite m_k. pose proof aligned. destruct He. apply i32_id. unfold fits_i32. lia. Qed.

Lemma br_aligned : br <= u32 (u32 (br * 4 + 31) /c 32 * 32) /c 4.
Proof.
  pose proof bounds. rewrite (u32_id (br * 4 + 31)) by (unfold fits_u32; lia). rewrite (quot_nonneg_div (br * 4 + 31) 32) by lia.
  rewrite u32_id by (unfold fits_u32; zlia). rewrite quot_nonneg_div by zlia. zlia.
Qed.

Lemma word_elems n : 0 <= n < 2 ^ 29 -> u32 (u32 n * 4) /c 4 = n.
Proof. intros Hn. rewrite (u32_id n), u32_id by (unfold fits_u32; lia). rewrite quot_nonneg_div by lia. by apply Z.div_mul. Qed.

Lemma nbuf_sizes : nbuf_elems e sampledTileBuf = br * mnta /\ nbuf_elems e draftBuf = br * ka /\ nbuf_elems e suffixBuf = ni_maxN c /\
  nbuf_elems e maskBuf = 4096 /\ (forall b, b ∈ [numTokensBuf; discardTileBuf; nextTokenBuf; numValidBuf] -> br <= nbuf_elems e b).
Proof.
  pose proof bounds. pose proof aligned. pose proof br_aligned. pose proof (nv_max _ He). unfold nbuf_elems. rewrite m_br, m_mnta, m_ka, m_max.
  rewrite !(u32_id br), (u32_id mnta), (u32_id ka) by (unfold fits_u32; destruct He; lia). rewrite !word_elems by nia.
  do 4 (split; [done|]). intros b Hb.
  assert (b = numTokensBuf \/ b = discardTileBuf \/ b = nextTokenBuf \/ b = numValidBuf) as [->|[->|[->| ->]]] by set_solver; done.
Qed.

Definition sized (s : NS) : Prop := forall b, t_len (n_ub s b) = nbuf_elems e b.

Lemma sized_steps idx bs s s' : steps idx bs s s' -> sized s -> sized s'.
Proof. intros (_ & L & _) H b. by rewrite L. Qed.
End Frames.

(** Rewrites every wrap-around that cannot occur. *)
Ltac unwrap :=
  repeat match goal with
  | |- context [u32 ?x] => rewrite (u32_id x) by (unfold fits_u32; lia)
  | |- context [i32 ?x] => rewrite (i32_id x) by (unfold fits_i32; lia)
  end.

(** ** Sampled tokens, next token and draft of row [idx] *)

Lemma lead_app l x : lead (l ++ [x]) = if (lead l =? Z.of_nat (length l)) && negb (x =? -1) then lead l + 1 else lead l.
Proof.
  induction l as [|y l IH]; cbn [app lead length]; [by destruct (x =? -1)|]. rewrite Nat2Z.inj_succ. destruct (y =? -1) eqn:E.
  - by replace (0 =? _) with false by (symmetry; apply Z.eqb_neq; lia).
  - rewrite IH. destruct (lead l =? Z.of_nat (length l)) eqn:E1; bool_prop.
    + rewrite E1. replace (1 + _ =? _) with true by (symmetry; apply Z.eqb_eq; lia). simpl. destruct (negb _); lia.
    + replace (1 + _ =? _) with false by (symmetry; apply Z.eqb_neq; lia). done.
Qed.

Lemma lead_stop l l' n : lead l = n -> n < Z.of_nat (length l) -> lead (l ++ l') = n.
Proof.
  revert n. induction l as [|y l IH]; cbn [app lead length]; intros n Hn Hlt; [lia|]. destruct (y =? -1); [done|].
  rewrite (IH (n - 1)) by lia. lia.
Qed.

Section Shared.
Variable e : NEnv.
Context (He : ngram_env e).
Variable r : NRow.
Variable idx : Z.
Context (Hidx : 0 <= idx < ni_blockRows (n_info e)).
Abbreviation c := (n_info e).
Abbreviation M := (ni_maxSeqLen c).
Abbreviation T := (ni_maxNewTokens c).
Abbreviation k := (ni_k c).
Abbreviation br := (ni_blockRows c).
Abbreviation msa := (align8 M).
Abbreviation mnta := (align8 T).
Abbreviation ka := (align8 k).
Abbreviation at_ s b i := (t_at (n_ub s b) i).
Abbreviation steps := (steps e idx).

Lemma idx_facts : 0 <= idx * msa /\ idx * msa + msa <= br * msa /\ 0 <= idx * mnta /\ idx * mnta + mnta <= br * mnta /\
  0 <= idx * ka /\ idx * ka + ka <= br * ka.
Proof. destruct (bounds e He) as (H1 & H2 & H3 & H4 & H5 & H6 & H7). clear He. nia. Qed.

Lemma idx_bounds : 0 < br < 2 ^ 28 /\ br * msa < 2 ^ 29 /\ br * mnta < 2 ^ 29 /\ br * ka < 2 ^ 29 /\
  M <= msa <= M + 7 /\ T <= mnta <= T + 7 /\ k <= ka <= k + 7 /\ 0 < M /\ 0 <= T /\ 0 <= k /\ M < 2 ^ 28 /\ T < 2 ^ 28 /\ k < 2 ^ 28.
Proof. pose proof (bounds e He). pose proof (aligned e He). destruct He. lia. Qed.

Definition samples (f : Z -> Z) (s : NS) : Prop := forall j, 0 <= j < T -> at_ s sampledTileBuf (idx * mnta + j) = f j.

Lemma samples_steps f bs s s' : steps bs s s' -> sampledTileBuf ∉ bs -> samples f s -> samples f s'.
Proof. intros Hs Hb H j Hj. rewrite (steps_same _ _ _ _ _ _ Hs Hb). by apply H. Qed.

Lemma clean_discard j : r_disc r <> 0 -> kept c r j = false /\ clean c r j = -1.
Proof. intros H. unfold clean, kept. by rewrite (proj2 (Z.eqb_neq _ _) H). Qed.

Lemma CleanSampled_spec s (Q : Z -> NS -> Prop) :
  sized e s -> samples (r_samp r) s ->
  (forall s', steps [sampledTileBuf] s s' -> samples (clean c r) s' -> Q (vcount c r T) s') ->
  wp (CleanSampled e idx (r_disc r)) Q s.
Proof.
  intros Hl Hs HQ. pose proof idx_facts. pose proof idx_bounds as Hbd. destruct (nbuf_sizes e He) as (B1 & _).
  unfold CleanSampled. rewrite (m_new e He), (m_mnta e He), (m_vocab e He), !(u32_id mnta) by (unfold fits_u32; lia).
  apply (wp_for_acc (fun j n s' => steps [sampledTileBuf] s s' /\ n = vcount c r j /\
    (forall i, 0 <= i < j -> at_ s' sampledTileBuf (idx * mnta + i) = clean c r i) /\
    (forall i, j <= i < T -> at_ s' sampledTileBuf (idx * mnta + i) = r_samp r i))).
  - split; [apply steps_refl|]. split; [done|]. split; [intros; lia|apply Hs].
  - intros j n s1 Hj (K1 & -> & C1 & U1). pose proof (vcount_bound c r j ltac:(lia)). unwrap.
    apply wp_bind, wp_GetValue; [cbn; rewrite (steps_len _ _ _ _ _ _ K1), Hl, B1; lia|]. cbn [nbuf lget]. rewrite U1 by lia.
    assert (forall n', n' = vcount c r (j + 1) -> clean c r j = -1 ->
      wp (SetValue (nbuf sampledTileBuf) (idx * mnta + j) (-1) ≫= fun _ => mret (inl n')) (fun x s' =>
        match x with
        | inl n => steps [sampledTileBuf] s s' /\ n = vcount c r (j + 1) /\
            (forall i, 0 <= i < j + 1 -> at_ s' sampledTileBuf (idx * mnta + i) = clean c r i) /\
            (forall i, j + 1 <= i < T -> at_ s' sampledTileBuf (idx * mnta + i) = r_samp r i)
        | inr n => Q n s' end) s1) as Hset.
    { intros n' -> Hc. apply wp_bind, (wp_NSet e idx); [rewrite (steps_len _ _ _ _ _ _ K1), Hl, B1; lia|right; cbn; lia|].
      intros s2 K2 V2 O2. apply wp_ret. split; [by eapply steps_trans|]. split; [done|]. split; intros i Hi.
      - destruct (decide (i = j)) as [->|]; [by rewrite V2|]. rewrite O2 by lia. apply C1. lia.
      - rewrite O2 by lia. apply U1. lia. }
    destruct (r_disc r =? 0) eqn:Hd; bool_prop; simpl.
    + destruct (negb (r_samp r j =? -1) && (r_samp r j <? ni_vocabSize c)) eqn:Hk; simpl.
      * assert (kept c r j = true) as Hkj by (unfold kept; by rewrite Hd, Hk). apply wp_ret. split; [done|].
        split; [rewrite vcount_S, Hkj by lia; done|]. split; intros i Hi; [|apply U1; lia].
        destruct (decide (i = j)) as [->|]; [|apply C1; lia]. rewrite U1 by lia. unfold clean. by rewrite Hkj.
      * assert (kept c r j = false) as Hkj by (unfold kept; by rewrite Hk, andb_false_r).
        apply Hset; [rewrite vcount_S, Hkj by lia; lia|unfold clean; by rewrite Hkj].
    + destruct (clean_discard j Hd) as [Hkj ?]. apply Hset; [rewrite vcount_S, Hkj by lia; lia|done].
  - intros n s1 (K1 & -> & C1 & _). rewrite Z.max_r in * by lia. by apply HQ.
Qed.

Lemma ClampCount_spec : 0 <= r_len r <= M -> ClampCount e (r_len r) (vcount c r T) = row_count c r.
Proof.
  intros Hr. pose proof idx_bounds. unfold ClampCount, row_count. rewrite (m_seq e He), i32_id by (unfold fits_i32; lia).
  pose proof (vcount_bound c r T ltac:(lia)). destruct (_ <? 0) eqn:E1; bool_prop; [lia|]. rewrite Z.max_r by lia.
  destruct (_ >? _) eqn:E2; bool_prop; lia.
Qed.

Lemma PutNext_spec s (Q : unit -> NS -> Prop) :
  sized e s -> samples (clean c r) s ->
  (forall s', steps [nextTokenBuf] s s' -> at_ s' nextTokenBuf idx = row_next c r -> Q tt s') ->
  wp (PutNext e idx (row_count c r) (r_tok r (if r_len r >? 0 then r_len r - 1 else 0))) Q s.
Proof.
  intros Hl Hs HQ. pose proof idx_facts. pose proof idx_bounds as Hbd. destruct (nbuf_sizes e He) as (B1 & _ & _ & _ & B5).
  pose proof (B5 nextTokenBuf ltac:(set_solver)). pose proof (row_count_bound c r ltac:(lia)).
  unfold PutNext, row_next in *. rewrite (m_mnta e He), (u32_id mnta) by (unfold fits_u32; lia).
  destruct (row_count c r >? 0) eqn:E; bool_prop.
  - unwrap. apply wp_bind, wp_GetValue; [cbn; rewrite Hl, B1; lia|]. cbn [nbuf lget].
    replace (idx * mnta + row_count c r - 1) with (idx * mnta + (row_count c r - 1)) by lia. rewrite Hs by lia.
    apply (wp_NSet e idx); [rewrite Hl; lia|right; cbn; lia|]. intros s1 K1 V1 _. by apply HQ.
  - apply (wp_NSet e idx); [rewrite Hl; lia|right; cbn; lia|]. intros s1 K1 V1 _. by apply HQ.
Qed.

(** A loop that writes the draft. *)
Lemma wp_fill_draft bs (f : Z -> Z) (body : Z -> Prelude.M NS fault_kind unit) s (Q : unit -> NS -> Prop) :
  sized e s -> draftBuf ∈ bs ->
  (forall j s1, 0 <= j < k -> steps bs s s1 -> wp (body j) (fun _ s2 => steps bs s1 s2 /\ at_ s2 draftBuf (idx * ka + j) = f j /\
     forall i, i <> idx * ka + j -> at_ s2 draftBuf i = at_ s1 draftBuf i) s1) ->
  (forall s', steps bs s s' -> (forall j, 0 <= j < k -> at_ s' draftBuf (idx * ka + j) = f j) -> Q tt s') ->
  wp (for_range 0 k body) Q s.
Proof.
  intros Hl Hb Hbody HQ. pose proof idx_bounds.
  apply (wp_for_range (fun j s' => steps bs s s' /\ forall i, 0 <= i < j -> at_ s' draftBuf (idx * ka + i) = f i)); [lia| | |].
  - split; [apply steps_refl|]. intros; lia.
  - intros j s1 Hj (K1 & V1). eapply wp_mono; [by apply Hbody|]. intros [] s2 (K2 & V2 & O2). split; [by eapply steps_trans|].
    intros i Hi. destruct (decide (i = j)) as [->|]; [done|]. rewrite O2 by lia. apply V1. lia.
  - intros s1 (K1 & V1). by apply HQ.
Qed.

Lemma put_draft j v s : 0 <= j < k -> sized e s ->
  wp (SetValue (nbuf draftBuf) (idx * ka + j) v) (fun _ s' => steps [draftBuf] s s' /\ at_ s' draftBuf (idx * ka + j) = v /\
    forall i, i <> idx * ka + j -> at_ s' draftBuf i = at_ s draftBuf i) s.
Proof.
  intros Hj Hl. pose proof idx_facts. pose proof idx_bounds. destruct (nbuf_sizes e He) as (_ & B2 & _).
  apply (wp_NSet e idx); [rewrite Hl, B2; lia|right; cbn; lia|]. intros s' K1 V1 O1. done.
Qed.

Lemma ClearDraft_spec s (Q : unit -> NS -> Prop) :
  sized e s -> (forall s', steps [draftBuf] s s' -> (forall j, 0 <= j < k -> at_ s' draftBuf (idx * ka + j) = -1) -> Q tt s') ->
  wp (ClearDraft e idx) Q s.
Proof.
  intros Hl HQ. pose proof idx_facts. pose proof idx_bounds. unfold ClearDraft. rewrite (m_k e He), (m_ka e He).
  apply (wp_fill_draft [draftBuf] (fun _ => -1)); [done|set_solver| |done].
  intros j s1 Hj K1. unwrap. apply put_draft; [done|by eapply sized_steps].
Qed.

Lemma CountDraft_spec best s (Q : unit -> NS -> Prop) :
  sized e s -> (forall j, 0 <= j < k -> at_ s draftBuf (idx * ka + j) = draft c r best j) ->
  (forall s', steps [numValidBuf] s s' -> at_ s' numValidBuf idx = draft_count c r best -> Q tt s') ->
  wp (CountDraft e idx) Q s.
Proof.
  intros Hl Hd HQ. pose proof idx_facts. pose proof idx_bounds as Hbd. destruct (nbuf_sizes e He) as (_ & B2 & _ & _ & B5).
  pose proof (B5 numValidBuf ltac:(set_solver)). unfold CountDraft. rewrite (m_k e He), (m_ka e He). apply wp_bind.
  assert (forall i, 0 <= i -> length (draft c r best <$> zrange 0 i) = Z.to_nat i) as Hlen.
  { intros i Hi. unfold zrange. rewrite length_fmap, length_seqZ. lia. }
  apply (wp_for_acc (fun j n s' => s' = s /\ n = j /\ lead (draft c r best <$> zrange 0 j) = j)).
  - done.
  - intros j n s1 Hj (-> & -> & Hn). unwrap. apply wp_bind, wp_GetValue; [cbn; rewrite Hl, B2; lia|]. cbn [nbuf lget]. rewrite Hd by lia.
    assert (lead (draft c r best <$> zrange 0 (j + 1)) = if draft c r best j =? -1 then j else j + 1) as Hstep.
    { rewrite zrange_snoc, fmap_app by lia. cbn [fmap list_fmap]. rewrite lead_app, Hn, Hlen, Z2Nat.id, Z.eqb_refl by lia. simpl.
      by destruct (_ =? -1). }
    destruct (draft c r best j =? -1) eqn:E; simpl; apply wp_ret; [|done].
    assert (draft_count c r best = j) as <-.
    { unfold draft_count. rewrite (zrange_split 0 (j + 1) k), fmap_app by lia.
      apply (lead_stop _ _ j); [done|rewrite Hlen by lia; lia]. }
    apply (wp_NSet e idx); [rewrite Hl; lia|right; cbn; lia|]. intros s1 K1 V1 _. by apply HQ.
  - intros n s1 (-> & -> & Hn). rewrite Z.max_r in * by lia. apply (wp_NSet e idx); [rewrite Hl; lia|right; cbn; lia|].
    intros s1 K1 V1 _. apply HQ; [done|]. rewrite V1. by unfold draft_count.
Qed.
End Shared.
