(* ===== verification/NgramSearch.v ===== *)
(** NgramSpecDecode: the two searches on rows in the unified buffer. *)

From stdpp Require Import gmap.
From S2P Require Import Prelude AscendC TilingContext Ngram NgramSpec NgramRow.

(** The pair the kernel keeps. *)
Definition code (best : option (Z * Z)) : Z * Z := match best with Some x => x | None => (-1, 0) end.

(** ** Masks *)

Lemma bits_testbit n f i : 0 <= i < Z.of_nat n -> Z.testbit (bits n f) i = f i.
Proof.
  revert f i. induction n as [|n IH]; intros f i Hi; [lia|]. cbn [bits].
  replace (Z.b2z (f 0) + 2 * bits n (fun i => f (i + 1))) with (2 * bits n (fun i => f (i + 1)) + Z.b2z (f 0)) by lia.
  destruct (decide (i = 0)) as [->|].
  - apply Z.testbit_0_r.
  - replace i with (Z.succ (i - 1)) by lia. rewrite Z.testbit_succ_r by lia. rewrite IH by lia. f_equal; lia.
Qed.

Lemma mask_bit_testbit v p : 0 <= p -> mask_bit v p = Z.testbit v (p mod 8).
Proof.
  intros Hp. unfold mask_bit. change 7 with (Z.ones 3). rewrite Z.land_ones by done. change (2 ^ 3) with 8.
  pose proof (Z.mod_pos_bound p 8 ltac:(lia)) as Hm. set (b := p mod 8) in *. rewrite Z.shiftl_1_l.
  destruct (Z.testbit v b) eqn:E.
  - apply negb_true_iff, Z.eqb_neq. intros H. assert (Z.testbit (Z.land v (2 ^ b)) b = false) as Hf by (rewrite H; apply Z.bits_0).
    rewrite Z.land_spec, E, Z.pow2_bits_true in Hf by lia. done.
  - apply negb_false_iff, Z.eqb_eq, Z.bits_inj'. intros i Hi. rewrite Z.land_spec, Z.bits_0.
    destruct (decide (i = b)) as [->|]; [by rewrite E|]. rewrite Z.pow2_bits_false by done. apply andb_false_r.
Qed.

Section Masks.
Variable e : NEnv.

(** After a comparison of [count] elements the mask answers for each of them. *)
Lemma wp_Compare idx src soff v count (Q : unit -> NS -> Prop) s :
  count mod 64 = 0 -> 0 <= count <= 8 * t_len (n_ub s maskBuf) -> 0 <= soff -> soff + count <= t_len (n_ub s src) -> src <> maskBuf ->
  (forall s', steps e idx [maskBuf] s s' ->
     (forall p, 0 <= p < count -> mask_bit (t_at (n_ub s' maskBuf) (Z.shiftr p 3)) p = (t_at (n_ub s src) (soff + p) =? v)) -> Q tt s') ->
  wp (CompareScalarEQ (nbuf maskBuf) (lget (nbuf src)) soff v count) Q s.
Proof.
  intros Hc Hm Ho Hb Hne HQ. unfold wp, CompareScalarEQ. rewrite rem_nonneg_mod, Hc by lia. simpl negb. cbv iota.
  rewrite (quot_nonneg_div count 8) by lia. rewrite !in_tensor_true by (cbn; zlia). cbn [andb nbuf lset lget]. apply HQ.
  - split; [done|]. split; [|split]; cbn [n_ub].
    + intros b'. unfold upd. case_decide; by subst.
    + intros b' Hb'. apply upd_ne. set_solver.
    + intros b' j Hj. unfold upd. case_decide; [|done]. subst. destruct Hj. by left.
  - intros p Hp. cbn [n_ub]. rewrite upd_eq, Z.shiftr_div_pow2 by done. change (2 ^ 3) with 8.
    assert (0 <= p / 8 < count / 8) by zlia. replace (p / 8) with (0 + p / 8) by lia. rewrite write_range_in by done.
    rewrite mask_bit_testbit, bits_testbit by zlia. do 2 f_equal. zlia.
Qed.
End Masks.

(** ** Rows in the unified buffer *)

Section Small.
Variable e : NEnv.
Context (He : ngram_env e).
Context (Hsmall : is_large_row e = false).
Variable r : NRow.
Variable idx : Z.
Context (Hidx : 0 <= idx < ni_blockRows (n_info e)).
Context (Hlen : 0 <= r_len r <= ni_maxSeqLen (n_info e)).
Abbreviation c := (n_info e).
Abbreviation M := (ni_maxSeqLen c).
Abbreviation br := (ni_blockRows c).
Abbreviation msa := (align8 M).
Abbreviation steps := (steps e idx).
Abbreviation total := (row_total c r).

Lemma token_size : nbuf_elems e tokenTileBuf = br * msa.
Proof.
  clear Hidx Hlen. pose proof (idx_bounds e He). unfold nbuf_elems. rewrite Hsmall, (m_br e He), (m_msa e He). cbn [negb].
  rewrite (u32_id br), (u32_id msa) by (unfold fits_u32; lia). apply word_elems. nia.
Qed.

Lemma small_bound : msa <= 32768.
Proof. pose proof Hsmall as H. unfold is_large_row in H. rewrite (m_msa e He) in H. unfold SAFE_CHUNK in H. bool_prop. lia. Qed.

Lemma total_bound : r_len r <= total <= M.
Proof. apply row_total_bound; [done|]. destruct He; lia. Qed.

Definition tokens (f : Z -> Z) (s : NS) : Prop := forall p, 0 <= p < M -> t_at (n_ub s tokenTileBuf) (idx * msa + p) = f p.

Lemma tokens_steps f bs s s' : steps bs s s' -> tokenTileBuf ∉ bs -> tokens f s -> tokens f s'.
Proof. intros Hs Hb H j Hj. rewrite (steps_same _ _ _ _ _ _ Hs Hb). by apply H. Qed.

(** Reading a token of the row. *)
Lemma wp_token p (Q : Z -> NS -> Prop) i s :
  sized e s -> tokens (row_tok c r) s -> 0 <= p < M -> i = idx * msa + p -> Q (row_tok c r p) s ->
  wp (GetValue (lget (nbuf tokenTileBuf)) i) Q s.
Proof.
  intros Hl Ht Hp -> HQ. pose proof (idx_facts e He idx Hidx). pose proof (idx_bounds e He). pose proof token_size.
  apply wp_GetValue; [cbn; rewrite Hl; lia|]. cbn [nbuf lget]. by rewrite Ht.
Qed.

(** *** Several rows *)

Lemma load_suffix n s (Q : unit -> NS -> Prop) :
  sized e s -> tokens (row_tok c r) s -> 0 <= n <= ni_maxN c -> n <= total ->
  (forall s', steps [suffixBuf] s s' -> (forall i, 0 <= i < n -> t_at (n_ub s' suffixBuf) i = row_tok c r (total - n + i)) -> Q tt s') ->
  wp (for_range 0 n (fun i => GetValue (lget (nbuf tokenTileBuf)) (u32 (i32 (idx * msa + total - n + i))) ≫= fun v =>
    SetValue (nbuf suffixBuf) (u32 i) v)) Q s.
Proof.
  intros Hl Ht Hn Hnt HQ. pose proof (idx_facts e He idx Hidx). pose proof (idx_bounds e He). pose proof total_bound.
  destruct (nbuf_sizes e He) as (_ & _ & B3 & _). destruct (nv_max e He).
  apply (wp_for_range (fun j s' => steps [suffixBuf] s s' /\ forall i, 0 <= i < j -> t_at (n_ub s' suffixBuf) i = row_tok c r (total - n + i)));
    [lia| | |].
  - split; [apply steps_refl|]. intros; lia.
  - intros j s1 Hj (K1 & V1). pose proof (sized_steps _ _ _ _ _ K1 Hl) as Hl1.
    assert (tokens (row_tok c r) s1) as Ht1 by (eapply tokens_steps; [exact K1|set_solver|done]). unwrap.
    apply wp_bind, (wp_token (total - n + j)); [done|done|lia|lia|].
    apply (wp_NSet e idx); [rewrite Hl1, B3; lia|by left|]. intros s2 K2 V2 O2. split; [by eapply steps_trans|].
    intros i Hi. destruct (decide (i = j)) as [->|]; [done|]. rewrite O2 by done. apply V1. lia.
  - intros s1 (K1 & V1). by apply HQ.
Qed.

(** The scan of one length. *)
Lemma scan_many n best s (Q : Z * Z -> NS -> Prop) :
  sized e s -> tokens (row_tok c r) s -> 0 <= n <= ni_maxN c -> n <= total ->
  (forall i, 0 <= i < n -> t_at (n_ub s suffixBuf) i = row_tok c r (total - n + i)) ->
  Q (code (longest_step c r best n)) s ->
  wp (for_acc 0 (total - n - 1 + 1) (code best) (fun pos best =>
        for_acc 0 n true (fun i _ =>
          GetValue (lget (nbuf tokenTileBuf)) (u32 (i32 (idx * msa + pos + i))) ≫= fun tv =>
          GetValue (lget (nbuf suffixBuf)) (u32 i) ≫= fun sv =>
          if negb (tv =? sv) then mret (inr false) else mret (inl true)) ≫= fun matched =>
        if (matched : bool) then mret (inr (pos, n)) else mret (inl best))) Q s.
Proof.
  intros Hl Ht Hn Hnt Hsuf HQ. pose proof (idx_facts e He idx Hidx). pose proof (idx_bounds e He). pose proof total_bound.
  destruct (nbuf_sizes e He) as (_ & _ & B3 & _). destruct (nv_max e He). replace (total - n - 1 + 1) with (total - n) by lia.
  apply (wp_find (fun s' => s' = s) (occurs c r n) (fun p => (p, n))); [done| |].
  - intros pos s1 Hp ->. apply wp_bind, (wp_forallb (fun s' => s' = s) (fun i => row_tok c r (pos + i) =? row_tok c r (total - n + i))); [done| |].
    + intros i b s1 Hi ->. unwrap. apply wp_bind, (wp_token (pos + i)); [done|done|lia|lia|].
      apply wp_bind, wp_GetValue; [cbn; rewrite Hl, B3; lia|]. cbn [nbuf lget]. rewrite Hsuf by done. by destruct (_ =? _).
    + intros s1 ->. fold (occurs c r n pos). by destruct (occurs c r n pos).
  - intros s1 ->. revert HQ. unfold longest_step, first, first_at. by destruct (find _ _).
Qed.

Lemma SearchManyRows_spec s (Q : Z * Z -> NS -> Prop) :
  sized e s -> tokens (row_tok c r) s ->
  (forall s', steps [suffixBuf] s s' -> Q (code (fold_to c (longest_step c r) (ni_maxN c + 1))) s') ->
  wp (SearchManyRows e idx total) Q s.
Proof.
  intros Hl Ht HQ. pose proof (idx_facts e He idx Hidx). pose proof (idx_bounds e He). pose proof total_bound.
  destruct (nv_max e He). destruct (nv_min e He). unfold SearchManyRows. rewrite (m_min e He), (m_max e He), (m_msa e He).
  rewrite (u32_id msa), (i32_id idx), (i32_id msa), (i32_id (idx * msa)) by (unfold fits_u32, fits_i32; nia). cbv zeta.
  apply (wp_for_acc (fun n b s' => steps [suffixBuf] s s' /\ b = code (fold_to c (longest_step c r) n))).
  - split; [apply steps_refl|]. unfold fold_to. by rewrite zrange_nil by lia.
  - intros n b s1 Hn (K1 & ->). destruct (n >? total) eqn:E; bool_prop.
    + apply wp_ret. rewrite <- (fold_to_stop c r _ n); [by apply HQ| |lia|lia]. intros b m Hm. by apply steps_beyond.
    + apply wp_bind, load_suffix; [by eapply sized_steps|eapply tokens_steps; [exact K1|set_solver|done]|lia|lia|].
      intros s2 K2 V2. assert (steps [suffixBuf] s s2) as K3 by (by eapply steps_trans). unwrap. apply wp_bind, scan_many; [by eapply sized_steps|eapply tokens_steps; [exact K3|set_solver|done]|lia|lia|done|].
      apply wp_ret. split; [done|]. by rewrite fold_to_S by lia.
  - intros b s1 (K1 & ->). destruct (decide (ni_minN c <= ni_maxN c + 1)); [rewrite Z.max_r by lia; by apply HQ|].
    specialize (HQ s1 K1). unfold fold_to in *. rewrite zrange_nil in * by lia. done.
Qed.

(** *** One row *)

(** The comparison of a stretch covers every position up to [n] before the end. *)
Definition mask_covers (n : Z) : Prop := total - n <= msa / 64 * 64 \/ msa < 64.

Section Single.
Context (H0 : idx = 0).

Lemma MatchTail_spec n pos s (Q : bool -> NS -> Prop) :
  sized e s -> tokens (row_tok c r) s -> 1 <= n -> 0 <= pos -> pos + n <= total ->
  Q (forallb (fun i => row_tok c r (pos + i) =? row_tok c r (total - n + i)) (zrange 1 n)) s ->
  wp (MatchTail total n pos) Q s.
Proof.
  intros Hl Ht Hn Hp Hpn HQ. pose proof (idx_bounds e He). pose proof total_bound. unfold MatchTail.
  apply (wp_forallb (fun s' => s' = s) (fun i => row_tok c r (pos + i) =? row_tok c r (total - n + i))); [done| |by intros s' ->].
  intros i b s' Hi ->. unwrap. apply wp_bind, (wp_token (total - n + i)); [done|done|lia|lia|].
  apply wp_bind, (wp_token (pos + i)); [done|done|lia|lia|]. by destruct (_ =? _).
Qed.

(** What one stretch finds. *)
Definition stretch_step (best : option (Z * Z)) (n off len : Z) : option (Z * Z) :=
  match find (fun p => occurs c r n (off + p)) (zrange 0 len) with Some p => Some (off + p, n) | None => best end.

(** A scan of a stretch, by either kind of test of the first token. *)
Lemma scan_stretch n off len best (body : Z -> Z * Z -> Prelude.M NS fault_kind (Z * Z + Z * Z)) s (Q : Z * Z -> NS -> Prop) :
  sized e s -> tokens (row_tok c r) s -> 1 <= n -> 0 <= off -> off + len + n <= total ->
  (forall p Q', 0 <= p < len ->
     wp (if row_tok c r (off + p) =? row_tok c r (total - n) then
           MatchTail total n (i32 (off + p)) ≫= fun all_match =>
           if (all_match : bool) then mret (inr (i32 (off + p), n)) else mret (inl (code best))
         else mret (inl (code best))) Q' s -> wp (body p (code best)) Q' s) ->
  Q (code (stretch_step best n off len)) s ->
  wp (for_acc 0 len (code best) body) Q s.
Proof.
  intros Hl Ht Hn Ho Hon Hbody HQ. pose proof (idx_bounds e He). pose proof total_bound.
  apply (wp_find (fun s' => s' = s) (fun p => occurs c r n (off + p)) (fun p => (off + p, n))); [done| |].
  - intros p s' Hp ->. apply Hbody; [done|]. rewrite occurs_cons by done. destruct (_ =? _); [|done]. unwrap.
    apply wp_bind, MatchTail_spec; [done|done|done|lia|lia|]. by destruct (forallb _ _).
  - intros s' ->. revert HQ. unfold stretch_step. by destruct (find _ _).
Qed.

Abbreviation nonneg best := (forall p m : Z, best = Some (p, m) -> 0 <= p).

(** The stretch at [off]. *)
Lemma stretch_spec n off best s (Q : Z * Z -> NS -> Prop) len :
  sized e s -> tokens (row_tok c r) s -> 1 <= n -> mask_covers n -> 0 <= off -> off mod 64 = 0 -> off < total - n ->
  len = Z.min CMP_MAX (total - n - off) ->
  (forall s', steps [maskBuf] s s' -> Q (code (stretch_step best n off len)) s') ->
  wp (let suffix0 := row_tok c r (total - n) in
      let elements := len in
      let count_aligned := u32 (elements + 63) /c 64 * 64 in
      let buf_avail := u32 (msa - u32 off) in
      let count_aligned := if count_aligned >? buf_avail then buf_avail /c 64 * 64 else count_aligned in
      if count_aligned =? 0 then
         for_acc 0 (i32 elements) (code best) (fun p best =>
           GetValue (lget (nbuf tokenTileBuf)) (u32 (i32 (off + p))) ≫= fun t =>
           if t =? suffix0 then
             MatchTail total n (i32 (off + p)) ≫= fun all_match =>
             if (all_match : bool) then mret (inr (i32 (off + p), n)) else mret (inl best)
           else mret (inl best))
       else
         CompareScalarEQ (nbuf maskBuf) (lget (nbuf tokenTileBuf)) (u32 off) suffix0 count_aligned ≫= fun _ =>
         for_acc 0 (i32 elements) (code best) (fun p best =>
           GetValue (lget (nbuf maskBuf)) (Z.shiftr (u32 p) 3) ≫= fun byte_val =>
           if mask_bit byte_val (u32 p) then
             MatchTail total n (i32 (off + p)) ≫= fun all_match =>
             if (all_match : bool) then mret (inr (i32 (off + p), n)) else mret (inl best)
           else mret (inl best))) Q s.
Proof.
  intros Hl Ht Hn Hcov Ho Hm Hlt Hlen' HQ. pose proof (idx_bounds e He) as Hbd. pose proof total_bound. pose proof small_bound.
  pose proof token_size as Hts. destruct (nbuf_sizes e He) as (_ & _ & _ & B4 & _). unfold CMP_MAX in Hlen'. cbv zeta. unwrap.
  rewrite (quot_nonneg_div (len + 63) 64), (quot_nonneg_div (msa - off) 64) by lia.
  set (cnt := if (len + 63) / 64 * 64 >? msa - off then (msa - off) / 64 * 64 else (len + 63) / 64 * 64).
  destruct (cnt =? 0) eqn:Ez; bool_prop.
  - apply (scan_stretch n off); [done|done|done|done|lia| |apply HQ, steps_refl]. intros p Q' Hp HQ'. unwrap.
    apply wp_bind, (wp_token (off + p)); [done|done|lia|lia|]. by rewrite (i32_id (off + p)) in HQ' by (unfold fits_i32; lia).
  - assert (cnt mod 64 = 0 /\ len <= cnt <= 8192 /\ off + cnt <= msa) as (C1 & C2 & C3).
    { subst cnt. unfold mask_covers in Hcov. clear HQ Hl Ht Hts. destruct (_ >? _) eqn:E; bool_prop; (split; [by apply Z.mod_mul|]).
      - destruct Hcov; zlia.
      - zlia. }
    clearbody cnt. apply wp_bind, (wp_Compare e idx); [done|rewrite Hl, B4; lia|done|rewrite Hl, Hts; nia|done|]. intros s1 K1 V1.
    pose proof (sized_steps _ _ _ _ _ K1 Hl) as Hl1. assert (tokens (row_tok c r) s1) as Ht1 by (eapply tokens_steps; [exact K1|set_solver|done]).
    apply (scan_stretch n off); [done|done|done|done|lia| |by apply HQ]. intros p Q' Hp HQ'.
    rewrite (u32_id p) by (unfold fits_u32; lia). apply wp_bind, wp_GetValue.
    + cbn [nbuf lget]. rewrite Hl1, B4, Z.shiftr_div_pow2 by done. change (2 ^ 3) with 8. zlia.
    + cbn [nbuf lget]. rewrite V1 by lia. replace (off + p) with (idx * msa + (off + p)) at 1 by lia. by rewrite Ht by lia.
Qed.

(** A length whose first stretches up to [off] have no occurrence. *)
Definition none_before (n off : Z) : Prop := forall p, 0 <= p < Z.min off (total - n) -> occurs c r n p = false.

Lemma stretch_some best n off len x :
  none_before n off -> 0 <= off -> 0 <= len -> off + len <= total - n -> (off = 0 /\ len <= CMP_MAX \/ best = None) ->
  find (fun p => occurs c r n (off + p)) (zrange 0 len) = Some x -> single_step c r best n = Some (off + x, n).
Proof.
  intros Hno Ho Hlen' Hlt Hb. rewrite find_zrange_some. intros (H1 & H2 & H3). unfold single_step, first_at.
  assert (find (occurs c r n) (zrange 0 (match best with Some _ => Z.min CMP_MAX (total - n) | None => total - n end)) = Some (off + x)) as ->;
    [|done].
  apply find_zrange_some. split; [|split; [done|]].
  - destruct Hb as [[-> Hc]| ->]; [|lia]. destruct best; lia.
  - intros q Hq. destruct (decide (q < off)); [apply Hno; lia|]. replace q with (off + (q - off)) by lia. apply H3. lia.
Qed.

Lemma stretch_none n off len : none_before n off -> 0 <= off -> len = Z.min CMP_MAX (total - n - off) ->
  find (fun p => occurs c r n (off + p)) (zrange 0 len) = None -> none_before n (off + CMP_MAX).
Proof.
  intros Hno Ho Hl. rewrite find_zrange_none. intros Hf p Hp. destruct (decide (p < off)); [apply Hno; lia|].
  replace p with (off + (p - off)) by lia. apply Hf. lia.
Qed.

Lemma single_none best n off : none_before n off -> match best with Some _ => Z.min CMP_MAX (total - n) | None => total - n end <= off ->
  single_step c r best n = best.
Proof.
  intros Hno Hlim. unfold single_step, first_at.
  assert (find (occurs c r n) (zrange 0 (match best with Some _ => Z.min CMP_MAX (total - n) | None => total - n end)) = None) as ->; [|done].
  apply find_zrange_none. intros q Hq. apply Hno. destruct best; lia.
Qed.

Lemma SearchStretches_spec n best s (Q : Z * Z -> NS -> Prop) :
  sized e s -> tokens (row_tok c r) s -> 1 <= n -> n < total -> mask_covers n -> nonneg best ->
  (forall s', steps [maskBuf] s s' -> Q (code (single_step c r best n)) s') ->
  wp (SearchStretches e total n (code best)) Q s.
Proof.
  intros Hl Ht Hn Hnt Hcov Hb HQ. pose proof (idx_bounds e He) as Hbd. pose proof total_bound. pose proof small_bound.
  unfold SearchStretches. rewrite (m_msa e He), (u32_id msa), (i32_id (total - n)), (u32_id (total - n)) by (unfold fits_u32, fits_i32; lia).
  cbv zeta. apply wp_bind, (wp_token (total - n)); [done|done|lia|lia|].
  assert (0 <= (total - n - 0 + CMP_MAX - 1) / CMP_MAX) by (apply Z.div_pos; unfold CMP_MAX; lia).
  apply (wp_for_acc_loop (fun off a s' => steps [maskBuf] s s' /\ a = code best /\ none_before n off /\ (off = 0 \/ best = None))).
  - split; [apply steps_refl|]. split; [done|]. split; [intros p Hp; lia|by left].
  - intros j a s1 Hj (K1 & -> & Hno & Hor). rewrite Z2Nat.id in Hj by done. rewrite Z.add_0_l in *.
    assert (j * CMP_MAX < total - n) as Hlt by (unfold CMP_MAX in *; zlia). remember (j * CMP_MAX) as off eqn:Hoff.
    assert (0 <= off /\ off mod 64 = 0) as [Ho Hm] by (subst off; unfold CMP_MAX; split; [lia|zlia]).
    replace (0 + (j + 1) * CMP_MAX) with (off + CMP_MAX) by lia. clear j Hj Hoff.
    rewrite !(i32_id (total - n - off)), !(u32_id (total - n - off)) by (unfold fits_u32, fits_i32; lia).
    assert ((if total - n - off >=? CMP_MAX then CMP_MAX else total - n - off) = Z.min CMP_MAX (total - n - off)) as ->
      by (destruct (_ >=? _) eqn:E; bool_prop; lia).
    apply wp_bind, (stretch_spec n off best _ _ (Z.min CMP_MAX (total - n - off)));
      [by eapply sized_steps|eapply tokens_steps; [exact K1|set_solver|done]|done|done|done|done|done|done|].
    intros s2 K2. assert (steps [maskBuf] s s2) as K3 by (by eapply steps_trans). specialize (HQ s2 K3). unfold stretch_step.
    destruct (find (fun p => occurs c r n (off + p)) _) as [x|] eqn:Hf.
    + rewrite (stretch_some best n off (Z.min CMP_MAX (total - n - off)) x) in HQ by (done || unfold CMP_MAX; lia || (destruct Hor; auto; left; lia)).
      apply find_zrange_some in Hf as (Hx & _). cbn [code fst] in *. by rewrite (proj2 (Z.geb_le _ _)) by lia.
    + pose proof (stretch_none n off _ Hno Ho eq_refl Hf) as Hno'. destruct best as [[p m]|]; cbn [code fst].
      * rewrite (proj2 (Z.geb_le p 0)) by (by eapply Hb). apply wp_ret. rewrite (single_none _ n (off + CMP_MAX)) in HQ; [done|done|].
        destruct Hor as [->|?]; [lia|done].
      * apply wp_ret. split; [done|]. split; [done|]. split; [done|by right].
  - intros a s1 (K1 & -> & Hno & Hor). rewrite Z.add_0_l, Z2Nat.id in * by done. specialize (HQ s1 K1).
    assert (total - n <= (total - n - 0 + CMP_MAX - 1) / CMP_MAX * CMP_MAX) by (unfold CMP_MAX; zlia).
    rewrite (single_none best n _ Hno) in HQ; [done|]. destruct Hor as [?| ->]; [unfold CMP_MAX in *; lia|done].
Qed.

Lemma SearchSingleRow_spec s (Q : Z * Z -> NS -> Prop) :
  sized e s -> tokens (row_tok c r) s -> mask_covers (ni_minN c) ->
  (forall s', steps [maskBuf] s s' -> Q (code (fold_to c (single_step c r) (ni_maxN c + 1))) s') ->
  wp (SearchSingleRow e total) Q s.
Proof.
  intros Hl Ht Hcov HQ. pose proof (idx_bounds e He). pose proof total_bound. destruct (nv_max e He). destruct (nv_min e He).
  assert (forall b m, total <= m -> single_step c r b m = b) as Hbey by (intros b m Hm; by apply steps_beyond).
  unfold SearchSingleRow. rewrite (m_min e He), (m_max e He).
  apply (wp_for_acc (fun n b s' => steps [maskBuf] s s' /\ b = code (fold_to c (single_step c r) n))).
  - split; [apply steps_refl|]. unfold fold_to. by rewrite zrange_nil by lia.
  - intros n b s1 Hn (K1 & ->). destruct (n >? total) eqn:E; bool_prop.
    { apply wp_ret. rewrite <- (fold_to_stop c r _ n); [by apply HQ|done|lia|lia]. }
    unwrap. destruct (total - n <=? 0) eqn:E2; bool_prop.
    { apply wp_ret. rewrite <- (fold_to_stop c r _ n); [by apply HQ|done|lia|lia]. }
    apply wp_bind, SearchStretches_spec; [by eapply sized_steps|eapply tokens_steps; [exact K1|set_solver|done]|lia|lia| | |].
    + unfold mask_covers in *. lia.
    + intros p m Hp. apply (fold_to_found c r _ n) in Hp; [lia| |lia]. intros b' n' Hn' Hb'. by apply step_found.
    + intros s2 K2. apply wp_ret. split; [by eapply steps_trans|]. by rewrite fold_to_S by lia.
  - intros b s1 (K1 & ->). destruct (decide (ni_minN c <= ni_maxN c + 1)); [rewrite Z.max_r by lia; by apply HQ|].
    specialize (HQ s1 K1). unfold fold_to in *. rewrite zrange_nil in * by lia. done.
Qed.
End Single.
End Small.
