(* ===== verification/NgramSmall.v ===== *)
(** NgramSpecDecode: rows that fit the unified buffer, from copy-in to copy-out. *)

From stdpp Require Import gmap.
From S2P Require Import Prelude AscendC TilingContext Ngram NgramSpec NgramRow NgramSearch.

(** The search that the kernel performs on a row. *)
Definition row_step (e : NEnv) (r : NRow) : option (Z * Z) -> Z -> option (Z * Z) :=
  if is_large_row e then shortest_step (n_info e) r
  else if ni_blockRows (n_info e) <=? 1 then single_step (n_info e) r
  else longest_step (n_info e) r.
Definition row_best (e : NEnv) (r : NRow) : option (Z * Z) := search (n_info e) r (row_step e r).

Lemma row_step_beyond e r b n : row_total (n_info e) r <= n -> row_step e r b n = b.
Proof. intros Hn. unfold row_step. destruct (steps_beyond (n_info e) r b n Hn) as (? & ? & ?). by repeat case_match. Qed.

Lemma row_step_found e r : keeps_found (n_info e) r (row_step e r).
Proof. intros b n Hn Hb. destruct (step_found (n_info e) r b n Hn Hb) as (? & ? & ?). unfold row_step. by repeat case_match. Qed.

Lemma row_best_found e r : found (n_info e) r (row_best e r).
Proof. apply fold_found, row_step_found. Qed.

(** Whether the kernel searches depends on the length too; a row shorter than the
    smallest n-gram has no result anyway. *)
Lemma row_best_code e r :
  code (row_best e r) =
    if (row_count (n_info e) r >? 0) && (row_total (n_info e) r >=? ni_minN (n_info e))
    then code (fold_to (n_info e) (row_step e r) (ni_maxN (n_info e) + 1)) else (-1, 0).
Proof.
  unfold row_best, search, lengths. fold (fold_to (n_info e) (row_step e r) (ni_maxN (n_info e) + 1)).
  destruct (row_count _ _ >? 0); [|done]. simpl. destruct (_ >=? _) eqn:E; bool_prop; [done|].
  destruct (decide (ni_minN (n_info e) <= ni_maxN (n_info e) + 1)).
  - rewrite (fold_to_stop _ r _ (ni_minN (n_info e))); [|apply row_step_beyond|lia|lia]. unfold fold_to. by rewrite zrange_nil by lia.
  - unfold fold_to. by rewrite zrange_nil by lia.
Qed.

(** ** One row *)

(** The row with everything it needs is at [idx] of the buffers. *)
Definition meta_at (e : NEnv) (r : NRow) (idx : Z) (s : NS) : Prop :=
  t_at (n_ub s numTokensBuf) idx = r_len r /\ t_at (n_ub s discardTileBuf) idx = r_disc r /\ samples e idx (r_samp r) s.

(** Its results are. *)
Definition results_at (e : NEnv) (r : NRow) (idx : Z) (s : NS) : Prop :=
  t_at (n_ub s nextTokenBuf) idx = row_next (n_info e) r /\
  (forall j, 0 <= j < ni_k (n_info e) -> t_at (n_ub s draftBuf) (idx * align8 (ni_k (n_info e)) + j) = draft (n_info e) r (row_best e r) j) /\
  t_at (n_ub s numValidBuf) idx = draft_count (n_info e) r (row_best e r).

(** What a row may change. *)
Abbreviation row_bufs := [tokenTileBuf; sampledTileBuf; nextTokenBuf; draftBuf; numValidBuf; suffixBuf; maskBuf].

Section Small.
Variable e : NEnv.
Context (He : ngram_env e).
Context (Hsmall : is_large_row e = false).
Abbreviation c := (n_info e).
Abbreviation M := (ni_maxSeqLen c).
Abbreviation T := (ni_maxNewTokens c).
Abbreviation k := (ni_k c).
Abbreviation br := (ni_blockRows c).
Abbreviation msa := (align8 M).
Abbreviation mnta := (align8 T).
Abbreviation ka := (align8 k).

Section OneRow.
Variable r : NRow.
Variable idx : Z.
Context (Hidx : 0 <= idx < br).
Context (Hlen : 0 <= r_len r <= M).
Abbreviation steps := (steps e idx).
Abbreviation total := (row_total c r).

Lemma append_tokens s (Q : unit -> NS -> Prop) :
  sized e s -> tokens e idx (r_tok r) s -> samples e idx (clean c r) s ->
  (forall s', steps [tokenTileBuf] s s' -> tokens e idx (row_tok c r) s' -> Q tt s') ->
  wp (for_range 0 (row_count c r) (fun j =>
    GetValue (lget (nbuf sampledTileBuf)) (u32 (u32 (idx * mnta) + j)) ≫= fun v =>
    SetValue (nbuf tokenTileBuf) (u32 (u32 (u32 (idx * msa) + r_len r) + j)) v)) Q s.
Proof.
  intros Hl Ht Hs HQ. pose proof (idx_facts e He idx Hidx). pose proof (idx_bounds e He). pose proof (total_bound e He r Hlen).
  pose proof (row_count_bound c r ltac:(lia)). pose proof (token_size e He Hsmall). destruct (nbuf_sizes e He) as (B1 & _).
  assert (total = r_len r + row_count c r) as Htot by done.
  apply (wp_for_range (fun j s' => steps [tokenTileBuf] s s' /\
    forall p, 0 <= p < M -> t_at (n_ub s' tokenTileBuf) (idx * msa + p) = if (r_len r <=? p) && (p <? r_len r + j) then clean c r (p - r_len r) else r_tok r p)).
  - lia.
  - split; [apply steps_refl|]. intros p Hp. rewrite Ht by done. destruct (_ && _) eqn:E; [|done]. bool_prop. lia.
  - intros j s1 Hj (K1 & V1). unwrap.
    apply wp_bind, wp_GetValue; [cbn; rewrite (steps_len _ _ _ _ _ _ K1), Hl, B1; lia|]. cbn [nbuf lget].
    rewrite (steps_same _ _ _ _ _ sampledTileBuf K1) by set_solver. rewrite Hs by lia.
    apply (wp_NSet e idx); [rewrite (steps_len _ _ _ _ _ _ K1), Hl; lia|right; cbn; lia|]. intros s2 K2 V2 O2.
    split; [by eapply steps_trans|]. intros p Hp. destruct (decide (p = r_len r + j)) as [->|Hne].
    + replace (idx * msa + (r_len r + j)) with (idx * msa + r_len r + j) by lia. rewrite V2.
      rewrite (proj2 (Z.leb_le _ _)), (proj2 (Z.ltb_lt _ _)) by lia. cbn [andb]. f_equal. lia.
    + rewrite O2, V1 by lia. destruct (r_len r <=? p) eqn:E1; [|done]. cbn [andb]. bool_prop.
      destruct (p <? r_len r + j) eqn:E2, (p <? r_len r + (j + 1)) eqn:E3; bool_prop; done || lia.
  - intros s1 (K1 & V1). by apply HQ.
Qed.

Lemma PutDraft_spec s (Q : unit -> NS -> Prop) :
  sized e s -> tokens e idx (row_tok c r) s ->
  (forall s', steps [draftBuf] s s' -> (forall j, 0 <= j < k -> t_at (n_ub s' draftBuf) (idx * ka + j) = draft c r (row_best e r) j) -> Q tt s') ->
  wp (PutDraft e idx total (code (row_best e r))) Q s.
Proof.
  intros Hl Ht HQ. pose proof (idx_facts e He idx Hidx). pose proof (idx_bounds e He). pose proof (total_bound e He r Hlen).
  pose proof (nv_min e He). unfold PutDraft.
  destruct (row_best e r) as [[p n]|] eqn:Hb; cbn [code].
  - destruct (row_best_found e r p n Hb) as (Hn & Hp & _). rewrite (proj2 (Z.geb_le p 0)) by lia. cbv zeta.
    rewrite (i32_id (p + n)), (i32_id (total - (p + n))), (m_k e He), (m_ka e He), (m_msa e He) by (unfold fits_i32; lia).
    apply (wp_fill_draft e He idx [draftBuf] (draft c r (Some (p, n)))); [done|set_solver| |done].
    intros j s1 Hj K1. pose proof (sized_steps _ _ _ _ _ K1 Hl) as Hl1. unfold draft. destruct (j <? _) eqn:E; bool_prop; unwrap.
    + apply wp_bind, (wp_token e He Hsmall r idx Hidx (p + n + j)); [done|eapply tokens_steps; [exact K1|set_solver|done]|lia|lia|].
      by apply put_draft.
    + by apply put_draft.
  - cbn. apply (ClearDraft_spec e He idx Hidx); [done|]. intros s' K1 V1. apply HQ; [done|]. intros j Hj. by rewrite V1.
Qed.

Lemma ComputeOneRow_spec s (Q : unit -> NS -> Prop) :
  sized e s -> (br <= 1 -> mask_covers e r (ni_minN c)) -> tokens e idx (r_tok r) s -> meta_at e r idx s ->
  (forall s', steps row_bufs s s' -> tokens e idx (row_tok c r) s' -> results_at e r idx s' -> Q tt s') ->
  wp (ComputeOneRow e idx) Q s.
Proof.
  intros Hl Hcov Ht (Hnt & Hd & Hs) HQ. pose proof (idx_facts e He idx Hidx). pose proof (idx_bounds e He). pose proof (total_bound e He r Hlen).
  pose proof (token_size e He Hsmall). destruct (nbuf_sizes e He) as (_ & _ & _ & _ & B5). pose proof (row_count_bound c r ltac:(lia)).
  pose proof (B5 numTokensBuf ltac:(set_solver)). pose proof (B5 discardTileBuf ltac:(set_solver)).
  unfold ComputeOneRow. apply wp_bind, wp_GetValue; [cbn; rewrite Hl; lia|]. apply wp_bind, wp_GetValue; [cbn; rewrite Hl; lia|].
  cbn [nbuf lget]. rewrite Hnt, Hd. cbv zeta. rewrite (m_msa e He), (u32_id msa) by (unfold fits_u32; lia).
  assert ((if r_len r >? 0 then i32 (r_len r - 1) else 0) = if r_len r >? 0 then r_len r - 1 else 0) as ->.
  { destruct (_ >? 0) eqn:E; bool_prop; [|done]. apply i32_id. unfold fits_i32. lia. }
  assert (0 <= (if r_len r >? 0 then r_len r - 1 else 0) < M) as Hbp by (destruct (_ >? 0) eqn:E; bool_prop; lia).
  set (bp := if r_len r >? 0 then r_len r - 1 else 0) in *.
  rewrite (u32_id (idx * msa)), (u32_id (idx * msa + bp)) by (unfold fits_u32; lia).
  apply wp_bind, wp_GetValue; [cbn; rewrite Hl; lia|]. cbn [nbuf lget]. rewrite Ht by done.
  apply wp_bind, (CleanSampled_spec e He r idx Hidx); [done|done|]. intros s1 K1 S1. rewrite (ClampCount_spec e He r Hlen).
  apply wp_bind, (PutNext_spec e He r idx Hidx); [by eapply sized_steps|done|]. intros s2 K2 N2.
  assert (steps row_bufs s s2) as KA by (eapply steps_trans; eapply steps_mono; [|exact K1| |exact K2]; set_solver).
  fold total. rewrite (i32_id total) by (unfold fits_i32; lia). rewrite (m_mnta e He), (u32_id mnta) by (unfold fits_u32; lia).
  assert (tokens e idx (r_tok r) s2) as Ht2 by (eapply tokens_steps; [exact K2|set_solver|]; eapply tokens_steps; [exact K1|set_solver|done]).
  pose proof (append_tokens s2) as Happ. rewrite (u32_id (idx * msa)) in Happ by (unfold fits_u32; lia).
  apply wp_bind, Happ; [by eapply sized_steps|done|eapply samples_steps; [exact K2|set_solver|done]|]. intros s3 K3 T3. clear Happ.
  assert (sized e s3) as Hl3 by (eapply sized_steps; [exact K3|]; by eapply sized_steps).
  rewrite (m_min e He), (m_br e He).
  apply wp_bind, (wp_mono _ (fun b s4 => b = code (row_best e r) /\ steps [suffixBuf; maskBuf] s3 s4)).
  - rewrite row_best_code. unfold row_step. rewrite Hsmall. destruct (_ && _); [|apply wp_ret; split; [done|apply steps_refl]].
    destruct (br <=? 1) eqn:E; bool_prop.
    + apply (SearchSingleRow_spec e He Hsmall r idx Hidx Hlen); [lia|done|done|by apply Hcov|]. intros s4 K4. split; [done|].
      eapply steps_mono; [|exact K4]. set_solver.
    + apply (SearchManyRows_spec e He Hsmall r idx Hidx Hlen); [done|done|]. intros s4 K4. split; [done|].
      eapply steps_mono; [|exact K4]. set_solver.
  - intros b s4 [-> K4]. assert (tokens e idx (row_tok c r) s4) as T4 by (eapply tokens_steps; [exact K4|set_solver|done]).
    assert (sized e s4) as Hl4 by (by eapply sized_steps).
    apply wp_bind, PutDraft_spec; [done|done|]. intros s5 K5 D5.
    apply (CountDraft_spec e He r idx Hidx (row_best e r)); [by eapply sized_steps|done|]. intros s6 K6 V6. apply HQ.
    + eapply steps_trans; [exact KA|]. eapply steps_trans; [eapply steps_mono; [|exact K3]; set_solver|].
      eapply steps_trans; [eapply steps_mono; [|exact K4]; set_solver|].
      eapply steps_trans; eapply steps_mono; [|exact K5| |exact K6]; set_solver.
    + eapply tokens_steps; [exact K6|set_solver|]. eapply tokens_steps; [exact K5|set_solver|done].
    + split; [|split; [|done]].
      * rewrite (steps_same _ _ _ _ _ nextTokenBuf K6), (steps_same _ _ _ _ _ nextTokenBuf K5), (steps_same _ _ _ _ _ nextTokenBuf K4),
          (steps_same _ _ _ _ _ nextTokenBuf K3) by set_solver. done.
      * intros j Hj. rewrite (steps_same _ _ _ _ _ draftBuf K6) by set_solver. by apply D5.
Qed.
End OneRow.
End Small.
