(* ===== verification/NgramBlock.v ===== *)
(** NgramSpecDecode: a block of rows between global memory and the unified
    buffer. *)

From stdpp Require Import gmap.
From S2P Require Import Prelude AscendC TilingContext Ngram NgramSpec NgramRow NgramSearch NgramSmall.

(** ** Transfers *)

Definition loads (b : NBuf) (doff n : Z) (f : Z -> Z) (s s' : NS) : Prop :=
  n_gm s' = n_gm s /\ (forall b', t_len (n_ub s' b') = t_len (n_ub s b')) /\ (forall b', b' <> b -> n_ub s' b' = n_ub s b') /\
  (forall j, 0 <= j < n -> t_at (n_ub s' b) (doff + j) = f j) /\
  (forall i, i < doff \/ doff + n <= i -> t_at (n_ub s' b) i = t_at (n_ub s b) i).

Definition stores (o : NGm) (doff n : Z) (f : Z -> Z) (s s' : NS) : Prop :=
  n_ub s' = n_ub s /\ (forall o', t_len (n_gm s' o') = t_len (n_gm s o')) /\ (forall o', o' <> o -> n_gm s' o' = n_gm s o') /\
  (forall j, 0 <= j < n -> t_at (n_gm s' o) (doff + j) = f j) /\
  (forall i, i < doff \/ doff + n <= i -> t_at (n_gm s' o) i = t_at (n_gm s o) i).

Lemma wp_Load b doff src soff n (Q : unit -> NS -> Prop) s :
  0 <= doff -> 0 <= n -> doff + n <= t_len (n_ub s b) -> 0 <= soff -> soff + n <= t_len (src s) ->
  (forall s', loads b doff n (fun j => t_at (src s) (soff + j)) s s' -> Q tt s') ->
  wp (DataCopyPad (nbuf b) doff src soff n) Q s.
Proof.
  intros H1 H2 H3 H4 H5 HQ. apply wp_DataCopyPad; [apply in_tensor_true; cbn; lia..|]. apply HQ. cbn [nbuf lset lget].
  split; [done|]. split; [|split; [|split]]; cbn [n_ub].
  - intros b'. unfold upd. case_decide; by subst.
  - intros b' Hb. by apply upd_ne.
  - intros j Hj. by rewrite upd_eq, write_range_in by done.
  - intros i Hi. rewrite upd_eq. by apply write_range_out.
Qed.

Lemma wp_Store o doff b soff n (Q : unit -> NS -> Prop) s :
  0 <= doff -> 0 <= n -> doff + n <= t_len (n_gm s o) -> 0 <= soff -> soff + n <= t_len (n_ub s b) ->
  (forall s', stores o doff n (fun j => t_at (n_ub s b) (soff + j)) s s' -> Q tt s') ->
  wp (DataCopyPad (ngm o) doff (lget (nbuf b)) soff n) Q s.
Proof.
  intros H1 H2 H3 H4 H5 HQ. apply wp_DataCopyPad; [apply in_tensor_true; cbn; lia..|]. apply HQ. cbn [nbuf ngm lset lget].
  split; [done|]. split; [|split; [|split]]; cbn [n_gm].
  - intros b'. unfold upd. case_decide; by subst.
  - intros b' Hb. by apply upd_ne.
  - intros j Hj. by rewrite upd_eq, write_range_in by done.
  - intros i Hi. rewrite upd_eq. by apply write_range_out.
Qed.

Lemma loads_refl b doff f s : loads b doff 0 f s s.
Proof. split; [done|]. split; [done|]. split; [done|]. split; [intros; lia|done]. Qed.

Lemma loads_join b doff n m f s1 s2 s3 : 0 <= n -> 0 <= m -> loads b doff n f s1 s2 -> loads b (doff + n) m (fun j => f (n + j)) s2 s3 ->
  loads b doff (n + m) f s1 s3.
Proof.
  intros Hn Hm (G1 & L1 & S1 & V1 & O1) (G2 & L2 & S2 & V2 & O2). split; [congruence|]. split; [|split; [|split]].
  - intros b'. by rewrite L2.
  - intros b' Hb. by rewrite S2, S1.
  - intros j Hj. destruct (decide (j < n)); [rewrite O2, V1 by lia; done|].
    replace (doff + j) with (doff + n + (j - n)) by lia. rewrite V2 by lia. f_equal. lia.
  - intros i Hi. rewrite O2, O1 by lia. done.
Qed.

Lemma stores_refl b doff f s : stores b doff 0 f s s.
Proof. split; [done|]. split; [done|]. split; [done|]. split; [intros; lia|done]. Qed.

Lemma stores_join o doff n m f s1 s2 s3 : 0 <= n -> 0 <= m -> stores o doff n f s1 s2 -> stores o (doff + n) m (fun j => f (n + j)) s2 s3 ->
  stores o doff (n + m) f s1 s3.
Proof.
  intros Hn Hm (G1 & L1 & S1 & V1 & O1) (G2 & L2 & S2 & V2 & O2). split; [congruence|]. split; [|split; [|split]].
  - intros b'. by rewrite L2.
  - intros b' Hb. by rewrite S2, S1.
  - intros j Hj. destruct (decide (j < n)); [rewrite O2, V1 by lia; done|].
    replace (doff + j) with (doff + n + (j - n)) by lia. rewrite V2 by lia. f_equal. lia.
  - intros i Hi. rewrite O2, O1 by lia. done.
Qed.

(** A transfer in chunks of [step] elements: [R off n] is what moving [n]
    elements at [off] does. *)
Lemma wp_chunks (R : Z -> Z -> NS -> NS -> Prop) total step (body : Z -> M NS fault_kind unit) s (Q : unit -> NS -> Prop) :
  1 <= step -> 0 <= total ->
  (forall s, R 0 0 s s) ->
  (forall n m s1 s2 s3, 0 <= n -> 0 <= m -> R 0 n s1 s2 -> R n m s2 s3 -> R 0 (n + m) s1 s3) ->
  (forall off s1, 0 <= off < total -> R 0 off s s1 -> wp (body off) (fun _ s2 => R off (Z.min step (total - off)) s1 s2) s1) ->
  (forall s', R 0 total s s' -> Q tt s') ->
  wp (for_step 0 total step body) Q s.
Proof.
  intros Hstep Ht Hrefl Hjoin Hbody HQ.
  apply (wp_for_step (fun off s' => R 0 (Z.min off total) s s')); [done|by rewrite Z.min_l by lia| |].
  - intros q s1 Hq Hlt HR. rewrite Z.add_0_l in *. rewrite Z.min_l in HR by lia.
    assert (0 <= q * step) by nia. eapply wp_mono; [by apply Hbody|]. cbv beta. intros _ s2 H2.
    replace (Z.min (0 + (q + 1) * step) total) with (q * step + Z.min step (total - q * step)) by lia.
    by eapply Hjoin; [| |exact HR|exact H2]; lia.
  - intros q s1 Hq Hge _ HR. rewrite Z.min_r in HR by lia. by apply HQ.
Qed.

(** The size of a chunk. *)
Lemma chunk_size off step total : 0 <= off < total -> total < 2 ^ 31 -> 0 <= step < 2 ^ 31 ->
  (if u32 (off + step) <=? total then step else u32 (total - off)) = Z.min step (total - off).
Proof.
  intros H1 H2 H3. rewrite !u32_id by (unfold fits_u32; lia). destruct (_ <=? _) eqn:E; bool_prop; lia.
Qed.

(** ** Rows of the batch *)

Section Block.
Variable e : NEnv.
Abbreviation c := (n_info e).
Abbreviation M := (ni_maxSeqLen c).
Abbreviation T := (ni_maxNewTokens c).
Abbreviation k := (ni_k c).
Abbreviation br := (ni_blockRows c).
Abbreviation B := (ni_batchSize c).
Abbreviation msa := (align8 M).
Abbreviation mnta := (align8 T).
Abbreviation ka := (align8 k).

(** Row [q] of the batch when global memory holds [g]. *)
Definition nrow_of (g : NGm -> tensor Z) (q : Z) : NRow :=
  {| r_tok := fun p => t_at (g tokenGm) (q * M + p);
     r_len := t_at (numTokensGm e) q;
     r_disc := t_at (discardGm e) q;
     r_samp := fun j => t_at (sampledGm e) (q * T + j) |}.

(** Elements of a row in each output. *)
Definition gpitch (o : NGm) : Z :=
  match o with tokenGm => M | draftTokensGm => k | nextTokensGm | numValidGm => 1 end.

(** What row [r] leaves in each output. *)
Definition result (r : NRow) (o : NGm) (j : Z) : Z :=
  match o with
  | tokenGm => row_tok c r j
  | nextTokensGm => row_next c r
  | draftTokensGm => draft c r (row_best e r) j
  | numValidGm => draft_count c r (row_best e r)
  end.

Definition gm_sized (g : NGm -> tensor Z) : Prop := forall o, t_len (g o) = B * gpitch o.

(** Row [q] of output [o] holds [f]. *)
Definition holds (g : NGm -> tensor Z) (o : NGm) (q : Z) (f : Z -> Z) : Prop :=
  forall j, 0 <= j < gpitch o -> t_at (g o) (q * gpitch o + j) = f j.

Definition row_written (g : NGm -> tensor Z) (r : NRow) (q : Z) : Prop := forall o, holds g o q (result r o).

(** Nothing outside the rows from [q0] up to [q0 + n] has changed. *)
Definition gm_frame (q0 n : Z) (g g' : NGm -> tensor Z) : Prop :=
  (forall o, t_len (g' o) = t_len (g o)) /\
  forall o i, i < q0 * gpitch o \/ (q0 + n) * gpitch o <= i -> t_at (g' o) i = t_at (g o) i.

(** What the caller promises about the inputs. *)
Record ngram_input : Prop := {
  ng_batch : 0 < B < 2 ^ 31;
  ng_meta : B <= t_len (numTokensGm e) /\ B <= t_len (discardGm e) /\ B * T <= t_len (sampledGm e);
  ng_len : forall q, 0 <= q < B -> 0 <= t_at (numTokensGm e) q <= M }.

Lemma gm_frame_refl q0 n g : gm_frame q0 n g g.
Proof. done. Qed.

Lemma gm_frame_trans q0 n g1 g2 g3 : gm_frame q0 n g1 g2 -> gm_frame q0 n g2 g3 -> gm_frame q0 n g1 g3.
Proof. intros [L1 S1] [L2 S2]. split; [intros o; by rewrite L2|]. intros o i Hi. by rewrite S2, S1. Qed.

Lemma gm_frame_sized q0 n g g' : gm_frame q0 n g g' -> gm_sized g -> gm_sized g'.
Proof. intros [L _] H o. by rewrite L. Qed.

(** A row stored at its place. *)
Lemma stored_row o q f s s' : 0 <= q -> stores o (q * gpitch o) (gpitch o) f s s' ->
  gm_frame q 1 (n_gm s) (n_gm s') /\ holds (n_gm s') o q f.
Proof.
  intros Hq (U & L & S & V & O). split; [|done]. split; [done|]. intros o' i Hi.
  destruct (decide (o' = o)) as [->|]; [apply O; lia|]. by rewrite S.
Qed.

Lemma sized_loads b doff n f s s' : loads b doff n f s s' -> sized e s -> sized e s'.
Proof. intros (_ & L & _) H b'. by rewrite L. Qed.

Lemma loads_in_row b idx doff n f s s' : loads b doff n f s s' -> 0 <= n -> (forall i, doff <= i < doff + n -> in_row e idx b i) ->
  steps e idx [b] s s'.
Proof.
  intros (G & L & S & V & O) Hn Hin'. split; [done|]. split; [done|]. split; [intros b' Hb; apply S; set_solver|].
  intros b' i Hi. destruct (decide (b' = b)) as [->|]; [|by rewrite S]. apply O.
  destruct (decide (i < doff)); [by left|]. destruct (decide (i < doff + n)); [|right; lia]. destruct Hi. apply Hin'. lia.
Qed.

(** Another row's share of a buffer. *)
Lemma other_row idx i bs s s' b j : touches e idx bs (n_ub s) (n_ub s') -> i <> idx -> 0 <= j < pitch e b -> scratch e b = false ->
  t_at (n_ub s' b) (i * pitch e b + j) = t_at (n_ub s b) (i * pitch e b + j).
Proof. intros (_ & _ & R) Hne Hj Hs. apply R. intros [?|Hin']; [congruence|]. nia. Qed.

(** Buffers that no row touches. *)
Lemma meta_same idx bs s s' b i : touches e idx bs (n_ub s) (n_ub s') -> b = numTokensBuf \/ b = discardTileBuf ->
  t_at (n_ub s' b) i = t_at (n_ub s b) i.
Proof. intros (_ & _ & R) Hb. apply R. intros [?|Hin']; destruct Hb; subst; cbn in *; done || lia. Qed.

Context (He : ngram_env e).
Context (Hin : ngram_input).

Lemma gpitch_nonneg o : 0 <= gpitch o.
Proof. destruct He. destruct o; cbn; lia. Qed.

Lemma holds_frame q0 n g g' o q f : gm_frame q0 n g g' -> q < q0 \/ q0 + n <= q -> holds g o q f -> holds g' o q f.
Proof.
  intros [_ S] Hq H j Hj. pose proof (gpitch_nonneg o). rewrite S; [by apply H|]. destruct Hq; [left|right]; nia.
Qed.

Lemma samples_other idx i bs s s' f : touches e idx bs (n_ub s) (n_ub s') -> i <> idx -> samples e i f s -> samples e i f s'.
Proof.
  intros Hs Hne H j Hj. pose proof (aligned e He). etrans; [apply (other_row idx i bs s s' sampledTileBuf j); [done|done|cbn; lia|done]|by apply H].
Qed.

Lemma meta_other idx i bs s s' r : touches e idx bs (n_ub s) (n_ub s') -> i <> idx -> meta_at e r i s -> meta_at e r i s'.
Proof.
  intros Hs Hne (H1 & H2 & H3). split; [|split].
  - rewrite (meta_same _ _ _ _ _ _ Hs); auto.
  - rewrite (meta_same _ _ _ _ _ _ Hs); auto.
  - by eapply samples_other.
Qed.

Lemma results_other idx i bs s s' r : touches e idx bs (n_ub s) (n_ub s') -> i <> idx -> results_at e r i s -> results_at e r i s'.
Proof.
  intros Hs Hne (H1 & H2 & H3). pose proof (aligned e He). split; [|split].
  - pose proof (other_row idx i bs s s' nextTokenBuf 0 Hs Hne ltac:(cbn; lia) eq_refl) as H4. cbn in H4.
    rewrite Z.mul_1_r, Z.add_0_r in H4. by rewrite H4.
  - intros j Hj. etrans; [apply (other_row idx i bs s s' draftBuf j); [done|done|cbn; lia|done]|by apply H2].
  - pose proof (other_row idx i bs s s' numValidBuf 0 Hs Hne ltac:(cbn; lia) eq_refl) as H4. cbn in H4.
    rewrite Z.mul_1_r, Z.add_0_r in H4. by rewrite H4.
Qed.

(** *** Loading the metadata *)

Section Rows.
Variables (q0 n : Z).
Context (Hblk : 0 <= q0 /\ 0 < n <= br /\ q0 + n <= B).

(** The metadata of the block in the buffers, apart from the sampled tokens. *)
Definition heads (s : NS) : Prop := forall i, 0 <= i < n ->
  t_at (n_ub s numTokensBuf) i = t_at (numTokensGm e) (q0 + i) /\ t_at (n_ub s discardTileBuf) i = t_at (discardGm e) (q0 + i).

Lemma load_heads s (Q : unit -> NS -> Prop) :
  sized e s ->
  (forall s', sized e s' -> n_gm s' = n_gm s -> heads s' -> (forall b, b <> numTokensBuf -> b <> discardTileBuf -> n_ub s' b = n_ub s b) -> Q tt s') ->
  wp (DataCopyPad (nbuf numTokensBuf) 0 (fun _ => numTokensGm e) q0 n ≫= fun _ =>
      DataCopyPad (nbuf discardTileBuf) 0 (fun _ => discardGm e) q0 n) Q s.
Proof.
  intros Hl HQ. destruct (ng_meta Hin) as (I1 & I2 & _). destruct (nbuf_sizes e He) as (_ & _ & _ & _ & B5).
  pose proof (B5 numTokensBuf ltac:(set_solver)). pose proof (B5 discardTileBuf ltac:(set_solver)).
  apply wp_bind, wp_Load; [done|lia|rewrite Hl; lia|lia|lia|]. intros s1 K1. pose proof (sized_loads _ _ _ _ _ _ K1 Hl) as Hl1.
  apply wp_Load; [done|lia|rewrite Hl1; lia|lia|lia|]. intros s2 K2. pose proof (sized_loads _ _ _ _ _ _ K2 Hl1) as Hl2.
  destruct K1 as (G1 & _ & S1 & V1 & _), K2 as (G2 & _ & S2 & V2 & _). apply HQ; [done|congruence| |].
  - intros i Hi. rewrite S2 by done. by rewrite <- (V1 i Hi), <- (V2 i Hi).
  - intros b Hb1 Hb2. by rewrite S2, S1.
Qed.

Lemma load_samples s (Q : unit -> NS -> Prop) :
  sized e s ->
  (forall s', sized e s' -> n_gm s' = n_gm s -> (forall b, b <> sampledTileBuf -> n_ub s' b = n_ub s b) ->
     (forall i, 0 <= i < n -> samples e i (fun j => t_at (sampledGm e) ((q0 + i) * T + j)) s') -> Q tt s') ->
  wp (for_range 0 n (fun r => DataCopyPad (nbuf sampledTileBuf) (r * u32 (max_new_tokens_align e)) (fun _ => sampledGm e)
        (u32 (q0 + r) * max_new_tokens e) (u32 (max_new_tokens e)))) Q s.
Proof.
  intros Hl HQ. destruct (ng_meta Hin) as (_ & _ & I3). destruct (nbuf_sizes e He) as (B1 & _). pose proof (idx_bounds e He).
  pose proof (ng_batch Hin). rewrite (m_mnta e He), (m_new e He), (u32_id mnta), (u32_id T) by (unfold fits_u32; lia).
  apply (wp_for_range (fun r s' => sized e s' /\ n_gm s' = n_gm s /\ (forall b, b <> sampledTileBuf -> n_ub s' b = n_ub s b) /\
    forall i, 0 <= i < r -> samples e i (fun j => t_at (sampledGm e) ((q0 + i) * T + j)) s')); [lia| | |].
  - split; [done|]. split; [done|]. split; [done|]. intros; lia.
  - intros r s1 Hr (Hl1 & G1 & S1 & V1). rewrite (u32_id (q0 + r)) by (unfold fits_u32; lia).
    pose proof (idx_facts e He r ltac:(lia)). assert ((q0 + r) * T + T <= B * T /\ 0 <= (q0 + r) * T) by nia.
    apply wp_Load; [lia|lia|rewrite Hl1, B1; lia|lia|lia|]. intros s2 K2. pose proof K2 as (G2 & _ & S2 & V2 & _).
    split; [by eapply sized_loads|]. split; [congruence|]. split; [intros b Hb; by rewrite S2, S1|].
    intros i Hi. destruct (decide (i = r)) as [->|Hne]; [done|]. eapply (samples_other r i); [|done|apply V1; lia].
    eapply proj2, loads_in_row; [exact K2|lia|]. intros x Hx. right. cbn. lia.
  - intros s1 (Hl1 & G1 & S1 & V1). by apply HQ.
Qed.

(** *** Writing the results *)

Variable rows : Z -> NRow.

Lemma WriteResults_spec s (Q : unit -> NS -> Prop) :
  sized e s -> gm_sized (n_gm s) -> (forall i, 0 <= i < n -> results_at e (rows (q0 + i)) i s) ->
  (forall s', n_ub s' = n_ub s -> gm_frame q0 n (n_gm s) (n_gm s') -> n_gm s' tokenGm = n_gm s tokenGm ->
     (forall i o, 0 <= i < n -> o <> tokenGm -> holds (n_gm s') o (q0 + i) (result (rows (q0 + i)) o)) -> Q tt s') ->
  wp (WriteResults e q0 n) Q s.
Proof.
  intros Hl Hg Hres HQ. destruct (nbuf_sizes e He) as (_ & B2 & _ & _ & B5). pose proof (idx_bounds e He). pose proof (ng_batch Hin).
  pose proof (B5 nextTokenBuf ltac:(set_solver)). pose proof (B5 numValidBuf ltac:(set_solver)).
  unfold WriteResults. rewrite (m_k e He), (m_ka e He), (u32_id k) by (unfold fits_u32; lia).
  apply wp_bind, wp_Store; [lia|lia|rewrite Hg; cbn; lia|done|rewrite Hl; lia|]. intros s1 (U1 & L1 & S1 & V1 & O1).
  apply wp_bind, (wp_for_range (fun r s' => n_ub s' = n_ub s /\ gm_frame q0 n (n_gm s1) (n_gm s') /\
    (forall o, o <> draftTokensGm -> n_gm s' o = n_gm s1 o) /\
    forall i, 0 <= i < r -> holds (n_gm s') draftTokensGm (q0 + i) (result (rows (q0 + i)) draftTokensGm))); [lia| | |].
  - split; [done|]. split; [apply gm_frame_refl|]. split; [done|]. intros; lia.
  - intros r s2 Hr (U2 & F2 & S2 & V2). rewrite (u32_id (q0 + r)) by (unfold fits_u32; lia).
    pose proof (idx_facts e He r ltac:(lia)). assert ((q0 + r) * k + k <= B * k /\ 0 <= (q0 + r) * k) by nia.
    apply (wp_Store draftTokensGm); [lia|lia|rewrite (proj1 F2), L1, Hg; cbn; lia|lia|rewrite U2, Hl, B2; lia|]. intros s3 K3.
    destruct (stored_row draftTokensGm (q0 + r) _ s2 s3 ltac:(lia) K3) as [F3 W3]. pose proof K3 as (U3 & L3 & S3 & _ & O3).
    split; [congruence|]. split; [|split].
    + eapply gm_frame_trans; [exact F2|]. split; [done|]. intros o i Hi. apply (proj2 F3). pose proof (gpitch_nonneg o). nia.
    + intros o Ho. by rewrite S3, S2.
    + intros i Hi. destruct (decide (i = r)) as [->|].
      * intros j Hj. rewrite W3 by done. rewrite U2. by apply (Hres r).
      * eapply holds_frame; [exact F3|lia|]. apply V2. lia.
  - intros s2 (U2 & F2 & S2 & V2).
    apply wp_Store; [lia|lia|rewrite (proj1 F2), L1, Hg; cbn; lia|done|rewrite U2, Hl; lia|]. intros s3 (U3 & L3 & S3 & V3 & O3).
    apply HQ; [congruence| | |].
    + eapply gm_frame_trans; [|eapply gm_frame_trans; [exact F2|]].
      * split; [done|]. intros o i Hi. destruct (decide (o = nextTokensGm)) as [->|]; [|by rewrite S1]. apply O1. cbn in Hi. lia.
      * split; [done|]. intros o i Hi. destruct (decide (o = numValidGm)) as [->|]; [|by rewrite S3]. apply O3. cbn in Hi. lia.
    + rewrite S3, S2, S1 by done. done.
    + intros i o Hi Ho j Hj. destruct (Hres i Hi) as (R1 & R2 & R3). destruct o; [done| | |]; cbn [gpitch] in *.
      * rewrite S3, S2 by done. replace ((q0 + i) * 1 + j) with (q0 + i) by lia. rewrite (V1 i Hi). exact R1.
      * rewrite S3 by done. by apply V2.
      * replace ((q0 + i) * 1 + j) with (q0 + i) by lia. rewrite (V3 i Hi), U2. exact R3.
Qed.
End Rows.

(** ** Rows that fit the unified buffer *)

Section SmallBlock.
Context (Hsmall : is_large_row e = false).
Variables (rows : Z -> NRow) (q0 n : Z).
Context (Hblk : 0 <= q0 /\ 0 < n <= br /\ q0 + n <= B).
Context (Hrows : forall i, 0 <= i < n -> exists g, rows (q0 + i) = nrow_of g (q0 + i)).
Context (Hcov : br <= 1 -> forall i, 0 <= i < n -> mask_covers e (rows (q0 + i)) (ni_minN c)).

Lemma tokens_other idx i bs s s' f : steps e idx bs s s' -> i <> idx -> tokens e i f s -> tokens e i f s'.
Proof.
  intros Hs Hne H j Hj. pose proof (aligned e He).
  etrans; [apply (other_row idx i bs s s' tokenTileBuf j); [apply Hs|done|cbn; lia|done]|by apply H].
Qed.

Lemma load_tokens s (Q : unit -> NS -> Prop) :
  sized e s -> gm_sized (n_gm s) -> (forall i, 0 <= i < n -> holds (n_gm s) tokenGm (q0 + i) (r_tok (rows (q0 + i)))) ->
  (forall s', sized e s' -> n_gm s' = n_gm s -> (forall i, 0 <= i < n -> tokens e i (r_tok (rows (q0 + i))) s') -> Q tt s') ->
  wp (for_range 0 n (fun r =>
    for_step 0 M MAX_CHUNK_ELEMS (fun off =>
      DataCopyPad (nbuf tokenTileBuf) (u32 (u32 (r * msa) + off)) (lget (ngm tokenGm)) (u32 (q0 + r) * M + off)
        (if u32 (off + MAX_CHUNK_ELEMS) <=? M then MAX_CHUNK_ELEMS else u32 (M - off))))) Q s.
Proof.
  intros Hl Hg Htok HQ. pose proof (idx_bounds e He). pose proof (ng_batch Hin). pose proof (token_size e He Hsmall) as Hts.
  apply (wp_for_range (fun r s' => sized e s' /\ n_gm s' = n_gm s /\ forall i, 0 <= i < r -> tokens e i (r_tok (rows (q0 + i))) s'));
    [lia|split; [done|]; split; [done|]; intros; lia| |].
  - intros r s1 Hr (Hl1 & G1 & V1). pose proof (idx_facts e He r ltac:(lia)).
    assert ((q0 + r) * M + M <= B * M /\ 0 <= (q0 + r) * M) by nia.
    apply (wp_chunks (fun off m => loads tokenTileBuf (r * msa + off) m (fun j => r_tok (rows (q0 + r)) (off + j)))); [done|lia| | | |].
    + intros s2. apply loads_refl.
    + intros m1 m2 s2 s3 s4 Hm1 Hm2 L1 L2. eapply loads_join; [done|done|exact L1|]. rewrite Z.add_0_r. exact L2.
    + intros off s2 Ho L2. pose proof (sized_loads _ _ _ _ _ _ L2 Hl1) as Hl2. pose proof L2 as (G2 & _).
      rewrite chunk_size by (unfold MAX_CHUNK_ELEMS; lia). unwrap.
      apply wp_Load; [lia|unfold MAX_CHUNK_ELEMS; lia|rewrite Hl2, Hts; lia|lia|cbn; rewrite G2, G1, Hg; cbn; lia|].
      intros s3 (G3 & L3 & S3 & V3 & O3). split; [done|]. do 2 (split; [done|]). split; [|done]. intros j Hj. rewrite V3 by done. cbn [lget ngm].
      rewrite G2, G1, <- Z.add_assoc. apply (Htok r Hr). cbn. lia.
    + intros s2 L2. pose proof L2 as (G2 & _ & _ & V2 & _). split; [by eapply sized_loads|]. split; [congruence|]. intros i Hi.
      destruct (decide (i = r)) as [->|Hne]; [intros p Hp; specialize (V2 p Hp); by rewrite Z.add_0_r, Z.add_0_l in V2|].
      eapply (tokens_other r i); [|done|apply V1; lia]. eapply loads_in_row; [exact L2|lia|]. intros x Hx. right. cbn. lia.
  - intros s1 (Hl1 & G1 & V1). by apply HQ.
Qed.

Lemma CopyIn_spec s (Q : unit -> NS -> Prop) :
  sized e s -> gm_sized (n_gm s) -> (forall i, 0 <= i < n -> holds (n_gm s) tokenGm (q0 + i) (r_tok (rows (q0 + i)))) ->
  (forall s', sized e s' -> n_gm s' = n_gm s ->
     (forall i, 0 <= i < n -> tokens e i (r_tok (rows (q0 + i))) s' /\ meta_at e (rows (q0 + i)) i s') -> Q tt s') ->
  wp (NgramCopyIn e q0 n) Q s.
Proof.
  intros Hl Hg Htok HQ. pose proof (idx_bounds e He). unfold NgramCopyIn. rewrite (m_seq e He), (m_msa e He).
  rewrite (u32_id M), (u32_id msa) by (unfold fits_u32; lia). apply wp_bind, load_tokens; [done|done|done|]. intros s1 Hl1 G1 T1.
  apply wp_bind, (load_samples q0 n Hblk); [done|]. intros s2 Hl2 G2 S2 V2.
  apply (load_heads q0 n Hblk); [done|]. intros s3 Hl3 G3 H3 S3. apply HQ; [done|congruence|]. intros i Hi. split.
  - intros p Hp. rewrite S3, S2 by done. by apply T1.
  - destruct (Hrows i Hi) as [g Hrow]. rewrite Hrow. destruct (H3 i Hi) as [H4 H5]. split; [done|]. split; [done|].
    intros j Hj. rewrite S3 by done. by apply V2.
Qed.

Lemma Compute_spec s (Q : unit -> NS -> Prop) :
  sized e s -> (forall i, 0 <= i < n -> tokens e i (r_tok (rows (q0 + i))) s /\ meta_at e (rows (q0 + i)) i s) ->
  (forall s', sized e s' -> n_gm s' = n_gm s ->
     (forall i, 0 <= i < n -> tokens e i (row_tok c (rows (q0 + i))) s' /\ results_at e (rows (q0 + i)) i s') -> Q tt s') ->
  wp (Compute e n) Q s.
Proof.
  intros Hl Hld HQ. unfold Compute.
  apply (wp_for_range (fun r s' => sized e s' /\ n_gm s' = n_gm s /\
    (forall i, r <= i < n -> tokens e i (r_tok (rows (q0 + i))) s' /\ meta_at e (rows (q0 + i)) i s') /\
    forall i, 0 <= i < r -> tokens e i (row_tok c (rows (q0 + i))) s' /\ results_at e (rows (q0 + i)) i s')); [lia| | |].
  - split; [done|]. split; [done|]. split; [done|]. intros; lia.
  - intros r s1 Hr (Hl1 & G1 & P1 & D1). destruct (P1 r ltac:(lia)) as [T1 M1].
    assert (0 <= r_len (rows (q0 + r)) <= M) as Hlen by (destruct (Hrows r Hr) as [g ->]; apply (ng_len Hin); lia).
    apply (ComputeOneRow_spec e He Hsmall (rows (q0 + r)) r ltac:(lia) Hlen); [done|by auto|done|done|]. intros s2 K2 T2 R2.
    split; [by eapply sized_steps|]. split; [rewrite (proj1 K2); done|]. split; intros i Hi.
    + destruct (P1 i ltac:(lia)) as [T3 M3]. split; [by eapply tokens_other; [exact K2|lia|]|by eapply meta_other; [apply K2|lia|]].
    + destruct (decide (i = r)) as [->|Hne]; [done|]. destruct (D1 i ltac:(lia)) as [T3 R3].
      split; [by eapply tokens_other; [exact K2|lia|]|by eapply results_other; [apply K2|lia|]].
  - intros s1 (Hl1 & G1 & _ & D1). by apply HQ.
Qed.

Lemma store_tokens s (Q : unit -> NS -> Prop) :
  sized e s -> gm_sized (n_gm s) -> (forall i, 0 <= i < n -> tokens e i (row_tok c (rows (q0 + i))) s) ->
  (forall s', n_ub s' = n_ub s -> gm_frame q0 n (n_gm s) (n_gm s') ->
     (forall i, 0 <= i < n -> holds (n_gm s') tokenGm (q0 + i) (row_tok c (rows (q0 + i)))) -> Q tt s') ->
  wp (for_range 0 n (fun r =>
    for_step 0 M MAX_CHUNK_ELEMS (fun off =>
      DataCopyPad (ngm tokenGm) (u32 (q0 + r) * M + off) (lget (nbuf tokenTileBuf)) (u32 (u32 (r * msa) + off))
        (if u32 (off + MAX_CHUNK_ELEMS) <=? M then MAX_CHUNK_ELEMS else u32 (M - off))))) Q s.
Proof.
  intros Hl Hg Htok HQ. pose proof (idx_bounds e He). pose proof (ng_batch Hin). pose proof (token_size e He Hsmall) as Hts.
  apply (wp_for_range (fun r s' => n_ub s' = n_ub s /\ gm_frame q0 n (n_gm s) (n_gm s') /\
    forall i, 0 <= i < r -> holds (n_gm s') tokenGm (q0 + i) (row_tok c (rows (q0 + i)))));
    [lia|split; [done|]; split; [apply gm_frame_refl|]; intros; lia| |].
  - intros r s1 Hr (U1 & F1 & V1). pose proof (idx_facts e He r ltac:(lia)).
    assert ((q0 + r) * M + M <= B * M /\ 0 <= (q0 + r) * M) by nia.
    apply (wp_chunks (fun off m => stores tokenGm ((q0 + r) * M + off) m (fun j => row_tok c (rows (q0 + r)) (off + j)))); [done|lia| | | |].
    + intros s2. apply stores_refl.
    + intros m1 m2 s2 s3 s4 Hm1 Hm2 L1 L2. eapply stores_join; [done|done|exact L1|]. rewrite Z.add_0_r. exact L2.
    + intros off s2 Ho (U2 & L2 & _). rewrite chunk_size by (unfold MAX_CHUNK_ELEMS; lia). unwrap.
      apply wp_Store; [lia|unfold MAX_CHUNK_ELEMS; lia|rewrite L2, (proj1 F1), Hg; cbn; lia|lia|rewrite U2, U1, Hl, Hts; lia|].
      intros s3 (U3 & L3 & S3 & V3 & O3). do 3 (split; [done|]). split; [|done]. intros j Hj. rewrite V3 by done.
      rewrite U2, U1, <- Z.add_assoc. apply (Htok r Hr). lia.
    + intros s2 K2. rewrite Z.add_0_r in K2. destruct (stored_row tokenGm (q0 + r) _ s1 s2 ltac:(lia) K2) as [F2 W2]. pose proof K2 as (U2 & _).
      split; [congruence|]. split.
      * eapply gm_frame_trans; [exact F1|]. split; [apply F2|]. intros o i Hi. apply (proj2 F2). pose proof (gpitch_nonneg o). nia.
      * intros i Hi. destruct (decide (i = r)) as [->|Hne]; [done|]. eapply holds_frame; [exact F2|lia|]. apply V1. lia.
  - intros s1 (U1 & F1 & V1). by apply HQ.
Qed.

Lemma small_block s (Q : unit -> NS -> Prop) :
  sized e s -> gm_sized (n_gm s) -> (forall i, 0 <= i < n -> holds (n_gm s) tokenGm (q0 + i) (r_tok (rows (q0 + i)))) ->
  (forall s', sized e s' -> gm_frame q0 n (n_gm s) (n_gm s') -> (forall i, 0 <= i < n -> row_written (n_gm s') (rows (q0 + i)) (q0 + i)) -> Q tt s') ->
  wp (NgramCopyIn e q0 n ≫= fun _ => Compute e n ≫= fun _ => NgramCopyOut e q0 n) Q s.
Proof.
  intros Hl Hg Htok HQ. pose proof (idx_bounds e He). apply wp_bind, CopyIn_spec; [done|done|done|]. intros s1 Hl1 G1 P1.
  apply wp_bind, Compute_spec; [done|done|]. intros s2 Hl2 G2 P2. unfold NgramCopyOut. rewrite (m_seq e He), (m_msa e He).
  rewrite (u32_id M), (u32_id msa) by (unfold fits_u32; lia). rewrite <- G1 in Hg. rewrite <- G2 in Hg.
  apply wp_bind, store_tokens; [done|done|intros i Hi; by apply P2|]. intros s3 U3 F3 W3.
  apply (WriteResults_spec q0 n Hblk rows); [intros b; by rewrite U3|by eapply gm_frame_sized| |].
  - intros i Hi. destruct (P2 i Hi) as [_ R2]. unfold results_at. by rewrite U3.
  - intros s4 U4 F4 T4 W4. rewrite G2, G1 in F3. apply HQ; [intros b; by rewrite U4, U3|by eapply gm_frame_trans|].
    intros i Hi o. destruct (decide (o = tokenGm)) as [->|Ho]; [|by apply W4]. intros j Hj. rewrite T4. by apply W3.
Qed.
End SmallBlock.
End Block.
