(* ===== verification/NgramLong.v ===== *)
(** NgramSpecDecode: rows that do not fit the unified buffer.  The row stays in
    global memory and is searched through chunks of [SAFE_CHUNK] positions. *)

From stdpp Require Import gmap.
From S2P Require Import Prelude AscendC TilingContext Ngram NgramSpec NgramRow NgramSearch NgramSmall NgramBlock.

Section Long.
Variable e : NEnv.
Context (He : ngram_env e).
Context (Hlarge : is_large_row e = true).
Abbreviation c := (n_info e).
Abbreviation M := (ni_maxSeqLen c).
Abbreviation T := (ni_maxNewTokens c).
Abbreviation k := (ni_k c).
Abbreviation br := (ni_blockRows c).
Abbreviation B := (ni_batchSize c).
Abbreviation maxN := (ni_maxN c).
Abbreviation mnta := (align8 T).
Abbreviation ka := (align8 k).

Lemma chunk_buffer : SAFE_CHUNK + maxN <= nbuf_elems e tokenTileBuf.
Proof.
  pose proof (nv_max e He). unfold nbuf_elems. rewrite Hlarge, (m_max e He). cbn [negb]. unfold SAFE_CHUNK.
  rewrite (u32_id maxN), u32_id by (unfold fits_u32; lia). rewrite quot_nonneg_div by lia. zlia.
Qed.

Lemma token_scratch idx i : in_row e idx tokenTileBuf i.
Proof. left. exact Hlarge. Qed.

Section OneRow.
Variables (r : NRow) (q idx : Z).
Context (Hq : 0 <= q < B).
Context (Hidx : 0 <= idx < br).
Context (Hlen : 0 <= r_len r <= M).
Abbreviation steps := (steps e idx).
Abbreviation total := (row_total c r).
(** The row in global memory. *)
Abbreviation row_is f s := (gm_sized e (n_gm s) /\ holds e (n_gm s) tokenGm q f).

Lemma q_facts : 0 <= q * M /\ q * M + M <= B * M.
Proof. pose proof (nv_seq e He). clear - Hq H. nia. Qed.

Lemma row_is_steps f bs s s' : steps bs s s' -> row_is f s -> row_is f s'.
Proof. intros [G _] H. by rewrite G. Qed.

(** A stretch of the row in the token buffer. *)
Definition chunk_loaded (f : Z -> Z) (p n : Z) (s : NS) : Prop := forall j, 0 <= j < n -> t_at (n_ub s tokenTileBuf) j = f (p + j).

Lemma LoadGm_spec f p n s (Q : unit -> NS -> Prop) :
  sized e s -> row_is f s -> 0 <= p -> 0 < n <= SAFE_CHUNK + maxN -> p + n <= M ->
  (forall s', steps [tokenTileBuf] s s' -> chunk_loaded f p n s' -> Q tt s') -> wp (LoadGmElements (q * M + p) n) Q s.
Proof.
  intros Hl [Hg Hf] Hp Hn Hpn HQ. pose proof q_facts. pose proof chunk_buffer. pose proof (nv_max e He). unfold LoadGmElements, SAFE_CHUNK in *.
  rewrite (proj2 (Z.leb_gt n 0)), u32_id by (unfold fits_u32; lia).
  apply wp_Load; [done|lia|rewrite Hl; lia|lia|cbn; rewrite Hg; cbn; lia|]. intros s1 K1. pose proof K1 as (_ & _ & _ & V1 & _).
  apply HQ.
  - eapply loads_in_row; [exact K1|lia|]. intros i _. apply token_scratch.
  - intros j Hj. specialize (V1 j Hj). cbn [lget ngm] in V1. rewrite Z.add_0_l in V1. rewrite V1, <- Z.add_assoc. apply Hf. cbn. lia.
Qed.

(** ** The search *)

Section Search.
Variable n : Z.
Context (Hn : 1 <= n <= maxN).
Context (Hmax : maxN <= total).

Lemma total_bound' : r_len r <= total <= M /\ 0 < M < 2 ^ 28 /\ 1 <= maxN < 2 ^ 28.
Proof. pose proof (total_bound e He r Hlen). pose proof (nv_seq e He). pose proof (nv_max e He). done. Qed.

(** The last [maxN] tokens. *)
Definition suffix_loaded (s : NS) : Prop := forall i, 0 <= i < maxN -> t_at (n_ub s suffixBuf) i = row_tok c r (total - maxN + i).

Lemma suffix_steps bs s s' : steps bs s s' -> suffixBuf ∉ bs -> suffix_loaded s -> suffix_loaded s'.
Proof. intros Hs Hb H i Hi. rewrite (steps_same _ _ _ _ _ _ Hs Hb). by apply H. Qed.

Lemma MatchLoaded_spec p n' at_ s (Q : bool -> NS -> Prop) :
  sized e s -> suffix_loaded s -> chunk_loaded (row_tok c r) p n' s -> 0 <= at_ -> at_ + n <= n' -> n' <= SAFE_CHUNK + maxN ->
  Q (forallb (fun i => row_tok c r (p + at_ + i) =? row_tok c r (total - n + i)) (zrange 1 n)) s ->
  wp (MatchLoaded n (maxN - n) n' at_) Q s.
Proof.
  intros Hl Hs Ht Hat Hn' Hb HQ. pose proof total_bound'. pose proof chunk_buffer. destruct (nbuf_sizes e He) as (_ & _ & B3 & _).
  unfold SAFE_CHUNK in *. unfold MatchLoaded.
  apply (wp_forallb (fun s' => s' = s) (fun i => row_tok c r (p + at_ + i) =? row_tok c r (total - n + i))); [done| |by intros s' ->].
  intros i b s' Hi ->. unwrap. apply wp_bind, wp_GetValue; [cbn; rewrite Hl, B3; lia|]. cbn [nbuf lget]. rewrite Hs by lia.
  rewrite (proj2 (Z.ltb_lt _ _)) by lia. apply wp_bind, wp_GetValue; [cbn; rewrite Hl; lia|]. cbn [nbuf lget]. rewrite Ht by lia.
  replace (p + (at_ + i)) with (p + at_ + i) by lia. replace (total - maxN + (maxN - n + i)) with (total - n + i) by lia. by destruct (_ =? _).
Qed.

(** One loaded chunk: positions [start] up to [start + cc]. *)
Lemma SearchLoaded_spec start cc s (Q : Z * Z -> NS -> Prop) :
  sized e s -> suffix_loaded s -> chunk_loaded (row_tok c r) start (cc + n - 1) s ->
  0 <= start -> 0 < cc <= SAFE_CHUNK -> start + cc + n <= total ->
  (forall s', steps [maskBuf] s s' ->
     Q (code (match find (occurs c r n) (zrange start (start + cc)) with Some p => Some (p, n) | None => None end)) s') ->
  wp (SearchLoaded n (maxN - n) (row_tok c r (total - n)) start cc (cc + n - 1) (-1, 0)) Q s.
Proof.
  intros Hl Hs Ht Hst Hcc Hend HQ. pose proof total_bound'. pose proof chunk_buffer. destruct (nbuf_sizes e He) as (_ & _ & _ & B4 & _).
  unfold SearchLoaded, SAFE_CHUNK in *. cbv zeta. cbn [Z.gtb Z.compare Pos.compare Pos.compare_cont].
  rewrite !(u32_id cc), !(u32_id (cc + n - 1)), !(u32_id (cc + 63)), !(u32_id (cc + n - 1 + 63)) by (unfold fits_u32; lia).
  rewrite (quot_nonneg_div (cc + 63) 64), (quot_nonneg_div (cc + n - 1 + 63) 64) by lia.
  set (m := if (if (cc + 63) / 64 * 64 >? 8192 then 8192 else (cc + 63) / 64 * 64) >? cc + n - 1 then (cc + n - 1 + 63) / 64 * 64
            else if (cc + 63) / 64 * 64 >? 8192 then 8192 else (cc + 63) / 64 * 64).
  assert (64 <= m <= 8192 /\ m mod 64 = 0) as [Hm Hm64].
  { subst m. clear - Hcc Hn. destruct ((cc + 63) / 64 * 64 >? 8192) eqn:E1; bool_prop.
    - destruct (8192 >? cc + n - 1) eqn:E2; bool_prop; zlia.
    - destruct ((cc + 63) / 64 * 64 >? cc + n - 1) eqn:E2; bool_prop; zlia. }
  clearbody m. rewrite find_shift in HQ. clear B4.
  apply (wp_find_step (fun s' => steps [maskBuf] s s') (fun p => occurs c r n (start + p)) (fun p => (start + p, n))); [lia|lia|apply steps_refl| |].
  2: { intros s' K. specialize (HQ s' K). by destruct (find _ _). }
  intros off s1 Ho Hmod K1. pose proof (sized_steps _ _ _ _ _ K1 Hl) as Hl1. destruct (nbuf_sizes e He) as (_ & _ & _ & B4 & _).
  assert (off mod 64 = 0) as Ho64.
  { apply Z.mod_divide in Hmod as [a ->]; [|lia]. apply Z.mod_divide in Hm64 as [b ->]; [|lia]. rewrite Z.mul_assoc. by apply Z.mod_mul. }
  unwrap. set (el := if cc - off >=? m then m else cc - off).
  assert (el = Z.min m (cc - off)) as Hel by (subst el; destruct (_ >=? _) eqn:E; bool_prop; lia). clearbody el.
  rewrite <- Hel. rewrite (u32_id (el + 63)), (quot_nonneg_div (el + 63) 64) by (unfold fits_u32; lia).
  assert (el <= (el + 63) / 64 * 64 <= 8192 /\ off + (el + 63) / 64 * 64 <= 32768) as [Hal1 Hal2] by (clear - Hel Ho64 Hm64 Hm Ho Hcc; zlia).
  apply wp_bind, (wp_Compare e idx); [by apply Z.mod_mul|rewrite Hl1, B4; lia|lia|rewrite Hl1; lia|done|]. intros s2 K2 V2.
  assert (steps [maskBuf] s s2) as K3 by (by eapply steps_trans). pose proof (sized_steps _ _ _ _ _ K3 Hl) as Hl2.
  assert (suffix_loaded s2) as Hs2 by (eapply suffix_steps; [exact K3|set_solver|done]).
  assert (chunk_loaded (row_tok c r) start (cc + n - 1) s2) as Ht2.
  { intros j Hj. rewrite (steps_same _ _ _ _ _ tokenTileBuf K3) by set_solver. by apply Ht. }
  apply wp_bind, (wp_find (fun s' => s' = s2) (fun p => occurs c r n (start + (off + p))) (fun p => (start + (off + p), n))); [done| |].
  - intros p s' Hp ->. apply wp_bind, wp_GetValue; [cbn; rewrite Hl2, B4, Z.shiftr_div_pow2 by done; change (2 ^ 3) with 8; zlia|].
    cbn [nbuf lget]. rewrite V2 by lia. rewrite (steps_same _ _ _ _ _ tokenTileBuf K1) by set_solver. rewrite Ht by lia.
    rewrite occurs_cons by lia. replace (start + (off + p)) with (start + off + p) by lia.
    destruct (_ =? _); [|done]. unwrap. cbn [andb]. apply wp_bind, (MatchLoaded_spec start (cc + n - 1)); [done|done|done|lia|lia|unfold SAFE_CHUNK; lia|].
    replace (start + (off + p)) with (start + off + p) by lia. by destruct (forallb _ _).
  - intros s' ->. rewrite find_shift. destruct (find (fun p => occurs c r n (start + (off + p))) (zrange 0 el)) as [x|] eqn:Hf; cbn [fst].
    + apply find_zrange_some in Hf as [Hx _]. rewrite (proj2 (Z.geb_le _ _)) by lia. by apply wp_ret.
    + by apply wp_ret.
Qed.

Lemma SearchChunks_spec s (Q : Z * Z -> NS -> Prop) :
  sized e s -> suffix_loaded s -> row_is (row_tok c r) s -> n < total ->
  (forall s', steps [tokenTileBuf; maskBuf] s s' -> Q (code (shortest_step c r None n)) s') ->
  wp (SearchChunks e (q * M) total n (-1, 0)) Q s.
Proof.
  intros Hl Hs Hrow Hnt HQ. pose proof total_bound'. destruct (nbuf_sizes e He) as (_ & _ & B3 & _).
  unfold SearchChunks. rewrite (m_max e He). unwrap. cbv zeta.
  apply wp_bind, wp_GetValue; [cbn; rewrite Hl, B3; lia|]. cbn [nbuf lget]. rewrite Hs by lia.
  replace (total - maxN + (maxN - n)) with (total - n) by lia.
  apply (wp_find_step (fun s' => steps [tokenTileBuf; maskBuf] s s') (occurs c r n) (fun p => (p, n)));
    [unfold SAFE_CHUNK; lia|lia|apply steps_refl| |].
  2: { intros s' K. specialize (HQ s' K). unfold shortest_step, first, first_at in HQ. by destruct (find _ _). }
  intros start s1 Hst _ K1. rewrite (u32_id (start + SAFE_CHUNK)) by (unfold fits_u32, SAFE_CHUNK; lia). unwrap.
  assert ((if start + SAFE_CHUNK <=? total - n then SAFE_CHUNK else total - n - start) = Z.min SAFE_CHUNK (total - n - start)) as ->
    by (unfold SAFE_CHUNK; destruct (_ <=? _) eqn:E; bool_prop; lia).
  set (cc := Z.min SAFE_CHUNK (total - n - start)). assert (0 < cc <= 32768 /\ start + cc + n <= total) as [Hcc Hend] by (subst cc; unfold SAFE_CHUNK; lia).
  rewrite (i32_id (cc + (n - 1))), (i32_id (start + (cc + (n - 1)))) by (unfold fits_i32; lia).
  assert ((if start + (cc + (n - 1)) >? total then total - start else cc + (n - 1)) = cc + n - 1) as ->
    by (destruct (_ >? _) eqn:E; bool_prop; lia).
  apply wp_bind, (LoadGm_spec (row_tok c r)); [by eapply sized_steps|by eapply row_is_steps|lia|unfold SAFE_CHUNK; lia|lia|]. intros s2 K2 L2.
  assert (steps [tokenTileBuf; maskBuf] s s2) as K3 by (eapply steps_trans; [exact K1|]; eapply steps_mono; [|exact K2]; set_solver).
  apply wp_bind, SearchLoaded_spec; [by eapply sized_steps|eapply suffix_steps; [exact K3|set_solver|done]|done|lia|done|done|].
  intros s3 K4. assert (steps [tokenTileBuf; maskBuf] s s3) as K5 by (eapply steps_trans; [exact K3|]; eapply steps_mono; [|exact K4]; set_solver).
  destruct (find (occurs c r n) _) as [x|] eqn:Hf; cbn [code fst].
  - apply find_zrange_some in Hf as [Hx _]. rewrite (proj2 (Z.geb_le _ _)) by lia. by apply wp_ret.
  - by apply wp_ret.
Qed.
End Search.

Lemma SearchLongRow_spec s (Q : Z * Z -> NS -> Prop) :
  sized e s -> row_is (row_tok c r) s -> maxN <= total ->
  (forall s', steps [tokenTileBuf; suffixBuf; maskBuf] s s' -> Q (code (fold_to c (shortest_step c r) (maxN + 1))) s') ->
  wp (SearchLongRow e (q * M) total) Q s.
Proof.
  intros Hl Hrow Hmax HQ. pose proof total_bound' as Htb. pose proof chunk_buffer. pose proof (nv_min e He).
  destruct (nbuf_sizes e He) as (_ & _ & B3 & _). unfold SAFE_CHUNK in *.
  assert (forall b m, total <= m -> shortest_step c r b m = b) as Hbey by (intros b m Hm; by apply steps_beyond).
  unfold SearchLongRow. rewrite (m_min e He), (m_max e He). unwrap. cbv zeta. rewrite (proj2 (Z.ltb_ge (total - maxN) 0)) by lia.
  apply wp_bind, (LoadGm_spec (row_tok c r)); [done|done|lia|unfold SAFE_CHUNK; lia|lia|]. intros s1 K1 L1.
  apply wp_bind, (wp_for_range (fun j s' => steps [tokenTileBuf; suffixBuf] s s' /\ chunk_loaded (row_tok c r) (total - maxN) maxN s' /\
    forall i, 0 <= i < j -> t_at (n_ub s' suffixBuf) i = row_tok c r (total - maxN + i))); [lia| | |].
  - split; [eapply steps_mono; [|exact K1]; set_solver|]. split; [done|]. intros; lia.
  - intros j s2 Hj (K2 & L2 & V2). pose proof (sized_steps _ _ _ _ _ K2 Hl) as Hl2. unwrap.
    apply wp_bind, wp_GetValue; [cbn; rewrite Hl2; lia|]. cbn [nbuf lget]. rewrite L2 by done.
    apply (wp_NSet e idx); [rewrite Hl2, B3; lia|by left|]. intros s3 K3 V3 O3.
    split; [eapply steps_trans; [exact K2|]; eapply steps_mono; [|exact K3]; set_solver|]. split.
    + intros i Hi. rewrite (steps_same _ _ _ _ _ tokenTileBuf K3) by set_solver. by apply L2.
    + intros i Hi. destruct (decide (i = j)) as [->|]; [done|]. rewrite O3 by done. apply V2. lia.
  - intros s2 (K2 & _ & V2).
    apply (wp_for_acc (fun n b s' => steps [tokenTileBuf; suffixBuf; maskBuf] s s' /\ suffix_loaded s' /\ b = (-1, 0) /\
      fold_to c (shortest_step c r) n = None)).
    + split; [eapply steps_mono; [|exact K2]; set_solver|]. split; [done|]. split; [done|]. unfold fold_to. by rewrite zrange_nil by lia.
    + intros n b s3 Hn (K3 & S3 & -> & Hfold).
      assert (total <= n -> Q (-1, 0) s3) as Hstop.
      { intros Hle. specialize (HQ s3 K3). rewrite (fold_to_stop c r _ n), Hfold in HQ; [done|done|lia|done]. }
      destruct (n >? total) eqn:E1; bool_prop; [apply wp_ret; apply Hstop; lia|].
      unwrap. destruct (total - n <=? 0) eqn:E2; bool_prop; [apply wp_ret; apply Hstop; lia|].
      apply wp_bind, SearchChunks_spec; [lia|done|by eapply sized_steps|done|by eapply row_is_steps|lia|]. intros s4 K4.
      assert (steps [tokenTileBuf; suffixBuf; maskBuf] s s4) as K5 by (eapply steps_trans; [exact K3|]; eapply steps_mono; [|exact K4]; set_solver).
      assert (fold_to c (shortest_step c r) (n + 1) = shortest_step c r None n) as Hfold' by (by rewrite fold_to_S, Hfold by lia).
      destruct (shortest_step c r None n) as [[p m]|] eqn:Hb; cbn [code fst].
      * assert (found c r (Some (p, m))) as Hfd by (rewrite <- Hb; apply step_found; [lia|done]).
        destruct (Hfd p m eq_refl) as (_ & Hp & _). rewrite (proj2 (Z.geb_le p 0)) by lia. apply wp_ret.
        specialize (HQ s4 K5). unfold fold_to in *. rewrite (zrange_split _ (n + 1)), foldl_app, Hfold' in HQ by lia.
        rewrite fold_id_some in HQ. done.
      * apply wp_ret. split; [done|]. split; [|done]. eapply suffix_steps; [exact K4|set_solver|done].
    + intros b s3 (K3 & S3 & -> & Hfold). specialize (HQ s3 K3).
      destruct (decide (ni_minN c <= maxN + 1)); [rewrite Z.max_r in Hfold by lia; by rewrite Hfold in HQ|].
      unfold fold_to in HQ. rewrite zrange_nil in HQ by lia. done.
Qed.

(** ** Appending, drafting *)

Context (HT : T <= SAFE_CHUNK) (Hk : k <= SAFE_CHUNK).

Lemma stage_tokens s (Q : unit -> NS -> Prop) :
  sized e s -> samples e idx (clean c r) s ->
  (forall s', steps [tokenTileBuf] s s' -> chunk_loaded (clean c r) 0 (row_count c r) s' -> Q tt s') ->
  wp (for_range 0 (row_count c r) (fun j =>
    GetValue (lget (nbuf sampledTileBuf)) (u32 (u32 (idx * mnta) + j)) ≫= fun v => SetValue (nbuf tokenTileBuf) (u32 j) v)) Q s.
Proof.
  intros Hl Hs HQ. pose proof (idx_facts e He idx Hidx). pose proof (idx_bounds e He). pose proof (row_count_bound c r ltac:(lia)).
  pose proof chunk_buffer. pose proof (nv_max e He). destruct (nbuf_sizes e He) as (B1 & _). unfold SAFE_CHUNK in *.
  apply (wp_for_range (fun j s' => steps [tokenTileBuf] s s' /\ chunk_loaded (clean c r) 0 j s')); [lia| | |].
  - split; [apply steps_refl|]. intros i Hi. lia.
  - intros j s1 Hj (K1 & V1). pose proof (sized_steps _ _ _ _ _ K1 Hl) as Hl1. unwrap.
    apply wp_bind, wp_GetValue; [cbn; rewrite Hl1, B1; lia|]. cbn [nbuf lget].
    rewrite (steps_same _ _ _ _ _ sampledTileBuf K1) by set_solver. rewrite Hs by lia.
    apply (wp_NSet e idx); [rewrite Hl1; lia|apply token_scratch|]. intros s2 K2 V2 O2. split; [by eapply steps_trans|].
    intros i Hi. destruct (decide (i = j)) as [->|]; [by rewrite V2|]. rewrite O2 by done. apply V1. lia.
  - intros s1 (K1 & V1). by apply HQ.
Qed.

Lemma StoreGm_spec f p n s (Q : unit -> NS -> Prop) :
  sized e s -> gm_sized e (n_gm s) -> chunk_loaded f 0 n s -> 0 <= p -> 0 < n <= SAFE_CHUNK -> p + n <= M ->
  (forall s', stores tokenGm (q * M + p) n f s s' -> Q tt s') -> wp (StoreGmElements (q * M + p) n) Q s.
Proof.
  intros Hl Hg Hld Hp Hn Hpn HQ. pose proof q_facts. pose proof chunk_buffer. pose proof (nv_max e He). unfold StoreGmElements, SAFE_CHUNK in *.
  rewrite (proj2 (Z.leb_gt n 0)), (u32_id n) by (unfold fits_u32; lia). cbv zeta.
  apply (wp_chunks (fun off m => stores tokenGm (q * M + p + off) m (fun j => f (off + j)))); [done|lia| | | |].
  - intros s1. apply stores_refl.
  - intros m1 m2 s1 s2 s3 Hm1 Hm2 K1 K2. eapply stores_join; [done|done|exact K1|]. rewrite Z.add_0_r. exact K2.
  - intros off s1 Ho (U1 & L1 & _). rewrite chunk_size by (unfold STORE_MAX; lia).
    apply wp_Store; [lia|unfold STORE_MAX; lia|rewrite L1, Hg; cbn; lia|lia|rewrite U1, Hl; lia|].
    intros s2 (U2 & L2 & S2 & V2 & O2). do 3 (split; [done|]). split; [|done]. intros j Hj. rewrite V2 by done. rewrite U1.
    rewrite Hld by lia. f_equal.
  - intros s1 K1. rewrite Z.add_0_r in K1. by apply HQ.
Qed.

(** The row in global memory after the sampled tokens were appended. *)
Lemma appended s s' : row_is (r_tok r) s -> stores tokenGm (q * M + r_len r) (row_count c r) (clean c r) s s' ->
  row_is (row_tok c r) s' /\ gm_frame e q 1 (n_gm s) (n_gm s').
Proof.
  intros [Hg Hr] (U & L & S & V & O). pose proof (total_bound e He r Hlen). assert (total = r_len r + row_count c r) as Htot by done.
  split; [split|split; [done|]].
  - intros o. by rewrite L.
  - intros j Hj. cbn [gpitch] in *. unfold row_tok. destruct (_ && _) eqn:E; bool_prop.
    + replace (q * M + j) with (q * M + r_len r + (j - r_len r)) by lia. apply V. lia.
    + rewrite O by lia. by apply Hr.
  - intros o i Hi. destruct (decide (o = tokenGm)) as [->|]; [|by rewrite S]. cbn [gpitch] in Hi. apply O. lia.
Qed.

Lemma not_appended s : row_count c r = 0 -> row_is (r_tok r) s -> row_is (row_tok c r) s.
Proof.
  intros H0 [Hg Hr]. split; [done|]. intros j Hj. rewrite Hr by done. unfold row_tok, row_total. rewrite H0.
  destruct (_ && _) eqn:E; bool_prop; [lia|done].
Qed.

Lemma PutLongDraft_spec s (Q : unit -> NS -> Prop) :
  sized e s -> row_is (row_tok c r) s ->
  (forall s', steps [tokenTileBuf; draftBuf] s s' ->
     (forall j, 0 <= j < k -> t_at (n_ub s' draftBuf) (idx * ka + j) = draft c r (row_best e r) j) -> Q tt s') ->
  wp (PutLongDraft e idx (q * M) total (code (row_best e r))) Q s.
Proof.
  intros Hl Hrow HQ. pose proof (idx_facts e He idx Hidx). pose proof (idx_bounds e He). pose proof (total_bound e He r Hlen).
  pose proof (nv_min e He). pose proof (nv_max e He). pose proof chunk_buffer. unfold PutLongDraft.
  assert ((forall j, 0 <= j < k -> draft c r (row_best e r) j = -1) -> wp (ClearDraft e idx) Q s) as Hclear.
  { intros Hd. apply (ClearDraft_spec e He idx Hidx); [done|]. intros s' K1 V1. apply HQ; [eapply steps_mono; [|exact K1]; set_solver|].
    intros j Hj. by rewrite V1, Hd. }
  destruct (row_best e r) as [[p n]|] eqn:Hb; cbn [code]; [|by apply Hclear].
  destruct (row_best_found e r p n Hb) as (Hn & Hp & _). rewrite (proj2 (Z.geb_le p 0)) by lia. cbv zeta.
  rewrite (i32_id (p + n)), (i32_id (total - (p + n))), (m_k e He), (m_ka e He) by (unfold fits_i32; lia).
  assert ((if total - (p + n) <? k then total - (p + n) else k) = Z.min (total - (p + n)) k) as ->
    by (destruct (_ <? k) eqn:E; bool_prop; lia).
  destruct (_ >? 0) eqn:E; bool_prop; [|apply Hclear; intros j Hj; lia]. unfold SAFE_CHUNK in *.
  apply wp_bind, (LoadGm_spec (row_tok c r)); [done|done|lia|unfold SAFE_CHUNK; lia|lia|]. intros s1 K1 L1.
  apply (wp_fill_draft e He idx [draftBuf] (draft c r (Some (p, n)))); [by eapply sized_steps|set_solver| |].
  - intros j s2 Hj K2. assert (sized e s2) as Hl2 by (eapply sized_steps; [exact K2|]; by eapply sized_steps). unfold draft.
    destruct (j <? Z.min _ _) eqn:E1; bool_prop; unwrap.
    + rewrite (proj2 (Z.ltb_lt j (total - (p + n)))) by lia. apply wp_bind, wp_GetValue; [cbn; rewrite Hl2; lia|]. cbn [nbuf lget].
      rewrite (steps_same _ _ _ _ _ tokenTileBuf K2) by set_solver. rewrite L1 by lia. by apply put_draft.
    + rewrite (proj2 (Z.ltb_ge j (total - (p + n)))) by lia. by apply put_draft.
  - intros s2 K2 V2. apply HQ; [|done]. eapply steps_trans; eapply steps_mono; [|exact K1| |exact K2]; set_solver.
Qed.

(** ** The whole row *)

Lemma append_row s (Q : unit -> NS -> Prop) :
  sized e s -> samples e idx (clean c r) s -> row_is (r_tok r) s ->
  (forall s', touches e idx [tokenTileBuf] (n_ub s) (n_ub s') -> gm_frame e q 1 (n_gm s) (n_gm s') -> row_is (row_tok c r) s' -> Q tt s') ->
  wp (when (row_count c r >? 0)
    (for_range 0 (row_count c r) (fun j =>
       GetValue (lget (nbuf sampledTileBuf)) (u32 (u32 (idx * mnta) + j)) ≫= fun v => SetValue (nbuf tokenTileBuf) (u32 j) v) ≫= fun _ =>
     StoreGmElements (q * M + r_len r) (row_count c r))) Q s.
Proof.
  intros Hl Hs Hrow HQ. pose proof (idx_bounds e He). pose proof (row_count_bound c r ltac:(lia)). pose proof (total_bound e He r Hlen).
  assert (total = r_len r + row_count c r) as Htot by done. destruct (row_count c r >? 0) eqn:E; bool_prop.
  - apply wp_when_true; [done|]. apply wp_bind, stage_tokens; [done|done|]. intros s1 K1 L1.
    apply (StoreGm_spec (clean c r)); [by eapply sized_steps|rewrite (proj1 K1); apply Hrow|done|lia|lia|lia|]. intros s2 K2.
    assert (row_is (r_tok r) s1) as Hrow1 by (by eapply row_is_steps).
    destruct (appended s1 s2 Hrow1 K2) as [R2 F2]. rewrite (proj1 K1) in F2. apply HQ; [|done|done]. rewrite (proj1 K2). apply K1.
  - apply wp_when_false; [done|]. apply HQ; [apply touches_refl|apply gm_frame_refl|]. apply not_appended; [lia|done].
Qed.

Lemma ProcessLongRow_spec start_row s (Q : unit -> NS -> Prop) :
  q = start_row + idx -> q < 2 ^ 31 -> (0 < row_count c r -> maxN <= total) ->
  sized e s -> meta_at e r idx s -> row_is (r_tok r) s ->
  (forall s', touches e idx row_bufs (n_ub s) (n_ub s') -> gm_frame e q 1 (n_gm s) (n_gm s') ->
     row_is (row_tok c r) s' -> results_at e r idx s' -> Q tt s') ->
  wp (ProcessLongRow e start_row idx) Q s.
Proof.
  intros Eq Hq31 Hmax Hl (Hnt & Hd & Hs) Hrow HQ. pose proof (idx_facts e He idx Hidx). pose proof (idx_bounds e He).
  pose proof (total_bound e He r Hlen). pose proof chunk_buffer. pose proof (nv_max e He). pose proof (row_count_bound c r ltac:(lia)).
  destruct (nbuf_sizes e He) as (_ & _ & _ & _ & B5). pose proof (B5 numTokensBuf ltac:(set_solver)). pose proof (B5 discardTileBuf ltac:(set_solver)).
  unfold ProcessLongRow. rewrite <- Eq, (m_seq e He), (u32_id q), (u32_id M) by (unfold fits_u32; lia). cbv zeta.
  apply wp_bind, wp_GetValue; [cbn; rewrite Hl; lia|]. apply wp_bind, wp_GetValue; [cbn; rewrite Hl; lia|]. cbn [nbuf lget]. rewrite Hnt, Hd.
  apply wp_bind, (CleanSampled_spec e He r idx Hidx); [done|done|]. intros s1 K1 S1. rewrite (ClampCount_spec e He r Hlen).
  assert ((if r_len r >? 0 then i32 (r_len r - 1) else 0) = if r_len r >? 0 then r_len r - 1 else 0) as ->.
  { destruct (_ >? 0) eqn:E; bool_prop; [|done]. apply i32_id. unfold fits_i32. lia. }
  assert (0 <= (if r_len r >? 0 then r_len r - 1 else 0) < M) as Hbp by (destruct (_ >? 0) eqn:E; bool_prop; lia).
  pose proof (sized_steps _ _ _ _ _ K1 Hl) as Hl1. pose proof (row_is_steps _ _ _ _ K1 Hrow) as Hrow1. unfold SAFE_CHUNK in *.
  apply wp_bind, (LoadGm_spec (r_tok r)); [done|done|lia|unfold SAFE_CHUNK; lia|lia|]. intros s2 K2 L2.
  pose proof (sized_steps _ _ _ _ _ K2 Hl1) as Hl2. apply wp_bind, wp_GetValue; [cbn; rewrite Hl2; lia|]. cbn [nbuf lget].
  rewrite L2, Z.add_0_r by lia.
  apply wp_bind, (PutNext_spec e He r idx Hidx); [done|eapply samples_steps; [exact K2|set_solver|done]|]. intros s3 K3 N3.
  pose proof (sized_steps _ _ _ _ _ K3 Hl2) as Hl3. fold total. rewrite (i32_id total) by (unfold fits_i32; lia).
  assert (steps row_bufs s s3) as KA.
  { eapply steps_trans; [eapply steps_mono; [|exact K1]; set_solver|].
    eapply steps_trans; eapply steps_mono; [|exact K2| |exact K3]; set_solver. }
  rewrite (m_mnta e He), (u32_id mnta), (m_min e He) by (unfold fits_u32; lia).
  apply wp_bind, append_row; [done|eapply samples_steps; [exact K3|set_solver|]; eapply samples_steps; [exact K2|set_solver|done]| |].
  { eapply row_is_steps; [exact K3|]. by eapply row_is_steps. }
  intros s4 T4 F4 R4. assert (sized e s4) as Hl4 by (intros b; rewrite (proj1 T4); apply Hl3). rewrite (proj1 KA) in F4.
  apply wp_bind, (wp_mono _ (fun b s5 => b = code (row_best e r) /\ steps [tokenTileBuf; suffixBuf; maskBuf] s4 s5)).
  - rewrite row_best_code. unfold row_step. rewrite Hlarge. destruct (_ && _) eqn:E; [|apply wp_ret; split; [done|apply steps_refl]].
    apply andb_true_iff in E as [E _]. bool_prop. apply SearchLongRow_spec; [done|done|apply Hmax; lia|]. intros s5 K5. done.
  - intros b s5 [-> K5]. pose proof (sized_steps _ _ _ _ _ K5 Hl4) as Hl5. pose proof (row_is_steps _ _ _ _ K5 R4) as R5.
    apply wp_bind, PutLongDraft_spec; [done|done|]. intros s6 K6 D6.
    apply (CountDraft_spec e He r idx Hidx (row_best e r)); [by eapply sized_steps|done|]. intros s7 K7 V7. apply HQ.
    + eapply touches_trans; [apply KA|]. eapply touches_trans; [eapply touches_mono; [|exact T4]; set_solver|].
      eapply touches_trans; [eapply touches_mono; [|exact (proj2 K5)]; set_solver|].
      eapply touches_trans; eapply touches_mono; [|exact (proj2 K6)| |exact (proj2 K7)]; set_solver.
    + rewrite (proj1 K7), (proj1 K6), (proj1 K5). exact F4.
    + eapply row_is_steps; [exact K7|]. by eapply row_is_steps.
    + split; [|split; [|done]].
      * rewrite (steps_same _ _ _ _ _ nextTokenBuf K7), (steps_same _ _ _ _ _ nextTokenBuf K6), (steps_same _ _ _ _ _ nextTokenBuf K5)
          by set_solver. rewrite (proj1 (proj2 T4)) by set_solver. done.
      * intros j Hj. rewrite (steps_same _ _ _ _ _ draftBuf K7) by set_solver. by apply D6.
Qed.
End OneRow.

(** ** A block of rows *)

Section LongBlock.
Context (Hin : ngram_input e).
Context (HT : T <= SAFE_CHUNK) (Hk : k <= SAFE_CHUNK).
Variables (rows : Z -> NRow) (q0 n : Z).
Context (Hblk : 0 <= q0 /\ 0 < n <= br /\ q0 + n <= B).
Context (Hrows : forall i, 0 <= i < n -> exists g, rows (q0 + i) = nrow_of e g (q0 + i)).
Context (Hmax : forall i, 0 <= i < n -> 0 < row_count c (rows (q0 + i)) -> maxN <= row_total c (rows (q0 + i))).

Lemma long_block s (Q : unit -> NS -> Prop) :
  sized e s -> gm_sized e (n_gm s) -> (forall i, 0 <= i < n -> holds e (n_gm s) tokenGm (q0 + i) (r_tok (rows (q0 + i)))) ->
  (forall s', sized e s' -> gm_frame e q0 n (n_gm s) (n_gm s') -> (forall i, 0 <= i < n -> row_written e (n_gm s') (rows (q0 + i)) (q0 + i)) ->
     Q tt s') ->
  wp (ProcessChunkedRows e q0 n) Q s.
Proof.
  intros Hl Hg Htok HQ. pose proof (ng_batch e Hin). unfold ProcessChunkedRows.
  apply wp_assoc, wp_bind, (load_heads e He Hin q0 n Hblk); [done|]. intros s1 Hl1 G1 H1 _.
  apply wp_bind, (load_samples e He Hin q0 n Hblk); [done|]. intros s2 Hl2 G2 S2 V2.
  apply wp_bind, (wp_for_range (fun r s' => sized e s' /\ gm_frame e q0 n (n_gm s) (n_gm s') /\
    (forall i, r <= i < n -> holds e (n_gm s') tokenGm (q0 + i) (r_tok (rows (q0 + i))) /\ meta_at e (rows (q0 + i)) i s') /\
    forall i, 0 <= i < r -> holds e (n_gm s') tokenGm (q0 + i) (row_tok c (rows (q0 + i))) /\ results_at e (rows (q0 + i)) i s')); [lia| | |].
  - split; [done|]. split; [rewrite G2, G1; apply gm_frame_refl|]. split; [|intros; lia]. intros i Hi. split; [rewrite G2, G1; by apply Htok|].
    destruct (Hrows i Hi) as [g Hrow]. rewrite Hrow. destruct (H1 i Hi) as [H2 H3]. split; [by rewrite S2|]. split; [by rewrite S2|]. by apply V2.
  - intros r s3 Hr (Hl3 & F3 & P3 & D3). destruct (P3 r ltac:(lia)) as [R3 M3].
    assert (0 <= r_len (rows (q0 + r)) <= M) as Hlen by (destruct (Hrows r Hr) as [g ->]; apply (ng_len e Hin); lia).
    apply (ProcessLongRow_spec (rows (q0 + r)) (q0 + r) r ltac:(lia) ltac:(lia) Hlen HT Hk); [done|lia|by apply Hmax|done|done| |].
    { split; [by eapply gm_frame_sized|done]. }
    intros s4 T4 F4 [_ R4] Res4. split; [intros b; rewrite (proj1 T4); apply Hl3|]. split; [|split].
    + eapply gm_frame_trans; [exact F3|]. split; [apply F4|]. intros o i Hi. apply (proj2 F4). pose proof (gpitch_nonneg e He o). nia.
    + intros i Hi. destruct (P3 i ltac:(lia)) as [R5 M5]. split; [|by eapply meta_other; [done|exact T4|lia|]].
      eapply (holds_frame e He); [exact F4|lia|done].
    + intros i Hi. destruct (decide (i = r)) as [->|]; [done|]. destruct (D3 i ltac:(lia)) as [R5 M5].
      split; [|by eapply results_other; [done|exact T4|lia|]]. eapply (holds_frame e He); [exact F4|lia|done].
  - intros s3 (Hl3 & F3 & _ & D3). apply (WriteResults_spec e He Hin q0 n Hblk rows); [done|by eapply gm_frame_sized|intros i Hi; by apply D3|].
    intros s4 U4 F4 T4 W4. apply HQ; [intros b; by rewrite U4|by eapply gm_frame_trans|].
    intros i Hi o. destruct (decide (o = tokenGm)) as [->|Ho]; [|by apply W4]. intros j Hj. rewrite T4. by apply D3.
Qed.
End LongBlock.
End Long.
