(* ===== verification/NgramGrid.v ===== *)
(** NgramSpecDecode end to end: the loop of a core over its blocks of rows, the
    split of the batch over the cores, and the launch that the host prescribes. *)

From stdpp Require Import gmap.
From S2P Require Import Prelude AscendC TilingContext Ngram NgramSpec NgramRow NgramSearch NgramSmall NgramBlock NgramLong.

(** What the search of a row relies on and the host does not check.  A single row in
    the unified buffer is compared in whole groups of 64 tokens: the positions that
    are searched must lie in whole groups of the padded row, or else the last ones
    are tested against an old mask.  The path for long rows takes its suffix from the last
    [maxN] tokens, appends the sampled tokens in one transfer (a second one
    would start at an unaligned address) and stages the draft in a chunk. *)
Definition path_ok (e : NEnv) (r : NRow) : Prop :=
  if is_large_row e then
    ni_maxNewTokens (n_info e) <= STORE_MAX /\ ni_k (n_info e) <= SAFE_CHUNK /\
    (0 < row_count (n_info e) r -> ni_maxN (n_info e) <= row_total (n_info e) r)
  else ni_blockRows (n_info e) <= 1 -> mask_covers e r (ni_minN (n_info e)).

(** All rows of a call. *)
Definition paths_ok (e : NEnv) (g : NGm -> tensor Z) : Prop :=
  forall q, 0 <= q < ni_batchSize (n_info e) -> path_ok e (nrow_of e g q).

(** For rows in the unified buffer the sizes decide: several rows per core, or rows
    padded to a multiple of 64 tokens. *)
Lemma paths_ok_sizes e g : ngram_env e -> ngram_input e -> is_large_row e = false ->
  1 < ni_blockRows (n_info e) \/ align8 (ni_maxSeqLen (n_info e)) mod 64 = 0 -> paths_ok e g.
Proof.
  intros He Hin Hsm Hs q Hq. unfold path_ok. rewrite Hsm. intros Hb. destruct Hs as [Hs|Hs]; [lia|]. left.
  pose proof (nv_seq e He). pose proof (nv_min e He). pose proof (nv_new e He). pose proof (ng_len e Hin q Hq) as Hlen.
  destruct (row_total_bound (n_info e) (nrow_of e g q)) as [_ Ht]; [exact Hlen|lia|].
  pose proof (align8_bounds (ni_maxSeqLen (n_info e)) ltac:(lia)). pose proof (Z.div_mod (align8 (ni_maxSeqLen (n_info e))) 64 ltac:(lia)). lia.
Qed.

(** ** One core *)

Section Core.
Variable e : NEnv.
Context (He : ngram_env e).
Context (Hin : ngram_input e).
Variable g0 : NGm -> tensor Z.
Abbreviation c := (n_info e).
Abbreviation B := (ni_batchSize c).
Abbreviation br := (ni_blockRows c).
Abbreviation rows := (nrow_of e g0).
Abbreviation fresh g q := (holds e g tokenGm q (r_tok (rows q))).
Abbreviation written g q := (row_written e g (rows q) q).
Context (Hok : forall q, 0 <= q < B -> path_ok e (rows q)).

Lemma block_spec q0 n s (Q : unit -> NS -> Prop) :
  0 <= q0 -> 0 < n <= br -> q0 + n <= B ->
  sized e s -> gm_sized e (n_gm s) -> (forall q, q0 <= q < q0 + n -> fresh (n_gm s) q) ->
  (forall s', sized e s' -> gm_frame e q0 n (n_gm s) (n_gm s') -> (forall q, q0 <= q < q0 + n -> written (n_gm s') q) -> Q tt s') ->
  wp (if is_large_row e then ProcessChunkedRows e q0 n
      else NgramCopyIn e q0 n ≫= fun _ => Compute e n ≫= fun _ => NgramCopyOut e q0 n) Q s.
Proof.
  intros H1 H2 H3 Hl Hg Hf HQ.
  assert (forall g, (forall i, 0 <= i < n -> row_written e g (rows (q0 + i)) (q0 + i)) -> forall q, q0 <= q < q0 + n -> written g q) as Hw.
  { intros g Hw q Hq. replace q with (q0 + (q - q0)) by lia. apply Hw. lia. }
  assert (forall i, 0 <= i < n -> fresh (n_gm s) (q0 + i)) as Hf' by (intros i Hi; apply Hf; lia).
  destruct (is_large_row e) eqn:E.
  - unfold path_ok in Hok. rewrite E in Hok. destruct (Hok q0 ltac:(lia)) as (HT & Hk & _).
    assert (ni_maxNewTokens c <= SAFE_CHUNK) as HT' by (unfold STORE_MAX, SAFE_CHUNK in *; lia).
    apply (long_block e He E Hin HT' Hk rows q0 n); [lia|eauto|intros i Hi; apply Hok; lia|done|done|done|]. intros s' L' F' W'. apply HQ; auto.
  - unfold path_ok in Hok. rewrite E in Hok.
    apply (small_block e He Hin E rows q0 n); [lia|eauto|intros Hb i Hi; apply Hok; lia|done|done|done|]. intros s' L' F' W'. apply HQ; auto.
Qed.

Context (ro mr : Z).
Context (Hro : row_offset e = ro) (Hmr : my_rows e = mr).
Context (Hshare : 0 <= ro /\ 0 <= mr /\ ro + mr <= B).

Lemma NgramProcess_spec s (Q : unit -> NS -> Prop) :
  sized e s -> gm_sized e (n_gm s) -> (forall q, ro <= q < ro + mr -> fresh (n_gm s) q) ->
  (forall s', gm_frame e ro mr (n_gm s) (n_gm s') -> (forall q, ro <= q < ro + mr -> written (n_gm s') q) -> Q tt s') ->
  wp (NgramProcess e) Q s.
Proof.
  intros Hl Hg Hf HQ. pose proof (ng_batch e Hin). destruct (nv_rows e He) as [Hbr _]. unfold NgramProcess.
  rewrite Hmr, Hro, (m_br e He), !(u32_id br) by (unfold fits_u32; lia).
  apply (wp_loop (fun '(rem, off) s' => 0 <= off /\ 0 <= rem /\ rem + off = mr /\ sized e s' /\ gm_frame e ro mr (n_gm s) (n_gm s') /\
    (forall q, ro <= q < ro + off -> written (n_gm s') q) /\ (forall q, ro + off <= q < ro + mr -> fresh (n_gm s') q))
    (fun '(rem, _) => Z.to_nat rem)).
  - intros [rem off] s1 (H1 & H2 & H3 & Hl1 & F1 & W1 & P1). destruct (rem >? 0) eqn:E; bool_prop.
    + set (cur := if rem >? br then br else rem). assert (0 < cur <= br /\ cur <= rem) as [Hc1 Hc2] by (subst cur; destruct (_ >? br) eqn:E2; bool_prop; lia).
      clearbody cur. unwrap. apply wp_bind, block_spec; [lia|done|lia|done|by eapply gm_frame_sized|intros q Hq; apply P1; lia|].
      intros s2 Hl2 F2 W2. apply wp_ret. split; [|lia]. do 3 (split; [lia|]). split; [done|].
      assert (forall q f, ro <= q -> q < ro + off \/ ro + off + cur <= q -> holds e (n_gm s1) tokenGm q f -> holds e (n_gm s2) tokenGm q f) as Hkeep.
      { intros q f _ Hq. by apply (holds_frame e He _ _ _ _ _ _ _ F2). }
      split; [|split].
      * eapply gm_frame_trans; [exact F1|]. split; [apply F2|]. intros o i Hi. apply (proj2 F2). pose proof (gpitch_nonneg e He o). nia.
      * intros q Hq. destruct (decide (q < ro + off)); [|apply W2; lia]. intros o. eapply (holds_frame e He); [exact F2|lia|]. apply W1. lia.
      * intros q Hq. apply Hkeep; [lia|lia|]. apply P1. lia.
    + apply wp_ret, HQ; [done|]. intros q Hq. apply W1. lia.
  - lia.
  - split; [lia|]. split; [lia|]. split; [lia|]. split; [done|]. split; [apply gm_frame_refl|]. split; [intros; lia|].
    intros q Hq. apply Hf. lia.
Qed.

Lemma core_spec ub junk g :
  ub_bytes e <= ub -> gm_sized e g -> (forall q, ro <= q < ro + mr -> fresh g q) ->
  exists g', ngram_spec_decode e ub junk g = Ok g' /\ gm_frame e ro mr g g' /\ forall q, ro <= q < ro + mr -> written g' q.
Proof.
  intros Hub Hg Hf. unfold ngram_spec_decode. rewrite InitBuffers_ok, bind_Ok by exact Hub. set (s0 := {| n_ub := _; n_gm := g |}).
  assert (wp (NgramProcess e) (fun _ s' => gm_frame e ro mr g (n_gm s') /\ forall q, ro <= q < ro + mr -> written (n_gm s') q) s0) as Hwp
    by (by apply NgramProcess_spec).
  apply wp_run in Hwp as ([] & s' & Hrun & F & W).
  exists (n_gm s'). rewrite Hrun. done.
Qed.
End Core.

(** ** The cores *)

(** The context of a call: [B] rows of at most [M] tokens, [T] sampled tokens per
    row, n-grams of [a] to [b] tokens, drafts of [k] tokens. *)
Record ngram_context (context : TilingContext) (p : PlatformInfo) (B M T V a b k : Z) : Prop := {
  nc_data : HasTilingData context = true /\ HasAttrs context = true;
  nc_attrs : GetAttrInt context ATTR_VOCAB_SIZE_INDEX = Some V /\ GetAttrInt context ATTR_MIN_N_INDEX = Some a /\
             GetAttrInt context ATTR_MAX_N_INDEX = Some b /\ GetAttrInt context ATTR_K_INDEX = Some k;
  nc_tokens : GetInputShape context INPUT_TOKEN_IDS_INDEX = Some [B; M];
  nc_sampled : GetInputShape context INPUT_SAMPLED_INDEX = Some [B; T];
  nc_platform : GetPlatformInfoPtr context = Some p /\ 0 < GetCoreNumAiv p < 2 ^ 31 /\ GetCoreMemSizeUB p < 2 ^ 31;
  nc_range : 0 < B < 2 ^ 31 /\ 0 < M /\ 0 <= T /\ 0 <= k /\ M + T + k < 2 ^ 28 /\ 0 <= V < 2 ^ 31 /\ 1 <= a < 2 ^ 28 /\ 1 <= b < 2 ^ 28 }.

(** The launch: every core but the last takes the same number of rows. *)
Record launch_of (la : NgramLaunch) (p : PlatformInfo) (B M T V a b k : Z) : Prop := {
  la_dim : nl_blockDim la = Z.min B (GetCoreNumAiv p);
  la_params : ni_batchSize (nl_info la) = B /\ ni_maxSeqLen (nl_info la) = M /\ ni_maxNewTokens (nl_info la) = T /\
    ni_vocabSize (nl_info la) = V /\ ni_minN (nl_info la) = a /\ ni_maxN (nl_info la) = b /\ ni_k (nl_info la) = k;
  la_former : ni_formerNum (nl_info la) = nl_blockDim la - 1;
  la_per : ni_rowsPerCore (nl_info la) = B / nl_blockDim la;
  la_tail : ni_tailRows (nl_info la) = B - (nl_blockDim la - 1) * (B / nl_blockDim la);
  la_rows : 0 < ni_blockRows (nl_info la) < 2 ^ 28 /\ ni_blockRows (nl_info la) * (align8 M + align8 T + align8 k) < 2 ^ 29 }.

(** The number of rows that fit. *)
Lemma rows_fit avail w r : 0 < w < 2 ^ 29 -> avail < 2 ^ 31 -> 0 < r -> 8 <= w ->
  r <= Z.max (if avail >? 0 then avail /c (w * 4) else 1) 1 -> r < 2 ^ 28 /\ r * w < 2 ^ 29.
Proof.
  intros Hw Ha Hr H8 Hle. destruct (avail >? 0) eqn:E; bool_prop; [|replace r with 1 by lia; lia].
  rewrite quot_nonneg_div in Hle by lia. pose proof (Z.mul_div_le avail (w * 4) ltac:(lia)).
  destruct (decide (r = 1)) as [->|]; [lia|]. assert (r <= avail / (w * 4)) by lia. assert (r * w * 4 <= avail) by nia. split; nia.
Qed.

Lemma ngram_tiling_spec context p B M T V a b k :
  ngram_context context p B M T V a b k -> exists la, NgramSpecDecodeTilingFunc context = Ok la /\ launch_of la p B M T V a b k.
Proof.
  intros [[D1 D2] (A1 & A2 & A3 & A4) X1 X2 (P1 & P2 & P3) (R1 & R2 & R3 & R4 & R5 & R6 & R7 & R8)]. unfold NgramSpecDecodeTilingFunc.
  rewrite OP_CHECK_IF_pass, OP_CHECK_IF_pass by (by rewrite ?D1, ?D2).
  rewrite (OP_CHECK_NULL_pass _ _ V), (OP_CHECK_NULL_pass _ _ a), (OP_CHECK_NULL_pass _ _ b), (OP_CHECK_NULL_pass _ _ k),
    (OP_CHECK_NULL_pass _ _ [B; M]), (OP_CHECK_NULL_pass _ _ [B; T]) by done.
  rewrite P1. cbn [deref]. rewrite bind_Ok. cbv zeta.
  change (GetDim [B; M] 0) with B. change (GetDim [B; M] 1) with M. change (GetDim [B; T] 1) with T. unfold NGRAM_ELEM_SIZE.
  pose proof (align8_bounds M ltac:(lia)) as [W1 W4]. pose proof (align8_bounds T ltac:(lia)) as [W2 _]. pose proof (align8_bounds k ltac:(lia)) as [W3 _].
  set (w := align8 M + align8 T + align8 k) in *. assert (8 <= w < 2 ^ 29) as Hw by (clear - R2 W1 W2 W3 W4 R3 R4 R5 w; subst w; zlia).
  set (avail := GetCoreMemSizeUB p - (4 * 32 + b * 4 + (align8 M + 7) /c 8)).
  assert (avail < 2 ^ 31) as Hav by (subst avail; rewrite quot_nonneg_div by lia; clear - P3 R8 W1 R2; zlia). clearbody avail.
  assert ((if avail >? 0 then c_quot avail (w * 4) else Ok 1) = Ok (if avail >? 0 then avail /c (w * 4) else 1)) as ->.
  { destruct (avail >? 0); [|done]. apply c_quot_pass. lia. }
  rewrite bind_Ok. set (d := Z.min B (GetCoreNumAiv p)). assert (0 < d <= B) as Hd by (subst d; lia).
  rewrite !(proj2 (Z.gtb_lt d 0)) by lia. rewrite (quot_nonneg_div B d) by lia.
  assert (1 <= B / d <= B) as Hper by (split; [apply Z.div_le_lower_bound; lia|apply Z.div_le_upper_bound; nia]).
  pose proof (Z.mul_div_le B d ltac:(lia)) as Hmul. assert (0 <= (d - 1) * (B / d)) by nia.
  set (per := B / d) in *. set (r := Z.min per _). assert (0 < r) by lia.
  destruct (rows_fit avail w r ltac:(lia) Hav ltac:(lia) ltac:(lia) ltac:(subst r; lia)) as [Hr1 Hr2]. clearbody r.
  assert (fits_u32 ((d - 1) * per) /\ 0 <= B - (d - 1) * per) as [_ Htail] by (unfold fits_u32; lia).
  eexists. split; [reflexivity|]. unwrap. by split.
Qed.

(** ** The call *)

Section Call.
Variables (numTokens sampled discard : tensor Z).

(** Core [i] of a launch. *)
Definition ngram_core (la : NgramLaunch) (i : Z) : NEnv :=
  {| numTokensGm := numTokens; sampledGm := sampled; discardGm := discard; n_info := nl_info la; nBlockIdx := i |}.

(** All cores of a launch, in some order, on a device with [ub] bytes of unified buffer per core. *)
Definition ngram_launch (ub : Z) (la : NgramLaunch) (junk : Z -> NBuf -> Z -> Z) (order : list Z) (g : NGm -> tensor Z) :
    outcome fault_kind (NGm -> tensor Z) :=
  run_blocks (fun i => ngram_spec_decode (ngram_core la i) ub (junk i)) order g.

Variables (la : NgramLaunch) (p : PlatformInfo) (B M T V a b k : Z).
Context (Hla : launch_of la p B M T V a b k).
Context (Haiv : 0 < GetCoreNumAiv p < 2 ^ 31).
Context (Hrange : 0 < B < 2 ^ 31 /\ 0 < M /\ 0 <= T /\ 0 <= k /\ M + T + k < 2 ^ 28 /\ 0 <= V < 2 ^ 31 /\ 1 <= a < 2 ^ 28 /\ 1 <= b < 2 ^ 28).
Abbreviation d := (nl_blockDim la).
Abbreviation per := (B / nl_blockDim la).

Lemma dims : 0 < d <= B /\ 1 <= per /\ d * per <= B.
Proof.
  rewrite (la_dim _ _ _ _ _ _ _ _ _ Hla). split; [lia|]. split; [apply Z.div_le_lower_bound; lia|]. apply Z.mul_div_le. lia.
Qed.

Lemma core_env i : ngram_env (ngram_core la i).
Proof.
  destruct (la_params _ _ _ _ _ _ _ _ _ Hla) as (E1 & E2 & E3 & E4 & E5 & E6 & E7). pose proof (la_rows _ _ _ _ _ _ _ _ _ Hla).
  split; cbn [ngram_core n_info]; rewrite ?E2, ?E3, ?E4, ?E5, ?E6, ?E7; done || lia.
Qed.

(** The rows of core [i]. *)
Definition first_row (i : Z) : Z := i * per.
Definition row_share (i : Z) : Z := if i <? d - 1 then per else B - (d - 1) * per.
Definition row_owner (q : Z) : Z := Z.min (q / per) (d - 1).

Lemma core_share i : 0 <= i < d -> row_offset (ngram_core la i) = first_row i /\ my_rows (ngram_core la i) = row_share i /\
  0 <= first_row i /\ 0 <= row_share i /\ first_row i + row_share i <= B.
Proof.
  intros Hi. pose proof dims. pose proof (la_former _ _ _ _ _ _ _ _ _ Hla) as E1. pose proof (la_per _ _ _ _ _ _ _ _ _ Hla) as E2.
  pose proof (la_tail _ _ _ _ _ _ _ _ _ Hla) as E3. assert (0 <= i * per /\ (d - 1) * per <= B /\ 0 <= (d - 1) * per) by nia.
  unfold row_offset, my_rows, former_num, rows_per_core, tail_rows, first_row, row_share. cbn [ngram_core n_info nBlockIdx]. rewrite E1, E2, E3.
  rewrite !(i32_id (d - 1)), !(i32_id per), !(i32_id (B - _)), !(u32_id (d - 1)), !(u32_id per), !(u32_id (B - _)) by (unfold fits_i32, fits_u32; nia).
  destruct (i <? d - 1) eqn:E; bool_prop.
  - assert ((i + 1) * per <= (d - 1) * per) by (apply Z.mul_le_mono_nonneg_r; lia).
    rewrite (u32_id (per * i)) by (unfold fits_u32; nia). split; [lia|]. split; [done|]. lia.
  - replace i with (d - 1) in * by lia. rewrite (u32_id (per * (d - 1))) by (unfold fits_u32; nia). split; [lia|]. split; [done|]. lia.
Qed.

Lemma owner_spec q i : 0 <= q < B -> 0 <= i < d -> (first_row i <= q < first_row i + row_share i <-> row_owner q = i).
Proof.
  intros Hq Hi. pose proof dims. unfold first_row, row_share, row_owner. pose proof (Z.div_mod q per ltac:(lia)). pose proof (Z.mod_pos_bound q per ltac:(lia)).
  destruct (i <? d - 1) eqn:E; bool_prop; split; intros Hx.
  - assert (q / per = i) by nia. lia.
  - assert (q / per = i) as Hqi by lia. rewrite <- Hqi. nia.
  - replace i with (d - 1) in * by lia. assert (d - 1 <= q / per) by (apply Z.div_le_lower_bound; lia). lia.
  - replace i with (d - 1) in * by lia. assert (d - 1 <= q / per) by lia. nia.
Qed.

Lemma owner_bound q : 0 <= q < B -> 0 <= row_owner q < d.
Proof. intros Hq. pose proof dims. unfold row_owner. pose proof (Z.div_pos q per ltac:(lia) ltac:(lia)). lia. Qed.

Abbreviation e0 := (ngram_core la 0).

Lemma launch_full ub junk order g0 : ub < ub_bytes e0 -> order ≡ₚ zrange 0 d -> ngram_launch ub la junk order g0 = Err UbExhausted.
Proof.
  intros Hub Hord. pose proof dims. destruct order as [|i order].
  - assert (0 ∈ zrange 0 d) as Hin by (apply elem_of_zrange; lia). rewrite <- Hord in Hin. by apply elem_of_nil in Hin.
  - unfold ngram_launch. cbn [run_blocks]. unfold ngram_spec_decode. rewrite InitBuffers_full; [done|exact Hub].
Qed.

Lemma launch_runs ub junk order g0 : ub_bytes e0 <= ub ->
  order ≡ₚ zrange 0 d -> ngram_input e0 -> gm_sized e0 g0 -> paths_ok e0 g0 ->
  exists g, ngram_launch ub la junk order g0 = Ok g /\ gm_sized e0 g /\ forall q, 0 <= q < B -> row_written e0 g (nrow_of e0 g0 q) q.
Proof.
  intros Hub Hord Hin Hg Hok. pose proof (proj1 (la_params _ _ _ _ _ _ _ _ _ Hla)) as EB.
  set (I := fun (D : Z -> Prop) (g : NGm -> tensor Z) => gm_sized e0 g /\ forall q, 0 <= q < B ->
    (D (row_owner q) -> row_written e0 g (nrow_of e0 g0 q) q) /\ (~ D (row_owner q) -> holds e0 g tokenGm q (r_tok (nrow_of e0 g0 q)))).
  destruct (run_blocks_once (fun i => ngram_spec_decode (ngram_core la i) ub (junk i)) I order) with (D := fun _ : Z => False) (g := g0)
    as (g & Hrun & Hg' & Hall).
  - rewrite Hord. apply NoDup_zrange.
  - intros D i g Hi HD [HgI HI]. rewrite Hord, elem_of_zrange in Hi. destruct (core_share i Hi) as (S1 & S2 & S3).
    destruct (core_spec (ngram_core la i) (core_env i)) with (g0 := g0) (ro := first_row i) (mr := row_share i) (ub := ub) (junk := junk i) (g := g)
      as (g' & Hrun & F & W); [destruct Hin; by split|exact Hok|done|done|cbn; rewrite EB; lia|exact Hub|exact HgI| |].
    { intros q Hq. assert (0 <= q < B) as Hqb by lia. apply (HI q Hqb). by rewrite (proj1 (owner_spec q i Hqb Hi) Hq). }
    exists g'. split; [done|]. split; [exact (gm_frame_sized _ _ _ _ _ F HgI)|]. intros q Hq. destruct (HI q Hq) as [H1 H2].
    destruct (decide (row_owner q = i)) as [Hown|Hne].
    + split; [|intros Hx; destruct Hx; by right]. intros _. apply W. by apply owner_spec.
    + assert (q < first_row i \/ first_row i + row_share i <= q) as Hout.
      { destruct (decide (first_row i <= q < first_row i + row_share i)) as [Hx|]; [|lia]. by apply owner_spec in Hx. }
      split; [intros [Hd|]; [|done]|intros Hd].
      * intros o. exact (holds_frame _ (core_env i) _ _ _ _ _ _ _ F Hout (H1 Hd o)).
      * refine (holds_frame _ (core_env i) _ _ _ _ tokenGm q (r_tok (nrow_of e0 g0 q)) F Hout (H2 _)). intros Hx. apply Hd. by left.
  - intros D D' g HDD [HgI HI]. split; [done|]. intros q Hq. destruct (HI q Hq) as [H1 H2]. rewrite <- HDD. done.
  - set_solver.
  - split; [done|]. intros q Hq. split; [done|]. intros _ j Hj. done.
  - exists g. split; [done|]. split; [done|]. intros q Hq. apply (Hall q Hq). right. rewrite Hord, elem_of_zrange. by apply owner_bound.
Qed.
End Call.
