(* ===== verification/NgramClaims.v ===== *)
(** NgramSpecDecode: what a call guarantees. *)

From stdpp Require Import gmap.
From S2P Require Import Prelude AscendC TilingContext Ngram NgramSpec NgramRow NgramSearch NgramSmall NgramBlock NgramLong NgramGrid.

(** What the caller passes to a launch: inputs and outputs of the right size, and
    row lengths within the rows. *)
Record ngram_call (la : NgramLaunch) (numTokens sampled discard : tensor Z) (g0 : NGm -> tensor Z) : Prop := {
  nk_input : ngram_input (ngram_core numTokens sampled discard la 0);
  nk_sized : gm_sized (ngram_core numTokens sampled discard la 0) g0 }.

Section Call.
Variables (context : TilingContext) (p : PlatformInfo) (B M T V a b k : Z) (ub : Z).
Variables (numTokens sampled discard : tensor Z) (junk : Z -> NBuf -> Z -> Z) (order : list Z) (g0 : NGm -> tensor Z).

(** The rows that every run of an accepted call leaves. *)
Lemma call_runs : ngram_context context p B M T V a b k ->
  exists la, NgramSpecDecodeTilingFunc context = Ok la /\ launch_of la p B M T V a b k /\
  (order ≡ₚ zrange 0 (nl_blockDim la) -> ngram_call la numTokens sampled discard g0 ->
   paths_ok (ngram_core numTokens sampled discard la 0) g0 -> ub_bytes (ngram_core numTokens sampled discard la 0) <= ub ->
   exists g, ngram_launch numTokens sampled discard ub la junk order g0 = Ok g /\ gm_sized (ngram_core numTokens sampled discard la 0) g /\
     forall q, 0 <= q < B -> row_written (ngram_core numTokens sampled discard la 0) g
       (nrow_of (ngram_core numTokens sampled discard la 0) g0 q) q).
Proof.
  intros Hx. destruct (ngram_tiling_spec _ _ _ _ _ _ _ _ _ Hx) as (la & Hrun & Hla). exists la. split; [done|]. split; [done|].
  intros Hord [K1 K2] K3 Hub. destruct Hx as [_ _ _ _ (_ & X1 & _) X2].
  by apply (launch_runs numTokens sampled discard la p B M T V a b k Hla X1 X2).
Qed.

(** Without room for the buffers the launch faults. *)
Lemma call_full la : ngram_context context p B M T V a b k -> NgramSpecDecodeTilingFunc context = Ok la ->
  order ≡ₚ zrange 0 (nl_blockDim la) -> ub < ub_bytes (ngram_core numTokens sampled discard la 0) ->
  ngram_launch numTokens sampled discard ub la junk order g0 = Err UbExhausted.
Proof.
  intros Hx Hti Hord Hub. destruct (ngram_tiling_spec _ _ _ _ _ _ _ _ _ Hx) as (la' & Hrun & Hla). assert (la' = la) as -> by congruence.
  destruct Hx as [_ _ _ _ (_ & X1 & _) X2]. by apply (launch_full numTokens sampled discard la p B M T V a b k Hla X1 X2).
Qed.

(** The buffers fit when a launch completes. *)
Lemma call_fits la g : ngram_context context p B M T V a b k -> NgramSpecDecodeTilingFunc context = Ok la ->
  order ≡ₚ zrange 0 (nl_blockDim la) -> ngram_launch numTokens sampled discard ub la junk order g0 = Ok g ->
  ub_bytes (ngram_core numTokens sampled discard la 0) <= ub.
Proof. intros Hx Hti Hord Hg. apply Z.nlt_ge. intros Hub. by rewrite (call_full la Hx Hti Hord Hub) in Hg. Qed.

(** The same for a given launch and outcome, output by output. *)
Lemma call_rows la g q : ngram_context context p B M T V a b k -> NgramSpecDecodeTilingFunc context = Ok la ->
  order ≡ₚ zrange 0 (nl_blockDim la) -> ngram_call la numTokens sampled discard g0 ->
  paths_ok (ngram_core numTokens sampled discard la 0) g0 ->
  ngram_launch numTokens sampled discard ub la junk order g0 = Ok g -> 0 <= q < B ->
  let e := ngram_core numTokens sampled discard la 0 in
  let r := nrow_of e g0 q in
  (forall i, 0 <= i < M -> t_at (g tokenGm) (q * M + i) = row_tok (nl_info la) r i) /\
  t_at (g nextTokensGm) q = row_next (nl_info la) r /\
  (forall j, 0 <= j < k -> t_at (g draftTokensGm) (q * k + j) = draft (nl_info la) r (row_best e r) j) /\
  t_at (g numValidGm) q = draft_count (nl_info la) r (row_best e r).
Proof.
  intros Hx Hti Hord Hcall Hp Hg Hq e r. pose proof (call_fits la g Hx Hti Hord Hg) as Hub.
  destruct (call_runs Hx) as (la' & Hrun' & Hla & Hall).
  assert (la' = la) as -> by congruence. destruct (Hall Hord Hcall Hp Hub) as (g' & Hg' & _ & Hw). assert (g' = g) as -> by congruence.
  destruct (la_params _ _ _ _ _ _ _ _ _ Hla) as (_ & EM & _ & _ & _ & _ & Ek). specialize (Hw q Hq).
  pose proof (Hw tokenGm) as W1. pose proof (Hw nextTokensGm 0 ltac:(cbn; lia)) as W2. pose proof (Hw draftTokensGm) as W3.
  pose proof (Hw numValidGm 0 ltac:(cbn; lia)) as W4. unfold holds in W1, W3. cbn in W1, W2, W3, W4. rewrite EM in W1. rewrite Ek in W3.
  rewrite Z.mul_1_r, Z.add_0_r in W2, W4. done.
Qed.
End Call.


(** C16.  Drafts are sound.  For rows that the searches handle ([paths_ok], which the
    host does not check; [stale_mask_drafts] is a call outside it with an unsound
    draft) and whichever search a row went through, a draft of a completed launch
    that is not empty continues an earlier occurrence of the last [n] tokens of the
    row, for a length [n] the caller asked for: its tokens are tokens of the row,
    none of them is -1, and they end within the row. *)
Theorem ngram_drafts_sound (context : TilingContext) (p : PlatformInfo) (B M T V a b k : Z) (la : NgramLaunch) (ub : Z)
    (numTokens sampled discard : tensor Z) (junk : Z -> NBuf -> Z -> Z) (order : list Z) (g0 g : NGm -> tensor Z) (q : Z) :
  ngram_context context p B M T V a b k -> NgramSpecDecodeTilingFunc context = Ok la ->
  order ≡ₚ zrange 0 (nl_blockDim la) -> ngram_call la numTokens sampled discard g0 ->
  paths_ok (ngram_core numTokens sampled discard la 0) g0 ->
  ngram_launch numTokens sampled discard ub la junk order g0 = Ok g -> 0 <= q < B ->
  let nt := row_total (nl_info la) (nrow_of (ngram_core numTokens sampled discard la 0) g0 q) in
  let tok i := t_at (g tokenGm) (q * M + i) in
  let count := t_at (g numValidGm) q in
  0 < count ->
  exists n pos, a <= n <= b /\ 0 <= pos /\ pos + n + count <= nt <= M /\
    (forall s, 0 <= s < n -> tok (pos + s) = tok (nt - n + s)) /\
    forall j, 0 <= j < count -> j < k /\ t_at (g draftTokensGm) (q * k + j) = tok (pos + n + j) /\ tok (pos + n + j) <> -1.
Proof.
  intros Hx Hti Hord Hcall Hp Hg Hq nt tok count Hc. set (e := ngram_core numTokens sampled discard la 0) in *.
  destruct (call_rows context p B M T V a b k ub numTokens sampled discard junk order g0 la g q Hx Hti Hord Hcall Hp Hg Hq) as (W1 & _ & W3 & W4).
  fold e in W1, W3, W4. set (r := nrow_of e g0 q) in *. destruct (ngram_tiling_spec _ _ _ _ _ _ _ _ _ Hx) as (la' & Hti' & Hla).
  assert (la' = la) as -> by congruence. destruct (la_params _ _ _ _ _ _ _ _ _ Hla) as (EB & EM & ET & _ & Ea & Eb & Ek).
  destruct (nc_range _ _ _ _ _ _ _ _ _ Hx) as (_ & R2 & R3 & _ & _ & _ & R7 & _).
  subst count. rewrite W4 in Hc |- *. destruct (draft_sound (nl_info la) r (row_best e r) (row_best_found e r) Hc) as (n & pos & H1 & H2 & H3 & H4 & H5).
  assert (nt <= M) as Hnt.
  { subst nt. destruct (row_total_bound (nl_info la) r) as [_ Hb]; [|lia|lia]. rewrite EM. pose proof (ng_len e (nk_input _ _ _ _ _ Hcall) q) as Hlen.
    cbn in Hlen. rewrite EM in Hlen. apply Hlen. lia. }
  rewrite Ea, Eb in H1. exists n, pos. split; [done|]. split; [done|]. split; [done|]. split.
  - intros s Hs. unfold tok. rewrite !W1 by (unfold nt; fold r; lia). rewrite occurs_spec in H4. by apply H4.
  - intros j Hj. destruct (draft_count_spec (nl_info la) r (row_best e r) j Hj) as [Hjk Hne]. rewrite Ek in Hjk. split; [done|].
    unfold tok. rewrite W1, W3 by (fold r in H3; lia). rewrite <- H5 by done. done.
Qed.

(** C22.  Agreement with the golden reference of the repository, which takes the first
    occurrence of the shortest n-gram that occurs.  In a launch that completes, for
    rows that the searches handle ([paths_ok], which the host does not check), every
    row longer than [SAFE_CHUNK] tokens gets the draft of the reference and its
    length; so does every other row in which at most one of the lengths asked for
    occurs, in particular when a single length is asked for.  The restriction is
    needed: where several lengths occur in such a row the kernel prefers a longer
    n-gram and deviates from the reference ([longer_ngram_wins]). *)
Theorem ngram_drafts_reference (context : TilingContext) (p : PlatformInfo) (B M T V a b k : Z) (la : NgramLaunch) (ub : Z)
    (numTokens sampled discard : tensor Z) (junk : Z -> NBuf -> Z -> Z) (order : list Z) (g0 g : NGm -> tensor Z) (q : Z) :
  ngram_context context p B M T V a b k -> NgramSpecDecodeTilingFunc context = Ok la ->
  order ≡ₚ zrange 0 (nl_blockDim la) -> ngram_call la numTokens sampled discard g0 ->
  paths_ok (ngram_core numTokens sampled discard la 0) g0 ->
  ngram_launch numTokens sampled discard ub la junk order g0 = Ok g -> 0 <= q < B ->
  let c := nl_info la in
  let r := nrow_of (ngram_core numTokens sampled discard la 0) g0 q in
  SAFE_CHUNK < align8 M \/ one_occurs c r ->
  (forall j, 0 <= j < k -> t_at (g draftTokensGm) (q * k + j) = draft c r (search c r (shortest_step c r)) j) /\
  t_at (g numValidGm) q = draft_count c r (search c r (shortest_step c r)).
Proof.
  intros Hx Hti Hord Hcall Hp Hg Hq c r Hor. subst c. set (e := ngram_core numTokens sampled discard la 0) in *.
  destruct (call_rows context p B M T V a b k ub numTokens sampled discard junk order g0 la g q Hx Hti Hord Hcall Hp Hg Hq) as (_ & _ & W3 & W4).
  fold e in W3, W4. destruct (ngram_tiling_spec _ _ _ _ _ _ _ _ _ Hx) as (la' & Hti' & Hla).
  assert (la' = la) as -> by congruence. destruct (la_params _ _ _ _ _ _ _ _ _ Hla) as (EB & EM & ET & _ & Ea & Eb & Ek).
  pose proof (core_env numTokens sampled discard la p B M T V a b k Hla (nc_range _ _ _ _ _ _ _ _ _ Hx) 0) as He. fold e in He.
  assert (is_large_row e = (align8 M >? SAFE_CHUNK)) as Hlg by (unfold is_large_row; rewrite (m_msa e He); cbn; by rewrite EM).
  assert (row_best e r = search (nl_info la) r (shortest_step (nl_info la) r)) as <-; [|done].
  unfold row_best, row_step. rewrite Hlg. cbn [e ngram_core n_info].
  destruct Hor as [Hl|H1]; [by rewrite (proj2 (Z.gtb_lt _ _)) by lia|]. destruct (one_search _ _ H1) as [H2 H3].
  destruct (_ >? _); [done|]. by destruct (_ <=? 1); rewrite ?H2, ?H3.
Qed.

(** ** A concrete call: two rows on one core *)

Definition ngram_platform : PlatformInfo := Build_PlatformInfo 1 1 196608.

Definition ngram_context_example (B M T a b k : Z) : TilingContext :=
  {| GetPlatformInfoPtr := Some ngram_platform;
     GetInputShape := fun i => if i =? INPUT_SAMPLED_INDEX then Some [B; T] else Some [B; M];
     GetOptionalInputShape := fun _ => None;
     GetOutputShape := fun _ => None;
     GetInputDesc := fun _ => Some DT_INT32;
     GetOptionalInputDesc := fun _ => None;
     GetOutputDesc := fun _ => Some DT_INT32;
     GetOptionalInputTensor := fun _ => None;
     HasAttrs := true; GetAttrInt := fun i => nth (Z.to_nat i) [Some 100; Some a; Some b; Some k] None;
     HasTilingData := true; HasWorkspaceSizes := true; SetScheduleModeOk := true |}.

Definition cells (n : Z) (l : list Z) : tensor Z := Tensor n (fun i => nth (Z.to_nat i) l 0).

(** Row 0 is 5 6 7 5 and samples 6; row 1 is 9 8 and its samples are discarded. *)
Definition ngram_tokens : list Z := [5; 6; 7; 5; 0; 0; 0; 0;  9; 8; 0; 0; 0; 0; 0; 0].
Definition ngram_gm (B M k : Z) (l : list Z) (o : NGm) : tensor Z :=
  match o with tokenGm => cells (B * M) l | draftTokensGm => cells (B * k) [] | _ => cells B [] end.

Definition ngram_launch_example (a b : Z) : NgramLaunch :=
  {| nl_info := {| ni_batchSize := 2; ni_maxSeqLen := 8; ni_maxNewTokens := 2; ni_vocabSize := 100; ni_minN := a; ni_maxN := b; ni_k := 3;
                   ni_formerNum := 0; ni_rowsPerCore := 2; ni_tailRows := 2; ni_blockRows := 2 |}; nl_blockDim := 1 |}.

Lemma ngram_context_ok a b : 1 <= a < 2 ^ 28 -> 1 <= b < 2 ^ 28 ->
  ngram_context (ngram_context_example 2 8 2 a b 3) ngram_platform 2 8 2 100 a b 3.
Proof. intros Ha Hb. by split. Qed.

Lemma ngram_call_example (a b : Z) :
  ngram_call (ngram_launch_example a b) (cells 2 [4; 2]) (cells 4 [6; -1; 3; 3]) (cells 2 [0; 1]) (ngram_gm 2 8 3 ngram_tokens).
Proof.
  split.
  - split; [done|done|]. cbn. intros q Hq. assert (q = 0 \/ q = 1) as [-> | ->] by lia; split; discriminate.
  - intros []; done.
Qed.

Lemma ngram_paths_example (a b : Z) :
  paths_ok (ngram_core (cells 2 [4; 2]) (cells 4 [6; -1; 3; 3]) (cells 2 [0; 1]) (ngram_launch_example a b) 0) (ngram_gm 2 8 3 ngram_tokens).
Proof. intros q Hq. unfold path_ok. change (is_large_row _) with false. cbn. lia. Qed.


Lemma ngram_example_runs (a b : Z) : 1 <= a < 2 ^ 28 -> 1 <= b < 2 ^ 28 ->
  NgramSpecDecodeTilingFunc (ngram_context_example 2 8 2 a b 3) = Ok (ngram_launch_example a b) ->
  ub_bytes (ngram_core (cells 2 [4; 2]) (cells 4 [6; -1; 3; 3]) (cells 2 [0; 1]) (ngram_launch_example a b) 0) <= 196608 ->
  exists g, ngram_launch (cells 2 [4; 2]) (cells 4 [6; -1; 3; 3]) (cells 2 [0; 1]) 196608 (ngram_launch_example a b) (fun _ _ _ => 7) [0]
      (ngram_gm 2 8 3 ngram_tokens) = Ok g /\ t_at (g numValidGm) 0 = draft_count (nl_info (ngram_launch_example a b))
        (nrow_of (ngram_core (cells 2 [4; 2]) (cells 4 [6; -1; 3; 3]) (cells 2 [0; 1]) (ngram_launch_example a b) 0) (ngram_gm 2 8 3 ngram_tokens) 0)
        (row_best (ngram_core (cells 2 [4; 2]) (cells 4 [6; -1; 3; 3]) (cells 2 [0; 1]) (ngram_launch_example a b) 0)
          (nrow_of (ngram_core (cells 2 [4; 2]) (cells 4 [6; -1; 3; 3]) (cells 2 [0; 1]) (ngram_launch_example a b) 0) (ngram_gm 2 8 3 ngram_tokens) 0)).
Proof.
  intros Ha Hb Hti Hub. pose proof (ngram_context_ok a b Ha Hb) as Hx.
  destruct (call_runs _ _ _ _ _ _ _ _ _ 196608 (cells 2 [4; 2]) (cells 4 [6; -1; 3; 3]) (cells 2 [0; 1]) (fun _ _ _ => 7) [0] (ngram_gm 2 8 3 ngram_tokens) Hx)
    as (la & Hla & _ & Hall). assert (la = ngram_launch_example a b) as -> by congruence.
  destruct (Hall ltac:(reflexivity) (ngram_call_example a b) (ngram_paths_example a b) Hub) as (g & Hg & _). exists g. split; [exact Hg|].
  eapply call_rows; [exact Hx|exact Hti|reflexivity|apply ngram_call_example|apply ngram_paths_example|exact Hg|lia].
Qed.

(** The draft 7 5 6 of row 0 follows the occurrence of 5 6. *)
Lemma ngram_drafts_sound_witness :
  exists g, ngram_launch (cells 2 [4; 2]) (cells 4 [6; -1; 3; 3]) (cells 2 [0; 1]) 196608 (ngram_launch_example 1 2) (fun _ _ _ => 7) [0]
      (ngram_gm 2 8 3 ngram_tokens) = Ok g /\
    exists n pos, 1 <= n <= 2 /\ 0 <= pos /\ t_at (g draftTokensGm) 0 = t_at (g tokenGm) (pos + n).
Proof.
  assert (NgramSpecDecodeTilingFunc (ngram_context_example 2 8 2 1 2 3) = Ok (ngram_launch_example 1 2)) as Hti by (vm_compute; reflexivity).
  destruct (ngram_example_runs 1 2 ltac:(lia) ltac:(lia) Hti ltac:(vm_compute; discriminate)) as (g & Hg & Hc). exists g. split; [exact Hg|].
  destruct (ngram_drafts_sound (ngram_context_example 2 8 2 1 2 3) ngram_platform 2 8 2 100 1 2 3 (ngram_launch_example 1 2) 196608
    (cells 2 [4; 2]) (cells 4 [6; -1; 3; 3]) (cells 2 [0; 1]) (fun _ _ _ => 7) [0] (ngram_gm 2 8 3 ngram_tokens) g 0)
    as (n & pos & H1 & H2 & _ & _ & H3).
  - apply ngram_context_ok; lia.
  - exact Hti.
  - reflexivity.
  - apply ngram_call_example.
  - apply ngram_paths_example.
  - exact Hg.
  - lia.
  - rewrite Hc. vm_compute. reflexivity.
  - exists n, pos. split; [exact H1|]. split; [exact H2|]. destruct (H3 0) as (_ & H4 & _); [rewrite Hc; vm_compute; split; [discriminate|reflexivity]|].
    rewrite !Z.add_0_r, !Z.mul_0_l, Z.add_0_l in H4. exact H4.
Defined.

(** With lengths from 2 to 3 only the 2-gram 5 6 occurs. *)
Lemma ngram_drafts_reference_witness :
  exists g, ngram_launch (cells 2 [4; 2]) (cells 4 [6; -1; 3; 3]) (cells 2 [0; 1]) 196608 (ngram_launch_example 2 3) (fun _ _ _ => 7) [0]
      (ngram_gm 2 8 3 ngram_tokens) = Ok g /\ t_at (g draftTokensGm) 1 = 5 /\ t_at (g numValidGm) 0 = 3.
Proof.
  assert (NgramSpecDecodeTilingFunc (ngram_context_example 2 8 2 2 3 3) = Ok (ngram_launch_example 2 3)) as Hti by (vm_compute; reflexivity).
  destruct (ngram_example_runs 2 3 ltac:(lia) ltac:(lia) Hti ltac:(vm_compute; discriminate)) as (g & Hg & _). exists g. split; [exact Hg|].
  destruct (ngram_drafts_reference (ngram_context_example 2 8 2 2 3 3) ngram_platform 2 8 2 100 2 3 3 (ngram_launch_example 2 3) 196608
    (cells 2 [4; 2]) (cells 4 [6; -1; 3; 3]) (cells 2 [0; 1]) (fun _ _ _ => 7) [0] (ngram_gm 2 8 3 ngram_tokens) g 0) as [H1 H2].
  - apply ngram_context_ok; lia.
  - exact Hti.
  - reflexivity.
  - apply ngram_call_example.
  - apply ngram_paths_example.
  - exact Hg.
  - lia.
  - right. intros m n Hm Hn Fm Fn. cbn in Hm, Hn. assert (m = 2 \/ m = 3) as [-> | ->] by lia; assert (n = 2 \/ n = 3) as [-> | ->] by lia.
    all: first [reflexivity|exfalso; apply Fm; vm_compute; reflexivity|exfalso; apply Fn; vm_compute; reflexivity].
  - split; [exact (H1 1 ltac:(lia))|exact H2].
Defined.

(** ** Where the paths differ from the reference *)

(** What a run leaves in an output. *)
Definition after (o : NGm) (i : Z) (m : outcome fault_kind (NGm -> tensor Z)) : option Z :=
  match m with Ok g => Some (t_at (g o) i) | Err _ => None end.

Definition differ_row : list Z := [2; 7; 1; 2; 9; 1; 0; 0].

Definition differ_run (blockRows : Z) : outcome fault_kind (NGm -> tensor Z) :=
  ngram_launch (cells 1 [6]) (cells 1 [2]) (cells 1 [0]) 196608
    {| nl_info := {| ni_batchSize := 1; ni_maxSeqLen := 8; ni_maxNewTokens := 1; ni_vocabSize := 100; ni_minN := 1; ni_maxN := 2; ni_k := 1;
                     ni_formerNum := 0; ni_rowsPerCore := 1; ni_tailRows := 1; ni_blockRows := blockRows |}; nl_blockDim := 1 |}
    (fun _ _ _ => 0) [0] (ngram_gm 1 8 1 differ_row).

(** The row 2 7 1 2 9 1 2 with lengths 1 and 2: the reference drafts 7, which
    follows the first 2; the kernel drafts 9, which follows 1 2. *)
Example longer_ngram_wins : after draftTokensGm 0 (differ_run 1) = Some 9 /\ after draftTokensGm 0 (differ_run 2) = Some 9.
Proof. vm_compute. split; reflexivity. Qed.

(** A row of 72 tokens, not a multiple of 64, compared alone on its core: positions
    from 64 on are tested against whatever the mask buffer held.  The last token
    occurs only once, and a draft appears when the stale mask has ones. *)
Definition stale_row : list Z := map Z.of_nat (seq 1 70).
Definition stale_run (mask : Z) : outcome fault_kind (NGm -> tensor Z) :=
  ngram_launch (cells 1 [70]) (cells 1 [99]) (cells 1 [0]) 196608
    {| nl_info := {| ni_batchSize := 1; ni_maxSeqLen := 72; ni_maxNewTokens := 1; ni_vocabSize := 100; ni_minN := 1; ni_maxN := 1; ni_k := 1;
                     ni_formerNum := 0; ni_rowsPerCore := 1; ni_tailRows := 1; ni_blockRows := 1 |}; nl_blockDim := 1 |}
    (fun _ _ _ => mask) [0] (ngram_gm 1 72 1 stale_row).

Example stale_mask_drafts : after numValidGm 0 (stale_run 0) = Some 0 /\ after numValidGm 0 (stale_run 255) = Some 1.
Proof. vm_compute. split; reflexivity. Qed.

(** The rows per block are chosen without counting all of the mask buffer and the
    four buffers with one element per row: with rows of 8 tokens the buffers need
    more than the unified buffer has, and the first core stops. *)
Example buffers_exceed_ub :
  match NgramSpecDecodeTilingFunc (ngram_context_example 4096 8 1 1 2 8) with
  | Ok la => GetCoreMemSizeUB ngram_platform < ub_bytes (ngram_core (cells 4096 []) (cells 4096 []) (cells 4096 []) la 0) /\
      ngram_launch (cells 4096 []) (cells 4096 []) (cells 4096 []) (GetCoreMemSizeUB ngram_platform) la (fun _ _ _ => 0) [0]
        (ngram_gm 4096 8 8 []) = Err UbExhausted
  | Err _ => False
  end.
Proof. vm_compute. split; reflexivity. Qed.
