(* ===== verification/Aicpu.v ===== *)
(** The surroundings of the AICPU kernels (host-side C++ classes that derive from
    [CpuKernel]): 64-bit signed arithmetic, [std::vector] access, [while] loops
    with an explicit bound, and the kernel context with the attribute accessors
    of [common/aicpu/cpu_context_util.h].

    A kernel runs in the monad [HM S]: its mutable members are the state [S], a
    fault (an index outside a vector or a tensor, a division by zero, a loop that
    exceeds its bound) is a [tiling_error]. *)

From coqutil Require Export Datatypes.RecordSettersUsingExistingGetters.
From S2P Require Import Prelude AscendC TilingContext.

(** A field update [{ r with f := v }] simplifies to its value. *)
#[global] Arguments RecordSettersUsingExistingGetters.const {E} _ _ /.

(** ** [int64_t] *)

Definition i64 (z : Z) : Z := (z + 2 ^ 63) mod 2 ^ 64 - 2 ^ 63.
Definition fits_i64 (z : Z) : Prop := - 2 ^ 63 <= z < 2 ^ 63.

Lemma i64_id z : fits_i64 z -> i64 z = z.
Proof. unfold fits_i64, i64. intros H. rewrite Z.mod_small by lia. lia. Qed.

Lemma u32_small z : 0 <= z < 2 ^ 32 -> u32 z = z.
Proof. apply Z.mod_small. Qed.

(** Removes the casts whose argument is in range. *)
Ltac unwrap64 :=
  repeat match goal with
  | |- context [u32 ?z] => rewrite (u32_small z) by lia
  | |- context [i32 ?z] => rewrite (i32_id z) by (unfold fits_i32; lia)
  | |- context [i64 ?z] => rewrite (i64_id z) by (unfold fits_i64; lia)
  end.

(** ** Vectors *)

(** [v[i]] for a [std::vector] or a pointer to [length v] elements. *)
Definition vget {A} (v : list A) (i : Z) : HostM A :=
  match (if i <? 0 then None else v !! Z.to_nat i) with
  | Some x => Ok x
  | None => Err VectorIndex
  end.

(** [v[i] = x]. *)
Definition vset {A} (v : list A) (i : Z) (x : A) : HostM (list A) :=
  if (0 <=? i) && (i <? Z.of_nat (length v)) then Ok (<[Z.to_nat i := x]> v) else Err VectorIndex.

(** [std::vector<T> v(n)]. *)
Definition vnew (n : Z) : list Z := replicate (Z.to_nat n) 0.

(** The contents of a vector as a function of the index. *)
Definition vat (v : list Z) (i : Z) : Z := if i <? 0 then 0 else nth (Z.to_nat i) v 0.

Lemma vget_ok (v : list Z) i : 0 <= i < Z.of_nat (length v) -> vget v i = Ok (vat v i).
Proof.
  intros Hi. unfold vget, vat. destruct (i <? 0) eqn:E; bool_prop; [lia|].
  destruct (v !! Z.to_nat i) as [x|] eqn:Hx.
  - f_equal. symmetry. apply nth_lookup_Some with (d := 0). done.
  - apply lookup_ge_None_1 in Hx. lia.
Qed.

Lemma vset_ok (v : list Z) i x : 0 <= i < Z.of_nat (length v) -> vset v i x = Ok (<[Z.to_nat i := x]> v).
Proof.
  intros Hi. unfold vset. by rewrite (proj2 (Z.leb_le 0 i)), (proj2 (Z.ltb_lt i (Z.of_nat (length v)))) by lia.
Qed.

Lemma vset_inv {A} (v : list A) i x v' : vset v i x = Ok v' -> v' = <[Z.to_nat i := x]> v /\ 0 <= i < Z.of_nat (length v).
Proof. unfold vset. case_if; [|discriminate]. intros [= <-]. split; [done|lia]. Qed.

Lemma vat_insert v i x j : 0 <= i < Z.of_nat (length v) -> 0 <= j ->
  vat (<[Z.to_nat i := x]> v) j = if j =? i then x else vat v j.
Proof.
  intros Hi Hj. unfold vat. destruct (j <? 0) eqn:E; bool_prop; [lia|]. rewrite !nth_lookup.
  destruct (j =? i) eqn:E1; bool_prop; subst.
  - by rewrite list_lookup_insert_eq by lia.
  - by rewrite list_lookup_insert_ne by lia.
Qed.

Lemma vat_vnew n j : vat (vnew n) j = 0.
Proof.
  unfold vat, vnew. destruct (j <? 0); [done|]. rewrite nth_lookup.
  destruct (replicate _ 0 !! _) as [x|] eqn:E; [|done]. by apply lookup_replicate in E as [-> _].
Qed.

Lemma length_vnew n : 0 <= n -> Z.of_nat (length (vnew n)) = n.
Proof. intros. unfold vnew. rewrite length_replicate. lia. Qed.

(** ** The monad *)

Lemma mret_bind {E A B} (a : A) (f : A -> outcome E B) : (mret a ≫= f) = f a.
Proof. done. Qed.

Abbreviation HM S := (M S tiling_error).

Section HostMonad.
Context {S : Type}.

(** A computation that does not use the state. *)
Definition lift {A} (m : HostM A) : HM S A := fun s => match m with Ok a => Ok (a, s) | Err e => Err e end.

Lemma wp_lift {A} (m : HostM A) a (Q : A -> S -> Prop) s : m = Ok a -> Q a s -> wp (lift m) Q s.
Proof. intros ->. done. Qed.

(** [while (...) { ... }] over the locals [a]: the body says whether the loop goes
    on ([inl]) or is left ([inr]), by its condition or by a [return]. *)
Fixpoint while_host {A B} (bound : nat) (body : A -> HM S (A + B)) (a : A) : HM S B :=
  match bound with
  | O => fault HostLoopBound
  | Datatypes.S bound' =>
      r ← body a;
      match r with
      | inl a' => while_host bound' body a'
      | inr b => mret b
      end
  end.

(** A loop ends and establishes [Q] if each iteration keeps [I] and decreases
    the measure, or leaves with [Q]. *)
Lemma wp_while {A B} (I : A -> S -> Prop) (mu : A -> Z) (body : A -> HM S (A + B)) (Q : B -> S -> Prop) bound a s :
  (forall a s, I a s -> wp (body a) (fun r s' =>
     match r with inl a' => I a' s' /\ 0 <= mu a' < mu a | inr b => Q b s' end) s) ->
  mu a < Z.of_nat bound -> 0 <= mu a -> I a s -> wp (while_host bound body a) Q s.
Proof.
  intros Hbody. revert a s. induction bound as [|bound IH]; intros a s Hmu Hpos HI; [lia|]. cbn [while_host].
  eapply wp_seq; [by apply Hbody|]. intros [a'|b] s' Hr; [|by apply wp_ret].
  apply IH; [lia|lia|apply Hr].
Qed.

(** A loop over the value it carries, without early exit. *)
Definition for_fold {A} (lo hi : Z) (a : A) (body : Z -> A -> HM S A) : HM S A :=
  for_acc lo hi a (fun i a => body i a ≫= fun a' => mret (inl a')).

Lemma wp_for_fold {A} (I : Z -> A -> Prop) lo hi (a : A) body (Q : A -> S -> Prop) s :
  lo <= hi -> I lo a ->
  (forall i a s, lo <= i < hi -> I i a -> wp (body i a) (fun a' _ => I (i + 1) a') s) ->
  (forall a s, I hi a -> Q a s) -> wp (for_fold lo hi a body) Q s.
Proof.
  intros Hle HI Hbody HQ. apply (wp_for_acc (fun i a _ => I i a)); [done| |].
  - intros i a1 s1 Hi HI1. eapply wp_seq; [by apply Hbody|]. intros a2 s2 H2. by apply wp_ret.
  - intros a1 s1 H1. apply HQ. by rewrite Z.max_r in H1 by done.
Qed.
End HostMonad.

(** ** The kernel context *)

(** A tensor as an AICPU kernel sees it: its data pointer ([None] when null) and,
    when it has a shape, the answer of [GetTensorShape()->GetDimSize(0)]. *)
Record CpuTensor : Type := {
  GetData : option (list Z);
  GetDimSize0 : option Z }.

(** An attribute answers in the type it is asked for. *)
Record AttrValue : Type := { GetInt : Z; GetString : string; GetBool : bool }.

Record CpuKernelContext : Type := {
  Input : Z -> option CpuTensor;
  Output : Z -> option CpuTensor;
  GetAttr : string -> option AttrValue }.

Definition KERNEL_STATUS_OK : Z := 0.
Definition KERNEL_STATUS_PARAM_INVALID : Z := 1.

(** [GetAttrValue(ctx, name, value)]: whether the attribute exists, and the new
    content of [value]; [cast] is the conversion to the type of [value]. *)
Definition GetAttrValue (ctx : CpuKernelContext) (name : string) (cast : Z -> Z) (value : Z) : bool * Z :=
  match GetAttr ctx name with None => (false, value) | Some attr => (true, cast (GetInt attr)) end.

(** [GetAttrValueOpt(ctx, name, value)], one overload for each type of [value]. *)
Definition GetAttrValueOpt (ctx : CpuKernelContext) (name : string) (cast : Z -> Z) (value : Z) : Z :=
  match GetAttr ctx name with None => value | Some attr => cast (GetInt attr) end.
Definition GetAttrStringOpt (ctx : CpuKernelContext) (name : string) (value : string) : string :=
  match GetAttr ctx name with None => value | Some attr => GetString attr end.
Definition GetAttrBoolOpt (ctx : CpuKernelContext) (name : string) (value : bool) : bool :=
  match GetAttr ctx name with None => value | Some attr => GetBool attr end.

(** [t != nullptr && t->GetData() != nullptr]. *)
Definition tensor_data (t : option CpuTensor) : option (list Z) := t ≫= GetData.
