(* ===== verification/SasMeta.v ===== *)
(** The data of the AICPU kernel [SparseAttnSharedkvMetadata]
    ([sparse_attn_sharedkv_metadata_aicpu.h]): the block kinds, the split, cost and
    assignment records with their field updates, the members of the kernel
    class, and the parameter checks and initialisation that [Prepare] runs
    before any scheduling.

    Fields carry the initials of their record: [si] SplitInfo, [ci] CostInfo, [bc]
    BatchCache, [sg] S1GCache, [cc] CoreCache, [ac] AssignContext, [fd]
    FlashDecodeResult, [sr] SplitResult. *)

From S2P Require Import Prelude AscendC TilingContext Aicpu.

Definition FA_TOLERANCE_RATIO : Z := 2.

Inductive BlockType : Type :=
  | WIN_NORMAL_BLOCK
  | WIN_TAIL_BLOCK
  | CMP_NORMAL_BLOCK
  | CMP_TAIL_BLOCK.

#[global] Instance BlockType_eq_dec : EqDecision BlockType.
Proof. solve_decision. Defined.

(** [SparseMode] is an enumeration over [uint8_t]; the kernel casts an attribute to it. *)
Definition DEFAULT_MASK : Z := 0.
Definition ALL_MASK : Z := 1.
Definition LEFT_UP_CAUSAL : Z := 2.
Definition RIGHT_DOWN_CAUSAL : Z := 3.
Definition BAND : Z := 4.

Inductive ValidSocVersion : Type := ASCEND910 | ASCEND950 | RESERVED_VERSION.

(** [BlockCost<int64_t>]: the cost of a block by the kind of its row and of its column. *)
Definition BlockCost : Type := BlockType -> BlockType -> Z.

Definition set_typeCost (m s2 : BlockType) (v : Z) (t : BlockCost) : BlockCost :=
  fun m' s2' => if decide (m = m' /\ s2 = s2') then v else t m' s2'.

Definition Clip (value minValue maxValue : Z) : Z :=
  if value <? minValue then minValue else if maxValue <? value then maxValue else value.

Definition IsWithinTolerance (limit tolerance value : Z) : bool := value <=? i64 (limit + tolerance).

(** ** Records *)

(** The reduction tasks and their split over the vector cores. *)
Record FlashDecodeResult : Type := {
  fd_fdUsedVecNum : Z;
  fd_fdBN2Idx : list Z;
  fd_fdMIdx : list Z;
  fd_fdWorkspaceIdx : list Z;
  fd_fdS2SplitNum : list Z;
  fd_fdMSize : list Z;
  fd_fdIdx : list Z;
  fd_fdMStart : list Z;
  fd_fdMNum : list Z }.

Definition new_FlashDecodeResult (aicNum aivNum : Z) : FlashDecodeResult := {|
  fd_fdUsedVecNum := 0; fd_fdBN2Idx := vnew aicNum; fd_fdMIdx := vnew aicNum; fd_fdWorkspaceIdx := vnew aicNum;
  fd_fdS2SplitNum := vnew aicNum; fd_fdMSize := vnew aicNum; fd_fdIdx := vnew aivNum; fd_fdMStart := vnew aivNum;
  fd_fdMNum := vnew aivNum |}.

(** The end of each core's share, and the reduction tasks. *)
Record SplitResult : Type := {
  sr_usedCoreNum : Z;
  sr_bN2End : list Z;
  sr_gS1End : list Z;
  sr_s2End : list Z;
  sr_firstFdDataWorkspaceIdx : list Z;
  sr_maxCost : Z;
  sr_numOfFdHead : Z;
  sr_maxS2SplitNum : Z;
  sr_fdRes : FlashDecodeResult }.

Definition new_SplitResult (aicNum aivNum : Z) : SplitResult := {|
  sr_usedCoreNum := 0; sr_bN2End := vnew aicNum; sr_gS1End := vnew aicNum; sr_s2End := vnew aicNum;
  sr_firstFdDataWorkspaceIdx := vnew aicNum; sr_maxCost := 0; sr_numOfFdHead := 0; sr_maxS2SplitNum := 0;
  sr_fdRes := new_FlashDecodeResult aicNum aivNum |}.

(** The basic blocks of each batch. *)
Record SplitInfo : Type := {
  si_s1GBaseNum : list Z;
  si_s2BaseNum : list Z;
  si_s1GTailSize : list Z;
  si_s2TailSize : list Z;
  si_isKvSeqAllZero : bool }.

Definition new_SplitInfo (batchSize : Z) : SplitInfo := {|
  si_s1GBaseNum := vnew batchSize; si_s2BaseNum := vnew batchSize; si_s1GTailSize := vnew batchSize;
  si_s2TailSize := vnew batchSize; si_isKvSeqAllZero := true |}.

(** The cost of each batch, in total and of its last block. *)
Record CostInfo : Type := {
  ci_bN2CostOfEachBatch : list Z;
  ci_bN2BlockOfEachBatch : list Z;
  ci_bN2LastBlockCostOfEachBatch : list Z;
  ci_totalBlockNum : Z;
  ci_totalCost : Z;
  ci_maxS1GCost : Z }.

Definition new_CostInfo (batchSize : Z) : CostInfo := {|
  ci_bN2CostOfEachBatch := vnew batchSize; ci_bN2BlockOfEachBatch := vnew batchSize;
  ci_bN2LastBlockCostOfEachBatch := vnew batchSize; ci_totalBlockNum := 0; ci_totalCost := 0; ci_maxS1GCost := 0 |}.

Record SplitContext : Type := { splitInfo : SplitInfo; costInfo : CostInfo }.

Definition new_SplitContext (batchSize : Z) : SplitContext :=
  {| splitInfo := new_SplitInfo batchSize; costInfo := new_CostInfo batchSize |}.

(** The batch being assigned (its [typeCost] member is never used). *)
Record BatchCache : Type := {
  bc_bIdx : Z;
  bc_s1Size : Z;
  bc_s2Size : Z;
  bc_preTokenLeftUp : Z;
  bc_nextTokenLeftUp : Z }.

Definition new_BatchCache : BatchCache :=
  {| bc_bIdx := 0; bc_s1Size := 0; bc_s2Size := 0; bc_preTokenLeftUp := 0; bc_nextTokenLeftUp := 0 |}.

(** The row (a tile of query heads and tokens) being assigned. *)
Record S1GCache : Type := {
  sg_bIdx : Z;
  sg_s1GIdx : Z;
  sg_s2Start : Z;
  sg_s2End : Z;
  sg_winS2Start : Z;
  sg_winS2End : Z;
  sg_cmpS2Start : Z;
  sg_cmpS2End : Z;
  sg_s1GCost : Z;
  sg_s1GLastBlockCost : Z;
  sg_s1GBlock : Z;
  sg_s1GNormalBlockCost : Z;
  sg_winS1GBlock : Z;
  sg_winS1GCost : Z;
  sg_winS1GLastBlockCost : Z;
  sg_winS1GNormalBlockCost : Z;
  sg_cmpS1GBlock : Z;
  sg_cmpS1GCost : Z;
  sg_cmpS1GLastBlockCost : Z;
  sg_cmpS1GNormalBlockCost : Z;
  sg_cmpS2TailSize : Z;
  sg_winS2TailSize : Z }.

Definition new_S1GCache : S1GCache := {|
  sg_bIdx := 0; sg_s1GIdx := 0; sg_s2Start := 0; sg_s2End := 0; sg_winS2Start := 0; sg_winS2End := 0;
  sg_cmpS2Start := 0; sg_cmpS2End := 0; sg_s1GCost := 0; sg_s1GLastBlockCost := 0; sg_s1GBlock := 0;
  sg_s1GNormalBlockCost := 0; sg_winS1GBlock := 0; sg_winS1GCost := 0; sg_winS1GLastBlockCost := 0;
  sg_winS1GNormalBlockCost := 0; sg_cmpS1GBlock := 0; sg_cmpS1GCost := 0; sg_cmpS1GLastBlockCost := 0;
  sg_cmpS1GNormalBlockCost := 0; sg_cmpS2TailSize := 0; sg_winS2TailSize := 0 |}.

(** The load of the core being filled. *)
Record CoreCache : Type := {
  cc_costLimit : Z;
  cc_cost : Z;
  cc_block : Z }.

Definition new_CoreCache : CoreCache := {| cc_costLimit := 0; cc_cost := 0; cc_block := 0 |}.

(** The cursor of the assignment. *)
Record AssignContext : Type := {
  ac_curBIdx : Z;
  ac_curBN2Idx : Z;
  ac_curS1GIdx : Z;
  ac_curS2Idx : Z;
  ac_curCoreIdx : Z;
  ac_unassignedCost : Z;
  ac_usedCoreNum : Z;
  ac_curKvSplitPart : Z;
  ac_curFdDataNum : Z;
  ac_bN2Cost : Z;
  ac_bN2Block : Z;
  ac_isFinished : bool;
  ac_batchCache : BatchCache;
  ac_s1GCache : S1GCache;
  ac_coreCache : CoreCache }.

Definition new_AssignContext : AssignContext := {|
  ac_curBIdx := 0; ac_curBN2Idx := 0; ac_curS1GIdx := 0; ac_curS2Idx := 0; ac_curCoreIdx := 0;
  ac_unassignedCost := 0; ac_usedCoreNum := 0; ac_curKvSplitPart := 1; ac_curFdDataNum := 1; ac_bN2Cost := 0;
  ac_bN2Block := 0; ac_isFinished := false; ac_batchCache := new_BatchCache; ac_s1GCache := new_S1GCache;
  ac_coreCache := new_CoreCache |}.

(** ** The kernel class *)

(** The members of [SparseAttnSharedkvMetadataCpuKernel]; [typeCost_], the one that
    changes while a plan is made, is the state of the scheduling monad. *)
Record SasKernel : Type := {
  actSeqLenQ_ : option CpuTensor;
  actSeqLenOriKv_ : option CpuTensor;
  actSeqLenCmpKv_ : option CpuTensor;
  seqUsedQ_ : option CpuTensor;
  seqUsedKv_ : option CpuTensor;
  metaData_ : option CpuTensor;
  batchSize_ : Z;
  querySeqSize_ : Z;
  queryHeadNum_ : Z;
  kvSeqSize_ : Z;
  kvHeadNum_ : Z;
  headDim_ : Z;
  oriTopK_ : Z;
  cmpTopK_ : Z;
  cmpRatio_ : Z;
  oriMaskMode_ : Z;
  cmpMaskMode_ : Z;
  winLeft_ : Z;
  winRight_ : Z;
  layoutQuery_ : string;
  layoutKv_ : string;
  hasOriKv_ : bool;
  hasCmpKv_ : bool;
  aicCoreNum_ : Z;
  aivCoreNum_ : Z;
  socVersion_ : string;
  preToken_ : Z;
  nextToken_ : Z;
  groupSize_ : Z;
  mBaseSize_ : Z;
  s2BaseSize_ : Z;
  isS1G_ : bool;
  isCFA : bool;
  isSCFA : bool;
  supportFd : bool;
  attentionMode_ : Z }.

(** The member initialisers of the class. *)
Definition new_SasKernel : SasKernel := {|
  actSeqLenQ_ := None; actSeqLenOriKv_ := None; actSeqLenCmpKv_ := None; seqUsedQ_ := None; seqUsedKv_ := None;
  metaData_ := None; batchSize_ := 0; querySeqSize_ := 0; queryHeadNum_ := 0; kvSeqSize_ := 0; kvHeadNum_ := 0;
  headDim_ := 0; oriTopK_ := 0; cmpTopK_ := 0; cmpRatio_ := -1; oriMaskMode_ := 4; cmpMaskMode_ := 3;
  winLeft_ := 127; winRight_ := 0; layoutQuery_ := "BSND"; layoutKv_ := "PA_ND"; hasOriKv_ := true;
  hasCmpKv_ := true; aicCoreNum_ := 24; aivCoreNum_ := 48; socVersion_ := "ascend910B"; preToken_ := 0;
  nextToken_ := 0; groupSize_ := 0; mBaseSize_ := 0; s2BaseSize_ := 0; isS1G_ := true; isCFA := false;
  isSCFA := false; supportFd := false; attentionMode_ := 1 |}.

(** ** Parameter checks *)

(** [metaData_], its shape and its data are not null. *)
Definition metadata_present (k : SasKernel) : bool :=
  match metaData_ k with
  | Some t => match GetDimSize0 t, GetData t with Some _, Some _ => true | _, _ => false end
  | None => false
  end.

Definition CheckSingleParam (k : SasKernel) : bool :=
  if negb (metadata_present k) then false
  else if (aicCoreNum_ k =? 0) || (aivCoreNum_ k =? 0) then false
  else if batchSize_ k <? 0 then false
  else if querySeqSize_ k <? 0 then false
  else if (layoutKv_ k =? "BSND")%string && negb (queryHeadNum_ k =? 64) && negb (queryHeadNum_ k =? 32) then false
  else if negb (kvHeadNum_ k =? 1) then false
  else if negb (u32 (oriMaskMode_ k) =? DEFAULT_MASK) && negb (u32 (oriMaskMode_ k) =? RIGHT_DOWN_CAUSAL) &&
          negb (u32 (oriMaskMode_ k) =? BAND) then false
  else if negb (winLeft_ k =? 127) then false
  else if negb (layoutQuery_ k =? "TND")%string && negb (layoutQuery_ k =? "BSND")%string then false
  else if negb (layoutKv_ k =? "PA_ND")%string && negb (layoutKv_ k =? "TND")%string &&
          negb (layoutKv_ k =? "BSND")%string then false
  else if (layoutQuery_ k =? "TND")%string && (layoutKv_ k =? "BSND")%string then false
  else true.

(** The lambda [isInvalid]. *)
Definition isInvalid (t : option CpuTensor) : bool :=
  match tensor_data t with Some _ => false | None => true end.

Definition CheckExistence (k : SasKernel) : bool :=
  if (layoutQuery_ k =? "TND")%string && isInvalid (actSeqLenQ_ k) then false
  else if (layoutKv_ k =? "PA_ND")%string && isInvalid (seqUsedKv_ k) then false
  else true.

Definition GetQueryBatchSize (k : SasKernel) : Z :=
  match tensor_data (seqUsedQ_ k), seqUsedQ_ k ≫= GetDimSize0 with
  | Some _, Some n => i32 n
  | _, _ =>
      if (layoutQuery_ k =? "TND")%string then
        match tensor_data (actSeqLenQ_ k), actSeqLenQ_ k ≫= GetDimSize0 with
        | Some _, Some n => i32 (n - 1)
        | _, _ => batchSize_ k
        end
      else batchSize_ k
  end.

Definition GetKvBatchSize (k : SasKernel) : Z :=
  match tensor_data (seqUsedKv_ k), seqUsedKv_ k ≫= GetDimSize0 with
  | Some _, Some n => i32 n
  | _, _ =>
      if (layoutKv_ k =? "TND")%string then
        match tensor_data (actSeqLenOriKv_ k), actSeqLenOriKv_ k ≫= GetDimSize0 with
        | Some _, Some n => i32 (n - 1)
        | _, _ => batchSize_ k
        end
      else batchSize_ k
  end.

(** The body of the check is commented out. *)
Definition CheckConsistency (k : SasKernel) : bool := true.

Definition CheckFeature (k : SasKernel) : bool :=
  if hasCmpKv_ k then
    if negb (cmpTopK_ k =? 0) && negb (cmpTopK_ k =? 512) && negb (cmpTopK_ k =? 1024) then false
    else if negb (cmpRatio_ k =? 4) && negb (cmpRatio_ k =? 128) then false
    else true
  else true.

Definition ParamsCheck (k : SasKernel) : bool :=
  CheckSingleParam k && CheckExistence k && CheckConsistency k && CheckFeature k.

(** ** Initialisation *)

Definition ProcessSocVersion (k : SasKernel) : ValidSocVersion :=
  match String.index 0 "Ascend950" (socVersion_ k) with
  | Some _ => ASCEND950
  | None => ASCEND910
  end.

(** [static_cast<SparseMode>(oriMaskMode_)]. *)
Definition mask_mode (k : SasKernel) : Z := u8 (oriMaskMode_ k).

(** The token window of the mask mode: [preToken_], [nextToken_], [attentionMode_]. *)
Definition mask_window (k : SasKernel) : Z * Z * Z :=
  if mask_mode k =? DEFAULT_MASK then (INT64_MAX, INT64_MAX, 0)
  else if mask_mode k =? RIGHT_DOWN_CAUSAL then (INT64_MAX, 0, 1)
  else (if -1 <? winLeft_ k then winLeft_ k else INT64_MAX, 0, 1).

Definition ParamsInit (k : SasKernel) : HostM SasKernel :=
  let '(preToken, nextToken, attentionMode) := mask_window k in
  let k := { k with batchSize_ := GetQueryBatchSize k } in
  let k := { k with preToken_ := preToken; nextToken_ := nextToken; attentionMode_ := attentionMode } in
  let k := { k with isS1G_ := (layoutQuery_ k =? "BSND")%string || (layoutQuery_ k =? "BSH")%string ||
                              (layoutQuery_ k =? "TND")%string } in
  q ← c_quot (queryHeadNum_ k) (kvHeadNum_ k);
  let k := { k with groupSize_ := u32 q } in
  let k := if hasCmpKv_ k then
             if 0 <? cmpTopK_ k then { k with isSCFA := true } else { k with isCFA := true }
           else k in
  mret (match ProcessSocVersion k with
        | ASCEND910 => { k with mBaseSize_ := groupSize_ k; s2BaseSize_ := 512 }
        | ASCEND950 => { k with mBaseSize_ := 64; s2BaseSize_ := 128 }
        | RESERVED_VERSION => k
        end).

(** The members after the inputs, the output and the attributes have been read;
    the required attributes are given. *)
Definition read_params (ctx : CpuKernelContext) (numHeadsQ numHeadsKv headDim : Z) : SasKernel :=
  let k := { new_SasKernel with actSeqLenQ_ := Input ctx 0; actSeqLenOriKv_ := Input ctx 1; actSeqLenCmpKv_ := Input ctx 2;
                                seqUsedQ_ := Input ctx 3; seqUsedKv_ := Input ctx 4; metaData_ := Output ctx 0 } in
  { k with queryHeadNum_ := numHeadsQ; kvHeadNum_ := numHeadsKv; headDim_ := headDim;
    socVersion_ := GetAttrStringOpt ctx "soc_version" (socVersion_ k);
    aicCoreNum_ := GetAttrValueOpt ctx "aic_core_num" u32 (aicCoreNum_ k);
    aivCoreNum_ := GetAttrValueOpt ctx "aiv_core_num" u32 (aivCoreNum_ k);
    batchSize_ := GetAttrValueOpt ctx "batch_size" i32 (batchSize_ k);
    querySeqSize_ := GetAttrValueOpt ctx "max_seqlen_q" i32 (querySeqSize_ k);
    kvSeqSize_ := GetAttrValueOpt ctx "max_seqlen_kv" i32 (kvSeqSize_ k);
    oriTopK_ := GetAttrValueOpt ctx "ori_topk" i32 (oriTopK_ k);
    cmpTopK_ := GetAttrValueOpt ctx "cmp_topk" i32 (cmpTopK_ k);
    cmpRatio_ := GetAttrValueOpt ctx "cmp_ratio" i32 (cmpRatio_ k);
    oriMaskMode_ := GetAttrValueOpt ctx "ori_mask_mode" i32 (oriMaskMode_ k);
    cmpMaskMode_ := GetAttrValueOpt ctx "cmp_mask_mode" i32 (cmpMaskMode_ k);
    winLeft_ := GetAttrValueOpt ctx "ori_win_left" i64 (winLeft_ k);
    winRight_ := GetAttrValueOpt ctx "ori_win_right" i64 (winRight_ k);
    layoutQuery_ := GetAttrStringOpt ctx "layout_q" (layoutQuery_ k);
    layoutKv_ := GetAttrStringOpt ctx "layout_kv" (layoutKv_ k);
    hasOriKv_ := GetAttrBoolOpt ctx "has_ori_kv" (hasOriKv_ k);
    hasCmpKv_ := GetAttrBoolOpt ctx "has_cmp_kv" (hasCmpKv_ k) }.

(** [Prepare]: [None] when it returns [false]. *)
Definition Prepare (ctx : CpuKernelContext) : HostM (option SasKernel) :=
  let '(ok1, numHeadsQ) := GetAttrValue ctx "num_heads_q" i32 0 in
  let '(ok2, numHeadsKv) := GetAttrValue ctx "num_heads_kv" i32 0 in
  let '(ok3, headDim) := GetAttrValue ctx "head_dim" i32 0 in
  if negb (ok1 && ok2 && ok3) then mret None
  else
    let k := read_params ctx numHeadsQ numHeadsKv headDim in
    if ParamsCheck k then k' ← ParamsInit k; mret (Some k') else mret None.

(** ** Sequence lengths *)

(** [static_cast<uint32_t>(p[b + 1] - p[b])] of a prefix-sum tensor. *)
Definition seq_diff (p : list Z) (bIdx : Z) : HostM Z :=
  hi ← vget p (u32 (bIdx + 1));
  lo ← vget p bIdx;
  mret (u32 (hi - lo)).

Definition GetS1SeqSize (k : SasKernel) (bIdx : Z) : HostM Z :=
  match tensor_data (seqUsedQ_ k) with
  | Some seqUsedPtr => n ← vget seqUsedPtr bIdx; mret (u32 n)
  | None =>
      match (if (layoutQuery_ k =? "TND")%string then tensor_data (actSeqLenQ_ k) else None) with
      | Some s1Ptr => seq_diff s1Ptr bIdx
      | None => mret (u32 (querySeqSize_ k))
      end
  end.

Definition GetS2SeqSize (k : SasKernel) (bIdx : Z) : HostM Z :=
  match tensor_data (seqUsedKv_ k) with
  | Some seqUsedPtr => n ← vget seqUsedPtr bIdx; mret (u32 n)
  | None =>
      match (if (layoutKv_ k =? "TND")%string then tensor_data (actSeqLenOriKv_ k) else None) with
      | Some s2Ptr => seq_diff s2Ptr bIdx
      | None => mret (u32 (kvSeqSize_ k))
      end
  end.
