(* ===== verification/SasMetaCost.v ===== *)
(** The cost model of [sparse_attn_sharedkv_metadata_aicpu.cpp]: how many blocks
    each row of a batch has, inside the sliding window and among the compressed
    keys, what they cost, and the sums over rows and batches. *)

From S2P Require Import Prelude AscendC TilingContext Aicpu SasMeta.

(** Scheduling code: [typeCost_] is its state. *)
Abbreviation Sched := (HM BlockCost).

(** ** The split into basic blocks *)

Definition CalcSplitInfo (k : SasKernel) (sc : SplitContext) : Sched SplitContext :=
  si ← for_fold 0 (u32 (batchSize_ k)) (splitInfo sc) (fun bIdx si =>
    s1Size ← lift (GetS1SeqSize k bIdx);
    s2Size ← lift (GetS2SeqSize k bIdx);
    s1GBase ← lift (c_quot (u32 (u32 (s1Size * groupSize_ k) + u32 (mBaseSize_ k - 1))) (mBaseSize_ k));
    s1GBaseNum ← lift (vset (si_s1GBaseNum si) bIdx s1GBase);
    s1GTail ← lift (c_rem (u32 (s1Size * groupSize_ k)) (mBaseSize_ k));
    s1GTailSize ← lift (vset (si_s1GTailSize si) bIdx s1GTail);
    s2Base ← lift (c_quot (u32 (u32 (s2Size + s2BaseSize_ k) - 1)) (s2BaseSize_ k));
    s2BaseNum ← lift (vset (si_s2BaseNum si) bIdx s2Base);
    s2Tail ← lift (c_rem s2Size (s2BaseSize_ k));
    s2TailSize ← lift (vset (si_s2TailSize si) bIdx s2Tail);
    let si := { si with si_s1GBaseNum := s1GBaseNum; si_s1GTailSize := s1GTailSize;
                        si_s2BaseNum := s2BaseNum; si_s2TailSize := s2TailSize } in
    mret (if negb (s1GBase =? 0) && negb (s2Base =? 0) then { si with si_isKvSeqAllZero := false } else si));
  mret { sc with splitInfo := si }.

(** ** Masks *)

Definition CalcPreTokenLeftUp (k : SasKernel) (s1Size s2Size : Z) : Z :=
  if mask_mode k =? BAND then i64 (i64 (s1Size - s2Size) + preToken_ k) else preToken_ k.

Definition CalcNextTokenLeftUp (k : SasKernel) (s1Size s2Size : Z) : Z :=
  if (mask_mode k =? DEFAULT_MASK) || (mask_mode k =? ALL_MASK) || (mask_mode k =? LEFT_UP_CAUSAL) then nextToken_ k
  else if mask_mode k =? RIGHT_DOWN_CAUSAL then i64 (s2Size - s1Size)
  else if mask_mode k =? BAND then i64 (i64 (s2Size - s1Size) + nextToken_ k)
  else nextToken_ k.

(** ** Block costs *)

Definition WinCalcCost (basicM basicS2 : Z) : Z :=
  let winAlignCoefM := 16 in
  let winAlignCoefS2 := 64 in
  let winAlignBasicM := Z.shiftr (u32 (u32 (basicM + winAlignCoefM) - 1)) 4 in
  let winAlignBasicS2 := Z.shiftr (u32 (u32 (basicS2 + winAlignCoefS2) - 1)) 6 in
  u32 (u32 (6 * winAlignBasicM) + u32 (10 * winAlignBasicS2)).

Definition CmpCalcCost (basicM basicS2 : Z) : Z :=
  let cmpAlignCoefM := 16 in
  let cmpAlignCoefS2 := 64 in
  let cmpAlignBasicM := Z.shiftr (u32 (u32 (basicM + cmpAlignCoefM) - 1)) 4 in
  let cmpAlignBasicS2 := Z.shiftr (u32 (u32 (basicS2 + cmpAlignCoefS2) - 1)) 6 in
  u32 (u32 (6 * cmpAlignBasicM) + u32 (10 * cmpAlignBasicS2)).

Definition CalcCostTable (k : SasKernel) (s1NormalSize s2NormalSize s1GTailSize winS2TailSize cmpS2TailSize : Z) : Sched unit :=
  modify (fun t =>
    let t := set_typeCost WIN_NORMAL_BLOCK WIN_NORMAL_BLOCK (WinCalcCost s1NormalSize s2NormalSize) t in
    let t := set_typeCost WIN_TAIL_BLOCK WIN_NORMAL_BLOCK
               (if s1GTailSize =? 0 then 0 else WinCalcCost s1GTailSize s2NormalSize) t in
    let t := set_typeCost WIN_NORMAL_BLOCK WIN_TAIL_BLOCK
               (if winS2TailSize =? 0 then 0 else WinCalcCost s1NormalSize winS2TailSize) t in
    let t := set_typeCost WIN_TAIL_BLOCK WIN_TAIL_BLOCK
               (if (s1GTailSize =? 0) || (winS2TailSize =? 0) then 0 else WinCalcCost s1GTailSize winS2TailSize) t in
    if hasCmpKv_ k then
      let t := set_typeCost CMP_NORMAL_BLOCK CMP_NORMAL_BLOCK (CmpCalcCost s1NormalSize s2NormalSize) t in
      let t := set_typeCost CMP_TAIL_BLOCK CMP_NORMAL_BLOCK
                 (if s1GTailSize =? 0 then 0 else CmpCalcCost s1GTailSize s2NormalSize) t in
      let t := set_typeCost CMP_NORMAL_BLOCK CMP_TAIL_BLOCK
                 (if cmpS2TailSize =? 0 then 0 else CmpCalcCost s1NormalSize cmpS2TailSize) t in
      set_typeCost CMP_TAIL_BLOCK CMP_TAIL_BLOCK
        (if (s1GTailSize =? 0) || (cmpS2TailSize =? 0) then 0 else CmpCalcCost s1GTailSize cmpS2TailSize) t
    else t).

(** ** Rows *)

Definition CalcS2TokenRange (k : SasKernel) (s1GIdx : Z) (batchCache : BatchCache) : HostM (Z * Z) :=
  if (bc_s1Size batchCache =? 0) || (bc_s2Size batchCache =? 0) then mret (0, 0)
  else if attentionMode_ k =? 0 then mret (0, bc_s2Size batchCache - 1)
  else
    let s1GFirstToken := i64 (s1GIdx * mBaseSize_ k) in
    let s1GLastToken := i64 (Z.min (i64 (s1GFirstToken + mBaseSize_ k)) (i64 (bc_s1Size batchCache * groupSize_ k)) - 1) in
    '(s1FirstToken, s1LastToken) ←
      (if isS1G_ k then
         s1First ← c_quot s1GFirstToken (groupSize_ k);
         s1Last ← c_quot s1GLastToken (groupSize_ k);
         mret (s1First, s1Last)
       else
         gFirst ← c_quot s1GFirstToken (bc_s1Size batchCache);
         gLast ← c_quot s1GLastToken (bc_s1Size batchCache);
         if gFirst =? gLast then
           s1First ← c_rem s1GFirstToken (bc_s1Size batchCache);
           s1Last ← c_rem s1GLastToken (bc_s1Size batchCache);
           mret (s1First, s1Last)
         else mret (0, bc_s1Size batchCache));
    mret (i64 (s1FirstToken - bc_preTokenLeftUp batchCache), i64 (s1LastToken + bc_nextTokenLeftUp batchCache)).

Definition CalcBatchCache (k : SasKernel) (bIdx : Z) : HostM BatchCache :=
  s1Size ← GetS1SeqSize k bIdx;
  s2Size ← GetS2SeqSize k bIdx;
  mret {| bc_bIdx := bIdx; bc_s1Size := s1Size; bc_s2Size := s2Size;
          bc_preTokenLeftUp := CalcPreTokenLeftUp k s1Size s2Size;
          bc_nextTokenLeftUp := CalcNextTokenLeftUp k s1Size s2Size |}.

(** Whether the row is the last of its batch and shorter than [mBaseSize_]. *)
Definition is_tail_row (si : SplitInfo) (c : S1GCache) : HostM bool :=
  num ← vget (si_s1GBaseNum si) (sg_bIdx c);
  if sg_s1GIdx c =? u32 (num - 1) then
    tail ← vget (si_s1GTailSize si) (sg_bIdx c);
    mret (negb (tail =? 0))
  else mret false.

Definition CalcWinS1GCache (c : S1GCache) (si : SplitInfo) : Sched S1GCache :=
  if sg_winS2End c <=? sg_winS2Start c then
    mret { c with sg_winS1GBlock := 0; sg_winS1GCost := 0; sg_winS1GLastBlockCost := 0; sg_winS1GNormalBlockCost := 0 }
  else
    let c := { c with sg_winS1GBlock := u32 (sg_winS2End c - sg_winS2Start c) } in
    let curWinTailS2Num := if negb (sg_winS2TailSize c =? 0) then 1 else 0 in
    let curWinNormalS2Num := u32 (sg_winS1GBlock c - curWinTailS2Num) in
    isTail ← lift (is_tail_row si c);
    let m := if isTail : bool then WIN_TAIL_BLOCK else WIN_NORMAL_BLOCK in
    normalCost ← gets (fun t => t m WIN_NORMAL_BLOCK);
    tailCost ← gets (fun t => t m WIN_TAIL_BLOCK);
    mret { c with sg_winS1GCost := i64 (i64 (normalCost * curWinNormalS2Num) + i64 (tailCost * curWinTailS2Num));
                  sg_winS1GLastBlockCost := if 0 <? curWinTailS2Num then tailCost else normalCost;
                  sg_winS1GNormalBlockCost := normalCost }.

Definition CalcCmpS1GCache (c : S1GCache) (si : SplitInfo) : Sched S1GCache :=
  if sg_cmpS2End c <=? sg_cmpS2Start c then
    mret { c with sg_cmpS1GBlock := 0; sg_cmpS1GCost := 0; sg_cmpS1GLastBlockCost := 0; sg_cmpS1GNormalBlockCost := 0 }
  else
    let c := { c with sg_cmpS1GBlock := u32 (sg_cmpS2End c - sg_cmpS2Start c) } in
    let curCmpTailS2Num := if negb (sg_cmpS2TailSize c =? 0) then 1 else 0 in
    let curCmpNormalS2Num := u32 (sg_cmpS1GBlock c - curCmpTailS2Num) in
    isTail ← lift (is_tail_row si c);
    let m := if isTail : bool then CMP_TAIL_BLOCK else CMP_NORMAL_BLOCK in
    normalCost ← gets (fun t => t m CMP_NORMAL_BLOCK);
    tailCost ← gets (fun t => t m CMP_TAIL_BLOCK);
    mret { c with sg_cmpS1GCost := i64 (i64 (normalCost * curCmpNormalS2Num) + i64 (tailCost * curCmpTailS2Num));
                  sg_cmpS1GLastBlockCost := if 0 <? curCmpTailS2Num then tailCost else normalCost;
                  sg_cmpS1GNormalBlockCost := normalCost }.

(** The window part: the tokens kept after clipping and the row with its window blocks. *)
Definition CalcWinRange (k : SasKernel) (first last : Z) (bc : BatchCache) (c : S1GCache) : HostM (Z * S1GCache) :=
  if (bc_s2Size bc <=? first) || (last <? 0) || (last <? first) then
    mret (0, { c with sg_winS2Start := 0; sg_winS2End := 0; sg_winS2TailSize := 0 })
  else
    let first := Clip first 0 (u32 (bc_s2Size bc - 1)) in
    let last := Clip last 0 (u32 (bc_s2Size bc - 1)) in
    q ← c_quot (i64 (last - first)) (s2BaseSize_ k);
    r ← c_rem (i64 (i64 (last - first) + 1)) (s2BaseSize_ k);
    mret (last, { c with sg_winS2Start := 0; sg_winS2End := u32 (q + 1); sg_winS2TailSize := r }).

(** The number of compressed tokens the row attends to. *)
Definition act_cmp_size (k : SasKernel) (oriS2LastToken : Z) : HostM Z :=
  cmpS2LastTokenSize ← (if hasCmpKv_ k then q ← c_quot (i64 (oriS2LastToken + 1)) (cmpRatio_ k); mret (u32 q)
                        else mret 0);
  mret (if isCFA k then cmpS2LastTokenSize
        else if isSCFA k then Z.min cmpS2LastTokenSize (u32 (cmpTopK_ k)) else 0).

Definition CalcBlockRangeAndTailSize (k : SasKernel) (oriS2TokenRange : Z * Z) (bc : BatchCache) (c : S1GCache) : HostM S1GCache :=
  '(oriS2LastToken, c) ← CalcWinRange k oriS2TokenRange.1 oriS2TokenRange.2 bc c;
  let c := { c with sg_cmpS2Start := sg_winS2End c } in
  actCmpS2LastTokenSize ← act_cmp_size k oriS2LastToken;
  cmpS2End ← (if actCmpS2LastTokenSize =? 0 then mret (sg_cmpS2Start c)
              else q ← c_quot (u32 (actCmpS2LastTokenSize - 1)) (s2BaseSize_ k);
                   mret (u32 (u32 (sg_cmpS2Start c + q) + 1)));
  r ← c_rem actCmpS2LastTokenSize (s2BaseSize_ k);
  mret { c with sg_cmpS2End := cmpS2End; sg_cmpS2TailSize := r }.

Definition GatherWinAndCmpCache (c : S1GCache) : S1GCache :=
  let c := { c with sg_s2Start := if 0 <? sg_winS1GBlock c then sg_winS2Start c else sg_cmpS2Start c } in
  let c := if 0 <? sg_cmpS1GBlock c
           then { c with sg_s1GLastBlockCost := sg_cmpS1GLastBlockCost c; sg_s2End := sg_cmpS2End c }
           else { c with sg_s1GLastBlockCost := sg_winS1GLastBlockCost c; sg_s2End := sg_winS2End c } in
  { c with sg_s1GBlock := u32 (sg_winS1GBlock c + sg_cmpS1GBlock c); sg_s1GCost := i64 (sg_winS1GCost c + sg_cmpS1GCost c) }.

(** The cache [c] is updated in place: fields the early return does not name keep their old value. *)
Definition CalcS1GCache (k : SasKernel) (s1GIdx : Z) (sc : SplitContext) (bc : BatchCache) (c : S1GCache) : Sched S1GCache :=
  let si := splitInfo sc in
  num ← lift (vget (si_s1GBaseNum si) (bc_bIdx bc));
  if num =? 0 then
    mret { c with sg_s1GCost := 0; sg_s1GLastBlockCost := 0; sg_winS1GNormalBlockCost := 0; sg_winS1GLastBlockCost := 0;
                  sg_cmpS1GNormalBlockCost := 0; sg_cmpS1GLastBlockCost := 0; sg_s1GBlock := 0; sg_s2Start := 0;
                  sg_cmpS2Start := 0; sg_s2End := 0 }
  else
    let c := { c with sg_bIdx := bc_bIdx bc; sg_s1GIdx := s1GIdx } in
    oriS2TokenRange ← lift (CalcS2TokenRange k s1GIdx bc);
    c ← lift (CalcBlockRangeAndTailSize k oriS2TokenRange bc c);
    tail ← lift (vget (si_s1GTailSize si) (sg_bIdx c));
    _ ← CalcCostTable k (mBaseSize_ k) (s2BaseSize_ k) tail (u32 (sg_winS2TailSize c)) (u32 (sg_cmpS2TailSize c));
    c ← CalcWinS1GCache c si;
    c ← CalcCmpS1GCache c si;
    mret (GatherWinAndCmpCache c).

(** ** Batches *)

(** One row of the loop in [CalcBatchCost]. *)
Definition add_row (bIdx : Z) (c : S1GCache) (ci : CostInfo) : HostM CostInfo :=
  cost ← vget (ci_bN2CostOfEachBatch ci) bIdx;
  costs ← vset (ci_bN2CostOfEachBatch ci) bIdx (i64 (cost + sg_s1GCost c));
  block ← vget (ci_bN2BlockOfEachBatch ci) bIdx;
  blocks ← vset (ci_bN2BlockOfEachBatch ci) bIdx (u32 (block + sg_s1GBlock c));
  lasts ← (if 0 <? sg_s1GBlock c then vset (ci_bN2LastBlockCostOfEachBatch ci) bIdx (sg_s1GLastBlockCost c)
           else mret (ci_bN2LastBlockCostOfEachBatch ci));
  mret { ci with ci_bN2CostOfEachBatch := costs; ci_bN2BlockOfEachBatch := blocks;
                 ci_maxS1GCost := if ci_maxS1GCost ci <? sg_s1GCost c then sg_s1GCost c else ci_maxS1GCost ci;
                 ci_bN2LastBlockCostOfEachBatch := lasts }.

Definition CalcBatchCost (k : SasKernel) (bIdx : Z) (sc : SplitContext) (ci : CostInfo) : Sched CostInfo :=
  costs ← lift (vset (ci_bN2CostOfEachBatch ci) bIdx 0);
  blocks ← lift (vset (ci_bN2BlockOfEachBatch ci) bIdx 0);
  lasts ← lift (vset (ci_bN2LastBlockCostOfEachBatch ci) bIdx 0);
  let ci := { ci with ci_bN2CostOfEachBatch := costs; ci_bN2BlockOfEachBatch := blocks;
                      ci_bN2LastBlockCostOfEachBatch := lasts } in
  s1Size ← lift (GetS1SeqSize k bIdx);
  s2Size ← lift (GetS2SeqSize k bIdx);
  if (s1Size =? 0) || (s2Size =? 0) then mret ci
  else
    bCache ← lift (CalcBatchCache k bIdx);
    num ← lift (vget (si_s1GBaseNum (splitInfo sc)) bIdx);
    '(_, ci) ← for_fold 0 num (new_S1GCache, ci) (fun s1GIdx '(s1GCache, ci) =>
      c ← CalcS1GCache k s1GIdx sc bCache s1GCache;
      ci ← lift (add_row bIdx c ci);
      mret (c, ci));
    mret ci.

Definition CalcCostInfo (k : SasKernel) (sc : SplitContext) : Sched SplitContext :=
  if si_isKvSeqAllZero (splitInfo sc) then
    mret { sc with costInfo := { (costInfo sc) with ci_totalCost := 0; ci_totalBlockNum := 0 } }
  else
    ci ← for_fold 0 (u32 (batchSize_ k)) (costInfo sc) (fun bIdx ci =>
      ci ← CalcBatchCost k bIdx sc ci;
      cost ← lift (vget (ci_bN2CostOfEachBatch ci) bIdx);
      block ← lift (vget (ci_bN2BlockOfEachBatch ci) bIdx);
      mret { ci with ci_totalCost := i64 (ci_totalCost ci + i64 (cost * kvHeadNum_ k));
                     ci_totalBlockNum := u32 (ci_totalBlockNum ci + u32 (block * u32 (kvHeadNum_ k))) });
    mret { sc with costInfo := ci }.
