(* ===== verification/SasMetaAssign.v ===== *)
(** The assignment of rows and blocks to cores in
    [sparse_attn_sharedkv_metadata_aicpu.cpp]: whole batches, then rows, then
    (with flash decoding) single blocks; the bookkeeping of split rows; the plan
    over all cores, its balancing of the reductions, the metadata that the
    attention kernel reads, and the kernel's entry point.

    [fuel] bounds each [while] loop. *)

From S2P Require Import Prelude AscendC TilingContext Aicpu SasMeta SasMetaCost.

Section Assign.
Variable fuel : nat.
Variable k : SasKernel.
Variable sc : SplitContext.

(** [batchSize_ * kvHeadNum_], compared with an unsigned index. *)
Definition bn2_total : Z := u32 (i32 (batchSize_ k * kvHeadNum_ k)).

(** The condition of the loop of [AssignByBatch]; the batch's last block is looked
    up only when the batch has a cost. *)
Definition batch_fits (ac : AssignContext) : HostM bool :=
  if ac_bN2Cost ac =? 0 then mret true
  else
    last ← vget (ci_bN2LastBlockCostOfEachBatch (costInfo sc)) (ac_curBIdx ac);
    mret (IsWithinTolerance (cc_costLimit (ac_coreCache ac)) (last /c FA_TOLERANCE_RATIO)
            (i64 (cc_cost (ac_coreCache ac) + ac_bN2Cost ac))).

(** Adds a load to the current core. *)
Definition load_core (cost block : Z) (cc : CoreCache) : CoreCache :=
  { cc with cc_cost := i64 (cc_cost cc + cost); cc_block := u32 (cc_block cc + block) }.

Definition AssignByBatch (ac : AssignContext) : Sched AssignContext :=
  if ac_isFinished ac then mret ac
  else
    while_host fuel (fun ac =>
      fits ← lift (batch_fits ac);
      if negb fits then mret (inr ac)
      else
        let ac := { ac with ac_coreCache := load_core (ac_bN2Cost ac) (ac_bN2Block ac) (ac_coreCache ac);
                            ac_curBN2Idx := u32 (ac_curBN2Idx ac + 1) } in
        if ac_curBN2Idx ac =? bn2_total then
          mret (inr { ac with ac_curS1GIdx := 0; ac_curS2Idx := 0; ac_isFinished := true })
        else
          bIdx ← lift (c_quot (ac_curBN2Idx ac) (u32 (kvHeadNum_ k)));
          ac ← (if negb (bIdx =? ac_curBIdx ac) then
                  bc ← lift (CalcBatchCache k bIdx);
                  mret { ac with ac_curBIdx := bIdx; ac_batchCache := bc }
                else mret ac);
          cost ← lift (vget (ci_bN2CostOfEachBatch (costInfo sc)) (ac_curBIdx ac));
          block ← lift (vget (ci_bN2BlockOfEachBatch (costInfo sc)) (ac_curBIdx ac));
          let ac := { ac with ac_bN2Cost := cost; ac_bN2Block := block; ac_curS1GIdx := 0 } in
          c ← CalcS1GCache k (ac_curS1GIdx ac) sc (ac_batchCache ac) (ac_s1GCache ac);
          mret (inl { ac with ac_s1GCache := c; ac_curS2Idx := sg_s2Start c })) ac.

(** [do { curS1GIdx++; CalcS1GCache(...); } while (s1GCache.s1GBlock == 0)]. *)
Definition next_row (ac : AssignContext) : Sched AssignContext :=
  while_host fuel (fun ac =>
    let ac := { ac with ac_curS1GIdx := u32 (ac_curS1GIdx ac + 1) } in
    c ← CalcS1GCache k (ac_curS1GIdx ac) sc (ac_batchCache ac) (ac_s1GCache ac);
    let ac := { ac with ac_s1GCache := c } in
    mret (if sg_s1GBlock c =? 0 then inl ac else inr ac)) ac.

Definition AssignByRow (ac : AssignContext) : Sched AssignContext :=
  if ac_isFinished ac then mret ac
  else
    while_host fuel (fun ac =>
      let c := ac_s1GCache ac in
      if negb (IsWithinTolerance (cc_costLimit (ac_coreCache ac)) (sg_s1GLastBlockCost c /c FA_TOLERANCE_RATIO)
                 (i64 (cc_cost (ac_coreCache ac) + sg_s1GCost c)))
      then mret (inr ac)
      else
        let ac := { ac with ac_coreCache := load_core (sg_s1GCost c) (sg_s1GBlock c) (ac_coreCache ac) } in
        let ac := { ac with ac_bN2Cost := if sg_s1GCost c <? ac_bN2Cost ac then i64 (ac_bN2Cost ac - sg_s1GCost c) else 0;
                            ac_bN2Block := if sg_s1GBlock c <? ac_bN2Block ac then u32 (ac_bN2Block ac - sg_s1GBlock c) else 0 } in
        ac ← next_row ac;
        mret (inl { ac with ac_curS2Idx := sg_s2Start (ac_s1GCache ac) })) ac.

Definition CalcCurBlockCost (ac : AssignContext) : Z :=
  let c := ac_s1GCache ac in
  if ac_curS2Idx ac <? sg_cmpS2Start c then
    if ac_curS2Idx ac =? u32 (sg_cmpS2Start c - 1) then sg_winS1GLastBlockCost c else sg_winS1GNormalBlockCost c
  else
    if ac_curS2Idx ac =? u32 (sg_s2End c - 1) then sg_cmpS1GLastBlockCost c else sg_cmpS1GNormalBlockCost c.

(** One block leaves the row and the batch for the core. *)
Definition take_block (curCost : Z) (ac : AssignContext) : AssignContext :=
  let c := ac_s1GCache ac in
  { ac with ac_coreCache := load_core curCost 1 (ac_coreCache ac);
            ac_curS2Idx := u32 (ac_curS2Idx ac + 1);
            ac_bN2Cost := i64 (ac_bN2Cost ac - curCost);
            ac_bN2Block := u32 (ac_bN2Block ac - 1);
            ac_s1GCache := { c with sg_s1GCost := i64 (sg_s1GCost c - curCost); sg_s1GBlock := u32 (sg_s1GBlock c - 1) } }.

Definition AssignByBlock (ac : AssignContext) : Sched AssignContext :=
  if ac_isFinished ac || negb (supportFd k) then mret ac
  else
    while_host fuel (fun ac =>
      let curCost := CalcCurBlockCost ac in
      mret (if IsWithinTolerance (cc_costLimit (ac_coreCache ac)) (curCost /c FA_TOLERANCE_RATIO)
                 (i64 (cc_cost (ac_coreCache ac) + curCost))
            then inl (take_block curCost ac) else inr ac)) ac.

Definition UpdateCursor (ac : AssignContext) : Sched AssignContext :=
  let '(ac, updateS1G) :=
    if sg_s2End (ac_s1GCache ac) <=? ac_curS2Idx ac
    then ({ ac with ac_curS2Idx := 0; ac_curS1GIdx := u32 (ac_curS1GIdx ac + 1) }, true) else (ac, false) in
  num ← lift (vget (si_s1GBaseNum (splitInfo sc)) (ac_curBIdx ac));
  let ac := if num <=? ac_curS1GIdx ac
            then { ac with ac_curS1GIdx := 0; ac_curBN2Idx := u32 (ac_curBN2Idx ac + 1) } else ac in
  if ac_curBN2Idx ac =? bn2_total then
    mret { ac with ac_curS1GIdx := 0; ac_curS2Idx := 0; ac_isFinished := true }
  else
    bIdx ← lift (c_quot (ac_curBN2Idx ac) (u32 (kvHeadNum_ k)));
    let updateBatch := negb (bIdx =? ac_curBIdx ac) in
    let ac := if updateBatch then { ac with ac_curBIdx := bIdx; ac_curS1GIdx := 0 } else ac in
    ac ← (if updateBatch then
            bc ← lift (CalcBatchCache k (ac_curBIdx ac));
            cost ← lift (vget (ci_bN2CostOfEachBatch (costInfo sc)) (ac_curBIdx ac));
            block ← lift (vget (ci_bN2BlockOfEachBatch (costInfo sc)) (ac_curBIdx ac));
            mret { ac with ac_batchCache := bc; ac_bN2Cost := cost; ac_bN2Block := block }
          else mret ac);
    if updateS1G || updateBatch then
      c ← CalcS1GCache k (ac_curS1GIdx ac) sc (ac_batchCache ac) (ac_s1GCache ac);
      mret { ac with ac_s1GCache := c; ac_curS2Idx := if supportFd k then sg_winS2Start c else 0 }
    else mret ac.

Definition ForceAssign (ac : AssignContext) : Sched AssignContext :=
  if ac_isFinished ac then mret ac
  else UpdateCursor (take_block (CalcCurBlockCost ac) ac).

(** ** Rows split over several cores *)

Definition IsNeedRecordFDInfo (ac : AssignContext) (r : SplitResult) : HostM bool :=
  if ac_curCoreIdx ac =? 0 then mret false
  else if ac_curKvSplitPart ac <=? 1 then mret false
  else
    bN2End ← vget (sr_bN2End r) (u32 (ac_curCoreIdx ac - 1));
    if ac_curBN2Idx ac =? bN2End then
      gS1End ← vget (sr_gS1End r) (u32 (ac_curCoreIdx ac - 1));
      mret (negb (ac_curS1GIdx ac =? gS1End))
    else mret true.

Definition RecordFDInfo (ac : AssignContext) (r : SplitResult) : HostM SplitResult :=
  bN2End ← vget (sr_bN2End r) (u32 (ac_curCoreIdx ac - 1));
  splitBIdx ← c_quot bN2End (u32 (kvHeadNum_ k));
  splitS1GIdx ← vget (sr_gS1End r) (u32 (ac_curCoreIdx ac - 1));
  s1Size ← GetS1SeqSize k splitBIdx;
  num ← vget (si_s1GBaseNum (splitInfo sc)) splitBIdx;
  let curFdS1gSize :=
    if splitS1GIdx =? u32 (num - 1) then u32 (u32 (s1Size * groupSize_ k) - u32 (splitS1GIdx * mBaseSize_ k))
    else mBaseSize_ k in
  let fd := sr_fdRes r in
  let i := sr_numOfFdHead r in
  fdBN2Idx ← vset (fd_fdBN2Idx fd) i bN2End;
  fdMIdx ← vset (fd_fdMIdx fd) i splitS1GIdx;
  fdWorkspaceIdx ← vset (fd_fdWorkspaceIdx fd) i (u32 (ac_curFdDataNum ac - ac_curKvSplitPart ac));
  fdS2SplitNum ← vset (fd_fdS2SplitNum fd) i (ac_curKvSplitPart ac);
  fdMSize ← vset (fd_fdMSize fd) i curFdS1gSize;
  mret { r with sr_maxS2SplitNum := Z.max (sr_maxS2SplitNum r) (ac_curKvSplitPart ac);
                sr_fdRes := { fd with fd_fdBN2Idx := fdBN2Idx; fd_fdMIdx := fdMIdx; fd_fdWorkspaceIdx := fdWorkspaceIdx;
                                      fd_fdS2SplitNum := fdS2SplitNum; fd_fdMSize := fdMSize };
                sr_numOfFdHead := u32 (i + 1) }.

(** ** One core *)

(** The load limit of the next core. *)
Definition core_limit (ac : AssignContext) : HostM Z :=
  avgCost ← c_quot (ac_unassignedCost ac) (u32 (aicCoreNum_ k - ac_curCoreIdx ac));
  mret (if negb (supportFd k) then Z.max avgCost (ci_maxS1GCost (costInfo sc)) else avgCost).

Definition AssignBlocksToCore (ac : AssignContext) (r : SplitResult) : Sched (AssignContext * SplitResult) :=
  limit ← lift (core_limit ac);
  let ac := { ac with ac_coreCache := {| cc_costLimit := limit; cc_cost := 0; cc_block := 0 |} } in
  ac ← AssignByBatch ac;
  ac ← AssignByRow ac;
  ac ← AssignByBlock ac;
  ac ← (if (cc_block (ac_coreCache ac) =? 0) && supportFd k then ForceAssign ac else mret ac);
  bN2End ← lift (vset (sr_bN2End r) (ac_curCoreIdx ac) (ac_curBN2Idx ac));
  gS1End ← lift (vset (sr_gS1End r) (ac_curCoreIdx ac) (ac_curS1GIdx ac));
  s2End ← lift (vset (sr_s2End r) (ac_curCoreIdx ac) (ac_curS2Idx ac));
  let r := { r with sr_bN2End := bN2End; sr_gS1End := gS1End; sr_s2End := s2End;
                    sr_maxCost := Z.max (sr_maxCost r) (cc_cost (ac_coreCache ac)) } in
  let ac := { ac with ac_unassignedCost := i64 (ac_unassignedCost ac - cc_cost (ac_coreCache ac)) } in
  record ← lift (IsNeedRecordFDInfo ac r);
  '(ac, r) ← (if record : bool then r ← lift (RecordFDInfo ac r); mret ({ ac with ac_curKvSplitPart := 1 }, r)
              else mret (ac, r));
  let c := ac_s1GCache ac in
  mret (if (sg_s2Start c <? ac_curS2Idx ac) && (ac_curS2Idx ac <=? sg_s2End c)
        then { ac with ac_curKvSplitPart := u32 (ac_curKvSplitPart ac + 1) } else ac, r).

(** ** All cores *)

(** The cursor at the first row of the first batch. *)
Definition first_cursor : Sched AssignContext :=
  let ci := costInfo sc in
  cost ← lift (vget (ci_bN2CostOfEachBatch ci) 0);
  block ← lift (vget (ci_bN2BlockOfEachBatch ci) 0);
  bc ← lift (CalcBatchCache k 0);
  c ← CalcS1GCache k 0 sc bc new_S1GCache;
  mret { new_AssignContext with ac_unassignedCost := ci_totalCost ci; ac_bN2Cost := cost; ac_bN2Block := block;
                                ac_batchCache := bc; ac_s1GCache := c; ac_curS2Idx := sg_s2Start c }.

(** The loop over the cores is left by [return] when a core exceeds [costLimit]
    ([None]), and by [break] when nothing is left. *)
Definition CalcSplitPlan (costLimit : Z) (r : SplitResult) : Sched SplitResult :=
  if aicCoreNum_ k =? 0 then mret r
  else
    let r := { r with sr_maxCost := 0; sr_usedCoreNum := 0 } in
    ac ← first_cursor;
    '(returned, ac, r) ← for_acc 0 (aicCoreNum_ k) (false, ac, r) (fun i '(_, ac, r) =>
      if costLimit <? sr_maxCost r then mret (inr (true, ac, r))
      else if ac_isFinished ac || (ac_unassignedCost ac <=? 0) then mret (inr (false, ac, r))
      else
        '(ac, r) ← AssignBlocksToCore { ac with ac_curCoreIdx := i } r;
        mret (inl (false, ac, r)));
    mret (if returned : bool then r else { r with sr_usedCoreNum := u32 (ac_curCoreIdx ac + 1) }).
End Assign.

(** ** Balancing the reductions *)

(** The loop over the vector cores of one reduction. *)
Definition split_head (i mSize curFDVectorNum curAveMSize : Z) (st : Z * FlashDecodeResult) : Sched (Z * FlashDecodeResult) :=
  for_fold 0 curFDVectorNum st (fun vid '(curCoreIndex, fd) =>
    fdIdx ← lift (vset (fd_fdIdx fd) curCoreIndex i);
    fdMStart ← lift (vset (fd_fdMStart fd) curCoreIndex (u32 (vid * curAveMSize)));
    fdMNum ← lift (vset (fd_fdMNum fd) curCoreIndex
                     (if vid <? u32 (curFDVectorNum - 1) then curAveMSize else u32 (mSize - u32 (vid * curAveMSize))));
    mret (u32 (curCoreIndex + 1), { fd with fd_fdIdx := fdIdx; fd_fdMStart := fdMStart; fd_fdMNum := fdMNum })).

Definition SplitFD (k : SasKernel) (r : SplitResult) : Sched SplitResult :=
  let fd := sr_fdRes r in
  let load i := (num ← vget (fd_fdS2SplitNum fd) i; m ← vget (fd_fdMSize fd) i; mret (u32 (num * m))) in
  totalFDLoad ← for_fold 0 (sr_numOfFdHead r) 0 (fun i total => l ← lift (load i); mret (u64 (total + l)));
  averageLoad ← lift (c_quot totalFDLoad (aivCoreNum_ k));
  '(curCoreIndex, fd) ← for_fold 0 (sr_numOfFdHead r) (0, fd) (fun i st =>
    l ← lift (load i);
    mSize ← lift (vget (fd_fdMSize fd) i);
    q ← lift (c_quot l averageLoad);
    curAveMSize ← lift (c_quot mSize (u32 q));
    split_head i mSize (u32 q) curAveMSize st);
  mret { r with sr_fdRes := { fd with fd_fdUsedVecNum := curCoreIndex } }.

(** ** The plan *)

Definition BalanceSchedule (fuel : nat) (k : SasKernel) (r : SplitResult) : Sched SplitResult :=
  sc ← CalcSplitInfo k (new_SplitContext (u32 (batchSize_ k)));
  if si_isKvSeqAllZero (splitInfo sc) then
    bN2End ← lift (vset (sr_bN2End r) 0 (bn2_total k));
    gS1End ← lift (vset (sr_gS1End r) 0 0);
    s2End ← lift (vset (sr_s2End r) 0 0);
    mret { r with sr_usedCoreNum := 1; sr_bN2End := bN2End; sr_gS1End := gS1End; sr_s2End := s2End }
  else
    sc ← CalcCostInfo k sc;
    let r := { r with sr_maxCost := INT64_MAX; sr_usedCoreNum := 1 } in
    r ← CalcSplitPlan fuel k sc (sr_maxCost r) r;
    r ← (if 0 <? sr_numOfFdHead r then SplitFD k r else mret r);
    mret { r with sr_usedCoreNum := Z.max (sr_usedCoreNum r) 1 }.
