(* ===== verification/SasMetaOut.v ===== *)
(** The metadata that [SparseAttnSharedkvMetadata] writes and the attention kernel
    reads: the layout of [sparse_attn_sharedkv_metadata.h], [GenMetaData], and the
    entry point [Compute] of the AICPU kernel. *)

From S2P Require Import Prelude AscendC TilingContext Aicpu SasMeta SasMetaCost SasMetaAssign.

(** ** Layout *)

Definition AIC_CORE_NUM : Z := 36.
Definition AIV_CORE_NUM : Z := 72.
Definition SAS_META_SIZE : Z := 1024.
Definition FA_METADATA_SIZE : Z := 8.
Definition FD_METADATA_SIZE : Z := 8.

Definition FA_CORE_ENABLE_INDEX : Z := 0.
Definition FA_BN2_START_INDEX : Z := 1.
Definition FA_M_START_INDEX : Z := 2.
Definition FA_S2_START_INDEX : Z := 3.
Definition FA_BN2_END_INDEX : Z := 4.
Definition FA_M_END_INDEX : Z := 5.
Definition FA_S2_END_INDEX : Z := 6.
Definition FA_FIRST_FD_DATA_WORKSPACE_IDX_INDEX : Z := 7.

Definition FD_CORE_ENABLE_INDEX : Z := 0.
Definition FD_BN2_IDX_INDEX : Z := 1.
Definition FD_M_IDX_INDEX : Z := 2.
Definition FD_WORKSPACE_IDX_INDEX : Z := 3.
Definition FD_WORKSPACE_NUM_INDEX : Z := 4.
Definition FD_M_START_INDEX : Z := 5.
Definition FD_M_NUM_INDEX : Z := 6.

(** The word of an attribute, as the attention kernel addresses it. *)
Definition GetAttrAbsIndex (coreIdx metaIdx : Z) (isAIV : bool) : Z :=
  if isAIV then u32 (u32 (FA_METADATA_SIZE * AIC_CORE_NUM + u32 (FD_METADATA_SIZE * coreIdx)) + metaIdx)
  else u32 (u32 (FA_METADATA_SIZE * coreIdx) + metaIdx).

(** The words of the buffer seen as [SasMetaData]: [faMetadata[36][8]], then
    [fdMetadata[72][8]].  A first index outside its array is a fault. *)
Abbreviation MetaM := (HM (list Z)).

Definition write_word (i v : Z) : MetaM unit := fun buf => buf' ← vset buf i (u32 v); Ok (tt, buf').

Definition faMetadata (i j v : Z) : MetaM unit :=
  if i <? AIC_CORE_NUM then write_word (i * FA_METADATA_SIZE + j) v else fault VectorIndex.

Definition fdMetadata (i j v : Z) : MetaM unit :=
  if i <? AIV_CORE_NUM then write_word (AIC_CORE_NUM * FA_METADATA_SIZE + i * FD_METADATA_SIZE + j) v else fault VectorIndex.

(** ** [GenMetaData] *)

(** [i == 0 ? 0 : v[i - 1]]. *)
Definition prev_end (v : list Z) (i : Z) : HostM Z := if i =? 0 then mret 0 else vget v (i - 1).

Definition gen_fa (r : SplitResult) (i : Z) : MetaM unit :=
  if sr_usedCoreNum r <=? i then faMetadata i FA_CORE_ENABLE_INDEX 0
  else
    _ ← faMetadata i FA_CORE_ENABLE_INDEX 1;
    bN2Start ← lift (prev_end (sr_bN2End r) i);
    _ ← faMetadata i FA_BN2_START_INDEX bN2Start;
    mStart ← lift (prev_end (sr_gS1End r) i);
    _ ← faMetadata i FA_M_START_INDEX mStart;
    s2Start ← lift (prev_end (sr_s2End r) i);
    _ ← faMetadata i FA_S2_START_INDEX s2Start;
    bN2End ← lift (vget (sr_bN2End r) i);
    _ ← faMetadata i FA_BN2_END_INDEX bN2End;
    mEnd ← lift (vget (sr_gS1End r) i);
    _ ← faMetadata i FA_M_END_INDEX mEnd;
    s2End ← lift (vget (sr_s2End r) i);
    _ ← faMetadata i FA_S2_END_INDEX s2End;
    ws ← lift (vget (sr_firstFdDataWorkspaceIdx r) i);
    faMetadata i FA_FIRST_FD_DATA_WORKSPACE_IDX_INDEX ws.

Definition gen_fd (r : SplitResult) (i : Z) : MetaM unit :=
  let fd := sr_fdRes r in
  if fd_fdUsedVecNum fd <=? i then fdMetadata i FD_CORE_ENABLE_INDEX 0
  else
    _ ← fdMetadata i FD_CORE_ENABLE_INDEX 1;
    curFdIdx ← lift (vget (fd_fdIdx fd) i);
    bN2 ← lift (vget (fd_fdBN2Idx fd) curFdIdx);
    _ ← fdMetadata i FD_BN2_IDX_INDEX bN2;
    m ← lift (vget (fd_fdMIdx fd) curFdIdx);
    _ ← fdMetadata i FD_M_IDX_INDEX m;
    ws ← lift (vget (fd_fdWorkspaceIdx fd) curFdIdx);
    _ ← fdMetadata i FD_WORKSPACE_IDX_INDEX ws;
    num ← lift (vget (fd_fdS2SplitNum fd) curFdIdx);
    _ ← fdMetadata i FD_WORKSPACE_NUM_INDEX num;
    mStart ← lift (vget (fd_fdMStart fd) i);
    _ ← fdMetadata i FD_M_START_INDEX mStart;
    mNum ← lift (vget (fd_fdMNum fd) i);
    fdMetadata i FD_M_NUM_INDEX mNum.

Definition GenMetaData (k : SasKernel) (r : SplitResult) : MetaM unit :=
  _ ← for_range 0 (aicCoreNum_ k) (gen_fa r);
  for_range 0 (aivCoreNum_ k) (gen_fd r).

(** ** [Compute] *)

(** The status and, when the kernel gets that far, the new content of the
    metadata tensor.  [typeCost] is the initial content of the cost table, which
    the constructor leaves uninitialised. *)
Definition Compute' (fuel : nat) (typeCost : BlockCost) (ctx : CpuKernelContext) : HostM (Z * option (list Z)) :=
  prepared ← Prepare ctx;
  match prepared with
  | None => mret (KERNEL_STATUS_PARAM_INVALID, None)
  | Some k =>
      '(r, _) ← BalanceSchedule fuel k (new_SplitResult (aicCoreNum_ k) (aivCoreNum_ k)) typeCost;
      buf ← deref (tensor_data (metaData_ k)) "metaData_->GetData()";
      '(_, buf) ← GenMetaData k r buf;
      mret (KERNEL_STATUS_OK, Some buf)
  end.

(** ** A small run *)

Definition attr_int (n : Z) : option AttrValue := Some {| GetInt := n; GetString := ""; GetBool := false |}.
Definition attr_str (s : string) : option AttrValue := Some {| GetInt := 0; GetString := s; GetBool := false |}.

Definition int_tensor (l : list Z) : option CpuTensor :=
  Some {| GetData := Some l; GetDimSize0 := Some (Z.of_nat (length l)) |}.

(** Sequences of the given query and key lengths in the layout TND, on [cores]
    cube cores and twice as many vector cores, with compressed keys. *)
Definition sample_ctx (cores : Z) (cu_seqlens_q seqused_kv : list Z) : CpuKernelContext := {|
  Input := fun i => if i =? 0 then int_tensor cu_seqlens_q else if i =? 4 then int_tensor seqused_kv else None;
  Output := fun _ => int_tensor (replicate 1024 0);
  GetAttr := fun name =>
    if (name =? "num_heads_q")%string then attr_int 64
    else if (name =? "num_heads_kv")%string then attr_int 1
    else if (name =? "head_dim")%string then attr_int 512
    else if (name =? "layout_q")%string then attr_str "TND"
    else if (name =? "cmp_ratio")%string then attr_int 4
    else if (name =? "aic_core_num")%string then attr_int cores
    else if (name =? "aiv_core_num")%string then attr_int (2 * cores)
    else None |}.

(** The status and the first rows of [faMetadata]. *)
Definition run_rows (fuel : nat) (n : nat) (ctx : CpuKernelContext) : HostM (Z * list (list Z)) :=
  '(status, buf) ← Compute' fuel (fun _ _ => 0) ctx;
  let words := default [] buf in
  mret (status, map (fun i => take 8 (drop (8 * i) words)) (seq 0 n)).
