(* ===== verification/SasSpec.v ===== *)
(** What a plan of [SparseAttnSharedkvMetadata] has to be, independently of how
    it is computed: positions in the sequence of all rows, the cost that remains
    from a position on, and the interface [RowCosts] between the cost model
    ([SasMetaCost.v]) and the assignment ([SasMetaAssign.v]). *)

From S2P Require Import Prelude AscendC TilingContext Aicpu SasMeta SasMetaCost SasMetaAssign.

(** ** Sums over a range *)

Definition zsum (f : Z -> Z) (lo hi : Z) : Z := foldr Z.add 0 (map f (zrange lo hi)).

Lemma zsum_nil f lo hi : hi <= lo -> zsum f lo hi = 0.
Proof. intros. unfold zsum. by rewrite zrange_nil. Qed.

Lemma zsum_cons f lo hi : lo < hi -> zsum f lo hi = f lo + zsum f (lo + 1) hi.
Proof. intros. unfold zsum. by rewrite zrange_cons. Qed.

Lemma foldr_add_app (l1 l2 : list Z) : foldr Z.add 0 (l1 ++ l2) = foldr Z.add 0 l1 + foldr Z.add 0 l2.
Proof. induction l1 as [|x l1 IH]; simpl; lia. Qed.

Lemma zsum_split f lo mid hi : lo <= mid <= hi -> zsum f lo hi = zsum f lo mid + zsum f mid hi.
Proof. intros. unfold zsum. by rewrite (zrange_split lo mid hi), map_app, foldr_add_app. Qed.

Lemma zsum_snoc f lo i : lo <= i -> zsum f lo (i + 1) = zsum f lo i + f i.
Proof. intros. rewrite (zsum_split f lo i (i + 1)), (zsum_cons f i), (zsum_nil f (i + 1)) by lia. lia. Qed.

Lemma zsum_nonneg f lo hi : (forall i, lo <= i < hi -> 0 <= f i) -> 0 <= zsum f lo hi.
Proof.
  unfold zsum. intros Hf. assert (Forall (fun i => 0 <= f i) (zrange lo hi)) as Hall
    by (apply list.Forall_forall; intros i Hi%elem_of_zrange; auto).
  induction Hall; simpl; lia.
Qed.

Lemma zsum_ext f g lo hi : (forall i, lo <= i < hi -> f i = g i) -> zsum f lo hi = zsum g lo hi.
Proof.
  intros Hfg. unfold zsum. f_equal. apply map_ext_in. intros x Hx%list_elem_of_In.
  by apply Hfg, elem_of_zrange.
Qed.

Lemma zsum_zero f lo hi : (forall i, lo <= i < hi -> f i = 0) -> zsum f lo hi = 0.
Proof.
  intros Hf. rewrite (zsum_ext f (fun _ => 0)) by done. unfold zsum. induction (zrange lo hi); simpl; lia.
Qed.

Lemma zsum_const c n : 0 <= n -> zsum (fun _ => c) 0 n = c * n.
Proof.
  revert n. apply natlike_ind; [rewrite zsum_nil by lia; lia|]. intros n Hn IH.
  unfold Z.succ. rewrite zsum_snoc, IH by lia. lia.
Qed.

(** A part of a sum of non-negative terms. *)
Lemma zsum_part f lo hi a b : lo <= a -> a <= b -> b <= hi -> (forall i, lo <= i < hi -> 0 <= f i) ->
  zsum f a b <= zsum f lo hi.
Proof.
  intros H1 H2 H3 Hf. rewrite (zsum_split f lo a hi), (zsum_split f a b hi) by lia.
  pose proof (zsum_nonneg f lo a ltac:(intros; apply Hf; lia)). pose proof (zsum_nonneg f b hi ltac:(intros; apply Hf; lia)). lia.
Qed.

Lemma zsum_elem f lo hi i : lo <= i < hi -> (forall i, lo <= i < hi -> 0 <= f i) -> f i <= zsum f lo hi.
Proof.
  intros Hi Hf. pose proof (zsum_part f lo hi i (i + 1) ltac:(lia) ltac:(lia) ltac:(lia) Hf) as H.
  rewrite zsum_cons, (zsum_nil f (i + 1)) in H by lia. lia.
Qed.

(** A positive sum has a positive term. *)
Lemma zsum_pos f lo hi : 0 < zsum f lo hi -> exists i, lo <= i < hi /\ 0 < f i.
Proof.
  unfold zsum. intros Hpos.
  assert (exists i, i ∈ zrange lo hi /\ 0 < f i) as (i & Hi%elem_of_zrange & H).
  { induction (zrange lo hi) as [|x l IH]; simpl in Hpos; [lia|].
    destruct (decide (0 < f x)); [exists x; split; [left|done]|].
    destruct IH as (i & Hi & H); [lia|]. exists i. split; [by right|done]. }
  eauto.
Qed.

(** ** Positions *)

(** A position: a batch and a row of it; the end is row 0 of batch [batches]. *)
Abbreviation pos := (Z * Z)%type.

Definition pos_le (p q : pos) : Prop := p.1 < q.1 \/ p.1 = q.1 /\ p.2 <= q.2.
Definition pos_lt (p q : pos) : Prop := p.1 < q.1 \/ p.1 = q.1 /\ p.2 < q.2.

#[global] Instance pos_le_refl : Reflexive pos_le.
Proof. intros [b r]. right. simpl. lia. Qed.
#[global] Instance pos_le_trans : Transitive pos_le.
Proof. intros [b1 r1] [b2 r2] [b3 r3]. unfold pos_le. simpl. lia. Qed.
#[global] Instance pos_lt_trans : Transitive pos_lt.
Proof. intros [b1 r1] [b2 r2] [b3 r3]. unfold pos_lt. simpl. lia. Qed.
#[global] Instance pos_le_dec p q : Decision (pos_le p q).
Proof. unfold pos_le. solve_decision. Defined.
#[global] Instance pos_lt_dec p q : Decision (pos_lt p q).
Proof. unfold pos_lt. solve_decision. Defined.

Lemma pos_lt_le p q : pos_lt p q -> pos_le p q.
Proof. destruct p, q. unfold pos_lt, pos_le. simpl. lia. Qed.

(** ** Work *)

Section Work.
Variable batches : Z.
Variable rows : Z -> Z.
Variable cost : Z -> Z -> Z.

Definition batch_cost (b : Z) : Z := zsum (cost b) 0 (rows b).

(** The cost of the rows from a position to the end. *)
Definition remaining (p : pos) : Z :=
  if p.1 <? batches then zsum (cost p.1) p.2 (rows p.1) + zsum batch_cost (p.1 + 1) batches else 0.

(** The cost of the rows between two positions. *)
Definition range_cost (p q : pos) : Z := remaining p - remaining q.

Definition total_cost : Z := zsum batch_cost 0 batches.

(** A position a share may start or end at: inside a batch, at the start of a batch, or at the end. *)
Definition pos_ok (p : pos) : Prop :=
  (0 <= p.1 < batches /\ 0 <= p.2 /\ (p.2 < rows p.1 \/ p.2 = 0)) \/ (p.1 = batches /\ p.2 = 0).

Hypothesis rows_nonneg : forall b, 0 <= b < batches -> 0 <= rows b.
Hypothesis cost_nonneg : forall b r, 0 <= b < batches -> 0 <= r < rows b -> 0 <= cost b r.

Lemma batch_cost_nonneg b : 0 <= b < batches -> 0 <= batch_cost b.
Proof. intros Hb. apply zsum_nonneg. auto. Qed.

Lemma remaining_first : 0 < batches -> remaining (0, 0) = total_cost.
Proof.
  intros Hb. unfold remaining, total_cost. simpl. rewrite (proj2 (Z.ltb_lt 0 batches)) by lia.
  by rewrite (zsum_cons batch_cost 0 batches) by lia.
Qed.

Lemma remaining_end : remaining (batches, 0) = 0.
Proof. unfold remaining. simpl. by rewrite Z.ltb_irrefl. Qed.

(** Past the rows of batch [b]. *)
Lemma remaining_next b r : 0 <= b < batches -> 
  remaining (b, r) = zsum (cost b) r (rows b) + remaining (b + 1, 0).
Proof.
  intros Hb. unfold remaining. simpl. rewrite (proj2 (Z.ltb_lt b batches)) by lia.
  destruct (b + 1 <? batches) eqn:E; bool_prop.
  - by rewrite (zsum_cons batch_cost (b + 1) batches) by lia.
  - by rewrite (zsum_nil batch_cost) by lia.
Qed.

Lemma remaining_row b r r' : 0 <= b < batches -> 0 <= r <= r' -> r' <= rows b ->
  remaining (b, r) = zsum (cost b) r r' + remaining (b, r').
Proof. intros Hb Hr Hr'. rewrite (remaining_next b r), (remaining_next b r') by done. rewrite (zsum_split (cost b) r r' (rows b)) by lia. lia. Qed.

Lemma rem_nonneg b r : 0 <= b < batches -> 0 <= r -> 0 <= zsum (cost b) r (rows b).
Proof. intros Hb Hr. apply zsum_nonneg. intros. apply cost_nonneg; lia. Qed.

Lemma remaining_nonneg p : 0 <= p.1 -> 0 <= p.2 -> 0 <= remaining p.
Proof.
  intros H1 H2. unfold remaining. destruct (p.1 <? batches) eqn:E; bool_prop; [|lia].
  pose proof (rem_nonneg p.1 p.2 ltac:(lia) H2).
  pose proof (zsum_nonneg batch_cost (p.1 + 1) batches ltac:(intros; apply batch_cost_nonneg; lia)). lia.
Qed.
End Work.

(** ** The interface of the cost model

    What the assignment relies on: the number of rows of a batch, the cost of a
    row and of its last block, and that the tables of [costInfo] and the row
    caches hold these numbers. *)
Class RowCosts (k : SasKernel) (sc : SplitContext) : Type := {
  batches : Z;
  rows : Z -> Z;
  row_cost : Z -> Z -> Z;
  row_last : Z -> Z -> Z;
  row_block : Z -> Z -> Z;
  batch_of : Z -> BatchCache;
  max_cost : Z;
  rc_kvHeadNum : kvHeadNum_ k = 1;
  rc_batchSize : batchSize_ k = batches;
  rc_batches : 0 < batches < 2 ^ 31;
  rc_rows b : 0 <= b < batches -> 0 <= rows b < 2 ^ 32 - 1;
  rc_cost b r : 0 <= b < batches -> 0 <= r < rows b -> 0 <= row_cost b r <= max_cost;
  rc_last b r : 0 <= b < batches -> 0 <= r < rows b -> 0 <= row_last b r <= row_cost b r;
  rc_empty b r : 0 <= b < batches -> 0 <= r < rows b -> row_block b r = 0 <-> row_cost b r = 0;
  (** empty rows come first *)
  rc_prefix b r r' : 0 <= b < batches -> 0 <= r <= r' -> r' < rows b -> 0 < row_cost b r -> 0 < row_cost b r';
  rc_total : total_cost batches rows row_cost < 2 ^ 62;
  rc_max : 0 <= max_cost < 2 ^ 62;
  rc_maxS1GCost : ci_maxS1GCost (costInfo sc) = max_cost;
  rc_totalCost : ci_totalCost (costInfo sc) = total_cost batches rows row_cost;
  rc_bN2Cost b : 0 <= b < batches ->
    vget (ci_bN2CostOfEachBatch (costInfo sc)) b = Ok (batch_cost rows row_cost b);
  rc_bN2Block b : 0 <= b < batches -> exists n, vget (ci_bN2BlockOfEachBatch (costInfo sc)) b = Ok n;
  rc_bN2Last b : 0 <= b < batches -> 0 < batch_cost rows row_cost b ->
    vget (ci_bN2LastBlockCostOfEachBatch (costInfo sc)) b = Ok (row_last b (rows b - 1));
  rc_batch b : 0 <= b < batches -> CalcBatchCache k b = Ok (batch_of b);
  rc_row b r c s : 0 <= b < batches -> 0 <= r -> r < rows b \/ r = 0 ->
    wp (CalcS1GCache k r sc (batch_of b) c) (fun c' _ => sg_s2Start c' = 0 /\
      (r < rows b -> sg_s1GCost c' = row_cost b r /\ sg_s1GLastBlockCost c' = row_last b r /\
                     sg_s1GBlock c' = row_block b r)) s }.
