(* ===== verification/SasAssignLemmas.v ===== *)
(** Correctness of [AssignByBatch] and [AssignByRow] without flash decoding,
    against the interface [RowCosts]: the cursor moves forward, the load of the
    core is the cost of the rows passed, the loops end, and the row loop never
    takes the last row of a batch, so the [do]-[while] inside it always finds a
    row with blocks. *)

From S2P Require Import Prelude AscendC TilingContext Aicpu SasMeta SasMetaCost SasMetaAssign SasSpec.

Section AssignProofs.
Context (k : SasKernel) (sc : SplitContext) {RC : RowCosts k sc}.

Abbreviation rem b r := (zsum (row_cost b) r (rows b)).
Abbreviation remaining_at := (remaining batches rows row_cost).

Lemma in_rows_nonneg b : 0 <= b < batches -> 0 <= rows b.
Proof. intros Hb. pose proof (rc_rows b Hb). lia. Qed.

Lemma in_cost_nonneg b r : 0 <= b < batches -> 0 <= r < rows b -> 0 <= row_cost b r.
Proof. intros Hb Hr. pose proof (rc_cost b r Hb Hr). lia. Qed.

#[local] Hint Resolve in_rows_nonneg in_cost_nonneg : core.

Lemma rem_le_remaining b r : 0 <= b < batches -> 0 <= r -> 0 <= rem b r <= remaining_at (b, r).
Proof.
  intros Hb Hr. rewrite remaining_next by done.
  pose proof (rem_nonneg batches rows row_cost in_cost_nonneg b r Hb Hr).
  pose proof (remaining_nonneg batches rows row_cost in_cost_nonneg (b + 1, 0)). simpl in *. lia.
Qed.

Lemma remaining_le_total p : pos_ok batches rows p -> 0 <= remaining_at p <= total_cost batches rows row_cost.
Proof.
  destruct p as [b r]. intros Hp. split.
  { apply remaining_nonneg; [auto| |]; unfold pos_ok in Hp; simpl in *; pose proof rc_batches; lia. }
  assert (forall b, 0 <= b < batches -> 0 <= batch_cost rows row_cost b) as Hbc
    by exact (batch_cost_nonneg batches rows row_cost in_cost_nonneg).
  destruct Hp as [(Hb & Hr & Hr')|[Hb Hr]]; simpl in *; [|subst].
  - unfold remaining, total_cost. simpl. rewrite (proj2 (Z.ltb_lt b batches)) by lia.
    rewrite (zsum_split _ 0 b batches), (zsum_cons _ b batches) by lia.
    pose proof (zsum_nonneg (batch_cost rows row_cost) 0 b ltac:(intros; apply Hbc; lia)).
    assert (rem b r <= batch_cost rows row_cost b).
    { unfold batch_cost. destruct (decide (r = 0)) as [->|]; [lia|]. apply zsum_part; [lia..|auto]. }
    lia.
  - rewrite remaining_end. apply zsum_nonneg. auto.
Qed.

(** ** The cursor *)

(** The row cache describes row [r] of batch [b]. *)
Definition row_at (b r : Z) (c : S1GCache) : Prop :=
  sg_s2Start c = 0 /\
  (r < rows b -> sg_s1GCost c = row_cost b r /\ sg_s1GLastBlockCost c = row_last b r /\ sg_s1GBlock c = row_block b r).

(** What the assignment of a core leaves alone. *)
Definition same_core (ac ac' : AssignContext) : Prop :=
  ac_curCoreIdx ac' = ac_curCoreIdx ac /\ ac_unassignedCost ac' = ac_unassignedCost ac /\
  ac_curKvSplitPart ac' = ac_curKvSplitPart ac /\ cc_costLimit (ac_coreCache ac') = cc_costLimit (ac_coreCache ac).

#[local] Instance same_core_trans : Transitive same_core.
Proof. intros a b c (? & ? & ? & ?) (? & ? & ? & ?). repeat split; congruence. Qed.

(** The cursor is at position [p]. *)
Definition cursor (p : pos) (ac : AssignContext) : Prop :=
  ac_curBN2Idx ac = p.1 /\ ac_curS1GIdx ac = p.2 /\ ac_curS2Idx ac = 0 /\ sg_s2Start (ac_s1GCache ac) = 0 /\
  if ac_isFinished ac then p = (batches, 0)
  else 0 <= p.1 < batches /\ 0 <= p.2 /\ (p.2 < rows p.1 \/ p.2 = 0) /\ ac_curBIdx ac = p.1 /\
       ac_batchCache ac = batch_of p.1 /\ ac_bN2Cost ac = rem p.1 p.2 /\ row_at p.1 p.2 (ac_s1GCache ac).

Lemma cursor_pos_ok p ac : cursor p ac -> pos_ok batches rows p.
Proof. intros (_ & _ & _ & _ & H). destruct (ac_isFinished ac); [right; by subst|left; naive_solver]. Qed.

(** The load of the core and the rest add up to [U]. *)
Definition loaded (U : Z) (p : pos) (ac : AssignContext) : Prop :=
  0 <= cc_cost (ac_coreCache ac) /\ cc_cost (ac_coreCache ac) + remaining_at p = U.

(** The load stays within the limit and half of the largest row. *)
Definition within (L : Z) (ac : AssignContext) : Prop :=
  cc_costLimit (ac_coreCache ac) = L /\ cc_cost (ac_coreCache ac) <= L + max_cost /c 2.

Lemma bn2_total_batches : bn2_total k = batches.
Proof.
  unfold bn2_total. rewrite rc_kvHeadNum, rc_batchSize, Z.mul_1_r. pose proof rc_batches. by unwrap64.
Qed.

Lemma last_le_max b r : 0 <= b < batches -> 0 <= r < rows b -> 0 <= row_last b r /c 2 <= max_cost /c 2.
Proof.
  intros Hb Hr. pose proof (rc_last b r Hb Hr). pose proof (rc_cost b r Hb Hr). split.
  - apply Z.quot_pos; lia.
  - apply Z.quot_le_mono; lia.
Qed.

Lemma half_max : 0 <= max_cost /c 2 <= max_cost.
Proof. pose proof rc_max. zlia. Qed.

(** An unfinished cursor, its parts named. *)
Lemma cursor_open b r ac : ac_isFinished ac = false -> cursor (b, r) ac ->
  0 <= b < batches /\ 0 <= r /\ (r < rows b \/ r = 0) /\ ac_curBIdx ac = b /\ ac_curBN2Idx ac = b /\ ac_curS1GIdx ac = r /\
  ac_curS2Idx ac = 0 /\ ac_batchCache ac = batch_of b /\ ac_bN2Cost ac = rem b r /\ row_at b r (ac_s1GCache ac).
Proof. unfold cursor. intros -> H. simpl in H. naive_solver. Qed.

(** A batch with work left has a last row, and that row has blocks. *)
Lemma work_left b r : 0 <= b < batches -> 0 <= r -> 0 < rem b r -> r < rows b /\ 0 < row_cost b (rows b - 1).
Proof.
  intros Hb Hr (i & Hi & Hpos)%zsum_pos. split; [lia|]. apply (rc_prefix b i); [done|lia..|done].
Qed.

Lemma batch_work b r : 0 <= b < batches -> 0 <= r -> 0 < rem b r -> 0 < batch_cost rows row_cost b.
Proof.
  intros Hb Hr Hrem. destruct (work_left b r Hb Hr Hrem) as [Hr' Hlast]. unfold batch_cost.
  assert (row_cost b (rows b - 1) <= rem b 0) by (apply zsum_elem; [lia|auto]). lia.
Qed.

Section Core.
Variable fuel : nat.
Variables U L : Z.
Hypothesis HU : U < 2 ^ 62.
Hypothesis HL : max_cost <= L < 2 ^ 62.

(** Whether the rest of the batch fits, as the code decides it. *)
Definition rest_fits (p : pos) (ac : AssignContext) : bool :=
  (rem p.1 p.2 =? 0) ||
  (cc_cost (ac_coreCache ac) + rem p.1 p.2 <=? L + row_last p.1 (rows p.1 - 1) /c 2).

Lemma batch_fits_spec p ac : ac_isFinished ac = false -> cursor p ac -> loaded U p ac -> within L ac ->
  batch_fits sc ac = Ok (rest_fits p ac).
Proof.
  destruct p as [b r]. unfold cursor. intros Hfin (H1 & H2 & H3 & H4 & H5) [Hc HU'] [HL' Hw]. rewrite Hfin in H5. simpl in *.
  destruct H5 as (Hb & Hr & Hrr & HbI & Hbc & HbN & _). unfold batch_fits, rest_fits. simpl. rewrite HbN, HbI.
  pose proof (rem_le_remaining b r Hb Hr). destruct (rem b r =? 0) eqn:E; bool_prop; [done|].
  rewrite rc_bN2Last; [|done|apply (batch_work b r); [done..|lia]]. rewrite bind_Ok. cbn [mret outcome_ret orb].
  unfold mret, outcome_ret. f_equal. unfold IsWithinTolerance, FA_TOLERANCE_RATIO. rewrite HL'.
  destruct (work_left b r Hb Hr ltac:(lia)) as [Hrb _].
  assert (0 <= row_last b (rows b - 1) /c 2 <= max_cost /c 2) by (apply last_le_max; [done|lia]). pose proof half_max. pose proof rc_max. by unwrap64.
Qed.
(** ** Whole batches *)

(** What a core has taken so far, from position [p] to position [q]. *)
Definition taken (p q : pos) (ac0 ac : AssignContext) : Prop :=
  cursor q ac /\ loaded U q ac /\ within L ac /\ pos_le p q /\ same_core ac0 ac.

Lemma load_bounds p ac : pos_ok batches rows p -> loaded U p ac -> within L ac -> 0 <= remaining_at p /\ 0 <= cc_cost (ac_coreCache ac) <= U.
Proof. intros Hp [H1 H2] _. pose proof (remaining_le_total p Hp). lia. Qed.

(** Loading the rest of a batch that fits. *)
Lemma load_rest b r n ac ac' : ac_isFinished ac = false -> cursor (b, r) ac -> loaded U (b, r) ac -> within L ac ->
  rest_fits (b, r) ac = true -> ac_coreCache ac' = load_core (rem b r) n (ac_coreCache ac) ->
  loaded U (b + 1, 0) ac' /\ within L ac'.
Proof.
  intros Hfin Hc Hl Hw Hf Hcore. pose proof (load_bounds _ _ (cursor_pos_ok _ _ Hc) Hl Hw) as [_ Hcc].
  pose proof (cursor_open b r ac Hfin Hc) as (Hb & Hr & _). destruct Hl as [Hl1 Hl2], Hw as [Hw1 Hw2].
  pose proof (rem_le_remaining b r Hb Hr) as Hrem. rewrite remaining_next in Hl2, Hrem by done.
  unfold loaded, within. rewrite Hcore. simpl. unwrap64. split; [lia|]. split; [done|].
  unfold rest_fits in Hf. simpl in Hf. apply orb_prop in Hf as [Hf|Hf]; bool_prop; [lia|].
  destruct (decide (rem b r = 0)) as [->|]; [lia|]. destruct (work_left b r Hb Hr ltac:(lia)) as [Hrb _].
  assert (0 <= row_last b (rows b - 1) /c 2 <= max_cost /c 2) by (apply last_le_max; [done|lia]). lia.
Qed.

Lemma AssignByBatch_spec p ac0 s :
  ac_isFinished ac0 = false -> taken p p ac0 ac0 -> batches < Z.of_nat fuel ->
  wp (AssignByBatch fuel k sc ac0) (fun ac _ => exists q, taken p q ac0 ac /\
    (ac_isFinished ac = false -> rest_fits q ac = false)) s.
Proof.
  intros Hfin0 Ht0 Hfuel. unfold AssignByBatch. rewrite Hfin0.
  apply (wp_while (fun ac _ => ac_isFinished ac = false /\ exists q, taken p q ac0 ac)
           (fun ac => batches - ac_curBN2Idx ac)).
  2,3: destruct p as [b0 r0], Ht0 as [Hc _]; apply cursor_open in Hc; [|done]; lia.
  2: eauto.
  clear s. intros ac s [Hfin ([b r] & Hc & Hl & Hw & Hle & Hsame)].
  apply wp_bind. eapply wp_lift; [by apply (batch_fits_spec (b, r))|].
  destruct (rest_fits (b, r) ac) eqn:Hfits; cbn [negb]; [|apply wp_ret; exists (b, r); split; [exact (conj Hc (conj Hl (conj Hw (conj Hle Hsame))))|done]].
  pose proof (cursor_open b r ac Hfin Hc) as (Hb & Hr & Hrr & HbI & HbN2 & HsI & HsS & Hbc & Hcost & Hrow).
  cbv zeta. simpl. pose proof rc_batches. rewrite HbN2, Hcost, bn2_total_batches, rc_kvHeadNum. unwrap64.
  assert (pos_le p (b + 1, 0)) as Hle' by (transitivity (b, r); [done|left; simpl; lia]).
  destruct (b + 1 =? batches) eqn:Hend; bool_prop.
  - apply wp_ret. exists (b + 1, 0). split; [|done]. split.
    { unfold cursor. simpl. split_and!; [done..|apply Hrow|by rewrite Hend]. }
    edestruct (load_rest b r (ac_bN2Block ac) ac) as [H1 H2]; [done..| | split; [exact H1|split; [exact H2|by split]]]. done.
  - rewrite c_quot_pass, Z.quot_1_r by done. apply wp_bind. eapply wp_lift; [done|].
    rewrite (proj2 (Z.eqb_neq (b + 1) (ac_curBIdx ac))) by lia. cbn [negb].
    rewrite rc_batch by lia. apply wp_bind. apply wp_bind. eapply wp_lift; [done|]. apply wp_ret. simpl.
    rewrite rc_bN2Cost by lia. apply wp_bind. eapply wp_lift; [done|].
    edestruct (rc_bN2Block (b + 1)) as [n Hn]; [lia|]. rewrite Hn. apply wp_bind. eapply wp_lift; [done|].
    apply wp_bind. eapply wp_mono; [apply (rc_row (b + 1) 0); [lia|lia|by right]|]. intros c s' Hc'.
    apply wp_ret. simpl. split; [|lia]. split; [done|]. exists (b + 1, 0).
    edestruct (load_rest b r (ac_bN2Block ac) ac) as [H1 H2]; [done..| |split; [|split; [exact H1|split; [exact H2|by split]]]]; [done|].
    unfold cursor. simpl. rewrite Hfin. split_and!; try done; try lia; apply Hc'.
Qed.
(** ** Rows *)

(** The [do]-[while] loop finds the next row that has blocks. *)
Lemma next_row_spec b r ac0 s :
  0 <= b < batches -> 0 <= r -> r + 1 < rows b -> 0 < row_cost b (rows b - 1) -> rows b < Z.of_nat fuel ->
  ac_curS1GIdx ac0 = r -> ac_batchCache ac0 = batch_of b ->
  wp (next_row fuel k sc ac0) (fun ac _ => exists r' c, r < r' < rows b /\ row_at b r' c /\
    (forall i, r < i < r' -> row_cost b i = 0) /\
    ac = { ac0 with ac_curS1GIdx := r'; ac_s1GCache := c }) s.
Proof.
  intros Hb Hr Hr1 Hlast Hfuel HsI Hbc. unfold next_row.
  apply (wp_while (fun ac _ => exists i c, r <= i < rows b - 1 /\ (forall j, r < j <= i -> row_cost b j = 0) /\
             ac = { ac0 with ac_curS1GIdx := i; ac_s1GCache := c })
           (fun ac => rows b - ac_curS1GIdx ac)); [|lia..|].
  2: { exists r, (ac_s1GCache ac0). split; [lia|]. split; [intros; lia|]. destruct ac0. simpl in *. by subst. }
  clear s. intros ac s (i & c & Hi & Hno & ->). cbv zeta. simpl. pose proof (rc_rows b Hb). unwrap64. rewrite Hbc.
  apply wp_bind. eapply wp_mono; [apply (rc_row b (i + 1)); [done|lia|left; lia]|]. intros c' s' [Hs2 Hc].
  destruct Hc as (H1 & H2 & H3); [lia|]. apply wp_ret. rewrite H3. destruct (row_block b (i + 1) =? 0) eqn:E; bool_prop.
  - assert (row_cost b (i + 1) = 0) as Hz by (apply rc_empty; [done|lia|done]).
    split; [|simpl; lia]. exists (i + 1), c'. split; [|split; [|done]].
    + split; [lia|]. destruct (decide (i + 1 = rows b - 1)) as [Heq|]; [rewrite Heq in Hz; lia|lia].
    + intros j Hj. destruct (decide (j = i + 1)) as [->|]; [done|]. apply Hno. lia.
  - exists (i + 1), c'. split; [lia|]. split; [by split|]. split; [|done]. intros j Hj. apply Hno. lia.
Qed.

(** Passing a row and the empty rows after it. *)
Lemma rem_skip b r r' : r < r' < rows b -> (forall i, r < i < r' -> row_cost b i = 0) -> rem b r = row_cost b r + rem b r'.
Proof.
  intros Hr Hz. rewrite zsum_cons, (zsum_split (row_cost b) (r + 1) r' (rows b)) by lia.
  rewrite (zsum_zero (row_cost b) (r + 1) r') by (intros; apply Hz; lia). lia.
Qed.

(** Work that does not fit as a whole: its parts. *)
Lemma no_fit b r ac : 0 <= b < batches -> 0 <= r -> rest_fits (b, r) ac = false ->
  r < rows b /\ 0 < rem b r /\ 0 < row_cost b (rows b - 1) /\
  L + row_last b (rows b - 1) /c 2 < cc_cost (ac_coreCache ac) + rem b r.
Proof.
  intros Hb Hr. unfold rest_fits. simpl. intros Hf. bool_prop. pose proof (rem_le_remaining b r Hb Hr).
  destruct (work_left b r Hb Hr ltac:(lia)). lia.
Qed.

(** The last row of a batch that does not fit is never taken. *)
Lemma not_last_row b r ac : 0 <= b < batches -> 0 <= r -> rest_fits (b, r) ac = false ->
  cc_cost (ac_coreCache ac) + row_cost b r <= L + row_last b r /c 2 -> r + 1 < rows b.
Proof.
  intros Hb Hr Hno Hfits. destruct (no_fit b r ac Hb Hr Hno) as (Hrr & _ & _ & Hlt).
  destruct (decide (r = rows b - 1)) as [Heq|]; [|lia]. rewrite <- Heq in Hlt.
  rewrite zsum_cons, zsum_nil in Hlt by lia. lia.
Qed.

(** The row loop stops before a row that does not fit. *)
Definition row_stops (q : pos) (ac : AssignContext) : Prop :=
  L + row_last q.1 q.2 /c 2 < cc_cost (ac_coreCache ac) + row_cost q.1 q.2.

Lemma AssignByRow_spec p q ac0 ac1 s :
  taken p q ac0 ac1 -> (ac_isFinished ac1 = false -> rest_fits q ac1 = false) ->
  (forall b, 0 <= b < batches -> rows b < Z.of_nat fuel) ->
  wp (AssignByRow fuel k sc ac1) (fun ac _ => exists q', taken p q' ac0 ac /\
    (ac_isFinished ac = false -> q'.2 < rows q'.1 /\ 0 < rem q'.1 q'.2 /\ row_stops q' ac)) s.
Proof.
  intros Ht Hnofit Hfuel. unfold AssignByRow. destruct (ac_isFinished ac1) eqn:Hfin1.
  { apply wp_ret. exists q. split; [done|]. congruence. }
  specialize (Hnofit eq_refl).
  apply (wp_while (fun ac _ => ac_isFinished ac = false /\ exists q, taken p q ac0 ac /\ rest_fits q ac = false)
           (fun ac => rows (ac_curBN2Idx ac) - ac_curS1GIdx ac)).
  4: eauto.
  2,3: destruct q as [b r], Ht as [Hc _]; pose proof (cursor_open b r ac1 Hfin1 Hc) as (Hb & Hr & Hrr & _ & -> & -> & _);
    specialize (Hfuel b Hb); pose proof (rc_rows b Hb); lia.
  clear s ac1 q Ht Hnofit Hfin1. intros ac s [Hfin ([b r] & (Hc & Hl & Hw & Hle & Hsame) & Hnofit)].
  pose proof (cursor_open b r ac Hfin Hc) as (Hb & Hr & Hrr & HbI & HbN2 & HsI & HsS & Hbc & Hcost & Hrow).
  destruct (no_fit b r ac Hb Hr Hnofit) as (Hrows & Hrem & Hlast & Hlt). destruct Hrow as [Hs2 Hrow].
  destruct (Hrow Hrows) as (Hc1 & Hc2 & Hc3). pose proof (rem_le_remaining b r Hb Hr). pose proof half_max. pose proof rc_max.
  pose proof (last_le_max b r Hb ltac:(lia)) as Hlm. pose proof (rc_cost b r Hb ltac:(lia)) as Hrc.
  assert (row_cost b r <= rem b r) by (apply zsum_elem; [lia|intros; apply in_cost_nonneg; lia]).
  destruct Hl as [Hl1 Hl2], Hw as [Hw1 Hw2]. cbv zeta. unfold IsWithinTolerance, FA_TOLERANCE_RATIO.
  rewrite Hc1, Hc2, Hc3, Hw1. unwrap64.
  destruct (_ <=? L + _) eqn:Hfits; bool_prop; cbn [negb].
  2: { apply wp_ret. exists (b, r). split; [by repeat (split; [done|])|]. intros _. split; [done|]. split; [done|]. exact Hfits. }
  assert (r + 1 < rows b) as Hr1 by by apply (not_last_row b r ac).
  apply wp_bind. eapply wp_mono; [apply (next_row_spec b r); [done..|by apply Hfuel|done|done]|].
  intros ac' s' (r' & c & Hr' & Hrow' & Hz & ->). apply wp_ret. simpl. pose proof (rem_skip b r r' Hr' Hz) as Hskip.
  assert (0 < rem b r').
  { assert (row_cost b (rows b - 1) <= rem b r') by (apply zsum_elem; [lia|intros; apply in_cost_nonneg; lia]). lia. }
  rewrite Hcost, (proj2 (Z.ltb_lt (row_cost b r) (rem b r))) by lia. unwrap64.
  split; [|rewrite HbN2, HsI; lia]. split; [done|]. exists (b, r'). split.
  - unfold taken, cursor, loaded, within. simpl. rewrite Hfin. unwrap64.
    rewrite (remaining_next _ _ _ b r), Hskip in Hl2 by done. rewrite (remaining_next _ _ _ b r') by done.
    split; [split_and!; try done; try lia; apply Hrow'|]. split; [lia|]. split; [lia|].
    split; [transitivity (b, r); [done|right; simpl; lia]|done].
  - unfold rest_fits. simpl. unwrap64. apply orb_false_intro; [apply Z.eqb_neq; lia|apply Z.leb_gt]. lia.
Qed.
End Core.
End AssignProofs.
