(* ===== verification/SasPlanLemmas.v ===== *)
(** The plan without flash decoding, against the interface [RowCosts]: one core
    takes a non-empty stretch of rows within its limit, and the loop over the
    cores cuts the sequence of all rows into consecutive stretches, the last of
    which ends at the end. *)

From S2P Require Import Prelude AscendC TilingContext Aicpu SasMeta SasMetaCost SasMetaAssign SasSpec SasAssignLemmas.

(** ** Plans *)

(** The end of core [i]'s share and the start of it, as [GenMetaData] reads them. *)
Definition core_end (r : SplitResult) (i : Z) : pos := (vat (sr_bN2End r) i, vat (sr_gS1End r) i).
Definition core_start (r : SplitResult) (i : Z) : pos := if i =? 0 then (0, 0) else core_end r (i - 1).

(** The limit of core [i] of [n], when work of cost [rest] is left. *)
Definition limit_of (n i maxRow rest : Z) : Z := Z.max (rest / (n - i)) maxRow.

(** One core's share, from [p] to [q]. *)
Definition share_ok (batches : Z) (rows : Z -> Z) (cost : Z -> Z -> Z) (n maxRow i : Z) (p q : pos) : Prop :=
  let load := range_cost batches rows cost p q in
  let limit := limit_of n i maxRow (remaining batches rows cost p) in
  pos_lt p q /\ 0 < load <= limit + maxRow / 2 /\ (q <> (batches, 0) -> limit - maxRow < load).

(** The first [m] of [n] cores share the rows: consecutive non-empty stretches, each within its limit. *)
Definition shares_ok (batches : Z) (rows : Z -> Z) (cost : Z -> Z -> Z) (n maxRow m : Z) (r : SplitResult) : Prop :=
  forall i, 0 <= i < m ->
    pos_ok batches rows (core_end r i) /\ vat (sr_s2End r) i = 0 /\
    share_ok batches rows cost n maxRow i (core_start r i) (core_end r i).

(** What planning leaves of a fresh result: the sizes, and no reduction task. *)
Definition plan_frame (n : Z) (r0 r : SplitResult) : Prop :=
  Z.of_nat (length (sr_bN2End r)) = n /\ Z.of_nat (length (sr_gS1End r)) = n /\ Z.of_nat (length (sr_s2End r)) = n /\
  sr_firstFdDataWorkspaceIdx r = sr_firstFdDataWorkspaceIdx r0 /\ sr_numOfFdHead r = sr_numOfFdHead r0 /\ sr_fdRes r = sr_fdRes r0.

(** The plan a result holds: its used cores share all the rows. *)
Definition plan_ok (batches : Z) (rows : Z -> Z) (cost : Z -> Z -> Z) (n maxRow : Z) (r : SplitResult) : Prop :=
  1 <= sr_usedCoreNum r <= n /\ shares_ok batches rows cost n maxRow (sr_usedCoreNum r) r /\
  core_end r (sr_usedCoreNum r - 1) = (batches, 0).

(** Recording the end and the load of core [i]. *)
Definition record_end (i : Z) (q : pos) (load : Z) (r : SplitResult) : SplitResult :=
  { r with sr_bN2End := <[Z.to_nat i := q.1]> (sr_bN2End r); sr_gS1End := <[Z.to_nat i := q.2]> (sr_gS1End r);
           sr_s2End := <[Z.to_nat i := 0]> (sr_s2End r); sr_maxCost := Z.max (sr_maxCost r) load }.

Section Record.
Variables (n i load : Z) (q : pos) (r0 r : SplitResult).
Hypothesis frame : plan_frame n r0 r.
Hypothesis in_range : 0 <= i < n.

Lemma record_end_frame : plan_frame n r0 (record_end i q load r).
Proof. destruct frame as (H1 & H2 & H3 & H4 & H5 & H6). unfold plan_frame. simpl. by rewrite !length_insert. Qed.

Lemma core_end_record j : 0 <= j -> core_end (record_end i q load r) j = if j =? i then q else core_end r j.
Proof.
  destruct frame as (H1 & H2 & _). intros Hj. unfold core_end. simpl. rewrite !vat_insert by lia. by destruct (j =? i), q.
Qed.

Lemma core_start_record j : 0 <= j -> core_start (record_end i q load r) j = if j =? i + 1 then q else core_start r j.
Proof.
  intros Hj. unfold core_start. destruct (j =? 0) eqn:E; bool_prop; [by rewrite (proj2 (Z.eqb_neq j (i + 1))) by lia|].
  rewrite core_end_record by lia. destruct (j =? i + 1) eqn:E1; bool_prop.
  - by rewrite (proj2 (Z.eqb_eq (j - 1) i)) by lia.
  - by rewrite (proj2 (Z.eqb_neq (j - 1) i)) by lia.
Qed.

(** The cores before [i] keep their shares, and [i] gets the recorded one. *)
Lemma shares_ok_record batches rows cost maxRow : shares_ok batches rows cost n maxRow i r -> pos_ok batches rows q ->
  share_ok batches rows cost n maxRow i (core_start r i) q -> shares_ok batches rows cost n maxRow (i + 1) (record_end i q load r).
Proof.
  intros Hs Hq Hshare j Hj. rewrite core_end_record, core_start_record by lia.
  rewrite (proj2 (Z.eqb_neq j (i + 1))) by lia. destruct frame as (H1 & H2 & H3 & _). simpl. rewrite vat_insert by lia.
  destruct (j =? i) eqn:E; bool_prop; [by subst|]. apply Hs. lia.
Qed.
End Record.

Section PlanProofs.
Context (k : SasKernel) (sc : SplitContext) {RC : RowCosts k sc}.
Variable fuel : nat.
Hypothesis no_fd : supportFd k = false.
Hypothesis cores : 1 <= aicCoreNum_ k < 2 ^ 32.
Hypothesis fuel_batches : batches < Z.of_nat fuel.
Hypothesis fuel_rows : forall b, 0 <= b < batches -> rows b < Z.of_nat fuel.

Abbreviation n := (aicCoreNum_ k).
Abbreviation remaining_at := (remaining batches rows row_cost).

(** The state between two cores: [p] is where the next one starts. *)
Definition between (p : pos) (ac : AssignContext) : Prop :=
  cursor k sc p ac /\ ac_unassignedCost ac = remaining_at p /\ ac_curKvSplitPart ac = 1 /\
  (ac_isFinished ac = false -> 0 < remaining_at p).

Lemma core_limit_spec p ac : 0 <= ac_curCoreIdx ac < n -> between p ac -> 
  core_limit k sc ac = Ok (limit_of n (ac_curCoreIdx ac) max_cost (remaining_at p)).
Proof.
  intros Hi (Hc & Hu & _). pose proof (remaining_le_total k sc p (cursor_pos_ok k sc p ac Hc)).
  unfold core_limit, limit_of. rewrite no_fd, Hu, rc_maxS1GCost. unwrap64.
  rewrite c_quot_pass by lia. by rewrite quot_nonneg_div by lia.
Qed.

(** What a core has taken when its loops stop is a share within its limit. *)
Lemma taken_share i p q ac0 ac : 
  let L := limit_of n i max_cost (remaining_at p) in
  0 <= i < n -> max_cost <= L -> 0 < remaining_at p ->
  taken k sc (remaining_at p) L p q ac0 ac ->
  (ac_isFinished ac = false -> q.2 < rows q.1 /\ 0 < zsum (row_cost q.1) q.2 (rows q.1) /\ row_stops k sc L q ac) ->
  cc_cost (ac_coreCache ac) = range_cost batches rows row_cost p q /\
  share_ok batches rows row_cost n max_cost i p q /\ (i = n - 1 -> ac_isFinished ac = true) /\
  (ac_isFinished ac = false -> 0 < remaining_at q).
Proof.
  intros L Hi HL Hpos (Hc & [Hl1 Hl2] & [Hw1 Hw2] & Hle & _) Hstop.
  assert (cc_cost (ac_coreCache ac) = range_cost batches rows row_cost p q) as Hload by (unfold range_cost; lia).
  assert (ac_isFinished ac = true -> q = (batches, 0)) as Hfin by (intros E; destruct Hc as (_ & _ & _ & _ & Hc); by rewrite E in Hc).
  assert (ac_isFinished ac = false -> 0 < remaining_at q /\ L - max_cost < cc_cost (ac_coreCache ac)) as Hunfin.
  { intros E. destruct (Hstop E) as (Hq & Hremq & Hrow). destruct q as [b r].
    destruct (cursor_open k sc b r ac E Hc) as (Hb & Hr & _). pose proof (rem_le_remaining k sc b r Hb Hr).
    unfold row_stops in Hrow. simpl in *. pose proof (last_le_max k sc b r Hb ltac:(lia)). pose proof (rc_cost b r Hb ltac:(lia)). lia. }
  assert (0 < cc_cost (ac_coreCache ac)) as Hcpos.
  { destruct (ac_isFinished ac) eqn:E; [|specialize (Hunfin eq_refl); lia].
    rewrite (Hfin eq_refl), remaining_end in Hl2. lia. }
  split; [done|]. split; [|split].
  - split; [|split; [|intros Hq; destruct (ac_isFinished ac); [by rewrite Hfin in Hq|]; rewrite <- Hload; by apply Hunfin]].
    + destruct p as [b r], q as [b' r']. unfold pos_le, pos_lt in *. simpl in *.
      destruct (decide (b = b' /\ r = r')) as [[-> ->]|]; [lia|]. lia.
    + rewrite <- Hload, <- quot_nonneg_div by (pose proof rc_max; lia). fold L. lia.
  - intros ->. destruct (ac_isFinished ac) eqn:E; [done|]. destruct (Hunfin eq_refl) as [Hq _]. exfalso.
    assert (remaining_at p <= L) by (subst L; unfold limit_of; replace (n - (n - 1)) with 1 by lia; rewrite Z.div_1_r; lia).
    destruct (Hstop eq_refl) as (Hq2 & Hremq & Hrow). destruct q as [b r].
    destruct (cursor_open k sc b r ac E Hc) as (Hb & Hr & _). pose proof (rem_le_remaining k sc b r Hb Hr).
    unfold row_stops in Hrow. simpl in *. pose proof (last_le_max k sc b r Hb ltac:(lia)).
    assert (row_cost b r <= zsum (row_cost b) r (rows b)) by (apply zsum_elem; [lia|intros; apply in_cost_nonneg; lia]). lia.
  - intros E. by apply Hunfin.
Qed.

(** The share of one core. *)
Lemma AssignBlocksToCore_spec p ac r s :
  0 <= ac_curCoreIdx ac < n -> between p ac -> ac_isFinished ac = false -> plan_frame n r r ->
  let i := ac_curCoreIdx ac in
  wp (AssignBlocksToCore fuel k sc ac r) (fun '(ac', r') _ => exists q,
    between q ac' /\ ac_curCoreIdx ac' = i /\ share_ok batches rows row_cost n max_cost i p q /\
    (i = n - 1 -> ac_isFinished ac' = true) /\
    r' = record_end i q (range_cost batches rows row_cost p q) r) s.
Proof.
  intros Hi Hbt Hfin (Hn1 & Hn2 & Hn3 & _) i. unfold AssignBlocksToCore. apply wp_bind.
  eapply wp_lift; [by apply core_limit_spec|]. destruct Hbt as (Hc & Hu & Hkv & Hpos). specialize (Hpos Hfin).
  pose proof (remaining_le_total k sc p (cursor_pos_ok k sc p ac Hc)) as Hrem. pose proof rc_total. pose proof rc_max.
  assert (remaining_at p < 2 ^ 62) as HU by lia. set (L := limit_of _ _ _ _).
  assert (max_cost <= L < 2 ^ 62) as HL.
  { subst L. unfold limit_of. fold i.
    assert (0 <= remaining_at p / (n - i) <= remaining_at p) by (split; [apply Z.div_pos; lia|apply Z.div_le_upper_bound; nia]). lia. }
  cbv zeta. set (ac0 := { ac with ac_coreCache := _ }).
  assert (taken k sc (remaining_at p) L p p ac0 ac0) as Ht.
  { subst ac0. unfold taken, cursor, loaded, within. simpl. rewrite Hfin. 
    unfold cursor in Hc. rewrite Hfin in Hc. pose proof (half_max k sc). split; [exact Hc|]. split; [lia|].
    split; [lia|]. split; [done|by repeat split]. }
  apply wp_bind. eapply wp_mono; [apply (AssignByBatch_spec k sc fuel (remaining_at p) L HU HL p ac0); done|].
  intros ac1 s1 (q1 & Ht1 & Hno1). apply wp_bind.
  eapply wp_mono; [by apply (AssignByRow_spec k sc fuel (remaining_at p) L HU HL p q1 ac0)|].
  intros ac2 s2 (q & Ht2 & Hstop).
  destruct (taken_share i p q ac0 ac2 Hi ltac:(apply HL) Hpos Ht2 Hstop) as (Hload & Hshare & Hlast & Hrq).
  destruct Ht2 as (Hcq & [Hl1 Hl2] & _ & _ & (Hs1 & Hs2 & Hs3 & Hs4)). subst ac0. simpl in Hs1, Hs2, Hs3.
  pose proof Hcq as (Hq1 & Hq2 & Hq3 & Hq4 & _).
  unfold AssignByBlock. rewrite no_fd, orb_true_r. apply wp_bind, wp_ret. rewrite andb_false_r. apply wp_bind, wp_ret.
  rewrite Hs1, Hq1, Hq2, Hq3. rewrite !vset_ok by lia. do 3 (apply wp_bind; eapply wp_lift; [done|]).
  unfold IsNeedRecordFDInfo. simpl. rewrite Hs1, Hs3, Hkv.
  apply wp_bind. eapply wp_lift; [case_if; [done|rewrite (proj2 (Z.leb_le 1 1)) by lia; done]|].
  apply wp_bind, wp_ret. simpl. rewrite Hq3, Hq4, Z.ltb_irrefl, andb_false_l. apply wp_ret.
  exists q. rewrite Hload. split_and!; try done.
  pose proof (remaining_le_total k sc q (cursor_pos_ok k sc q ac2 Hcq)). rewrite Hs2, Hu. unfold range_cost. unwrap64.
  unfold between. simpl. rewrite Hs3. split_and!; [done|lia|done|done].
Qed.
Hypothesis work : 0 < total_cost batches rows row_cost.

Lemma first_cursor_spec s : wp (first_cursor k sc) (fun ac _ => between (0, 0) ac /\ ac_isFinished ac = false /\ ac_curCoreIdx ac = 0) s.
Proof.
  unfold first_cursor. pose proof rc_batches. cbv zeta. rewrite rc_bN2Cost by lia. apply wp_bind. eapply wp_lift; [done|].
  edestruct (rc_bN2Block 0) as [m Hm]; [lia|]. rewrite Hm. apply wp_bind. eapply wp_lift; [done|].
  rewrite rc_batch by lia. apply wp_bind. eapply wp_lift; [done|].
  apply wp_bind. eapply wp_mono; [apply (rc_row 0 0); [lia|lia|by right]|]. intros c s' [Hs2 Hc]. apply wp_ret.
  unfold between, cursor. simpl. rewrite remaining_first, rc_totalCost by lia. split_and!; try done; try lia; by apply Hc.
Qed.

(** The state of the loop over the cores before core [i]. *)
Definition plan_inv (r0 : SplitResult) (i : Z) (st : bool * AssignContext * SplitResult) : Prop :=
  let '(returned, ac, r) := st in
  returned = false /\ between (core_start r i) ac /\ shares_ok batches rows row_cost n max_cost i r /\ plan_frame n r0 r /\
  (i = 0 -> ac_isFinished ac = false) /\ (0 < i -> ac_curCoreIdx ac = i - 1) /\ (i = n -> ac_isFinished ac = true) /\
  sr_maxCost r <= total_cost batches rows row_cost.

Lemma range_cost_le p q : pos_ok batches rows p -> pos_ok batches rows q ->
  range_cost batches rows row_cost p q <= total_cost batches rows row_cost.
Proof.
  intros Hp Hq. unfold range_cost. pose proof (remaining_le_total k sc p Hp). pose proof (remaining_le_total k sc q Hq). lia.
Qed.

Lemma plan_step r0 i ac r ac' q : 0 <= i < n -> plan_inv r0 i (false, ac, r) ->
  between q ac' -> ac_curCoreIdx ac' = i -> share_ok batches rows row_cost n max_cost i (core_start r i) q ->
  (i = n - 1 -> ac_isFinished ac' = true) ->
  plan_inv r0 (i + 1) (false, ac', record_end i q (range_cost batches rows row_cost (core_start r i) q) r).
Proof.
  intros Hi (_ & Hbt & Hs & Hf & _ & _ & _ & Hmax) Hbt' Hidx Hshare Hlast.
  pose proof (cursor_pos_ok k sc _ _ (proj1 Hbt)) as Hp. pose proof (cursor_pos_ok k sc _ _ (proj1 Hbt')) as Hq.
  unfold plan_inv. rewrite (core_start_record n i _ q r0 r Hf Hi) by lia. rewrite Z.eqb_refl.
  split_and!; try done; try lia.
  - by apply (shares_ok_record n i _ q r0 r Hf Hi).
  - by apply record_end_frame.
  - intros Hn. apply Hlast. lia.
  - simpl. pose proof (range_cost_le _ _ Hp Hq). lia.
Qed.

Lemma plan_frame_self r0 r : plan_frame n r0 r -> plan_frame n r r.
Proof. unfold plan_frame. naive_solver. Qed.

(** When the cursor is at the end, the cores used so far have it all. *)
Lemma plan_done r0 i ac r : 0 <= i <= n -> plan_inv r0 i (false, ac, r) -> ac_isFinished ac = true ->
  let r' := { r with sr_usedCoreNum := u32 (ac_curCoreIdx ac + 1) } in
  plan_ok batches rows row_cost n max_cost r' /\ plan_frame n r0 r' /\ sr_maxCost r' <= total_cost batches rows row_cost.
Proof.
  intros Hi (_ & Hbt & Hs & Hf & H0 & Hidx & _ & Hmax) Hfin. destruct (decide (i = 0)) as [->|]; [by rewrite H0 in Hfin|].
  rewrite Hidx by lia. replace (i - 1 + 1) with i by lia. unwrap64. split; [|by split]. split; [simpl; lia|]. split; [done|].
  destruct Hbt as [(_ & _ & _ & _ & Hc) _]. rewrite Hfin in Hc. unfold core_start in Hc.
  by rewrite (proj2 (Z.eqb_neq i 0)) in Hc by lia.
Qed.

Lemma CalcSplitPlan_spec r0 s : plan_frame n r0 r0 ->
  wp (CalcSplitPlan fuel k sc INT64_MAX r0) (fun r _ => plan_ok batches rows row_cost n max_cost r /\ plan_frame n r0 r /\
    sr_maxCost r <= total_cost batches rows row_cost) s.
Proof.
  intros Hr0. unfold CalcSplitPlan. rewrite (proj2 (Z.eqb_neq n 0)) by lia. cbv zeta.
  apply wp_bind. eapply wp_mono; [apply first_cursor_spec|]. intros ac0 s0 (Hbt0 & Hfin0 & Hidx0).
  apply wp_bind. apply (wp_for_acc (fun i st _ => plan_inv r0 i st)).
  - split_and!; try done; try lia; [intros j Hj; lia|simpl; lia].
  - clear s s0 ac0 Hbt0 Hfin0 Hidx0. intros i [[ret ac] r] s Hi HI. pose proof HI as (-> & Hbt & Hs & Hf & H0 & Hidx & _ & Hmax).
    pose proof rc_total. unfold INT64_MAX. rewrite (proj2 (Z.ltb_ge (2 ^ 63 - 1) (sr_maxCost r))) by lia.
    destruct (ac_isFinished ac) eqn:Hfin; cbn [orb].
    + apply wp_ret. apply wp_ret. apply (plan_done r0 i); [lia|done|done].
    + rewrite (proj2 (Z.leb_gt (ac_unassignedCost ac) 0)) by (destruct Hbt as (_ & -> & _ & Hpos); by apply Hpos).
      apply wp_bind. eapply wp_mono; [apply (AssignBlocksToCore_spec (core_start r i)); simpl; [done..|by eapply plan_frame_self]|].
      intros [ac' r'] s' (q & Hbt' & Hidx' & Hshare & Hlast & ->). apply wp_ret. by apply (plan_step r0 i ac).
  - intros [[ret ac] r] s' HI. pose proof HI as (-> & _ & _ & _ & _ & _ & Hn & _). rewrite Z.max_r in * by lia.
    apply wp_ret. apply (plan_done r0 n); [lia|done|by apply Hn].
Qed.
End PlanProofs.
