(* ===== verification/SasCostLemmas.v ===== *)
(** The cost model of [SasMetaCost.v] against its specification: a row of a batch
    attends to a window of key tokens and to a prefix of the compressed tokens,
    each cut into blocks of [s2BaseSize_] tokens; its cost is the sum of the costs
    of its blocks.  The closing instance provides [RowCosts] for every kernel
    that passed the parameter checks. *)

From S2P Require Import Prelude AscendC TilingContext Aicpu SasMeta SasMetaCost SasMetaAssign SasSpec.

(** ** Specification *)

Definition ceil_div (a b : Z) : Z := (a + b - 1) / b.

(** The cost of a block of [m] rows and [s] columns, in units of 16 rows and 64 columns. *)
Definition block_cost (m s : Z) : Z := 6 * ceil_div m 16 + 10 * ceil_div s 64.

(** [len] tokens cut into blocks of [base]: their number, and the cost of all of
    them in a row of height [m]. *)
Definition part_cost (base m len : Z) : Z :=
  zsum (fun j => block_cost m (Z.min base (len - j * base))) 0 (ceil_div len base).

Definition last_block (base len : Z) : Z := len - (ceil_div len base - 1) * base.

Section RowSpec.
Variable k : SasKernel.
Variables s1 s2 : Z.

Definition row_count : Z := ceil_div (s1 * groupSize_ k) (mBaseSize_ k).
Definition row_height (r : Z) : Z := Z.min (mBaseSize_ k) (s1 * groupSize_ k - r * mBaseSize_ k).

(** The first and last query token of a row. *)
Definition row_s1_first (r : Z) : Z := r * mBaseSize_ k / groupSize_ k.
Definition row_s1_last (r : Z) : Z := (Z.min ((r + 1) * mBaseSize_ k) (s1 * groupSize_ k) - 1) / groupSize_ k.

(** The last key token a row sees, and the number of key tokens it sees. *)
Definition win_last (r : Z) : Z :=
  if s2 =? 0 then -1 else if mask_mode k =? DEFAULT_MASK then s2 - 1 else row_s1_last r + s2 - s1.
Definition win_first (r : Z) : Z :=
  if mask_mode k =? BAND then Z.max 0 (row_s1_first r + s2 - s1 - winLeft_ k) else 0.
Definition win_len (r : Z) : Z := if win_last r <? 0 then 0 else win_last r - win_first r + 1.

(** The number of compressed tokens it sees. *)
Definition cmp_len (r : Z) : Z :=
  if hasCmpKv_ k && (0 <=? win_last r) then
    if 0 <? cmpTopK_ k then Z.min ((win_last r + 1) / cmpRatio_ k) (cmpTopK_ k) else (win_last r + 1) / cmpRatio_ k
  else 0.

Definition sas_row_block (r : Z) : Z := ceil_div (win_len r) (s2BaseSize_ k) + ceil_div (cmp_len r) (s2BaseSize_ k).
Definition sas_row_cost (r : Z) : Z :=
  part_cost (s2BaseSize_ k) (row_height r) (win_len r) + part_cost (s2BaseSize_ k) (row_height r) (cmp_len r).
Definition sas_row_last (r : Z) : Z :=
  if win_len r =? 0 then 0
  else block_cost (row_height r) (last_block (s2BaseSize_ k) (if cmp_len r =? 0 then win_len r else cmp_len r)).
End RowSpec.

(** ** Blocks *)

Lemma ceil_div_spec a b : 0 <= a -> 0 < b -> 0 <= ceil_div a b /\ a <= ceil_div a b * b /\ (ceil_div a b - 1) * b < a.
Proof. intros Ha Hb. unfold ceil_div. rewrite <- quot_nonneg_div by lia. by apply ceil_quot_spec. Qed.

Lemma ceil_div_0 b : 0 < b -> ceil_div 0 b = 0.
Proof. intros Hb. unfold ceil_div. apply Z.div_small. lia. Qed.

Lemma ceil_div_pos a b : 0 < a -> 0 < b -> 0 < ceil_div a b.
Proof. intros. pose proof (ceil_div_spec a b). nia. Qed.

(** Whole blocks and the tail. *)
Lemma ceil_div_tail a b : 0 <= a -> 0 < b -> ceil_div a b = a / b + (if a mod b =? 0 then 0 else 1).
Proof.
  intros Ha Hb. pose proof (ceil_div_spec a b Ha Hb). pose proof (Z.div_mod a b ltac:(lia)). pose proof (Z.mod_pos_bound a b Hb).
  destruct (a mod b =? 0) eqn:E; bool_prop; nia.
Qed.

Lemma WinCalcCost_spec m s : 0 <= m < 2 ^ 31 -> 0 <= s < 2 ^ 31 -> WinCalcCost m s = block_cost m s.
Proof.
  intros Hm Hs. unfold WinCalcCost, block_cost, ceil_div. cbv zeta. unwrap64. rewrite !Z.shiftr_div_pow2 by lia.
  change (2 ^ 4) with 16. change (2 ^ 6) with 64.
  assert (0 <= (m + 16 - 1) / 16 < 2 ^ 28) by zlia. assert (0 <= (s + 64 - 1) / 64 < 2 ^ 26) by zlia. by unwrap64.
Qed.

Lemma CmpCalcCost_spec m s : 0 <= m < 2 ^ 31 -> 0 <= s < 2 ^ 31 -> CmpCalcCost m s = block_cost m s.
Proof. exact (WinCalcCost_spec m s). Qed.

Lemma block_cost_bounds m s : 0 < m < 2 ^ 31 -> 0 <= s <= 512 -> 0 < block_cost m s < 2 ^ 30.
Proof. intros Hm Hs. unfold block_cost, ceil_div. zlia. Qed.

(** The cost of a part in closed form. *)
Lemma part_cost_closed base m len : 0 <= len -> 0 < base ->
  part_cost base m len = block_cost m base * (len / base) + (if len mod base =? 0 then 0 else block_cost m (len mod base)).
Proof.
  intros Hl Hb. unfold part_cost. rewrite ceil_div_tail by done. set (q := len / base).
  pose proof (Z.div_mod len base ltac:(lia)). pose proof (Z.mod_pos_bound len base Hb). pose proof (Z.div_pos len base Hl Hb).
  fold q in H, H1. set (t := len mod base) in *. clearbody q t.
  assert (zsum (fun j => block_cost m (Z.min base (len - j * base))) 0 q = block_cost m base * q) as Hq.
  { rewrite (zsum_ext _ (fun _ => block_cost m base)) by (intros j Hj; f_equal; nia).
    by apply zsum_const. }
  destruct (t =? 0) eqn:E; bool_prop; [by rewrite !Z.add_0_r|].
  rewrite zsum_snoc, Hq by lia. do 2 f_equal. lia.
Qed.

(** ** Kernels that passed the checks *)

Record sas_valid (k : SasKernel) : Prop := {
  sv_kvHeadNum : kvHeadNum_ k = 1;
  sv_groupSize : 0 < groupSize_ k < 2 ^ 31;
  sv_mBaseSize : 0 < mBaseSize_ k < 2 ^ 31;
  sv_s2BaseSize : s2BaseSize_ k = 512 \/ s2BaseSize_ k = 128;
  sv_isS1G : isS1G_ k = true;
  sv_winLeft : winLeft_ k = 127;
  sv_mask : (mask_mode k = DEFAULT_MASK /\ attentionMode_ k = 0) \/
            (mask_mode k = RIGHT_DOWN_CAUSAL /\ attentionMode_ k = 1 /\ preToken_ k = INT64_MAX) \/
            (mask_mode k = BAND /\ attentionMode_ k = 1 /\ preToken_ k = 127 /\ nextToken_ k = 0);
  sv_cmp : hasCmpKv_ k = true -> (cmpRatio_ k = 4 \/ cmpRatio_ k = 128) /\ 0 <= cmpTopK_ k <= 1024 /\
    isSCFA k = (0 <? cmpTopK_ k) /\ isCFA k = negb (0 <? cmpTopK_ k);
  sv_noCmp : hasCmpKv_ k = false -> isCFA k = false /\ isSCFA k = false }.

Section Row.
Variable k : SasKernel.
Hypothesis V : sas_valid k.
Variables b s1 s2 : Z.
Hypothesis Hs1 : 0 <= s1 < 2 ^ 31.
Hypothesis Hs2 : 0 <= s2 < 2 ^ 31.
Hypothesis Hfit : s1 * groupSize_ k + mBaseSize_ k < 2 ^ 32.

Definition bcache : BatchCache := {| bc_bIdx := b; bc_s1Size := s1; bc_s2Size := s2;
  bc_preTokenLeftUp := CalcPreTokenLeftUp k s1 s2; bc_nextTokenLeftUp := CalcNextTokenLeftUp k s1 s2 |}.

(** The query tokens of a row. *)
Lemma row_tokens r : 0 <= r < row_count k s1 ->
  0 <= row_s1_first k r <= row_s1_last k s1 r /\ row_s1_last k s1 r < s1 /\ 0 < row_height k s1 r <= mBaseSize_ k /\
  r * mBaseSize_ k < s1 * groupSize_ k.
Proof.
  intros Hr. pose proof (sv_groupSize k V). pose proof (sv_mBaseSize k V).
  assert (0 <= s1 * groupSize_ k) by nia. unfold row_count in Hr.
  pose proof (ceil_div_spec (s1 * groupSize_ k) (mBaseSize_ k) ltac:(lia) ltac:(lia)) as (_ & _ & H2).
  assert (r * mBaseSize_ k < s1 * groupSize_ k) as Hlt by nia. unfold row_s1_first, row_s1_last, row_height.
  split_and!; [apply Z.div_pos; nia|apply Z.div_le_mono; nia| |lia|lia|lia].
  apply Z.div_lt_upper_bound; lia.
Qed.

(** Later rows see at least as many tokens. *)
Lemma win_last_mono r r' : r <= r' -> win_last k s1 s2 r <= win_last k s1 s2 r'.
Proof.
  intros Hr. unfold win_last. pose proof (sv_groupSize k V). pose proof (sv_mBaseSize k V).
  do 2 (case_if; [lia|]). unfold row_s1_last.
  assert ((Z.min ((r + 1) * mBaseSize_ k) (s1 * groupSize_ k) - 1) / groupSize_ k <=
          (Z.min ((r' + 1) * mBaseSize_ k) (s1 * groupSize_ k) - 1) / groupSize_ k) by (apply Z.div_le_mono; nia). lia.
Qed.

(** The last row of a batch with queries and keys sees a token. *)
Lemma win_last_last : 0 < s1 -> 0 < s2 -> 0 <= win_last k s1 s2 (row_count k s1 - 1).
Proof.
  intros H1 H2. unfold win_last. pose proof (sv_groupSize k V). pose proof (sv_mBaseSize k V).
  rewrite (proj2 (Z.eqb_neq s2 0)) by lia. case_if; [lia|]. unfold row_s1_last.
  pose proof (ceil_div_spec (s1 * groupSize_ k) (mBaseSize_ k) ltac:(nia) ltac:(lia)) as (_ & H3 & _). fold (row_count k s1) in H3.
  replace (row_count k s1 - 1 + 1) with (row_count k s1) by lia. rewrite Z.min_r by lia.
  replace (s1 * groupSize_ k - 1) with ((s1 - 1) * groupSize_ k + (groupSize_ k - 1)) by lia.
  rewrite Z.div_add_l, Z.div_small by lia. lia.
Qed.

Lemma win_bounds r : 0 <= r < row_count k s1 ->
  win_last k s1 s2 r < Z.max 1 s2 /\ (0 <= win_last k s1 s2 r -> 0 <= win_first k s1 s2 r <= win_last k s1 s2 r) /\
  0 <= win_len k s1 s2 r <= s2.
Proof.
  intros Hr. pose proof (row_tokens r Hr). pose proof (sv_winLeft k V) as Hw. unfold win_len, win_last, win_first, BAND, DEFAULT_MASK.
  rewrite Hw. destruct (sv_mask k V) as [[-> _]|[[-> _]|[-> _]]]; unfold BAND, DEFAULT_MASK, RIGHT_DOWN_CAUSAL; simpl;
    destruct (s2 =? 0) eqn:E; bool_prop; simpl; repeat case_if; lia.
Qed.

Lemma base_range : 0 < s2BaseSize_ k <= 512.
Proof. destruct (sv_s2BaseSize k V); lia. Qed.

(** Clipping a range that meets the keys, and one that does not. *)
Lemma CalcWinRange_some f l c : 0 <= l < s2 -> f <= l ->
  CalcWinRange k f l bcache c = Ok (l, { c with sg_winS2Start := 0; sg_winS2End := ceil_div (l - Z.max 0 f + 1) (s2BaseSize_ k);
                                               sg_winS2TailSize := (l - Z.max 0 f + 1) mod s2BaseSize_ k }).
Proof.
  intros Hl Hf. pose proof base_range. unfold CalcWinRange, bcache. cbn [bc_s2Size].
  rewrite (proj2 (Z.leb_gt s2 f)), (proj2 (Z.ltb_ge l 0)), (proj2 (Z.ltb_ge l f)) by lia. cbn [orb]. cbv zeta. unwrap64.
  assert (Clip f 0 (s2 - 1) = Z.max 0 f) as -> by (unfold Clip; repeat case_if; lia).
  assert (Clip l 0 (s2 - 1) = l) as -> by (unfold Clip; repeat case_if; lia). unwrap64.
  rewrite c_quot_pass, c_rem_pass by lia. rewrite !bind_Ok. rewrite quot_nonneg_div, rem_nonneg_mod by lia.
  replace ((l - Z.max 0 f) / s2BaseSize_ k + 1) with (ceil_div (l - Z.max 0 f + 1) (s2BaseSize_ k)).
  - pose proof (ceil_div_spec (l - Z.max 0 f + 1) (s2BaseSize_ k) ltac:(lia) ltac:(lia)).
    assert (ceil_div (l - Z.max 0 f + 1) (s2BaseSize_ k) <= 2 ^ 31) by nia. by unwrap64.
  - unfold ceil_div. rewrite <- Z.div_add by lia. f_equal. lia.
Qed.

Lemma CalcWinRange_none f l c : s2 <= f \/ l < 0 -> CalcWinRange k f l bcache c =
  Ok (0, { c with sg_winS2Start := 0; sg_winS2End := 0; sg_winS2TailSize := 0 }).
Proof.
  intros H. unfold CalcWinRange, bcache. cbn [bc_s2Size]. destruct H.
  - by rewrite (proj2 (Z.leb_le s2 f)) by lia.
  - by rewrite (proj2 (Z.ltb_lt l 0)), orb_true_r by lia.
Qed.

(** The range is [win_last] at its right end, and reaches [win_first] at its left. *)
Lemma CalcS2TokenRange_spec r : 0 <= r < row_count k s1 -> 0 < s2 -> exists f, 
  CalcS2TokenRange k r bcache = Ok (f, win_last k s1 s2 r) /\
  (0 <= win_last k s1 s2 r -> Z.max 0 f = win_first k s1 s2 r).
Proof.
  intros Hr H2. pose proof (row_tokens r Hr) as (Hf & Hl & _ & Hlt). pose proof (sv_groupSize k V). pose proof (sv_mBaseSize k V).
  assert (0 < s1) by nia. assert (0 <= r * mBaseSize_ k) by nia.
  unfold CalcS2TokenRange, bcache. cbn [bc_s1Size bc_s2Size bc_preTokenLeftUp bc_nextTokenLeftUp].
  rewrite (proj2 (Z.eqb_neq s1 0)), (proj2 (Z.eqb_neq s2 0)) by lia. cbn [orb].
  assert (attentionMode_ k = 0 \/ attentionMode_ k = 1) as [E|E] by (pose proof (sv_mask k V); naive_solver); rewrite E; cbn [Z.eqb].
  { exists 0. unfold win_last, win_first. pose proof (sv_mask k V) as M. rewrite (proj2 (Z.eqb_neq s2 0)) by lia.
    assert (mask_mode k = DEFAULT_MASK) as -> by (destruct M as [[M _]|[(_ & M & _)|(_ & M & _)]]; [done|lia|lia]). unfold DEFAULT_MASK, BAND. simpl. split; [done|lia]. }
  cbv zeta. rewrite (sv_isS1G k V). unwrap64. rewrite !c_quot_pass by lia. rewrite !bind_Ok.
  rewrite !quot_nonneg_div by lia. cbn [mret outcome_ret]. replace (r * mBaseSize_ k + mBaseSize_ k) with ((r + 1) * mBaseSize_ k) by lia.
  fold (row_s1_first k r). fold (row_s1_last k s1 r).
  unfold mret, outcome_ret. rewrite bind_Ok. unfold win_last, win_first, CalcPreTokenLeftUp, CalcNextTokenLeftUp.
  rewrite (sv_winLeft k V), (proj2 (Z.eqb_neq s2 0)) by lia.
  destruct (sv_mask k V) as [[_ M]|[(-> & _ & ->)|(-> & _ & -> & ->)]]; [lia| |];
    unfold DEFAULT_MASK, ALL_MASK, LEFT_UP_CAUSAL, RIGHT_DOWN_CAUSAL, BAND, INT64_MAX; simpl; unwrap64;
    eexists; (split; [do 2 f_equal; lia|intros; lia]).
Qed.

(** The token range and its blocks. *)
Lemma win_range_spec r c : 0 <= r < row_count k s1 ->
  exists range, CalcS2TokenRange k r bcache = Ok range /\
    CalcWinRange k range.1 range.2 bcache c = Ok (Z.max 0 (win_last k s1 s2 r),
      { c with sg_winS2Start := 0; sg_winS2End := ceil_div (win_len k s1 s2 r) (s2BaseSize_ k);
               sg_winS2TailSize := win_len k s1 s2 r mod s2BaseSize_ k }).
Proof.
  intros Hr. pose proof base_range. pose proof (win_bounds r Hr) as (Hw1 & Hw2 & _). destruct (decide (s2 = 0)) as [E|].
  - exists (0, 0). split.
    + unfold CalcS2TokenRange, bcache. cbn [bc_s1Size bc_s2Size]. by rewrite (proj2 (Z.eqb_eq s2 0)), orb_true_r by lia.
    + rewrite CalcWinRange_none by (simpl; lia). unfold win_len, win_last. rewrite (proj2 (Z.eqb_eq s2 0)) by lia. simpl.
      by rewrite ceil_div_0 by lia.
  - destruct (CalcS2TokenRange_spec r Hr ltac:(lia)) as (f & Hf & Hfirst). exists (f, win_last k s1 s2 r). split; [done|]. simpl.
    unfold win_len. destruct (win_last k s1 s2 r <? 0) eqn:E; bool_prop.
    + rewrite CalcWinRange_none by lia. rewrite ceil_div_0, Z.max_l by lia. done.
    + rewrite <- Hfirst by lia. rewrite Z.max_r by lia. apply CalcWinRange_some; [lia|]. specialize (Hw2 E). specialize (Hfirst E). lia.
Qed.
(** The compressed tokens. *)
Lemma act_cmp_size_spec r : 0 <= r < row_count k s1 ->
  act_cmp_size k (Z.max 0 (win_last k s1 s2 r)) = Ok (cmp_len k s1 s2 r) /\ 0 <= cmp_len k s1 s2 r < 2 ^ 31 /\
  (hasCmpKv_ k = false -> cmp_len k s1 s2 r = 0) /\ (win_len k s1 s2 r = 0 -> cmp_len k s1 s2 r = 0).
Proof.
  intros Hr. pose proof (win_bounds r Hr) as (Hw1 & Hw2 & Hw3). unfold act_cmp_size, cmp_len, win_len in *.
  destruct (hasCmpKv_ k) eqn:Hcmp; cbn [andb].
  2: { destruct (sv_noCmp k V Hcmp) as [-> ->]. by repeat split. }
  destruct (sv_cmp k V Hcmp) as (Hratio & Htop & -> & ->). unwrap64. rewrite c_quot_pass by lia. rewrite !bind_Ok.
  rewrite quot_nonneg_div by lia. set (l := win_last k s1 s2 r) in *. clearbody l.
  assert (0 <= (Z.max 0 l + 1) / cmpRatio_ k < 2 ^ 31 /\ (l < 0 -> (Z.max 0 l + 1) / cmpRatio_ k = 0)) as [Hq Hq0]
    by (destruct Hratio as [-> | ->]; zlia).
  unfold mret, outcome_ret. rewrite !bind_Ok. unwrap64. destruct (l <? 0) eqn:E; bool_prop.
  - rewrite (proj2 (Z.leb_gt 0 l)), Hq0 by lia. split_and!; [|lia..]. f_equal. destruct (0 <? cmpTopK_ k); simpl; lia.
  - rewrite (proj2 (Z.leb_le 0 l)) by lia. rewrite Z.max_r in * by lia. cbn [negb].
    destruct (0 <? cmpTopK_ k); cbn [negb]; (split_and!; [done|lia|lia|done|intros; lia]).
Qed.

(** All the ranges of a row. *)
Lemma CalcBlockRange_spec r c : 0 <= r < row_count k s1 -> exists range,
  CalcS2TokenRange k r bcache = Ok range /\
  CalcBlockRangeAndTailSize k range bcache c = Ok { c with 
    sg_winS2Start := 0; sg_winS2End := ceil_div (win_len k s1 s2 r) (s2BaseSize_ k);
    sg_winS2TailSize := win_len k s1 s2 r mod s2BaseSize_ k;
    sg_cmpS2Start := ceil_div (win_len k s1 s2 r) (s2BaseSize_ k);
    sg_cmpS2End := sas_row_block k s1 s2 r; sg_cmpS2TailSize := cmp_len k s1 s2 r mod s2BaseSize_ k }.
Proof.
  intros Hr. pose proof base_range. destruct (win_range_spec r c Hr) as (range & Hrange & Hwin). exists range. split; [done|].
  destruct (act_cmp_size_spec r Hr) as (Hcmp & Hlen & _). pose proof (win_bounds r Hr) as (_ & _ & Hwl).
  unfold CalcBlockRangeAndTailSize. rewrite Hwin. rewrite bind_Ok. cbv zeta. simpl. rewrite Hcmp, bind_Ok. unfold sas_row_block.
  pose proof (ceil_div_spec (win_len k s1 s2 r) (s2BaseSize_ k) ltac:(lia) ltac:(lia)).
  pose proof (ceil_div_spec (cmp_len k s1 s2 r) (s2BaseSize_ k) ltac:(lia) ltac:(lia)).
  destruct (cmp_len k s1 s2 r =? 0) eqn:E; bool_prop.
  - rewrite E, ceil_div_0 by lia. unfold mret, outcome_ret. rewrite bind_Ok, c_rem_pass by lia. rewrite bind_Ok. by rewrite Z.add_0_r.
  - unwrap64. rewrite c_quot_pass, bind_Ok by lia. rewrite quot_nonneg_div by lia. unfold mret, outcome_ret. rewrite bind_Ok.
    rewrite c_rem_pass, bind_Ok by lia. rewrite rem_nonneg_mod by lia.
    assert (ceil_div (cmp_len k s1 s2 r) (s2BaseSize_ k) = (cmp_len k s1 s2 r - 1) / s2BaseSize_ k + 1) as Heq.
    { unfold ceil_div. rewrite <- Z.div_add by lia. f_equal. lia. }
    assert (ceil_div (win_len k s1 s2 r) (s2BaseSize_ k) <= 2 ^ 31) by nia.
    assert (ceil_div (cmp_len k s1 s2 r) (s2BaseSize_ k) <= 2 ^ 30) by (destruct (sv_s2BaseSize k V); nia).
    pose proof (ceil_div_pos (cmp_len k s1 s2 r) (s2BaseSize_ k) ltac:(lia) ltac:(lia)).
    replace ((cmp_len k s1 s2 r - 1) / s2BaseSize_ k) with (ceil_div (cmp_len k s1 s2 r) (s2BaseSize_ k) - 1) by lia.
    set (A := ceil_div (win_len k s1 s2 r) _) in *. set (B := ceil_div (cmp_len k s1 s2 r) _) in *. unwrap64.
    by replace (A + (B - 1) + 1) with (A + B) by lia.
Qed.
End Row.

(** ** The cost table *)

Section Table.
Variable k : SasKernel.
Hypothesis V : sas_valid k.
Variables tail wt ct : Z.
Hypothesis Htail : 0 <= tail < 2 ^ 31.
Hypothesis Hwt : 0 <= wt < 2 ^ 31.
Hypothesis Hct : 0 <= ct < 2 ^ 31.

(** The entries the code reads for a row: [isTail] tells a short row, of height [tail]. *)
Definition table_ok (isTail : bool) (t : BlockCost) : Prop :=
  let h := if isTail then tail else mBaseSize_ k in
  let win := if isTail then WIN_TAIL_BLOCK else WIN_NORMAL_BLOCK in
  let cmp := if isTail then CMP_TAIL_BLOCK else CMP_NORMAL_BLOCK in
  t win WIN_NORMAL_BLOCK = block_cost h (s2BaseSize_ k) /\
  t win WIN_TAIL_BLOCK = (if wt =? 0 then 0 else block_cost h wt) /\
  (hasCmpKv_ k = true -> t cmp CMP_NORMAL_BLOCK = block_cost h (s2BaseSize_ k) /\
                         t cmp CMP_TAIL_BLOCK = (if ct =? 0 then 0 else block_cost h ct)).

Lemma CalcCostTable_spec isTail s : (isTail = true -> tail <> 0) ->
  wp (CalcCostTable k (mBaseSize_ k) (s2BaseSize_ k) tail wt ct) (fun _ t => table_ok isTail t) s.
Proof.
  intros Hne. pose proof (sv_mBaseSize k V). pose proof (base_range k V). apply wp_modify. unfold table_ok, set_typeCost. 
  destruct isTail; [specialize (Hne eq_refl)|clear Hne]; destruct (hasCmpKv_ k); simpl;
    rewrite ?WinCalcCost_spec, ?CmpCalcCost_spec by lia; rewrite ?(proj2 (Z.eqb_neq tail 0)) by done; by repeat split.
Qed.
End Table.

(** ** The parts of a row *)

(** The sum the code forms from the table is the cost of the blocks. *)
Lemma part_sum base h len d : d = ceil_div len base -> 0 < base <= 512 -> 0 < h < 2 ^ 31 -> 0 < len < 2 ^ 31 ->
  let tn := if negb (len mod base =? 0) then 1 else 0 in
  let normal := block_cost h base in
  let tailc := if len mod base =? 0 then 0 else block_cost h (len mod base) in
  i64 (i64 (normal * u32 (u32 d - tn)) + i64 (tailc * tn)) = part_cost base h len /\
  (if 0 <? tn then tailc else normal) = block_cost h (last_block base len) /\
  0 < block_cost h (last_block base len) <= part_cost base h len /\ part_cost base h len < 2 ^ 61.
Proof.
  intros -> Hb Hh Hl tn normal tailc. pose proof (ceil_div_tail len base ltac:(lia) ltac:(lia)) as Hc.
  pose proof (ceil_div_pos len base ltac:(lia) ltac:(lia)).
  assert (last_block base len = if len mod base =? 0 then base else len mod base) as Hlast.
  { unfold last_block. rewrite Hc. pose proof (Z.div_mod len base ltac:(lia)). destruct (len mod base =? 0) eqn:E; bool_prop; nia. }
  rewrite Hlast, part_cost_closed by lia. pose proof (Z.mod_pos_bound len base ltac:(lia)).
  assert (0 <= len / base < 2 ^ 31) by (split; [apply Z.div_pos; lia|apply Z.div_lt_upper_bound; nia]).
  pose proof (block_cost_bounds h base Hh ltac:(lia)). fold normal in H2 |- *. rewrite Hc in H |- *. subst tn tailc.
  assert (0 <= normal * (len / base) <= (2 ^ 30 - 1) * (2 ^ 31 - 1)) by nia.
  destruct (len mod base =? 0) eqn:E; bool_prop; cbn [negb] in *.
  - unwrap64. replace (len / base + 0 - 0) with (len / base) by lia. unwrap64. simpl. nia.
  - pose proof (block_cost_bounds h (len mod base) Hh ltac:(lia)). unwrap64.
    replace (len / base + 1 - 1) with (len / base) by lia. unwrap64. simpl. nia.
Qed.

Section RowCache.
Variable k : SasKernel.
Hypothesis V : sas_valid k.
Variables b s1 s2 : Z.
Hypothesis Hs1 : 0 <= s1 < 2 ^ 31.
Hypothesis Hs2 : 0 <= s2 < 2 ^ 31.
Hypothesis Hfit : s1 * groupSize_ k + mBaseSize_ k < 2 ^ 32.
Variable si : SplitInfo.
Hypothesis Hnum : vget (si_s1GBaseNum si) b = Ok (row_count k s1).
Hypothesis Htl : vget (si_s1GTailSize si) b = Ok (s1 * groupSize_ k mod mBaseSize_ k).

Abbreviation tail := (s1 * groupSize_ k mod mBaseSize_ k).
Abbreviation base := (s2BaseSize_ k).

Definition tail_row (r : Z) : bool := (r =? row_count k s1 - 1) && negb (tail =? 0).

Lemma row_count_bounds : 0 <= row_count k s1 < 2 ^ 32 - 1.
Proof.
  pose proof (sv_groupSize k V). pose proof (sv_mBaseSize k V). 
  pose proof (ceil_div_spec (s1 * groupSize_ k) (mBaseSize_ k) ltac:(nia) ltac:(lia)). unfold row_count. nia.
Qed.

Lemma tail_range : 0 <= tail < 2 ^ 31.
Proof. pose proof (sv_mBaseSize k V). pose proof (Z.mod_pos_bound (s1 * groupSize_ k) (mBaseSize_ k)). lia. Qed.

Lemma is_tail_row_spec r c : 0 <= r < row_count k s1 -> sg_bIdx c = b -> sg_s1GIdx c = r -> is_tail_row si c = Ok (tail_row r).
Proof.
  intros Hr Hb Hi. pose proof row_count_bounds. unfold is_tail_row, tail_row. rewrite Hb, Hi, Hnum, bind_Ok. unwrap64.
  destruct (r =? row_count k s1 - 1); cbn [andb]; [by rewrite Htl|done].
Qed.

Lemma row_height_tail r : 0 <= r < row_count k s1 -> row_height k s1 r = if tail_row r then tail else mBaseSize_ k.
Proof.
  intros Hr. pose proof (sv_groupSize k V). pose proof (sv_mBaseSize k V). unfold row_height, tail_row, row_count in *.
  pose proof (ceil_div_tail (s1 * groupSize_ k) (mBaseSize_ k) ltac:(nia) ltac:(lia)) as Hc.
  pose proof (Z.div_mod (s1 * groupSize_ k) (mBaseSize_ k) ltac:(lia)). pose proof (Z.mod_pos_bound (s1 * groupSize_ k) (mBaseSize_ k) ltac:(lia)).
  rewrite Hc in *. destruct (tail =? 0) eqn:E; bool_prop; cbn [negb]; [rewrite andb_false_r; nia|].
  rewrite andb_true_r. destruct (r =? _) eqn:E1; bool_prop; nia.
Qed.

Lemma CalcWinS1GCache_spec r ct c t : 0 <= r < row_count k s1 -> sg_bIdx c = b -> sg_s1GIdx c = r ->
  sg_winS2Start c = 0 -> sg_winS2End c = ceil_div (win_len k s1 s2 r) base -> sg_winS2TailSize c = win_len k s1 s2 r mod base ->
  table_ok k tail (win_len k s1 s2 r mod base) ct (tail_row r) t ->
  wp (CalcWinS1GCache c si) (fun c' t' => t' = t /\ exists nc,
    c' = { c with sg_winS1GBlock := ceil_div (win_len k s1 s2 r) base;
                  sg_winS1GCost := part_cost base (row_height k s1 r) (win_len k s1 s2 r);
                  sg_winS1GLastBlockCost := if win_len k s1 s2 r =? 0 then 0
                    else block_cost (row_height k s1 r) (last_block base (win_len k s1 s2 r));
                  sg_winS1GNormalBlockCost := nc }) t.
Proof.
  intros Hr Hb Hi Hst Hen Htail (T1 & T2 & _). unfold CalcWinS1GCache. rewrite Hst, Hen. pose proof (base_range k V).
  destruct (win_bounds k V s1 s2 Hs1 Hs2 r Hr) as (_ & _ & Hwl). set (len := win_len k s1 s2 r) in *.
  destruct (ceil_div len base <=? 0) eqn:E; bool_prop.
  - assert (len = 0) as -> by (destruct (decide (len = 0)); [done|]; pose proof (ceil_div_pos len base); lia).
    apply wp_ret. split; [done|]. exists 0. rewrite ceil_div_0 by lia. unfold part_cost. by rewrite ceil_div_0, zsum_nil by lia.
  - cbv zeta. simpl. rewrite Htail. apply wp_bind. eapply wp_lift; [by apply (is_tail_row_spec r)|].
    pose proof (row_tokens k V s1 Hs1 r Hr) as (_ & _ & Hh & _). rewrite <- row_height_tail in T1, T2 by done.
    assert (len <> 0) as Hne by (intros E0; rewrite E0, ceil_div_0 in E; lia).
    destruct (part_sum base (row_height k s1 r) len (ceil_div len base - 0) ltac:(lia) ltac:(lia) ltac:(pose proof (sv_mBaseSize k V); lia) ltac:(lia)) as (P1 & P2 & _).
    do 2 (apply wp_bind; apply wp_gets). rewrite T1, T2. apply wp_ret. split; [done|]. exists (block_cost (row_height k s1 r) base).
    pose proof (ceil_div_spec len base ltac:(lia) ltac:(lia)). assert (ceil_div len base <= 2 ^ 31) by nia.
    rewrite P1, P2, (proj2 (Z.eqb_neq len 0)), Z.sub_0_r by done. by unwrap64.
Qed.

Lemma CalcCmpS1GCache_spec r wt c t : 0 <= r < row_count k s1 -> sg_bIdx c = b -> sg_s1GIdx c = r ->
  sg_cmpS2Start c = ceil_div (win_len k s1 s2 r) base -> sg_cmpS2End c = sas_row_block k s1 s2 r ->
  sg_cmpS2TailSize c = cmp_len k s1 s2 r mod base -> table_ok k tail wt (cmp_len k s1 s2 r mod base) (tail_row r) t ->
  wp (CalcCmpS1GCache c si) (fun c' t' => t' = t /\ exists nc,
    c' = { c with sg_cmpS1GBlock := ceil_div (cmp_len k s1 s2 r) base;
                  sg_cmpS1GCost := part_cost base (row_height k s1 r) (cmp_len k s1 s2 r);
                  sg_cmpS1GLastBlockCost := if cmp_len k s1 s2 r =? 0 then 0
                    else block_cost (row_height k s1 r) (last_block base (cmp_len k s1 s2 r));
                  sg_cmpS1GNormalBlockCost := nc }) t.
Proof.
  intros Hr Hb Hi Hst Hen Htail (_ & _ & T). unfold CalcCmpS1GCache. rewrite Hst, Hen. pose proof (base_range k V).
  destruct (act_cmp_size_spec k V s1 s2 Hs1 Hs2 r Hr) as (_ & Hlen & Hno & _). unfold sas_row_block.
  set (len := cmp_len k s1 s2 r) in *. set (w := ceil_div (win_len k s1 s2 r) base).
  destruct (w + ceil_div len base <=? w) eqn:E; bool_prop.
  - assert (len = 0) as -> by (destruct (decide (len = 0)); [done|]; pose proof (ceil_div_pos len base); lia).
    apply wp_ret. split; [done|]. exists 0. rewrite ceil_div_0 by lia. unfold part_cost. by rewrite ceil_div_0, zsum_nil by lia.
  - assert (len <> 0) as Hne by (intros E0; rewrite E0, ceil_div_0 in E; lia).
    destruct (hasCmpKv_ k); [|by rewrite Hno in Hne]. destruct (T eq_refl) as [T1 T2].
    cbv zeta. simpl. rewrite Htail. apply wp_bind. eapply wp_lift; [by apply (is_tail_row_spec r)|].
    pose proof (row_tokens k V s1 Hs1 r Hr) as (_ & _ & Hh & _). rewrite <- row_height_tail in T1, T2 by done.
    destruct (part_sum base (row_height k s1 r) len (w + ceil_div len base - w) ltac:(lia) ltac:(lia) ltac:(pose proof (sv_mBaseSize k V); lia) ltac:(lia)) as (P1 & P2 & _).
    do 2 (apply wp_bind; apply wp_gets). rewrite T1, T2. apply wp_ret. split; [done|]. exists (block_cost (row_height k s1 r) base).
    pose proof (ceil_div_spec len base ltac:(lia) ltac:(lia)). assert (ceil_div len base <= 2 ^ 31) by nia.
    rewrite P1, P2, (proj2 (Z.eqb_neq len 0)) by done. replace (w + ceil_div len base - w) with (ceil_div len base) by lia. by unwrap64.
Qed.

(** ** A row *)

(** A part has blocks and a cost exactly when it has tokens. *)
Lemma part_facts r len : 0 <= r < row_count k s1 -> 0 <= len < 2 ^ 31 ->
  let h := row_height k s1 r in
  0 <= part_cost base h len < 2 ^ 61 /\ 0 <= ceil_div len base <= 2 ^ 24 /\
  (len = 0 -> part_cost base h len = 0 /\ ceil_div len base = 0) /\
  (0 < len -> 0 < ceil_div len base /\ 0 < block_cost h (last_block base len) <= part_cost base h len).
Proof.
  intros Hr Hlen h. pose proof (base_range k V). pose proof (row_tokens k V s1 Hs1 r Hr) as (_ & _ & Hh & _).
  pose proof (sv_mBaseSize k V). pose proof (ceil_div_spec len base ltac:(lia) ltac:(lia)).
  assert (ceil_div len base <= 2 ^ 24) by (destruct (sv_s2BaseSize k V) as [-> | ->]; unfold ceil_div; zlia).
  destruct (decide (len = 0)) as [->|].
  - unfold part_cost. rewrite ceil_div_0, zsum_nil by lia. split_and!; lia.
  - destruct (part_sum base h len (ceil_div len base) eq_refl ltac:(lia) ltac:(lia) ltac:(lia)) as (_ & _ & P3 & P4).
    pose proof (ceil_div_pos len base). split_and!; lia.
Qed.

Lemma row_facts r : 0 <= r < row_count k s1 ->
  let w := win_len k s1 s2 r in let m := cmp_len k s1 s2 r in
  0 <= w < 2 ^ 31 /\ 0 <= m < 2 ^ 31 /\ (w = 0 -> m = 0) /\
  0 <= sas_row_cost k s1 s2 r < 2 ^ 62 /\ 0 <= sas_row_block k s1 s2 r < 2 ^ 32 /\
  0 <= sas_row_last k s1 s2 r <= sas_row_cost k s1 s2 r /\
  (sas_row_block k s1 s2 r = 0 <-> sas_row_cost k s1 s2 r = 0) /\ (0 < sas_row_cost k s1 s2 r <-> 0 <= win_last k s1 s2 r).
Proof.
  intros Hr w m. destruct (win_bounds k V s1 s2 Hs1 Hs2 r Hr) as (_ & Hw & Hwl).
  destruct (act_cmp_size_spec k V s1 s2 Hs1 Hs2 r Hr) as (_ & Hml & _ & Hwm). fold w m in Hwl, Hml, Hwm.
  assert (0 < w <-> 0 <= win_last k s1 s2 r) as Hlast by (subst w; unfold win_len in *; case_if; lia).
  unfold sas_row_cost, sas_row_block, sas_row_last. fold w m.
  destruct (part_facts r w Hr ltac:(lia)) as (A1 & A2 & A3 & A4). destruct (part_facts r m Hr ltac:(lia)) as (B1 & B2 & B3 & B4).
  cbv zeta in *. split_and!; try lia; repeat case_if; lia.
Qed.

Lemma CalcS1GCache_spec sc r c s : splitInfo sc = si -> 0 <= r < row_count k s1 ->
  wp (CalcS1GCache k r sc (bcache k b s1 s2) c) (fun c' _ => sg_s2Start c' = 0 /\
    sg_s1GCost c' = sas_row_cost k s1 s2 r /\ sg_s1GLastBlockCost c' = sas_row_last k s1 s2 r /\
    sg_s1GBlock c' = sas_row_block k s1 s2 r) s.
Proof.
  intros Hsi Hr. unfold CalcS1GCache. rewrite Hsi. cbv zeta. cbn [bc_bIdx bcache]. apply wp_bind. eapply wp_lift; [done|].
  rewrite (proj2 (Z.eqb_neq (row_count k s1) 0)) by lia.
  edestruct (CalcBlockRange_spec k V b s1 s2 Hs1 Hs2 Hfit r) as (range & Hrange & Hblk); [done|].
  apply wp_bind. eapply wp_lift; [done|]. apply wp_bind. eapply wp_lift; [done|]. simpl.
  apply wp_bind. eapply wp_lift; [done|]. pose proof (base_range k V). pose proof tail_range.
  assert (0 <= win_len k s1 s2 r mod base < 512 /\ 0 <= cmp_len k s1 s2 r mod base < 512) as [M1 M2].
  { pose proof (Z.mod_pos_bound (win_len k s1 s2 r) base). pose proof (Z.mod_pos_bound (cmp_len k s1 s2 r) base). lia. }
  unwrap64. apply wp_bind. eapply wp_mono.
  { apply (CalcCostTable_spec k V tail (win_len k s1 s2 r mod base) (cmp_len k s1 s2 r mod base) ltac:(lia) ltac:(lia) ltac:(lia) (tail_row r)). unfold tail_row. intros Ht. bool_prop. done. }
  intros u t Ht. cbv beta in Ht. apply wp_bind. eapply wp_mono; [by eapply CalcWinS1GCache_spec|]. intros c1 t1 [-> [nc1 ->]].
  apply wp_bind. eapply wp_mono; [by eapply CalcCmpS1GCache_spec|]. intros c2 t2 [-> [nc2 ->]]. apply wp_ret.
  destruct (row_facts r Hr) as (Hw & Hm & Hwm & Hcost & Hblock & _). 
  destruct (part_facts r (win_len k s1 s2 r) Hr Hw) as (A1 & A2 & A3 & A4).
  destruct (part_facts r (cmp_len k s1 s2 r) Hr Hm) as (B1 & B2 & B3 & B4). cbv zeta in *.
  unfold GatherWinAndCmpCache, sas_row_cost, sas_row_block, sas_row_last in *. cbv zeta. simpl.
  destruct (0 <? ceil_div (cmp_len k s1 s2 r) base) eqn:E; bool_prop; simpl; unwrap64.
  - rewrite (proj2 (Z.eqb_neq (cmp_len k s1 s2 r) 0)), (proj2 (Z.eqb_neq (win_len k s1 s2 r) 0)) by lia.
    split_and!; try done. case_if; [done|]. lia.
  - assert (cmp_len k s1 s2 r = 0) as -> by lia. simpl. split_and!; try done. case_if; [done|]. lia.
Qed.
End RowCache.
