(* ===== verification/SasBatchLemmas.v ===== *)
(** The sums over rows and batches ([CalcSplitInfo], [CalcBatchCost],
    [CalcCostInfo]), and the instance of [RowCosts] they establish. *)

From S2P Require Import Prelude AscendC TilingContext Aicpu SasMeta SasMetaCost SasMetaAssign SasSpec SasCostLemmas.

(** The sequence lengths the kernel reads: [s1 b] queries and [s2 b] keys of batch
    [b], small enough for the 32-bit products of the code. *)
Record seq_lens (k : SasKernel) (s1 s2 : Z -> Z) : Prop := {
  sl_s1 b : 0 <= b < batchSize_ k -> GetS1SeqSize k b = Ok (s1 b);
  sl_s2 b : 0 <= b < batchSize_ k -> GetS2SeqSize k b = Ok (s2 b);
  sl_s1_range b : 0 <= b < batchSize_ k -> 0 <= s1 b < 2 ^ 31;
  sl_s2_range b : 0 <= b < batchSize_ k -> 0 <= s2 b < 2 ^ 31;
  sl_fit b : 0 <= b < batchSize_ k -> s1 b * groupSize_ k + mBaseSize_ k < 2 ^ 32 }.

Section Batches.
Variable k : SasKernel.
Hypothesis V : sas_valid k.
Variables s1 s2 : Z -> Z.
Hypothesis SL : seq_lens k s1 s2.
Hypothesis Hbatch : 0 <= batchSize_ k < 2 ^ 31.

Abbreviation nb := (batchSize_ k).

Definition sas_rows (b : Z) : Z := row_count k (s1 b).
Definition sas_cost (b r : Z) : Z := sas_row_cost k (s1 b) (s2 b) r.
Definition sas_last (b r : Z) : Z := sas_row_last k (s1 b) (s2 b) r.
Definition sas_block (b r : Z) : Z := sas_row_block k (s1 b) (s2 b) r.
Definition sas_total : Z := total_cost nb sas_rows sas_cost.

(** The batch has both queries and keys. *)
Definition active (b : Z) : bool := negb (s1 b =? 0) && negb (s2 b =? 0).

(** ** [CalcSplitInfo] *)

(** The split of the first [n] batches. *)
Definition split_upto (n : Z) (si : SplitInfo) : Prop :=
  Z.of_nat (length (si_s1GBaseNum si)) = nb /\ Z.of_nat (length (si_s2BaseNum si)) = nb /\
  Z.of_nat (length (si_s1GTailSize si)) = nb /\ Z.of_nat (length (si_s2TailSize si)) = nb /\
  (forall b, 0 <= b < n -> vat (si_s1GBaseNum si) b = sas_rows b /\
                           vat (si_s1GTailSize si) b = s1 b * groupSize_ k mod mBaseSize_ k) /\
  (si_isKvSeqAllZero si = true <-> forall b, 0 <= b < n -> active b = false).

Lemma row_count_zero b : 0 <= b < nb -> sas_rows b = 0 <-> s1 b = 0.
Proof.
  intros Hb. pose proof (sv_groupSize k V). pose proof (sv_mBaseSize k V). pose proof (sl_s1_range k s1 s2 SL b Hb).
  unfold sas_rows, row_count. split; [|intros ->; rewrite Z.mul_0_l; apply ceil_div_0; lia].
  intros E. destruct (decide (s1 b = 0)); [done|]. pose proof (ceil_div_pos (s1 b * groupSize_ k) (mBaseSize_ k)). nia.
Qed.

Lemma CalcSplitInfo_spec s : wp (CalcSplitInfo k (new_SplitContext nb)) (fun sc _ =>
  split_upto nb (splitInfo sc) /\ costInfo sc = new_CostInfo nb) s.
Proof.
  unfold CalcSplitInfo. unwrap64. apply wp_bind. apply (wp_for_fold split_upto); [lia| | |].
  - unfold split_upto. simpl. rewrite !length_vnew by lia. split_and!; try done; try lia. split; [intros _ b Hb; lia|done].
  - clear s. intros b si s Hb (L1 & L2 & L3 & L4 & Hvals & Hzero).
    pose proof (sl_s1_range k s1 s2 SL b Hb). pose proof (sl_s2_range k s1 s2 SL b Hb). pose proof (sl_fit k s1 s2 SL b Hb).
    pose proof (sv_groupSize k V). pose proof (sv_mBaseSize k V). pose proof (base_range k V). assert (0 <= s1 b * groupSize_ k) by nia.
    rewrite (sl_s1 k s1 s2 SL b Hb), (sl_s2 k s1 s2 SL b Hb). do 2 (apply wp_bind; eapply wp_lift; [done|]).
    unwrap64. rewrite !c_quot_pass, !c_rem_pass by lia. rewrite !quot_nonneg_div, !rem_nonneg_mod by lia.
    replace (s1 b * groupSize_ k + (mBaseSize_ k - 1)) with (s1 b * groupSize_ k + mBaseSize_ k - 1) by lia.
    fold (ceil_div (s1 b * groupSize_ k) (mBaseSize_ k)). fold (row_count k (s1 b)). fold (sas_rows b).
    do 4 (apply wp_bind; eapply wp_lift; [done|]; apply wp_bind; eapply wp_lift; [apply vset_ok; lia|]). apply wp_ret. cbv zeta.
    fold (ceil_div (s2 b) (s2BaseSize_ k)).
    assert ((negb (sas_rows b =? 0) && negb (ceil_div (s2 b) (s2BaseSize_ k) =? 0)) = active b) as ->.
    { unfold active. f_equal; f_equal; apply Bool.eq_iff_eq_true; rewrite !Z.eqb_eq.
      - by apply row_count_zero.
      - split; [|intros ->; apply ceil_div_0; lia]. intros E. destruct (decide (s2 b = 0)); [done|].
        pose proof (ceil_div_pos (s2 b) (s2BaseSize_ k)). lia. }
    assert (forall b', 0 <= b' < b + 1 -> vat (<[Z.to_nat b := sas_rows b]> (si_s1GBaseNum si)) b' = sas_rows b' /\
              vat (<[Z.to_nat b := s1 b * groupSize_ k mod mBaseSize_ k]> (si_s1GTailSize si)) b' = s1 b' * groupSize_ k mod mBaseSize_ k).
    { intros b' Hb'. rewrite !vat_insert by lia. destruct (b' =? b) eqn:E; bool_prop; [by subst|]. apply Hvals. lia. }
    unfold split_upto. destruct (active b) eqn:Ha; simpl; rewrite !length_insert; split_and!; try done.
    + split; [done|]. intros Hall. rewrite Hall in Ha; [done|lia].
    + rewrite Hzero. split; intros Hall b' Hb'; [|apply Hall; lia]. destruct (decide (b' = b)) as [->|]; [done|]. apply Hall. lia.
  - clear s. intros si s Hsi. by apply wp_ret.
Qed.

Section Costs.
Variable sc : SplitContext.
Hypothesis Hsplit : split_upto nb (splitInfo sc).

Lemma split_vget b : 0 <= b < nb -> vget (si_s1GBaseNum (splitInfo sc)) b = Ok (sas_rows b) /\
  vget (si_s1GTailSize (splitInfo sc)) b = Ok (s1 b * groupSize_ k mod mBaseSize_ k).
Proof.
  destruct Hsplit as (L1 & _ & L3 & _ & Hvals & _). intros Hb. destruct (Hvals b Hb) as [<- <-].
  split; apply vget_ok; lia.
Qed.

Lemma sas_row_spec b r c s : 0 <= b < nb -> 0 <= r < sas_rows b ->
  wp (CalcS1GCache k r sc (bcache k b (s1 b) (s2 b)) c) (fun c' _ => sg_s2Start c' = 0 /\
    sg_s1GCost c' = sas_cost b r /\ sg_s1GLastBlockCost c' = sas_last b r /\ sg_s1GBlock c' = sas_block b r) s.
Proof.
  intros Hb Hr. destruct (split_vget b Hb). eapply CalcS1GCache_spec; [done|by eapply sl_s1_range|by eapply sl_s2_range|by eapply sl_fit|..]; done.
Qed.

Lemma sas_row_facts b r : 0 <= b < nb -> 0 <= r < sas_rows b ->
  0 <= sas_cost b r < 2 ^ 62 /\ 0 <= sas_block b r < 2 ^ 32 /\ 0 <= sas_last b r <= sas_cost b r /\
  (sas_block b r = 0 <-> sas_cost b r = 0) /\ (0 < sas_cost b r <-> 0 <= win_last k (s1 b) (s2 b) r).
Proof.
  intros Hb Hr. apply (row_facts k V (s1 b) (s2 b)); [by eapply sl_s1_range|by eapply sl_s2_range|done].
Qed.

(** Empty rows come first. *)
Lemma sas_prefix b r r' : 0 <= b < nb -> 0 <= r <= r' -> r' < sas_rows b -> 0 < sas_cost b r -> 0 < sas_cost b r'.
Proof.
  intros Hb Hr Hr' Hpos. apply sas_row_facts in Hpos; [|lia..]. apply sas_row_facts; [lia..|].
  assert (win_last k (s1 b) (s2 b) r <= win_last k (s1 b) (s2 b) r') by (apply (win_last_mono k V); [by eapply sl_s2_range|lia]). lia.
Qed.

(** A batch has work when it has queries and keys. *)
Lemma batch_cost_active b : 0 <= b < nb -> 0 < batch_cost sas_rows sas_cost b <-> active b = true.
Proof.
  intros Hb. pose proof (sl_s1_range k s1 s2 SL b Hb). pose proof (sl_s2_range k s1 s2 SL b Hb). unfold active, batch_cost. split.
  - intros (r & Hr & Hpos)%zsum_pos. apply sas_row_facts in Hpos; [|done..]. unfold win_last in Hpos.
    pose proof (row_count_zero b Hb). apply andb_true_intro. split; apply negb_true_iff, Z.eqb_neq; [intros E; apply row_count_zero in E; lia|].
    intros E. rewrite E, Z.eqb_refl in Hpos. lia.
  - intros Ha. bool_prop. assert (0 < sas_rows b).
    { pose proof (row_count_zero b Hb). pose proof (row_count_bounds k V (s1 b) ltac:(lia) (sl_fit k s1 s2 SL b Hb)). fold (sas_rows b) in *. lia. }
    assert (0 < sas_cost b (sas_rows b - 1)).
    { apply sas_row_facts; [lia..|]. apply (win_last_last k V); lia. }
    assert (sas_cost b (sas_rows b - 1) <= zsum (sas_cost b) 0 (sas_rows b)).
    { apply zsum_elem; [lia|]. intros r Hr. apply sas_row_facts; lia. }
    lia.
Qed.

(** ** [CalcBatchCost] *)

(** [m] bounds the costs of the rows that satisfy [P], and is one of them or 0. *)
Definition max_row (P : Z -> Z -> Prop) (m : Z) : Prop :=
  0 <= m /\ (forall b r, 0 <= b < nb -> 0 <= r < sas_rows b -> P b r -> sas_cost b r <= m) /\
  (m = 0 \/ exists b r, 0 <= b < nb /\ 0 <= r < sas_rows b /\ m = sas_cost b r).

Lemma max_row_add (P P' : Z -> Z -> Prop) m b r : 0 <= b < nb -> 0 <= r < sas_rows b -> max_row P m ->
  (forall b' r', P' b' r' -> P b' r' \/ (b' = b /\ r' = r)) ->
  max_row P' (if m <? sas_cost b r then sas_cost b r else m).
Proof.
  intros Hb Hr (H0 & Hle & Hin) HP. split; [case_if; lia|]. split.
  - intros b' r' Hb' Hr' [H1|[-> ->]]%HP; [specialize (Hle b' r' Hb' Hr' H1)|]; case_if; lia.
  - case_if; [right; eauto|done].
Qed.

(** The tables have a place for each batch. *)
Definition tables (ci : CostInfo) : Prop :=
  Z.of_nat (length (ci_bN2CostOfEachBatch ci)) = nb /\ Z.of_nat (length (ci_bN2BlockOfEachBatch ci)) = nb /\
  Z.of_nat (length (ci_bN2LastBlockCostOfEachBatch ci)) = nb.

(** The entries of batch [b] after its first [n] rows. *)
Definition batch_entry (b n : Z) (ci : CostInfo) : Prop :=
  vat (ci_bN2CostOfEachBatch ci) b = zsum (sas_cost b) 0 n /\
  (0 < zsum (sas_cost b) 0 n -> vat (ci_bN2LastBlockCostOfEachBatch ci) b = sas_last b (n - 1)).

(** Only the entries of batch [b] differ. *)
Definition same_but (b : Z) (ci ci' : CostInfo) : Prop :=
  (forall j, 0 <= j -> j <> b -> vat (ci_bN2CostOfEachBatch ci') j = vat (ci_bN2CostOfEachBatch ci) j /\
     vat (ci_bN2LastBlockCostOfEachBatch ci') j = vat (ci_bN2LastBlockCostOfEachBatch ci) j) /\
  ci_totalCost ci' = ci_totalCost ci.

Hypothesis Htotal : sas_total < 2 ^ 62.

Lemma sas_cost_nonneg b r : 0 <= b < nb -> 0 <= r < sas_rows b -> 0 <= sas_cost b r.
Proof. intros Hb Hr. apply sas_row_facts; done. Qed.

Lemma part_le_total b n : 0 <= b < nb -> 0 <= n <= sas_rows b -> 0 <= zsum (sas_cost b) 0 n <= sas_total.
Proof.
  intros Hb Hn. split; [apply zsum_nonneg; intros; apply sas_cost_nonneg; lia|].
  transitivity (batch_cost sas_rows sas_cost b).
  - apply zsum_part; [lia..|]. intros; by apply sas_cost_nonneg.
  - apply (zsum_elem (batch_cost sas_rows sas_cost)); [lia|]. intros. apply (batch_cost_nonneg nb); [exact sas_cost_nonneg|lia].
Qed.

Lemma add_row_spec b n ci0 ci c P : 0 <= b < nb -> 0 <= n < sas_rows b -> tables ci -> batch_entry b n ci -> same_but b ci0 ci ->
  max_row P (ci_maxS1GCost ci) ->
  sg_s1GCost c = sas_cost b n -> sg_s1GLastBlockCost c = sas_last b n -> sg_s1GBlock c = sas_block b n ->
  exists ci', add_row b c ci = Ok ci' /\ tables ci' /\ batch_entry b (n + 1) ci' /\ same_but b ci0 ci' /\
    max_row (fun b' r => P b' r \/ (b' = b /\ r = n)) (ci_maxS1GCost ci').
Proof.
  intros Hb Hn (L1 & L2 & L3) (E1 & E2) (S1 & S2) Hmax Hc1 Hc2 Hc3. unfold add_row. rewrite Hc1, Hc2, Hc3.
  destruct (sas_row_facts b n Hb Hn) as (F1 & F2 & F3 & F4 & F5).
  pose proof (part_le_total b n Hb ltac:(lia)). pose proof (part_le_total b (n + 1) Hb ltac:(lia)) as Hp. rewrite zsum_snoc in Hp by lia.
  rewrite (vget_ok (ci_bN2CostOfEachBatch ci)), bind_Ok by lia. rewrite (vset_ok (ci_bN2CostOfEachBatch ci)), bind_Ok by lia.
  rewrite (vget_ok (ci_bN2BlockOfEachBatch ci)), bind_Ok by lia. rewrite (vset_ok (ci_bN2BlockOfEachBatch ci)), bind_Ok by lia.
  rewrite E1. unwrap64.
  pose proof (max_row_add P (fun b' r => P b' r \/ (b' = b /\ r = n)) (ci_maxS1GCost ci) b n Hb Hn Hmax ltac:(done)) as Hmax'.
  destruct (0 <? sas_block b n) eqn:E; bool_prop; [rewrite vset_ok, bind_Ok by lia|rewrite mret_bind];
    (eexists; split; [done|]); unfold tables, batch_entry, same_but; simpl; rewrite !length_insert; (split; [done|]); rewrite zsum_snoc by lia.
  - split; [|split; [split|]]; try done.
    + rewrite !vat_insert, Z.eqb_refl by lia. split; [done|]. intros _. f_equal. lia.
    + intros j Hj Hne. rewrite !vat_insert, (proj2 (Z.eqb_neq j b)) by lia. by apply S1.
  - assert (sas_cost b n = 0) as Hz by (apply F4; lia). split; [|split; [split|]]; try done.
    + rewrite !vat_insert, Z.eqb_refl by lia. split; [done|]. rewrite Hz, Z.add_0_r. intros (r & Hr & Hpos)%zsum_pos.
      pose proof (sas_prefix b r n Hb ltac:(lia) ltac:(lia) Hpos). lia.
    + intros j Hj Hne. rewrite !vat_insert, (proj2 (Z.eqb_neq j b)) by lia. by apply S1.
Qed.

(** The rows of the batches before [b]. *)
Definition before (b : Z) (b' r : Z) : Prop := b' < b.

(** The cost table of the first [n] batches. *)
Definition costs_upto (n : Z) (ci : CostInfo) : Prop :=
  tables ci /\ (forall b, 0 <= b < n -> batch_entry b (sas_rows b) ci) /\ max_row (before n) (ci_maxS1GCost ci) /\
  ci_totalCost ci = zsum (batch_cost sas_rows sas_cost) 0 n.

Lemma CalcBatchCache_spec b : 0 <= b < nb -> CalcBatchCache k b = Ok (bcache k b (s1 b) (s2 b)).
Proof. intros Hb. unfold CalcBatchCache. by rewrite (sl_s1 k s1 s2 SL b Hb), (sl_s2 k s1 s2 SL b Hb). Qed.

Lemma CalcBatchCost_spec b ci0 s : 0 <= b < nb -> tables ci0 -> max_row (before b) (ci_maxS1GCost ci0) ->
  wp (CalcBatchCost k b sc ci0) (fun ci _ => tables ci /\ batch_entry b (sas_rows b) ci /\ same_but b ci0 ci /\
    max_row (before (b + 1)) (ci_maxS1GCost ci)) s.
Proof.
  intros Hb (L1 & L2 & L3) Hmax. unfold CalcBatchCost. rewrite !vset_ok by lia. do 3 (apply wp_bind; eapply wp_lift; [done|]). cbv zeta.
  rewrite (sl_s1 k s1 s2 SL b Hb), (sl_s2 k s1 s2 SL b Hb). do 2 (apply wp_bind; eapply wp_lift; [done|]).
  set (ci1 := { ci0 with ci_bN2CostOfEachBatch := _; ci_bN2BlockOfEachBatch := _; ci_bN2LastBlockCostOfEachBatch := _ }).
  assert (tables ci1) as T1 by (unfold tables; simpl; by rewrite !length_insert).
  assert (same_but b ci0 ci1) as S1.
  { split; [|done]. intros j Hj Hne. simpl. rewrite !vat_insert by lia. by rewrite (proj2 (Z.eqb_neq j b)) by lia. }
  assert (batch_entry b 0 ci1) as E1.
  { unfold batch_entry. rewrite zsum_nil by lia. simpl. rewrite vat_insert, Z.eqb_refl by lia. split; [done|lia]. }
  pose proof (batch_cost_active b Hb) as Hact. unfold active, batch_cost in Hact.
  pose proof (row_count_zero b Hb). pose proof (row_count_bounds k V (s1 b) (sl_s1_range k s1 s2 SL b Hb) (sl_fit k s1 s2 SL b Hb)) as Hrows.
  fold (sas_rows b) in Hrows.
  destruct ((s1 b =? 0) || (s2 b =? 0)) eqn:E.
  - apply wp_ret. pose proof (part_le_total b (sas_rows b) Hb ltac:(lia)).
    assert (zsum (sas_cost b) 0 (sas_rows b) = 0) as Hz.
    { destruct (decide (0 < zsum (sas_cost b) 0 (sas_rows b))) as [Hp|]; [|lia]. apply Hact in Hp. bool_prop. destruct E; bool_prop; lia. }
    split; [done|]. split; [|split; [done|]].
    + destruct E1 as [E1 _]. rewrite zsum_nil in E1 by lia. unfold batch_entry. rewrite Hz. split; [done|lia].
    + destruct Hmax as (M1 & M2 & M3). split; [done|]. split; [|done]. intros b' r Hb' Hr Hlt. unfold before in *.
      destruct (decide (b' = b)) as [->|]; [|apply M2; [done..|lia]].
      pose proof (zsum_elem (sas_cost b) 0 (sas_rows b) r Hr ltac:(intros; by apply sas_cost_nonneg)). simpl. lia.
  - rewrite CalcBatchCache_spec by done. apply wp_bind. eapply wp_lift; [done|].
    apply wp_bind. eapply wp_lift; [by apply split_vget|]. apply wp_bind.
    apply (wp_for_fold (fun n '(c, ci) => tables ci /\ batch_entry b n ci /\ same_but b ci0 ci /\
             max_row (fun b' r => before b b' r \/ (b' = b /\ r < n)) (ci_maxS1GCost ci))); [lia| | |].
    + split; [done|]. split; [done|]. split; [done|]. destruct Hmax as (M1 & M2 & M3). split; [done|]. split; [|done].
      intros b' r Hb' Hr [Hlt|[-> Hlt]]; [by apply M2|lia].
    + clear s. intros n [c ci] s Hn (T & Ee & S & M). apply wp_bind. eapply wp_mono; [by apply sas_row_spec|].
      intros c' s' (_ & C1 & C2 & C3). destruct (add_row_spec b n ci0 ci c' _ Hb Hn T Ee S M C1 C2 C3) as (ci' & Hadd & T' & E' & S' & M1 & M2 & M3).
      apply wp_bind. eapply wp_lift; [done|]. apply wp_ret. split; [done|]. split; [done|]. split; [done|]. split; [done|]. split; [|done].
      intros b' r Hb' Hr [Hlt|[-> Hlt]]; apply M2; try done; [by left; left|]. destruct (decide (r = n)); [by right|left; right; lia].
    + clear s. intros [c ci] s (T & Ee & S & M1 & M2 & M3). apply wp_ret. split; [done|]. split; [done|]. split; [done|]. split; [done|]. split; [|done].
      intros b' r Hb' Hr Hlt. unfold before in *. apply M2; [done..|]. destruct (decide (b' = b)) as [->|]; [right; lia|left; lia].
Qed.

(** ** [CalcCostInfo] *)

Lemma CalcCostInfo_spec s : si_isKvSeqAllZero (splitInfo sc) = false -> costInfo sc = new_CostInfo nb ->
  wp (CalcCostInfo k sc) (fun sc' _ => splitInfo sc' = splitInfo sc /\ costs_upto nb (costInfo sc')) s.
Proof.
  intros Hz Hci. unfold CalcCostInfo. rewrite Hz, Hci. unwrap64. apply wp_bind. apply (wp_for_fold costs_upto); [lia| | |].
  - unfold costs_upto, tables. simpl. rewrite !length_vnew by lia. split; [done|]. split; [intros; lia|]. split; [|done].
    split; [lia|]. split; [|by left]. intros b r Hb Hr Hlt. unfold before in Hlt. lia.
  - clear s. intros b ci s Hb (T & E & M & Tot). apply wp_bind. eapply wp_mono; [by apply CalcBatchCost_spec|].
    intros ci' s' (T' & Eb & [S1 S2] & M'). pose proof T' as (L1 & L2 & L3).
    apply wp_bind. eapply wp_lift; [apply vget_ok; lia|]. apply wp_bind. eapply wp_lift; [apply vget_ok; lia|]. apply wp_ret.
    pose proof (part_le_total b (sas_rows b) Hb). 
    assert (0 <= zsum (batch_cost sas_rows sas_cost) 0 b /\ zsum (batch_cost sas_rows sas_cost) 0 b + batch_cost sas_rows sas_cost b <= sas_total) as [P1 P2].
    { assert (forall j, 0 <= j < nb -> 0 <= batch_cost sas_rows sas_cost j) as Hj
        by (intros; apply (batch_cost_nonneg nb); [exact sas_cost_nonneg|lia]).
      split; [apply zsum_nonneg; intros; apply Hj; lia|]. rewrite <- zsum_snoc by lia. apply zsum_part; [lia..|done]. }
    pose proof (batch_cost_nonneg nb sas_rows sas_cost sas_cost_nonneg b Hb).
    destruct Eb as [Ec El]. unfold batch_cost in *. rewrite Ec, S2, Tot, (sv_kvHeadNum k V). rewrite !Z.mul_1_r.
    pose proof (sv_kvHeadNum k V). unwrap64. unfold costs_upto. simpl. split; [done|]. split; [|split; [done|]].
    + intros j Hj. unfold batch_entry. simpl. destruct (decide (j = b)) as [->|]; [done|]. destruct (S1 j ltac:(lia) ltac:(done)) as [-> ->].
      apply E. lia.
    + rewrite zsum_snoc by lia. reflexivity.
  - clear s. intros ci s H. by apply wp_ret.
Qed.
End Costs.

(** ** The interface *)

Section Interface.
Variable sc : SplitContext.
Hypothesis Hsplit : split_upto nb (splitInfo sc).
Hypothesis Hcosts : costs_upto nb (costInfo sc).
Hypothesis Htotal : sas_total < 2 ^ 62.
Hypothesis Hpos : 0 < nb.

Lemma sas_rc_row b r c s : 0 <= b < nb -> 0 <= r -> r < sas_rows b \/ r = 0 ->
  wp (CalcS1GCache k r sc (bcache k b (s1 b) (s2 b)) c) (fun c' _ => sg_s2Start c' = 0 /\
    (r < sas_rows b -> sg_s1GCost c' = sas_cost b r /\ sg_s1GLastBlockCost c' = sas_last b r /\ sg_s1GBlock c' = sas_block b r)) s.
Proof.
  intros Hb Hr Hrr. destruct (decide (r < sas_rows b)) as [Hlt|].
  - eapply wp_mono; [apply (sas_row_spec sc Hsplit b r); lia|]. intros c' s' (H1 & H2). by split.
  - destruct (split_vget sc Hsplit b Hb) as [Hnum _]. unfold CalcS1GCache. cbv zeta. cbn [bc_bIdx bcache].
    apply wp_bind. eapply wp_lift; [done|]. pose proof (row_count_bounds k V (s1 b) (sl_s1_range k s1 s2 SL b Hb) (sl_fit k s1 s2 SL b Hb)) as Hrows.
    fold (sas_rows b) in Hrows. rewrite (proj2 (Z.eqb_eq (sas_rows b) 0)) by lia. apply wp_ret. simpl. split; [done|lia].
Qed.

Lemma sas_max_range : 0 <= ci_maxS1GCost (costInfo sc) < 2 ^ 62.
Proof.
  destruct Hcosts as (_ & _ & (M1 & _ & M3) & _). split; [done|]. destruct M3 as [->|(b & r & Hb & Hr & ->)]; [lia|].
  by apply sas_row_facts.
Qed.

#[export] Instance SasRowCosts : RowCosts k sc.
Proof.
  refine (Build_RowCosts k sc nb sas_rows sas_cost sas_last sas_block (fun b => bcache k b (s1 b) (s2 b)) (ci_maxS1GCost (costInfo sc))
    (sv_kvHeadNum k V) eq_refl _ _ _ _ _ sas_prefix Htotal sas_max_range eq_refl _ _ _ _ _ sas_rc_row).
  all: destruct Hcosts as (T & E & (M1 & M2 & M3) & Tot).
  - lia.
  - intros b Hb. by apply (row_count_bounds k V (s1 b)); [eapply sl_s1_range|eapply sl_fit].
  - intros b r Hb Hr. split; [by apply sas_cost_nonneg|]. apply M2; [done..|]. unfold before. lia.
  - intros b r Hb Hr. by apply sas_row_facts.
  - intros b r Hb Hr. by apply sas_row_facts.
  - exact Tot.
  - intros b Hb. destruct T as (L1 & _). destruct (E b Hb) as [Ec _]. unfold batch_cost. rewrite <- Ec. apply vget_ok. lia.
  - intros b Hb. destruct T as (_ & L2 & _). eexists. apply vget_ok. lia.
  - intros b Hb Hp. destruct T as (_ & _ & L3). destruct (E b Hb) as [_ El]. rewrite <- El by done. apply vget_ok. lia.
  - intros b Hb. by apply CalcBatchCache_spec.
Defined.
End Interface.
End Batches.
