(* ===== verification/SasPlan.v ===== *)
(** The plan of [BalanceSchedule] as a whole, and what it means for the rows: the
    shares of the used cores cover every row exactly once. *)

From S2P Require Import Prelude AscendC TilingContext Aicpu SasMeta SasMetaCost SasMetaAssign SasSpec SasAssignLemmas SasPlanLemmas SasCostLemmas SasBatchLemmas.

(** ** Cuts *)

(** Increasing cuts put each position between their ends into exactly one stretch. *)
Lemma cuts_mono (cut : Z -> pos) m i j : (forall i, 0 <= i < m -> pos_le (cut i) (cut (i + 1))) ->
  0 <= i <= j -> j <= m -> pos_le (cut i) (cut j).
Proof.
  intros Hstep Hij Hj. replace j with (i + (j - i)) by lia. assert (0 <= j - i) as Hd by lia. assert (i + (j - i) <= m) as Hm by lia.
  revert Hd Hm. generalize (j - i). apply (natlike_ind (fun d => i + d <= m -> pos_le (cut i) (cut (i + d)))); [by rewrite Z.add_0_r|].
  intros d Hd IH Hm. unfold Z.succ in *. transitivity (cut (i + d)); [apply IH; lia|]. replace (i + (d + 1)) with (i + d + 1) by lia.
  apply Hstep. lia.
Qed.

Lemma cuts_cover (cut : Z -> pos) m p : 0 <= m -> (forall i, 0 <= i < m -> pos_le (cut i) (cut (i + 1))) ->
  pos_le (cut 0) p -> pos_lt p (cut m) ->
  exists i, (0 <= i < m /\ pos_le (cut i) p /\ pos_lt p (cut (i + 1))) /\
    forall j, 0 <= j < m -> pos_le (cut j) p -> pos_lt p (cut (j + 1)) -> j = i.
Proof.
  intros Hm Hstep H0 Hlt.
  assert (exists i, 0 <= i < m /\ pos_le (cut i) p /\ pos_lt p (cut (i + 1))) as (i & Hi & Hle & Hlt').
  { revert Hm Hstep Hlt. revert m. apply (natlike_ind (fun m => (forall i, 0 <= i < m -> pos_le (cut i) (cut (i + 1))) -> 
      pos_lt p (cut m) -> exists i, 0 <= i < m /\ pos_le (cut i) p /\ pos_lt p (cut (i + 1)))).
    - intros _ Hlt. destruct p, (cut 0). unfold pos_le, pos_lt in *. simpl in *. lia.
    - intros m Hm IH Hstep Hlt. unfold Z.succ in *. destruct (decide (pos_lt p (cut m))) as [Hl|Hn].
      + destruct IH as (i & Hi & H); [intros; apply Hstep; lia|done|]. exists i. split; [lia|done].
      + exists m. split; [lia|]. split; [|done]. destruct p, (cut m). unfold pos_le, pos_lt in *. simpl in *. lia. }
  exists i. split; [done|]. intros j Hj Hlej Hltj. destruct (decide (j < i)) as [H|].
  { pose proof (cuts_mono cut m (j + 1) i Hstep ltac:(lia) ltac:(lia)) as Hc. exfalso. revert Hc Hle Hltj. generalize (cut (j + 1)), (cut i).
    intros [] []. destruct p. unfold pos_le, pos_lt. simpl. lia. }
  destruct (decide (i < j)) as [H|]; [|lia].
  pose proof (cuts_mono cut m (i + 1) j Hstep ltac:(lia) ltac:(lia)) as Hc. exfalso. revert Hc Hlej Hlt'. generalize (cut (i + 1)), (cut j).
  intros [] []. destruct p. unfold pos_le, pos_lt. simpl. lia.
Qed.

(** ** Plans *)

(** Position [p] is in the share of core [i]. *)
Definition in_share (r : SplitResult) (i : Z) (p : pos) : Prop := pos_le (core_start r i) p /\ pos_lt p (core_end r i).

(** The used cores split all the rows into consecutive stretches; no row is split. *)
Definition is_plan (batches : Z) (rows : Z -> Z) (n : Z) (r : SplitResult) : Prop :=
  1 <= sr_usedCoreNum r <= n /\ core_end r (sr_usedCoreNum r - 1) = (batches, 0) /\
  (forall i, 0 <= i < sr_usedCoreNum r -> pos_ok batches rows (core_end r i) /\ pos_le (core_start r i) (core_end r i) /\
     vat (sr_s2End r) i = 0).

Lemma core_end_start r i : 0 <= i -> core_end r i = core_start r (i + 1).
Proof. intros Hi. unfold core_start. rewrite (proj2 (Z.eqb_neq (i + 1) 0)) by lia. by replace (i + 1 - 1) with i by lia. Qed.

Lemma plan_covers_row batches rows n r b row : is_plan batches rows n r -> 0 <= b < batches -> 0 <= row ->
  exists i, (0 <= i < sr_usedCoreNum r /\ in_share r i (b, row)) /\
    forall j, 0 <= j < sr_usedCoreNum r -> in_share r j (b, row) -> j = i.
Proof.
  intros (Hm & Hend & Hcuts) Hb Hrow. unfold in_share.
  destruct (cuts_cover (core_start r) (sr_usedCoreNum r) (b, row)) as (i & (Hi & H1 & H2) & Huniq).
  - lia.
  - intros i Hi. rewrite <- core_end_start by lia. by apply Hcuts.
  - unfold core_start. simpl. unfold pos_le. simpl. lia.
  - replace (sr_usedCoreNum r) with (sr_usedCoreNum r - 1 + 1) by lia. rewrite <- core_end_start, Hend by lia. left. simpl. lia.
  - exists i. rewrite core_end_start by lia. split; [done|]. intros j Hj [Hj1 Hj2]. rewrite core_end_start in Hj2 by lia. by apply Huniq.
Qed.

Lemma plan_ok_is_plan batches rows cost n maxRow r : plan_ok batches rows cost n maxRow r -> is_plan batches rows n r.
Proof.
  intros (Hm & Hs & Hend). split; [done|]. split; [done|]. intros i Hi. destruct (Hs i Hi) as (Hp & Hs2 & Hlt & _).
  split; [done|]. split; [by apply pos_lt_le|done].
Qed.

(** ** [BalanceSchedule] *)

(** What the theorems assume of a prepared kernel and its sequence lengths. *)
Record sas_ready (k : SasKernel) (s1 s2 : Z -> Z) : Prop := {
  sr_valid : sas_valid k;
  sr_lens : seq_lens k s1 s2;
  sr_batch : 0 <= batchSize_ k < 2 ^ 31;
  sr_cores : 1 <= aicCoreNum_ k < 2 ^ 32;
  sr_noFd : supportFd k = false;
  sr_total : sas_total k s1 s2 < 2 ^ 62 }.

(** Bounds for the [while] loops: the batches, and the rows of each. *)
Definition enough_fuel (k : SasKernel) (s1 : Z -> Z) (fuel : nat) : Prop :=
  batchSize_ k < Z.of_nat fuel /\ forall b, 0 <= b < batchSize_ k -> sas_rows k s1 b < Z.of_nat fuel.

(** No reduction, no workspace. *)
Definition no_reduction (r0 r : SplitResult) : Prop :=
  sr_firstFdDataWorkspaceIdx r = sr_firstFdDataWorkspaceIdx r0 /\ sr_numOfFdHead r = 0 /\ sr_fdRes r = sr_fdRes r0.

Lemma new_plan_frame n m : 0 <= n -> plan_frame n (new_SplitResult n m) (new_SplitResult n m).
Proof. intros Hn. unfold plan_frame, new_SplitResult. simpl. by rewrite length_vnew. Qed.

Section Balance.
Variable k : SasKernel.
Variables s1 s2 : Z -> Z.
Variable fuel : nat.
Hypothesis R : sas_ready k s1 s2.
Hypothesis F : enough_fuel k s1 fuel.
Abbreviation r0 := (new_SplitResult (aicCoreNum_ k) (aivCoreNum_ k)).

(** Some batch has queries and keys. *)
Definition has_work : Prop := exists b, 0 <= b < batchSize_ k /\ active s1 s2 b = true.

Lemma sas_total_pos : has_work -> 0 < sas_total k s1 s2.
Proof.
  intros (b & Hb & Ha). destruct R as [V SL HB _ _ _]. apply (batch_cost_active k V s1 s2 SL b Hb) in Ha.
  assert (batch_cost (sas_rows k s1) (sas_cost k s1 s2) b <= sas_total k s1 s2); [|lia].
  apply (zsum_elem (batch_cost (sas_rows k s1) (sas_cost k s1 s2))); [done|]. intros.
  apply (batch_cost_nonneg (batchSize_ k)); [|done]. by apply sas_cost_nonneg.
Qed.

Lemma BalanceSchedule_spec s : wp (BalanceSchedule fuel k r0) (fun r _ =>
  no_reduction r0 r /\ Z.of_nat (length (sr_bN2End r)) = aicCoreNum_ k /\ Z.of_nat (length (sr_gS1End r)) = aicCoreNum_ k /\
  Z.of_nat (length (sr_s2End r)) = aicCoreNum_ k /\
  is_plan (batchSize_ k) (sas_rows k s1) (aicCoreNum_ k) r /\
  (has_work -> exists m, max_row k s1 s2 (fun _ _ => True) m /\
     plan_ok (batchSize_ k) (sas_rows k s1) (sas_cost k s1 s2) (aicCoreNum_ k) m r)) s.
Proof.
  pose proof sas_total_pos as Hpos. destruct R as [V SL HB HC HF HT]. destruct F as [F1 F2]. unfold BalanceSchedule. apply wp_bind.
  unwrap64. eapply wp_mono; [by apply (CalcSplitInfo_spec k V s1 s2 SL HB)|].
  intros sc s1' [Hsplit Hci]. cbv beta in Hsplit. pose proof Hsplit as (_ & _ & _ & _ & _ & Hzero).
  destruct (si_isKvSeqAllZero (splitInfo sc)) eqn:Hz.
  - assert (bn2_total k = batchSize_ k) as -> by (unfold bn2_total; rewrite (sv_kvHeadNum k V), Z.mul_1_r; by unwrap64).
    assert (Z.of_nat (length (vnew (aicCoreNum_ k))) = aicCoreNum_ k) as Hlen by (apply length_vnew; lia).
    do 3 (apply wp_bind; eapply wp_lift; [apply vset_ok; simpl; lia|]). apply wp_ret. unfold is_plan, no_reduction, core_end, core_start. simpl.
    rewrite !length_insert. split; [done|]. do 3 (split; [done|]). split.
    + split; [lia|]. rewrite !vat_insert by lia. simpl. split; [done|]. intros i Hi. assert (i = 0) as -> by lia.
      rewrite !vat_insert by lia. simpl. split; [by right|]. split; [|done]. unfold pos_le. simpl. lia.
    + intros (b & Hb & Ha). rewrite (proj1 Hzero eq_refl b Hb) in Ha. done.
  - assert (0 < batchSize_ k /\ has_work) as [Hb0 Hw].
    { destruct (find (active s1 s2) (zrange 0 (batchSize_ k))) as [b|] eqn:Hf.
      - apply find_zrange_some in Hf as (Hb & Ha & _). split; [lia|]. by exists b.
      - rewrite find_zrange_none in Hf. by apply Hzero in Hf. }
    apply wp_bind. eapply wp_mono; [by apply (CalcCostInfo_spec k V s1 s2 SL HB sc Hsplit HT)|].
    intros sc' s2' [Hsi Hcosts]. cbv zeta. simpl. rewrite <- Hsi in Hsplit.
    pose (RC := SasRowCosts k V s1 s2 SL HB sc' Hsplit Hcosts HT Hb0).
    apply wp_bind. eapply wp_mono; [apply (@CalcSplitPlan_spec k sc' RC fuel HF HC F1 F2 (Hpos Hw))|].
    { exact (new_plan_frame (aicCoreNum_ k) (aivCoreNum_ k) ltac:(lia)). }
    intros r s3 (Hplan & (L1 & L2 & L3 & L4 & L5 & L6) & _). simpl in L4, L5, L6. rewrite L5. simpl. apply wp_bind, wp_ret, wp_ret.
    pose proof Hplan as (Hu & _). assert ({ r with sr_usedCoreNum := Z.max (sr_usedCoreNum r) 1 } = r) as ->.
    { rewrite Z.max_l by lia. by destruct r. }
    split; [by repeat split|]. do 3 (split; [done|]). split; [by eapply plan_ok_is_plan|].
    intros _. exists (ci_maxS1GCost (costInfo sc')). split; [|done]. pose proof (proj1 (proj2 (proj2 Hcosts))) as (M1 & M2 & M3).
    split; [done|]. split; [|done]. intros b row Hb Hr _. apply M2; [done..|]. unfold before. lia.
Qed.
End Balance.
