(* ===== verification/SasPrepare.v ===== *)
(** The two ends of [Compute].  The parameter checks: a kernel that [Prepare]
    returns satisfies [sas_valid], provided the number of query heads, which
    nothing checks for the layout PA_ND, is positive.  The metadata words: what
    [GenMetaData] writes is what the attention kernel reads back with
    [GetAttrAbsIndex], and nothing else changes. *)

From S2P Require Import Prelude AscendC TilingContext Aicpu SasMeta SasMetaCost SasMetaAssign SasMetaOut SasSpec SasPlanLemmas SasCostLemmas SasBatchLemmas SasPlan.

(** ** The metadata words *)

(** The buffer has room for both tables. *)
Definition meta_room (buf : list Z) : Prop := 864 <= Z.of_nat (length buf).

Lemma vat_insert_eq (v : list Z) i x : 0 <= i < Z.of_nat (length v) -> vat (<[Z.to_nat i := x]> v) i = x.
Proof. intros Hi. by rewrite vat_insert, Z.eqb_refl by lia. Qed.

Lemma vat_insert_ne (v : list Z) i x j : 0 <= i < Z.of_nat (length v) -> 0 <= j -> j <> i -> vat (<[Z.to_nat i := x]> v) j = vat v j.
Proof. intros Hi Hj Hne. by rewrite vat_insert, (proj2 (Z.eqb_neq j i)) by lia. Qed.

Ltac vat_simp :=
  repeat first [ rewrite vat_insert_eq by (rewrite ?length_insert; lia)
               | rewrite vat_insert_ne by (rewrite ?length_insert; lia) ].

Lemma wp_faMetadata i j v (Q : unit -> list Z -> Prop) buf : meta_room buf -> 0 <= i < 36 -> 0 <= j < 8 ->
  Q tt (<[Z.to_nat (i * 8 + j) := u32 v]> buf) -> wp (faMetadata i j v) Q buf.
Proof.
  unfold meta_room. intros Hr Hi Hj HQ. unfold faMetadata, AIC_CORE_NUM, FA_METADATA_SIZE. rewrite (proj2 (Z.ltb_lt i 36)) by lia.
  unfold wp, write_word. by rewrite vset_ok by lia.
Qed.

Lemma wp_fdMetadata i j v (Q : unit -> list Z -> Prop) buf : meta_room buf -> 0 <= i < 72 -> 0 <= j < 8 ->
  Q tt (<[Z.to_nat (36 * 8 + i * 8 + j) := u32 v]> buf) -> wp (fdMetadata i j v) Q buf.
Proof.
  unfold meta_room. intros Hr Hi Hj HQ. unfold fdMetadata, AIC_CORE_NUM, AIV_CORE_NUM, FA_METADATA_SIZE, FD_METADATA_SIZE.
  rewrite (proj2 (Z.ltb_lt i 72)) by lia. unfold wp, write_word. by rewrite vset_ok by lia.
Qed.

(** The word the attention kernel reads for an attribute of a cube core or of a vector core. *)
Definition fa_word (buf : list Z) (i j : Z) : Z := vat buf (GetAttrAbsIndex i j false).
Definition fd_word (buf : list Z) (i j : Z) : Z := vat buf (GetAttrAbsIndex i j true).

Lemma fa_word_index buf i j : 0 <= i < 36 -> 0 <= j < 8 -> fa_word buf i j = vat buf (i * 8 + j).
Proof. intros Hi Hj. unfold fa_word, GetAttrAbsIndex, FA_METADATA_SIZE. unwrap64. f_equal. lia. Qed.

Lemma fd_word_index buf i j : 0 <= i < 72 -> 0 <= j < 8 -> fd_word buf i j = vat buf (288 + i * 8 + j).
Proof. intros Hi Hj. unfold fd_word, GetAttrAbsIndex, FA_METADATA_SIZE, FD_METADATA_SIZE, AIC_CORE_NUM. unwrap64. f_equal. lia. Qed.

(** The entry of core [i] for the plan [r]. *)
Definition fa_entry (r : SplitResult) (buf : list Z) (i : Z) : Prop :=
  if i <? sr_usedCoreNum r then
    fa_word buf i FA_CORE_ENABLE_INDEX = 1 /\
    (fa_word buf i FA_BN2_START_INDEX, fa_word buf i FA_M_START_INDEX) = core_start r i /\ fa_word buf i FA_S2_START_INDEX = 0 /\
    (fa_word buf i FA_BN2_END_INDEX, fa_word buf i FA_M_END_INDEX) = core_end r i /\ fa_word buf i FA_S2_END_INDEX = 0 /\
    fa_word buf i FA_FIRST_FD_DATA_WORKSPACE_IDX_INDEX = 0
  else fa_word buf i FA_CORE_ENABLE_INDEX = 0.

(** A plan whose numbers fit in the words. *)
Definition plan_words (n : Z) (r : SplitResult) : Prop :=
  Z.of_nat (length (sr_bN2End r)) = n /\ Z.of_nat (length (sr_gS1End r)) = n /\ Z.of_nat (length (sr_s2End r)) = n /\
  sr_firstFdDataWorkspaceIdx r = vnew n /\ sr_usedCoreNum r <= n /\
  forall i, 0 <= i < sr_usedCoreNum r -> 0 <= (core_end r i).1 < 2 ^ 32 /\ 0 <= (core_end r i).2 < 2 ^ 32 /\ vat (sr_s2End r) i = 0.

(** The end of the core before [i]. *)
Lemma prev_end_ok v n i : Z.of_nat (length v) = n -> 0 <= i < n -> prev_end v i = Ok (if i =? 0 then 0 else vat v (i - 1)).
Proof. intros Hl Hi. unfold prev_end. case_if; [done|]. apply vget_ok. lia. Qed.

(** Only the words of one entry change. *)
Definition only_words (lo hi : Z) (buf buf' : list Z) : Prop :=
  length buf' = length buf /\ forall x, 0 <= x -> x < lo \/ hi <= x -> vat buf' x = vat buf x.

Lemma gen_fa_spec n r i buf : plan_words n r -> n <= 36 -> 0 <= i < n -> meta_room buf ->
  wp (gen_fa r i) (fun _ buf' => only_words (i * 8) (i * 8 + 8) buf buf' /\ fa_entry r buf' i) buf.
Proof.
  intros (L1 & L2 & L3 & L4 & Hu & Hfit) Hn Hi Hroom. unfold gen_fa, fa_entry. rewrite Z.leb_antisym.
  unfold FA_CORE_ENABLE_INDEX, FA_BN2_START_INDEX, FA_M_START_INDEX, FA_S2_START_INDEX, FA_BN2_END_INDEX, FA_M_END_INDEX,
    FA_S2_END_INDEX, FA_FIRST_FD_DATA_WORKSPACE_IDX_INDEX.
  pose proof (length_vnew n ltac:(lia)). unfold meta_room in Hroom.
  destruct (i <? sr_usedCoreNum r) eqn:E; bool_prop; cbn [negb].
  - rewrite !(prev_end_ok _ n) by lia. rewrite L4, !vget_ok by lia.
    repeat (apply wp_bind; first [eapply wp_lift; [done|]|apply wp_faMetadata; [unfold meta_room; rewrite ?length_insert; lia|lia|lia|]]).
    apply wp_faMetadata; [unfold meta_room; rewrite ?length_insert; lia|lia|lia|].
    destruct (Hfit i ltac:(lia)) as (W1 & W2 & W3). unfold core_end in W1, W2. simpl in W1, W2.
    assert (0 <= (if i =? 0 then 0 else vat (sr_bN2End r) (i - 1)) < 2 ^ 32 /\ 0 <= (if i =? 0 then 0 else vat (sr_gS1End r) (i - 1)) < 2 ^ 32 /\
            (if i =? 0 then 0 else vat (sr_s2End r) (i - 1)) = 0) as (P1 & P2 & P3).
    { destruct (i =? 0) eqn:E0; bool_prop; [lia|]. apply (Hfit (i - 1)). lia. }
    rewrite P3, W3, vat_vnew. split.
    + split; [by rewrite !length_insert|]. intros x Hx Hout. by vat_simp.
    + rewrite !fa_word_index by lia. vat_simp. unwrap64. unfold core_start, core_end. destruct (i =? 0); by repeat split.
  - apply wp_faMetadata; [done|lia|lia|]. split.
    + split; [by rewrite !length_insert|]. intros x Hx Hout. by vat_simp.
    + rewrite fa_word_index by lia. by vat_simp.
Qed.

(** Entries in other words are untouched. *)
Lemma fa_entry_frame r buf buf' lo hi i : only_words lo hi buf buf' -> 0 <= i < 36 -> i * 8 + 8 <= lo \/ hi <= i * 8 ->
  fa_entry r buf i -> fa_entry r buf' i.
Proof.
  intros [_ Hsame] Hi Hout. unfold fa_entry.
  unfold FA_CORE_ENABLE_INDEX, FA_BN2_START_INDEX, FA_M_START_INDEX, FA_S2_START_INDEX, FA_BN2_END_INDEX, FA_M_END_INDEX,
    FA_S2_END_INDEX, FA_FIRST_FD_DATA_WORKSPACE_IDX_INDEX. 
  rewrite !fa_word_index by lia. by rewrite !Hsame by lia.
Qed.

Lemma only_words_trans lo hi buf buf1 buf2 : only_words lo hi buf buf1 -> only_words lo hi buf1 buf2 -> only_words lo hi buf buf2.
Proof. intros [L1 H1] [L2 H2]. split; [congruence|]. intros x Hx Hout. by rewrite H2, H1. Qed.

Lemma only_words_weaken lo hi lo' hi' buf buf' : only_words lo hi buf buf' -> lo' <= lo -> hi <= hi' -> only_words lo' hi' buf buf'.
Proof. intros [L H] H1 H2. split; [done|]. intros x Hx Hout. apply H; lia. Qed.

Lemma GenMetaData_spec k r buf : plan_words (aicCoreNum_ k) r -> fd_fdUsedVecNum (sr_fdRes r) = 0 ->
  0 <= aicCoreNum_ k <= 36 -> 0 <= aivCoreNum_ k <= 72 -> meta_room buf ->
  wp (GenMetaData k r) (fun _ buf' => only_words 0 864 buf buf' /\ (forall i, 0 <= i < aicCoreNum_ k -> fa_entry r buf' i) /\
    (forall i, 0 <= i < aivCoreNum_ k -> fd_word buf' i FD_CORE_ENABLE_INDEX = 0)) buf.
Proof.
  intros Hw Hfd Hn Hm Hroom. unfold GenMetaData. apply wp_bind.
  apply (wp_for_range (fun n b => only_words 0 864 buf b /\ forall i, 0 <= i < n -> fa_entry r b i)); [lia|split; [done|intros; lia]| |].
  - intros i b Hi [Ho He]. eapply wp_mono; [apply (gen_fa_spec (aicCoreNum_ k) r i b Hw); [lia|lia|]|].
    { unfold meta_room in *. by rewrite (proj1 Ho). }
    intros _ b' [Ho' He']. split; [eapply only_words_trans; [done|]; eapply only_words_weaken; [done|lia|lia]|].
    intros j Hj. destruct (decide (j = i)) as [->|]; [done|]. eapply fa_entry_frame; [done|lia|lia|]. apply He. lia.
  - intros b [Ho He].
    apply (wp_for_range (fun n b' => only_words 0 864 b b' /\ only_words 288 864 b b' /\ forall i, 0 <= i < n -> fd_word b' i FD_CORE_ENABLE_INDEX = 0)).
    + lia.
    + split; [done|]. split; [done|]. intros; lia.
    + intros i b1 Hi (Ho1 & Ho2 & He1). unfold gen_fd. cbv zeta. rewrite Hfd, (proj2 (Z.leb_le 0 i)) by lia.
      assert (meta_room b1) as Hr1 by (unfold meta_room in *; by rewrite (proj1 Ho1), (proj1 Ho)).
      apply wp_fdMetadata; [done|lia|unfold FD_CORE_ENABLE_INDEX; lia|]. unfold FD_CORE_ENABLE_INDEX in *. unfold meta_room in Hr1.
      assert (only_words 288 864 b1 (<[Z.to_nat (36 * 8 + i * 8 + 0) := u32 0]> b1)) as Hw1.
      { split; [by rewrite length_insert|]. intros x Hx Hout. by vat_simp. }
      split; [eapply only_words_trans; [done|]; eapply only_words_weaken; [done|lia|lia]|].
      split; [by eapply only_words_trans|]. intros j Hj. rewrite fd_word_index by lia.
      destruct (decide (j = i)) as [->|]; [by vat_simp|]. vat_simp. rewrite <- fd_word_index by lia. apply He1. lia.
    + intros b' (Ho1 & Ho2 & He1). split; [by eapply only_words_trans|]. split; [|done].
      intros i Hi. eapply fa_entry_frame; [done|lia|lia|]. apply He. lia.
Qed.

(** ** The parameter checks *)

Lemma CheckSingleParam_inv k : CheckSingleParam k = true ->
  metadata_present k = true /\ aicCoreNum_ k <> 0 /\ aivCoreNum_ k <> 0 /\ kvHeadNum_ k = 1 /\ winLeft_ k = 127 /\
  (u32 (oriMaskMode_ k) = DEFAULT_MASK \/ u32 (oriMaskMode_ k) = RIGHT_DOWN_CAUSAL \/ u32 (oriMaskMode_ k) = BAND) /\
  (layoutQuery_ k = "TND" \/ layoutQuery_ k = "BSND")%string.
Proof.
  unfold CheckSingleParam. intros H. repeat (case_if_in H; [discriminate|]). bool_prop. 
  split_and!; try done.
  - destruct (u32 (oriMaskMode_ k) =? DEFAULT_MASK) eqn:M1; bool_prop; [by left|].
    destruct (u32 (oriMaskMode_ k) =? RIGHT_DOWN_CAUSAL) eqn:M2; bool_prop; [by right; left|].
    destruct (u32 (oriMaskMode_ k) =? BAND) eqn:M3; bool_prop; [by right; right|]. naive_solver.
  - destruct (layoutQuery_ k =? "TND")%string eqn:L1; [left; by apply String.eqb_eq|].
    destruct (layoutQuery_ k =? "BSND")%string eqn:L2; [right; by apply String.eqb_eq|]. naive_solver.
Qed.

Lemma mask_mode_u32 k : mask_mode k = u8 (u32 (oriMaskMode_ k)).
Proof. unfold mask_mode, u8, u32. rewrite Z.mod_mod_divide; [done|]. by exists (2 ^ 24). Qed.

Lemma CheckFeature_inv k : CheckFeature k = true -> hasCmpKv_ k = true ->
  (cmpRatio_ k = 4 \/ cmpRatio_ k = 128) /\ (cmpTopK_ k = 0 \/ cmpTopK_ k = 512 \/ cmpTopK_ k = 1024).
Proof.
  unfold CheckFeature. intros H Hc. rewrite Hc in H. repeat (case_if_in H; [discriminate|]). split.
  - destruct (cmpRatio_ k =? 4) eqn:R1; bool_prop; [by left|]. destruct (cmpRatio_ k =? 128) eqn:R2; bool_prop; [by right|]. naive_solver.
  - destruct (cmpTopK_ k =? 0) eqn:R1; bool_prop; [by left|]. destruct (cmpTopK_ k =? 512) eqn:R2; bool_prop; [by right; left|].
    destruct (cmpTopK_ k =? 1024) eqn:R3; bool_prop; [by right; right|]. naive_solver.
Qed.

(** The members [ParamsInit] leaves alone. *)
Definition same_inputs (k k' : SasKernel) : Prop :=
  aicCoreNum_ k' = aicCoreNum_ k /\ aivCoreNum_ k' = aivCoreNum_ k /\ metaData_ k' = metaData_ k /\ supportFd k' = supportFd k /\
  seqUsedQ_ k' = seqUsedQ_ k /\ seqUsedKv_ k' = seqUsedKv_ k /\ actSeqLenQ_ k' = actSeqLenQ_ k /\ actSeqLenOriKv_ k' = actSeqLenOriKv_ k /\
  layoutQuery_ k' = layoutQuery_ k /\ layoutKv_ k' = layoutKv_ k /\ queryHeadNum_ k' = queryHeadNum_ k.

Lemma mask_window_valid k : winLeft_ k = 127 ->
  (u32 (oriMaskMode_ k) = DEFAULT_MASK \/ u32 (oriMaskMode_ k) = RIGHT_DOWN_CAUSAL \/ u32 (oriMaskMode_ k) = BAND) ->
  let '(pre, next, att) := mask_window k in
  (mask_mode k = DEFAULT_MASK /\ att = 0) \/ (mask_mode k = RIGHT_DOWN_CAUSAL /\ att = 1 /\ pre = INT64_MAX) \/
  (mask_mode k = BAND /\ att = 1 /\ pre = 127 /\ next = 0).
Proof.
  intros Hw Hm. unfold mask_window. rewrite mask_mode_u32, Hw.
  destruct Hm as [->|[->| ->]]; [left|right; left|right; right]; done.
Qed.

Lemma ParamsInit_valid k : ParamsCheck k = true -> isCFA k = false -> isSCFA k = false -> 0 < queryHeadNum_ k < 2 ^ 31 ->
  exists k', ParamsInit k = Ok k' /\ sas_valid k' /\ same_inputs k k' /\ batchSize_ k' = GetQueryBatchSize k.
Proof.
  intros Hc HC HS Hq. unfold ParamsCheck in Hc. apply andb_prop in Hc as [Hc Hf]. do 2 apply andb_prop in Hc as [Hc _].
  apply CheckSingleParam_inv in Hc as (_ & _ & _ & Hkv & Hw & Hm & Hl). pose proof (mask_window_valid k Hw Hm) as Hmask. unfold ParamsInit.
  destruct (mask_window k) as [[pre next] att] eqn:Hmw. cbv zeta. simpl. rewrite Hkv, c_quot_pass, Z.quot_1_r, bind_Ok by lia.
  eexists. split; [done|]. unwrap64.
  assert ((layoutQuery_ k =? "BSND")%string || (layoutQuery_ k =? "BSH")%string || (layoutQuery_ k =? "TND")%string = true) as Hlay
    by (destruct Hl as [-> | ->]; done).
  pose proof (CheckFeature_inv k Hf) as Hfeat. rewrite Hlay.
  destruct (hasCmpKv_ k) eqn:Hcmp; [destruct (Hfeat eq_refl) as [Hratio Htop]; destruct (0 <? cmpTopK_ k) eqn:Ht; bool_prop|];
    (match goal with |- context [ProcessSocVersion ?k0] => unfold ProcessSocVersion; destruct (String.index _ _ _) end);
    (split; [constructor; simpl; unfold mask_mode; simpl; try done; try lia; try (by left); try (by right); rewrite ?Hcmp, ?HC, ?HS; try done|by split]).
  all: intros _; split_and!; try done; try lia; (rewrite (proj2 (Z.ltb_lt 0 (cmpTopK_ k))) by lia) || (rewrite (proj2 (Z.ltb_ge 0 (cmpTopK_ k))) by lia); try done; congruence.
Qed.

(** The range of an optional attribute. *)
Lemma GetAttrValueOpt_u32 ctx name d : 0 <= d < 2 ^ 32 -> 0 <= GetAttrValueOpt ctx name u32 d < 2 ^ 32.
Proof.
  intros Hd. unfold GetAttrValueOpt. destruct (GetAttr ctx name) as [a|]; [|done].
  pose proof (Z.mod_pos_bound (GetInt a) (2 ^ 32)). unfold u32. lia.
Qed.

Lemma ParamsInit_heads k k' : ParamsInit k = Ok k' -> queryHeadNum_ k' = queryHeadNum_ k.
Proof.
  unfold ParamsInit. destruct (mask_window k) as [[pre next] att]. cbv zeta. intros (q & _ & H)%outcome_bind_ok. simpl in H.
  injection H as <-. by destruct (hasCmpKv_ k); [destruct (0 <? cmpTopK_ k)|]; destruct (ProcessSocVersion _).
Qed.

(** The kernel [Prepare] returns. *)
Lemma Prepare_valid ctx k : Prepare ctx = Ok (Some k) -> 0 < queryHeadNum_ k ->
  sas_valid k /\ supportFd k = false /\ 1 <= aicCoreNum_ k < 2 ^ 32 /\ 1 <= aivCoreNum_ k < 2 ^ 32 /\ metadata_present k = true.
Proof.
  unfold Prepare. destruct (GetAttrValue ctx "num_heads_q" i32 0) as [ok1 nq] eqn:Hq.
  destruct (GetAttrValue ctx "num_heads_kv" i32 0) as [ok2 nkv]. destruct (GetAttrValue ctx "head_dim" i32 0) as [ok3 hd].
  destruct (ok1 && ok2 && ok3); [|done]. cbn [negb]. cbv zeta. set (k0 := read_params ctx nq nkv hd).
  destruct (ParamsCheck k0) eqn:Hc; [|done]. intros (k1 & Hk & [= ->])%outcome_bind_ok Hpos.
  assert (queryHeadNum_ k0 = nq) as Hnq by done. rewrite (ParamsInit_heads k0 k Hk), Hnq in Hpos.
  assert (nq < 2 ^ 31).
  { unfold GetAttrValue in Hq. destruct (GetAttr ctx "num_heads_q") as [a|]; injection Hq as _ <-; [|lia].
    pose proof (i32_range (GetInt a)) as Hr. unfold fits_i32 in Hr. lia. }
  destruct (ParamsInit_valid k0 Hc eq_refl eq_refl ltac:(lia)) as (k' & Hk' & Hv & (A1 & A2 & A3 & A4 & _) & _).
  rewrite Hk in Hk'. injection Hk' as <-. split; [done|]. split; [by rewrite A4|].
  unfold ParamsCheck in Hc. do 3 apply andb_prop in Hc as [Hc _]. apply CheckSingleParam_inv in Hc as (Hmeta & Haic & Haiv & _).
  rewrite A1, A2. unfold metadata_present. rewrite A3.
  pose proof (GetAttrValueOpt_u32 ctx "aic_core_num" 24 ltac:(lia)). pose proof (GetAttrValueOpt_u32 ctx "aiv_core_num" 48 ltac:(lia)).
  assert (aicCoreNum_ k0 = GetAttrValueOpt ctx "aic_core_num" u32 24) as Ha by done.
  assert (aivCoreNum_ k0 = GetAttrValueOpt ctx "aiv_core_num" u32 48) as Hb by done. rewrite Ha in *. rewrite Hb in *.
  split; [lia|]. split; [lia|done].
Qed.
