(* ===== verification/SasMetaClaims.v ===== *)
(** What [SparseAttnSharedkvMetadata] promises the attention kernel: the plan of
    [BalanceSchedule], the cost model behind it, and the metadata of a whole
    call of [Compute]. *)

From S2P Require Import Prelude AscendC TilingContext Aicpu SasMeta SasMetaCost SasMetaAssign SasMetaOut SasSpec SasPlanLemmas SasCostLemmas SasBatchLemmas SasPlan SasPrepare.

(** ** A call *)

(** What [Prepare] leaves unchecked and the scheduler relies on, for a kernel with the
    member values [k] and sequences of lengths [s1] and [s2]: at least one query
    head, a length for every sequence (and lengths whose products fit 32 bits),
    a batch size and a total cost of the integers the code uses, at most 36
    cube and 72 vector cores (the tables of the metadata have no more entries), and
    an output buffer with room for both tables. *)
Record sas_limits (k : SasKernel) (s1 s2 : Z -> Z) (words : list Z) : Prop := {
  sc_heads : 0 < queryHeadNum_ k;
  sc_lens : seq_lens k s1 s2;
  sc_batch : 0 <= batchSize_ k < 2 ^ 31;
  sc_total : sas_total k s1 s2 < 2 ^ 62;
  sc_aic : aicCoreNum_ k <= AIC_CORE_NUM;
  sc_aiv : aivCoreNum_ k <= AIV_CORE_NUM;
  sc_words : tensor_data (metaData_ k) = Some words;
  sc_room : meta_room words }.

(** A call that passes the checks of [Prepare] with the member values [k], and that
    is within the limits that [Prepare] does not check. *)
Record sas_call (ctx : CpuKernelContext) (k : SasKernel) (s1 s2 : Z -> Z) (words : list Z) : Prop := {
  sc_prepare : Prepare ctx = Ok (Some k);
  sc_limits : sas_limits k s1 s2 words }.

Lemma sas_call_ready ctx k s1 s2 words : sas_call ctx k s1 s2 words -> sas_ready k s1 s2.
Proof.
  intros [Hp [Hh Hl Hb Ht _ _ _ _]]. destruct (Prepare_valid ctx k Hp Hh) as (V & Hfd & Hc & _). by constructor.
Qed.

(** The share of core [i], as the attention kernel reads it. *)
Definition word_start (buf : list Z) (i : Z) : pos := (fa_word buf i FA_BN2_START_INDEX, fa_word buf i FA_M_START_INDEX).
Definition word_end (buf : list Z) (i : Z) : pos := (fa_word buf i FA_BN2_END_INDEX, fa_word buf i FA_M_END_INDEX).
Definition word_share (buf : list Z) (i : Z) (p : pos) : Prop :=
  fa_word buf i FA_CORE_ENABLE_INDEX = 1 /\ pos_le (word_start buf i) p /\ pos_lt p (word_end buf i).

(** An entry says what the plan says. *)
Lemma fa_entry_share r buf i p : fa_entry r buf i -> word_share buf i p <-> i < sr_usedCoreNum r /\ in_share r i p.
Proof.
  unfold fa_entry, word_share, in_share, word_start, word_end. destruct (i <? sr_usedCoreNum r) eqn:E; bool_prop.
  - intros (-> & -> & _ & -> & _). naive_solver lia.
  - intros ->. naive_solver lia.
Qed.

(** The numbers of a plan fit in the words of the table. *)
Lemma is_plan_words k s1 s2 r : sas_ready k s1 s2 -> is_plan (batchSize_ k) (sas_rows k s1) (aicCoreNum_ k) r ->
  Z.of_nat (length (sr_bN2End r)) = aicCoreNum_ k -> Z.of_nat (length (sr_gS1End r)) = aicCoreNum_ k ->
  Z.of_nat (length (sr_s2End r)) = aicCoreNum_ k -> no_reduction (new_SplitResult (aicCoreNum_ k) (aivCoreNum_ k)) r ->
  plan_words (aicCoreNum_ k) r.
Proof.
  intros R (Hu & _ & Hcuts) L1 L2 L3 (Hw & _). destruct R as [V SL HB _ _ _]. split_and!; try done; [lia|].
  intros i Hi. destruct (Hcuts i Hi) as (Hok & _ & ->). destruct (core_end r i) as [b row]. unfold pos_ok in Hok. simpl in *.
  destruct Hok as [[Hb Hr]|[-> ->]]; [|lia].
  pose proof (row_count_bounds k V (s1 b) (sl_s1_range k s1 s2 SL b Hb) (sl_fit k s1 s2 SL b Hb)). unfold sas_rows in Hr. lia.
Qed.

(** A whole call: the metadata describe the plan of [BalanceSchedule]. *)
Lemma Compute_plan ctx k s1 s2 words fuel typeCost : sas_call ctx k s1 s2 words -> enough_fuel k s1 fuel ->
  exists r buf, Compute' fuel typeCost ctx = Ok (KERNEL_STATUS_OK, Some buf) /\
    is_plan (batchSize_ k) (sas_rows k s1) (aicCoreNum_ k) r /\ only_words 0 864 words buf /\
    (forall i, 0 <= i < aicCoreNum_ k -> fa_entry r buf i) /\
    (forall i, 0 <= i < aivCoreNum_ k -> fd_word buf i FD_CORE_ENABLE_INDEX = 0).
Proof.
  intros Call F. pose proof (sas_call_ready _ _ _ _ _ Call) as R. destruct Call as [Hp [Hh _ _ _ Haic Haiv Hw Hroom]].
  pose proof (BalanceSchedule_spec k s1 s2 fuel R F typeCost) as HB. unfold Compute'. rewrite Hp, bind_Ok.
  unfold wp in HB. destruct (BalanceSchedule _ _ _ _) as [[r tc]|]; [|done]. rewrite bind_Ok, Hw.
  destruct HB as (Hno & L1 & L2 & L3 & Hplan & _). pose proof (is_plan_words k s1 s2 r R Hplan L1 L2 L3 Hno) as Hwords.
  destruct (Prepare_valid ctx k Hp Hh) as (_ & _ & Hc & Hv & _). unfold AIC_CORE_NUM, AIV_CORE_NUM in *.
  assert (fd_fdUsedVecNum (sr_fdRes r) = 0) as Hfd by (destruct Hno as (_ & _ & ->); done).
  pose proof (GenMetaData_spec k r words Hwords Hfd ltac:(lia) ltac:(lia) Hroom) as HG. unfold wp in HG. unfold deref. rewrite bind_Ok.
  destruct (GenMetaData k r words) as [[u buf]|]; [|done]. rewrite bind_Ok. exists r, buf. split; [done|]. split; [done|]. exact HG.
Qed.

(** ** A concrete call *)

(** Three sequences with 4, 0 and 5 queries over 600, 7 and 3000 keys, on three
    cores. *)
Definition ctx3 : CpuKernelContext := sample_ctx 3 [0; 4; 4; 9] [600; 7; 3000].
Definition kernel3 : SasKernel := match Prepare ctx3 with Ok (Some k) => k | _ => new_SasKernel end.
Definition queries3 (b : Z) : Z := vat [4; 0; 5] b.
Definition keys3 (b : Z) : Z := vat [600; 7; 3000] b.

Lemma lens3 : seq_lens kernel3 queries3 keys3.
Proof.
  assert (batchSize_ kernel3 = 3) as Hn by (vm_compute; reflexivity).
  constructor; rewrite Hn; intros b Hb; assert (b = 0 \/ b = 1 \/ b = 2) as [-> | [-> | ->]] by lia; vm_compute; first [reflexivity | (split; [discriminate|reflexivity])].
Qed.

Lemma call3 : sas_call ctx3 kernel3 queries3 keys3 (replicate 1024 0).
Proof.
  split; [vm_compute; reflexivity|].
  constructor; first [exact lens3 | vm_compute; first [reflexivity | discriminate | (split; [discriminate|reflexivity])]].
Qed.

Lemma fuel3 : enough_fuel kernel3 queries3 100.
Proof.
  split; [vm_compute; reflexivity|]. assert (batchSize_ kernel3 = 3) as -> by (vm_compute; reflexivity).
  intros b Hb. assert (b = 0 \/ b = 1 \/ b = 2) as [-> | [-> | ->]] by lia; vm_compute; reflexivity.
Qed.

(** ** The metadata *)

(** C14. A call of [SparseAttnSharedkvMetadata] that passes the checks of [Prepare]
    and is within the limits that [Prepare] does not check ([sas_limits]: at least
    one query head, a length for every sequence, at most 36 cube and 72 vector
    cores, room for the tables, ...) ends with status OK for every initial content
    of the cost table.  In the metadata it writes, read back with the index function
    of the attention kernel, every row of every batch lies in the share of exactly
    one enabled core; no vector core has a reduction task; and no word outside the
    two tables changes.  Calls that pass the checks and are outside the limits can
    fault: see [no_query_heads], [short_seqused_kv] and [too_many_cores]. *)
Theorem sas_metadata_covers_rows ctx k s1 s2 words fuel typeCost :
  Prepare ctx = Ok (Some k) -> sas_limits k s1 s2 words -> enough_fuel k s1 fuel ->
  exists buf, Compute' fuel typeCost ctx = Ok (KERNEL_STATUS_OK, Some buf) /\
    (forall b row, 0 <= b < batchSize_ k -> 0 <= row < sas_rows k s1 b ->
       exists i, (0 <= i < aicCoreNum_ k /\ word_share buf i (b, row)) /\
         forall j, 0 <= j < aicCoreNum_ k -> word_share buf j (b, row) -> j = i) /\
    (forall i, 0 <= i < aivCoreNum_ k -> fd_word buf i FD_CORE_ENABLE_INDEX = 0) /\
    only_words 0 864 words buf.
Proof.
  intros Hp Hl F. destruct (Compute_plan _ _ _ _ _ fuel typeCost (Build_sas_call _ _ _ _ _ Hp Hl) F) as (r & buf & HC & Hplan & Ho & Hfa & Hfd).
  exists buf. split; [done|]. split; [|done]. intros b row Hb Hrow.
  destruct (plan_covers_row _ _ _ r b row Hplan Hb ltac:(lia)) as (i & (Hi & Hin) & Huniq). destruct Hplan as (Hu & _).
  exists i. split.
  - split; [lia|]. apply (fa_entry_share r); [apply Hfa; lia|]. split; [lia|done].
  - intros j Hj Hs. apply (fa_entry_share r) in Hs; [|apply Hfa; lia]. apply Huniq; [lia|]. by destruct Hs.
Qed.

Lemma sas_metadata_covers_rows_witness : exists buf, Compute' 100 (fun _ _ => 0) ctx3 = Ok (KERNEL_STATUS_OK, Some buf) /\
  exists i, 0 <= i < 3 /\ word_share buf i (2, 3).
Proof.
  destruct (sas_metadata_covers_rows ctx3 kernel3 queries3 keys3 (replicate 1024 0) 100 (fun _ _ => 0)
    (sc_prepare _ _ _ _ _ call3) (sc_limits _ _ _ _ _ call3) fuel3) as (buf & HC & Hrows & _).
  exists buf. split; [exact HC|].
  assert (batchSize_ kernel3 = 3) as Hn by (vm_compute; reflexivity). assert (sas_rows kernel3 queries3 2 = 5) as Hr by (vm_compute; reflexivity).
  assert (aicCoreNum_ kernel3 = 3) as Hc by (vm_compute; reflexivity).
  destruct (Hrows 2 3) as (i & (Hi & Hs) & _); [lia|lia|]. exists i. split; [lia|exact Hs].
Defined.

(** ** The plan *)

(** C27. When some sequence has queries and keys, [BalanceSchedule] ends with a plan
    that is balanced: every used core gets a non-empty stretch of rows with work
    in it, of a cost of at most its limit (the even share of the work that is
    left, or the costliest row) plus half of the costliest row, and every core
    but the last one used gets more than its limit minus the costliest row. *)
Theorem sas_plan_balanced k s1 s2 fuel typeCost : sas_ready k s1 s2 -> enough_fuel k s1 fuel -> has_work k s1 s2 ->
  exists r typeCost' m,
    BalanceSchedule fuel k (new_SplitResult (aicCoreNum_ k) (aivCoreNum_ k)) typeCost = Ok (r, typeCost') /\
    max_row k s1 s2 (fun _ _ => True) m /\
    plan_ok (batchSize_ k) (sas_rows k s1) (sas_cost k s1 s2) (aicCoreNum_ k) m r.
Proof.
  intros R F W. pose proof (BalanceSchedule_spec k s1 s2 fuel R F typeCost) as HB. unfold wp in HB.
  destruct (BalanceSchedule _ _ _ _) as [[r tc]|]; [|done]. destruct HB as (_ & _ & _ & _ & _ & HW).
  destruct (HW W) as (m & Hm & Hp). by exists r, tc, m.
Qed.

Lemma work3 : has_work kernel3 queries3 keys3.
Proof. exists 0. split; [|reflexivity]. assert (batchSize_ kernel3 = 3) as -> by (vm_compute; reflexivity). lia. Qed.

Lemma sas_plan_balanced_witness : exists r typeCost' m,
  BalanceSchedule 100 kernel3 (new_SplitResult (aicCoreNum_ kernel3) (aivCoreNum_ kernel3)) (fun _ _ => 0) = Ok (r, typeCost') /\
  max_row kernel3 queries3 keys3 (fun _ _ => True) m /\
  plan_ok (batchSize_ kernel3) (sas_rows kernel3 queries3) (sas_cost kernel3 queries3 keys3) (aicCoreNum_ kernel3) m r.
Proof. exact (sas_plan_balanced kernel3 queries3 keys3 100 (fun _ _ => 0) (sas_call_ready _ _ _ _ _ call3) fuel3 work3). Defined.

(** ** The cost model *)

(** C25. The cost of a row that [CalcS1GCache] derives from four costs per part (whole
    and tail rows by whole and tail columns) is the sum over its blocks, first
    of the window of key tokens, then of the compressed tokens, of the cost of
    each block; the block count it derives is the number of those blocks. *)
Theorem sas_row_cost_is_block_sum k b s1 s2 sc r cache typeCost : sas_valid k ->
  0 <= s1 < 2 ^ 31 -> 0 <= s2 < 2 ^ 31 -> s1 * groupSize_ k + mBaseSize_ k < 2 ^ 32 ->
  vget (si_s1GBaseNum (splitInfo sc)) b = Ok (row_count k s1) ->
  vget (si_s1GTailSize (splitInfo sc)) b = Ok (s1 * groupSize_ k mod mBaseSize_ k) -> 0 <= r < row_count k s1 ->
  exists cache' typeCost', CalcS1GCache k r sc (bcache k b s1 s2) cache typeCost = Ok (cache', typeCost') /\
    let base := s2BaseSize_ k in let m := row_height k s1 r in
    let blocks len := zsum (fun j => block_cost m (Z.min base (len - j * base))) 0 (ceil_div len base) in
    sg_s1GCost cache' = blocks (win_len k s1 s2 r) + blocks (cmp_len k s1 s2 r) /\
    sg_s1GBlock cache' = ceil_div (win_len k s1 s2 r) base + ceil_div (cmp_len k s1 s2 r) base.
Proof.
  intros V H1 H2 Hf Hn Ht Hr. pose proof (CalcS1GCache_spec k V b s1 s2 H1 H2 Hf _ Hn Ht sc r cache typeCost eq_refl Hr) as HW.
  unfold wp in HW. destruct (CalcS1GCache _ _ _ _ _ _) as [[c t]|]; [|done]. destruct HW as (_ & Hc & _ & Hb).
  exists c, t. split; [done|]. cbv zeta. by rewrite Hc, Hb.
Qed.

Definition split3 : SplitContext := { new_SplitContext 3 with splitInfo := { new_SplitInfo 3 with
  si_s1GBaseNum := [4; 0; 5]; si_s1GTailSize := [0; 0; 0] } }.

Lemma sas_row_cost_is_block_sum_witness : exists cache' typeCost',
  CalcS1GCache kernel3 3 split3 (bcache kernel3 2 5 3000) new_S1GCache (fun _ _ => 0) = Ok (cache', typeCost') /\
  sg_s1GCost cache' = 212 /\ sg_s1GBlock cache' = 3.
Proof.
  assert (0 < queryHeadNum_ kernel3) as Hh by (vm_compute; reflexivity).
  destruct (sas_row_cost_is_block_sum kernel3 2 5 3000 split3 3 new_S1GCache (fun _ _ => 0)
    (proj1 (Prepare_valid ctx3 kernel3 (sc_prepare _ _ _ _ _ call3) Hh))) as (c & t & H & Hc & Hb);
    try (vm_compute; first [reflexivity | (split; [discriminate|reflexivity])]).
  exists c, t. split; [exact H|]. rewrite Hc, Hb. split; vm_compute; reflexivity.
Defined.

(** ** Unchecked inputs *)

(** [CheckConsistency] accepts fewer key lengths than sequences, and the key
    length of the missing sequence is read past the end. *)
Example short_seqused_kv : Compute' 100 (fun _ _ => 0) (sample_ctx 3 [0; 4; 4; 9] [600; 7]) = Err VectorIndex.
Proof. vm_compute. reflexivity. Qed.

(** Unless the keys have the layout BSND, nothing checks the number of query heads,
    which then divides the number of row blocks. *)
Example no_query_heads : Compute' 100 (fun _ _ => 0) {| Input := Input ctx3; Output := Output ctx3;
  GetAttr := fun name => if (name =? "num_heads_q")%string then attr_int 0 else GetAttr ctx3 name |} = Err DivideByZero.
Proof. vm_compute. reflexivity. Qed.

(** More cores than the table of the metadata has entries: the entry of core 36
    is outside of [faMetadata]. *)
Example too_many_cores : Compute' 100 (fun _ _ => 0) (sample_ctx 37 [0; 4; 4; 9] [600; 7; 3000]) = Err VectorIndex.
Proof. vm_compute. reflexivity. Qed.
