(* ===== verification/SasSwa.v ===== *)
(** The sliding-window kernel of [sparse_attn_sharedkv] (with and without
    compressed tokens), the consumer of the metadata: its control flow, from the
    words of the metadata to the calls of the cube and vector stages.

    A cube core and its two vector cores run the same loops; each issues the
    stage calls of its side.  [Process] is modelled as code that issues a list
    of [op]s; the arithmetic inside the stages is not part of this file. *)

From S2P Require Import Prelude AscendC TilingContext Aicpu SasMetaOut.

(** ** Data *)

Inductive SAS_LAYOUT : Type := BSND | TND | PA_ND.
#[global] Instance SAS_LAYOUT_eq_dec : EqDecision SAS_LAYOUT.
Proof. solve_decision. Defined.

Definition SWA_TEMPLATE : Z := 0.
Definition CFA_TEMPLATE : Z := 1.

Definition PRELOAD_NUM : Z := 2.
Definition N_BUFFER_M_BASIC_SIZE : Z := 256.
Definition SAS_PRELOAD_TASK_CACHE_SIZE : Z := 3.
Definition swa_kvHeadNum : Z := 1.
Definition swa_headDim : Z := 512.

(** [SASAlign], [CeilDiv] at the widths they are used with. *)
Definition SASAlign (num rnd : Z) : Z := if rnd =? 0 then 0 else u32 (u64 (u64 (u64 (num + rnd) - 1) /c rnd * rnd)).
Definition SasCeilDiv (wrap : Z -> Z) (num rnd : Z) : Z := if rnd =? 0 then 0 else wrap (wrap (num + rnd) - 1) /c rnd.

(** The tiling data the kernel reads. *)
Record SwaTiling : Type := {
  td_nNumOfQInOneGroup : Z;
  td_kvSeqSize : Z;
  td_qSeqSize : Z;
  td_outputLayout : SAS_LAYOUT;
  td_oriWinLeft : Z;
  td_oriWinRight : Z;
  td_returnSoftmaxLse : bool;
  td_actualLenDimsQ : Z;
  td_actualLenDimsKV : Z;
  td_s2BaseSize : Z;
  td_cmpRatio : Z }.

(** The members of [ConstInfo] that the loops use. *)
Record SwaConst : Type := {
  c_gSize : Z;
  c_qHeadNum : Z;
  c_kvSeqSize : Z;
  c_qSeqSize : Z;
  c_outputLayout : SAS_LAYOUT;
  c_kvHeadNum : Z;
  c_headDim : Z;
  c_oriWinLeft : Z;
  c_oriWinRight : Z;
  c_returnSoftmaxLse : bool;
  c_actualLenDimsQ : Z;
  c_actualLenDimsKV : Z;
  c_mBaseSize : Z;
  c_s2BaseSize : Z;
  c_nBufferMBaseSize : Z;
  c_templateMode : Z;
  c_cmpRatio : Z;
  c_s2Start : Z;
  c_s2End : Z;
  c_bN2Start : Z;
  c_bN2End : Z;
  c_gS1Start : Z;
  c_gS1End : Z;
  c_coreStartKVSplitPos : Z }.

Definition new_SwaConst : SwaConst := {|
  c_gSize := 0; c_qHeadNum := 0; c_kvSeqSize := 0; c_qSeqSize := 1; c_outputLayout := BSND; c_kvHeadNum := 0; c_headDim := 0;
  c_oriWinLeft := 128; c_oriWinRight := 0; c_returnSoftmaxLse := false; c_actualLenDimsQ := 0; c_actualLenDimsKV := 0;
  c_mBaseSize := 1; c_s2BaseSize := 1; c_nBufferMBaseSize := 0; c_templateMode := 0; c_cmpRatio := 0;
  c_s2Start := 0; c_s2End := 0; c_bN2Start := 0; c_bN2End := 0; c_gS1Start := 0; c_gS1End := 0; c_coreStartKVSplitPos := 0 |}.

(** [InitTilingData]. *)
Definition InitTilingData (templateMode : Z) (td : SwaTiling) (c : SwaConst) : SwaConst :=
  let c := { c with
    c_qHeadNum := td_nNumOfQInOneGroup td; c_gSize := td_nNumOfQInOneGroup td;
    c_kvSeqSize := td_kvSeqSize td; c_qSeqSize := td_qSeqSize td; c_outputLayout := td_outputLayout td;
    c_kvHeadNum := swa_kvHeadNum; c_headDim := swa_headDim;
    c_oriWinLeft := i32 (td_oriWinLeft td); c_oriWinRight := i32 (td_oriWinRight td);
    c_returnSoftmaxLse := td_returnSoftmaxLse td;
    c_actualLenDimsQ := td_actualLenDimsQ td; c_actualLenDimsKV := td_actualLenDimsKV td;
    c_mBaseSize := u32 (td_nNumOfQInOneGroup td); c_s2BaseSize := td_s2BaseSize td;
    c_nBufferMBaseSize := N_BUFFER_M_BASIC_SIZE; c_templateMode := templateMode } in
  if c_templateMode c =? CFA_TEMPLATE then { c with c_cmpRatio := td_cmpRatio td } else c.

Record SwaTempLoopInfo : Type := {
  t_bn2IdxInCurCore : Z;
  t_bIdx : Z;
  t_n2Idx : Z;
  t_s2LoopTimes : Z;
  t_actS1Size : Z;
  t_actOriS2Size : Z;
  t_actCmpS2Size : Z;
  t_curActSeqLenIsZero : bool;
  t_tndCoreStartKVSplitPos : Z;
  t_tndIsS2SplitCore : bool;
  t_gS1Idx : Z;
  t_s1StartIdx : Z;
  t_s1EndIdx : Z;
  t_mBasicSizeTail : Z;
  t_cmpLoopTimes : Z;
  t_oriLoopTimes : Z;
  t_oriMaskRight : Z;
  t_oriMaskLeft : Z;
  t_cmpMaskRight : Z;
  t_actualSeqQPrefixSum : Z;
  t_actualSeqKVPrefixSum : Z;
  t_actualSeqCmpKVPrefixSum : Z }.

Definition new_SwaTempLoopInfo : SwaTempLoopInfo := {|
  t_bn2IdxInCurCore := 0; t_bIdx := 0; t_n2Idx := 0; t_s2LoopTimes := 0; t_actS1Size := 0; t_actOriS2Size := 0; t_actCmpS2Size := 0;
  t_curActSeqLenIsZero := false; t_tndCoreStartKVSplitPos := 0; t_tndIsS2SplitCore := false; t_gS1Idx := 0; t_s1StartIdx := 0;
  t_s1EndIdx := 0; t_mBasicSizeTail := 0; t_cmpLoopTimes := 0; t_oriLoopTimes := 0; t_oriMaskRight := 0; t_oriMaskLeft := 0;
  t_cmpMaskRight := 0; t_actualSeqQPrefixSum := 0; t_actualSeqKVPrefixSum := 0; t_actualSeqCmpKVPrefixSum := 0 |}.

(** The members of [RunInfo] that [CalcParams] sets. *)
Record RunInfo : Type := {
  ri_loop : Z;
  ri_cmpLoop : Z;
  ri_bIdx : Z;
  ri_s1Idx : Z;
  ri_s2Idx : Z;
  ri_n2IdxReal : Z;
  ri_relativeS2Idx : Z;
  ri_bn2IdxInCurCore : Z;
  ri_curSInnerLoopTimes : Z;
  ri_tensorCmpBOffset : Z;
  ri_tensorAOffset : Z;
  ri_tensorBOffset : Z;
  ri_attenOutOffset : Z;
  ri_actualSingleProcessSInnerSize : Z;
  ri_actualSingleProcessSInnerSizeAlign : Z;
  ri_isFirstSInnerLoop : bool;
  ri_mSize : Z;
  ri_mSizeV : Z;
  ri_mSizeVStart : Z;
  ri_tndIsS2SplitCore : Z;
  ri_tndCoreStartKVSplitPos : Z;
  ri_isBmm2Output : bool;
  ri_isValid : bool;
  ri_actS1Size : Z;
  ri_gS1Idx : Z;
  ri_actMBaseSize : Z;
  ri_isLastS2Loop : bool;
  ri_isOri : bool;
  ri_s2StartPoint : Z;
  ri_cmpS2IdLimit : Z }.

Definition new_RunInfo : RunInfo := {|
  ri_loop := 0; ri_cmpLoop := 0; ri_bIdx := 0; ri_s1Idx := 0; ri_s2Idx := 0; ri_n2IdxReal := 0; ri_relativeS2Idx := 0; ri_bn2IdxInCurCore := 0;
  ri_curSInnerLoopTimes := 0; ri_tensorCmpBOffset := 0; ri_tensorAOffset := 0; ri_tensorBOffset := 0; ri_attenOutOffset := 0;
  ri_actualSingleProcessSInnerSize := 0; ri_actualSingleProcessSInnerSizeAlign := 0; ri_isFirstSInnerLoop := false; ri_mSize := 0;
  ri_mSizeV := 0; ri_mSizeVStart := 0; ri_tndIsS2SplitCore := 0; ri_tndCoreStartKVSplitPos := 0; ri_isBmm2Output := false;
  ri_isValid := false; ri_actS1Size := 1; ri_gS1Idx := 0; ri_actMBaseSize := 0; ri_isLastS2Loop := false; ri_isOri := true;
  ri_s2StartPoint := 0; ri_cmpS2IdLimit := 0 |}.

(** [RunInfo::n2Idx], a constant. *)
Definition RunInfo_n2Idx : Z := 0.

Record MSplitInfo : Type := {
  ms_nBufferIdx : Z;
  ms_nBufferStartM : Z;
  ms_nBufferDealM : Z;
  ms_vecStartM : Z;
  ms_vecDealM : Z }.

(** The flags between a cube core and its vector cores. *)
Inductive sync_flag : Type := syncC1V1 | syncV1C2 | syncC2V2.
#[global] Instance sync_flag_eq_dec : EqDecision sync_flag.
Proof. solve_decision. Defined.

(** What a core issues. *)
Inductive op : Type :=
  | OpMm1 (info : RunInfo) (m : MSplitInfo)
  | OpMm2 (info : RunInfo) (m : MSplitInfo)
  | OpVec1 (info : RunInfo) (m : MSplitInfo)
  | OpLse (info : RunInfo) (m : MSplitInfo)
  | OpVec2 (info : RunInfo) (m : MSplitInfo)
  | OpSetFlag (f : sync_flag)
  | OpWaitFlag (f : sync_flag)
  | OpInitOutput (offset n : Z)
  | OpInitLse (offset n : Z).

(** What is fixed for a core: its side and number, the instance of the kernel,
    and its global tensors. *)
Record SwaEnv : Type := {
  e_isAIV : bool;
  e_tmpBlockIdx : Z;
  LAYOUT_T : SAS_LAYOUT;
  KV_LAYOUT_T : SAS_LAYOUT;
  TEMPLATE_MODE : Z;
  metadataGm : tensor Z;
  actualSeqLengthsQGm : tensor Z;
  actualSeqLengthsKVGm : tensor Z;
  actualSeqLengthsCmpKVGm : tensor Z }.

(** The members that change, the locals of [ProcessBalance], and the operations
    issued so far. *)
Record SwaState : Type := {
  constInfo : SwaConst;
  tempLoopInfo : SwaTempLoopInfo;
  tensorACoreOffset : Z;
  tensorBCoreOffset : Z;
  tensorCmpBCoreOffset : Z;
  extraInfo : list RunInfo;
  gloop : Z;
  globalLoopStart : bool;
  issued : list op }.

Definition new_SwaState (c : SwaConst) : SwaState := {|
  constInfo := c; tempLoopInfo := new_SwaTempLoopInfo; tensorACoreOffset := 0; tensorBCoreOffset := 0; tensorCmpBCoreOffset := 0;
  extraInfo := replicate 3 new_RunInfo; gloop := 0; globalLoopStart := true; issued := [] |}.

Abbreviation SwaM := (M SwaState fault_kind).

(** ** Sequence lengths *)

Section Kernel.
Variable e : SwaEnv.

(** [tensor.GetValue(i)] of one of the tensors. *)
Definition gm_get (t : tensor Z) (i : Z) : outcome fault_kind Z := if in_tensor t i 1 then Ok (t_at t i) else Err OutOfBounds.

Definition fetch {A} (m : outcome fault_kind A) : SwaM A := fun s => match m with Ok a => Ok (a, s) | Err f => Err f end.
Definition issue_op (o : op) : SwaM unit := modify (fun s => { s with issued := issued s ++ [o] }).
Definition set_temp (f : SwaTempLoopInfo -> SwaTempLoopInfo) : SwaM unit := modify (fun s => { s with tempLoopInfo := f (tempLoopInfo s) }).
Definition set_const (f : SwaConst -> SwaConst) : SwaM unit := modify (fun s => { s with constInfo := f (constInfo s) }).

(** [GetActualSeqLenQ]: the length, and the value it leaves in [actualSeqQPrefixSum]. *)
Definition GetActualSeqLenQ (c : SwaConst) (bIdx : Z) : outcome fault_kind (Z * Z) :=
  match LAYOUT_T e with
  | TND =>
      actualSeqQPrefixSum ← gm_get (actualSeqLengthsQGm e) bIdx;
      actualSeqQNextSum ← gm_get (actualSeqLengthsQGm e) (u32 (bIdx + 1));
      mret (i32 (actualSeqQNextSum - actualSeqQPrefixSum), u64 actualSeqQPrefixSum)
  | _ =>
      let prefixSum := u64 (bIdx * c_qSeqSize c) in
      if c_actualLenDimsQ c =? 0 then mret (i32 (c_qSeqSize c), prefixSum)
      else len ← gm_get (actualSeqLengthsQGm e) bIdx; mret (len, prefixSum)
  end.

(** [GetActualSeqLenKV]: the length, and the loop information with the prefix sums
    it sets. *)
Definition GetActualSeqLenKV (c : SwaConst) (bIdx : Z) (t : SwaTempLoopInfo) : outcome fault_kind (Z * SwaTempLoopInfo) :=
  match KV_LAYOUT_T e with
  | PA_ND =>
      let t := { t with t_actualSeqKVPrefixSum := u64 (bIdx * c_kvSeqSize c) } in
      if c_actualLenDimsKV c =? 0 then mret (i32 (c_kvSeqSize c), t)
      else len ← gm_get (actualSeqLengthsKVGm e) bIdx; mret (len, t)
  | BSND => mret (i32 (c_kvSeqSize c), t)
  | TND =>
      actualSeqKVPrefixSum ← gm_get (actualSeqLengthsKVGm e) bIdx;
      actualSeqKVNextSum ← gm_get (actualSeqLengthsKVGm e) (u32 (bIdx + 1));
      t ← (if c_templateMode c =? CFA_TEMPLATE
           then cmp ← gm_get (actualSeqLengthsCmpKVGm e) bIdx; mret { t with t_actualSeqCmpKVPrefixSum := u64 cmp } else mret t);
      mret (i32 (actualSeqKVNextSum - actualSeqKVPrefixSum), { t with t_actualSeqKVPrefixSum := u64 actualSeqKVPrefixSum })
  end.

(** [GetSparseActualSeqLen]. *)
Definition GetSparseActualSeqLen (c : SwaConst) (t : SwaTempLoopInfo) : SwaTempLoopInfo :=
  if i32 (t_s1EndIdx t) <? i32 (- i32 (t_actOriS2Size t - t_actS1Size t))
  then { t with t_actOriS2Size := 0; t_actCmpS2Size := 0 }
  else if c_templateMode c =? CFA_TEMPLATE
  then { t with t_actCmpS2Size := i32 (u32 (u32 (t_cmpMaskRight t + t_s1EndIdx t) + 1) /c c_cmpRatio c) }
  else t.

(** [UpdateInnerLoopCond]. *)
Definition UpdateInnerLoopCond (c : SwaConst) (t : SwaTempLoopInfo) : SwaTempLoopInfo :=
  if ((t_actCmpS2Size t =? 0) && (t_actOriS2Size t =? 0)) || (t_actS1Size t =? 0) then { t with t_curActSeqLenIsZero := true }
  else
    let tail := u64 (t_actS1Size t * c_gSize c) %c c_mBaseSize c in
    { t with t_curActSeqLenIsZero := false; t_mBasicSizeTail := if tail =? 0 then c_mBaseSize c else tail }.

(** ** Parameters of a block *)

(** The part of the rows of a block that a vector core takes. *)
Definition vec_split (c : SwaConst) (info : RunInfo) : RunInfo :=
  let mSize := ri_actMBaseSize info in
  let mSizeV := if mSize <=? 16 then mSize else u32 (u32 (u32 (SasCeilDiv u32 mSize 16 + 1) /c 2) * 16) in
  if e_tmpBlockIdx e %c 2 =? 1
  then { info with ri_mSize := mSize; ri_mSizeVStart := mSizeV; ri_mSizeV := u32 (mSize - mSizeV) }
  else { info with ri_mSize := mSize; ri_mSizeVStart := 0; ri_mSizeV := mSizeV }.

(** Where the keys of block [s2LoopIdx] are: in the window, or among the
    compressed tokens. *)
Definition block_tokens (c : SwaConst) (t : SwaTempLoopInfo) (s2LoopIdx : Z) (info : RunInfo) : RunInfo :=
  if s2LoopIdx <? t_oriLoopTimes t then
    let s2Offset := u32 (ri_s2Idx info * c_s2BaseSize c) in
    { info with ri_isOri := true; ri_relativeS2Idx := 0;
        ri_actualSingleProcessSInnerSize :=
          if u32 (s2LoopIdx + 1) =? t_oriLoopTimes t
          then u32 (u64 (i32 (i32 (t_oriMaskRight t - t_oriMaskLeft t) + 1) - s2Offset)) else c_s2BaseSize c;
        ri_s2StartPoint := u64 (t_oriMaskLeft t); ri_cmpS2IdLimit := 0 }
  else if c_templateMode c =? CFA_TEMPLATE then
    let relativeS2Idx := u32 (ri_s2Idx info - t_oriLoopTimes t) in
    let s2Offset := u32 (relativeS2Idx * c_s2BaseSize c) in
    { info with ri_isOri := false; ri_relativeS2Idx := relativeS2Idx;
        ri_actualSingleProcessSInnerSize :=
          if u32 (s2LoopIdx + 1) =? t_s2LoopTimes t then u32 (u64 (t_actCmpS2Size t - s2Offset)) else c_s2BaseSize c;
        ri_s2StartPoint := 0;
        ri_cmpS2IdLimit := u32 (u32 (t_cmpMaskRight t + t_s1EndIdx t) + 1) /c c_cmpRatio c }
  else info.

(** The parts of the parameters of a block: those taken from the loops, its place
    in its row, and the offsets of its tensors. *)
Definition block_info (c : SwaConst) (t : SwaTempLoopInfo) (loop cmpLoop s2LoopIdx : Z) (info : RunInfo) : RunInfo := { info with
  ri_isValid := s2LoopIdx <? t_s2LoopTimes t; ri_loop := loop; ri_cmpLoop := cmpLoop; ri_bIdx := t_bIdx t;
  ri_gS1Idx := t_gS1Idx t; ri_s1Idx := u32 (t_gS1Idx t /c c_gSize c); ri_s2Idx := s2LoopIdx; ri_n2IdxReal := t_n2Idx t;
  ri_curSInnerLoopTimes := t_s2LoopTimes t; ri_tndIsS2SplitCore := if t_tndIsS2SplitCore t then 1 else 0;
  ri_tndCoreStartKVSplitPos := t_tndCoreStartKVSplitPos t; ri_isBmm2Output := false; ri_actS1Size := u64 (t_actS1Size t);
  ri_actMBaseSize := u32 (t_mBasicSizeTail t) }.

Definition block_place (t : SwaTempLoopInfo) (first : bool) (s2LoopIdx : Z) (info : RunInfo) : RunInfo := { info with
  ri_isFirstSInnerLoop := first; ri_isLastS2Loop := s2LoopIdx =? u32 (t_s2LoopTimes t - 1);
  ri_bn2IdxInCurCore := u32 (t_bn2IdxInCurCore t - 1) }.

Definition block_offsets (a b cb : Z) (info : RunInfo) : RunInfo := { info with
  ri_tensorAOffset := a; ri_tensorBOffset := b; ri_tensorCmpBOffset := cb; ri_attenOutOffset := a }.

Definition block_align (info : RunInfo) : RunInfo := { info with
  ri_actualSingleProcessSInnerSizeAlign := SASAlign (ri_actualSingleProcessSInnerSize info) 32 }.

(** [CalcParams], on the slot [info]. *)
Definition CalcParams (loop cmpLoop s2Start s2LoopIdx : Z) (info : RunInfo) : SwaM RunInfo :=
  c ← gets constInfo;
  t ← gets tempLoopInfo;
  let info := block_info c t loop cmpLoop s2LoopIdx info in
  let info := if e_isAIV e then vec_split c info else info in
  let first := s2LoopIdx =? s2Start in
  let t := if first then { t with t_bn2IdxInCurCore := u32 (t_bn2IdxInCurCore t + 1) } else t in
  _ ← set_temp (fun _ => t);
  let info := block_place t first s2LoopIdx info in
  let tndBIdxOffsetForQ := u64 (u64 (t_actualSeqQPrefixSum t * c_qHeadNum c) * c_headDim c) in
  let tndBIdxOffsetForKV := u64 (u64 (t_actualSeqKVPrefixSum t * c_kvHeadNum c) * c_headDim c) in
  let tndBIdxOffsetForCmpKV := u64 (u64 (t_actualSeqCmpKVPrefixSum t * c_kvHeadNum c) * c_headDim c) in
  _ ← when first (modify (fun s => { s with
        tensorACoreOffset := u64 (tndBIdxOffsetForQ + u64 (ri_gS1Idx info * c_headDim c));
        tensorBCoreOffset := u64 (tndBIdxOffsetForKV + u64 (RunInfo_n2Idx * c_headDim c));
        tensorCmpBCoreOffset := u64 (tndBIdxOffsetForCmpKV + u64 (RunInfo_n2Idx * c_headDim c)) }));
  a ← gets tensorACoreOffset;
  b ← gets tensorBCoreOffset;
  cb ← gets tensorCmpBCoreOffset;
  mret (block_align (block_tokens c t s2LoopIdx (block_offsets a b cb info))).

(** ** The stages *)

Definition nBufferLoopTimes (c : SwaConst) (info : RunInfo) : Z := SasCeilDiv u32 (ri_actMBaseSize info) (c_nBufferMBaseSize c).

(** The rows of buffer [i]; a vector core takes a part of them. *)
Definition m_split (c : SwaConst) (info : RunInfo) (i : Z) : MSplitInfo :=
  let times := nBufferLoopTimes c info in
  let tail := u32 (ri_actMBaseSize info - u32 (u32 (times - 1) * c_nBufferMBaseSize c)) in
  {| ms_nBufferIdx := 0; ms_nBufferStartM := u32 (i * c_nBufferMBaseSize c);
     ms_nBufferDealM := if u32 (i + 1) =? times then tail else c_nBufferMBaseSize c; ms_vecStartM := 0; ms_vecDealM := 0 |}.

Definition m_split_vec (c : SwaConst) (info : RunInfo) (i : Z) : MSplitInfo :=
  let m := m_split c info i in
  let deal := ms_nBufferDealM m in
  let vecDealM := if deal <=? 16 then deal else u32 (u32 (u32 (deal + 15) /c 16 + 1) /c 2 * 16) in
  if e_tmpBlockIdx e %c 2 =? 1
  then { m with ms_nBufferIdx := i; ms_vecStartM := vecDealM; ms_vecDealM := u32 (deal - vecDealM) }
  else { m with ms_nBufferIdx := i; ms_vecStartM := 0; ms_vecDealM := vecDealM }.

Definition ComputeMm1 (info : RunInfo) : SwaM unit :=
  c ← gets constInfo;
  for_range 0 (nBufferLoopTimes c info) (fun i =>
    issue_op (OpMm1 info (m_split c info i)) ;;
    issue_op (OpSetFlag syncC1V1)).

Definition ComputeMm2 (info : RunInfo) : SwaM unit :=
  c ← gets constInfo;
  for_range 0 (nBufferLoopTimes c info) (fun i =>
    issue_op (OpWaitFlag syncV1C2) ;;
    issue_op (OpMm2 info (m_split c info i)) ;;
    issue_op (OpSetFlag syncC2V2)).

Definition ProcessVec1L (info : RunInfo) : SwaM unit :=
  c ← gets constInfo;
  for_range 0 (nBufferLoopTimes c info) (fun i =>
    issue_op (OpWaitFlag syncC1V1) ;;
    issue_op (OpVec1 info (m_split_vec c info i)) ;;
    issue_op (OpSetFlag syncV1C2) ;;
    when (c_returnSoftmaxLse c && (ri_s2Idx info =? u32 (ri_curSInnerLoopTimes info - 1)))
      (issue_op (OpLse info (m_split_vec c info i)))).

Definition ProcessVec2L (info : RunInfo) : SwaM unit :=
  c ← gets constInfo;
  for_range 0 (nBufferLoopTimes c info) (fun i =>
    issue_op (OpWaitFlag syncC2V2) ;;
    issue_op (OpVec2 info (m_split_vec c info i))).

(** Where row [s1Idx] of a batch is in the output and among the softmax sums, for
    the layouts TND (a batch starts at token [tBase]) and BSND. *)
Definition tnd_out (c : SwaConst) (tBase s1Idx n2Idx : Z) : Z :=
  u64 (u64 (u64 (u64 (u32 (tBase + s1Idx) * swa_kvHeadNum) * c_gSize c) * swa_headDim) + u64 (u64 (n2Idx * c_gSize c) * swa_headDim)).
Definition tnd_lse (c : SwaConst) (tBase s1Idx n2Idx : Z) : Z :=
  u64 (u64 (u32 (tBase + s1Idx) * c_gSize c) + u64 (u64 (n2Idx * c_qSeqSize c) * c_gSize c)).
Definition bsnd_out (c : SwaConst) (bIdx s1Idx n2Idx : Z) : Z :=
  u64 (u64 (u64 (u64 (u64 (u64 (bIdx * c_qSeqSize c) * swa_kvHeadNum) * c_gSize c) * swa_headDim) +
            u64 (u64 (u64 (s1Idx * swa_kvHeadNum) * c_gSize c) * swa_headDim)) + u64 (u64 (n2Idx * c_gSize c) * swa_headDim)).
Definition bsnd_lse (c : SwaConst) (bIdx s1Idx n2Idx : Z) : Z :=
  u64 (u64 (u64 (u64 (u64 (bIdx * c_qSeqSize c) * c_kvHeadNum c) * c_gSize c) + u64 (u64 (n2Idx * c_qSeqSize c) * c_gSize c)) +
       u64 (s1Idx * c_gSize c)).

(** [InitAllZeroOutput]. *)
Definition init_zero (c : SwaConst) (out lse : Z) : SwaM unit :=
  issue_op (OpInitOutput out (u64 (c_gSize c * swa_headDim))) ;;
  when (c_returnSoftmaxLse c) (issue_op (OpInitLse lse (c_gSize c))).

Definition InitAllZeroOutput (bIdx s1Idx n2Idx : Z) : SwaM unit :=
  c ← gets constInfo;
  t ← gets tempLoopInfo;
  match c_outputLayout c with
  | TND =>
      if t_actS1Size t =? 0 then mret tt
      else
        tBase ← fetch (gm_get (actualSeqLengthsQGm e) bIdx);
        init_zero c (tnd_out c (u32 tBase) s1Idx n2Idx) (tnd_lse c (u32 tBase) s1Idx n2Idx)
  | BSND => init_zero c (bsnd_out c bIdx s1Idx n2Idx) (bsnd_lse c bIdx s1Idx n2Idx)
  | PA_ND => mret tt
  end.

(** ** The pipeline *)

(** [extraInfo[i]]. *)
Definition info_slot (i : Z) : SwaM RunInfo :=
  l ← gets extraInfo;
  fetch (match l !! Z.to_nat i with Some x => Ok x | None => Err OutOfBounds end).
Definition set_slot (i : Z) (info : RunInfo) : SwaM unit := modify (fun s => { s with extraInfo := <[Z.to_nat i := info]> (extraInfo s) }).

Definition PreloadPipeline (loop cmpLoop s2Start s2LoopIdx : Z) : SwaM unit :=
  let i0 := loop %c SAS_PRELOAD_TASK_CACHE_SIZE in
  let i2 := u32 (loop + 2) %c SAS_PRELOAD_TASK_CACHE_SIZE in
  let i1 := u32 (loop + 1) %c SAS_PRELOAD_TASK_CACHE_SIZE in
  old ← info_slot i0;
  new ← CalcParams loop cmpLoop s2Start s2LoopIdx old;
  set_slot i0 new ;;
  extraInfo0 ← info_slot i0;
  when (ri_isValid extraInfo0 && negb (e_isAIV e)) (ComputeMm1 extraInfo0) ;;
  extraInfo2 ← info_slot i2;
  when (ri_isValid extraInfo2) (if e_isAIV e then ProcessVec1L extraInfo2 else ComputeMm2 extraInfo2) ;;
  extraInfo1 ← info_slot i1;
  when (ri_isValid extraInfo1)
    (when (e_isAIV e) (ProcessVec2L extraInfo1) ;;
     set_slot i1 { extraInfo1 with ri_isValid := false }).

(** ** The loops *)

(** The index of a row and the tokens it sees. *)
Definition row_position (c : SwaConst) (gS1LoopIdx : Z) (t : SwaTempLoopInfo) : SwaTempLoopInfo :=
  let gS1Idx := u32 (gS1LoopIdx * c_mBaseSize c) in
  let s1StartIdx := u32 (gS1Idx /c c_gSize c) in
  let last := u64 (u64 (s1StartIdx + c_mBaseSize c /c c_gSize c) - 1) in
  let s1EndIdx := u32 (if u64 (i32 (t_actS1Size t - 1)) <? last then u64 (i32 (t_actS1Size t - 1)) else last) in
  let shift := i32 (i32 (t_actOriS2Size t - t_actS1Size t) + i32 s1EndIdx) in
  let left := i32 (shift - c_oriWinLeft c) in
  let t := { t with t_gS1Idx := gS1Idx; t_s1StartIdx := s1StartIdx; t_s1EndIdx := s1EndIdx;
                    t_oriMaskRight := i32 (shift + c_oriWinRight c); t_oriMaskLeft := if left >? 0 then left else 0 } in
  if c_templateMode c =? CFA_TEMPLATE then { t with t_cmpMaskRight := i32 (t_actOriS2Size t - t_actS1Size t) } else t.

(** The numbers of blocks of the window and of all, and the loop information
    with the number of compressed blocks. *)
Definition split_nums (c : SwaConst) (t : SwaTempLoopInfo) : Z * Z * SwaTempLoopInfo :=
  if t_curActSeqLenIsZero t then (0, 0, t)
  else
    let oriSplitNum := u32 (i32 (SasCeilDiv u32 (i32 (i32 (t_oriMaskRight t - t_oriMaskLeft t) + 1)) (c_s2BaseSize c))) in
    if c_templateMode c =? CFA_TEMPLATE then
      let cmpSplitNum := u32 (i32 (SasCeilDiv u32 (t_actCmpS2Size t) (c_s2BaseSize c))) in
      (oriSplitNum, u32 (oriSplitNum + cmpSplitNum), { t with t_cmpLoopTimes := cmpSplitNum })
    else (oriSplitNum, oriSplitNum, t).

(** The blocks of a row: one call of the pipeline for each, and two more at the
    end of the share. *)
Definition row_blocks (isEnd : bool) : SwaM unit :=
  c ← gets constInfo;
  t ← gets tempLoopInfo;
  let '(oriSplitNum, s2SplitNum, t) := split_nums c t in
  let s2LoopEnd := if isEnd && negb (c_s2End c =? 0) then c_s2End c else s2SplitNum in
  start ← gets globalLoopStart;
  let splitPos := if (start : bool) then c_coreStartKVSplitPos c else 0 in
  set_temp (fun _ => { t with
    t_s2LoopTimes := s2LoopEnd; t_oriLoopTimes := oriSplitNum;
    t_tndIsS2SplitCore := negb ((c_s2Start c =? 0) && (s2LoopEnd =? s2SplitNum));
    t_tndCoreStartKVSplitPos := splitPos }) ;;
  let extraLoop := if isEnd then PRELOAD_NUM else 0 in
  for_range (c_s2Start c) (u32 (s2LoopEnd + extraLoop)) (fun s2LoopIdx =>
    loop ← gets gloop;
    PreloadPipeline loop 0 (c_s2Start c) s2LoopIdx ;;
    modify (fun s => { s with gloop := u32 (gloop s + 1) })) ;;
  modify (fun s => { s with globalLoopStart := false }) ;;
  set_const (fun c => { c with c_s2Start := 0 }).

(** The body of the loop over the rows of a batch. *)
Definition swa_row (bN2LoopIdx gS1LoopEnd gS1LoopIdx : Z) : SwaM unit :=
  c ← gets constInfo;
  t ← gets tempLoopInfo;
  lt ← fetch (GetActualSeqLenKV c (t_bIdx t) t);
  let t := { lt.2 with t_actOriS2Size := lt.1 } in
  let t := row_position c gS1LoopIdx t in
  let t := GetSparseActualSeqLen c t in
  let t := UpdateInnerLoopCond c t in
  set_temp (fun _ => t) ;;
  let isEnd := (u32 (bN2LoopIdx + 1) =? c_bN2End c) && (u32 (gS1LoopIdx + 1) =? gS1LoopEnd) in
  if t_curActSeqLenIsZero t
  then when (e_isAIV e) (InitAllZeroOutput (t_bIdx t) (t_s1StartIdx t) (t_n2Idx t)) ;; when isEnd (row_blocks isEnd)
  else row_blocks isEnd.

(** [GetBN2Idx]. *)
Definition GetBN2Idx (bN2Idx : Z) : Z * Z := (bN2Idx /c swa_kvHeadNum, bN2Idx %c swa_kvHeadNum).

(** The body of the loop over the batches. *)
Definition swa_batch (bN2LoopIdx : Z) : SwaM unit :=
  c ← gets constInfo;
  let '(bIdx, n2Idx) := GetBN2Idx bN2LoopIdx in
  lp ← fetch (GetActualSeqLenQ c bIdx);
  let '(actS1Size, prefixSum) := lp in
  set_temp (fun t => { t with t_bIdx := bIdx; t_n2Idx := n2Idx; t_actS1Size := actS1Size; t_actualSeqQPrefixSum := prefixSum }) ;;
  let lastBatch := u32 (bN2LoopIdx + 1) =? c_bN2End c in
  let isS1ZeroAndLastBatch := (actS1Size =? 0) && (bool_decide (c_outputLayout c = BSND) || lastBatch) in
  let gS1SplitNum := u32 (SasCeilDiv u64 (u64 (actS1Size * c_gSize c)) (c_mBaseSize c)) in
  let gS1LoopEnd := if (bN2LoopIdx =? u32 (c_bN2End c - 1)) && negb (c_gS1End c =? 0) then c_gS1End c else gS1SplitNum in
  let gS1LoopEnd := if isS1ZeroAndLastBatch then u32 (gS1LoopEnd + 1) else gS1LoopEnd in
  for_range (c_gS1Start c) gS1LoopEnd (swa_row bN2LoopIdx gS1LoopEnd) ;;
  set_const (fun c => { c with c_gS1Start := 0 }).

(** The end of the share, as the exclusive end of the loop over the batches. *)
Definition adapt_end (c : SwaConst) : SwaConst :=
  if c_bN2Start c =? c_bN2End c then
    if negb (c_gS1Start c =? c_gS1End c) || negb (c_s2Start c =? c_s2End c) then { c with c_bN2End := u32 (c_bN2End c + 1) } else c
  else if negb (c_gS1End c =? 0) || negb (c_s2End c =? 0) then { c with c_bN2End := u32 (c_bN2End c + 1) } else c.

Definition ProcessBalance : SwaM unit :=
  set_const adapt_end ;;
  c ← gets constInfo;
  for_range (c_bN2Start c) (c_bN2End c) swa_batch.

(** [aiCoreIdx]: a vector core belongs to the cube core of half its number. *)
Definition aiCoreIdx : Z := if e_isAIV e then e_tmpBlockIdx e /c 2 else e_tmpBlockIdx e.

Definition meta_get (metaIdx : Z) : outcome fault_kind Z := gm_get (metadataGm e) (GetAttrAbsIndex aiCoreIdx metaIdx false).

(** [InitCalcParamsEach]. *)
Definition InitCalcParamsEach (c : SwaConst) : outcome fault_kind SwaConst :=
  c ← (if aiCoreIdx =? 0 then mret c
       else bN2Start ← meta_get FA_BN2_START_INDEX;
            gS1Start ← meta_get FA_M_START_INDEX;
            s2Start ← meta_get FA_S2_START_INDEX;
            mret { c with c_bN2Start := bN2Start; c_gS1Start := gS1Start; c_s2Start := s2Start });
  bN2End ← meta_get FA_BN2_END_INDEX;
  gS1End ← meta_get FA_M_END_INDEX;
  s2End ← meta_get FA_S2_END_INDEX;
  mret { c with c_bN2End := bN2End; c_gS1End := gS1End; c_s2End := s2End }.

(** [Process]. *)
Definition SwaProcess : SwaM unit :=
  hasLoad ← fetch (meta_get FA_CORE_ENABLE_INDEX);
  when (negb (hasLoad =? 0)) ProcessBalance.

(** [Init] and [Process]: what the core issues. *)
Definition swa_core (td : SwaTiling) : outcome fault_kind (list op) :=
  c ← InitCalcParamsEach (InitTilingData (TEMPLATE_MODE e) td new_SwaConst);
  '(_, s) ← SwaProcess (new_SwaState c);
  Ok (issued s).
End Kernel.

(** ** A launch *)

(** The inputs of the operator that the loops read, and the instance of the
    kernel the tiling key selects. *)
Record SwaLaunch : Type := {
  l_layout : SAS_LAYOUT;
  l_kvLayout : SAS_LAYOUT;
  l_templateMode : Z;
  l_cuSeqlensQ : tensor Z;
  l_cuSeqlensKV : tensor Z;
  l_cuSeqlensCmpKV : tensor Z;
  l_seqUsedQ : tensor Z;
  l_seqUsedKV : tensor Z;
  l_metadata : tensor Z }.

(** The tensors [Init] selects for a core.  A tensor of lengths that is absent
    ([actualLenDimsQ] or [actualLenDimsKV] is 0) is not set there: it is empty here. *)
Definition SwaInit (l : SwaLaunch) (isAIV : bool) (blockIdx : Z) : SwaEnv :=
  let kvTnd := bool_decide (l_kvLayout l = TND) in
  {| e_isAIV := isAIV; e_tmpBlockIdx := blockIdx; LAYOUT_T := l_layout l; KV_LAYOUT_T := l_kvLayout l;
     TEMPLATE_MODE := l_templateMode l; metadataGm := l_metadata l;
     actualSeqLengthsQGm := if bool_decide (l_layout l = TND) then l_cuSeqlensQ l else l_seqUsedQ l;
     actualSeqLengthsKVGm := if kvTnd then l_cuSeqlensKV l else l_seqUsedKV l;
     actualSeqLengthsCmpKVGm := l_cuSeqlensCmpKV l |}.
