(* ===== verification/SasSwaSpec.v ===== *)
(** The reference behaviour of the sliding-window kernel, and the part of the
    proof that does not touch the state: which tokens a row sees and how its
    blocks are numbered. *)

From S2P Require Import Prelude AscendC TilingContext Aicpu SasMetaOut SasSpec SasCostLemmas SasSwa.

(** ** Reference *)

(** A block of a row: [blk_count] key tokens from [blk_first] on, of the window or
    of the compressed tokens, and where the output of the row goes. *)
Record Block : Type := {
  blk_batch : Z;
  blk_row : Z;
  blk_ori : bool;
  blk_first : Z;
  blk_count : Z;
  blk_out : Z;
  blk_begin : bool;
  blk_end : bool }.

(** The block a parameter record describes, with the token index that the cube
    stages compute from it. *)
Definition block_of (i : RunInfo) : Block := {|
  blk_batch := ri_bIdx i; blk_row := ri_s1Idx i; blk_ori := ri_isOri i;
  blk_first := if ri_isOri i then ri_s2Idx i * 512 + ri_s2StartPoint i else ri_relativeS2Idx i * 512;
  blk_count := ri_actualSingleProcessSInnerSize i; blk_out := ri_attenOutOffset i;
  blk_begin := ri_isFirstSInnerLoop i; blk_end := ri_isLastS2Loop i |}.

Section Row.
Variables (cfa : bool) (ratio b s1 s2 out r : Z).

(** The last token row [r] sees, and the number of compressed tokens. *)
Definition swa_last : Z := s2 - s1 + r.
Definition swa_cmp : Z := if cfa then (swa_last + 1) / ratio else 0.
Definition swa_times : Z := 1 + ceil_div swa_cmp 512.

(** Block [j] of the row: first the window of at most 128 tokens, then the
    compressed tokens in blocks of 512. *)
Definition swa_block (j : Z) : Block :=
  if j =? 0 then
    {| blk_batch := b; blk_row := r; blk_ori := true; blk_first := Z.max 0 (swa_last - 127);
       blk_count := swa_last - Z.max 0 (swa_last - 127) + 1; blk_out := out; blk_begin := true; blk_end := swa_times =? 1 |}
  else
    {| blk_batch := b; blk_row := r; blk_ori := false; blk_first := (j - 1) * 512;
       blk_count := Z.min 512 (swa_cmp - (j - 1) * 512); blk_out := out; blk_begin := false; blk_end := j =? swa_times - 1 |}.

Definition swa_blocks : list Block := if swa_last <? 0 then [] else map swa_block (zrange 0 swa_times).
End Row.

(** ** Configurations *)

(** What the theorems assume of the constants: the tiling of the operator. *)
Record swa_params (c : SwaConst) : Prop := {
  sp_gSize : 0 < c_gSize c <= 256;
  sp_qHeadNum : c_qHeadNum c = c_gSize c;
  sp_mBaseSize : c_mBaseSize c = c_gSize c;
  sp_s2BaseSize : c_s2BaseSize c = 512;
  sp_nBuffer : c_nBufferMBaseSize c = 256;
  sp_headDim : c_headDim c = 512;
  sp_kvHeadNum : c_kvHeadNum c = 1;
  sp_winLeft : c_oriWinLeft c = 127;
  sp_winRight : c_oriWinRight c = 0;
  sp_ratio : c_templateMode c = CFA_TEMPLATE -> c_cmpRatio c = 4 \/ c_cmpRatio c = 128 }.

Definition is_cfa (c : SwaConst) : bool := c_templateMode c =? CFA_TEMPLATE.

Lemma SasCeilDiv_spec wrap num rnd : 0 <= num -> 0 < rnd -> wrap (num + rnd) = num + rnd -> wrap (num + rnd - 1) = num + rnd - 1 ->
  SasCeilDiv wrap num rnd = ceil_div num rnd.
Proof.
  intros Hn Hr W1 W2. unfold SasCeilDiv. rewrite (proj2 (Z.eqb_neq rnd 0)) by lia. rewrite W1, W2. by rewrite quot_nonneg_div by lia.
Qed.

Lemma u64_small z : 0 <= z < 2 ^ 64 -> u64 z = z.
Proof. apply Z.mod_small. Qed.

(** Removes the casts of the kernel whose argument is in range. *)
Ltac unwrapk :=
  repeat match goal with
  | |- context [u64 ?z] => rewrite (u64_small z) by lia
  | |- context [u32 ?z] => rewrite (u32_small z) by lia
  | |- context [i32 ?z] => rewrite (i32_id z) by (unfold fits_i32; lia)
  end.

Section RowTemp.
Variable c : SwaConst.
Hypothesis P : swa_params c.
Variables s1 s2 r : Z.
Hypothesis Hs1 : 0 < s1 < 2 ^ 24.
Hypothesis Hs2 : 0 <= s2 < 2 ^ 30.
Hypothesis Hr : 0 <= r < s1.
Abbreviation R := (swa_last s1 s2 r).
Abbreviation C := (swa_cmp (is_cfa c) (c_cmpRatio c) s1 s2 r).

Lemma swa_cmp_range : 0 <= R -> 0 <= C < 2 ^ 29.
Proof.
  intros HR. unfold swa_cmp, is_cfa. destruct (c_templateMode c =? CFA_TEMPLATE) eqn:E; [|lia]. bool_prop.
  destruct (sp_ratio c P E) as [-> | ->]; unfold swa_last in *; zlia.
Qed.

Lemma swa_times_range : 0 <= R -> 1 <= swa_times (is_cfa c) (c_cmpRatio c) s1 s2 r < 2 ^ 22.
Proof. intros HR. pose proof (swa_cmp_range HR). unfold swa_times, ceil_div. zlia. Qed.

Variable t : SwaTempLoopInfo.
Hypothesis T1 : t_actS1Size t = s1.
Hypothesis T2 : t_actOriS2Size t = s2.

Definition row_temp : SwaTempLoopInfo := UpdateInnerLoopCond c (GetSparseActualSeqLen c (row_position c r t)).

Lemma row_position_spec : exists cmr, row_position c r t =
  { t with t_gS1Idx := r * c_gSize c; t_s1StartIdx := r; t_s1EndIdx := r; t_oriMaskRight := R; t_oriMaskLeft := Z.max 0 (R - 127);
           t_cmpMaskRight := cmr } /\ (is_cfa c = true -> cmr = s2 - s1).
Proof.
  pose proof (sp_gSize c P). unfold row_position. rewrite (sp_mBaseSize c P), (sp_winLeft c P), (sp_winRight c P), T1, T2.
  assert (r * c_gSize c < 2 ^ 32) by nia. assert (c_gSize c /c c_gSize c = 1) as -> by (apply Z.quot_same; lia).
  assert (r * c_gSize c /c c_gSize c = r) as Hq by (apply Z.quot_mul; lia).
  rewrite (u32_small (r * c_gSize c)) by nia. rewrite Hq. unwrapk. replace (r + 1 - 1) with r by lia. unwrapk.
  assert ((if s1 - 1 <? r then s1 - 1 else r) = r) as -> by (case_if; lia). unfold swa_last in *. unwrapk.
  assert ((if s2 - s1 + r - 127 >? 0 then s2 - s1 + r - 127 else 0) = Z.max 0 (s2 - s1 + r - 127)) as -> by (case_if; lia).
  unfold is_cfa. destruct (c_templateMode c =? CFA_TEMPLATE) eqn:E.
  - exists (s2 - s1). rewrite !Z.add_0_r. simpl. rewrite T1, T2. unwrapk. done.
  - exists (t_cmpMaskRight t). rewrite !Z.add_0_r. split; [by destruct t|done].
Qed.

(** A row that sees no token. *)
Lemma row_temp_zero : R < 0 -> t_curActSeqLenIsZero row_temp = true /\ t_bIdx row_temp = t_bIdx t /\ t_n2Idx row_temp = t_n2Idx t /\
  t_actS1Size row_temp = s1 /\ t_actualSeqQPrefixSum row_temp = t_actualSeqQPrefixSum t /\ t_s1StartIdx row_temp = r.
Proof.
  intros HR. destruct row_position_spec as (cmr & Hp & _). unfold row_temp. rewrite Hp. unfold GetSparseActualSeqLen. simpl. rewrite T1, T2.
  unwrapk. unfold swa_last in HR. rewrite (proj2 (Z.ltb_lt r (- (s2 - s1)))) by lia. by unfold UpdateInnerLoopCond; simpl.
Qed.

(** The threshold of the compressed tokens. *)
Lemma cmp_threshold : 0 <= R -> is_cfa c = true -> i32 (u32 (u32 (s2 - s1 + r) + 1) /c c_cmpRatio c) = C.
Proof.
  intros HR E. pose proof (swa_cmp_range HR) as HC. rewrite E in *. unfold swa_cmp, swa_last in *. unfold is_cfa in E. bool_prop.
  rewrite (u32_small (s2 - s1 + r)), (u32_small (s2 - s1 + r + 1)) by lia.
  destruct (sp_ratio c P E) as [H4 | H4]; rewrite H4 in *; rewrite quot_nonneg_div by lia; apply i32_id; unfold fits_i32; lia.
Qed.

Lemma inner_cond_visible t0 : t_actS1Size t0 = s1 -> t_actOriS2Size t0 = s2 -> 0 <= R ->
  UpdateInnerLoopCond c t0 = { t0 with t_curActSeqLenIsZero := false; t_mBasicSizeTail := c_gSize c }.
Proof.
  intros H1 H2 HR. unfold swa_last in HR. pose proof (sp_gSize c P). unfold UpdateInnerLoopCond. rewrite H1, H2, (sp_mBaseSize c P).
  rewrite (proj2 (Z.eqb_neq s1 0)), (proj2 (Z.eqb_neq s2 0)), andb_false_r by lia. cbn [orb]. rewrite u64_small by nia. by rewrite Z.rem_mul by lia.
Qed.

(** A row that sees some. *)
Lemma row_temp_visible : 0 <= R -> exists cmr cmp, row_temp =
  { t with t_gS1Idx := r * c_gSize c; t_s1StartIdx := r; t_s1EndIdx := r; t_oriMaskRight := R; t_oriMaskLeft := Z.max 0 (R - 127);
           t_cmpMaskRight := cmr; t_actCmpS2Size := cmp; t_curActSeqLenIsZero := false; t_mBasicSizeTail := c_gSize c } /\
  (is_cfa c = true -> cmr = s2 - s1 /\ cmp = C).
Proof.
  intros HR. destruct row_position_spec as (cmr & Hp & Hc). pose proof (sp_gSize c P). pose proof (swa_cmp_range HR) as HC.
  exists cmr, (if is_cfa c then C else t_actCmpS2Size t). split; [|intros E; split; [by apply Hc|by rewrite E]].
  unfold row_temp. rewrite Hp. unfold GetSparseActualSeqLen. simpl. rewrite T1, T2. unwrapk. pose proof HR as HR'. unfold swa_last in HR'.
  rewrite (proj2 (Z.ltb_ge r (- (s2 - s1)))) by lia. fold (is_cfa c).
  assert (is_cfa c = true -> i32 (u32 (u32 (cmr + r) + 1) /c c_cmpRatio c) = C) as Hcmp by (intros E; rewrite (Hc E); by apply cmp_threshold).
  clear Hc HC. destruct (is_cfa c) eqn:E; [rewrite (Hcmp eq_refl)|]; (rewrite inner_cond_visible; [|exact T1|exact T2|exact HR]);
    [reflexivity|]. clear. destruct t. reflexivity.
Qed.
End RowTemp.
