(* ===== verification/SasSwaLemmas.v ===== *)
(** The loops of the sliding-window kernel: a core issues the blocks of the rows
    of its share, in order, each through all the stages of its side. *)

From S2P Require Import Prelude AscendC TilingContext Aicpu SasMetaOut SasSpec SasCostLemmas SasSwa SasSwaSpec.

(** ** One block *)

(** The loop information of a visible row, while its blocks are issued. *)
Record row_ready (c : SwaConst) (b s1 s2 pre r : Z) (t : SwaTempLoopInfo) : Prop := {
  rr_bIdx : t_bIdx t = b;
  rr_gS1Idx : t_gS1Idx t = r * c_gSize c;
  rr_times : t_s2LoopTimes t = swa_times (is_cfa c) (c_cmpRatio c) s1 s2 r;
  rr_ori : t_oriLoopTimes t = 1;
  rr_right : t_oriMaskRight t = swa_last s1 s2 r;
  rr_left : t_oriMaskLeft t = Z.max 0 (swa_last s1 s2 r - 127);
  rr_cmp : is_cfa c = true -> t_actCmpS2Size t = swa_cmp (is_cfa c) (c_cmpRatio c) s1 s2 r;
  rr_tail : t_mBasicSizeTail t = c_gSize c;
  rr_pre : t_actualSeqQPrefixSum t = pre }.

(** The first output element of row [r] of a batch that starts at token [pre]. *)
Definition row_out (c : SwaConst) (pre r : Z) : Z := (pre + r) * c_gSize c * 512.

(** What the calculation of parameters changes of the state. *)
Definition calc_frame (s s' : SwaState) : Prop :=
  constInfo s' = constInfo s /\ extraInfo s' = extraInfo s /\ gloop s' = gloop s /\ globalLoopStart s' = globalLoopStart s /\
  issued s' = issued s /\ exists x, tempLoopInfo s' = { tempLoopInfo s with t_bn2IdxInCurCore := x }.

Section Calc.
Variable e : SwaEnv.
Variables (loop j : Z) (old : RunInfo) (s : SwaState).
Abbreviation c := (constInfo s).
Abbreviation t := (tempLoopInfo s).

(** What the parameters of the vector cores leave unchanged. *)
Lemma vec_split_keeps i : let i' := if e_isAIV e then vec_split e c i else i in
  ri_bIdx i' = ri_bIdx i /\ ri_s1Idx i' = ri_s1Idx i /\ ri_s2Idx i' = ri_s2Idx i /\ ri_gS1Idx i' = ri_gS1Idx i /\
  ri_loop i' = ri_loop i /\ ri_isValid i' = ri_isValid i /\ ri_actMBaseSize i' = ri_actMBaseSize i.
Proof. cbv zeta. destruct (e_isAIV e); [|done]. unfold vec_split. by destruct (_ =? 1). Qed.

(** What the choice of the tokens leaves unchanged. *)
Lemma block_tokens_keeps t' i : let i' := block_tokens c t' j i in
  ri_bIdx i' = ri_bIdx i /\ ri_s1Idx i' = ri_s1Idx i /\ ri_s2Idx i' = ri_s2Idx i /\ ri_attenOutOffset i' = ri_attenOutOffset i /\
  ri_isFirstSInnerLoop i' = ri_isFirstSInnerLoop i /\ ri_isLastS2Loop i' = ri_isLastS2Loop i /\
  ri_loop i' = ri_loop i /\ ri_isValid i' = ri_isValid i /\ ri_actMBaseSize i' = ri_actMBaseSize i.
Proof. cbv zeta. unfold block_tokens. destruct (j <? _); [done|]. by destruct (_ =? CFA_TEMPLATE). Qed.

(** The parameters a call computes, and the state it leaves. *)
Definition calc_temp : SwaTempLoopInfo := if j =? 0 then { t with t_bn2IdxInCurCore := u32 (t_bn2IdxInCurCore t + 1) } else t.
Definition calc_out : Z :=
  if j =? 0 then u64 (u64 (u64 (t_actualSeqQPrefixSum t * c_qHeadNum c) * c_headDim c) + u64 (t_gS1Idx t * c_headDim c)) else tensorACoreOffset s.

Record calc_result (i : RunInfo) (s' : SwaState) : Prop := {
  cr_frame : calc_frame s s';
  cr_out : tensorACoreOffset s' = calc_out;
  cr_loop : ri_loop i = loop /\ ri_isValid i = (j <? t_s2LoopTimes t) /\ ri_actMBaseSize i = u32 (t_mBasicSizeTail t);
  cr_place : ri_bIdx i = t_bIdx t /\ ri_s1Idx i = u32 (t_gS1Idx t /c c_gSize c) /\ ri_s2Idx i = j /\ ri_attenOutOffset i = calc_out /\
    ri_isFirstSInnerLoop i = (j =? 0) /\ ri_isLastS2Loop i = (j =? u32 (t_s2LoopTimes t - 1));
  cr_tokens : exists i0, ri_s2Idx i0 = j /\ let i' := block_tokens c calc_temp j i0 in
    ri_isOri i = ri_isOri i' /\ ri_relativeS2Idx i = ri_relativeS2Idx i' /\ ri_s2StartPoint i = ri_s2StartPoint i' /\
    ri_actualSingleProcessSInnerSize i = ri_actualSingleProcessSInnerSize i' }.

Lemma CalcParams_result : wp (CalcParams e loop 0 0 j old) calc_result s.
Proof.
  unfold CalcParams. do 2 (apply wp_bind, wp_gets). set (info1 := block_info _ _ _ _ _ _).
  pose proof (vec_split_keeps info1) as (V1 & V2 & V3 & V4 & V5 & V6 & V7). cbv zeta.
  set (info2 := if e_isAIV e then _ else _) in *. clearbody info2. apply wp_bind, wp_modify. fold calc_temp.
  apply wp_bind. eapply (wp_mono _ (fun _ u => calc_frame s u /\ tensorACoreOffset u = calc_out)).
  { unfold calc_temp, calc_out, calc_frame. destruct (j =? 0); cbn [when].
    - apply wp_modify. simpl. rewrite V4. split; [|done]. split_and!; try done. by eexists.
    - apply wp_ret. simpl. split; [|done]. split_and!; try done. exists (t_bn2IdxInCurCore t). by destruct (tempLoopInfo s). }
  intros _ s' [HF HO]. do 3 (apply wp_bind, wp_gets). apply wp_ret.
  set (info3 := block_offsets _ _ _ _).
  pose proof (block_tokens_keeps calc_temp info3) as (T1 & T2 & T3 & T4 & T5 & T6 & T7 & T8 & T9). cbv zeta in *.
  set (info4 := block_tokens c calc_temp j info3) in *.
  assert (t_s2LoopTimes calc_temp = t_s2LoopTimes t) as Htimes by (unfold calc_temp; by destruct (j =? 0)).
  constructor; try done.
  - change (ri_loop info4 = loop /\ ri_isValid info4 = (j <? t_s2LoopTimes t) /\ ri_actMBaseSize info4 = u32 (t_mBasicSizeTail t)).
    rewrite T7, T8, T9. split_and!; [exact V5|exact V6|exact V7].
  - change (ri_bIdx info4 = t_bIdx t /\ ri_s1Idx info4 = u32 (t_gS1Idx t /c c_gSize c) /\ ri_s2Idx info4 = j /\ ri_attenOutOffset info4 = calc_out /\
      ri_isFirstSInnerLoop info4 = (j =? 0) /\ ri_isLastS2Loop info4 = (j =? u32 (t_s2LoopTimes t - 1))).
    rewrite T1, T2, T3, T4, T5, T6, <- HO, <- Htimes. split_and!; [exact V1|exact V2|exact V3|done..].
  - exists info3. split; [exact V3|done].
Qed.

(** The effect of [CalcParams] on the state, and the validity of the result. *)
Lemma CalcParams_frame : wp (CalcParams e loop 0 0 j old) (fun i s' => calc_frame s s' /\ ri_loop i = loop /\
  ri_isValid i = (j <? t_s2LoopTimes t) /\ ri_actMBaseSize i = u32 (t_mBasicSizeTail t) /\ tensorACoreOffset s' = calc_out) s.
Proof. eapply wp_mono; [apply CalcParams_result|]. intros i s' [F O (L1 & L2 & L3) _ _]. by split_and!. Qed.

(** The block it describes. *)
Lemma CalcParams_block b s1 s2 pre r : swa_params c -> 0 < s1 < 2 ^ 24 -> 0 <= s2 < 2 ^ 30 -> 0 <= r < s1 -> 0 <= pre < 2 ^ 31 ->
  row_ready c b s1 s2 pre r t -> 0 <= swa_last s1 s2 r -> 0 <= j < swa_times (is_cfa c) (c_cmpRatio c) s1 s2 r ->
  (j <> 0 -> tensorACoreOffset s = row_out c pre r) ->
  wp (CalcParams e loop 0 0 j old) (fun i s' =>
    block_of i = swa_block (is_cfa c) (c_cmpRatio c) b s1 s2 (row_out c pre r) r j /\ tensorACoreOffset s' = row_out c pre r) s.
Proof.
  intros P Hs1 Hs2 Hr Hpre RR HR Hj HA. pose proof (swa_cmp_range c P s1 s2 r Hs2 Hr HR) as HC. pose proof (swa_times_range c P s1 s2 r Hs2 Hr HR) as HT.
  pose proof (sp_gSize c P). destruct RR as [R1 R2 R3 R4 R5 R6 R7 R8 R9].
  assert (calc_out = row_out c pre r) as Hout.
  { unfold calc_out. destruct (j =? 0) eqn:E; bool_prop; [|by apply HA]. rewrite R9, R2, (sp_qHeadNum c P), (sp_headDim c P). unfold row_out.
    assert (0 <= pre * c_gSize c <= pre * 256) by nia. assert (0 <= r * c_gSize c <= r * 256) by nia. unwrapk. lia. }
  eapply wp_mono; [apply CalcParams_result|]. intros i s' [_ O _ (P1 & P2 & P3 & P4 & P5 & P6) (i0 & Hi0 & K1 & K2 & K3 & K4)].
  split; [|by rewrite O, Hout]. unfold block_of. rewrite P1, P2, P3, P4, P5, P6, K1, K2, K3, K4, Hout, R1, R2, R3.
  rewrite Z.quot_mul, (u32_small r), (u32_small (_ - 1)) by lia. clear P1 P2 P3 P4 P5 P6 K1 K2 K3 K4 O.
  assert (t_oriLoopTimes calc_temp = 1 /\ t_oriMaskRight calc_temp = swa_last s1 s2 r /\ t_oriMaskLeft calc_temp = Z.max 0 (swa_last s1 s2 r - 127) /\
    t_actCmpS2Size calc_temp = t_actCmpS2Size t /\ t_s2LoopTimes calc_temp = swa_times (is_cfa c) (c_cmpRatio c) s1 s2 r) as (E1 & E2 & E3 & E4 & E5).
  { unfold calc_temp. by destruct (j =? 0). }
  unfold block_tokens, swa_block. rewrite E1, E2, E3, E4, E5, Hi0, (sp_s2BaseSize c P). clear E1 E2 E3 E4 E5.
  set (T := swa_times _ _ _ _ _) in *. destruct (j =? 0) eqn:E; bool_prop.
  - rewrite E. simpl. unfold swa_last in *. unwrapk. f_equal; [lia|]. destruct (T =? 1) eqn:ET; bool_prop; [by rewrite ET|]. apply (proj2 (Z.eqb_neq 0 (T - 1))). lia.
  - assert (is_cfa c = true) as Ecfa.
    { destruct (is_cfa c) eqn:Ec; [done|]. unfold T, swa_times, swa_cmp in Hj. rewrite ceil_div_0 in Hj; lia. }
    pose proof (ceil_div_spec (swa_cmp (is_cfa c) (c_cmpRatio c) s1 s2 r) 512 ltac:(lia) ltac:(lia)) as (_ & D1 & D2).
    assert (ceil_div (swa_cmp (is_cfa c) (c_cmpRatio c) s1 s2 r) 512 = T - 1) as HD by (unfold T, swa_times; lia).
    rewrite HD in D1, D2. rewrite (R7 Ecfa). set (C := swa_cmp _ _ _ _ _) in *. rewrite (proj2 (Z.ltb_ge j 1)) by lia. fold (is_cfa c). rewrite Ecfa. simpl.
    rewrite (u32_small (j - 1)), (u32_small ((j - 1) * 512)), (u32_small (j + 1)) by lia. f_equal.
    destruct (j + 1 =? T) eqn:EL; bool_prop; [unwrapk|]; lia.
Qed.
End Calc.

(** ** The pipeline *)

Section Pipeline.
Variable e : SwaEnv.
Variable c : SwaConst.

(** The operations of the stages, for blocks of at most 256 rows. *)
Definition mm1_ops (i : RunInfo) : list op := [OpMm1 i (m_split c i 0); OpSetFlag syncC1V1].
Definition mm2_ops (i : RunInfo) : list op := [OpWaitFlag syncV1C2; OpMm2 i (m_split c i 0); OpSetFlag syncC2V2].
Definition vec1_ops (i : RunInfo) : list op :=
  [OpWaitFlag syncC1V1; OpVec1 i (m_split_vec e c i 0); OpSetFlag syncV1C2] ++
  (if c_returnSoftmaxLse c && (ri_s2Idx i =? u32 (ri_curSInnerLoopTimes i - 1)) then [OpLse i (m_split_vec e c i 0)] else []).
Definition vec2_ops (i : RunInfo) : list op := [OpWaitFlag syncC2V2; OpVec2 i (m_split_vec e c i 0)].

(** What a call of the pipeline issues for the block [p0] it starts and the
    blocks [p1], [p2] of the two calls before. *)
Definition step_ops (p0 p1 p2 : option RunInfo) : list op :=
  if e_isAIV e then from_option vec1_ops [] p1 ++ from_option vec2_ops [] p2
  else from_option mm1_ops [] p0 ++ from_option mm2_ops [] p1.

(** A call starts a block only when its parameters are valid. *)
Definition live (i : RunInfo) : option RunInfo := if ri_isValid i then Some i else None.

(** A core makes calls of the pipeline and, between them, issues operations that
    set the output of empty rows to zero. *)
Inductive item : Type := Call (i : RunInfo) | Zero (ops : list op).

Fixpoint pipe (p1 p2 : option RunInfo) (l : list item) : list op :=
  match l with
  | [] => []
  | Call i :: l => step_ops (live i) p1 p2 ++ pipe (live i) p1 l
  | Zero ops :: l => ops ++ pipe p1 p2 l
  end.

Fixpoint pipe_end (p1 p2 : option RunInfo) (l : list item) : option RunInfo * option RunInfo :=
  match l with
  | [] => (p1, p2)
  | Call i :: l => pipe_end (live i) p1 l
  | Zero _ :: l => pipe_end p1 p2 l
  end.

Lemma pipe_app p1 p2 l l' : pipe p1 p2 (l ++ l') = pipe p1 p2 l ++ pipe (pipe_end p1 p2 l).1 (pipe_end p1 p2 l).2 l'.
Proof. revert p1 p2. induction l as [|[i|ops] l IH]; intros p1 p2; simpl; [done|..]; by rewrite IH, app_assoc. Qed.

Lemma pipe_end_app p1 p2 l l' : pipe_end p1 p2 (l ++ l') = pipe_end (pipe_end p1 p2 l).1 (pipe_end p1 p2 l).2 l'.
Proof. revert p1 p2. by induction l as [|[i|ops] l IH]; intros p1 p2; simpl. Qed.

(** ** The stages *)

Hypothesis P : swa_params c.

(** The constants during the loops: only the start of the rows changes. *)
Definition const_ok (s : SwaState) : Prop := exists g, constInfo s = { c with c_gS1Start := g }.

(** Operations appended to the list. *)
Definition adds (s : SwaState) (ops : list op) : SwaState := { s with issued := issued s ++ ops }.

Lemma adds_adds s o1 o2 : adds (adds s o1) o2 = adds s (o1 ++ o2).
Proof. unfold adds. simpl. by rewrite app_assoc. Qed.

Lemma wp_issue o s (Q : unit -> SwaState -> Prop) : Q tt (adds s [o]) -> wp (issue_op o) Q s.
Proof. done. Qed.

Lemma one_buffer i : ri_actMBaseSize i = c_gSize c -> nBufferLoopTimes c i = 1.
Proof.
  intros Hm. pose proof (sp_gSize c P). unfold nBufferLoopTimes. rewrite Hm, (sp_nBuffer c P).
  rewrite SasCeilDiv_spec by first [lia | unwrapk; lia]. unfold ceil_div. zlia.
Qed.

Lemma wp_one (body : Z -> SwaM unit) Q s : wp (body 0) Q s -> wp (for_range 0 1 body) Q s.
Proof.
  intros H. apply (wp_for_range (fun i s' => if i =? 0 then s' = s else Q tt s')); [lia|done| |].
  - intros i s' Hi Hs. assert (i = 0) as -> by lia. simpl in Hs. subst s'. eapply wp_mono; [done|]. by intros [] s' HQ.
  - done.
Qed.

(** A stage loops over one buffer. *)
Ltac single_buffer Hm Hc :=
  apply wp_bind, wp_gets; rewrite Hc;
  match type of Hm with ri_actMBaseSize ?i = _ =>
    match goal with |- context [nBufferLoopTimes ?c' i] => change (nBufferLoopTimes c' i) with (nBufferLoopTimes c i) end end;
  rewrite one_buffer by done; apply wp_one.

Lemma ComputeMm1_spec i s (Q : unit -> SwaState -> Prop) : ri_actMBaseSize i = c_gSize c -> const_ok s ->
  Q tt (adds s (mm1_ops i)) -> wp (ComputeMm1 i) Q s.
Proof.
  intros Hm [g Hc] HQ. single_buffer Hm Hc. apply wp_bind, wp_issue. apply wp_issue. by rewrite adds_adds.
Qed.

Lemma ComputeMm2_spec i s (Q : unit -> SwaState -> Prop) : ri_actMBaseSize i = c_gSize c -> const_ok s ->
  Q tt (adds s (mm2_ops i)) -> wp (ComputeMm2 i) Q s.
Proof.
  intros Hm [g Hc] HQ. single_buffer Hm Hc. do 2 apply wp_bind, wp_issue. apply wp_issue. by rewrite !adds_adds.
Qed.

Lemma ProcessVec1L_spec i s (Q : unit -> SwaState -> Prop) : ri_actMBaseSize i = c_gSize c -> const_ok s ->
  Q tt (adds s (vec1_ops i)) -> wp (ProcessVec1L e i) Q s.
Proof.
  intros Hm [g Hc] HQ. single_buffer Hm Hc. do 3 apply wp_bind, wp_issue. rewrite !adds_adds. unfold vec1_ops in HQ. simpl.
  destruct (c_returnSoftmaxLse c && _); cbn [when].
  - apply wp_issue. by rewrite adds_adds.
  - by apply wp_ret.
Qed.

Lemma ProcessVec2L_spec i s (Q : unit -> SwaState -> Prop) : ri_actMBaseSize i = c_gSize c -> const_ok s ->
  Q tt (adds s (vec2_ops i)) -> wp (ProcessVec2L e i) Q s.
Proof.
  intros Hm [g Hc] HQ. single_buffer Hm Hc. apply wp_bind, wp_issue. apply wp_issue. by rewrite adds_adds.
Qed.

(** ** The ring of parameter records *)

(** Slot [k] holds the block [o], or nothing valid. *)
Definition slot_is (l : list RunInfo) (k : Z) (o : option RunInfo) : Prop :=
  exists x, l !! Z.to_nat k = Some x /\
    match o with Some i => x = i /\ ri_isValid i = true /\ ri_actMBaseSize i = c_gSize c | None => ri_isValid x = false end.

(** Before call [g]: the blocks of the two calls before are in their slots. *)
Definition ring (l : list RunInfo) (g : Z) (p1 p2 : option RunInfo) : Prop :=
  length l = 3%nat /\ slot_is l ((g + 2) mod 3) p1 /\ slot_is l ((g + 1) mod 3) p2.

Lemma mod3 g : 0 <= g -> (g mod 3 = 0 /\ (g + 1) mod 3 = 1 /\ (g + 2) mod 3 = 2) \/ (g mod 3 = 1 /\ (g + 1) mod 3 = 2 /\ (g + 2) mod 3 = 0) \/
  (g mod 3 = 2 /\ (g + 1) mod 3 = 0 /\ (g + 2) mod 3 = 1).
Proof. intros Hg. Z.to_euclidean_division_equations. lia. Qed.

(** A slot other than [k] is not changed by writing slot [k]. *)
Lemma slot_is_set l k k' i o : 0 <= k -> 0 <= k' -> k <> k' -> slot_is l k' o -> slot_is (<[Z.to_nat k := i]> l) k' o.
Proof. intros Hk Hk' Hne (x & Hx & Ho). exists x. split; [|done]. rewrite list_lookup_insert_ne by lia. done. Qed.

Lemma slot_is_live l k i : 0 <= k < 3 -> length l = 3%nat -> (ri_isValid i = true -> ri_actMBaseSize i = c_gSize c) ->
  slot_is (<[Z.to_nat k := i]> l) k (live i).
Proof.
  intros Hk Hl Hm. exists i. split; [by apply list_lookup_insert_eq; lia|]. unfold live. destruct (ri_isValid i) eqn:E; [by auto|done].
Qed.

Lemma wp_slot k x s (Q : RunInfo -> SwaState -> Prop) : extraInfo s !! Z.to_nat k = Some x -> Q x s -> wp (info_slot k) Q s.
Proof. intros Hx HQ. unfold info_slot. apply wp_bind, wp_gets. rewrite Hx. done. Qed.

Lemma adds_nil s : adds s [] = s.
Proof. unfold adds. rewrite app_nil_r. by destruct s. Qed.

(** The three parts of a call. *)
Lemma start_block i s (Q : unit -> SwaState -> Prop) : const_ok s -> (ri_isValid i = true -> ri_actMBaseSize i = c_gSize c) ->
  Q tt (adds s (if e_isAIV e then [] else from_option mm1_ops [] (live i))) ->
  wp (when (ri_isValid i && negb (e_isAIV e)) (ComputeMm1 i)) Q s.
Proof.
  intros Hc Hm HQ. unfold live in HQ. destruct (ri_isValid i), (e_isAIV e); cbn [andb negb when from_option] in *;
    try (apply wp_ret; by rewrite adds_nil in HQ). by apply ComputeMm1_spec; [apply Hm|..].
Qed.

Lemma middle_block x p s (Q : unit -> SwaState -> Prop) : const_ok s ->
  match p with Some i => x = i /\ ri_isValid i = true /\ ri_actMBaseSize i = c_gSize c | None => ri_isValid x = false end ->
  Q tt (adds s (if e_isAIV e then from_option vec1_ops [] p else from_option mm2_ops [] p)) ->
  wp (when (ri_isValid x) (if e_isAIV e then ProcessVec1L e x else ComputeMm2 x)) Q s.
Proof.
  intros Hc Hp HQ. destruct p as [i|].
  - destruct Hp as (-> & -> & Hm). cbn [when from_option] in *. destruct (e_isAIV e); [by apply ProcessVec1L_spec|by apply ComputeMm2_spec].
  - rewrite Hp. apply wp_ret. destruct (e_isAIV e); simpl in HQ; by rewrite adds_nil in HQ.
Qed.

Lemma finish_block x p k s (Q : unit -> SwaState -> Prop) : const_ok s ->
  match p with Some i => x = i /\ ri_isValid i = true /\ ri_actMBaseSize i = c_gSize c | None => ri_isValid x = false end ->
  (forall l, l = extraInfo s \/ (exists y, l = <[Z.to_nat k := y]> (extraInfo s)) ->
     Q tt { adds s (if e_isAIV e then from_option vec2_ops [] p else []) with extraInfo := l }) ->
  wp (when (ri_isValid x) (when (e_isAIV e) (ProcessVec2L e x) ;; set_slot k { x with ri_isValid := false })) Q s.
Proof.
  intros Hc Hp HQ. destruct p as [i|].
  - destruct Hp as (-> & -> & Hm). cbn [when from_option] in *. apply wp_bind. destruct (e_isAIV e); cbn [when].
    + apply ProcessVec2L_spec; [done..|]. apply wp_modify. apply HQ. right. by eexists.
    + apply wp_ret, wp_modify. rewrite adds_nil in HQ. apply HQ. right. by eexists.
  - rewrite Hp. apply wp_ret. specialize (HQ (extraInfo s) (or_introl eq_refl)). revert HQ. unfold adds. 
    destruct s, (e_isAIV e); simpl; by rewrite app_nil_r.
Qed.

(** A call of the pipeline. *)
Lemma PreloadPipeline_spec g j p1 p2 s (Pc : RunInfo -> SwaTempLoopInfo -> Z -> Prop) :
  0 <= g -> g + 2 < 2 ^ 32 -> const_ok s -> ring (extraInfo s) g p1 p2 ->
  (forall old, wp (CalcParams e g 0 0 j old) (fun i s' => calc_frame s s' /\ (ri_isValid i = true -> ri_actMBaseSize i = c_gSize c) /\
     Pc i (tempLoopInfo s') (tensorACoreOffset s')) s) ->
  wp (PreloadPipeline e g 0 0 j) (fun _ s' => exists i, Pc i (tempLoopInfo s') (tensorACoreOffset s') /\ constInfo s' = constInfo s /\
    gloop s' = gloop s /\ globalLoopStart s' = globalLoopStart s /\ ring (extraInfo s') (g + 1) (live i) p1 /\
    issued s' = issued s ++ step_ops (live i) p1 p2) s.
Proof.
  intros Hg Hg2 Hc (Hlen & Hp1 & Hp2) Hcalc. unfold PreloadPipeline, SAS_PRELOAD_TASK_CACHE_SIZE. cbv zeta.
  rewrite (u32_small (g + 2)), (u32_small (g + 1)), !rem_nonneg_mod by lia. pose proof (mod3 g Hg) as H3.
  destruct (lookup_lt_is_Some_2 (extraInfo s) (Z.to_nat (g mod 3))) as [x0 Hx0]; [lia|]. apply wp_bind. eapply wp_slot; [done|].
  apply wp_bind. eapply wp_mono; [apply Hcalc|]. intros i s1 ((F1 & F2 & F3 & F4 & F5 & _) & Hm & HP).
  apply wp_bind, wp_modify. rewrite F2. set (l1 := <[_ := i]> _).
  assert (slot_is l1 (g mod 3) (live i)) as S0 by (apply slot_is_live; [lia|done|done]).
  assert (slot_is l1 ((g + 2) mod 3) p1) as S1 by (apply slot_is_set; [lia..|done]).
  assert (slot_is l1 ((g + 1) mod 3) p2) as S2 by (apply slot_is_set; [lia..|done]).
  assert (length l1 = 3%nat) as L1 by (unfold l1; by rewrite length_insert).
  apply wp_bind. eapply wp_slot; [apply list_lookup_insert_eq; lia|].
  apply wp_bind. apply start_block; [unfold const_ok; simpl; by rewrite F1|done|].
  destruct S1 as (x1 & Hx1 & Hr1). apply wp_bind. eapply wp_slot; [done|].
  apply wp_bind. apply (middle_block x1 p1); [unfold const_ok; simpl; by rewrite F1|done|]. rewrite adds_adds.
  destruct S2 as (x2 & Hx2 & Hr2). apply wp_bind. eapply wp_slot; [done|].
  apply (finish_block x2 p2); [unfold const_ok; simpl; by rewrite F1|done|]. intros l Hl. simpl in *. exists i. split; [done|]. 
  rewrite F1, F3, F4, F5. do 3 (split; [done|]). split.
  - unfold ring. replace ((g + 1 + 2) mod 3) with (g mod 3) by (replace (g + 1 + 2) with (g + 1 * 3) by lia; by rewrite Z_mod_plus_full).
    replace (g + 1 + 1) with (g + 2) by lia. destruct Hl as [-> | [y ->]]; [split; [done|]; split; [done|by exists x1]|].
    rewrite length_insert. split; [done|]. split; [apply slot_is_set; [lia..|done]|]. apply slot_is_set; [lia..|]. by exists x1.
  - unfold step_ops. destruct (e_isAIV e); by rewrite ?app_nil_r, <- ?app_assoc.
Qed.
End Pipeline.
