(* ===== verification/SasSwaRows.v ===== *)
(** The rows of a share: what the loops of the sliding-window kernel issue for
    each row, and for all of them. *)

From S2P Require Import Prelude AscendC TilingContext Aicpu SasMetaOut SasSpec SasCostLemmas SasSwa SasSwaSpec SasSwaLemmas.

(** What the kernel reads: batch [b] has [s1 b] queries from token [pre b] on, and
    [s2 b] keys. *)
Record swa_input (e : SwaEnv) (c : SwaConst) (n : Z) (s1 s2 pre : Z -> Z) : Prop := {
  in_q b : 0 <= b < n -> GetActualSeqLenQ e c b = Ok (s1 b, pre b);
  in_kv b t : 0 <= b < n -> exists x y, GetActualSeqLenKV e c b t = Ok (s2 b, { t with t_actualSeqKVPrefixSum := x; t_actualSeqCmpKVPrefixSum := y });
  in_s1 b : 0 <= b < n -> 0 <= s1 b < 2 ^ 24;
  in_s2 b : 0 <= b < n -> 0 <= s2 b < 2 ^ 30;
  in_pre b : 0 <= b < n -> 0 <= pre b < 2 ^ 30;
  in_n : 0 <= n < 2 ^ 30;
  in_layout : c_outputLayout c = LAYOUT_T e;
  in_tnd b : LAYOUT_T e = TND -> 0 <= b < n -> gm_get (actualSeqLengthsQGm e) b = Ok (pre b);
  in_bsnd b : LAYOUT_T e <> TND -> 0 <= b < n -> LAYOUT_T e = BSND /\ pre b = b * c_qSeqSize c /\ 0 <= c_qSeqSize c < 2 ^ 30 }.

Section Rows.
Variable e : SwaEnv.
Variable c : SwaConst.
Hypothesis P : swa_params c.
Variable n : Z.
Variables s1 s2 pre : Z -> Z.
Hypothesis I : swa_input e c n s1 s2 pre.

(** ** Reference *)

(** The blocks of row [r] of batch [b], and the operations that set its output to
    zero when it has none. *)
Definition row_sees (b r : Z) : bool := (r <? s1 b) && (0 <=? swa_last (s1 b) (s2 b) r).
Definition blocks_of (p : Z * Z) : list Block :=
  if row_sees p.1 p.2 then swa_blocks (is_cfa c) (c_cmpRatio c) p.1 (s1 p.1) (s2 p.1) (row_out c (pre p.1) p.2) p.2 else [].
Definition clear_ops (b r : Z) : list op :=
  OpInitOutput (row_out c (pre b) r) (c_gSize c * 512) ::
  (if c_returnSoftmaxLse c then [OpInitLse ((pre b + r) * c_gSize c) (c_gSize c)] else []).
Definition zeros_of (p : Z * Z) : list op :=
  if e_isAIV e && negb (row_sees p.1 p.2) && (bool_decide (LAYOUT_T e <> TND) || negb (s1 p.1 =? 0)) then clear_ops p.1 p.2 else [].

(** ** Items *)

Definition item_block (it : item) : option Block :=
  match it with Call i => if ri_isValid i then Some (block_of i) else None | Zero _ => None end.
Definition item_zero (it : item) : list op := match it with Call _ => [] | Zero ops => ops end.
Definition item_ok (it : item) : Prop := match it with Call i => ri_isValid i = true | Zero _ => True end.

(** The items of a list of rows. *)
Definition items_of (rows : list (Z * Z)) (items : list item) : Prop :=
  omap item_block items = flat_map blocks_of rows /\ flat_map item_zero items = flat_map zeros_of rows /\ Forall item_ok items.

Lemma items_of_app rows rows' items items' : items_of rows items -> items_of rows' items' -> items_of (rows ++ rows') (items ++ items').
Proof.
  intros (H1 & H2 & H3) (H1' & H2' & H3'). split; [by rewrite omap_app, flat_map_app, H1, H1'|].
  split; [by rewrite !flat_map_app, H2, H2'|]. by apply Forall_app.
Qed.

(** ** The state between two calls *)

(** The constants of the loops are [c] with the start [g] of the rows of the next
    batch; [items] were issued, [k] of them calls of the pipeline. *)
Record pipe_at (g k : Z) (items : list item) (s : SwaState) : Prop := {
  pa_const : constInfo s = { c with c_gS1Start := g };
  pa_issued : issued s = pipe e c None None items;
  pa_ring : ring c (extraInfo s) k (pipe_end None None items).1 (pipe_end None None items).2;
  pa_gloop : gloop s = k }.

(** The loop information of a batch. *)
Record batch_at (b : Z) (t : SwaTempLoopInfo) : Prop := {
  ba_bIdx : t_bIdx t = b;
  ba_n2Idx : t_n2Idx t = 0;
  ba_s1 : t_actS1Size t = s1 b;
  ba_pre : t_actualSeqQPrefixSum t = pre b }.

(** One call, with the counter. *)
Definition pipe_call (j : Z) : SwaM unit :=
  loop ← gets gloop; PreloadPipeline e loop 0 0 j ;; modify (fun s => { s with gloop := u32 (gloop s + 1) }).

Lemma pipe_call_spec g k items j s (Pc : RunInfo -> SwaTempLoopInfo -> Z -> Prop) : 0 <= k -> k + 3 < 2 ^ 32 -> pipe_at g k items s ->
  (forall old, wp (CalcParams e k 0 0 j old) (fun i s' => calc_frame s s' /\ (ri_isValid i = true -> ri_actMBaseSize i = c_gSize c) /\
     Pc i (tempLoopInfo s') (tensorACoreOffset s')) s) ->
  wp (pipe_call j) (fun _ s' => exists i, Pc i (tempLoopInfo s') (tensorACoreOffset s') /\ pipe_at g (k + 1) (items ++ [Call i]) s') s.
Proof.
  intros Hk Hk3 [H1 H2 H3 H4] Hcalc. apply wp_bind, wp_gets. rewrite H4. apply wp_bind.
  eapply wp_mono; [apply (PreloadPipeline_spec e c P k j _ _ s Pc ltac:(lia) ltac:(lia) (ex_intro _ g H1) H3 Hcalc)|].
  intros _ s' (i & HP & F1 & F2 & F3 & Hring & Hiss). apply wp_modify. exists i. split; [done|]. constructor; simpl.
  - by rewrite F1.
  - by rewrite pipe_app, Hiss, H2; simpl; rewrite app_nil_r.
  - rewrite pipe_end_app. done.
  - rewrite F2, H4. unwrapk. done.
Qed.

(** The calls of a row change the counter of rows only. *)
Definition keeps (t0 t : SwaTempLoopInfo) : Prop := exists x, t = { t0 with t_bn2IdxInCurCore := x }.

Lemma keeps_batch b t0 t : batch_at b t0 -> keeps t0 t -> batch_at b t.
Proof. intros [H1 H2 H3 H4] [x ->]. by constructor. Qed.

Lemma keeps_ready b a1 a2 p r t0 t : row_ready c b a1 a2 p r t0 -> keeps t0 t -> row_ready c b a1 a2 p r t.
Proof. intros [] [x ->]. by constructor. Qed.

Lemma wp_both {A} (m : SwaM A) Q1 Q2 s : wp m Q1 s -> wp m Q2 s -> wp m (fun a s' => Q1 a s' /\ Q2 a s') s.
Proof. unfold wp. by destruct (m s) as [[]|]. Qed.

(** ** The calls of a row *)

Section Calls.
Variables (b r T g k0 : Z) (items : list item) (t0 : SwaTempLoopInfo).
Hypothesis Hb : 0 <= b < n.
Hypothesis HT : t_s2LoopTimes t0 = T.
Hypothesis Htail : t_mBasicSizeTail t0 = c_gSize c \/ T = 0.
Hypothesis T_nonneg : 0 <= T.
(** The row is visible, or there is nothing to do. *)
Hypothesis visible : 0 < T -> 0 <= r < s1 b /\ 0 <= swa_last (s1 b) (s2 b) r /\ T = swa_times (is_cfa c) (c_cmpRatio c) (s1 b) (s2 b) r /\
  row_ready c b (s1 b) (s2 b) (pre b) r t0.
Hypothesis Hk : 0 <= k0 /\ k0 + T + 5 < 2 ^ 32.

Abbreviation blk := (swa_block (is_cfa c) (c_cmpRatio c) b (s1 b) (s2 b) (row_out c (pre b) r) r).

(** Before call [j]. *)
Record calls_at (j : Z) (s : SwaState) : Prop := {
  cs_infos : exists infos drain, pipe_at g (k0 + j) (items ++ map Call infos ++ map Call drain) s /\
    map block_of infos = map blk (zrange 0 (Z.min j T)) /\ Forall (fun i => ri_isValid i = true) infos /\
    Forall (fun i => ri_isValid i = false) drain /\ Z.of_nat (length drain) = j - Z.min j T;
  cs_temp : keeps t0 (tempLoopInfo s);
  cs_out : 0 < j -> 0 < T -> j <= T -> tensorACoreOffset s = row_out c (pre b) r }.

Lemma calc_call j s : 0 <= j < T + 2 -> constInfo s = { c with c_gS1Start := g } ->
  keeps t0 (tempLoopInfo s) -> (0 < j -> 0 < T -> j <= T -> tensorACoreOffset s = row_out c (pre b) r) ->
  forall old, wp (CalcParams e (k0 + j) 0 0 j old) (fun i s' => calc_frame s s' /\ (ri_isValid i = true -> ri_actMBaseSize i = c_gSize c) /\
    keeps t0 (tempLoopInfo s') /\ ri_isValid i = (j <? T) /\
    (0 < T -> j < T -> block_of i = blk j /\ tensorACoreOffset s' = row_out c (pre b) r)) s.
Proof.
  intros Hj Hc Ht Ha old. pose proof (sp_gSize c P).
  assert (forall s', calc_frame s s' -> keeps t0 (tempLoopInfo s')) as Hkeep.
  { intros s' (_ & _ & _ & _ & _ & x & ->). destruct Ht as [y ->]. by exists x. }
  assert (t_s2LoopTimes (tempLoopInfo s) = T) as HT' by (by destruct Ht as [y ->]).
  assert (t_mBasicSizeTail (tempLoopInfo s) = c_gSize c \/ T = 0) as Htl by (by destruct Ht as [y ->]).
  destruct (decide (j < T)) as [Hlt|Hge].
  - destruct (visible ltac:(lia)) as (Hr & HR & HTt & RR). eapply wp_mono.
    { apply wp_both; [apply (CalcParams_frame e (k0 + j) j old s)|].
      apply (CalcParams_block e (k0 + j) j old s b (s1 b) (s2 b) (pre b) r); rewrite ?Hc; try done.
      - by constructor; destruct P.
      - pose proof (in_s1 _ _ _ _ _ _ I b Hb). lia.
      - apply (in_s2 _ _ _ _ _ _ I b Hb).
      - pose proof (in_pre _ _ _ _ _ _ I b Hb). lia.
      - destruct (keeps_ready _ _ _ _ _ t0 _ RR Ht). by constructor.
      - change (is_cfa { c with c_gS1Start := g }) with (is_cfa c). simpl. lia.
      - intros Hj0. apply Ha; lia. }
    intros i s' [(F & _ & Hv & Hm & _) [Hblk Ha']]. split; [done|]. split; [intros _; rewrite Hm; destruct Htl as [-> | ->]; [unwrapk; done|lia]|].
    split; [by apply Hkeep|]. split; [by rewrite Hv, HT'|]. by rewrite Hc in Hblk, Ha'.
  - eapply wp_mono; [apply (CalcParams_frame e (k0 + j) j old s)|]. intros i s' (F & _ & Hv & Hm & _). rewrite Hv, HT'.
    split; [done|]. split; [intros H'; bool_prop; lia|]. split; [by apply Hkeep|]. split; [done|]. lia.
Qed.

Lemma calls_spec hi s : hi = T \/ hi = T + 2 -> pipe_at g k0 items s -> keeps t0 (tempLoopInfo s) ->
  wp (for_range 0 hi pipe_call) (fun _ s' => calls_at hi s') s.
Proof.
  intros Hhi Hs Ht. apply (wp_for_range calls_at); [lia| | |done].
  - constructor; [|done|lia]. exists [], []. simpl. rewrite Z.add_0_r, Z.min_l, zrange_nil, app_nil_r by lia. by split_and!.
  - intros j s' Hj [(infos & drain & Hp & Hb1 & Hv & Hd & Hlen) Hkeep Hout]. eapply wp_mono.
    { apply (pipe_call_spec g (k0 + j) _ j s' (fun i t a => keeps t0 t /\ ri_isValid i = (j <? T) /\
        (0 < T -> j < T -> block_of i = blk j /\ a = row_out c (pre b) r)) ltac:(lia) ltac:(lia) Hp).
      apply calc_call; [lia|apply Hp|done|done]. }
    intros _ s2' (i & (Hkeep' & Hval & Hblk) & Hp'). destruct (decide (j < T)) as [Hlt|Hge].
    + assert (drain = []) as -> by (destruct drain; [done|simpl in Hlen; lia]). destruct (Hblk ltac:(lia) Hlt) as [Hbi Ha'].
      constructor; [|done|done]. exists (infos ++ [i]), []. rewrite map_app. simpl in *. rewrite app_nil_r in *.
      split; [by rewrite Z.add_assoc, app_assoc|]. rewrite !Z.min_l in * by lia. rewrite zrange_snoc, !map_app, Hb1 by lia. simpl. rewrite Hbi.
      split; [done|]. split; [|split; [done|lia]]. apply Forall_app. split; [done|]. constructor; [|done]. rewrite Hval. by apply Z.ltb_lt.
    + constructor; [|done|lia]. exists infos, (drain ++ [i]). rewrite map_app. simpl. rewrite !Z.min_r in * by lia.
      split; [by rewrite Z.add_assoc, !app_assoc in *|]. split; [done|]. split; [done|]. rewrite length_app. simpl. split; [|lia].
      apply Forall_app. split; [done|]. constructor; [|done]. rewrite Hval. apply Z.ltb_ge. lia.
Qed.
End Calls.

(** ** The loop information of a row *)

(** A visible row, after its position is computed: one block of the window and
    the blocks of the compressed tokens. *)
Lemma split_visible b r t1 : 0 <= b < n -> 0 <= r < s1 b -> 0 <= swa_last (s1 b) (s2 b) r ->
  batch_at b t1 -> t_actOriS2Size t1 = s2 b -> let t := row_temp c r t1 in
  t_curActSeqLenIsZero t = false /\ exists t2, split_nums c t = (1, swa_times (is_cfa c) (c_cmpRatio c) (s1 b) (s2 b) r, t2) /\ batch_at b t2 /\
    forall d k, let t0 := { t2 with t_s2LoopTimes := swa_times (is_cfa c) (c_cmpRatio c) (s1 b) (s2 b) r; t_oriLoopTimes := 1;
                                    t_tndIsS2SplitCore := d; t_tndCoreStartKVSplitPos := k } in
      row_ready c b (s1 b) (s2 b) (pre b) r t0 /\ t_mBasicSizeTail t0 = c_gSize c.
Proof.
  intros Hb Hr HR [B1 B2 B3 B4] Hs2 t. pose proof (in_s1 _ _ _ _ _ _ I b Hb). pose proof (in_s2 _ _ _ _ _ _ I b Hb).
  destruct (row_temp_visible c P (s1 b) (s2 b) r ltac:(lia) ltac:(lia) Hr t1 B3 Hs2 HR) as (cmr & cmp & Ht & Hcfa).
  pose proof (swa_cmp_range c P (s1 b) (s2 b) r ltac:(lia) Hr HR) as HC. pose proof (swa_times_range c P (s1 b) (s2 b) r ltac:(lia) Hr HR) as HT.
  subst t. rewrite Ht. set (last := swa_last (s1 b) (s2 b) r) in *. split; [done|]. unfold split_nums. cbn [t_curActSeqLenIsZero].
  assert (last < 2 ^ 30) by (unfold last, swa_last; lia).
  assert (u32 (i32 (SasCeilDiv u32 (i32 (i32 (last - Z.max 0 (last - 127)) + 1)) (c_s2BaseSize c))) = 1) as Hori.
  { rewrite (sp_s2BaseSize c P). unwrapk. rewrite SasCeilDiv_spec by first [lia|unwrapk; lia].
    assert (ceil_div (last - Z.max 0 (last - 127) + 1) 512 = 1) as -> by (unfold ceil_div; zlia). done. }
  simpl. rewrite Hori. fold (is_cfa c). destruct (is_cfa c) eqn:E.
  - destruct (Hcfa eq_refl) as [_ Hcmp]. rewrite (sp_s2BaseSize c P).
    assert (u32 (1 + u32 (i32 (SasCeilDiv u32 cmp 512))) = swa_times true (c_cmpRatio c) (s1 b) (s2 b) r) as Htimes.
    { rewrite Hcmp. unfold swa_times in *. rewrite SasCeilDiv_spec by first [lia|unwrapk; lia]. unwrapk. done. }
    rewrite Htimes. eexists. split; [done|]. split; [by constructor|]. intros d k. split; [|done]. constructor; try done; by rewrite E.
  - assert (swa_times false (c_cmpRatio c) (s1 b) (s2 b) r = 1) as Htimes by (unfold swa_times, swa_cmp; rewrite ceil_div_0; lia).
    rewrite Htimes. eexists. split; [done|]. split; [by constructor|]. intros d k. split; [|done]. constructor; try done; rewrite E; done.
Qed.

(** ** The blocks of a row *)

Hypothesis s2Start_0 : c_s2Start c = 0.
Hypothesis s2End_0 : c_s2End c = 0.

(** The items a row adds: its blocks, and the two empty calls at the end of the share. *)
Definition row_calls (T : Z) (blk : Z -> Block) (isEnd : bool) (infos drain : list RunInfo) : Prop :=
  map block_of infos = map blk (zrange 0 T) /\ Forall (fun i => ri_isValid i = true) infos /\
  Forall (fun i => ri_isValid i = false) drain /\ length drain = (if isEnd then 2 else 0)%nat.

Lemma row_blocks_spec b r T g k0 items isEnd s ori t2 : 0 <= b < n -> pipe_at g k0 items s ->
  split_nums c (tempLoopInfo s) = (ori, T, t2) -> batch_at b t2 -> 0 <= T ->
  (forall d k, let t0 := { t2 with t_s2LoopTimes := T; t_oriLoopTimes := ori; t_tndIsS2SplitCore := d; t_tndCoreStartKVSplitPos := k } in
     (t_mBasicSizeTail t0 = c_gSize c \/ T = 0) /\
     (0 < T -> 0 <= r < s1 b /\ 0 <= swa_last (s1 b) (s2 b) r /\ T = swa_times (is_cfa c) (c_cmpRatio c) (s1 b) (s2 b) r /\
       row_ready c b (s1 b) (s2 b) (pre b) r t0)) ->
  0 <= k0 /\ k0 + T + 5 < 2 ^ 32 ->
  wp (row_blocks e isEnd) (fun _ s' => batch_at b (tempLoopInfo s') /\ exists infos drain,
    pipe_at g (k0 + T + if isEnd then 2 else 0) (items ++ map Call infos ++ map Call drain) s' /\
    row_calls T (swa_block (is_cfa c) (c_cmpRatio c) b (s1 b) (s2 b) (row_out c (pre b) r) r) isEnd infos drain) s.
Proof.
  intros Hb Hp Hsplit Hbt HT Hrow Hk. unfold row_blocks. do 2 (apply wp_bind, wp_gets). pose proof (pa_const _ _ _ _ Hp) as Hc. rewrite Hc.
  change (split_nums { c with c_gS1Start := g } (tempLoopInfo s)) with (split_nums c (tempLoopInfo s)). rewrite Hsplit. simpl.
  rewrite s2Start_0, s2End_0. rewrite andb_false_r. apply wp_bind, wp_gets. apply wp_bind, wp_modify.
  match goal with |- context [{ s with tempLoopInfo := ?t }] => set (t0 := t) end.
  assert (u32 (T + (if isEnd then PRELOAD_NUM else 0)) = T + (if isEnd then 2 else 0)) as ->
    by (unfold PRELOAD_NUM; destruct isEnd; unwrapk; done).
  assert ((t_mBasicSizeTail t0 = c_gSize c \/ T = 0) /\
     (0 < T -> 0 <= r < s1 b /\ 0 <= swa_last (s1 b) (s2 b) r /\ T = swa_times (is_cfa c) (c_cmpRatio c) (s1 b) (s2 b) r /\
       row_ready c b (s1 b) (s2 b) (pre b) r t0)) as [Htail Hvis] by apply Hrow.
  apply wp_bind. eapply wp_mono.
  { apply (calls_spec b r T g k0 items t0 Hb eq_refl Htail HT Hvis Hk (T + if isEnd then 2 else 0)); [destruct isEnd; lia| |].
    - by destruct Hp.
    - exists (t_bn2IdxInCurCore t0). done. }
  intros _ s' [(infos & drain & Hp' & Hblk & Hv & Hd & Hlen) Hkeep _]. apply wp_bind, wp_modify, wp_modify. simpl. split.
  - apply (keeps_batch b t0); [|done]. by destruct Hbt.
  - exists infos, drain. split.
    + destruct Hp' as [Q1 Q2 Q3 Q4]. constructor; simpl; [|done|by rewrite <- Z.add_assoc|by rewrite <- Z.add_assoc].
      rewrite Q1. by destruct c; simpl in *; subst.
    + unfold row_calls. rewrite Z.min_r in Hblk, Hlen by (destruct isEnd; lia). split_and!; try done. destruct isEnd; lia.
Qed.

(** ** Empty rows *)

Section Offsets.
Variables b r : Z.
Hypothesis Hb : 0 <= b < n.
Hypothesis Hr : 0 <= r <= s1 b.

Lemma out_range : 0 <= pre b * c_gSize c <= 2 ^ 38 /\ 0 <= r * c_gSize c <= 2 ^ 32 /\ 0 <= (pre b + r) * c_gSize c <= 2 ^ 39.
Proof.
  pose proof (in_s1 _ _ _ _ _ _ I b Hb). pose proof (in_pre _ _ _ _ _ _ I b Hb). pose proof (sp_gSize c P). nia.
Qed.

Lemma tnd_offsets : tnd_out c (u32 (pre b)) r 0 = row_out c (pre b) r /\ tnd_lse c (u32 (pre b)) r 0 = (pre b + r) * c_gSize c.
Proof.
  pose proof (in_s1 _ _ _ _ _ _ I b Hb). pose proof (in_pre _ _ _ _ _ _ I b Hb). pose proof out_range as (O1 & O2 & O3).
  unfold tnd_out, tnd_lse, row_out, swa_kvHeadNum, swa_headDim. rewrite !Z.mul_0_l, !Z.mul_1_r. change (u64 (u64 0 * 512)) with 0.
  change (u64 (u64 0 * c_gSize c)) with 0. unwrapk. lia.
Qed.

Lemma bsnd_offsets : c_kvHeadNum c = 1 -> pre b = b * c_qSeqSize c ->
  bsnd_out c b r 0 = row_out c (pre b) r /\ bsnd_lse c b r 0 = (pre b + r) * c_gSize c.
Proof.
  intros Hkv Hpre. pose proof (in_s1 _ _ _ _ _ _ I b Hb). pose proof (in_pre _ _ _ _ _ _ I b Hb). pose proof out_range as (O1 & O2 & O3).
  unfold bsnd_out, bsnd_lse, row_out, swa_kvHeadNum, swa_headDim. rewrite Hkv, !Z.mul_0_l, !Z.mul_1_r, <- Hpre. change (u64 (u64 0 * 512)) with 0.
  change (u64 (u64 0 * c_gSize c)) with 0. unwrapk. lia.
Qed.

Lemma init_zero_spec g s (Q : unit -> SwaState -> Prop) : Q tt (adds s (clear_ops b r)) ->
  wp (init_zero { c with c_gS1Start := g } (row_out c (pre b) r) ((pre b + r) * c_gSize c)) Q s.
Proof.
  intros HQ. pose proof (sp_gSize c P). unfold init_zero, clear_ops, swa_headDim in *. simpl. rewrite u64_small by lia.
  apply wp_bind, wp_issue. destruct (c_returnSoftmaxLse c); cbn [when].
  - apply wp_issue. by rewrite adds_adds.
  - by apply wp_ret.
Qed.

Lemma InitAllZeroOutput_spec g s (Q : unit -> SwaState -> Prop) : constInfo s = { c with c_gS1Start := g } -> t_actS1Size (tempLoopInfo s) = s1 b ->
  Q tt (adds s (if bool_decide (LAYOUT_T e <> TND) || negb (s1 b =? 0) then clear_ops b r else [])) ->
  wp (InitAllZeroOutput e b r 0) Q s.
Proof.
  intros Hc Hs1 HQ. unfold InitAllZeroOutput. do 2 (apply wp_bind, wp_gets). rewrite Hc, Hs1.
  change (c_outputLayout { c with c_gS1Start := g }) with (c_outputLayout c). rewrite (in_layout _ _ _ _ _ _ I). destruct (decide (LAYOUT_T e = TND)) as [HL|HL].
  - rewrite HL. rewrite bool_decide_false in HQ by naive_solver. destruct (s1 b =? 0); cbn [negb orb] in HQ; [by apply wp_ret; rewrite adds_nil in HQ|].
    apply wp_bind. unfold fetch, wp. rewrite (in_tnd _ _ _ _ _ _ I b HL Hb). destruct tnd_offsets as [H1 H2].
    change (tnd_out { c with c_gS1Start := g }) with (tnd_out c). change (tnd_lse { c with c_gS1Start := g }) with (tnd_lse c). rewrite H1, H2.
    by apply init_zero_spec.
  - destruct (in_bsnd _ _ _ _ _ _ I b HL Hb) as (HB & Hpre & _). rewrite HB. rewrite bool_decide_true in HQ by done. cbn [orb] in HQ.
    destruct (bsnd_offsets (sp_kvHeadNum c P) Hpre) as [H1 H2].
    change (bsnd_out { c with c_gS1Start := g }) with (bsnd_out c). change (bsnd_lse { c with c_gS1Start := g }) with (bsnd_lse c). rewrite H1, H2.
    by apply init_zero_spec.
Qed.
End Offsets.

(** ** A row *)

(** The numbers of items. *)
Definition n_blocks (rows : list (Z * Z)) : Z := Z.of_nat (length (flat_map blocks_of rows)).

Lemma omap_calls infos : Forall (fun i => ri_isValid i = true) infos -> omap item_block (map Call infos) = map block_of infos.
Proof. induction 1 as [|i l Hi _ IH]; [done|]. simpl. rewrite Hi. by f_equal. Qed.

Lemma items_visible b r infos : row_sees b r = true -> Forall (fun i => ri_isValid i = true) infos ->
  map block_of infos = swa_blocks (is_cfa c) (c_cmpRatio c) b (s1 b) (s2 b) (row_out c (pre b) r) r -> items_of [(b, r)] (map Call infos).
Proof.
  intros Hs Hv Hb. unfold items_of, blocks_of, zeros_of. simpl. rewrite Hs, omap_calls, app_nil_r, andb_false_r by done. simpl.
  split; [done|]. split; [by clear; induction infos|]. rewrite Forall_map. by eapply Forall_impl.
Qed.

Lemma items_empty b r : row_sees b r = false -> items_of [(b, r)] [Zero (zeros_of (b, r))].
Proof. intros Hs. unfold items_of, blocks_of. simpl. rewrite Hs. simpl. split; [done|]. split; [done|]. by repeat constructor. Qed.

(** What the calculations of a row leave alone. *)
Lemma row_position_frame r t : let t' := row_position c r t in t_bIdx t' = t_bIdx t /\ t_n2Idx t' = t_n2Idx t /\ t_actS1Size t' = t_actS1Size t /\
  t_actualSeqQPrefixSum t' = t_actualSeqQPrefixSum t /\ t_s1StartIdx t' = u32 (u32 (r * c_mBaseSize c) /c c_gSize c).
Proof. unfold row_position. cbv zeta. by destruct (c_templateMode c =? CFA_TEMPLATE). Qed.

Lemma GetSparse_frame t : let t' := GetSparseActualSeqLen c t in t_bIdx t' = t_bIdx t /\ t_n2Idx t' = t_n2Idx t /\ t_actS1Size t' = t_actS1Size t /\
  t_actualSeqQPrefixSum t' = t_actualSeqQPrefixSum t /\ t_s1StartIdx t' = t_s1StartIdx t.
Proof. unfold GetSparseActualSeqLen. cbv zeta. destruct (_ <? _); [done|]. by destruct (c_templateMode c =? CFA_TEMPLATE). Qed.

Lemma UpdateInner_none t : t_actS1Size t = 0 -> UpdateInnerLoopCond c t = { t with t_curActSeqLenIsZero := true }.
Proof. intros Hz. unfold UpdateInnerLoopCond. by rewrite Hz, orb_true_r. Qed.

(** Empty rows. *)
Lemma row_temp_empty b r t : 0 <= b < n -> (0 <= r < s1 b \/ (s1 b = 0 /\ r = 0)) -> batch_at b t -> t_actOriS2Size t = s2 b -> row_sees b r = false ->
  let t' := row_temp c r t in t_curActSeqLenIsZero t' = true /\ batch_at b t' /\ t_s1StartIdx t' = r.
Proof.
  intros Hb Hr [B1 B2 B3 B4] H2 Hs t'. pose proof (in_s1 _ _ _ _ _ _ I b Hb). pose proof (in_s2 _ _ _ _ _ _ I b Hb). pose proof (sp_gSize c P).
  destruct Hr as [Hr|[Hz ->]].
  - assert (swa_last (s1 b) (s2 b) r < 0) as HR.
    { unfold row_sees in Hs. rewrite (proj2 (Z.ltb_lt r (s1 b))) in Hs by lia. cbn [andb] in Hs. bool_prop. lia. }
    destruct (row_temp_zero c P (s1 b) (s2 b) r ltac:(lia) ltac:(lia) Hr t B3 H2 HR) as (Z1 & Z2 & Z3 & Z4 & Z5 & Z6).
    split; [done|]. split; [|done]. constructor; unfold t'; congruence.
  - destruct (row_position_frame 0 t) as (F1 & F2 & F3 & F4 & F5). destruct (GetSparse_frame (row_position c 0 t)) as (G1 & G2 & G3 & G4 & G5).
    subst t'. unfold row_temp. rewrite UpdateInner_none by congruence. simpl. split; [done|]. split; [constructor; simpl; congruence|].
    rewrite G5, F5, (sp_mBaseSize c P), Z.mul_0_l. change (u32 0) with 0. by rewrite Z.quot_0_l by lia.
Qed.

Lemma zero_item g k items ops s : pipe_at g k items s -> pipe_at g k (items ++ [Zero ops]) (adds s ops).
Proof.
  intros [H1 H2 H3 H4]. constructor; simpl; [done| |by rewrite pipe_end_app|done]. rewrite pipe_app, H2. simpl. by rewrite app_nil_r.
Qed.

(** The output of an empty row is cleared. *)
Lemma clear_row b r g s t (Q : unit -> SwaState -> Prop) : 0 <= b < n -> (0 <= r < s1 b \/ (s1 b = 0 /\ r = 0)) -> row_sees b r = false ->
  constInfo s = { c with c_gS1Start := g } -> tempLoopInfo s = t -> batch_at b t -> t_s1StartIdx t = r -> Q tt (adds s (zeros_of (b, r))) ->
  wp (when (e_isAIV e) (InitAllZeroOutput e (t_bIdx t) (t_s1StartIdx t) (t_n2Idx t))) Q s.
Proof.
  intros Hb Hr Hs Hc Ht [B1 B2 B3 B4] Hst HQ. unfold zeros_of in HQ. cbn [fst snd] in HQ. rewrite Hs in HQ. rewrite B1, B2, Hst.
  destruct (e_isAIV e) eqn:E; cbn [when andb negb] in *; [|apply wp_ret; by rewrite adds_nil in HQ].
  apply (InitAllZeroOutput_spec b r Hb ltac:(lia) g); [done|by rewrite Ht|done].
Qed.

Lemma swa_row_spec b r gEnd g k0 items s : 0 <= b < n -> (0 <= r < s1 b \/ (s1 b = 0 /\ r = 0)) -> pipe_at g k0 items s ->
  batch_at b (tempLoopInfo s) -> 0 <= k0 -> k0 + n_blocks [(b, r)] + 5 < 2 ^ 32 ->
  let isEnd := (u32 (b + 1) =? c_bN2End c) && (u32 (r + 1) =? gEnd) in
  wp (swa_row e b gEnd r) (fun _ s' => batch_at b (tempLoopInfo s') /\ exists its drain,
    pipe_at g (k0 + n_blocks [(b, r)] + if isEnd then 2 else 0) (items ++ its ++ map Call drain) s' /\ items_of [(b, r)] its /\
    Forall (fun i => ri_isValid i = false) drain /\ length drain = (if isEnd then 2 else 0)%nat) s.
Proof.
  intros Hb Hr Hp Hbt Hk0 Hk isEnd. unfold swa_row. do 2 (apply wp_bind, wp_gets). pose proof (pa_const _ _ _ _ Hp) as Hc. rewrite Hc, (ba_bIdx _ _ Hbt).
  destruct (in_kv _ _ _ _ _ _ I b (tempLoopInfo s) Hb) as (x & y & Hkv). apply wp_bind. unfold fetch at 1. unfold wp at 1.
  change (GetActualSeqLenKV e { c with c_gS1Start := g }) with (GetActualSeqLenKV e c). rewrite Hkv. apply wp_bind, wp_modify. cbv zeta. cbn [fst snd].
  set (t1 := ({ { tempLoopInfo s with t_actualSeqKVPrefixSum := x; t_actualSeqCmpKVPrefixSum := y } with t_actOriS2Size := s2 b })).
  change (UpdateInnerLoopCond { c with c_gS1Start := g } _) with (row_temp c r t1).
  change (c_bN2End { c with c_gS1Start := g }) with (c_bN2End c). fold isEnd.
  assert (batch_at b t1) as Hbt1 by (destruct Hbt; by constructor). assert (pipe_at g k0 items { s with tempLoopInfo := row_temp c r t1 }) as Hp1 by (by destruct Hp).
  destruct (row_sees b r) eqn:Hs.
  - pose proof Hs as Hs'. unfold row_sees in Hs'. bool_prop. assert (0 <= r < s1 b) as Hr' by lia.
    destruct (split_visible b r t1 Hb Hr' ltac:(lia) Hbt1 eq_refl) as (Hz & t2 & Hsplit & Hbt2 & Hrow). rewrite Hz.
    pose proof (swa_times_range c P (s1 b) (s2 b) r (in_s2 _ _ _ _ _ _ I b Hb) Hr' ltac:(lia)) as HT.
    set (T := swa_times (is_cfa c) (c_cmpRatio c) (s1 b) (s2 b) r) in *.
    assert (swa_blocks (is_cfa c) (c_cmpRatio c) b (s1 b) (s2 b) (row_out c (pre b) r) r =
      map (swa_block (is_cfa c) (c_cmpRatio c) b (s1 b) (s2 b) (row_out c (pre b) r) r) (zrange 0 T)) as Hblk.
    { unfold swa_blocks. rewrite (proj2 (Z.ltb_ge _ 0)) by lia. done. }
    assert (n_blocks [(b, r)] = T) as HnT.
    { unfold n_blocks, blocks_of. simpl. rewrite Hs, app_nil_r, Hblk, length_map. unfold zrange. rewrite length_seqZ. lia. }
    rewrite HnT in *. eapply wp_mono.
    { apply (row_blocks_spec b r T g k0 items isEnd _ 1 t2 Hb Hp1 Hsplit Hbt2 ltac:(lia)); [|lia].
      intros d k. destruct (Hrow d k) as [Hrr Htl]. split; [by left|]. intros _. split_and!; try done; lia. }
    intros _ s' (Hbt' & infos & drain & Hp' & Hbk & Hv & Hd & Hl). split; [done|]. exists (map Call infos), drain. split; [done|].
    split; [|done]. apply items_visible; [done..|]. by rewrite Hblk.
  - destruct (row_temp_empty b r t1 Hb Hr Hbt1 eq_refl Hs) as (Hz & Hbt' & Hst). rewrite Hz.
    assert (n_blocks [(b, r)] = 0) as Hn0 by (unfold n_blocks, blocks_of; simpl; by rewrite Hs). rewrite Hn0, Z.add_0_r in *.
    apply wp_bind. eapply (clear_row b r g _ (row_temp c r t1)); [done..|]. apply (zero_item _ _ _ (zeros_of (b, r))) in Hp1.
    pose proof (items_empty b r Hs) as Hit. destruct isEnd; cbn [when].
    + eapply wp_mono.
      { apply (row_blocks_spec b r 0 g k0 _ true _ 0 (row_temp c r t1) Hb Hp1); [unfold split_nums; simpl; by rewrite Hz|done|lia| |lia].
        intros d k. split; [by right|lia]. }
      intros _ s' (Hbt2 & infos & drain & Hp' & Hbk & _ & Hd & Hl). split; [done|]. rewrite zrange_nil in Hbk by lia. destruct infos; [|done].
      exists [Zero (zeros_of (b, r))], drain. rewrite Z.add_0_r, <- app_assoc in Hp'. done.
    + apply wp_ret. split; [done|]. exists [Zero (zeros_of (b, r))], []. rewrite Z.add_0_r. done.
Qed.
End Rows.
