(* ===== verification/SasSwaCore.v ===== *)
(** What a core issues for a share [p, q) of the rows: every block of every row of
    the share passes each stage of the core's side exactly once and in order, and
    the pipeline is empty at the end. *)

From S2P Require Import Prelude AscendC TilingContext Aicpu SasMetaOut SasSpec SasCostLemmas SasSwa SasSwaSpec SasSwaLemmas SasSwaRows.

(** ** The loops over batches and rows of [ProcessBalance] *)

Section Share.
Variable e : SwaEnv.
Variable c : SwaConst.
Hypothesis P : swa_params c.
Variable n : Z.
Variables s1 s2 pre : Z -> Z.
Hypothesis I : swa_input e c n s1 s2 pre.
Hypothesis s2Start_0 : c_s2Start c = 0.
Hypothesis s2End_0 : c_s2End c = 0.

Abbreviation bS := (c_bN2Start c).
Abbreviation bE := (c_bN2End c).
Abbreviation gS := (c_gS1Start c).
Abbreviation gE := (c_gS1End c).

(** The rows of batch [b] that the loop visits; a batch without queries may be
    visited once, to clear its output or to empty the pipeline. *)
Definition row_lo (b : Z) : Z := if b =? bS then gS else 0.
Definition row_hi (b : Z) : Z := if (b =? bE - 1) && negb (gE =? 0) then gE else s1 b.
Definition visits_none (b : Z) : bool := (s1 b =? 0) && (bool_decide (c_outputLayout c = BSND) || (b =? bE - 1)).
Definition row_top (b : Z) : Z := if visits_none b then row_hi b + 1 else row_hi b.
Definition visited (b : Z) : list (Z * Z) := map (pair b) (zrange (row_lo b) (row_top b)).

(** A share as the metadata describe it: inside the rows, and not empty at its end. *)
Record share_wf : Prop := {
  sw_batches : 0 <= bS /\ bS <= bE /\ bE <= n;
  sw_start : bS < bE -> 0 <= gS /\ (gS < s1 bS \/ gS = 0);
  sw_end : bS < bE -> 0 <= gE <= s1 (bE - 1);
  sw_last : bS < bE -> row_lo (bE - 1) < row_top (bE - 1) }.
Hypothesis W : share_wf.

Abbreviation count := (n_blocks c s1 s2 pre).
Abbreviation items_for := (items_of e c s1 s2 pre).

Lemma count_app l l' : count (l ++ l') = count l + count l'.
Proof. unfold n_blocks. rewrite flat_map_app, length_app. lia. Qed.

Lemma count_cons p l : count (p :: l) = count [p] + count l.
Proof. apply (count_app [p] l). Qed.

Lemma count_nonneg l : 0 <= count l.
Proof. unfold n_blocks. lia. Qed.

Lemma row_top_range b : bS <= b < bE -> 0 <= row_lo b <= row_top b /\ row_top b <= s1 b + 1 /\
  forall r, row_lo b <= r < row_top b -> 0 <= r < s1 b \/ (s1 b = 0 /\ r = 0).
Proof.
  intros Hb. destruct W as [Hbs Hst He Hl]. pose proof (in_s1 _ _ _ _ _ _ I b ltac:(lia)) as Hs1. specialize (Hst ltac:(lia)). specialize (He ltac:(lia)).
  specialize (Hl ltac:(lia)). assert (0 <= row_hi b <= s1 b) as Hhi.
  { unfold row_hi. destruct (b =? bE - 1) eqn:E; bool_prop; cbn [andb]; [subst b; case_if; lia|lia]. }
  assert (row_top b = row_hi b \/ (s1 b = 0 /\ row_top b = row_hi b + 1)) as Htop.
  { unfold row_top, visits_none. destruct (s1 b =? 0) eqn:E; bool_prop; cbn [andb]; [case_if; lia|by left]. }
  assert (0 <= row_lo b <= row_top b) as Hlo.
  { destruct (decide (b = bE - 1)) as [->|Hne]; [unfold row_lo in *; case_if; lia|].
    assert (row_hi b = s1 b) as Hh by (unfold row_hi; rewrite (proj2 (Z.eqb_neq b (bE - 1))) by lia; done).
    unfold row_lo. destruct (b =? bS) eqn:E; bool_prop; [subst b|]; lia. }
  split; [done|]. split; [lia|]. intros r Hr. lia.
Qed.

(** ** The rows of a batch *)

(** Before row [r] of batch [b]. *)
Definition rows_at (b g k : Z) (items : list item) (r : Z) (s : SwaState) : Prop :=
  batch_at s1 pre b (tempLoopInfo s) /\ exists its drain,
    let rows := map (pair b) (zrange (row_lo b) r) in
    let ended := (b =? bE - 1) && (r =? row_top b) in
    pipe_at e c g (k + count rows + if ended then 2 else 0) (items ++ its ++ map Call drain) s /\ items_for rows its /\
    Forall (fun i => ri_isValid i = false) drain /\ length drain = (if ended then 2 else 0)%nat.

Lemma rows_spec b g k items s : bS <= b < bE -> pipe_at e c g k items s -> batch_at s1 pre b (tempLoopInfo s) -> 0 <= k ->
  k + count (visited b) + 5 < 2 ^ 32 -> (b = bE - 1 -> row_lo b < row_top b) ->
  wp (for_range (row_lo b) (row_top b) (swa_row e b (row_top b))) (fun _ s' => rows_at b g k items (row_top b) s') s.
Proof.
  intros Hb Hp Hbt Hk0 Hk Hlast. destruct (row_top_range b Hb) as (Hlo & Hhi & Hrow). pose proof (in_n _ _ _ _ _ _ I). destruct W as [Hbs _ _ _].
  pose proof (in_s1 _ _ _ _ _ _ I b ltac:(lia)) as Hs1.
  apply (wp_for_range (rows_at b g k items)); [lia| | |done].
  - split; [done|]. exists [], []. rewrite zrange_nil by lia.
    assert ((b =? bE - 1) && (row_lo b =? row_top b) = false) as ->.
    { destruct (b =? bE - 1) eqn:E; bool_prop; [|done]. apply Z.eqb_neq. specialize (Hlast E). lia. }
    simpl. rewrite app_nil_r. unfold n_blocks. simpl. rewrite !Z.add_0_r. split; [done|]. by repeat split.
  - intros r s' Hr (Hbt' & its & drain & Hp' & Hits & _ & Hl). assert ((b =? bE - 1) && (r =? row_top b) = false) as Hne.
    { rewrite (proj2 (Z.eqb_neq r (row_top b))) by lia. apply andb_false_r. }
    rewrite Hne in Hp', Hl. destruct drain; [|done]. simpl in Hp'. rewrite app_nil_r, Z.add_0_r in Hp'.
    assert (count (visited b) = count (map (pair b) (zrange (row_lo b) r)) + count [(b, r)] + count (map (pair b) (zrange (r + 1) (row_top b)))) as Hcount.
    { unfold visited. rewrite (zrange_split (row_lo b) r (row_top b)), (zrange_cons r (row_top b)), map_app by lia.
      rewrite count_app, map_cons, count_cons. lia. }
    pose proof (count_nonneg (map (pair b) (zrange (r + 1) (row_top b)))). pose proof (count_nonneg (map (pair b) (zrange (row_lo b) r))).
    eapply wp_mono; [apply (swa_row_spec e c P n s1 s2 pre I s2Start_0 s2End_0 b r (row_top b) _ _ _ s' ltac:(lia) (Hrow r ltac:(lia)) Hp' Hbt'); lia|].
    intros _ s2' (Hbt2 & its' & drain & Hp2 & Hits' & Hd & Hld). split; [done|].
    rewrite (u32_small (b + 1)), (u32_small (r + 1)) in * by lia. exists (its ++ its'), drain. cbv zeta. rewrite zrange_snoc, map_app, count_app by lia.
    assert (((b + 1 =? bE) && (r + 1 =? row_top b)) = ((b =? bE - 1) && (r + 1 =? row_top b))) as Hend.
    { f_equal. destruct (b + 1 =? bE) eqn:E1, (b =? bE - 1) eqn:E2; bool_prop; try done; lia. }
    rewrite <- Hend. split; [|split; [by apply items_of_app|done]]. rewrite Z.add_assoc, <- !app_assoc in *. done.
Qed.

(** ** The batches *)

(** The end of the loop over the rows, as the code computes it. *)
Lemma row_end b : bS <= b < bE ->
  (let num := u32 (SasCeilDiv u64 (u64 (s1 b * c_gSize c)) (c_mBaseSize c)) in
   let last := if (b =? u32 (bE - 1)) && negb (gE =? 0) then gE else num in
   if (s1 b =? 0) && (bool_decide (c_outputLayout c = BSND) || (u32 (b + 1) =? bE)) then u32 (last + 1) else last) = row_top b.
Proof.
  intros Hb. destruct W as [Hbs Hst He _]. pose proof (in_n _ _ _ _ _ _ I). pose proof (in_s1 _ _ _ _ _ _ I b ltac:(lia)). pose proof (sp_gSize c P).
  specialize (He ltac:(lia)). pose proof (in_s1 _ _ _ _ _ _ I (bE - 1) ltac:(lia)). rewrite (sp_mBaseSize c P). assert (0 <= s1 b * c_gSize c < 2 ^ 32) by nia.
  rewrite (u64_small (s1 b * c_gSize c)), SasCeilDiv_spec by first [lia|unwrapk; lia].
  assert (ceil_div (s1 b * c_gSize c) (c_gSize c) = s1 b) as ->.
  { unfold ceil_div. symmetry. apply (Z.div_unique _ _ _ (c_gSize c - 1)); lia. }
  rewrite (u32_small (s1 b)), (u32_small (bE - 1)), (u32_small (b + 1)) by lia. cbv zeta. fold (row_hi b).
  assert (((b + 1 =? bE)) = (b =? bE - 1)) as -> by (destruct (b + 1 =? bE) eqn:E1, (b =? bE - 1) eqn:E2; bool_prop; try done; lia).
  unfold row_top, visits_none. destruct (_ && _); [|done]. apply u32_small. unfold row_hi. case_if; lia.
Qed.

(** Before batch [b]. *)
Definition batches_at (b : Z) (s : SwaState) : Prop := exists items drain,
  let rows := flat_map visited (zrange bS b) in
  let ended := (b =? bE) && (bS <? bE) in
  pipe_at e c (row_lo b) (count rows + if ended then 2 else 0) (items ++ map Call drain) s /\ items_for rows items /\
  Forall (fun i => ri_isValid i = false) drain /\ length drain = (if ended then 2 else 0)%nat.

Lemma swa_batch_spec b k items s : bS <= b < bE -> pipe_at e c (row_lo b) k items s -> 0 <= k -> k + count (visited b) + 5 < 2 ^ 32 ->
  wp (swa_batch e b) (fun _ s' => exists its drain, let ended := b =? bE - 1 in
    pipe_at e c 0 (k + count (visited b) + if ended then 2 else 0) (items ++ its ++ map Call drain) s' /\ items_for (visited b) its /\
    Forall (fun i => ri_isValid i = false) drain /\ length drain = (if ended then 2 else 0)%nat) s.
Proof.
  intros Hb Hp Hk0 Hk. pose proof (sw_batches W) as Hbs. unfold swa_batch, GetBN2Idx, swa_kvHeadNum. apply wp_bind, wp_gets.
  rewrite Z.quot_1_r, Z.rem_1_r. pose proof (pa_const _ _ _ _ _ _ Hp) as Hc. rewrite Hc.
  change (GetActualSeqLenQ e { c with c_gS1Start := row_lo b }) with (GetActualSeqLenQ e c).
  apply wp_bind. unfold fetch, wp at 1. rewrite (in_q _ _ _ _ _ _ I b ltac:(lia)). apply wp_bind, wp_modify. simpl.
  pose proof (row_end b Hb) as Hend. cbv zeta in Hend. rewrite Hend.
  apply wp_bind. eapply wp_mono.
  { apply (rows_spec b (row_lo b) k items); [done| |by constructor|done|done|]; [by destruct Hp|]. intros ->. apply (sw_last W). lia. }
  intros _ s' (_ & its & drain & Hp' & Hits & Hd & Hl). apply wp_modify. exists its, drain. cbv zeta in *. rewrite Z.eqb_refl, andb_true_r in *.
  destruct Hp' as [Q1 Q2 Q3 Q4]. split; [|done]. constructor; simpl; [by rewrite Q1|done..].
Qed.

Lemma ProcessBalance_loop s : pipe_at e c gS 0 [] s -> count (flat_map visited (zrange bS bE)) + 5 < 2 ^ 32 ->
  wp (for_range bS bE (swa_batch e)) (fun _ s' => batches_at bE s') s.
Proof.
  intros Hp Hk. pose proof (sw_batches W) as Hbs. apply (wp_for_range batches_at); [lia| | |done].
  - exists [], []. rewrite zrange_nil by lia. assert ((bS =? bE) && (bS <? bE) = false) as -> by (destruct (bS =? bE) eqn:E; bool_prop; [by rewrite E, Z.ltb_irrefl|done]).
    simpl. unfold row_lo. rewrite Z.eqb_refl. unfold n_blocks. simpl. split; [done|]. by repeat split.
  - intros b s' Hb (items & drain & Hp' & Hits & _ & Hl). rewrite (proj2 (Z.eqb_neq b bE)) in Hp', Hl by lia. destruct drain; [|done].
    simpl in Hp'. rewrite app_nil_r, Z.add_0_r in Hp'.
    assert (count (flat_map visited (zrange bS bE)) = count (flat_map visited (zrange bS b)) + count (visited b) +
      count (flat_map visited (zrange (b + 1) bE))) as Hcount.
    { rewrite (zrange_split bS b bE), (zrange_cons b bE), flat_map_app by lia. simpl. rewrite !count_app. lia. }
    pose proof (count_nonneg (flat_map visited (zrange (b + 1) bE))). pose proof (count_nonneg (flat_map visited (zrange bS b))).
    eapply wp_mono; [apply (swa_batch_spec b _ _ s' Hb Hp'); lia|]. intros _ s2' (its & drain & Hp2 & Hits' & Hd & Hld).
    exists (items ++ its), drain. cbv zeta in *. rewrite zrange_snoc, flat_map_app, count_app by lia. simpl. rewrite app_nil_r.
    assert ((b + 1 =? bE) && (bS <? bE) = (b =? bE - 1)) as ->.
    { rewrite (proj2 (Z.ltb_lt bS bE)), andb_true_r by lia. destruct (b + 1 =? bE) eqn:E1, (b =? bE - 1) eqn:E2; bool_prop; try done; lia. }
    split; [|split; [by apply items_of_app|done]]. unfold row_lo at 1. rewrite (proj2 (Z.eqb_neq (b + 1) bS)) by lia.
    rewrite <- app_assoc. done.
Qed.
End Share.

(** ** The stages of a list of operations *)

(** The block an operation of a stage works on. *)
Inductive stage : Type := Mm1 | Mm2 | Vec1 | Vec2.

Definition stage_block (st : stage) (o : op) : option Block :=
  match st, o with
  | Mm1, OpMm1 i _ | Mm2, OpMm2 i _ | Vec1, OpVec1 i _ | Vec2, OpVec2 i _ => Some (block_of i)
  | _, _ => None
  end.

(** The cube core computes the products, its vector cores the rest. *)
Definition side_of (st : stage) : bool := match st with Mm1 | Mm2 => false | Vec1 | Vec2 => true end.

(** How many calls after its first one a block reaches the stage. *)
Definition delay (st : stage) : nat := match st with Mm1 => 0 | Mm2 | Vec1 => 1 | Vec2 => 2 end.

Definition is_clear (o : op) : bool := match o with OpInitOutput _ _ | OpInitLse _ _ => true | _ => false end.

Section Stages.
Variables (e : SwaEnv) (c : SwaConst).

Definition ob (p : option RunInfo) : list Block := from_option (fun i => [block_of i]) [] p.

Lemma stage_step st p0 p1 p2 : e_isAIV e = side_of st ->
  omap (stage_block st) (step_ops e c p0 p1 p2) = ob (match delay st with O => p0 | 1%nat => p1 | _ => p2 end).
Proof.
  intros Hs. unfold step_ops. rewrite Hs. destruct st; simpl; unfold mm1_ops, mm2_ops, vec1_ops, vec2_ops;
    destruct p0, p1, p2; simpl; rewrite ?omap_app; simpl; try done; destruct (_ && _); done.
Qed.

Lemma stage_clear st ops : Forall (fun o => is_clear o = true) ops -> omap (stage_block st) ops = [].
Proof. induction 1 as [|o l Ho _ IH]; [done|]. simpl. by destruct st, o. Qed.

(** Items that end with two empty calls pass every stage completely. *)
Lemma pipe_stage st items x y p1 p2 : e_isAIV e = side_of st -> Forall item_ok items ->
  Forall (fun o => is_clear o = true) (flat_map item_zero items) -> ri_isValid x = false -> ri_isValid y = false ->
  omap (stage_block st) (pipe e c p1 p2 (items ++ [Call x; Call y])) =
    (match delay st with O => [] | 1%nat => ob p1 | _ => ob p2 ++ ob p1 end) ++ omap item_block items.
Proof.
  intros Hs Hok Hz Hx Hy. revert p1 p2. induction Hok as [|it l Hit _ IH]; intros p1 p2.
  - simpl. unfold live. rewrite Hx, Hy, !omap_app, !stage_step by done. simpl. destruct st; simpl; by rewrite ?app_nil_r.
  - simpl in Hz. apply Forall_app in Hz as [Hz1 Hz2]. destruct it as [i|ops]; simpl in *; rewrite omap_app, (IH Hz2).
    + unfold live. rewrite Hit, stage_step by done. simpl. destruct st; simpl; rewrite ?app_nil_r, <- ?app_assoc; done.
    + by rewrite stage_clear.
Qed.

Lemma step_clear p0 p1 p2 : filter (fun o => is_clear o = true) (step_ops e c p0 p1 p2) = [].
Proof.
  unfold step_ops. destruct (e_isAIV e), p0, p1, p2; simpl; unfold vec1_ops; rewrite ?filter_app; simpl; try done; by destruct (_ && _).
Qed.

(** The operations that clear rows. *)
Lemma pipe_clear items p1 p2 : Forall (fun o => is_clear o = true) (flat_map item_zero items) ->
  filter (fun o => is_clear o = true) (pipe e c p1 p2 items) = flat_map item_zero items.
Proof.
  revert p1 p2. induction items as [|[i|ops] l IH]; intros p1 p2 Hz; simpl in *; [done|..]; rewrite filter_app.
  - by rewrite step_clear, IH.
  - apply Forall_app in Hz as [Hz1 Hz2]. rewrite IH by done. f_equal. clear -Hz1. induction Hz1 as [|o l Ho _ IHl]; [done|].
    rewrite filter_cons_True by done. by f_equal.
Qed.
End Stages.

(** ** What a core issues *)

Section Issues.
Variables (e : SwaEnv) (c0 : SwaConst) (s1 s2 pre : Z -> Z).

Lemma zeros_clear rows : Forall (fun o => is_clear o = true) (flat_map (zeros_of e c0 s1 s2 pre) rows).
Proof.
  induction rows as [|x l IH]; simpl; [constructor|]. apply Forall_app. split; [|done]. unfold zeros_of, clear_ops.
  destruct (_ && _ && _); [|constructor]. constructor; [done|]. by destruct (c_returnSoftmaxLse c0); repeat constructor.
Qed.

(** The items of the rows, and, unless there is no row, two empty calls at the end. *)
Definition issues (ops : list op) (rows : list (Z * Z)) : Prop := exists c items drain,
  ops = pipe e c None None (items ++ map Call drain) /\ items_of e c0 s1 s2 pre rows items /\
  Forall (fun i => ri_isValid i = false) drain /\ match rows with [] => items = [] /\ drain = [] | _ => length drain = 2%nat end.

(** Each stage of the core's side works on the blocks of the rows, in order. *)
Lemma issues_stage ops rows st : issues ops rows -> e_isAIV e = side_of st -> omap (stage_block st) ops = flat_map (blocks_of c0 s1 s2 pre) rows.
Proof.
  intros (c & items & drain & -> & (Hb & Hz & Hok) & Hd & Hl) Hs. destruct rows as [|row rows]; [by destruct Hl as [-> ->]|].
  destruct drain as [|x [|y []]]; try done.
  apply Forall_cons in Hd as [Hx Hd]. apply Forall_cons in Hd as [Hy _]. simpl.
  rewrite pipe_stage, Hb; [by destruct st|done|done| |done|done]. rewrite Hz. apply zeros_clear.
Qed.

(** The rows that see no token are cleared. *)
Lemma issues_clear ops rows : issues ops rows -> filter (fun o => is_clear o = true) ops = flat_map (zeros_of e c0 s1 s2 pre) rows.
Proof.
  intros (c & items & drain & -> & (Hb & Hz & Hok) & Hd & _).
  assert (flat_map item_zero (items ++ map Call drain) = flat_map (zeros_of e c0 s1 s2 pre) rows) as Hall.
  { rewrite flat_map_app, Hz. assert (flat_map item_zero (map Call drain) = []) as -> by (clear; by induction drain). by rewrite app_nil_r. }
  rewrite pipe_clear; rewrite Hall; [done|apply zeros_clear].
Qed.
End Issues.

(** ** A share *)

Section Core.
Variable e : SwaEnv.
Variable c0 : SwaConst.
Hypothesis P : swa_params c0.
Variable n : Z.
Variables s1 s2 pre : Z -> Z.
Hypothesis I : swa_input e c0 n s1 s2 pre.

(** The constants of a core with the share from [p] to [q], and in its loops. *)
Definition share_const (p q : pos) : SwaConst :=
  { c0 with c_bN2Start := p.1; c_gS1Start := p.2; c_s2Start := 0; c_bN2End := q.1; c_gS1End := q.2; c_s2End := 0 }.
Definition end_batch (q : pos) : Z := if q.2 =? 0 then q.1 else q.1 + 1.
Definition loop_const (p q : pos) : SwaConst := { share_const p q with c_bN2End := end_batch q }.

Definition rows_of (p q : pos) : list (Z * Z) := flat_map (visited (loop_const p q) s1) (zrange p.1 (end_batch q)).

Lemma loop_params p q : swa_params (loop_const p q).
Proof. destruct P. by constructor. Qed.

Lemma loop_input p q : swa_input e (loop_const p q) n s1 s2 pre.
Proof. destruct I. by constructor. Qed.

Section OneShare.
Variables p q : pos.
Hypothesis Hp : pos_ok n s1 p.
Hypothesis Hq : pos_ok n s1 q.

Lemma end_batch_range : pos_lt p q -> 0 <= p.1 < end_batch q /\ end_batch q <= n /\ (q.2 <> 0 -> end_batch q = q.1 + 1) /\ (q.2 = 0 -> end_batch q = q.1).
Proof.
  intros Hlt. unfold end_batch, pos_ok, pos_lt in *. destruct (q.2 =? 0) eqn:E; bool_prop; lia.
Qed.

Lemma share_is_wf : pos_lt p q -> share_wf (loop_const p q) n s1.
Proof.
  intros Hlt. destruct (end_batch_range Hlt) as (H1 & H2 & H3 & H4). pose proof (in_s1 _ _ _ _ _ _ I) as Hs1.
  assert (0 <= s1 (end_batch q - 1)) by (apply Hs1; lia).
  assert (p.2 < s1 p.1 \/ p.2 = 0) as Hp2 by (unfold pos_ok in Hp; lia). assert (0 <= p.2 /\ 0 <= q.2) as Hp0 by (unfold pos_ok in *; lia).
  assert (q.2 <> 0 -> q.2 < s1 q.1) as Hq2 by (unfold pos_ok in Hq; lia).
  constructor; simpl.
  - lia.
  - lia.
  - intros _. destruct (decide (q.2 = 0)) as [Hz|Hz]; [lia|]. rewrite (H3 Hz), Z.add_simpl_r. specialize (Hq2 Hz). lia.
  - intros _. unfold row_lo, row_top, row_hi, visits_none. simpl. rewrite Z.eqb_refl, orb_true_r, andb_true_r. cbn [andb].
    destruct (decide (q.2 = 0)) as [Hz|Hz].
    + rewrite (H4 Hz) in *. rewrite Hz. simpl. unfold pos_lt in Hlt. destruct (s1 (q.1 - 1) =? 0) eqn:E; bool_prop;
        (destruct (q.1 - 1 =? p.1) eqn:E1; bool_prop; [rewrite <- E1 in *; lia|]); lia.
    + rewrite (H3 Hz), Z.add_simpl_r in *. rewrite (proj2 (Z.eqb_neq q.2 0)) by done. cbn [negb]. specialize (Hq2 Hz).
      rewrite (proj2 (Z.eqb_neq (s1 q.1) 0)) by lia. unfold pos_lt in Hlt. destruct (q.1 =? p.1) eqn:E1; bool_prop; lia.
Qed.

Lemma adapt_end_share : pos_lt p q -> adapt_end (share_const p q) = loop_const p q.
Proof.
  intros Hlt. destruct (end_batch_range Hlt) as (H1 & H2 & H3 & H4). pose proof (in_n _ _ _ _ _ _ I). unfold adapt_end, loop_const, end_batch. simpl.
  assert (0 <= p.2) by (unfold pos_ok in Hp; lia). unfold pos_lt in Hlt. destruct (p.1 =? q.1) eqn:E; bool_prop.
  - rewrite (proj2 (Z.eqb_neq p.2 q.2)), (proj2 (Z.eqb_neq q.2 0)) by lia. cbn [negb orb]. by rewrite u32_small by lia.
  - destruct (q.2 =? 0) eqn:E2; cbn [negb orb]; [by destruct c0|]. bool_prop. by rewrite u32_small by lia.
Qed.

Lemma adapt_end_empty : p = q -> adapt_end (share_const p q) = share_const p q.
Proof. intros ->. unfold adapt_end. simpl. by rewrite !Z.eqb_refl. Qed.

(** The rows of the share. *)
Lemma elem_of_rows_of b r : pos_lt p q -> 0 <= r < s1 b -> (b, r) ∈ rows_of p q <-> pos_le p (b, r) /\ pos_lt (b, r) q.
Proof.
  intros Hlt Hr. destruct (end_batch_range Hlt) as (H1 & H2 & H3 & H4). unfold rows_of. rewrite list_elem_of_In, in_flat_map.
  assert ((exists x, In x (zrange p.1 (end_batch q)) /\ In (b, r) (visited (loop_const p q) s1 x)) <->
    p.1 <= b < end_batch q /\ row_lo (loop_const p q) b <= r < row_top (loop_const p q) s1 b) as ->.
  { unfold visited. split.
    - intros (x & Hx & Hin). rewrite <- list_elem_of_In, elem_of_zrange in Hx. apply in_map_iff in Hin as (y & [= -> ->] & Hy).
      by rewrite <- list_elem_of_In, elem_of_zrange in Hy.
    - intros [Hb Hrr]. exists b. rewrite <- list_elem_of_In, elem_of_zrange. split; [done|]. apply in_map_iff. exists r.
      by rewrite <- list_elem_of_In, elem_of_zrange. }
  assert (row_top (loop_const p q) s1 b = row_hi (loop_const p q) s1 b) as ->.
  { unfold row_top, visits_none. by rewrite (proj2 (Z.eqb_neq (s1 b) 0)) by lia. }
  unfold row_lo, row_hi, pos_le, pos_lt in *. simpl. assert (0 <= p.2 /\ 0 <= q.2) by (unfold pos_ok in *; lia).
  assert (q.2 <> 0 -> q.2 < s1 q.1) by (unfold pos_ok in Hq; lia).
  destruct (decide (q.2 = 0)) as [Hz|Hz].
  - rewrite (H4 Hz) in *. rewrite Hz in *. rewrite andb_false_r. destruct (b =? p.1) eqn:E; bool_prop; lia.
  - rewrite (H3 Hz), Z.add_simpl_r in *. rewrite (proj2 (Z.eqb_neq q.2 0)), andb_true_r by done.
    destruct (b =? p.1) eqn:E1, (b =? q.1) eqn:E2; bool_prop; lia.
Qed.

Lemma NoDup_rows_of : NoDup (rows_of p q).
Proof.
  unfold rows_of. generalize (NoDup_zrange p.1 (end_batch q)). generalize (zrange p.1 (end_batch q)) as l. induction 1 as [|x l Hx _ IH]; simpl; [constructor|].
  apply NoDup_app. split; [apply NoDup_fmap_2; [by intros ? ? [= ?]|apply NoDup_zrange]|]. split; [|done].
  intros y Hy Hy'. apply Hx. apply list_elem_of_In, in_map_iff in Hy as (r & <- & _). apply list_elem_of_In, in_flat_map in Hy' as (x' & Hx' & Hin).
  apply in_map_iff in Hin as (r' & [= -> _] & _). by apply list_elem_of_In.
Qed.

Lemma rows_of_nonempty : pos_lt p q -> rows_of p q <> [].
Proof.
  intros Hlt Hnil. destruct (end_batch_range Hlt) as (H1 & _). pose proof (sw_last _ _ _ (share_is_wf Hlt)) as Hl. simpl in Hl. specialize (Hl ltac:(lia)).
  unfold rows_of in Hnil. rewrite (zrange_split p.1 (end_batch q - 1) (end_batch q)), flat_map_app, (zrange_cons (end_batch q - 1) (end_batch q)) in Hnil by lia.
  apply app_nil in Hnil as [_ Hnil]. simpl in Hnil. apply app_nil in Hnil as [Hnil _]. unfold visited in Hnil. simpl in Hnil.
  rewrite zrange_cons in Hnil by lia. done.
Qed.

(** The rows a core visits; none when the share is empty. *)
Definition share_rows : list (Z * Z) := if decide (pos_lt p q) then rows_of p q else [].

Lemma ProcessBalance_spec : pos_lt p q \/ p = q -> n_blocks c0 s1 s2 pre share_rows + 5 < 2 ^ 32 ->
  wp (ProcessBalance e) (fun _ s' => issues e c0 s1 s2 pre (issued s') share_rows) (new_SwaState (share_const p q)).
Proof.
  intros Hpq Hk. unfold ProcessBalance, share_rows in *. apply wp_bind, wp_modify. apply wp_bind, wp_gets. simpl. destruct Hpq as [Hlt|Heq].
  - rewrite decide_True in * by done. rewrite adapt_end_share by done.
    eapply wp_mono; [apply (ProcessBalance_loop e (loop_const p q) (loop_params p q) n s1 s2 pre (loop_input p q) eq_refl eq_refl (share_is_wf Hlt))|].
    + constructor; [done|done| |done]. split; [done|]. split; (exists new_RunInfo; split; done).
    + exact Hk.
    + intros _ s' (items & drain & Hp' & Hitems & Hd & Hl). destruct (end_batch_range Hlt) as (H1 & _). simpl in *.
      rewrite Z.eqb_refl, (proj2 (Z.ltb_lt p.1 (end_batch q))) in Hl by lia. cbn [andb] in Hl.
      exists (loop_const p q), items, drain. split; [by apply (pa_issued _ _ _ _ _ _ Hp')|]. split; [exact Hitems|]. split; [done|].
      destruct (rows_of p q) eqn:Er; [|done]. by apply rows_of_nonempty in Er.
  - rewrite decide_False by (subst; unfold pos_lt; lia). rewrite adapt_end_empty by done. subst p. simpl.
    apply wp_for_range_empty; [simpl; lia|]. exists c0, [], []. split; [done|]. by repeat split.
Qed.
End OneShare.

(** ** The number of blocks *)

Definition all_rows : list (Z * Z) := flat_map (fun b => map (pair b) (zrange 0 (s1 b))) (zrange 0 n).

Lemma flat_map_submseteq {A B} (f : A -> list B) l k : l ⊆+ k -> (length (flat_map f l) <= length (flat_map f k))%nat.
Proof.
  intros Hs. apply submseteq_Permutation in Hs as [l' Hperm]. rewrite (Permutation_flat_map f Hperm), flat_map_app, length_app. lia.
Qed.

Lemma blocks_real rows : flat_map (blocks_of c0 s1 s2 pre) rows = flat_map (blocks_of c0 s1 s2 pre) (filter (fun x => x.2 < s1 x.1) rows).
Proof.
  induction rows as [|x l IH]; [done|]. rewrite filter_cons. destruct (decide (x.2 < s1 x.1)); simpl; rewrite IH; [done|].
  unfold blocks_of at 1, row_sees. by rewrite (proj2 (Z.ltb_ge x.2 (s1 x.1))) by lia.
Qed.

Lemma share_blocks_bound p q : pos_ok n s1 p -> pos_ok n s1 q -> n_blocks c0 s1 s2 pre (share_rows p q) <= n_blocks c0 s1 s2 pre all_rows.
Proof.
  intros Hp Hq. unfold n_blocks, share_rows. destruct (decide (pos_lt p q)) as [Hlt|]; [|simpl; lia]. rewrite blocks_real.
  apply inj_le, flat_map_submseteq, NoDup_submseteq; [apply NoDup_filter, NoDup_rows_of|].
  intros [b r] [Hr Hin]%list_elem_of_filter. simpl in Hr. unfold rows_of, all_rows in *. rewrite list_elem_of_In, in_flat_map in *.
  destruct Hin as (x & Hx & Hin). apply in_map_iff in Hin as (r' & [= -> ->] & Hr'). rewrite <- list_elem_of_In, elem_of_zrange in *.
  pose proof (share_is_wf p q Hp Hq Hlt) as W. destruct (end_batch_range p q Hp Hq Hlt) as (H1 & H2 & _).
  destruct (row_top_range e (loop_const p q) n s1 s2 pre (loop_input p q) W b ltac:(simpl; lia)) as (Hlo & _).
  exists b. rewrite <- list_elem_of_In, elem_of_zrange. split; [lia|]. apply in_map_iff. exists r. rewrite <- list_elem_of_In, elem_of_zrange. split; [done|lia].
Qed.
End Core.
