(* ===== verification/SasSwaClaims.v ===== *)
(** The scheduler and the sliding-window kernel together: the cores of a launch,
    with the metadata that [SparseAttnSharedkvMetadata] wrote, process every row
    exactly once. *)

From S2P Require Import Prelude AscendC TilingContext Aicpu SasMeta SasMetaCost SasMetaAssign SasMetaOut SasSpec SasPlanLemmas SasCostLemmas SasBatchLemmas SasPlan SasPrepare SasMetaClaims SasSwa SasSwaSpec SasSwaLemmas SasSwaRows SasSwaCore.

(** ** A core *)

(** A tensor of the given words. *)
Definition word_tensor (l : list Z) : tensor Z := Tensor (Z.of_nat (length l)) (vat l).

(** The tiling of the operator for groups of at most 256 heads. *)
Record swa_tiling (templateMode : Z) (td : SwaTiling) : Prop := {
  st_group : 0 < td_nNumOfQInOneGroup td <= 256;
  st_winLeft : td_oriWinLeft td = 127;
  st_winRight : td_oriWinRight td = 0;
  st_s2BaseSize : td_s2BaseSize td = 512;
  st_ratio : templateMode = CFA_TEMPLATE -> td_cmpRatio td = 4 \/ td_cmpRatio td = 128 }.

Definition tiling_const (templateMode : Z) (td : SwaTiling) : SwaConst := InitTilingData templateMode td new_SwaConst.

Lemma tiling_params templateMode td : swa_tiling templateMode td -> swa_params (tiling_const templateMode td) /\
  c_gSize (tiling_const templateMode td) = td_nNumOfQInOneGroup td.
Proof.
  intros [H1 H2 H3 H4 H5]. unfold tiling_const, InitTilingData. cbv zeta. simpl. 
  destruct (templateMode =? CFA_TEMPLATE) eqn:E; bool_prop; (split; [constructor; simpl; rewrite ?H2, ?H3, ?H4; try done; try (by unwrapk)|done]).
Qed.

(** A fresh configuration starts at the first row. *)
Lemma tiling_start templateMode td q : { tiling_const templateMode td with c_bN2End := q.1; c_gS1End := q.2; c_s2End := 0 } =
  share_const (tiling_const templateMode td) (0, 0) q.
Proof. unfold tiling_const, InitTilingData. cbv zeta. simpl. by destruct (templateMode =? CFA_TEMPLATE). Qed.

Section OneCore.
Variables (e : SwaEnv) (td : SwaTiling) (n cores : Z) (s1 s2 pre : Z -> Z) (buf : list Z) (r : SplitResult).
Abbreviation c0 := (tiling_const (TEMPLATE_MODE e) td).
Abbreviation i := (aiCoreIdx e).
Hypothesis T : swa_tiling (TEMPLATE_MODE e) td.
Hypothesis I : swa_input e c0 n s1 s2 pre.
Hypothesis Hmeta : metadataGm e = word_tensor buf.
Hypothesis Hroom : meta_room buf.
Hypothesis Hi : 0 <= i < 36.
Hypothesis Hentry : fa_entry r buf i.
Hypothesis Hplan : is_plan n s1 cores r.
Hypothesis Hfits : n_blocks c0 s1 s2 pre (all_rows n s1) + 5 < 2 ^ 32.

Lemma meta_get_word j : 0 <= j < 8 -> meta_get e j = Ok (fa_word buf i j).
Proof.
  intros Hj. unfold meta_get, gm_get. rewrite Hmeta. unfold fa_word, GetAttrAbsIndex, FA_METADATA_SIZE, meta_room in *.
  rewrite in_tensor_true; [done|..]; unwrap64; simpl; lia.
Qed.

(** The start of a share is a position, like its end. *)
Lemma core_start_ok k : 0 <= k < sr_usedCoreNum r -> pos_ok n s1 (core_start r k).
Proof.
  intros Hk. destruct Hplan as (Hu & Hend & Hcuts). pose proof (in_n _ _ _ _ _ _ I). unfold core_start. destruct (k =? 0) eqn:E; bool_prop.
  - unfold pos_ok. simpl. lia.
  - by apply Hcuts; lia.
Qed.

(** The rows of the core. *)
Definition core_rows : list (Z * Z) := if i <? sr_usedCoreNum r then share_rows c0 s1 (core_start r i) (core_end r i) else [].

Ltac meta_words :=
  rewrite !meta_get_word by (unfold FA_CORE_ENABLE_INDEX, FA_BN2_START_INDEX, FA_M_START_INDEX, FA_S2_START_INDEX, FA_BN2_END_INDEX,
    FA_M_END_INDEX, FA_S2_END_INDEX; lia).

Lemma InitCalc_enabled : i < sr_usedCoreNum r -> InitCalcParamsEach e c0 = Ok (share_const c0 (core_start r i) (core_end r i)).
Proof.
  intros Hu. unfold InitCalcParamsEach. meta_words. unfold fa_entry in Hentry. rewrite (proj2 (Z.ltb_lt _ _) Hu) in Hentry.
  destruct Hentry as (_ & H2 & H3 & H4 & H5 & _). injection H4 as H41 H42. destruct (i =? 0) eqn:E; simpl.
  - rewrite H41, H42, H5. assert (core_start r i = (0, 0)) as -> by (unfold core_start; by rewrite E). f_equal. apply (tiling_start _ _ (core_end r i)).
  - rewrite H3, H41, H42, H5, <- H2. done.
Qed.

Lemma InitCalc_total : exists c, InitCalcParamsEach e c0 = Ok c.
Proof. unfold InitCalcParamsEach. meta_words. destruct (i =? 0); simpl; by eexists. Qed.

Lemma swa_core_spec : exists ops, swa_core e td = Ok ops /\ issues e c0 s1 s2 pre ops core_rows.
Proof.
  destruct (tiling_params _ _ T) as [P _]. unfold swa_core, SwaProcess, core_rows. fold (tiling_const (TEMPLATE_MODE e) td). meta_words.
  destruct (i <? sr_usedCoreNum r) eqn:E; bool_prop.
  - rewrite InitCalc_enabled by done. pose proof (core_start_ok i ltac:(lia)) as Hp. pose proof Hplan as (Hu & Hend & Hcuts).
    destruct (Hcuts i ltac:(lia)) as (Hq & Hle & _). set (p := core_start r i) in *. set (q := core_end r i) in *.
    assert (pos_lt p q \/ p = q) as Hpq.
    { clear -Hle. destruct p as [b1 r1], q as [b2 r2]. unfold pos_le, pos_lt in *. simpl in *.
      destruct (decide (b1 = b2 /\ r1 = r2)) as [[-> ->]|]; [by right|left; lia]. }
    pose proof (share_blocks_bound e c0 n s1 s2 pre I p q Hp Hq) as Hbound.
    pose proof (ProcessBalance_spec e c0 P n s1 s2 pre I p q Hp Hq Hpq ltac:(lia)) as HW.
    unfold fa_entry in Hentry. rewrite (proj2 (Z.ltb_lt _ _) E) in Hentry. destruct Hentry as (-> & _). rewrite bind_Ok.
    apply wp_run in HW as (u & s' & HP & HQ). exists (issued s'). split; [|done].
    change (('(_, s) ← ProcessBalance e (new_SwaState (share_const c0 p q)); Ok (issued s)) = Ok (issued s')). by rewrite HP.
  - destruct InitCalc_total as [c Hc]. rewrite Hc, bind_Ok. unfold fa_entry in Hentry. rewrite (proj2 (Z.ltb_ge _ _)) in Hentry by lia. rewrite Hentry.
    exists []. split; [done|]. exists c0, [], []. by repeat split.
Qed.
End OneCore.

(** ** The blocks of one row *)

(** The blocks of row [row] of batch [b] that a stage of the core works on. *)
Definition row_on (st : stage) (ops : list op) (b row : Z) : list Block :=
  filter (fun x => blk_batch x = b /\ blk_row x = row) (omap (stage_block st) ops).

Section RowFilter.
Variables (c : SwaConst) (s1 s2 pre : Z -> Z).
Abbreviation blocks := (blocks_of c s1 s2 pre).

Lemma blocks_of_row p : Forall (fun x => blk_batch x = p.1 /\ blk_row x = p.2) (blocks p).
Proof.
  unfold blocks_of. destruct (row_sees _ _ _ _); [|constructor]. unfold swa_blocks. destruct (_ <? 0); [constructor|].
  apply Forall_map, list.Forall_forall. intros j _. unfold swa_block. by destruct (j =? 0).
Qed.

Lemma filter_blocks p b row : filter (fun x => blk_batch x = b /\ blk_row x = row) (blocks p) = if decide (p = (b, row)) then blocks p else [].
Proof.
  destruct (decide (p = (b, row))) as [->|Hne]; (induction (blocks_of_row p) as [|x l Hx _ IH] || induction (blocks_of_row (b, row)) as [|x l Hx _ IH]); try done.
  - rewrite filter_cons_True by done. by f_equal.
  - rewrite filter_cons_False; [done|]. intros [<- <-]. apply Hne. destruct p, Hx. simpl in *. by subst.
Qed.

Lemma filter_rows rows b row : NoDup rows ->
  filter (fun x => blk_batch x = b /\ blk_row x = row) (flat_map blocks rows) = if decide ((b, row) ∈ rows) then blocks (b, row) else [].
Proof.
  induction 1 as [|p l Hp _ IH]; [done|]. simpl. rewrite filter_app, filter_blocks, IH.
  destruct (decide (p = (b, row))) as [->|Hne].
  - rewrite (decide_False (P := (b, row) ∈ l)), decide_True by (done || left). by rewrite app_nil_r.
  - simpl. destruct (decide ((b, row) ∈ l)) as [Hin|Hin]; [by rewrite decide_True by by right|]. rewrite decide_False; [done|]. by intros [|]%elem_of_cons.
Qed.
End RowFilter.

(** ** A launch *)

(** The launch with the metadata [buf]. *)
Definition with_metadata (l : SwaLaunch) (buf : list Z) : SwaLaunch := { l with l_metadata := word_tensor buf }.

(** What core [idx] of a side issues. *)
Definition launch_core (l : SwaLaunch) (td : SwaTiling) (buf : list Z) (isAIV : bool) (idx : Z) : outcome fault_kind (list op) :=
  swa_core (SwaInit (with_metadata l buf) isAIV idx) td.

(** The cube core of core [idx]. *)
Definition cube_of (isAIV : bool) (idx : Z) : Z := if isAIV then idx / 2 else idx.

(** The kernel is launched for the sequences the metadata were computed for: the
    cores read the same lengths, and the group size and the masks agree. *)
Record swa_call (l : SwaLaunch) (td : SwaTiling) (k : SasKernel) (s1 s2 pre : Z -> Z) : Prop := {
  wc_tiling : swa_tiling (l_templateMode l) td;
  wc_input v idx : swa_input (SwaInit l v idx) (tiling_const (l_templateMode l) td) (batchSize_ k) s1 s2 pre;
  wc_rows : mBaseSize_ k = groupSize_ k;
  wc_fits : n_blocks (tiling_const (l_templateMode l) td) s1 s2 pre (all_rows (batchSize_ k) s1) + 5 < 2 ^ 32 }.

Lemma rows_are_queries k s1 b : sas_valid k -> mBaseSize_ k = groupSize_ k -> 0 <= s1 b -> sas_rows k s1 b = s1 b.
Proof.
  intros V Hm Hs. pose proof (sv_groupSize k V). unfold sas_rows, row_count, ceil_div. rewrite Hm. symmetry.
  apply (Z.div_unique _ _ _ (groupSize_ k - 1)); lia.
Qed.

Lemma is_plan_ext n rows rows' cores r : (forall b, 0 <= b < n -> rows b = rows' b) -> is_plan n rows cores r -> is_plan n rows' cores r.
Proof.
  intros Hext (H1 & H2 & H3). split; [done|]. split; [done|]. intros i Hi. destruct (H3 i Hi) as (Hok & Hrest). split; [|done].
  unfold pos_ok in *. destruct Hok as [(Hb & Hr & Hlt)|Hok]; [left|by right]. by rewrite <- Hext.
Qed.

Section Launch.
Variables (l : SwaLaunch) (td : SwaTiling) (k : SasKernel) (s1 s2 pre : Z -> Z) (buf : list Z) (r : SplitResult).
Abbreviation c0 := (tiling_const (l_templateMode l) td).
Abbreviation cores := (aicCoreNum_ k).
Hypothesis C : swa_call l td k s1 s2 pre.
Hypothesis Hplan : is_plan (batchSize_ k) s1 cores r.
Hypothesis Hroom : meta_room buf.
Hypothesis Hentries : forall i, 0 <= i < cores -> fa_entry r buf i.
Hypothesis Hcores : cores <= 36.

Lemma launch_core_spec isAIV idx : 0 <= idx -> cube_of isAIV idx < cores -> exists ops, launch_core l td buf isAIV idx = Ok ops /\
  issues (SwaInit l isAIV idx) c0 s1 s2 pre ops
    (if cube_of isAIV idx <? sr_usedCoreNum r then share_rows c0 s1 (core_start r (cube_of isAIV idx)) (core_end r (cube_of isAIV idx)) else []).
Proof.
  intros Hidx Hc. set (e := SwaInit (with_metadata l buf) isAIV idx).
  assert (aiCoreIdx e = cube_of isAIV idx) as Hcube.
  { unfold aiCoreIdx, cube_of. simpl. destruct isAIV; [apply quot_nonneg_div; lia|done]. }
  assert (0 <= cube_of isAIV idx) as Hnn by (unfold cube_of; destruct isAIV; [apply Z.div_pos; lia|done]).
  assert (swa_input e c0 (batchSize_ k) s1 s2 pre) as HI by (destruct (wc_input _ _ _ _ _ _ C isAIV idx); by constructor).
  destruct (swa_core_spec e td (batchSize_ k) cores s1 s2 pre buf r) as (ops & Hops & Hiss); try done.
  - apply C.
  - rewrite Hcube. lia.
  - rewrite Hcube. apply Hentries. lia.
  - apply C.
  - exists ops. split; [done|]. unfold core_rows in Hiss. rewrite Hcube in Hiss. exact Hiss.
Qed.

(** Row [row] of batch [b] on the core whose share holds it, and on the others. *)
Lemma launch_row b row : 0 <= b < batchSize_ k -> 0 <= row < s1 b -> exists i, 0 <= i < cores /\
  forall isAIV idx ops, 0 <= idx -> cube_of isAIV idx < cores -> launch_core l td buf isAIV idx = Ok ops ->
    (forall st, side_of st = isAIV -> row_on st ops b row = if cube_of isAIV idx =? i then blocks_of c0 s1 s2 pre (b, row) else []) /\
    (isAIV = true -> cube_of isAIV idx = i -> blocks_of c0 s1 s2 pre (b, row) = [] -> OpInitOutput (row_out c0 (pre b) row) (c_gSize c0 * 512) ∈ ops).
Proof.
  intros Hb Hrow. destruct (plan_covers_row _ _ _ r b row Hplan Hb ltac:(lia)) as (i & (Hi & Hin) & Huniq). pose proof Hplan as (Hu & Hend & Hcuts).
  exists i. split; [lia|]. intros isAIV idx ops Hidx Hc Hops. destruct (launch_core_spec isAIV idx Hidx Hc) as (ops' & Hops' & Hiss).
  rewrite Hops in Hops'. injection Hops' as <-. set (j := cube_of isAIV idx) in *.
  assert (0 <= j) as Hj by (unfold j, cube_of; destruct isAIV; [apply Z.div_pos; lia|done]).
  set (rows := if j <? sr_usedCoreNum r then _ else []) in *.
  assert (NoDup rows) as Hnd by (unfold rows, share_rows; destruct (j <? sr_usedCoreNum r); [destruct (decide _); [apply NoDup_rows_of|constructor]|constructor]).
  assert ((b, row) ∈ rows <-> j = i) as Hmem.
  { pose proof (wc_input _ _ _ _ _ _ C isAIV idx) as HI. unfold rows. destruct (j <? sr_usedCoreNum r) eqn:E; bool_prop.
    - destruct (Hcuts j ltac:(lia)) as (Hq & Hle & _).
      pose proof (core_start_ok (SwaInit l isAIV idx) td (batchSize_ k) cores s1 s2 pre r HI Hplan j ltac:(lia)) as Hp.
      unfold share_rows. destruct (decide (pos_lt (core_start r j) (core_end r j))) as [Hlt|Hnlt].
      + rewrite elem_of_rows_of by done. split; [intros [H1 H2]; by apply Huniq|intros ->; exact Hin].
      + split; [by intros ?%elem_of_nil|]. intros ->. exfalso. apply Hnlt. destruct Hin as [H1 H2]. revert H1 H2.
        destruct (core_start r i), (core_end r i). unfold pos_le, pos_lt. simpl. lia.
    - split; [by intros ?%elem_of_nil|lia]. }
  split.
  - intros st Hside. unfold row_on. rewrite (issues_stage _ _ _ _ _ _ _ _ Hiss) by done. rewrite filter_rows by done.
    destruct (decide ((b, row) ∈ rows)) as [Hel|Hel]; rewrite Hmem in Hel; [by rewrite (proj2 (Z.eqb_eq j i) Hel)|by rewrite (proj2 (Z.eqb_neq j i) Hel)].
  - intros -> Hji Hnone. assert (OpInitOutput (row_out c0 (pre b) row) (c_gSize c0 * 512) ∈
      filter (fun o => is_clear o = true) ops) as [_ Hel]%list_elem_of_filter; [|done]. rewrite (issues_clear _ _ _ _ _ _ _ Hiss), list_elem_of_In, in_flat_map.
    exists (b, row). rewrite <- list_elem_of_In. split; [by apply Hmem|]. unfold zeros_of, blocks_of in *. simpl in *.
    destruct (row_sees s1 s2 b row) eqn:Hs.
    + exfalso. unfold row_sees in Hs. bool_prop. unfold swa_blocks in Hnone. rewrite (proj2 (Z.ltb_ge _ 0)) in Hnone by lia.
      pose proof (wc_input _ _ _ _ _ _ C true idx) as HI. destruct (tiling_params _ _ (wc_tiling _ _ _ _ _ _ C)) as [P _].
      pose proof (swa_times_range c0 P (s1 b) (s2 b) row (in_s2 _ _ _ _ _ _ HI b Hb) Hrow ltac:(lia)). rewrite zrange_cons in Hnone by lia. done.
    + rewrite (proj2 (Z.eqb_neq (s1 b) 0)), orb_true_r by lia. simpl. by left.
Qed.
End Launch.

(** ** A concrete launch *)

Definition launch3 : SwaLaunch := {|
  l_layout := TND; l_kvLayout := PA_ND; l_templateMode := CFA_TEMPLATE; l_cuSeqlensQ := word_tensor [0; 4; 4; 9];
  l_cuSeqlensKV := word_tensor []; l_cuSeqlensCmpKV := word_tensor []; l_seqUsedQ := word_tensor [];
  l_seqUsedKV := word_tensor [600; 7; 3000]; l_metadata := word_tensor [] |}.

Definition tiling3 : SwaTiling := {|
  td_nNumOfQInOneGroup := 64; td_kvSeqSize := 4096; td_qSeqSize := 9; td_outputLayout := TND; td_oriWinLeft := 127; td_oriWinRight := 0;
  td_returnSoftmaxLse := false; td_actualLenDimsQ := 3; td_actualLenDimsKV := 3; td_s2BaseSize := 512; td_cmpRatio := 4 |}.

Definition start3 (b : Z) : Z := vat [0; 4; 4] b.

Lemma input3 v idx : swa_input (SwaInit launch3 v idx) (tiling_const CFA_TEMPLATE tiling3) 3 queries3 keys3 start3.
Proof.
  constructor; try done; intros b; try (intros t Hb); try (intros Hb); try (intros HL Hb).
  all: assert (b = 0 \/ b = 1 \/ b = 2) as [-> | [-> | ->]] by lia.
  all: first [reflexivity | (eexists _, _; reflexivity) | (vm_compute; split; [discriminate|reflexivity])].
Qed.

Lemma swa_call3 : swa_call launch3 tiling3 kernel3 queries3 keys3 start3.
Proof.
  assert (batchSize_ kernel3 = 3) as Hn by (vm_compute; reflexivity).
  constructor; [|rewrite Hn; exact input3|vm_compute; reflexivity|rewrite Hn; vm_compute; reflexivity].
  constructor; try done. by left.
Qed.

(** ** The claims *)

(** C7. The metadata operator and the attention kernel together.  For a call that
    passes the checks and is within the limits of [sas_limits], which the checks do
    not cover, a launch of the sliding-window kernel on the same sequences with the metadata it wrote runs without a fault on every cube and
    vector core, and for every query row there is exactly one cube core such
    that this core and its vector cores take all the blocks of the row, each
    exactly once and in order, through every stage of their side, while all
    other cores take none.  The output of a row that sees no key token is
    cleared by the vector cores of that core. *)
Theorem sas_kernel_rows_once ctx k s1 s2 pre words fuel typeCost l td :
  sas_call ctx k s1 s2 words -> enough_fuel k s1 fuel -> swa_call l td k s1 s2 pre ->
  exists buf, Compute' fuel typeCost ctx = Ok (KERNEL_STATUS_OK, Some buf) /\
    let c := tiling_const (l_templateMode l) td in
    (forall isAIV idx, 0 <= idx -> cube_of isAIV idx < aicCoreNum_ k -> exists ops, launch_core l td buf isAIV idx = Ok ops) /\
    forall b row, 0 <= b < batchSize_ k -> 0 <= row < s1 b -> exists i, 0 <= i < aicCoreNum_ k /\
      forall isAIV idx ops, 0 <= idx -> cube_of isAIV idx < aicCoreNum_ k -> launch_core l td buf isAIV idx = Ok ops ->
        (forall st, side_of st = isAIV -> row_on st ops b row = if cube_of isAIV idx =? i then blocks_of c s1 s2 pre (b, row) else []) /\
        (isAIV = true -> cube_of isAIV idx = i -> blocks_of c s1 s2 pre (b, row) = [] ->
           OpInitOutput (row_out c (pre b) row) (c_gSize c * 512) ∈ ops).
Proof.
  intros Call F C. destruct (Compute_plan _ _ _ _ _ fuel typeCost Call F) as (r & buf & HC & Hplan & Ho & Hfa & _).
  pose proof (sas_call_ready _ _ _ _ _ Call) as [V SL _ _ _ _]. exists buf. split; [done|]. cbv zeta.
  assert (is_plan (batchSize_ k) s1 (aicCoreNum_ k) r) as Hplan'.
  { eapply is_plan_ext; [|done]. intros b Hb. apply rows_are_queries; [done|apply C|]. by apply (sl_s1_range k s1 s2 SL). }
  assert (meta_room buf) as Hroom by (unfold meta_room; rewrite (proj1 Ho); apply Call).
  assert (aicCoreNum_ k <= 36) as Hc36 by apply Call. split.
  - intros isAIV idx Hidx Hlt. destruct (launch_core_spec l td k s1 s2 pre buf r C Hplan' Hroom Hfa Hc36 isAIV idx Hidx Hlt) as (ops & Hops & _).
    by exists ops.
  - intros b row Hb Hrow. by apply (launch_row l td k s1 s2 pre buf r).
Qed.

Lemma sas_kernel_rows_once_witness : exists buf, Compute' 100 (fun _ _ => 0) ctx3 = Ok (KERNEL_STATUS_OK, Some buf) /\
  exists i ops, launch_core launch3 tiling3 buf false i = Ok ops /\
    row_on Mm2 ops 2 3 = blocks_of (tiling_const CFA_TEMPLATE tiling3) queries3 keys3 start3 (2, 3).
Proof.
  destruct (sas_kernel_rows_once ctx3 kernel3 queries3 keys3 start3 (replicate 1024 0) 100 (fun _ _ => 0) launch3 tiling3 call3 fuel3 swa_call3)
    as (buf & HC & Hrun & Hrows). exists buf. split; [exact HC|].
  destruct (Hrows 2 3) as (i & Hi & Hrow); [split; vm_compute; [discriminate|reflexivity]|split; vm_compute; [discriminate|reflexivity]|].
  destruct (Hrun false i) as [ops Hops]; [exact (proj1 Hi)|exact (proj2 Hi)|]. exists i, ops. split; [exact Hops|].
  destruct (Hrow false i ops (proj1 Hi) (proj2 Hi) Hops) as [Hst _]. rewrite (Hst Mm2 eq_refl). unfold cube_of. by rewrite Z.eqb_refl.
Defined.

(** ** The cost model and the kernel *)

Section CostOfBlocks.
Variable k : SasKernel.
Variables (b s1 s2 out r : Z).
Hypothesis V : sas_valid k.
Hypothesis Hband : mask_mode k = BAND.
Hypothesis Hm : mBaseSize_ k = groupSize_ k.
Hypothesis Hbase : s2BaseSize_ k = 512.
Hypothesis Htop : cmpTopK_ k = 0.
Hypothesis Hs1 : 0 <= s1 < 2 ^ 31.
Hypothesis Hs2 : 0 <= s2 < 2 ^ 31.
Hypothesis Hr : 0 <= r < s1.
Abbreviation last := (swa_last s1 s2 r).
Abbreviation kernel_blocks := (swa_blocks (hasCmpKv_ k) (cmpRatio_ k) b s1 s2 out r).

Lemma row_is_query : row_s1_first k r = r /\ row_s1_last k s1 r = r /\ row_height k s1 r = groupSize_ k.
Proof.
  pose proof (sv_groupSize k V). unfold row_s1_first, row_s1_last, row_height. rewrite Hm. split; [by apply Z.div_mul; lia|].
  rewrite !Z.min_l by nia. split; [|done]. symmetry. apply (Z.div_unique _ _ _ (groupSize_ k - 1)); lia.
Qed.

Lemma tokens_agree : win_len k s1 s2 r = (if last <? 0 then 0 else last - Z.max 0 (last - 127) + 1) /\
  cmp_len k s1 s2 r = (if last <? 0 then 0 else swa_cmp (hasCmpKv_ k) (cmpRatio_ k) s1 s2 r).
Proof.
  destruct row_is_query as (H1 & H2 & _). unfold cmp_len, win_len, win_last, win_first, swa_cmp. rewrite Hband, H1, H2, (sv_winLeft k V), Htop. simpl.
  unfold swa_last. destruct (s2 =? 0) eqn:E; bool_prop.
  - subst s2. rewrite (proj2 (Z.ltb_lt (0 - s1 + r) 0)) by lia. by rewrite andb_false_r.
  - replace (r + s2 - s1) with (s2 - s1 + r) by lia. destruct (s2 - s1 + r <? 0) eqn:E1; bool_prop.
    + by rewrite (proj2 (Z.leb_gt 0 (s2 - s1 + r))), andb_false_r by lia.
    + rewrite (proj2 (Z.leb_le 0 (s2 - s1 + r))), andb_true_r by lia. by destruct (hasCmpKv_ k).
Qed.

Definition list_cost (l : list Block) : Z := foldr Z.add 0 (map (fun x => block_cost (groupSize_ k) (blk_count x)) l).

Lemma kernel_blocks_cost : 0 <= last -> list_cost kernel_blocks =
  block_cost (groupSize_ k) (last - Z.max 0 (last - 127) + 1) + part_cost 512 (groupSize_ k) (swa_cmp (hasCmpKv_ k) (cmpRatio_ k) s1 s2 r) /\
  Z.of_nat (length kernel_blocks) = swa_times (hasCmpKv_ k) (cmpRatio_ k) s1 s2 r.
Proof.
  intros HL. set (C := swa_cmp (hasCmpKv_ k) (cmpRatio_ k) s1 s2 r).
  assert (0 <= C) as HC. { unfold C, swa_cmp. destruct (hasCmpKv_ k) eqn:E; [|done]. destruct (sv_cmp k V E) as ([-> | ->] & _); apply Z.div_pos; lia. }
  unfold list_cost, part_cost, zsum, swa_blocks. rewrite (proj2 (Z.ltb_ge last 0)) by lia. pose proof (ceil_div_spec C 512 HC ltac:(lia)) as (HD & _).
  assert (swa_times (hasCmpKv_ k) (cmpRatio_ k) s1 s2 r = 1 + ceil_div C 512) as -> by done. split.
  - rewrite zrange_cons by lia. cbn [map foldr]. f_equal. f_equal.
    replace (zrange (0 + 1) (1 + ceil_div C 512)) with (map (Z.add 1) (zrange 0 (ceil_div C 512))).
    2: { unfold zrange. replace (1 + ceil_div C 512 - (0 + 1)) with (ceil_div C 512 - 0) by lia. exact (fmap_add_seqZ 1 0 _). }
    rewrite !map_map. apply map_ext_in. intros j Hj%list_elem_of_In%elem_of_zrange. unfold swa_block. rewrite (proj2 (Z.eqb_neq (1 + j) 0)) by lia. simpl.
    fold C. f_equal. f_equal. lia.
  - rewrite length_map. unfold zrange. rewrite length_seqZ. lia.
Qed.

Lemma scheduler_counts_blocks : sas_row_cost k s1 s2 r = list_cost kernel_blocks /\ sas_row_block k s1 s2 r = Z.of_nat (length kernel_blocks).
Proof.
  destruct tokens_agree as [HW HC]. destruct row_is_query as (_ & _ & Hh). unfold sas_row_cost, sas_row_block. rewrite HW, HC, Hh, Hbase.
  destruct (last <? 0) eqn:E; bool_prop.
  - unfold part_cost, list_cost, swa_blocks. rewrite (proj2 (Z.ltb_lt last 0)) by lia. by rewrite ceil_div_0, zsum_nil by lia.
  - destruct (kernel_blocks_cost ltac:(lia)) as [-> ->]. assert (ceil_div (last - Z.max 0 (last - 127) + 1) 512 = 1) as H1 by (unfold ceil_div; zlia).
    unfold part_cost at 1. rewrite H1, zsum_cons, zsum_nil by lia. rewrite Z.mul_0_l, Z.sub_0_r, Z.add_0_r, Z.min_r by lia. unfold swa_times. split; [done|lia].
Qed.
End CostOfBlocks.

(** C24. The scheduler prices the work the kernel does: for a band-masked call on
    the same chip, the cost [CalcS1GCache] gives a row is the sum of the costs of
    the blocks the sliding-window kernel issues for that row, and its block count
    is their number. *)
Theorem sas_cost_counts_kernel_blocks k b s1 s2 out sc r cache typeCost : sas_valid k -> mask_mode k = BAND ->
  mBaseSize_ k = groupSize_ k -> s2BaseSize_ k = 512 -> cmpTopK_ k = 0 ->
  0 <= s1 < 2 ^ 31 -> 0 <= s2 < 2 ^ 31 -> s1 * groupSize_ k + mBaseSize_ k < 2 ^ 32 ->
  vget (si_s1GBaseNum (splitInfo sc)) b = Ok (row_count k s1) ->
  vget (si_s1GTailSize (splitInfo sc)) b = Ok (s1 * groupSize_ k mod mBaseSize_ k) -> 0 <= r < s1 ->
  exists cache' typeCost', CalcS1GCache k r sc (bcache k b s1 s2) cache typeCost = Ok (cache', typeCost') /\
    let blocks := swa_blocks (hasCmpKv_ k) (cmpRatio_ k) b s1 s2 out r in
    sg_s1GCost cache' = list_cost k blocks /\ sg_s1GBlock cache' = Z.of_nat (length blocks).
Proof.
  intros V Hb Hm H512 Ht H1 H2 Hf Hn Htl Hr. assert (row_count k s1 = s1) as Hrows by (apply (rows_are_queries k (fun _ => s1) b); [done..|lia]).
  pose proof (CalcS1GCache_spec k V b s1 s2 H1 H2 Hf _ Hn Htl sc r cache typeCost eq_refl ltac:(lia)) as HW.
  unfold wp in HW. destruct (CalcS1GCache _ _ _ _ _ _) as [[c t]|]; [|done]. destruct HW as (_ & Hc & _ & Hbl).
  exists c, t. split; [done|]. cbv zeta. rewrite Hc, Hbl. by apply scheduler_counts_blocks.
Qed.

Lemma sas_cost_counts_kernel_blocks_witness : exists cache' typeCost',
  CalcS1GCache kernel3 3 split3 (bcache kernel3 2 5 3000) new_S1GCache (fun _ _ => 0) = Ok (cache', typeCost') /\
  sg_s1GBlock cache' = 3.
Proof.
  assert (0 < queryHeadNum_ kernel3) as Hh by (vm_compute; reflexivity).
  destruct (sas_cost_counts_kernel_blocks kernel3 2 5 3000 0 split3 3 new_S1GCache (fun _ _ => 0)
    (proj1 (Prepare_valid ctx3 kernel3 (sc_prepare _ _ _ _ _ call3) Hh))) as (c & t & H & _ & Hb);
    try (vm_compute; first [reflexivity | (split; [discriminate|reflexivity])]).
  exists c, t. split; [exact H|]. rewrite Hb. vm_compute. reflexivity.
Defined.
