(* ===== verification/SasSwaSync.v ===== *)
(** A cube core and its two vector cores: the flags they set and wait for
    ([CrossCoreSetFlag], [CrossCoreWaitFlag] in the mode that pairs a cube core
    with its vector cores).  Each core performs its own operations in order; a
    wait blocks until the flag is pending.  Steps of the cores interleave freely. *)

From S2P Require Import Prelude AscendC TilingContext Aicpu SasMetaOut SasSpec SasCostLemmas SasSwa SasSwaSpec SasSwaLemmas SasSwaRows SasSwaCore.

(** ** The system *)

(** The flags pending between the cube core and one vector core. *)
Record flags : Type := { f_c1v1 : nat; f_v1c2 : nat; f_c2v2 : nat }.

Definition pending (f : sync_flag) (k : flags) : nat := match f with syncC1V1 => f_c1v1 k | syncV1C2 => f_v1c2 k | syncC2V2 => f_c2v2 k end.
Definition set_pending (f : sync_flag) (g : nat -> nat) (k : flags) : flags :=
  match f with
  | syncC1V1 => {| f_c1v1 := g (f_c1v1 k); f_v1c2 := f_v1c2 k; f_c2v2 := f_c2v2 k |}
  | syncV1C2 => {| f_c1v1 := f_c1v1 k; f_v1c2 := g (f_v1c2 k); f_c2v2 := f_c2v2 k |}
  | syncC2V2 => {| f_c1v1 := f_c1v1 k; f_v1c2 := f_v1c2 k; f_c2v2 := g (f_c2v2 k) |}
  end.

(** The operations each core has left, and the pending flags. *)
Record sys : Type := { sy_cube : list op; sy_vec0 : list op; sy_vec1 : list op; sy_flags0 : flags; sy_flags1 : flags }.

Inductive who : Type := WCube | WVec0 | WVec1.

(** The next operation of a vector core. *)
Definition vec_fire (l : list op) (k : flags) : option (list op * flags) :=
  match l with
  | [] => None
  | OpSetFlag f :: l' => Some (l', set_pending f S k)
  | OpWaitFlag f :: l' => match pending f k with O => None | S _ => Some (l', set_pending f Nat.pred k) end
  | _ :: l' => Some (l', k)
  end.

(** The next operation of the cube core: it sets a flag for both vector cores, and
    waits for both. *)
Definition cube_fire (l : list op) (k0 k1 : flags) : option (list op * flags * flags) :=
  match l with
  | [] => None
  | OpSetFlag f :: l' => Some (l', set_pending f S k0, set_pending f S k1)
  | OpWaitFlag f :: l' =>
      match pending f k0, pending f k1 with
      | S _, S _ => Some (l', set_pending f Nat.pred k0, set_pending f Nat.pred k1)
      | _, _ => None
      end
  | _ :: l' => Some (l', k0, k1)
  end.

Definition fire (w : who) (s : sys) : option sys :=
  match w with
  | WCube => '(l, k0, k1) ← cube_fire (sy_cube s) (sy_flags0 s) (sy_flags1 s); Some (Build_sys l (sy_vec0 s) (sy_vec1 s) k0 k1)
  | WVec0 => '(l, k) ← vec_fire (sy_vec0 s) (sy_flags0 s); Some (Build_sys (sy_cube s) l (sy_vec1 s) k (sy_flags1 s))
  | WVec1 => '(l, k) ← vec_fire (sy_vec1 s) (sy_flags1 s); Some (Build_sys (sy_cube s) (sy_vec0 s) l (sy_flags0 s) k)
  end.

Definition step (s s' : sys) : Prop := exists w, fire w s = Some s'.

Definition finished (s : sys) : Prop := sy_cube s = [] /\ sy_vec0 s = [] /\ sy_vec1 s = [].

Definition no_flags : flags := {| f_c1v1 := 0; f_v1c2 := 0; f_c2v2 := 0 |}.
Definition start (c v0 v1 : list op) : sys := Build_sys c v0 v1 no_flags no_flags.

(** The number of operations left. *)
Definition left_ops (s : sys) : nat := length (sy_cube s) + length (sy_vec0 s) + length (sy_vec1 s).

Lemma vec_fire_tail l k l' k' : vec_fire l k = Some (l', k') -> exists o, l = o :: l'.
Proof. destruct l as [|o l]; [done|]. simpl. destruct o; repeat case_match; intros [= <- _]; by eexists. Qed.

Lemma cube_fire_tail l k0 k1 l' k0' k1' : cube_fire l k0 k1 = Some (l', k0', k1') -> exists o, l = o :: l'.
Proof. destruct l as [|o l]; [done|]. simpl. destruct o; repeat case_match; intros [= <- _ _]; by eexists. Qed.

(** One inversion for all cores. *)
Lemma fire_inv w s s' : fire w s = Some s' ->
  match w with
  | WCube => exists l k0 k1, cube_fire (sy_cube s) (sy_flags0 s) (sy_flags1 s) = Some (l, k0, k1) /\ s' = Build_sys l (sy_vec0 s) (sy_vec1 s) k0 k1
  | WVec0 => exists l k, vec_fire (sy_vec0 s) (sy_flags0 s) = Some (l, k) /\ s' = Build_sys (sy_cube s) l (sy_vec1 s) k (sy_flags1 s)
  | WVec1 => exists l k, vec_fire (sy_vec1 s) (sy_flags1 s) = Some (l, k) /\ s' = Build_sys (sy_cube s) (sy_vec0 s) l (sy_flags0 s) k
  end.
Proof.
  destruct w; simpl; [destruct (cube_fire _ _ _) as [[[l k0] k1]|]|destruct (vec_fire _ _) as [[l k]|]|destruct (vec_fire _ _) as [[l k]|]];
    simpl; try done; intros [= <-]; naive_solver.
Qed.

(** Every step performs one operation. *)
Lemma step_left s s' : step s s' -> left_ops s = S (left_ops s').
Proof.
  intros [w Hw]. apply fire_inv in Hw. unfold left_ops. destruct w.
  - destruct Hw as (l & k0 & k1 & H & ->). apply cube_fire_tail in H as [o ->]. simpl. lia.
  - destruct Hw as (l & k & H & ->). apply vec_fire_tail in H as [o ->]. simpl. lia.
  - destruct Hw as (l & k & H & ->). apply vec_fire_tail in H as [o ->]. simpl. lia.
Qed.

Lemma finished_stuck s s' : finished s -> step s s' -> False.
Proof. intros (H1 & H2 & H3) Hs%step_left. unfold left_ops in Hs. rewrite H1, H2, H3 in Hs. done. Qed.

(** ** Schedules of synchronising operations *)

(** The flags a cube core and a vector core use. *)
Definition cube_sync (o : op) : Prop := o = OpSetFlag syncC1V1 \/ o = OpWaitFlag syncV1C2 \/ o = OpSetFlag syncC2V2.
Definition vec_sync (o : op) : Prop := o = OpWaitFlag syncC1V1 \/ o = OpSetFlag syncV1C2 \/ o = OpWaitFlag syncC2V2.

Definition typed (s : sys) : Prop := Forall cube_sync (sy_cube s) /\ Forall vec_sync (sy_vec0 s) /\ Forall vec_sync (sy_vec1 s).

Lemma step_typed s s' : typed s -> step s s' -> typed s'.
Proof.
  intros (T1 & T2 & T3) [w Hw]. apply fire_inv in Hw. unfold typed. destruct w.
  - destruct Hw as (l & k0 & k1 & H & ->). apply cube_fire_tail in H as [o E]. rewrite E in T1. by inversion T1.
  - destruct Hw as (l & k & H & ->). apply vec_fire_tail in H as [o E]. rewrite E in T2. by inversion T2.
  - destruct Hw as (l & k & H & ->). apply vec_fire_tail in H as [o E]. rewrite E in T3. by inversion T3.
Qed.

(** A cube core and a vector core never compete for a flag. *)
Lemma cube_vec_commute c v k k1 c' k' k1' v' k'' : Forall cube_sync c -> Forall vec_sync v ->
  cube_fire c k k1 = Some (c', k', k1') -> vec_fire v k = Some (v', k'') ->
  exists k3, vec_fire v k' = Some (v', k3) /\ cube_fire c k'' k1 = Some (c', k3, k1').
Proof.
  intros Hc Hv. destruct c as [|o c]; [done|]. destruct v as [|p v]; [done|]. apply Forall_cons in Hc as [Hc _]. apply Forall_cons in Hv as [Hv _].
  destruct k as [[|x] [|y] [|z]], k1 as [x1 [|y1] z1], Hc as [-> | [-> | ->]], Hv as [-> | [-> | ->]]; simpl; try done;
    intros [= <- <- <-] [= <- <-]; eexists; split; reflexivity.
Qed.

Lemma cube_vec_commute' c v k0 k c' k0' k' v' k'' : Forall cube_sync c -> Forall vec_sync v ->
  cube_fire c k0 k = Some (c', k0', k') -> vec_fire v k = Some (v', k'') ->
  exists k3, vec_fire v k' = Some (v', k3) /\ cube_fire c k0 k'' = Some (c', k0', k3).
Proof.
  intros Hc Hv. destruct c as [|o c]; [done|]. destruct v as [|p v]; [done|]. apply Forall_cons in Hc as [Hc _]. apply Forall_cons in Hv as [Hv _].
  destruct k as [[|x] [|y] [|z]], k0 as [x1 [|y1] z1], Hc as [-> | [-> | ->]], Hv as [-> | [-> | ->]]; simpl; try done;
    intros [= <- <- <-] [= <- <-]; eexists; split; reflexivity.
Qed.

Lemma fire_diamond w1 w2 s s1 s2 : typed s -> w1 <> w2 -> fire w1 s = Some s1 -> fire w2 s = Some s2 ->
  exists s3, fire w2 s1 = Some s3 /\ fire w1 s2 = Some s3.
Proof.
  intros (T1 & T2 & T3) Hne H1 H2. apply fire_inv in H1. apply fire_inv in H2.
  destruct w1, w2; try done; destruct H1 as (? & H1), H2 as (? & H2);
    repeat match goal with H : exists _, _ |- _ => destruct H as (? & H) end; destruct H1 as [H1 ->], H2 as [H2 ->].
  - edestruct (cube_vec_commute (sy_cube s) (sy_vec0 s)) as (k3 & A & B); [done..|]. eexists. simpl. by rewrite A, B.
  - edestruct (cube_vec_commute' (sy_cube s) (sy_vec1 s)) as (k3 & A & B); [done..|]. eexists. simpl. by rewrite A, B.
  - edestruct (cube_vec_commute (sy_cube s) (sy_vec0 s)) as (k3 & A & B); [done..|]. eexists. simpl. by rewrite A, B.
  - eexists. simpl. by rewrite H1, H2.
  - edestruct (cube_vec_commute' (sy_cube s) (sy_vec1 s)) as (k3 & A & B); [done..|]. eexists. simpl. by rewrite A, B.
  - eexists. simpl. by rewrite H1, H2.
Qed.

(** If one schedule ends, all do, in the same state. *)
Lemma replay n : forall s f s', typed s -> nsteps step n s f -> finished f -> step s s' -> exists m, n = S m /\ nsteps step m s' f.
Proof.
  induction n as [|n IH]; intros s f s' T Hn Hf [w Hw].
  - inversion Hn; subst. exfalso. eapply finished_stuck; [done|by exists w].
  - inversion Hn as [|? ? t ? [w' Hw'] Hrest]; subst. exists n. split; [done|].
    assert (w = w' \/ w <> w') as [->|Hne] by (destruct w, w'; auto; right; done); [by simplify_eq|].
    destruct (fire_diamond w w' s s' t T Hne Hw Hw') as (u & Hu1 & Hu2).
    assert (typed t) as Tt by (eapply step_typed; [done|by exists w']).
    destruct (IH t f u Tt Hrest Hf (ex_intro _ w Hu2)) as (m & -> & Hm). econstructor; [by exists w'|done].
Qed.

Lemma replay_rtc n s f s' : typed s -> nsteps step n s f -> finished f -> rtc step s s' -> exists m, nsteps step m s' f.
Proof.
  intros T Hn Hf Hr. revert n T Hn. induction Hr as [s|s t s' Hst _ IH]; intros n T Hn; [by exists n|].
  destruct (replay n s f t T Hn Hf Hst) as (m & _ & Hm). apply (IH m); [by eapply step_typed|done].
Qed.

(** ** The skeleton of the pipeline *)

(** The flags of one call, from the presence of the three blocks in flight. *)
Definition seg (isAIV p0 p1 p2 : bool) : list op :=
  if isAIV then (if p1 then [OpWaitFlag syncC1V1; OpSetFlag syncV1C2] else []) ++ (if p2 then [OpWaitFlag syncC2V2] else [])
  else (if p0 then [OpSetFlag syncC1V1] else []) ++ (if p1 then [OpWaitFlag syncV1C2; OpSetFlag syncC2V2] else []).

Fixpoint skel (isAIV p1 p2 : bool) (pat : list bool) : list op :=
  match pat with [] => [] | p0 :: pat => seg isAIV p0 p1 p2 ++ skel isAIV p0 p1 pat end.

Lemma skel_typed pat : forall p1 p2, Forall cube_sync (skel false p1 p2 pat) /\ Forall vec_sync (skel true p1 p2 pat).
Proof.
  induction pat as [|p0 pat IH]; intros p1 p2; simpl; [done|]. destruct (IH p0 p1) as [H1 H2].
  split; apply Forall_app; (split; [|done]); destruct p0, p1, p2; simpl; repeat (apply Forall_cons; split; [unfold cube_sync, vec_sync; by auto|]); by apply Forall_nil.
Qed.

Definition one (b : bool) : nat := if b then 1 else 0.

(** Between two calls: the block of the last call was announced to the vector
    cores, and the product of the call before. *)
Definition between (p1 p2 : bool) (pat : list bool) : sys :=
  let k := {| f_c1v1 := one p1; f_v1c2 := 0; f_c2v2 := one p2 |} in Build_sys (skel false p1 p2 pat) (skel true p1 p2 pat) (skel true p1 p2 pat) k k.

(** A given schedule. *)
Fixpoint exec (ws : list who) (s : sys) : option sys := match ws with [] => Some s | w :: ws => s' ← fire w s; exec ws s' end.

Lemma exec_rtc ws : forall s s', exec ws s = Some s' -> rtc step s s'.
Proof.
  induction ws as [|w ws IH]; intros s s'; simpl; [by intros [= ->]|]. destruct (fire w s) as [t|] eqn:E; [|done]. simpl. intros H.
  eapply rtc_l; [by exists w|by apply IH].
Qed.

(** A call can be completed: first by the vector cores, then by the cube core. *)
Lemma call_run p0 p1 p2 pat : rtc step (between p1 p2 (p0 :: pat)) (between p0 p1 pat).
Proof.
  apply (exec_rtc (replicate (length (seg true p0 p1 p2)) WVec0 ++ replicate (length (seg true p0 p1 p2)) WVec1 ++
                   replicate (length (seg false p0 p1 p2)) WCube)).
  destruct p0, p1, p2; reflexivity.
Qed.

(** The calls of a share: its blocks, then two empty calls. *)
Lemma share_run n : forall p1 p2, rtc step (between p1 p2 (replicate n true ++ [false; false])) (between false false []).
Proof.
  induction n as [|n IH]; intros p1 p2; cbn [replicate app].
  - etrans; [apply call_run|]. apply call_run.
  - etrans; [apply call_run|]. apply IH.
Qed.

(** ** Whole programs *)

Definition is_sync (o : op) : bool := match o with OpSetFlag _ | OpWaitFlag _ => true | _ => false end.
Definition syncs (l : list op) : list op := filter (fun o => is_sync o = true) l.
Definition proj (s : sys) : sys := Build_sys (syncs (sy_cube s)) (syncs (sy_vec0 s)) (syncs (sy_vec1 s)) (sy_flags0 s) (sy_flags1 s).

Lemma syncs_cons o l : syncs (o :: l) = if is_sync o then o :: syncs l else syncs l.
Proof. unfold syncs. rewrite filter_cons. by destruct o. Qed.

Lemma vec_fire_proj l k l' k' : vec_fire l k = Some (l', k') -> (syncs l = syncs l' /\ k' = k) \/ vec_fire (syncs l) k = Some (syncs l', k').
Proof.
  destruct l as [|o l]; [done|]. rewrite syncs_cons. destruct o; simpl; try (intros [= <- <-]; by left).
  - intros [= <- <-]. by right.
  - destruct (pending f k); [done|]. intros [= <- <-]. by right.
Qed.

Lemma cube_fire_proj l k0 k1 l' k0' k1' : cube_fire l k0 k1 = Some (l', k0', k1') ->
  (syncs l = syncs l' /\ k0' = k0 /\ k1' = k1) \/ cube_fire (syncs l) k0 k1 = Some (syncs l', k0', k1').
Proof.
  destruct l as [|o l]; [done|]. rewrite syncs_cons. destruct o; simpl; try (intros [= <- <- <-]; by left).
  - intros [= <- <- <-]. by right.
  - destruct (pending f k0), (pending f k1); try done. intros [= <- <- <-]. by right.
Qed.

Lemma step_proj s s' : step s s' -> rtc step (proj s) (proj s').
Proof.
  intros [w Hw]. apply fire_inv in Hw. destruct w.
  - destruct Hw as (l & k0 & k1 & H & ->). apply cube_fire_proj in H as [(E & -> & ->)|H]; [unfold proj; simpl; by rewrite E|].
    apply rtc_once. exists WCube. simpl. by rewrite H.
  - destruct Hw as (l & k & H & ->). apply vec_fire_proj in H as [(E & ->)|H]; [unfold proj; simpl; by rewrite E|].
    apply rtc_once. exists WVec0. simpl. by rewrite H.
  - destruct Hw as (l & k & H & ->). apply vec_fire_proj in H as [(E & ->)|H]; [unfold proj; simpl; by rewrite E|].
    apply rtc_once. exists WVec1. simpl. by rewrite H.
Qed.

Lemma rtc_proj s s' : rtc step s s' -> rtc step (proj s) (proj s').
Proof. induction 1 as [|s t s' Hst _ IH]; [done|]. etrans; [by apply step_proj|done]. Qed.

(** A core that cannot go on waits for a flag, or is at its end. *)
Lemma vec_stuck l k : vec_fire l k = None -> vec_fire (syncs l) k = None /\ (syncs l = [] -> l = []).
Proof. destruct l as [|o l]; [done|]. destruct o; simpl; try done. rewrite syncs_cons. simpl. by destruct (pending f k). Qed.

Lemma cube_stuck l k0 k1 : cube_fire l k0 k1 = None -> cube_fire (syncs l) k0 k1 = None /\ (syncs l = [] -> l = []).
Proof. destruct l as [|o l]; [done|]. destruct o; simpl; try done. rewrite syncs_cons. simpl. by destruct (pending f k0), (pending f k1). Qed.

Definition stuck (s : sys) : Prop := forall w, fire w s = None.

Lemma stuck_parts s : stuck s <-> cube_fire (sy_cube s) (sy_flags0 s) (sy_flags1 s) = None /\ vec_fire (sy_vec0 s) (sy_flags0 s) = None /\
  vec_fire (sy_vec1 s) (sy_flags1 s) = None.
Proof.
  split.
  - intros Hs. pose proof (Hs WCube) as H1. pose proof (Hs WVec0) as H2. pose proof (Hs WVec1) as H3. simpl in *.
    destruct (cube_fire _ _ _) as [[[]]|], (vec_fire (sy_vec0 s) _) as [[]|], (vec_fire (sy_vec1 s) _) as [[]|]; done.
  - intros (H1 & H2 & H3) []; simpl; by rewrite ?H1, ?H2, ?H3.
Qed.

Lemma stuck_proj s : stuck s -> stuck (proj s) /\ (finished (proj s) -> finished s).
Proof.
  rewrite !stuck_parts. intros (H1 & H2 & H3). apply cube_stuck in H1 as [A1 B1]. apply vec_stuck in H2 as [A2 B2]. apply vec_stuck in H3 as [A3 B3].
  split; [done|]. intros (F1 & F2 & F3). split; [by apply B1|]. split; [by apply B2|by apply B3].
Qed.

Lemma not_stuck s : ~ stuck s -> exists s', step s s'.
Proof.
  intros Hs. destruct (fire WCube s) as [s'|] eqn:E1; [by exists s', WCube|]. destruct (fire WVec0 s) as [s'|] eqn:E2; [by exists s', WVec0|].
  destruct (fire WVec1 s) as [s'|] eqn:E3; [by exists s', WVec1|]. exfalso. apply Hs. by intros [].
Qed.

Lemma finished_run s : forall m f, finished s -> nsteps step m s f -> s = f.
Proof. intros m f Hs Hn. inversion Hn as [|? ? t ? Hst]; subst; [done|]. exfalso. by eapply finished_stuck. Qed.

(** The calls of a core: those of its share, or none. *)
Definition share_pattern (pat : list bool) : Prop := pat = [] \/ exists n, pat = replicate n true ++ [false; false].

(** Whatever the interleaving, the cores never block each other; they end with no
    flag pending. *)
Lemma no_deadlock c v0 v1 pat : share_pattern pat -> syncs c = skel false false false pat -> syncs v0 = skel true false false pat ->
  syncs v1 = skel true false false pat -> forall s, rtc step (start c v0 v1) s ->
  (finished s /\ sy_flags0 s = no_flags /\ sy_flags1 s = no_flags) \/ (~ finished s /\ exists s', step s s').
Proof.
  intros Hpat Hc H0 H1 s Hr. apply rtc_proj in Hr.
  assert (proj (start c v0 v1) = between false false pat) as Hstart by (unfold proj, between; simpl; by rewrite Hc, H0, H1). rewrite Hstart in Hr.
  assert (exists n, nsteps step n (between false false pat) (between false false [])) as [n Hn].
  { apply rtc_nsteps. destruct Hpat as [->|[k ->]]; [done|apply share_run]. }
  assert (typed (between false false pat)) as T by (destruct (skel_typed pat false false); by split).
  assert (finished (between false false [])) as Hf by done.
  destruct (replay_rtc n _ _ _ T Hn Hf Hr) as [m Hm].
  assert (finished s -> sy_flags0 s = no_flags /\ sy_flags1 s = no_flags) as Hflags.
  { intros (F1 & F2 & F3). assert (proj s = between false false []) as Hp.
    { apply (finished_run _ m); [|done]. unfold finished, proj. simpl. by rewrite F1, F2, F3. }
    by injection Hp as _ _ _ -> ->. }
  destruct (decide (left_ops s = O)) as [Hz|Hz].
  - left. assert (finished s) as Hfin; [|by split; [|apply Hflags]]. unfold left_ops in Hz.
    destruct s as [[|] [|] [|] ? ?]; simpl in Hz; try lia. done.
  - right. assert (~ finished s) as Hnf by (intros (F1 & F2 & F3); apply Hz; unfold left_ops; by rewrite F1, F2, F3).
    split; [done|]. apply not_stuck. intros Hst. apply stuck_proj in Hst as [Hst Hfin]. apply Hnf, Hfin.
    revert Hst Hm. generalize (proj s) as u. intros u Hst Hm. inversion Hm as [|? ? t ? [w Hw]]; subst; [done|]. by rewrite Hst in Hw.
Qed.

(** ** The programs of a share *)

Section Programs.
Variables (e : SwaEnv) (c : SwaConst).

Definition call_of (it : item) : option bool := match it with Call i => Some (ri_isValid i) | Zero _ => None end.
Definition some {A} (o : option A) : bool := match o with Some _ => true | None => false end.

Lemma syncs_app l l' : syncs (l ++ l') = syncs l ++ syncs l'.
Proof. apply filter_app. Qed.

Lemma syncs_step i p1 p2 : syncs (step_ops e c (live i) p1 p2) = seg (e_isAIV e) (ri_isValid i) (some p1) (some p2).
Proof.
  unfold step_ops, seg, live. destruct (e_isAIV e), (ri_isValid i), p1, p2; simpl; unfold vec1_ops; simpl; try done;
    rewrite ?syncs_app, ?syncs_cons; simpl; try done; by destruct (_ && _).
Qed.

Lemma syncs_clear ops : Forall (fun o => is_clear o = true) ops -> syncs ops = [].
Proof. induction 1 as [|o l Ho _ IH]; [done|]. rewrite syncs_cons. by destruct o. Qed.

Lemma syncs_pipe items : forall p1 p2, Forall (fun o => is_clear o = true) (flat_map item_zero items) ->
  syncs (pipe e c p1 p2 items) = skel (e_isAIV e) (some p1) (some p2) (omap call_of items).
Proof.
  induction items as [|[i|ops] l IH]; intros p1 p2 Hz; simpl in *; [done|..]; rewrite syncs_app.
  - rewrite syncs_step, IH by done. f_equal. unfold live. by destruct (ri_isValid i).
  - apply Forall_app in Hz as [Hz1 Hz2]. by rewrite syncs_clear, IH.
Qed.
End Programs.

(** The calls for a list of rows. *)
Definition row_pattern (c : SwaConst) (s1 s2 pre : Z -> Z) (rows : list (Z * Z)) : list bool :=
  match rows with [] => [] | _ => replicate (length (flat_map (blocks_of c s1 s2 pre) rows)) true ++ [false; false] end.

Lemma calls_valid items : Forall item_ok items -> omap call_of items = replicate (length (omap item_block items)) true.
Proof. induction 1 as [|[i|ops] l Hi _ IH]; simpl; [done| |done]. simpl in Hi. rewrite Hi. simpl. by f_equal. Qed.

Lemma issues_syncs e c0 s1 s2 pre ops rows : issues e c0 s1 s2 pre ops rows ->
  syncs ops = skel (e_isAIV e) false false (row_pattern c0 s1 s2 pre rows).
Proof.
  intros (c & items & drain & -> & (Hb & Hz & Hok) & Hd & Hl).
  assert (flat_map item_zero (map Call drain) = []) as Hnone by (clear; by induction drain).
  rewrite syncs_pipe by (rewrite flat_map_app, Hnone, app_nil_r, Hz; apply zeros_clear). f_equal.
  destruct rows as [|row rows]; [by destruct Hl as [-> ->]|]. unfold row_pattern. rewrite omap_app, calls_valid, Hb by done. f_equal.
  destruct drain as [|x [|y []]]; try done. apply Forall_cons in Hd as [Hx Hd]. apply Forall_cons in Hd as [Hy _]. simpl. by rewrite Hx, Hy.
Qed.

Lemma row_pattern_share c s1 s2 pre rows : share_pattern (row_pattern c s1 s2 pre rows).
Proof. unfold row_pattern. destruct rows; [by left|]. right. by eexists. Qed.
