(* ===== verification/SasSwaOrder.v ===== *)
(** The order the flags impose on the stages of a cube core and its vector cores:
    no stage works on a block before the stage before it is done with it, and no
    stage is more than two blocks ahead of the next, so that the two buffers
    between them suffice. *)

From S2P Require Import Prelude AscendC TilingContext Aicpu SasMetaOut SasSpec SasCostLemmas SasSwa SasSwaSpec SasSwaLemmas SasSwaRows SasSwaCore SasSwaSync.

(** ** Counting operations *)

Fixpoint tally (k : op -> bool) (l : list op) : nat := match l with [] => 0 | o :: l => one (k o) + tally k l end.

Lemma tally_app k l l' : tally k (l ++ l') = (tally k l + tally k l')%nat.
Proof. induction l; simpl; lia. Qed.

Definition is_stage (st : stage) (o : op) : bool :=
  match st, o with Mm1, OpMm1 _ _ | Mm2, OpMm2 _ _ | Vec1, OpVec1 _ _ | Vec2, OpVec2 _ _ => true | _, _ => false end.
Definition same_flag (f g : sync_flag) : bool :=
  match f, g with syncC1V1, syncC1V1 | syncV1C2, syncV1C2 | syncC2V2, syncC2V2 => true | _, _ => false end.
Definition is_set (f : sync_flag) (o : op) : bool := match o with OpSetFlag g => same_flag f g | _ => false end.
Definition is_wait (f : sync_flag) (o : op) : bool := match o with OpWaitFlag g => same_flag f g | _ => false end.

Lemma tally_syncs k l : (forall o, is_sync o = false -> k o = false) -> tally k (syncs l) = tally k l.
Proof.
  intros Hk. induction l as [|o l IH]; [done|]. rewrite syncs_cons. destruct (is_sync o) eqn:E; simpl; rewrite IH; [done|]. by rewrite Hk.
Qed.

Lemma tally_clear k l : (forall o, is_clear o = true -> k o = false) -> Forall (fun o => is_clear o = true) l -> tally k l = 0%nat.
Proof. intros Hk. induction 1 as [|o l Ho _ IH]; [done|]. simpl. by rewrite Hk, IH. Qed.

(** A property of all the lists a core has left on its way. *)
Fixpoint always (Q : list op -> Prop) (l : list op) : Prop := Q l /\ match l with [] => True | _ :: l' => always Q l' end.

Lemma always_tail Q o l : always Q (o :: l) -> always Q l.
Proof. by intros [_ H]. Qed.

Lemma always_here Q l : always Q l -> Q l.
Proof. destruct l; by intros [H _]. Qed.

(** ** One core *)

(** A cube core announces each product after computing it, and waits before
    using one; it is at most two blocks ahead. *)
Definition cube_order (l : list op) : Prop :=
  (tally (is_stage Mm1) l <= tally (is_set syncC1V1) l)%nat /\ (tally (is_wait syncV1C2) l <= tally (is_stage Mm2) l)%nat /\
  (tally (is_stage Mm2) l <= tally (is_set syncC2V2) l)%nat /\ (tally (is_stage Mm2) l <= tally (is_stage Mm1) l + 2)%nat.

Definition vec_order (l : list op) : Prop :=
  (tally (is_wait syncC1V1) l <= tally (is_stage Vec1) l)%nat /\ (tally (is_stage Vec1) l <= tally (is_set syncV1C2) l)%nat /\
  (tally (is_wait syncC2V2) l <= tally (is_stage Vec2) l)%nat /\ (tally (is_stage Vec2) l <= tally (is_stage Vec1) l + 2)%nat.

(** The counts of a program, by the blocks in flight at its start. *)
Definition cube_counts (n p1 : nat) (l : list op) : Prop :=
  tally (is_stage Mm1) l = n /\ tally (is_set syncC1V1) l = n /\ tally (is_wait syncV1C2) l = (n + p1)%nat /\
  tally (is_stage Mm2) l = (n + p1)%nat /\ tally (is_set syncC2V2) l = (n + p1)%nat.
Definition vec_counts (n p1 p2 : nat) (l : list op) : Prop :=
  tally (is_wait syncC1V1) l = (n + p1)%nat /\ tally (is_stage Vec1) l = (n + p1)%nat /\ tally (is_set syncV1C2) l = (n + p1)%nat /\
  tally (is_wait syncC2V2) l = (n + p1 + p2)%nat /\ tally (is_stage Vec2) l = (n + p1 + p2)%nat.

(** Operations that count for nothing. *)
Lemma skip_clear (Q : list op -> Prop) ops l : (forall o l, is_clear o = true -> Q l -> Q (o :: l)) -> Forall (fun o => is_clear o = true) ops ->
  always Q l -> always Q (ops ++ l).
Proof.
  intros HQ. induction 1 as [|o ops Ho _ IH]; [done|]. intros Hl. simpl. split; [|by apply IH]. apply HQ; [done|]. apply always_here. by apply IH.
Qed.

Lemma cube_order_clear o l : is_clear o = true -> cube_order l -> cube_order (o :: l).
Proof. by destruct o. Qed.
Lemma vec_order_clear o l : is_clear o = true -> vec_order l -> vec_order (o :: l).
Proof. by destruct o. Qed.

Section OnePipe.
Variables (e : SwaEnv) (c : SwaConst) (x y : RunInfo).
Hypothesis Hx : ri_isValid x = false.
Hypothesis Hy : ri_isValid y = false.

Lemma cube_pipe items : e_isAIV e = false -> Forall item_ok items -> Forall (fun o => is_clear o = true) (flat_map item_zero items) -> forall p1 p2,
  let l := pipe e c p1 p2 (items ++ [Call x; Call y]) in
  cube_counts (length (omap call_of items)) (one (some p1)) l /\ always cube_order l.
Proof.
  intros He Hok Hz. induction Hok as [|it l Hit _ IH]; intros p1 p2.
  - simpl. unfold live, step_ops. rewrite Hx, Hy, He. simpl. unfold cube_counts. destruct p1; simpl; unfold cube_order; simpl; split_and!; lia.
  - simpl in Hz. apply Forall_app in Hz as [Hz1 Hz2]. destruct it as [i|ops]; simpl in *.
    + unfold live, step_ops. rewrite Hit, He. destruct (IH Hz2 (Some i) p1) as [(C1 & C2 & C3 & C4 & C5) Ha].
      simpl in C1, C2, C3, C4, C5. unfold cube_counts, cube_order.
      destruct p1; simpl; change (list_omap item bool call_of l) with (omap call_of l); rewrite C1, C2, C3, C4, C5; (split; [split_and!; lia|]);
        split_and!; try lia; exact Ha.
    + destruct (IH Hz2 p1 p2) as [(C1 & C2 & C3 & C4 & C5) Ha]. split.
      * unfold cube_counts. rewrite !tally_app, !(tally_clear _ ops) by (done || by intros []). done.
      * apply skip_clear; [exact cube_order_clear|done|exact Ha].
Qed.

Lemma vec_pipe items : e_isAIV e = true -> Forall item_ok items -> Forall (fun o => is_clear o = true) (flat_map item_zero items) -> forall p1 p2,
  let l := pipe e c p1 p2 (items ++ [Call x; Call y]) in
  vec_counts (length (omap call_of items)) (one (some p1)) (one (some p2)) l /\ always vec_order l.
Proof.
  intros He Hok Hz. induction Hok as [|it l Hit _ IH]; intros p1 p2.
  - simpl. unfold live, step_ops. rewrite Hx, Hy, He. simpl. unfold vec_counts. destruct p1 as [i1|], p2; simpl; unfold vec1_ops; simpl;
      try (destruct (_ && _)); simpl; unfold vec_order; simpl; split_and!; lia.
  - simpl in Hz. apply Forall_app in Hz as [Hz1 Hz2]. destruct it as [i|ops]; simpl in *.
    + unfold live, step_ops. rewrite Hit, He. destruct (IH Hz2 (Some i) p1) as [(C1 & C2 & C3 & C4 & C5) Ha].
      simpl in C1, C2, C3, C4, C5. unfold vec_counts, vec_order.
      destruct p1 as [i1|], p2; simpl; unfold vec1_ops; simpl; try (destruct (_ && _)); simpl; change (list_omap item bool call_of l) with (omap call_of l);
        rewrite C1, C2, C3, C4, C5; simpl in *;
        (split; [split_and!; lia|]); first [exact Ha | split_and!; try lia; exact Ha].
    + destruct (IH Hz2 p1 p2) as [(C1 & C2 & C3 & C4 & C5) Ha]. split.
      * unfold vec_counts. rewrite !tally_app, !(tally_clear _ ops) by (done || by intros []). done.
      * apply skip_clear; [exact vec_order_clear|done|exact Ha].
Qed.
End OnePipe.

(** ** The three cores *)

(** Flags pending are flags set and not yet waited for. *)
Definition balanced (c v : list op) (k : flags) : Prop :=
  tally (is_wait syncC1V1) v = (f_c1v1 k + tally (is_set syncC1V1) c)%nat /\
  tally (is_wait syncV1C2) c = (f_v1c2 k + tally (is_set syncV1C2) v)%nat /\
  tally (is_wait syncC2V2) v = (f_c2v2 k + tally (is_set syncC2V2) c)%nat.

Lemma typed_head (Q : op -> Prop) o l : Forall Q (syncs (o :: l)) -> Forall Q (syncs l) /\ (is_sync o = true -> Q o).
Proof. rewrite syncs_cons. destruct (is_sync o); [by intros [? ?]%Forall_cons|done]. Qed.

Lemma vec_balanced c v k v' k' : Forall vec_sync (syncs v) -> vec_fire v k = Some (v', k') -> balanced c v k ->
  balanced c v' k' /\ Forall vec_sync (syncs v') /\ (forall Q, always Q v -> always Q v').
Proof.
  destruct v as [|o v]; [done|]. intros [HT Ho]%typed_head Hf HB. unfold balanced in *. destruct k as [x y z].
  assert (v' = v /\ (is_sync o = false -> k' = {| f_c1v1 := x; f_v1c2 := y; f_c2v2 := z |})) as [-> Hk].
  { destruct o; simpl in Hf; try (by injection Hf as <- <-). destruct (pending f _); [done|]. by injection Hf as <- <-. }
  split; [|split; [done|intros Q; apply always_tail]]. destruct (is_sync o) eqn:E.
  - destruct (Ho eq_refl) as [-> | [-> | ->]]; simpl in *.
    + destruct x; [done|]. injection Hf as <-. simpl. lia.
    + injection Hf as <-. simpl. lia.
    + destruct z; [done|]. injection Hf as <-. simpl. lia.
  - rewrite (Hk eq_refl). destruct o; simpl in *; try done; lia.
Qed.

Lemma cube_balanced c v0 v1 k0 k1 c' k0' k1' : Forall cube_sync (syncs c) -> cube_fire c k0 k1 = Some (c', k0', k1') ->
  balanced c v0 k0 -> balanced c v1 k1 ->
  balanced c' v0 k0' /\ balanced c' v1 k1' /\ Forall cube_sync (syncs c') /\ (forall Q, always Q c -> always Q c').
Proof.
  destruct c as [|o c]; [done|]. intros [HT Ho]%typed_head Hf HB0 HB1. unfold balanced in *. destruct k0 as [x y z], k1 as [x1 y1 z1].
  assert (c' = c /\ (is_sync o = false -> k0' = {| f_c1v1 := x; f_v1c2 := y; f_c2v2 := z |} /\ k1' = {| f_c1v1 := x1; f_v1c2 := y1; f_c2v2 := z1 |})) as [-> Hk].
  { destruct o; simpl in Hf; try (by injection Hf as <- <- <-). do 2 (destruct (pending f _) in Hf; [done|]). by injection Hf as <- <- <-. }
  apply and_assoc. split; [|split; [done|intros Q; apply always_tail]]. destruct (is_sync o) eqn:E.
  - destruct (Ho eq_refl) as [-> | [-> | ->]]; simpl in *.
    + injection Hf as <- <-. simpl. lia.
    + destruct y, y1; try done. injection Hf as <- <-. simpl. lia.
    + injection Hf as <- <-. simpl. lia.
  - destruct (Hk eq_refl) as [-> ->]. destruct o; simpl in *; try done; lia.
Qed.

Record ordered (s : sys) : Prop := {
  or_cube : always cube_order (sy_cube s);
  or_vec0 : always vec_order (sy_vec0 s);
  or_vec1 : always vec_order (sy_vec1 s);
  or_types : Forall cube_sync (syncs (sy_cube s)) /\ Forall vec_sync (syncs (sy_vec0 s)) /\ Forall vec_sync (syncs (sy_vec1 s));
  or_flags0 : balanced (sy_cube s) (sy_vec0 s) (sy_flags0 s);
  or_flags1 : balanced (sy_cube s) (sy_vec1 s) (sy_flags1 s) }.

Lemma step_ordered s s' : ordered s -> step s s' -> ordered s'.
Proof.
  intros [O1 O2 O3 (T1 & T2 & T3) B0 B1] [w Hw]. apply fire_inv in Hw. destruct w.
  - destruct Hw as (l & k0 & k1 & H & ->). destruct (cube_balanced _ _ _ _ _ _ _ _ T1 H B0 B1) as (? & ? & ? & HA). constructor; simpl; auto.
  - destruct Hw as (l & k & H & ->). destruct (vec_balanced (sy_cube s) _ _ _ _ T2 H B0) as (? & ? & HA). constructor; simpl; auto.
  - destruct Hw as (l & k & H & ->). destruct (vec_balanced (sy_cube s) _ _ _ _ T3 H B1) as (? & ? & HA). constructor; simpl; auto.
Qed.

(** The order of the stages, by the operations a cube core and one of its vector
    cores have left. *)
Definition stage_order (c v : list op) : Prop :=
  let left st l := tally (is_stage st) l in
  (left Mm1 c <= left Vec1 v /\ left Vec1 v <= left Mm1 c + 2)%nat /\
  (left Vec1 v <= left Mm2 c /\ left Mm2 c <= left Vec1 v + 2)%nat /\
  (left Mm2 c <= left Vec2 v /\ left Vec2 v <= left Mm2 c + 2)%nat.

Lemma ordered_stages s : ordered s -> stage_order (sy_cube s) (sy_vec0 s) /\ stage_order (sy_cube s) (sy_vec1 s).
Proof.
  intros [O1%always_here O2%always_here O3%always_here _ (A1 & A2 & A3) (B1 & B2 & B3)].
  destruct O1 as (C1 & C2 & C3 & C4), O2 as (D1 & D2 & D3 & D4), O3 as (E1 & E2 & E3 & E4). unfold stage_order. lia.
Qed.

(** The programs of one cube core and its vector cores for the same rows. *)
Lemma issues_ordered ec e0 e1 c0 s1 s2 pre rows pc p0 p1 : e_isAIV ec = false -> e_isAIV e0 = true -> e_isAIV e1 = true ->
  issues ec c0 s1 s2 pre pc rows -> issues e0 c0 s1 s2 pre p0 rows -> issues e1 c0 s1 s2 pre p1 rows -> ordered (start pc p0 p1).
Proof.
  intros Hc H0 H1 Ic I0 I1. pose proof (issues_syncs _ _ _ _ _ _ _ Ic) as Sc. pose proof (issues_syncs _ _ _ _ _ _ _ I0) as S0.
  pose proof (issues_syncs _ _ _ _ _ _ _ I1) as S1. rewrite Hc in Sc. rewrite H0 in S0. rewrite H1 in S1.
  destruct (skel_typed (row_pattern c0 s1 s2 pre rows) false false) as [Tc Tv].
  assert (forall e ops, issues e c0 s1 s2 pre ops rows -> let n := length (flat_map (blocks_of c0 s1 s2 pre) rows) in
    (e_isAIV e = false -> cube_counts n 0 ops /\ always cube_order ops) /\ (e_isAIV e = true -> vec_counts n 0 0 ops /\ always vec_order ops)) as Hcounts.
  { intros e ops (c & items & drain & -> & (Hb & Hz & Hok) & Hd & Hl). cbv zeta. rewrite <- Hb.
    assert (length (omap item_block items) = length (omap call_of items)) as -> by (rewrite (calls_valid items Hok); by rewrite length_replicate).
    destruct rows as [|row rows]; [destruct Hl as [-> ->]; unfold cube_counts, vec_counts, cube_order, vec_order; simpl; split; intros _; split_and!; lia|].
    destruct drain as [|x [|y []]]; try done. apply Forall_cons in Hd as [Hx Hd]. apply Forall_cons in Hd as [Hy _].
    assert (Forall (fun o => is_clear o = true) (flat_map item_zero items)) as Hclear by (rewrite Hz; apply zeros_clear). split; intros He.
    - apply (cube_pipe e c x y Hx Hy items He Hok Hclear None None).
    - apply (vec_pipe e c x y Hx Hy items He Hok Hclear None None). }
  destruct (proj1 (Hcounts _ _ Ic) Hc) as [(C1 & C2 & C3 & C4 & C5) Oc]. destruct (proj2 (Hcounts _ _ I0) H0) as [(D1 & D2 & D3 & D4 & D5) Ov0].
  destruct (proj2 (Hcounts _ _ I1) H1) as [(E1 & E2 & E3 & E4 & E5) Ov1].
  constructor; simpl; try done; [rewrite Sc, S0, S1; done|..]; unfold balanced; simpl; lia.
Qed.
