(* ===== verification/SasSwaSyncClaims.v ===== *)
(** A cube core of the sliding-window kernel and its two vector cores in a launch
    with the metadata of [SparseAttnSharedkvMetadata]: they never block each
    other, and their stages keep within the buffers between them. *)

From S2P Require Import Prelude AscendC TilingContext Aicpu SasMeta SasMetaCost SasMetaAssign SasMetaOut SasSpec SasPlanLemmas SasCostLemmas SasBatchLemmas SasPlan SasPrepare SasMetaClaims SasSwa SasSwaSpec SasSwaLemmas SasSwaRows SasSwaCore SasSwaClaims SasSwaSync SasSwaOrder.

(** ** The programs of a launch *)

(** The programs of cube core [i] and of its vector cores. *)
Record group_programs (l : SwaLaunch) (td : SwaTiling) (buf : list Z) (i : Z) (pc p0 p1 : list op) : Prop := {
  gp_cube : launch_core l td buf false i = Ok pc;
  gp_vec0 : launch_core l td buf true (2 * i) = Ok p0;
  gp_vec1 : launch_core l td buf true (2 * i + 1) = Ok p1 }.

(** A launch whose cores all run: each cube core and its vector cores issue the
    stages of the same rows. *)
Lemma group_issues ctx k s1 s2 pre words fuel typeCost l td :
  sas_call ctx k s1 s2 words -> enough_fuel k s1 fuel -> swa_call l td k s1 s2 pre ->
  exists buf, Compute' fuel typeCost ctx = Ok (KERNEL_STATUS_OK, Some buf) /\
    forall i, 0 <= i < aicCoreNum_ k -> exists pc p0 p1 rows, group_programs l td buf i pc p0 p1 /\
      let c := tiling_const (l_templateMode l) td in
      issues (SwaInit l false i) c s1 s2 pre pc rows /\ issues (SwaInit l true (2 * i)) c s1 s2 pre p0 rows /\
      issues (SwaInit l true (2 * i + 1)) c s1 s2 pre p1 rows.
Proof.
  intros Call F C. destruct (Compute_plan _ _ _ _ _ fuel typeCost Call F) as (r & buf & HC & Hplan & Ho & Hfa & _).
  pose proof (sas_call_ready _ _ _ _ _ Call) as [V SL _ _ _ _]. exists buf. split; [done|]. intros i Hi.
  assert (is_plan (batchSize_ k) s1 (aicCoreNum_ k) r) as Hplan'.
  { eapply is_plan_ext; [|done]. intros b Hb. apply rows_are_queries; [done|apply C|]. by apply (sl_s1_range k s1 s2 SL). }
  assert (meta_room buf) as Hroom by (unfold meta_room; rewrite (proj1 Ho); apply Call).
  assert (aicCoreNum_ k <= 36) as Hc36 by apply Call.
  assert (forall v idx, 0 <= idx -> cube_of v idx = i -> exists ops, launch_core l td buf v idx = Ok ops /\
    issues (SwaInit l v idx) (tiling_const (l_templateMode l) td) s1 s2 pre ops
      (if i <? sr_usedCoreNum r then share_rows (tiling_const (l_templateMode l) td) s1 (core_start r i) (core_end r i) else [])) as Hcore.
  { intros v idx Hidx Heq. rewrite <- Heq. apply (launch_core_spec l td k s1 s2 pre buf r); try done. lia. }
  destruct (Hcore false i) as (pc & Hpc & Ic); [lia|done|].
  destruct (Hcore true (2 * i)) as (p0 & Hp0 & I0); [lia|unfold cube_of; zlia|].
  destruct (Hcore true (2 * i + 1)) as (p1 & Hp1 & I1); [lia|unfold cube_of; zlia|].
  exists pc, p0, p1. eexists. split; [by constructor|]. cbv zeta. split; [exact Ic|]. split; [exact I0|exact I1].
Qed.

(** The steps made and the operations left. *)
Lemma steps_left n s s' : nsteps step n s s' -> left_ops s = (n + left_ops s')%nat.
Proof. induction 1 as [|n s t s' Hst _ IH]; [done|]. apply step_left in Hst. lia. Qed.

Lemma left_finished s : finished s <-> left_ops s = O.
Proof.
  unfold finished, left_ops. destruct s as [[|] [|] [|] ? ?]; simpl; (split; [try (by intros _); intros (? & ? & ?); done|]); try lia; done.
Qed.

(** ** The claims *)

(** C11. The cores never deadlock.  For a call that passes the checks and is within
    the limits of [sas_limits], which the checks do not cover, and a launch of the sliding-window kernel with its metadata, take a cube core and its two
    vector cores in any interleaving of their operations, where a wait blocks
    until its flag was set: as long as an operation is left some core can perform
    its next one, and after as many steps as there are operations all three
    cores are at their ends with no flag pending. *)
Theorem sas_cores_never_deadlock ctx k s1 s2 pre words fuel typeCost l td :
  sas_call ctx k s1 s2 words -> enough_fuel k s1 fuel -> swa_call l td k s1 s2 pre ->
  exists buf, Compute' fuel typeCost ctx = Ok (KERNEL_STATUS_OK, Some buf) /\
    forall i, 0 <= i < aicCoreNum_ k -> exists pc p0 p1, group_programs l td buf i pc p0 p1 /\
      let total := left_ops (start pc p0 p1) in
      forall n s, nsteps step n (start pc p0 p1) s ->
        (n = total /\ finished s /\ sy_flags0 s = no_flags /\ sy_flags1 s = no_flags) \/ ((n < total)%nat /\ exists s', step s s').
Proof.
  intros Call F C. destruct (group_issues _ _ _ _ _ _ fuel typeCost l td Call F C) as (buf & HC & Hg). exists buf. split; [done|].
  intros i Hi. destruct (Hg i Hi) as (pc & p0 & p1 & rows & G & Ic & I0 & I1). exists pc, p0, p1. split; [done|]. cbv zeta. intros n s Hn.
  pose proof (steps_left _ _ _ Hn) as Hleft. pose proof (left_finished s) as Hfin.
  destruct (no_deadlock pc p0 p1 (row_pattern (tiling_const (l_templateMode l) td) s1 s2 pre rows) (row_pattern_share _ _ _ _ _)
    (issues_syncs _ _ _ _ _ _ _ Ic) (issues_syncs _ _ _ _ _ _ _ I0) (issues_syncs _ _ _ _ _ _ _ I1) s) as [(Hf & Hk)|(Hf & Hs)].
  - apply rtc_nsteps. by exists n.
  - left. apply Hfin in Hf as Hz. split; [lia|done].
  - right. split; [|done]. destruct (decide (left_ops s = O)) as [Hz|]; [by apply Hfin in Hz|lia].
Qed.

Lemma sas_cores_never_deadlock_witness : exists buf, Compute' 100 (fun _ _ => 0) ctx3 = Ok (KERNEL_STATUS_OK, Some buf) /\
  exists pc p0 p1, group_programs launch3 tiling3 buf 0 pc p0 p1 /\
    (finished (start pc p0 p1) \/ exists s', step (start pc p0 p1) s').
Proof.
  destruct (sas_cores_never_deadlock ctx3 kernel3 queries3 keys3 start3 (replicate 1024 0) 100 (fun _ _ => 0) launch3 tiling3 call3 fuel3 swa_call3)
    as (buf & HC & Hrun). exists buf. split; [exact HC|].
  destruct (Hrun 0) as (pc & p0 & p1 & G & Hs); [split; vm_compute; [discriminate|reflexivity]|]. exists pc, p0, p1. split; [exact G|].
  destruct (Hs 0%nat _ (nsteps_O _ _)) as [(_ & Hf & _)|(_ & Hstep)]; [left; exact Hf|right; exact Hstep].
Defined.

(** C12. Two buffers suffice.  In the same launch all four stages take the same
    blocks in the same order, and in every state the three cores can reach, for
    each vector core: the first product of a block is complete before its
    softmax starts, the softmax before the second product and the second product
    before the output is updated, and no stage is more than two blocks ahead of
    the next one, so that a stage never overwrites a buffer, of the two it
    alternates between, that the next stage has not read. *)
Theorem sas_stages_in_order ctx k s1 s2 pre words fuel typeCost l td :
  sas_call ctx k s1 s2 words -> enough_fuel k s1 fuel -> swa_call l td k s1 s2 pre ->
  exists buf, Compute' fuel typeCost ctx = Ok (KERNEL_STATUS_OK, Some buf) /\
    forall i, 0 <= i < aicCoreNum_ k -> exists pc p0 p1 blocks, group_programs l td buf i pc p0 p1 /\
      (forall st, side_of st = false -> omap (stage_block st) pc = blocks) /\
      (forall st, side_of st = true -> omap (stage_block st) p0 = blocks /\ omap (stage_block st) p1 = blocks) /\
      forall s, rtc step (start pc p0 p1) s -> stage_order (sy_cube s) (sy_vec0 s) /\ stage_order (sy_cube s) (sy_vec1 s).
Proof.
  intros Call F C. destruct (group_issues _ _ _ _ _ _ fuel typeCost l td Call F C) as (buf & HC & Hg). exists buf. split; [done|].
  intros i Hi. destruct (Hg i Hi) as (pc & p0 & p1 & rows & G & Ic & I0 & I1). exists pc, p0, p1. eexists. split; [done|]. cbv zeta in *.
  split; [|split].
  - intros st Hst. by apply (issues_stage _ _ _ _ _ _ _ st Ic).
  - intros st Hst. split; [by apply (issues_stage _ _ _ _ _ _ _ st I0)|by apply (issues_stage _ _ _ _ _ _ _ st I1)].
  - intros s Hr. apply ordered_stages.
    assert (ordered (start pc p0 p1)) as Ho.
    { eapply (issues_ordered (SwaInit l false i) (SwaInit l true (2 * i)) (SwaInit l true (2 * i + 1))); [done..|exact Ic|exact I0|exact I1]. }
    revert Ho. induction Hr as [|s t u Hst _ IH]; [done|]. intros Ho. apply IH. by eapply step_ordered.
Qed.

Lemma sas_stages_in_order_witness : exists buf, Compute' 100 (fun _ _ => 0) ctx3 = Ok (KERNEL_STATUS_OK, Some buf) /\
  exists pc p0 p1, group_programs launch3 tiling3 buf 0 pc p0 p1 /\ omap (stage_block Mm1) pc = omap (stage_block Vec2) p1 /\
    forall s, step (start pc p0 p1) s -> stage_order (sy_cube s) (sy_vec0 s).
Proof.
  destruct (sas_stages_in_order ctx3 kernel3 queries3 keys3 start3 (replicate 1024 0) 100 (fun _ _ => 0) launch3 tiling3 call3 fuel3 swa_call3)
    as (buf & HC & Hrun). exists buf. split; [exact HC|].
  destruct (Hrun 0) as (pc & p0 & p1 & blocks & G & Hc & Hv & Hs); [split; vm_compute; [discriminate|reflexivity]|]. exists pc, p0, p1. split; [exact G|].
  split; [rewrite (Hc Mm1 eq_refl); symmetry; exact (proj2 (Hv Vec2 eq_refl))|].
  intros s Hst. exact (proj1 (Hs s (rtc_once _ _ Hst))).
Defined.
